(* ===== verification/_CoqProject ===== *)
-Q . S2P
Prelude.v
Utils.v
UsbClient.v
InotifyLimits.v
Ring.v
ShList.v
Io.v
Shell.v
ShellFacts.v
BipBuffer.v
BipFacts.v
Win32Fds.v
Win32Facts.v
Wire.v
UsbHost.v
UsbScan.v
UsbPoll.v
UsbTransfer.v
FdEvent.v
EventMap.v
Jdwp.v
JdwpFacts.v
JdwpRun.v
JdwpTrace.v
RedBlack.v
RedBlackShape.v
RedBlackInsert.v
RedBlackSearch.v
RedBlackDelete.v
RedBlackFacts.v
Inotify.v
WatchTable.v
InotifyFacts.v
Watcher.v
WatcherFacts.v
Zip.v
ZipFacts.v
SyncBase.v
SyncServer.v
SyncClient.v
SyncFs.v
SyncRun.v
SyncTransfer.v
SyncApk.v
SyncSafety.v
Services.v
ServicesFacts.v
ServicesScan.v
Daemon.v
SyncLink.v
SyncDemo.v
World.v
Transports.v
Listeners.v
HostRequest.v
Sockets.v
Server.v
Startup.v
ServerInv.v
TransportList.v
SocketsSafe.v
ServerSafe.v
Streams.v
Requests.v
ServerEvents.v
ServerRequests.v
ServerClients.v
ServerTrace.v
Closing.v
AdbClient.v
CommandLine.v
ClientServer.v
CommandFacts.v
TransportFacts.v
ServerDemo.v
CommandDemo.v
