(* ===== verification/Prelude.v ===== *)
(** * ADBLink: a verification of the Android debug bridge and of directory linking

    ADBLink is the Android debug bridge (adb) with one command added: [adb link]
    keeps a directory of the host and a directory of the device the same.  A
    client program talks to a server process on the host over a loopback socket;
    the server talks to the daemon of each device over USB or TCP with packets;
    the daemon runs services, among them the file sync service that push, pull,
    sync and link use.  Client, server and daemon are built from the same files
    (src/src/system/core/adb); [adb link] adds watcher.c and the library
    libinotifytools.

    ** How the program is modelled

    Functions of the program are functions here, with the source's names where
    Rocq allows it.  State is passed by a monad [M W A] over the state [W] of the
    component; a call that cannot return is an [error]: [EFatal] is [fatal()] or
    [exit()], [EUndef] is undefined behaviour (a null or dangling pointer, an
    index out of range), [EDeadlock] is a mutex taken twice, and [EFuel] is an
    artefact of the model.  Integers are [Z] with the wrap-around of their width
    written out ([u32], [s32]); bytes are integers in [0, 256), strings and memory
    regions lists of them.  Pointers to objects of the program are addresses
    into finite maps; a freed object is no longer in its map.  Function pointers
    are values of an enumeration of the functions stored there, dispatched by
    the functions that call them.  The kernel is a parameter: descriptors carry
    a script of answers (short transfers, errors, end of file), file systems are
    a class with laws, new descriptors come from a list; theorems hold for every
    script.

    ** Files and what they model

    - Prelude.v: integers, byte strings, C string functions, the monad, tactics.
    - Ring.v: circular doubly linked lists with their pointers in memory, shared by
      the lists of transports, of the shell and of the JDWP service.
    - ShList.v: the list library of the client (shlist.c).  Shell.v: the terminal
      thread of [adb shell] (commandline.c, history.h).  ShellFacts.v: it is a line
      editor.
    - Utils.v: text in bounded buffers (utils.c).
    - Io.v: readx, writex, read_packet, write_packet, the registration messages
      (transport.c) and sendfailmsg (sockets.c).
    - UsbClient.v: the USB device of the daemon and the thread that opens it
      (usb_linux_client.c).
    - Services.v: the services that the daemon runs in threads and how it chooses and
      starts them (services.c, framebuffer_service.c, log_service.c, remount_service.c).
      ServicesFacts.v: they end and close what they opened.  ServicesScan.v: the numbers
      and tables they read.  Daemon.v: the start of the daemon (adb_main of adb.c as the
      device compiles it), its restarts, and when it runs as root.
    - BipBuffer.v: the socket pairs that adb has on Windows, with the threads that use
      them (sysdeps_win32.c).  BipFacts.v: they are queues.  Win32Fds.v: the table of
      descriptors they live in.  Win32Facts.v: its guarantees.
    - Wire.v: packets (adb.h), their checks (transport.c), the two transports'
      remote_read and remote_write (transport_local.c, transport_usb.c,
      usb_linux_client.c).
    - UsbHost.v: finding devices on the buses of the host, their serial numbers, and
      transfers (usb_linux.c, usb_vendors.c, is_adb_interface of transport_usb.c).
      UsbScan.v: descriptors.  UsbPoll.v: the list of open devices.
      UsbTransfer.v: writing and reading.
    - FdEvent.v: the event loop (fdevent.c, the select build): table, descriptor
      sets, pending list.  EventMap.v: what its users need of it.
    - Jdwp.v: processes that can be debugged and the services about them
      (jdwp_service.c).  JdwpFacts.v, JdwpRun.v: the invariant and the handlers.
      JdwpTrace.v: sequences of events, and the theorems.
    - RedBlack.v: the balanced trees of libinotifytools (redblack.c) with their
      nodes in memory.  RedBlackShape.v, RedBlackInsert.v, RedBlackSearch.v and
      RedBlackDelete.v: trees in memory and what the operations do to them.
      RedBlackFacts.v: the theorems.
    - Inotify.v: the rest of libinotifytools (inotifytools.c): names of events, the
      table of watches in two trees, watching directory trees, reading, ignoring,
      counting and formatting events.  InotifyLimits.v: the limits it reads from /proc.
      WatchTable.v: the table is a map.
      InotifyFacts.v: names, formats and the order of events.
    - Watcher.v: the watcher thread of [adb link] (watcher.c), over a class
      [Device] for the connections to the server.  WatcherFacts.v: what the device
      gets.
    - Zip.v: libzipfile (zipfile.c, centraldir.c), which checks packages.
      ZipFacts.v: archives it reads and archives it misreads.
    - SyncBase.v: messages of the sync protocol and the file system class.
      SyncServer.v: the sync service (file_sync_service.c).  SyncClient.v: the
      sync client (file_sync_client.c) with the directory copies of push, pull,
      sync and link.  SyncFs.v: laws of the file system and an instance.
      SyncRun.v: composing runs.  SyncTransfer.v, SyncSafety.v, SyncLink.v: the
      theorems on single files, on listings and on whole directories.  SyncApk.v:
      pushing a package with its check.  SyncDemo.v: concrete sessions.
    - World.v: the state of the server: sockets, transports, listeners, trackers,
      events, descriptors, mutexes.  Transports.v: the transport list, choosing
      and listing transports, references, registration, the packet threads
      (transport.c, transport_local.c, transport_usb.c).  Listeners.v and
      HostRequest.v: listeners and requests (adb.c).  Sockets.v: local, remote
      and smart sockets and the services (sockets.c, services.c).  Server.v:
      packets and events at the server (adb.c).  Startup.v: adb_main.
    - ServerInv.v: the invariant of the server's objects.  TransportList.v: the
      doubly linked list of transports.  SocketsSafe.v, ServerSafe.v,
      ServerTrace.v: the invariant is established and kept.  Streams.v, Closing.v,
      Requests.v, TransportFacts.v: what sockets, requests and transports do.
    - AdbClient.v: the client's side of the server protocol (adb_client.c).
      ClientServer.v: client and server understand each other.
    - CommandLine.v: flags, paths and all commands of the client (commandline.c,
      console.c, get_my_path_linux.c), over a class [Host] for what they start
      besides requests.  CommandFacts.v: installing packages and [adb link].
    - ServerDemo.v, CommandDemo.v: the theorems on concrete states.

    ** What the theorems show

    - Server: from startup on, whatever clients, devices and packets do within
      the events modelled, no object is used after it is freed, no mutex is taken
      twice, peers point at each other and the lists are consistent
      (server_trace_safe, handle_packet_safe).  Data passes local sockets without
      loss, repetition or reordering (Streams.v).  Opening a connection binds the
      two ends (Closing.v).  Requests are parsed however they are split
      (Requests.v).  Which transport a request gets is characterised by a filter
      (acquire_picks); a waiting request is answered once a device comes online
      (wait_for_state_answers).
    - Sync: a push leaves the remote file with the local file's contents, time
      and permissions, a pull the reverse, with the two programs run against each
      other (SyncTransfer.v); listings arrive complete; the service terminates on
      every input.
    - Packages: libzipfile lists and unpacks the archives of its format
      (zip_reads_archive); a checked push delivers a package with a manifest and
      leaves the device alone otherwise (push_checks_package), though an entry whose
      name is a prefix of the manifest's passes for it (apk_check_by_prefix).
    - Commands: [adb install] runs the package manager on the copy with the user's
      words and removes it (install_runs_package_manager); [adb link] synchronises
      and watches as the server's lists of devices come (link_follows_device_lists),
      which it recognises by their length (link_needs_twelve_characters).
    - Shell: the list library implements lists (shlist_refines_list), the terminal
      thread a line editor with a history (shell_edits_lines), and the session ends
      at the escape sequence however it is split (shell_escape_found).
    - Debugging: trackers of the process list are told every change
      (jdwp_trackers_up_to_date); a debugger reaches the process it asks for
      (debugger_reaches_process).
    - Transports: packets survive any split of the stream, damaged ones are
      rejected, nothing is read beyond a packet (Wire.v); the two threads of a
      transport deliver the packets in order between the SYNC packets.
    - The daemon: a device as it is sold never gets a daemon that takes requests as root,
      whatever clients and programs do (production_never_root); where debugging is allowed
      a request makes it root (root_request_gives_root).  Every service ends and closes its
      socket once (services_close_socket); the remount service finds the partition
      (remount_finds_system), the recovery service saves the update (recover_saves_update),
      the framebuffer service sends the screen, with up to 256 bytes too many
      (framebuffer_sends_screen), and a port reaches the restarted daemon (tcpip_sets_port).
    - The daemon's USB device is opened again after every kick, with one descriptor at a
      time (usb_client_reopens).
    - Windows: the circular buffer of two regions is a queue (bip_refines_queue); its
      threads keep the stream and lose no wake-up in any interleaving (bip_threads_safe),
      but closing can lose what was written last (bip_close_loses_data); socket pairs
      connect two new descriptors (socketpair_connects).
    - Text appended to a bounded buffer stays inside it and terminated
      (buffer_holds_prefix).
    - USB: the scan of a device's descriptors finds the adb interface with its two
      endpoints (usb_interface_found); the list of open devices follows the buses
      round by round (usb_poll_tracks_devices); transfers in pieces arrive whole
      (usb_transfers_arrive).  A descriptor of length zero keeps the scan from ending
      (zero_length_never_ends).
    - Events: any sequence of permitted calls keeps fdevent's tables consistent;
      ready descriptors are delivered once each, in order (FdEvent.v).
    - Trees: insertion, deletion and lookup implement an ordered list with loops
      of logarithmic length; reading in order and destroying are complete
      (RedBlackFacts.v).
    - Linking: one run of [adb link] against the service leaves the newer version
      of every file on both sides (link_newest_wins); the table of watches is a finite map from descriptors to names
      (WatchTable.v); events come out in the kernel's order without the ignored
      ones, and their names can be parsed back (InotifyFacts.v); every event
      reaches the device as its command, in order, with new directories watched
      in their turn (watcher_mirrors_events).
    - The theorems of kind error and bounds at the end of the list establish
      defects: states that ordinary input reaches in which the code does
      something its comments or its protocol description rule out.

    ** Fuel

    Loops that are not structural carry fuel.  The functions that start them
    compute it from the data (the length of a buffer plus that of a script), or
    the theorems bound it: twice the logarithm of the number of nodes for the
    trees, the length of the packet queue for the sockets, the depth of the
    directory tree and the number of events for the watches.  The commands that
    wait for a device until one comes take the number of attempts as an argument;
    one is enough when the server answers.  No theorem excludes
    [EFuel]: each shows that the fuel given is enough.

    ** Not modelled

    Terminal settings, help texts and messages to the user; the calls to Windows, macOS
    and libusb that scan for devices, open files and sockets and wait for events on those
    platforms.  What the kernel and the system properties answer to the services of the
    device is a record of answers.  The decompression of zlib is a parameter of Zip.v.
    Except for the socket pairs of Windows, whose threads interleave step by step,
    threads are modelled one at a time: the two packet threads of a transport as
    functions of their input, everything else as handlers of the server's single
    event loop; their interleaving below the level of messages is not modelled.
    Of libinotifytools, regular expressions and strftime are parameters.  The theorem on the watcher thread excludes
    one case, a watched directory that moves within the tree, for which
    rename_misses_watch shows that its renaming is incomplete.
    The rest of the source tree (bionic, init, toolbox, sh, the other libraries)
    takes no part in adb. *)

From Stdlib Require Export ZArith Lia.
From stdpp Require Export base numbers list gmap strings option.

#[export] Set Default Goal Selector "!".

Declare Scope adb_scope.
Delimit Scope adb_scope with adb.
Open Scope Z_scope.

(** ** Machine integers *)

Definition two32 : Z := 4294967296.

(** [unsigned] arithmetic wraps modulo 2^32. *)
Definition u32 (z : Z) : Z := z mod two32.

Definition is_u32 (z : Z) : Prop := 0 <= z < two32.

(** Conversion of a 32-bit pattern to [int] (two's complement). *)
Definition s32 (z : Z) : Z :=
  let r := z mod two32 in if r <? 2147483648 then r else r - two32.

Definition is_byte (b : Z) : Prop := 0 <= b < 256.

(** ** Byte strings *)

(** Bytes are integers in [0, 256); memory regions and C strings without their
    terminating NUL are lists of bytes. *)
Definition bs (s : string) : list Z :=
  List.map (fun c => Z.of_N (Ascii.N_of_ascii c)) (String.list_ascii_of_string s).

(** The object representation of an integer (every supported build but ppc,
    which swaps explicitly, is little endian) and its inverse. *)
Fixpoint le_bytes (n : nat) (z : Z) : list Z :=
  match n with
  | O => []
  | S n' => z mod 256 :: le_bytes n' (z / 256)
  end.

Fixpoint of_le (l : list Z) : Z :=
  match l with
  | [] => 0
  | b :: l' => b + 256 * of_le l'
  end.

Definition le32 (n : Z) : list Z := le_bytes 4 n.

(** [strlen]-style view of a buffer: what precedes the first NUL. *)
Fixpoint cstr (l : list Z) : list Z :=
  match l with
  | [] => []
  | b :: l' => if b =? 0 then [] else b :: cstr l'
  end.

(** [!strncmp(s, p, strlen(p))]: [p] is a prefix of [s]. *)
Fixpoint prefixb (p s : list Z) : bool :=
  match p, s with
  | [], _ => true
  | a :: p', b :: s' => (a =? b) && prefixb p' s'
  | _ :: _, [] => false
  end.

(** [strcmp(a, b) == 0]. *)
Definition streq (a b : list Z) : bool := bool_decide (a = b).

(** [strchr(s, c)]: the text before the first [c] and the text after it. *)
Fixpoint strchr (c : Z) (s : list Z) : option (list Z * list Z) :=
  match s with
  | [] => None
  | b :: s' =>
      if b =? c then Some ([], s')
      else match strchr c s' with
           | Some (x, y) => Some (b :: x, y)
           | None => None
           end
  end.

(** [strrchr(s, c)]: the text before the last [c] and the text after it. *)
Fixpoint strrchr (c : Z) (s : list Z) : option (list Z * list Z) :=
  match s with
  | [] => None
  | b :: s' =>
      match strrchr c s' with
      | Some (x, y) => Some (b :: x, y)
      | None => if b =? c then Some ([], s') else None
      end
  end.

(** A lower case hexadecimal digit, and [printf("%x")] on a 32-bit value. *)
Definition hexdigit (d : Z) : Z := if d <? 10 then 48 + d else 87 + d.

Fixpoint hex_digits (fuel : nat) (n : Z) (acc : list Z) : list Z :=
  match fuel with
  | O => acc
  | S f =>
      let acc' := hexdigit (n mod 16) :: acc in
      if n / 16 =? 0 then acc' else hex_digits f (n / 16) acc'
  end.

(** [printf("%04x", n)] and [printf("%02x", n)]. *)
Definition hex_pad (w : nat) (n : Z) : list Z :=
  let d := hex_digits 8 n [] in replicate (w - length d) 48 ++ d.

Definition hex4 (n : Z) : list Z := hex_pad 4 n.

(** [printf("%d", n)]. *)
Fixpoint dec_digits (fuel : nat) (n : Z) (acc : list Z) : list Z :=
  match fuel with
  | O => acc
  | S f =>
      let acc' := (48 + n mod 10) :: acc in
      if n / 10 =? 0 then acc' else dec_digits f (n / 10) acc'
  end.

Definition fmt_d (n : Z) : list Z :=
  if n <? 0 then 45 :: dec_digits 10 (- n) [] else dec_digits 10 n [].

(** [snprintf(buf, size, ...)] stores at most [size - 1] bytes of the text. *)
Definition snprintf (size : nat) (text : list Z) : list Z := take (size - 1) text.

(** Decimal numbers in strings.  [atoi] and the conversion [%d] of [sscanf] skip
    white space and take an optional sign and digits; a value that does not fit
    is clamped. *)
Definition isspace (c : Z) : bool := (c =? 32) || ((9 <=? c) && (c <=? 13)).
Definition isdigit (c : Z) : bool := (48 <=? c) && (c <=? 57).

(** The value of a digit, of base 16 or less. *)
Definition hexval (c : Z) : option Z :=
  if isdigit c then Some (c - 48)
  else if (97 <=? c) && (c <=? 102) then Some (c - 87)
  else if (65 <=? c) && (c <=? 70) then Some (c - 55)
  else None.

Fixpoint skip_space (s : list Z) : list Z :=
  match s with
  | c :: s' => if isspace c then skip_space s' else s
  | [] => []
  end.

Fixpoint scan_digits (s : list Z) (n : Z) : Z :=
  match s with
  | c :: s' => if isdigit c then scan_digits s' (10 * n + (c - 48)) else n
  | [] => n
  end.

Definition clamp32 (n : Z) : Z := Z.max (-2147483648) (Z.min 2147483647 n).

(** [None] when there is no digit. *)
Definition scan_int (s : list Z) : option Z :=
  let '(sign, s) := match skip_space s with
                    | 45 :: s => (-1, s)
                    | 43 :: s => (1, s)
                    | s => (1, s)
                    end in
  match s with
  | c :: _ => if isdigit c then Some (clamp32 (sign * scan_digits s 0)) else None
  | [] => None
  end.

Definition atoi (s : list Z) : Z := default 0 (scan_int s).

(** [sscanf(s, "%d", &n)]: end of input before a conversion, no conversion, or
    the number. *)
Inductive scanned := ScanEof | ScanNone | ScanInt (n : Z).

Definition sscanf_d (s : list Z) : scanned :=
  match skip_space s with
  | [] => ScanEof
  | _ => match scan_int s with Some n => ScanInt n | None => ScanNone end
  end.

(** ** Failure and state *)

(** How a C function can fail to return: [fatal()]/[exit()], undefined
    behaviour (a null or dangling pointer), blocking on a mutex the thread
    holds itself, or (in the model only) exhausted recursion fuel. *)
Inductive error := EFatal | EUndef | EDeadlock | EFuel.

Inductive result (A : Type) := Ok (a : A) | Err (e : error).
Arguments Ok {A} a.
Arguments Err {A} e.

Definition M (W A : Type) : Type := W -> result (A * W).

Definition ret {W A} (a : A) : M W A := fun w => Ok (a, w).

Definition bind {W A B} (m : M W A) (k : A -> M W B) : M W B :=
  fun w => match m w with
           | Ok (a, w') => k a w'
           | Err e => Err e
           end.

Definition fail {W A} (e : error) : M W A := fun _ => Err e.

Definition get {W} : M W W := fun w => Ok (w, w).

Definition modify {W} (f : W -> W) : M W unit := fun w => Ok (tt, f w).

(** Dereferencing: [None] is a null or dangling pointer. *)
Definition deref {W A} (o : option A) : M W A :=
  match o with Some a => ret a | None => fail EUndef end.

Notation "x <- m ;; k" := (bind m (fun x => k))
  (at level 100, m at next level, right associativity) : adb_scope.
Notation "m ;; k" := (bind m (fun _ => k))
  (at level 100, right associativity) : adb_scope.
Open Scope adb_scope.

Definition when {W} (b : bool) (m : M W unit) : M W unit := if b then m else ret tt.

(** Weakest precondition of a computation that must not fail. *)
Definition wp {W A} (m : M W A) (Q : A -> W -> Prop) (w : W) : Prop :=
  match m w with
  | Ok (a, w') => Q a w'
  | Err _ => False
  end.

(** ** Tactics *)

Create HintDb adb.
Create Rewrite HintDb adb.

(** Case analysis on the innermost [match]/[if] scrutinee of the goal or of a
    hypothesis, keeping the equation. *)
Ltac break_match :=
  match goal with
  | |- context [match ?x with _ => _ end] =>
      lazymatch x with
      | context [match _ with _ => _ end] => fail
      | _ => destruct x eqn:?
      end
  | H : context [match ?x with _ => _ end] |- _ =>
      lazymatch x with
      | context [match _ with _ => _ end] => fail
      | _ => destruct x eqn:?
      end
  end.

(** Boolean tests of the code turned into propositions. *)
Ltac bools :=
  repeat match goal with
  | H : (_ && _) = true |- _ => apply andb_true_iff in H as [? ?]
  | H : (_ || _) = false |- _ => apply orb_false_iff in H as [? ?]
  | H : negb _ = true |- _ => apply negb_true_iff in H
  | H : negb _ = false |- _ => apply negb_false_iff in H
  | H : (_ =? _)%Z = true |- _ => apply Z.eqb_eq in H
  | H : (_ =? _)%Z = false |- _ => apply Z.eqb_neq in H
  | H : (_ <? _)%Z = true |- _ => apply Z.ltb_lt in H
  | H : (_ <? _)%Z = false |- _ => apply Z.ltb_ge in H
  | H : (_ <=? _)%Z = true |- _ => apply Z.leb_le in H
  | H : (_ <=? _)%Z = false |- _ => apply Z.leb_gt in H
  | H : bool_decide _ = true |- _ => apply bool_decide_eq_true in H
  | H : bool_decide _ = false |- _ => apply bool_decide_eq_false in H
  | H : (_ =? _)%nat = true |- _ => apply Nat.eqb_eq in H
  | H : (_ =? _)%nat = false |- _ => apply Nat.eqb_neq in H
  | H : (_ <? _)%nat = true |- _ => apply Nat.ltb_lt in H
  | H : (_ <? _)%nat = false |- _ => apply Nat.ltb_ge in H
  end.

(** [lia] with divisions and remainders by constants. *)
Ltac zdiv := Z.to_euclidean_division_equations; lia.

(** ** Lemmas: weakest preconditions *)

Lemma wp_ret {W A} (a : A) (Q : A -> W -> Prop) w : Q a w -> wp (ret a) Q w.
Proof. done. Qed.

Lemma wp_bind {W A B} (m : M W A) (k : A -> M W B) Q w :
  wp m (fun a w' => wp (k a) Q w') w -> wp (bind m k) Q w.
Proof. unfold wp, bind. destruct (m w) as [[a w']|]; done. Qed.

Lemma wp_bind_inv {W A B} (m : M W A) (k : A -> M W B) Q w :
  wp (bind m k) Q w -> wp m (fun a w' => wp (k a) Q w') w.
Proof. unfold wp, bind. destruct (m w) as [[a w']|]; done. Qed.

Lemma wp_mono {W A} (m : M W A) (Q Q' : A -> W -> Prop) w :
  wp m Q w -> (forall a w', Q a w' -> Q' a w') -> wp m Q' w.
Proof. unfold wp. destruct (m w) as [[a w']|]; auto. Qed.

Lemma wp_get {W} (Q : W -> W -> Prop) w : Q w w -> wp get Q w.
Proof. done. Qed.

Lemma wp_modify {W} (f : W -> W) (Q : unit -> W -> Prop) w :
  Q tt (f w) -> wp (modify f) Q w.
Proof. done. Qed.

Lemma wp_deref {W A} (o : option A) a (Q : A -> W -> Prop) w :
  o = Some a -> Q a w -> wp (deref o) Q w.
Proof. intros -> H. exact H. Qed.

Lemma wp_ok {W A} (m : M W A) Q w :
  wp m Q w <-> exists a w', m w = Ok (a, w') /\ Q a w'.
Proof.
  unfold wp. destruct (m w) as [[a w']|] eqn:E; split.
  - eauto.
  - intros (? & ? & [= -> ->] & H). exact H.
  - done.
  - intros (? & ? & [=] & _).
Qed.

(** [bind] on a computation whose result is known. *)
Lemma bind_ok {W A B} (m : M W A) (k : A -> M W B) w a w' :
  m w = Ok (a, w') -> bind m k w = k a w'.
Proof. intros H. unfold bind. by rewrite H. Qed.

Lemma bind_inv_ok {W A B} (m : M W A) (k : A -> M W B) w b w' :
  bind m k w = Ok (b, w') -> exists a w1, m w = Ok (a, w1) /\ k a w1 = Ok (b, w').
Proof. unfold bind. destruct (m w) as [[a w1]|]; [eauto|done]. Qed.

(** ** Lemmas: integers and bytes *)

Lemma le_bytes_length n z : length (le_bytes n z) = n.
Proof. revert z. induction n as [|n IH]; intros z; simpl; [done | by rewrite IH]. Qed.

Lemma le_bytes_bytes n z : Forall is_byte (le_bytes n z).
Proof.
  revert z. induction n as [|n IH]; intros z; simpl; constructor; [|apply IH].
  apply Z.mod_pos_bound. lia.
Qed.

Lemma of_le_bytes n z : of_le (le_bytes n z) = z mod 256 ^ Z.of_nat n.
Proof.
  revert z. induction n as [|n IH]; intros z.
  - simpl. by rewrite Z.mod_1_r.
  - cbn [le_bytes of_le]. rewrite IH, Nat2Z.inj_succ, Z.pow_succ_r by lia.
    rewrite Z.rem_mul_r; [lia | lia | apply Z.pow_pos_nonneg; lia].
Qed.

Lemma of_le_range l : Forall is_byte l -> 0 <= of_le l < 256 ^ Z.of_nat (length l).
Proof.
  induction 1 as [|b l Hb _ IH]; [done|].
  cbn [of_le length]. rewrite Nat2Z.inj_succ, Z.pow_succ_r by lia.
  unfold is_byte in Hb. lia.
Qed.

Lemma le_bytes_of_le l : Forall is_byte l -> le_bytes (length l) (of_le l) = l.
Proof.
  induction 1 as [|b l Hb Hl IH]; [done|].
  cbn [le_bytes of_le length]. unfold is_byte in Hb.
  rewrite (Z.mul_comm 256), Z.mod_add, Z.div_add by lia.
  rewrite Z.mod_small, Z.div_small by lia. by rewrite Z.add_0_l, IH.
Qed.

Lemma le32_length n : length (le32 n) = 4%nat.
Proof. apply le_bytes_length. Qed.

Lemma of_le_le32 n : is_u32 n -> of_le (le32 n) = n.
Proof. intros H. unfold le32. rewrite of_le_bytes. by apply Z.mod_small. Qed.

Lemma le32_bytes n : Forall is_byte (le32 n).
Proof. apply le_bytes_bytes. Qed.

Lemma u32_range z : is_u32 (u32 z).
Proof. unfold is_u32, u32. apply Z.mod_pos_bound. unfold two32. lia. Qed.

Lemma u32_id z : is_u32 z -> u32 z = z.
Proof. intros. apply Z.mod_small. done. Qed.

#[export] Hint Resolve le_bytes_length le_bytes_bytes le32_length le32_bytes u32_range : adb.

(** ** Lemmas: C strings *)

Lemma prefixb_app p s : prefixb p (p ++ s) = true.
Proof. induction p as [|a p IH]; simpl; [done|]. by rewrite Z.eqb_refl, IH. Qed.

Lemma prefixb_spec p s : prefixb p s = true <-> exists t, s = p ++ t.
Proof.
  revert s. induction p as [|a p IH]; intros s; simpl.
  - split; [eauto | done].
  - destruct s as [|b s]; [split; [done | by intros [? ?]]|].
    rewrite andb_true_iff, Z.eqb_eq, IH. split.
    + intros [-> [t ->]]. eauto.
    + intros [t [= -> ->]]. eauto.
Qed.

Lemma streq_refl s : streq s s = true.
Proof. by apply bool_decide_eq_true. Qed.

Lemma cstr_app_nul s r : Forall (fun b => b <> 0) s -> cstr (s ++ 0 :: r) = s.
Proof.
  induction 1 as [|b s Hb _ IH]; simpl; [done|].
  destruct (b =? 0) eqn:E; bools; [done|]. by rewrite IH.
Qed.

Lemma strchr_spec c s x y :
  strchr c s = Some (x, y) <-> s = x ++ c :: y /\ Forall (fun b => b <> c) x.
Proof.
  revert x y. induction s as [|b s IH]; intros x y; simpl.
  - split; [done | intros [E _]; by destruct x].
  - destruct (b =? c) eqn:E; bools.
    + subst. split.
      * intros [= <- <-]. eauto.
      * intros [E F]. destruct x; simplify_eq/=; [done|].
        inversion F; subst; done.
    + destruct (strchr c s) as [[x' y']|] eqn:Es.
      * split.
        -- intros [= <- <-]. destruct (proj1 (IH _ _) eq_refl) as [-> ?]. eauto.
        -- intros [Eq F]. destruct x as [|a x]; simplify_eq/=.
           inversion F; subst.
           assert (Some (x', y') = Some (x, y)) as [= -> ->] by (apply IH; eauto).
           done.
      * split; [done|]. intros [Eq F]. destruct x as [|a x]; simplify_eq/=.
        inversion F; subst.
        assert (None = Some (x, y)) by (apply IH; eauto). done.
Qed.

Lemma strchr_none c s : strchr c s = None <-> Forall (fun b => b <> c) s.
Proof.
  induction s as [|b s IH]; simpl; [done|].
  destruct (b =? c) eqn:E; bools.
  - split; [done|]. intros F. inversion F; subst; done.
  - destruct (strchr c s) as [[? ?]|].
    + split; [done|]. intros F. inversion F as [|? ? ? F']; subst. by apply IH in F'.
    + rewrite Forall_cons_iff. split; [|done]. intros _. split; [done | by apply IH].
Qed.

Lemma strrchr_spec c s x y :
  strrchr c s = Some (x, y) -> s = x ++ c :: y /\ Forall (fun b => b <> c) y.
Proof.
  assert (forall s, strrchr c s = None -> Forall (fun b => b <> c) s) as Hn.
  { intros s'. induction s' as [|b s' IH]; simpl; [done|].
    destruct (strrchr c s') as [[? ?]|]; [done|].
    destruct (b =? c) eqn:E; bools; [done|]. auto. }
  revert x y. induction s as [|b s IH]; intros x y; simpl; [done|].
  destruct (strrchr c s) as [[x' y']|] eqn:Es.
  - intros [= <- <-]. destruct (IH _ _ eq_refl) as [-> ?]. done.
  - destruct (b =? c) eqn:E; bools; [|done]. intros [= <- <-]. subst. eauto.
Qed.

Lemma strrchr_app c x y : Forall (fun b => b <> c) y -> strrchr c (x ++ c :: y) = Some (x, y).
Proof.
  intros Hy. assert (strrchr c y = None) as Hn.
  { induction Hy as [|b y Hb _ IH]; simpl; [done|]. rewrite IH. by rewrite (proj2 (Z.eqb_neq b c)). }
  induction x as [|b x IH]; simpl; [by rewrite Hn, Z.eqb_refl|by rewrite IH].
Qed.

Lemma cstr_id s : Forall (fun b => b <> 0) s -> cstr s = s.
Proof.
  induction 1 as [|b s Hb _ IH]; simpl; [done|].
  rewrite (proj2 (Z.eqb_neq b 0)) by done. by rewrite IH.
Qed.

(** ** Lemmas: lists *)

Lemma take_app_exact {A} (l k : list A) n : n = length l -> take n (l ++ k) = l.
Proof. intros ->. by rewrite take_app_length. Qed.

Lemma drop_app_exact {A} (l k : list A) n : n = length l -> drop n (l ++ k) = k.
Proof. intros ->. by rewrite drop_app_length. Qed.

Lemma take_drop_len {A} (l : list A) n : take n l ++ drop (length (take n l)) l = l.
Proof.
  rewrite length_take. destruct (decide (n <= length l)%nat).
  - by rewrite Nat.min_l, take_drop by lia.
  - rewrite Nat.min_r by lia. rewrite take_ge, drop_all by lia. apply app_nil_r.
Qed.

(** ** Lemmas: bit operations on 32-bit words *)

Lemma lxor_u32 a b : is_u32 a -> is_u32 b -> is_u32 (Z.lxor a b).
Proof.
  unfold is_u32, two32. intros Ha Hb.
  assert (0 <= Z.lxor a b) by (apply Z.lxor_nonneg; lia).
  split; [done|]. destruct (decide (Z.lxor a b = 0)) as [->|]; [lia|].
  apply (Z.log2_lt_pow2 _ 32); [lia|].
  pose proof (Z.log2_lxor a b ltac:(lia) ltac:(lia)).
  assert (forall z, 0 <= z < 4294967296 -> Z.log2 z < 32) as Hl.
  { intros z Hz. destruct (decide (z = 0)) as [->|]; [done|].
    apply Z.log2_lt_pow2; lia. }
  pose proof (Hl a Ha). pose proof (Hl b Hb). lia.
Qed.

(** ** Lemmas: decimal numerals *)

(** Digits of a decimal numeral and their value. *)
Definition digits_value (l : list Z) : Z := fold_left (fun a c => a * 10 + (c - 48)) l 0.

Definition dec_digit (c : Z) : Prop := 48 <= c <= 57.

Lemma dec_digits_spec f n acc :
  0 <= n < 10 ^ Z.of_nat (S f) ->
  exists l, dec_digits (S f) n acc = l ++ acc /\ Forall dec_digit l /\ digits_value l = n /\
    (0 < n -> exists c l', l = c :: l' /\ c <> 48) /\ (length l <= S f)%nat /\ l <> [].
Proof.
  revert n acc. induction f as [|f IH]; intros n acc Hn.
  - change (10 ^ Z.of_nat 1) with 10 in Hn. cbn [dec_digits].
    assert (n / 10 = 0) as -> by (apply Z.div_small; lia). rewrite Z.mod_small by lia.
    exists [48 + n]. split_and!; try done; try (repeat constructor; lia);
      try (unfold digits_value; simpl; lia).
    intros. exists (48 + n), []. split; [done|lia].
  - remember (S f) as g. cbn [dec_digits]. destruct (n / 10 =? 0) eqn:E; bools.
    + assert (n < 10) by (apply Z.div_small_iff in E; lia). rewrite Z.mod_small by lia.
      exists [48 + n]. split_and!; try done; try (repeat constructor; lia);
        try (unfold digits_value; simpl; lia).
      intros. exists (48 + n), []. split; [done|lia].
    + assert (0 < n / 10) by (pose proof (Z.div_pos n 10); lia).
      destruct (IH (n / 10) ((48 + n mod 10) :: acc)) as (l & Hl & Hd & Hv & Hh & Hlen & Hne).
      { split; [lia|]. apply Z.div_lt_upper_bound; [lia|].
        rewrite <- Z.pow_succ_r, <- Nat2Z.inj_succ by lia. lia. }
      exists (l ++ [48 + n mod 10]). rewrite Hl, <- app_assoc. split_and!; try done.
      * apply Forall_app. split; [done|]. repeat constructor; pose proof (Z.mod_pos_bound n 10); lia.
      * unfold digits_value in *. rewrite fold_left_app, Hv. simpl.
        pose proof (Z.div_mod n 10). lia.
      * intros _. destruct (Hh ltac:(lia)) as (c & l' & -> & Hc). by eexists _, _.
      * rewrite length_app. simpl. lia.
      * by destruct l.
Qed.

Lemma fmt_d_spec n :
  0 <= n < 2147483648 -> Forall dec_digit (fmt_d n) /\ (length (fmt_d n) <= 10)%nat.
Proof.
  intros Hn. unfold fmt_d. rewrite (proj2 (Z.ltb_ge n 0)) by lia.
  destruct (dec_digits_spec 9 n []) as (l & -> & Hd & _ & _ & Hl & _).
  { change (10 ^ Z.of_nat 10) with 10000000000. lia. }
  by rewrite app_nil_r.
Qed.

Lemma dec_digit_isdigit c : dec_digit c -> isdigit c = true.
Proof. unfold dec_digit, isdigit. intros. apply andb_true_iff. split; apply Z.leb_le; lia. Qed.

Lemma scan_digits_value l n :
  Forall dec_digit l -> scan_digits l n = fold_left (fun a c => a * 10 + (c - 48)) l n.
Proof.
  intros Hl. revert n. induction Hl as [|c l Hc Hl IH]; intros n; simpl; [done|].
  rewrite dec_digit_isdigit by done. rewrite IH. f_equal. lia.
Qed.

Lemma skip_space_plain c l : isspace c = false -> skip_space (c :: l) = c :: l.
Proof. intros H. simpl. by rewrite H. Qed.

Lemma dec_digit_plain c : dec_digit c -> isspace c = false /\ c <> 45 /\ c <> 43.
Proof.
  unfold dec_digit, isspace. intros H. split; [|lia].
  apply orb_false_iff. split; [apply Z.eqb_neq; lia|].
  apply andb_false_iff. right. apply Z.leb_gt. lia.
Qed.
