(* ===== verification/Utils.v ===== *)
(** * Text in bounded buffers (utils.c)

    The functions that append to a buffer of fixed size and keep it terminated.  A
    buffer is its bytes and the position of [buff] in it; [buffEnd] is its end.  Writing
    outside it is undefined. *)

From S2P Require Import Prelude.

Record text := mkText { t_mem : list Z; t_pos : Z }.

(** [buff[i] = c], with the position counted from the start of the buffer. *)
Definition store (i c : Z) : M text unit :=
  fun t =>
  if (0 <=? i) && (i <? Z.of_nat (length (t_mem t))) then
    Ok (tt, mkText (<[Z.to_nat i := c]> (t_mem t)) (t_pos t))
  else Err EUndef.

Definition set_pos (i : Z) : M text unit := modify (fun t => mkText (t_mem t) i).

(** [buffEnd - buff]. *)
Definition avail (t : text) : Z := Z.of_nat (length (t_mem t)) - t_pos t.

(** [memcpy(buff, data, len)]. *)
Definition store_all (l : list Z) : M text unit :=
  fun t =>
  if (0 <=? t_pos t) && (t_pos t + Z.of_nat (length l) <=? Z.of_nat (length (t_mem t))) then
    Ok (tt, mkText (take (Z.to_nat (t_pos t)) (t_mem t) ++ l ++
                    drop (Z.to_nat (t_pos t) + length l) (t_mem t)) (t_pos t))
  else Err EUndef.

Definition buff_addc (c : Z) : M text unit :=
  t <- get ;;
  if avail t <=? 0 then ret tt
  else if avail t =? 1 then store (t_pos t) 0 ;; set_pos (t_pos t + 1)
  else store (t_pos t) c ;; store (t_pos t + 1) 0 ;; set_pos (t_pos t + 1).

(** The end of [buff_addb] and [buff_add]: a zero at the new position, or before it at
    the end of the buffer. *)
Definition terminate : M text unit :=
  t <- get ;;
  if avail t <=? 0 then store (t_pos t - 1) 0 else store (t_pos t) 0.

Definition buff_addb (data : list Z) : M text unit :=
  t <- get ;;
  let len := Z.of_nat (length data) in
  if (avail t <=? 0) || (len <=? 0) then ret tt
  else
    let len := Z.min len (avail t) in
    store_all (take (Z.to_nat len) data) ;;
    set_pos (t_pos t + len) ;;
    terminate.

Definition buff_adds (s : list Z) : M text unit := buff_addb (cstr s).

(** [buff_add] with the formatted text; [c99] says whether [vsnprintf] returns the length
    of the whole text or -1 when it does not fit. *)
Definition buff_add (c99 : bool) (txt : list Z) : M text unit :=
  t <- get ;;
  if 0 <? avail t then
    store_all (take (Z.to_nat (avail t - 1)) txt ++ [0]) ;;
    let len := Z.of_nat (length txt) in
    let nn := if c99 || (len <? avail t) then len else -1 in
    let nn := if nn <? 0 then avail t else if avail t <? nn then avail t else nn in
    set_pos (t_pos t + nn) ;;
    terminate
  else ret tt.

(** ** What the buffer holds *)

(** Calls with the text they add. *)
Inductive addition := AddChar (c : Z) | AddString (s : list Z) | AddBytes (l : list Z)
| AddText (c99 : bool) (l : list Z).

Definition add (a : addition) : M text unit :=
  match a with
  | AddChar c => buff_addc c
  | AddString s => buff_adds s
  | AddBytes l => buff_addb l
  | AddText c99 l => buff_add c99 l
  end.

Definition added (a : addition) : list Z :=
  match a with
  | AddChar c => [c]
  | AddString s => cstr s
  | AddBytes l => l
  | AddText _ l => l
  end.

Fixpoint add_all (l : list addition) : M text unit :=
  match l with
  | [] => ret tt
  | a :: l' => add a ;; add_all l'
  end.

Abbreviation len l := (Z.of_nat (length l)).

(** A buffer of [n] bytes that was given the text [s]: it holds as much of it as leaves
    room for the zero behind it. *)
Definition holds (n : Z) (s : list Z) (t : text) : Prop :=
  len (t_mem t) = n /\ t_pos t = Z.min n (len s) /\
  (s <> [] -> exists rest, t_mem t = take (Z.to_nat (n - 1)) s ++ 0 :: rest).

Lemma wp_store i c (Q : unit -> text -> Prop) t :
  0 <= i < len (t_mem t) -> Q tt (mkText (<[Z.to_nat i := c]> (t_mem t)) (t_pos t)) ->
  wp (store i c) Q t.
Proof.
  intros Hi HQ. unfold wp, store. by rewrite (proj2 (Z.leb_le 0 i)), (proj2 (Z.ltb_lt i _)) by lia.
Qed.

(** A zero behind the text makes the buffer hold it. *)
Lemma zero_holds n s mem pos idx :
  0 < n -> len mem = n -> pos = Z.min n (len s) -> idx = Z.min (n - 1) (len s) ->
  take (Z.to_nat idx) mem = take (Z.to_nat (n - 1)) s ->
  holds n s (mkText (<[Z.to_nat idx := 0]> mem) pos).
Proof.
  intros Hn Hl Hp Hi Ht. split_and!; cbn; [by rewrite length_insert|done|]. intros _.
  exists (drop (S (Z.to_nat idx)) mem). rewrite <- Ht. by rewrite insert_take_drop by lia.
Qed.

Lemma terminate_holds n s t :
  0 < n -> len (t_mem t) = n -> t_pos t = Z.min n (len s) ->
  take (Z.to_nat (Z.min (n - 1) (len s))) (t_mem t) = take (Z.to_nat (n - 1)) s ->
  wp terminate (fun _ => holds n s) t.
Proof.
  intros Hn Hl Hp Ht. unfold terminate. apply wp_bind, wp_get. unfold avail. rewrite Hl.
  destruct (n - t_pos t <=? 0) eqn:E; bools; apply wp_store; try lia.
  - replace (t_pos t - 1) with (Z.min (n - 1) (len s)) by lia. by apply zero_holds.
  - replace (t_pos t) with (Z.min (n - 1) (len s)) at 1 by lia. by apply zero_holds.
Qed.

(** A full buffer stays as it is. *)
Lemma full_holds n s x t : 0 < n -> holds n s t -> avail t <= 0 -> holds n (s ++ x) t.
Proof.
  intros Hn (Hl & Hp & Hm) Ha. unfold avail in Ha. split_and!; [done|rewrite length_app; lia|].
  intros _. destruct (decide (s = [])) as [->|Hs]; [simpl length in Hp; lia|].
  destruct (Hm Hs) as (rest & Heq). exists rest. rewrite Heq. f_equal.
  rewrite take_app_le; [done|]. lia.
Qed.

(** A buffer with room holds all of its text, with the rest of the memory behind it. *)
Lemma room_holds n s t : holds n s t -> 0 < avail t ->
  t_pos t = len s /\ exists rest, t_mem t = s ++ rest /\ len rest = avail t.
Proof.
  intros (Hl & Hp & Hm) Ha. unfold avail in *. split; [lia|].
  assert (exists rest, t_mem t = s ++ rest) as (rest & Hr).
  { destruct (decide (s = [])) as [->|Hs]; [by exists (t_mem t)|].
    destruct (Hm Hs) as (rest & ->). rewrite take_ge by lia. eauto. }
  exists rest. split; [done|]. rewrite Hr, length_app in *. lia.
Qed.

(** Copying behind the text. *)
Lemma wp_store_all s rest l (Q : unit -> text -> Prop) t :
  t_mem t = s ++ rest -> t_pos t = len s -> (length l <= length rest)%nat ->
  Q tt (mkText (s ++ l ++ drop (length l) rest) (t_pos t)) -> wp (store_all l) Q t.
Proof.
  intros Hm Hp Hl HQ. unfold wp, store_all. rewrite Hm, Hp, length_app.
  rewrite !(proj2 (Z.leb_le _ _)) by lia. cbn [andb]. rewrite Nat2Z.id.
  rewrite take_app_exact by done. rewrite drop_app_ge by lia.
  replace (length s + length l - length s)%nat with (length l) by lia. by rewrite <- Hp.
Qed.

Lemma buff_addc_holds n s c t :
  0 < n -> holds n s t -> wp (buff_addc c) (fun _ => holds n (s ++ [c])) t.
Proof.
  intros Hn Hh. unfold buff_addc. apply wp_bind, wp_get.
  destruct (avail t <=? 0) eqn:E; bools; [apply wp_ret; by apply full_holds|].
  destruct (room_holds n s t Hh E) as (Hp & rest & Hm & Hr). destruct Hh as (Hl & _).
  unfold avail in *. destruct (_ =? 1) eqn:E1; bools.
  - apply wp_bind, wp_store; [lia|]. unfold set_pos. apply wp_modify. cbn [t_mem].
    assert (t_pos t = Z.min (n - 1) (len (s ++ [c]))) as Hi by (rewrite length_app; simpl length; lia).
    rewrite Hi at 1. apply zero_holds; try done; [rewrite length_app; simpl length; lia|].
    rewrite <- Hi, Hm, Hp, Nat2Z.id, take_app_length. rewrite take_app_le by lia.
    by rewrite take_ge by lia.
  - apply wp_bind, wp_store; [lia|]. apply wp_bind, wp_store; [cbn; rewrite length_insert; lia|].
    unfold set_pos. apply wp_modify. cbn [t_mem t_pos].
    replace (t_pos t + 1) with (Z.min (n - 1) (len (s ++ [c]))) at 1 by (rewrite length_app; simpl length; lia).
    apply zero_holds; [done|by rewrite length_insert|rewrite length_app; simpl length; lia|done|].
    rewrite Z.min_r by (rewrite length_app; simpl length; lia).
    rewrite (take_ge (s ++ [c])) by (rewrite length_app; simpl length; lia).
    rewrite Hp, !Nat2Z.id, Hm. destruct rest as [|x rest]; [simpl length in Hr; lia|].
    rewrite insert_app_r_alt, Nat.sub_diag by lia. cbn.
    change (c :: rest) with ([c] ++ rest). by rewrite app_assoc, take_app_length.
Qed.

Lemma take_cut {A} (s l tail : list A) k m idx :
  (idx <= length s + Nat.min m (length l))%nat -> idx = Nat.min k (length (s ++ l)) ->
  take idx (s ++ take m l ++ tail) = take k (s ++ l).
Proof.
  intros Hi Hk. rewrite app_assoc, take_app_le by (rewrite length_app, length_take; lia).
  rewrite <- (take_drop m l) at 2. rewrite app_assoc. rewrite length_app in Hk.
  destruct (decide (k <= length s + length l)%nat).
  - replace k with idx by lia. by rewrite (take_app_le _ (drop m l)) by (rewrite length_app, length_take; lia).
  - rewrite <- app_assoc, take_drop, (take_ge l) by lia.
    by rewrite !take_ge by (rewrite length_app; lia).
Qed.

Lemma buff_addb_holds n s l t :
  0 < n -> holds n s t -> wp (buff_addb l) (fun _ => holds n (s ++ l)) t.
Proof.
  intros Hn Hh. unfold buff_addb. apply wp_bind, wp_get. cbv zeta.
  destruct ((avail t <=? 0) || (len l <=? 0)) eqn:E.
  - apply wp_ret. apply orb_true_iff in E as [E|E]; bools; [by apply full_holds|].
    destruct l; [|simpl length in E; lia]. by rewrite app_nil_r.
  - bools. destruct (room_holds n s t Hh H) as (Hp & rest & Hm & Hr). destruct Hh as (Hl & _).
    set (m := Z.min (len l) (avail t)).
    assert (len (take (Z.to_nat m) l) = m) as Hlm by (rewrite length_take; lia).
    apply wp_bind, (wp_store_all s rest); [done|done|lia|]. apply wp_bind. unfold set_pos. apply wp_modify.
    unfold avail in *. apply terminate_holds; cbn [t_mem t_pos]; try done.
    + rewrite !length_app, length_drop. rewrite Hm, length_app in Hl. lia.
    + rewrite length_app. lia.
    + apply take_cut; rewrite ?length_app; lia.
Qed.

Lemma buff_add_holds n s c99 l t :
  0 < n -> holds n s t -> wp (buff_add c99 l) (fun _ => holds n (s ++ l)) t.
Proof.
  intros Hn Hh. unfold buff_add. apply wp_bind, wp_get. cbv zeta.
  destruct (0 <? avail t) eqn:E; bools; [|apply wp_ret; by apply full_holds].
  destruct (room_holds n s t Hh E) as (Hp & rest & Hm & Hr). destruct Hh as (Hl & _).
  set (k := Z.to_nat (avail t - 1)).
  assert (length (take k l ++ [0%Z]) <= length rest)%nat as Hfit
    by (rewrite length_app, length_take; simpl length; lia).
  apply wp_bind, (wp_store_all s rest); [done|done|done|]. apply wp_bind. unfold set_pos. apply wp_modify.
  set (nn := if _ <? 0 then _ else _).
  assert (nn = Z.min (len l) (avail t)) as Hnn.
  { unfold nn. destruct (c99 || (len l <? avail t)) eqn:E1.
    - rewrite (proj2 (Z.ltb_ge (len l) 0)) by lia. destruct (avail t <? len l) eqn:E2; bools; lia.
    - apply orb_false_iff in E1 as [_ E1]. bools. cbn. lia. }
  rewrite Hnn. unfold avail in *. apply terminate_holds; cbn [t_mem t_pos]; try done.
  - rewrite !length_app, length_drop. rewrite Hm, length_app in Hl.
    rewrite length_app in Hfit. lia.
  - rewrite length_app. lia.
  - rewrite <- app_assoc. apply take_cut; rewrite ?length_app; lia.
Qed.

Lemma add_all_holds n adds s t :
  0 < n -> holds n s t -> wp (add_all adds) (fun _ => holds n (s ++ mjoin (added <$> adds))) t.
Proof.
  intros Hn. revert s t. induction adds as [|a adds IH]; intros s t Hh; cbn [add_all].
  - apply wp_ret. by rewrite app_nil_r.
  - apply wp_bind. eapply wp_mono with (Q := fun _ => holds n (s ++ added a)).
    + destruct a; cbn [add added]; [by apply buff_addc_holds|by apply buff_addb_holds
        |by apply buff_addb_holds|by apply buff_add_holds].
    + intros _ t' Hh'. cbn. rewrite app_assoc. by apply IH.
Qed.

(** Whatever is appended to a buffer, in any order of the four functions and with either
    behaviour of [vsnprintf], nothing is written outside it, and it holds the longest
    prefix of the whole text that leaves room for the zero behind it. *)
Theorem buffer_holds_prefix adds mem :
  mem <> [] -> mjoin (added <$> adds) <> [] ->
  exists t rest, add_all adds (mkText mem 0) = Ok (tt, t) /\ length (t_mem t) = length mem /\
    t_mem t = take (length mem - 1) (mjoin (added <$> adds)) ++ 0 :: rest.
Proof.
  intros Hm Ha. assert (0 < len mem) as Hn by (destruct mem; [done|simpl; lia]).
  assert (holds (len mem) [] (mkText mem 0)) as H0 by (split_and!; [done|cbn; lia|done]).
  pose proof (add_all_holds (len mem) adds [] (mkText mem 0) Hn H0) as Hw.
  apply wp_ok in Hw as ([] & t & Hr & Hl & _ & Hc). destruct (Hc Ha) as (rest & Heq).
  exists t, rest. split_and!; [done|lia|]. rewrite Heq. do 2 f_equal. lia.
Qed.
