(* ===== verification/UsbClient.v ===== *)
(** * The USB device of the daemon (usb_linux_client.c)

    A thread opens the device file of the USB function, registers a transport for it and
    waits until that transport is kicked, which closes the device; then it opens it again.
    Here the thread and the kicks are programs whose steps interleave.  What is done with
    the lock held is one step; waiting for the condition gives the lock back. *)

From S2P Require Import Prelude.

(** Where [usb_open_thread] is. *)
Inductive open_thread :=
| Locking                (** before taking the lock *)
| Waiting                (** in [adb_cond_wait] *)
| Opening                (** in the loop that opens the device file *)
| Storing (fd : Z)       (** before [usb->fd = fd] *)
| Registering (fd : Z).  (** before [register_usb_transport] *)

(** [usb_handle] with its thread.  Transports are numbered by their descriptor; those that
    were registered and not kicked yet are in [h_live]; [h_closed] are the arguments of
    [adb_close] so far, and [h_opened] the descriptors that [unix_open] gave. *)
Record usb_client := mkClient {
  h_fd : Z;
  h_thread : open_thread;
  h_live : list Z;
  h_opened : list Z;
  h_closed : list Z }.

(** [usb_init]: a handle without a descriptor, and the thread. *)
Definition client_init : usb_client := mkClient (-1) Locking [] [] [].

(** The thread's test under the lock, before the first wait and after each wake-up. *)
Definition test_fd (u : usb_client) : open_thread :=
  if negb (h_fd u =? -1) then Waiting else Opening.

(** [adb_cond_signal]: a thread that waits is woken and tests again. *)
Definition signal (t : open_thread) : open_thread :=
  match t with Waiting => Locking | _ => t end.

(** [usb_kick], on behalf of the transport [t]. *)
Definition client_kick (t : Z) (u : usb_client) : usb_client :=
  mkClient (-1) (signal (h_thread u)) (filter (.≠ t) (h_live u)) (h_opened u) (h_closed u ++ [h_fd u]).

Inductive client_step : usb_client -> usb_client -> Prop :=
| thread_tests u :
    h_thread u = Locking ->
    client_step u (mkClient (h_fd u) (test_fd u) (h_live u) (h_opened u) (h_closed u))
| thread_spurious u :
    h_thread u = Waiting ->
    client_step u (mkClient (h_fd u) Locking (h_live u) (h_opened u) (h_closed u))
| open_fails u :
    h_thread u = Opening -> client_step u u
| open_succeeds u fd :
    h_thread u = Opening -> 0 <= fd ->
    client_step u (mkClient (h_fd u) (Storing fd) (h_live u) (h_opened u ++ [fd]) (h_closed u))
| thread_stores u fd :
    h_thread u = Storing fd ->
    client_step u (mkClient fd (Registering fd) (h_live u) (h_opened u) (h_closed u))
| thread_registers u fd :
    h_thread u = Registering fd ->
    client_step u (mkClient (h_fd u) Locking (h_live u ++ [fd]) (h_opened u) (h_closed u))
| transport_kicked u t :
    t ∈ h_live u -> client_step u (client_kick t u).

(** ** The invariant *)

(** Either the device is closed and there is no transport, or it is open with at most the
    one transport of its descriptor; what was opened before is closed, each descriptor
    once and in order. *)
Definition client_ok (u : usb_client) : Prop :=
  match h_thread u with
  | Waiting => 0 <= h_fd u /\ h_live u = [h_fd u] /\ h_opened u = h_closed u ++ [h_fd u]
  | Locking =>
      0 <= h_fd u /\ h_live u = [h_fd u] /\ h_opened u = h_closed u ++ [h_fd u] \/
      h_fd u = -1 /\ h_live u = [] /\ h_opened u = h_closed u
  | Opening => h_fd u = -1 /\ h_live u = [] /\ h_opened u = h_closed u
  | Storing fd => 0 <= fd /\ h_fd u = -1 /\ h_live u = [] /\ h_opened u = h_closed u ++ [fd]
  | Registering fd => 0 <= fd /\ h_fd u = fd /\ h_live u = [] /\ h_opened u = h_closed u ++ [fd]
  end.

Lemma kick_ok u : 0 <= h_fd u -> h_live u = [h_fd u] -> h_opened u = h_closed u ++ [h_fd u] ->
  forall t, t ∈ h_live u -> (h_thread u = Waiting \/ h_thread u = Locking) ->
  client_ok (client_kick t u).
Proof.
  intros Hfd Hl Ho t Ht Hth. rewrite Hl in Ht. apply list_elem_of_singleton in Ht as ->.
  unfold client_ok, client_kick. cbn [h_thread]. rewrite Hl, Ho.
  assert (signal (h_thread u) = Locking) as -> by (by destruct Hth as [-> | ->]).
  right. cbn. rewrite decide_False by (intros H; by apply H). done.
Qed.

Lemma client_step_ok u u' : client_step u u' -> client_ok u -> client_ok u'.
Proof.
  intros Hs Hok. destruct Hs as [u Ht|u Ht|u Ht|u fd Ht Hfd|u fd Ht|u fd Ht|u t Hin]; unfold client_ok in Hok.
  - rewrite Ht in Hok. unfold client_ok, test_fd. cbn [h_thread].
    destruct Hok as [(H1 & H2 & H3)|(H1 & H2 & H3)].
    + rewrite (proj2 (Z.eqb_neq (h_fd u) (-1))) by lia. done.
    + by rewrite H1.
  - rewrite Ht in Hok. left. exact Hok.
  - unfold client_ok. by rewrite Ht in *.
  - rewrite Ht in Hok. destruct Hok as (H1 & H2 & H3). unfold client_ok. cbn. by rewrite H3.
  - rewrite Ht in Hok. destruct Hok as (H0 & H1 & H2 & H3). unfold client_ok. by cbn.
  - rewrite Ht in Hok. destruct Hok as (H0 & H1 & H2 & H3). left. cbn. by rewrite H2, H1, H3.
  - destruct (h_thread u) eqn:Ht.
    + destruct Hok as [(H1 & H2 & H3)|(_ & H2 & _)]; [apply kick_ok; auto|]. rewrite H2 in Hin. set_solver.
    + destruct Hok as (H1 & H2 & H3). apply kick_ok; auto.
    + destruct Hok as (_ & H2 & _). rewrite H2 in Hin. set_solver.
    + destruct Hok as (_ & _ & H2 & _). rewrite H2 in Hin. set_solver.
    + destruct Hok as (_ & _ & H2 & _). rewrite H2 in Hin. set_solver.
Qed.

Lemma client_opened u u' :
  client_step u u' -> Forall (fun fd => 0 <= fd) (h_opened u) -> Forall (fun fd => 0 <= fd) (h_opened u').
Proof. intros Hs Ho. destruct Hs; try done. apply list.Forall_app. by split; [|apply Forall_singleton]. Qed.

Lemma client_reachable u :
  rtc client_step client_init u -> client_ok u /\ Forall (fun fd => 0 <= fd) (h_opened u).
Proof.
  intros Hr. assert (client_ok client_init /\ Forall (fun fd => 0 <= fd) (h_opened client_init)) as H0
    by (split; [by right|constructor]). revert Hr H0.
  induction 1 as [|a b c Hab _ IH]; [done|]. intros [Ha Ho]. apply IH.
  split; [by eapply client_step_ok|by eapply client_opened].
Qed.

(** However kicks interleave with the thread that opens the device: at most one
    descriptor of the device is open at a time; what is closed is what was opened, each
    descriptor once and in the order they were opened, and nothing else; and the thread
    waits only while there is a transport that can be kicked, so no kick is lost and
    leaves the device closed. *)
Theorem usb_client_reopens u :
  rtc client_step client_init u ->
  (exists last, h_opened u = h_closed u ++ last /\ (length last <= 1)%nat) /\
  Forall (fun fd => 0 <= fd) (h_closed u) /\
  (h_thread u = Waiting -> h_live u = [h_fd u] /\ h_opened u = h_closed u ++ [h_fd u]).
Proof.
  intros Hr. destruct (client_reachable u Hr) as [Hok Ho].
  assert (exists last, h_opened u = h_closed u ++ last /\ (length last <= 1)%nat) as (last & Hl & Hn).
  { unfold client_ok in Hok. destruct (h_thread u);
      [destruct Hok as [(_ & _ & H)|(_ & _ & H)]|destruct Hok as (_ & _ & H)
      |destruct Hok as (_ & _ & H)|destruct Hok as (_ & _ & _ & H)|destruct Hok as (_ & _ & _ & H)];
      rewrite H; (eexists; split; [first [reflexivity | symmetry; apply app_nil_r]|simpl; lia]). }
  split_and!; [eauto| |].
  - rewrite Hl in Ho. by apply list.Forall_app in Ho as [? _].
  - intros Hw. unfold client_ok in Hok. rewrite Hw in Hok. by destruct Hok as (_ & H1 & H2).
Qed.
