(* ===== verification/InotifyLimits.v ===== *)
(** * The limits of inotify (inotifytools.c)

    The functions that read a limit of the kernel from /proc, and the error they leave
    behind.  Files are a function from names to contents; a file that cannot be opened
    gives the value of [errno]. *)

From S2P Require Import Prelude.

Definition INOTIFY_PROCDIR : list Z := bs "/proc/sys/fs/inotify/".
Definition WATCHES_SIZE_PATH : list Z := INOTIFY_PROCDIR ++ bs "max_user_watches".
Definition QUEUE_SIZE_PATH : list Z := INOTIFY_PROCDIR ++ bs "max_queued_watches".
Definition INSTANCES_PATH : list Z := INOTIFY_PROCDIR ++ bs "max_user_instances".

(** The static variable [error] and the streams that are open. *)
Record limits := mkLimits { last_error : Z; open_streams : Z }.

(** [fscanf] reads back a line with a number. *)
Lemma sscanf_d_line n : 0 <= n < 2147483648 -> sscanf_d (fmt_d n ++ [10]) = ScanInt n.
Proof.
  intros Hn. unfold fmt_d. rewrite (proj2 (Z.ltb_ge n 0)) by lia.
  destruct (dec_digits_spec 9 n []) as (l & -> & Hd & Hv & _ & _ & Hne).
  { change (10 ^ Z.of_nat 10) with 10000000000. lia. }
  rewrite app_nil_r. destruct l as [|c l]; [done|].
  pose proof Hd as [Hc _]%Forall_cons_1. destruct (dec_digit_plain c Hc) as (Hs & _).
  assert (forall l a, Forall dec_digit l -> scan_digits (l ++ [10]) a = scan_digits l a) as Hnl.
  { intros k. induction k as [|x k IH]; intros a Hk; [done|]. apply Forall_cons_1 in Hk as [Hx Hk].
    cbn [app scan_digits]. rewrite dec_digit_isdigit by done. by apply IH. }
  unfold sscanf_d, scan_int. cbn [app]. rewrite skip_space_plain by done.
  assert (match c :: l ++ [10] with 45 :: s => (-1, s) | 43 :: s => (1, s) | s => (1, s) end
          = (1, c :: l ++ [10])) as ->.
  { unfold dec_digit in Hc.
    assert (c = 48 \/ c = 49 \/ c = 50 \/ c = 51 \/ c = 52 \/ c = 53 \/ c = 54 \/ c = 55 \/ c = 56 \/ c = 57)
      as H by lia. by repeat destruct H as [->|H]; [..|subst]. }
  rewrite dec_digit_isdigit by done. f_equal.
  change (c :: l ++ [10]) with ((c :: l) ++ [10]). rewrite Hnl, scan_digits_value by done.
  unfold digits_value in Hv. rewrite Hv. unfold clamp32. lia.
Qed.

Section Limits.
Context (files : list Z -> Z + list Z) (errno : Z).

(** [read_num_from_file]; [num] is what the variable holds before.  The result is the
    return value with the variable after the call.  A file without a number leaves the
    variable alone and is a success; at the end of the file the stream stays open. *)
Definition read_num_from_file (filename : list Z) (num : Z) : M limits (bool * Z) :=
  match files filename with
  | inl e => modify (fun l => mkLimits e (open_streams l)) ;; ret (false, num)
  | inr text =>
      modify (fun l => mkLimits (last_error l) (open_streams l + 1)) ;;
      match sscanf_d text with
      | ScanEof => modify (fun l => mkLimits errno (open_streams l)) ;; ret (false, num)
      | r =>
          modify (fun l => mkLimits (last_error l) (open_streams l - 1)) ;;
          ret (true, match r with ScanInt n => n | _ => num end)
      end
  end.

(** [ret] is not initialised. *)
Definition get_limit (path : list Z) (junk : Z) : M limits Z :=
  r <- read_num_from_file path junk ;;
  ret (if r.1 : bool then r.2 else -1).

Definition inotifytools_get_max_queued_events : Z -> M limits Z := get_limit QUEUE_SIZE_PATH.
Definition inotifytools_get_max_user_instances : Z -> M limits Z := get_limit INSTANCES_PATH.
Definition inotifytools_get_max_user_watches : Z -> M limits Z := get_limit WATCHES_SIZE_PATH.
Definition inotifytools_error : M limits Z := l <- get ;; ret (last_error l).

(** A limit that the kernel prints is read back and the stream closed; without the file
    the result is -1 and the error says why. *)
Theorem limit_is_read path junk l :
  (forall n, 0 <= n < 2147483648 -> files path = inr (fmt_d n ++ [10]) ->
    get_limit path junk l = Ok (n, l)) /\
  (forall e, files path = inl e ->
    exists l', get_limit path junk l = Ok (-1, l') /\ inotifytools_error l' = Ok (e, l')).
Proof.
  split.
  - intros n Hn Hf. unfold get_limit, read_num_from_file. rewrite Hf, sscanf_d_line by done.
    destruct l as [e k]. unfold bind, modify, ret. cbn. by rewrite Z.add_simpl_r.
  - intros e Hf. unfold get_limit, read_num_from_file. rewrite Hf. eexists. split; reflexivity.
Qed.
End Limits.
