(* ===== verification/Ring.v ===== *)
(** * Doubly linked rings

    The lists of the program are rings: a head and the elements, each with a
    pointer to the next and to the previous node.  Linking a node in and
    unlinking one are the operations on lists they stand for. *)

From S2P Require Import Prelude.

(** ** Rings in memory *)

Definition nxt (k : gmap Z (Z * Z)) (a : Z) : option Z := fst <$> k !! a.
Definition prv (k : gmap Z (Z * Z)) (a : Z) : option Z := snd <$> k !! a.

(** From [a] through [l] to [b], in both directions. *)
Fixpoint seg (k : gmap Z (Z * Z)) (a : Z) (l : list Z) (b : Z) : Prop :=
  match l with
  | [] => nxt k a = Some b /\ prv k b = Some a
  | x :: l => nxt k a = Some x /\ prv k x = Some a /\ seg k x l b
  end.

(** The ring at [h] holds [l]. *)
Definition ring (k : gmap Z (Z * Z)) (h : Z) (l : list Z) : Prop := NoDup (h :: l) /\ seg k h l h.

Lemma seg_app k a l1 x l2 b : seg k a (l1 ++ x :: l2) b <-> seg k a l1 x /\ seg k x l2 b.
Proof. revert a. induction l1 as [|y l1 IH]; intros a; cbn; [tauto|]. rewrite IH. tauto. Qed.

(** ** Assignments *)

Definition put_next (t v : Z) (k : gmap Z (Z * Z)) : gmap Z (Z * Z) :=
  <[t := (v, default 0 (prv k t))]> k.
Definition put_prev (t v : Z) (k : gmap Z (Z * Z)) : gmap Z (Z * Z) :=
  <[t := (default 0 (nxt k t), v)]> k.

Lemma nxt_put_next k t v a : is_Some (k !! t) -> nxt (put_next t v k) a = if decide (a = t) then Some v else nxt k a.
Proof.
  intros _. unfold nxt, put_next. destruct (decide (a = t)) as [->|Hne]; [by rewrite lookup_insert_eq|].
  by rewrite lookup_insert_ne.
Qed.

Lemma prv_put_prev k t v a : is_Some (k !! t) -> prv (put_prev t v k) a = if decide (a = t) then Some v else prv k a.
Proof.
  intros _. unfold prv, put_prev. destruct (decide (a = t)) as [->|Hne]; [by rewrite lookup_insert_eq|].
  by rewrite lookup_insert_ne.
Qed.

Lemma prv_put_next k t v a : is_Some (k !! t) -> prv (put_next t v k) a = prv k a.
Proof.
  intros [[n p] Ht]. unfold prv, put_next, prv. destruct (decide (a = t)) as [->|Hne].
  - by rewrite lookup_insert_eq, Ht.
  - by rewrite lookup_insert_ne.
Qed.

Lemma nxt_put_prev k t v a : is_Some (k !! t) -> nxt (put_prev t v k) a = nxt k a.
Proof.
  intros [[n p] Ht]. unfold nxt, put_prev, nxt. destruct (decide (a = t)) as [->|Hne].
  - by rewrite lookup_insert_eq, Ht.
  - by rewrite lookup_insert_ne.
Qed.

Lemma seg_put_next k t v a l b :
  is_Some (k !! t) -> t ∉ a :: l -> seg (put_next t v k) a l b <-> seg k a l b.
Proof.
  intros Ht. revert a. induction l as [|x l IH]; intros a Hn; cbn; rewrite elem_of_cons in Hn;
    rewrite nxt_put_next, !prv_put_next by done; rewrite decide_False by naive_solver; [done|].
  rewrite IH; [done|]. naive_solver.
Qed.

Lemma seg_put_prev k t v a l b :
  is_Some (k !! t) -> t ∉ l ++ [b] -> seg (put_prev t v k) a l b <-> seg k a l b.
Proof.
  intros Ht. revert a. induction l as [|x l IH]; intros a Hn; cbn in *; rewrite elem_of_cons in Hn;
    rewrite nxt_put_prev, prv_put_prev by done; rewrite decide_False by naive_solver; [done|].
  rewrite IH; [done|]. naive_solver.
Qed.

Lemma nxt_some k a v : nxt k a = Some v -> is_Some (k !! a).
Proof. unfold nxt. destruct (k !! a); [eauto|done]. Qed.

Lemma prv_some k a v : prv k a = Some v -> is_Some (k !! a).
Proof. unfold prv. destruct (k !! a); [eauto|done]. Qed.

Lemma seg_member k a l b u : seg k a l b -> u ∈ l -> is_Some (k !! u).
Proof.
  revert a. induction l as [|x l IH]; intros a Hs Hu; [by apply elem_of_nil in Hu|].
  destruct Hs as (_ & Hp & Hs). apply elem_of_cons in Hu as [->|Hu]; [by eapply prv_some|eauto].
Qed.

(** The node before the end of a segment, and the one after its start. *)
Lemma seg_last k a l b :
  seg k a l b -> exists p, nxt k p = Some b /\ prv k b = Some p /\
    (l = [] /\ p = a \/ exists l', l = l' ++ [p] /\ seg k a l' p).
Proof.
  induction l as [|x l _] using rev_ind; intros Hs; [destruct Hs; eauto 10|].
  apply seg_app in Hs as [H1 [H2 H3]]. eauto 10.
Qed.

Lemma seg_first k a l b :
  seg k a l b -> exists n, nxt k a = Some n /\ prv k n = Some a /\
    (l = [] /\ n = b \/ exists l', l = n :: l' /\ seg k n l' b).
Proof. destruct l as [|x l]; intros Hs; [destruct Hs; eauto 10|]. destruct Hs as (? & ? & ?). eauto 10. Qed.

(** ** Unlinking *)

(** [t->next->prev = t->prev; t->prev->next = t->next]. *)
Definition unlinked (n p : Z) (k : gmap Z (Z * Z)) : gmap Z (Z * Z) := put_next p n (put_prev n p k).

Lemma put_prev_some k t v a : is_Some (k !! t) -> is_Some (k !! a) -> is_Some (put_prev t v k !! a).
Proof.
  intros _ Ha. unfold put_prev. destruct (decide (a = t)) as [->|]; [rewrite lookup_insert_eq; eauto|].
  by rewrite lookup_insert_ne.
Qed.

Lemma put_next_some k t v a : is_Some (k !! t) -> is_Some (k !! a) -> is_Some (put_next t v k !! a).
Proof.
  intros _ Ha. unfold put_next. destruct (decide (a = t)) as [->|]; [rewrite lookup_insert_eq; eauto|].
  by rewrite lookup_insert_ne.
Qed.

(** Around the two assignments, segments that do not start at [p], end at [n] or
    contain them stay. *)
Lemma seg_unlinked k n p a l b :
  is_Some (k !! n) -> is_Some (k !! p) -> p ∉ a :: l -> n ∉ l ++ [b] ->
  seg (unlinked n p k) a l b <-> seg k a l b.
Proof.
  intros Hn Hp H1 H2. unfold unlinked.
  rewrite seg_put_next by (done || by apply put_prev_some). by apply seg_put_prev.
Qed.

Lemma unlinked_join k n p :
  is_Some (k !! n) -> is_Some (k !! p) ->
  nxt (unlinked n p k) p = Some n /\ prv (unlinked n p k) n = Some p.
Proof.
  intros Hn Hp. unfold unlinked. pose proof (put_prev_some k n p p Hn Hp) as Hp'.
  rewrite nxt_put_next, prv_put_next, prv_put_prev by done. by rewrite !decide_True.
Qed.

Lemma ring_unlinked k h l1 t l2 n p :
  ring k h (l1 ++ t :: l2) -> nxt k t = Some n -> prv k t = Some p -> ring (unlinked n p k) h (l1 ++ l2).
Proof.
  intros [Hnd Hs] Hn Hp. apply seg_app in Hs as [H1 H2].
  destruct (seg_last _ _ _ _ H1) as (p' & P1 & P2 & P3). destruct (seg_first _ _ _ _ H2) as (n' & N1 & N2 & N3).
  assert (p' = p) as -> by congruence. assert (n' = n) as -> by congruence.
  pose proof (nxt_some _ _ _ P1) as Sp. pose proof (prv_some _ _ _ N2) as Sn.
  destruct (unlinked_join k n p Sn Sp) as [J1 J2].
  rewrite list.NoDup_cons in Hnd. destruct Hnd as [Hh Hnd].
  rewrite elem_of_app, elem_of_cons in Hh. apply list.NoDup_app in Hnd as (D1 & D2 & D3).
  apply list.NoDup_cons in D3 as [D3 D4].
  split.
  { constructor; [rewrite elem_of_app; tauto|]. apply list.NoDup_app. split_and!; [done| |done].
    intros x Hx Hx2. apply (D2 x Hx). by right. }
  destruct P3 as [[-> ->]|(l1' & -> & S1)]; destruct N3 as [[-> ->]|(l2' & -> & S2)]; cbn [app].
  - done.
  - apply list.NoDup_cons in D4 as [D4 _]. split_and!; [done..|].
    apply seg_unlinked; [done|done|set_solver|set_solver|done].
  - apply list.NoDup_app in D1 as (_ & D1 & _). rewrite app_nil_r. apply seg_app. split; [|done].
    apply seg_unlinked; [done|done|set_solver|set_solver|done].
  - apply list.NoDup_app in D1 as (_ & D1 & _). apply list.NoDup_cons in D4 as [D4 _].
    rewrite <- app_assoc. cbn [app]. apply seg_app. split.
    + apply seg_unlinked; [done|done|set_solver|set_solver|done].
    + split_and!; [done..|]. apply seg_unlinked; [done|done|set_solver|set_solver|done].
Qed.

(** ** Linking in *)

(** [t->next = n; t->prev = p; n->prev = t; p->next = t]. *)
Definition inserted (t p n : Z) (k : gmap Z (Z * Z)) : gmap Z (Z * Z) :=
  put_next p t (put_prev n t (put_prev t p (put_next t n k))).

Section inserted.
Context (k : gmap Z (Z * Z)) (t p n : Z) (St : is_Some (k !! t)) (Sp : is_Some (k !! p)) (Sn : is_Some (k !! n)).

Lemma inserted_some a : is_Some (k !! a) -> is_Some (inserted t p n k !! a).
Proof using Type*. intros. unfold inserted. repeat (apply put_next_some || apply put_prev_some); done. Qed.

Lemma nxt_inserted a : nxt (inserted t p n k) a = if decide (a = p) then Some t else if decide (a = t) then Some n else nxt k a.
Proof using Type*.
  unfold inserted. rewrite nxt_put_next by (repeat (apply put_next_some || apply put_prev_some); done).
  destruct (decide (a = p)); [done|]. rewrite !nxt_put_prev by (repeat (apply put_next_some || apply put_prev_some); done). by apply nxt_put_next.
Qed.

Lemma prv_inserted a : prv (inserted t p n k) a = if decide (a = n) then Some t else if decide (a = t) then Some p else prv k a.
Proof using Type*.
  unfold inserted. rewrite prv_put_next by (repeat (apply put_next_some || apply put_prev_some); done).
  rewrite prv_put_prev by (repeat (apply put_next_some || apply put_prev_some); done).
  destruct (decide (a = n)); [done|]. rewrite prv_put_prev by (repeat (apply put_next_some || apply put_prev_some); done).
  destruct (decide (a = t)); [done|]. by apply prv_put_next.
Qed.

Lemma seg_inserted a l b : p ∉ a :: l -> n ∉ l ++ [b] -> t ∉ a :: l ++ [b] -> seg k a l b -> seg (inserted t p n k) a l b.
Proof using Type*.
  revert a. induction l as [|x l IH]; intros a H1 H2 H3; cbn [seg app] in *; rewrite nxt_inserted, prv_inserted.
  - rewrite !decide_False by set_solver. done.
  - rewrite !decide_False by set_solver. intros (? & ? & ?). split_and!; [done..|]. apply IH; set_solver.
Qed.

End inserted.

Lemma ring_inserted k h l1 l2 t p n :
  ring k h (l1 ++ l2) -> t ∉ h :: l1 ++ l2 -> is_Some (k !! t) -> list.last (h :: l1) = Some p -> list.head (l2 ++ [h]) = Some n ->
  ring (inserted t p n k) h (l1 ++ t :: l2).
Proof.
  intros [Hnd Hs] Ht St Hp Hn. pose proof Hnd as Hnd'. apply list.NoDup_cons in Hnd' as [Hh Hnd']. apply list.NoDup_app in Hnd' as (D1 & D2 & D3).
  split.
  { rewrite app_comm_cons, <- Permutation_middle. apply list.NoDup_cons. split; [set_solver|done]. }
  assert (forall a, a ∈ h :: l1 ++ l2 -> is_Some (k !! a)) as HS.
  { intros a [->|Ha]%elem_of_cons; [|by eapply seg_member]. destruct (seg_first _ _ _ _ Hs) as (x & Hx & _). by eapply nxt_some. }
  assert (p ∈ h :: l1) as Hpin by (by apply last_Some_elem_of).
  assert (n ∈ l2 ++ [h]) as Hnin by (by apply head_Some_elem_of).
  assert (is_Some (k !! p)) as Sp by (apply HS; set_solver). assert (is_Some (k !! n)) as Sn by (apply HS; set_solver).
  assert (p <> t) as Hpt by set_solver. assert (n <> t) as Hnt by set_solver.
  apply seg_app. split.
  - destruct l1 as [|x l1 _] using rev_ind; cbn [last] in Hp.
    + injection Hp as <-. cbn [seg]. rewrite nxt_inserted, prv_inserted by done. rewrite decide_True, decide_False, decide_True by done. done.
    + rewrite app_comm_cons, last_snoc in Hp. injection Hp as <-. rewrite <- app_assoc in Hs. cbn [app] in Hs. apply seg_app in Hs as [Hs1 _].
      apply list.NoDup_app in D1 as (_ & D1 & _). apply seg_app. split; [apply seg_inserted; [done..| | | |done]|].
      * set_solver.
      * destruct l2 as [|y l2]; cbn in Hn; simplify_eq; set_solver.
      * set_solver.
      * cbn [seg]. rewrite nxt_inserted, prv_inserted by done. rewrite decide_True, decide_False, decide_True by done. done.
  - destruct l2 as [|y l2]; cbn [app head] in Hn; injection Hn as <-.
    + cbn [seg]. rewrite nxt_inserted, prv_inserted by done. rewrite decide_False, decide_True, decide_True by done. done.
    + apply seg_app in Hs as [_ Hs2]. apply list.NoDup_cons in D3 as [D3 D4]. cbn [seg]. rewrite nxt_inserted, prv_inserted by done.
      rewrite decide_False, decide_True, decide_True by done. split_and!; [done..|]. apply seg_inserted; [done..| | | |done].
      * set_solver.
      * set_solver.
      * set_solver.
Qed.

(** Where the neighbours of a member are. *)
Lemma ring_member k h l1 t l2 :
  ring k h (l1 ++ t :: l2) -> exists n p, nxt k t = Some n /\ prv k t = Some p /\ n <> t /\ p <> t /\
    is_Some (k !! n) /\ is_Some (k !! p).
Proof.
  intros [Hnd Hs]. apply seg_app in Hs as [H1 H2].
  destruct (seg_last _ _ _ _ H1) as (p & P1 & P2 & P3). destruct (seg_first _ _ _ _ H2) as (n & N1 & N2 & N3).
  exists n, p. rewrite list.NoDup_cons in Hnd. destruct Hnd as [Hh Hnd].
  apply list.NoDup_app in Hnd as (_ & D2 & D3). apply list.NoDup_cons in D3 as [D3 _].
  split_and!; [done|done| | |by eapply prv_some|by eapply nxt_some].
  - destruct N3 as [[-> ->]|(l' & -> & _)]; set_solver.
  - destruct P3 as [[-> ->]|(l' & -> & _)]; set_solver.
Qed.

(** What the assignments leave alone. *)
Lemma unlinked_else k n p t : t <> n -> t <> p -> unlinked n p k !! t = k !! t.
Proof. intros. unfold unlinked, put_next, put_prev. by rewrite !lookup_insert_ne by done. Qed.

Lemma unlinked_some k n p a :
  is_Some (k !! n) -> is_Some (k !! p) -> is_Some (k !! a) -> is_Some (unlinked n p k !! a).
Proof. intros. unfold unlinked. by repeat apply put_next_some || apply put_prev_some. Qed.

(** The node before the end of the list is never one from outside. *)
Lemma ring_last k h l p x : ring k h l -> prv k h = Some p -> x ∉ h :: l -> p <> x.
Proof.
  intros [_ Hs] Hp Hx. destruct (seg_last _ _ _ _ Hs) as (p' & _ & P2 & P3).
  assert (p' = p) as -> by congruence. destruct P3 as [[_ ->]|(l' & -> & _)]; set_solver.
Qed.

(** Nodes outside the list do not matter. *)
Lemma seg_insert_else k t v a l b : t ∉ a :: l ++ [b] -> seg k a l b -> seg (<[t := v]> k) a l b.
Proof.
  revert a. induction l as [|x l IH]; intros a Ht; cbn [seg app] in *;
    rewrite !elem_of_cons in Ht; unfold nxt, prv; rewrite !lookup_insert_ne by naive_solver; [done|].
  intros (H1 & H2 & H3). split_and!; [done..|]. apply IH; [|done]. rewrite elem_of_cons. naive_solver.
Qed.

Lemma ring_insert_else k h t v l : t ∉ h :: l -> ring k h l -> ring (<[t := v]> k) h l.
Proof. intros Ht [H1 H2]. split; [done|]. apply seg_insert_else; [set_solver|done]. Qed.

Lemma seg_delete_else k t a l b : t ∉ a :: l ++ [b] -> seg k a l b -> seg (delete t k) a l b.
Proof.
  revert a. induction l as [|x l IH]; intros a Ht; cbn [seg app] in *;
    rewrite !elem_of_cons in Ht; unfold nxt, prv; rewrite !lookup_delete_ne by naive_solver; [done|].
  intros (H1 & H2 & H3). split_and!; [done..|]. apply IH; [|done]. rewrite elem_of_cons. naive_solver.
Qed.

(** Every node is in the map. *)
Lemma ring_size k h l : ring k h l -> (length l <= size k)%nat.
Proof.
  intros [Hnd Hs]. rewrite <- size_dom. apply list.NoDup_cons in Hnd as [_ Hnd].
  rewrite <- (size_list_to_set (C := gset Z) l Hnd). apply subseteq_size. intros x Hx.
  apply elem_of_list_to_set in Hx. apply elem_of_dom. by eapply seg_member.
Qed.

(** The two assignments to different fields can be swapped. *)
Lemma put_comm k a v b w :
  is_Some (k !! a) -> is_Some (k !! b) -> put_prev b w (put_next a v k) = put_next a v (put_prev b w k).
Proof.
  intros [[na pa] Ha] [[nb pb] Hb]. unfold put_next, put_prev, nxt, prv. destruct (decide (a = b)) as [->|Hne].
  - rewrite !lookup_insert_eq, Hb. cbn. by rewrite !insert_insert_eq.
  - rewrite !lookup_insert_ne by done. rewrite Ha, Hb. cbn. by apply insert_insert_ne.
Qed.

(** A new node at the end, its pointers assigned in either order. *)
Lemma ring_append k h l a :
  ring k h l -> a ∉ h :: l -> is_Some (k !! a) ->
  exists p, prv k h = Some p /\ p <> a /\ is_Some (k !! p) /\ ring (inserted a p h k) h (l ++ [a]).
Proof.
  intros R Ha Sa. pose proof R as [Hnd Hs]. destruct (seg_last _ _ _ _ Hs) as (p & P1 & P2 & P3). exists p.
  assert (list.last (h :: l) = Some p) as Hp.
  { destruct P3 as [[-> ->]|(l' & -> & _)]; [done|]. rewrite app_comm_cons. apply last_snoc. }
  split_and!; [done|by eapply ring_last|by eapply nxt_some|].
  apply (ring_inserted _ _ l []); [by rewrite app_nil_r|by rewrite app_nil_r|done|done|done].
Qed.
