(* ===== verification/ShList.v ===== *)
(** * The list of the interactive shell (shlist.c)

    [adb shell] remembers the lines it sent in a doubly linked ring whose head
    counts the elements in its [data] field.  This file has the operations of
    shlist.c on the nodes in memory, and shows that they implement lists. *)

From S2P Require Import Prelude Ring.

(** [sh_links] has the [next] and [prev] fields of the nodes and [sh_data] their
    [data] fields; [sh_mem] are the addresses [malloc] will return, none when it
    is out of memory; [sh_freed] is what was given to the function that frees
    data. *)
Record shlist := mkSh {
  sh_links : gmap Z (Z * Z);
  sh_data : gmap Z Z;
  sh_mem : list Z;
  sh_freed : list Z;
}.

Definition upd_links (f : gmap Z (Z * Z) -> gmap Z (Z * Z)) (s : shlist) : shlist :=
  mkSh (f (sh_links s)) (sh_data s) (sh_mem s) (sh_freed s).
Definition upd_data (f : gmap Z Z -> gmap Z Z) (s : shlist) : shlist :=
  mkSh (sh_links s) (f (sh_data s)) (sh_mem s) (sh_freed s).
Definition upd_mem (f : list Z -> list Z) (s : shlist) : shlist :=
  mkSh (sh_links s) (sh_data s) (f (sh_mem s)) (sh_freed s).
Definition upd_freed (f : list Z -> list Z) (s : shlist) : shlist :=
  mkSh (sh_links s) (sh_data s) (sh_mem s) (f (sh_freed s)).

(** [unsigned long] arithmetic. *)
Definition u64 (z : Z) : Z := z mod 2 ^ 64.

(** ** Access to the nodes *)

Definition sh_next (a : Z) : M shlist Z := s <- get ;; deref (nxt (sh_links s) a).
Definition sh_prev (a : Z) : M shlist Z := s <- get ;; deref (prv (sh_links s) a).
Definition sh_item (a : Z) : M shlist Z := s <- get ;; deref (sh_data s !! a).
Definition set_next (a v : Z) : M shlist unit :=
  s <- get ;; _ <- deref (sh_links s !! a) ;; modify (upd_links (put_next a v)).
Definition set_prev (a v : Z) : M shlist unit :=
  s <- get ;; _ <- deref (sh_links s !! a) ;; modify (upd_links (put_prev a v)).
Definition set_item (a v : Z) : M shlist unit := modify (upd_data <[a := v]>).

(** A node whose fields hold anything; [None] when there is no memory. *)
Definition sh_malloc : M shlist (option Z) :=
  s <- get ;;
  match sh_mem s with
  | [] => ret None
  | a :: l => modify (fun s => upd_links <[a := (0, 0)]> (upd_mem (fun _ => l) s)) ;; ret (Some a)
  end.

Definition sh_free (a : Z) : M shlist unit :=
  modify (fun s => upd_links (delete a) (upd_data (delete a) s)).

(** [head->data = (void * )((unsigned long)(head->data) + d)]. *)
Definition count_add (head d : Z) : M shlist unit := c <- sh_item head ;; set_item head (u64 (c + d)).

(** ** The operations *)

Definition shListInitList (head : Z) : M shlist unit :=
  set_item head 0 ;; modify (upd_links <[head := (head, head)]>).

(** Does the item's data satisfy the caller's function, or is it the value? *)
Definition is_item (val : Z) (func : option (Z -> Z -> option bool)) (d : Z) : M shlist bool :=
  match func with
  | Some func => deref (func val d)
  | None => ret (d =? val)
  end.

(** The loop of [shListFindItem] from [item] on. *)
Fixpoint find_item (fuel : nat) (head val : Z) (func : option (Z -> Z -> option bool)) (item : Z) : M shlist (option Z) :=
  if item =? head then ret None
  else match fuel with
       | O => fail EFuel
       | S f =>
           d <- sh_item item ;;
           hit <- is_item val func d ;;
           if hit then ret (Some item) else n <- sh_next item ;; find_item f head val func n
       end.

Definition shListFindItem (head val : Z) (func : option (Z -> Z -> option bool)) : M shlist (option Z) :=
  s <- get ;; n <- sh_next head ;; find_item (size (sh_links s)) head val func n.

Definition shListGetLastItem (head : Z) : M shlist (option Z) :=
  p <- sh_prev head ;; ret (if negb (p =? head) then Some p else None).

Definition shListGetFirstItem (head : Z) : M shlist (option Z) :=
  n <- sh_next head ;; ret (if negb (n =? head) then Some n else None).

(** The loop of [shListGetNItem]: [num] steps from [item] on, or to the head. *)
Fixpoint nth_item (num : nat) (head item : Z) : M shlist Z :=
  match num with
  | O => ret item
  | S n => if item =? head then ret item else i <- sh_next item ;; nth_item n head i
  end.

Definition shListGetNItem (head : Z) (num : nat) : M shlist (option Z) :=
  n <- sh_next head ;;
  item <- nth_item num head n ;;
  ret (if negb (item =? head) then Some item else None).

Definition shListGetNextItem (head : Z) (item : option Z) : M shlist (option Z) :=
  match item with
  | None => ret None
  | Some a => n <- sh_next a ;; ret (if negb (n =? head) then Some n else None)
  end.

Definition shListGetPrevItem (head : Z) (item : option Z) : M shlist (option Z) :=
  match item with
  | None => ret None
  | Some a => p <- sh_prev a ;; ret (if negb (p =? head) then Some p else None)
  end.

(** [func] tells whether a function was given; it only frees. *)
Definition shListDelItem (head : Z) (item : option Z) (func : bool) : M shlist unit :=
  match item with
  | None => ret tt
  | Some a =>
      p <- sh_prev a ;; n <- sh_next a ;; set_next p n ;;
      n <- sh_next a ;; p <- sh_prev a ;; set_prev n p ;;
      d <- sh_item a ;;
      when (func && negb (d =? 0)) (modify (upd_freed (fun l => l ++ [d]))) ;;
      sh_free a ;;
      count_add head (-1)
  end.

Definition shListInsFirstItem (head val : Z) : M shlist unit :=
  item <- sh_malloc ;;
  match item with
  | None => ret tt
  | Some a =>
      set_item a val ;;
      n <- sh_next head ;; set_next a n ;;
      set_prev a head ;;
      n <- sh_next head ;; set_prev n a ;;
      set_next head a ;;
      count_add head 1
  end.

Definition shListInsLastItem (head val : Z) : M shlist unit :=
  item <- sh_malloc ;;
  match item with
  | None => ret tt
  | Some a =>
      set_item a val ;;
      set_next a head ;;
      p <- sh_prev head ;; set_prev a p ;;
      p <- sh_prev head ;; set_next p a ;;
      set_prev head a ;;
      count_add head 1
  end.

(** The first node from [iptr] on that the comparison stops at, or the head. *)
Fixpoint find_place (fuel : nat) (head val etal : Z) (func : Z -> Z -> Z -> option bool) (iptr : Z) : M shlist Z :=
  if iptr =? head then ret iptr
  else match fuel with
       | O => fail EFuel
       | S f =>
           d <- sh_item iptr ;;
           stop <- deref (func val d etal) ;;
           if stop : bool then ret iptr else n <- sh_next iptr ;; find_place f head val etal func n
       end.

Definition shListInsBeforeItem (head val etal : Z) (func : option (Z -> Z -> Z -> option bool)) : M shlist unit :=
  match func with
  | None => shListInsFirstItem head val
  | Some func =>
      item <- sh_malloc ;;
      match item with
      | None => ret tt
      | Some a =>
          set_item a val ;;
          s <- get ;;
          n <- sh_next head ;;
          iptr <- find_place (size (sh_links s)) head val etal func n ;;
          set_next a iptr ;;
          p <- sh_prev iptr ;; set_prev a p ;;
          p <- sh_prev iptr ;; set_next p a ;;
          set_prev iptr a ;;
          count_add head 1
      end
  end.

Fixpoint del_all (fuel : nat) (head : Z) (func : bool) (item : Z) : M shlist unit :=
  if item =? head then ret tt
  else match fuel with
       | O => fail EFuel
       | S f => shListDelItem head (Some item) func ;; i <- sh_next head ;; del_all f head func i
       end.

Definition shListDelAllItems (head : Z) (func : bool) : M shlist unit :=
  s <- get ;;
  i <- sh_next head ;;
  del_all (size (sh_links s)) head func i ;;
  set_item head 0.

Definition shListGetCount (head : Z) : M shlist Z := sh_item head.

(** ** Lists in memory *)

(** The ring at [h] holds the nodes and data [l]; new nodes are new. *)
Record holds (h : Z) (l : list (Z * Z)) (s : shlist) : Prop := Holds {
  h_ring : ring (sh_links s) h l.*1;
  h_data : Forall (fun x => sh_data s !! x.1 = Some x.2) l;
  h_count : sh_data s !! h = Some (u64 (Z.of_nat (length l)));
  h_mem : NoDup (sh_mem s);
  h_new : Forall (fun a => sh_links s !! a = None) (sh_mem s);
}.

(** *** Single accesses *)

Lemma sh_next_ok s a n : nxt (sh_links s) a = Some n -> sh_next a s = Ok (n, s).
Proof. unfold sh_next, bind, get, deref. by intros ->. Qed.

Lemma sh_prev_ok s a n : prv (sh_links s) a = Some n -> sh_prev a s = Ok (n, s).
Proof. unfold sh_prev, bind, get, deref. by intros ->. Qed.

Lemma sh_item_ok s a d : sh_data s !! a = Some d -> sh_item a s = Ok (d, s).
Proof. unfold sh_item, bind, get, deref. by intros ->. Qed.

Lemma set_next_ok s a v : is_Some (sh_links s !! a) -> set_next a v s = Ok (tt, upd_links (put_next a v) s).
Proof. unfold set_next, bind, get, deref. by intros [? ->]. Qed.

Lemma set_prev_ok s a v : is_Some (sh_links s !! a) -> set_prev a v s = Ok (tt, upd_links (put_prev a v) s).
Proof. unfold set_prev, bind, get, deref. by intros [? ->]. Qed.

Lemma count_add_ok s h d c : sh_data s !! h = Some c -> count_add h d s = Ok (tt, upd_data <[h := u64 (c + d)]> s).
Proof. unfold count_add, bind. intros H. by rewrite (sh_item_ok _ _ _ H). Qed.

(** *** Neighbours *)

(** What follows [a] in a list; [Some None] at its end. *)
Fixpoint after (a : Z) (l : list Z) : option (option Z) :=
  match l with
  | [] => None
  | x :: l => if x =? a then Some (head l) else after a l
  end.

Lemma seg_after k a l b x o : seg k a l b -> after x (a :: l) = Some o -> nxt k x = Some (default b o).
Proof.
  revert a. induction l as [|y l IH]; intros a Hs; cbn [after head]; destruct (a =? x) eqn:E; bools; try done.
  - intros [= <-]. subst. by destruct Hs.
  - intros [= <-]. subst. by destruct Hs.
  - intros H. destruct Hs as (_ & _ & Hs). by apply (IH y).
Qed.

Lemma seg_swap k a l b : seg k a l b -> seg (prod_swap <$> k) b (reverse l) a.
Proof.
  assert (forall k a, nxt (prod_swap <$> k) a = prv k a) as N.
  { intros k' x. unfold nxt, prv. rewrite lookup_fmap. by destruct (k' !! x) as [[]|]. }
  assert (forall k a, prv (prod_swap <$> k) a = nxt k a) as P.
  { intros k' x. unfold nxt, prv. rewrite lookup_fmap. by destruct (k' !! x) as [[]|]. }
  revert a. induction l as [|y l IH]; intros a; cbn [seg]; rewrite ?reverse_cons; cbn [reverse seg].
  - rewrite reverse_nil. cbn [seg]. rewrite N, P. tauto.
  - intros (H1 & H2 & H3). apply seg_app. split; [by apply IH|]. cbn [seg]. by rewrite N, P.
Qed.

Lemma ring_next k h l x o : ring k h l -> after x (h :: l) = Some o -> nxt k x = Some (default h o).
Proof. intros [_ Hs]. by apply seg_after. Qed.

Lemma ring_prev k h l x o : ring k h l -> after x (h :: reverse l) = Some o -> prv k x = Some (default h o).
Proof.
  intros [_ Hs] Ha. pose proof (seg_after _ _ _ _ _ _ (seg_swap _ _ _ _ Hs) Ha) as H.
  revert H. unfold nxt, prv. rewrite lookup_fmap. by destruct (k !! x) as [[]|].
Qed.

Lemma after_in x l o : after x l = Some (Some o) -> o ∈ l.
Proof.
  induction l as [|y l IH]; cbn; [done|]. destruct (y =? x); [|intros; right; auto].
  destruct l as [|z l]; cbn; [done|]. intros [= ->]. set_solver.
Qed.

(** The test of the last step: the head stands for the end. *)
Lemma head_test h l x o :
  h ∉ l -> after x (h :: l) = Some o ->
  (if negb (default h o =? h) then Some (default h o) else None) = o.
Proof.
  intros Hh Ha. destruct o as [o|]; cbn; [|by rewrite Z.eqb_refl].
  destruct (o =? h) eqn:E; bools; [|done]. subst. cbn in Ha. destruct (h =? x).
  - destruct l; cbn in Ha; simplify_eq; set_solver.
  - apply after_in in Ha. done.
Qed.

(** *** Reading *)

Lemma holds_head h l s : holds h l s -> h ∉ l.*1.
Proof. intros [[Hnd _] _ _ _ _]. by apply list.NoDup_cons in Hnd as [? _]. Qed.

Lemma next_item_ok h l s x o :
  holds h l s -> after x (h :: l.*1) = Some o -> shListGetNextItem h (Some x) s = Ok (o, s).
Proof.
  intros H Ha. unfold shListGetNextItem. rewrite (bind_ok _ _ _ _ _ (sh_next_ok _ _ _ (ring_next _ _ _ x o (h_ring _ _ _ H) Ha))).
  cbn. by rewrite (head_test _ _ x o (holds_head _ _ _ H) Ha).
Qed.

Lemma prev_item_ok h l s x o :
  holds h l s -> after x (h :: reverse l.*1) = Some o -> shListGetPrevItem h (Some x) s = Ok (o, s).
Proof.
  intros H Ha. unfold shListGetPrevItem. rewrite (bind_ok _ _ _ _ _ (sh_prev_ok _ _ _ (ring_prev _ _ _ x o (h_ring _ _ _ H) Ha))).
  cbn. rewrite (head_test _ _ x o ltac:(rewrite elem_of_reverse; by apply (holds_head _ _ _ H)) Ha). done.
Qed.

Lemma first_item_ok h l s : holds h l s -> shListGetFirstItem h s = Ok (head l.*1, s).
Proof. intros H. apply (next_item_ok h l s h); [done|]. cbn. by rewrite Z.eqb_refl. Qed.

Lemma last_item_ok h l s : holds h l s -> shListGetLastItem h s = Ok (list.last l.*1, s).
Proof. intros H. apply (prev_item_ok h l s h); [done|]. cbn. by rewrite Z.eqb_refl, head_reverse. Qed.

(** A suffix of the list in memory. *)
Definition rest (h : Z) (l : list (Z * Z)) (s : shlist) : Prop :=
  exists a, seg (sh_links s) a l.*1 h /\ (h ∉ l.*1) /\ Forall (fun x => sh_data s !! x.1 = Some x.2) l.

Lemma rest_all h l s : holds h l s -> rest h l s.
Proof. intros H. exists h. split_and!; [apply H|by apply holds_head in H|apply H]. Qed.

Lemma rest_cons h a d l s :
  rest h ((a, d) :: l) s ->
  (a =? h) = false /\ sh_data s !! a = Some d /\ sh_next a s = Ok (default h (head l.*1), s) /\ rest h l s.
Proof.
  intros (x & Hs & Hh & Hd). destruct Hs as (_ & _ & Hs). apply list.Forall_cons in Hd as [Hd Hd'].
  cbn in Hh. rewrite elem_of_cons in Hh. split_and!; [apply Z.eqb_neq; naive_solver|done| |].
  - apply sh_next_ok. apply (seg_after _ a l.*1 h a); [done|]. cbn. by rewrite Z.eqb_refl.
  - exists a. split_and!; [done|naive_solver|done].
Qed.

(** The elements before the first that a test accepts, and the others; none when
    the test is not defined on one that is asked. *)
Fixpoint break_at (f : Z -> option bool) (l : list (Z * Z)) : option (list (Z * Z) * list (Z * Z)) :=
  match l with
  | [] => Some ([], [])
  | x :: l' =>
      match f x.2 with
      | Some true => Some ([], l)
      | Some false => match break_at f l' with Some (l1, l2) => Some (x :: l1, l2) | None => None end
      | None => None
      end
  end.

Lemma break_at_app f l l1 l2 : break_at f l = Some (l1, l2) -> l = l1 ++ l2.
Proof.
  revert l1 l2. induction l as [|x l IH]; intros l1 l2; cbn; [by intros [= <- <-]|].
  destruct (f x.2) as [[]|]; [by intros [= <- <-]| |done].
  destruct (break_at f l) as [[m1 m2]|]; [|done]. intros [= <- <-]. cbn. by rewrite (IH _ _ eq_refl).
Qed.

Definition item_test (val : Z) (func : option (Z -> Z -> option bool)) (d : Z) : option bool :=
  match func with Some func => func val d | None => Some (d =? val) end.

Lemma is_item_ok val func d b s : item_test val func d = Some b -> is_item val func d s = Ok (b, s).
Proof. unfold item_test, is_item, deref. destruct func; [by intros ->|by intros [= <-]]. Qed.

Lemma find_item_ok fuel h val func l l1 l2 s :
  (length l <= fuel)%nat -> rest h l s -> break_at (item_test val func) l = Some (l1, l2) ->
  find_item fuel h val func (default h (head l.*1)) s = Ok (head l2.*1, s).
Proof.
  revert fuel l1 l2. induction l as [|[a d] l IH]; intros fuel l1 l2 Hf Hr; cbn [break_at].
  { intros [= <- <-]. destruct fuel; cbn; by rewrite Z.eqb_refl. }
  destruct (rest_cons _ _ _ _ _ Hr) as (Ea & Hd & Hn & Hr'). cbn [snd]. destruct fuel as [|fuel]; [cbn in Hf; lia|].
  cbn [fmap list_fmap head default fst find_item]. cbn. rewrite Ea, (bind_ok _ _ _ _ _ (sh_item_ok _ _ _ Hd)).
  destruct (item_test val func d) as [b|] eqn:E; [|done]. rewrite (bind_ok _ _ _ _ _ (is_item_ok _ _ _ _ _ E)).
  destruct b; [by intros [= <- <-]|]. destruct (break_at _ l) as [[m1 m2]|] eqn:B; [|done].
  intros [= <- <-]. rewrite (bind_ok _ _ _ _ _ Hn). apply (IH _ m1); [cbn in Hf; lia|done|done].
Qed.

Lemma find_place_ok fuel h val etal func l l1 l2 s :
  (length l <= fuel)%nat -> rest h l s -> break_at (fun d => func val d etal) l = Some (l1, l2) ->
  find_place fuel h val etal func (default h (head l.*1)) s = Ok (default h (head l2.*1), s).
Proof.
  revert fuel l1 l2. induction l as [|[a d] l IH]; intros fuel l1 l2 Hf Hr; cbn [break_at].
  { intros [= <- <-]. destruct fuel; cbn; by rewrite Z.eqb_refl. }
  destruct (rest_cons _ _ _ _ _ Hr) as (Ea & Hd & Hn & Hr'). cbn [snd]. destruct fuel as [|fuel]; [cbn in Hf; lia|].
  cbn. rewrite Ea, (bind_ok _ _ _ _ _ (sh_item_ok _ _ _ Hd)).
  destruct (func val d etal) as [b|] eqn:E; [|done]. cbn.
  destruct b; [by intros [= <- <-]|]. destruct (break_at _ l) as [[m1 m2]|] eqn:B; [|done].
  intros [= <- <-]. rewrite (bind_ok _ _ _ _ _ Hn). apply (IH _ m1); [cbn in Hf; lia|done|done].
Qed.

Lemma nth_item_ok n h l s :
  rest h l s -> nth_item n h (default h (head l.*1)) s = Ok (default h (head (drop n l).*1), s).
Proof.
  revert l. induction n as [|n IH]; intros l Hr; [done|]. destruct l as [|[a d] l]; cbn; [by rewrite Z.eqb_refl|].
  destruct (rest_cons _ _ _ _ _ Hr) as (Ea & _ & Hn & Hr'). rewrite Ea, (bind_ok _ _ _ _ _ Hn). by apply IH.
Qed.

Lemma holds_size h l s : holds h l s -> (length l <= size (sh_links s))%nat.
Proof. intros H. rewrite <- (length_fmap fst l). by eapply ring_size, h_ring. Qed.

Lemma head_next_ok h l s : holds h l s -> sh_next h s = Ok (default h (head l.*1), s).
Proof. intros H. apply sh_next_ok, (ring_next _ _ l.*1); [apply H|]. cbn. by rewrite Z.eqb_refl. Qed.

Lemma find_ok h val func l l1 l2 s :
  holds h l s -> break_at (item_test val func) l = Some (l1, l2) ->
  shListFindItem h val func s = Ok (head l2.*1, s).
Proof.
  intros H Hb. unfold shListFindItem. cbn [bind get]. rewrite (bind_ok _ _ _ _ _ (head_next_ok _ _ _ H)).
  eapply find_item_ok; [by eapply holds_size|by apply rest_all|done].
Qed.

Lemma nth_ok h n l s : holds h l s -> shListGetNItem h n s = Ok (fst <$> l !! n, s).
Proof.
  intros H. unfold shListGetNItem. rewrite (bind_ok _ _ _ _ _ (head_next_ok _ _ _ H)).
  rewrite (bind_ok _ _ _ _ _ (nth_item_ok n _ _ _ (rest_all _ _ _ H))). unfold ret. do 2 f_equal.
  pose proof (holds_head _ _ _ H) as Hh. assert (head (drop n l) = l !! n) as <-.
  { rewrite <- (Nat.add_0_r n) at 2. rewrite <- lookup_drop. by destruct (drop n l). }
  destruct (drop n l) as [|[a d] m] eqn:E; cbn; [by rewrite Z.eqb_refl|].
  destruct (a =? h) eqn:Ea; bools; [|done]. subst. exfalso. apply Hh. apply list_elem_of_fmap.
  exists (h, d). split; [done|]. apply (subseteq_drop n). rewrite E. by left.
Qed.

(** *** Linking in *)

(** The memory after a new node [a] was linked in between [p] and [n]. *)
Definition with_node (h a v p n : Z) (mem : list Z) (c : Z) (s : shlist) : shlist :=
  mkSh (inserted a p n (<[a := (0, 0)]> (sh_links s))) (<[h := u64 (c + 1)]> (<[a := v]> (sh_data s))) mem (sh_freed s).

Lemma u64_add a b : u64 (u64 a + b) = u64 (a + b).
Proof. unfold u64. by rewrite Zplus_mod_idemp_l. Qed.

Lemma holds_member h l s a : holds h l s -> a ∈ h :: l.*1 -> is_Some (sh_links s !! a).
Proof.
  intros [[_ Hs] _ _ _ _] [->|Ha]%elem_of_cons; [|by eapply seg_member].
  destruct (seg_first _ _ _ _ Hs) as (n & Hn & _). by eapply nxt_some.
Qed.

(** A new node is none of the list. *)
Lemma holds_fresh h l s a mem : holds h l s -> sh_mem s = a :: mem -> a ∉ h :: l.*1.
Proof.
  intros H Hm Ha. destruct (holds_member _ _ _ _ H Ha) as [x Hx].
  pose proof (h_new _ _ _ H) as Hn. rewrite Hm in Hn. apply list.Forall_cons in Hn as [Hn _]. congruence.
Qed.

Lemma inserted_none k t p n a : a <> t -> a <> p -> a <> n -> k !! a = None -> inserted t p n k !! a = None.
Proof. intros. unfold inserted, put_next, put_prev. by rewrite !lookup_insert_ne. Qed.

Lemma holds_with_node h l1 l2 s a v p n mem c :
  holds h (l1 ++ l2) s -> sh_mem s = a :: mem -> list.last (h :: l1.*1) = Some p -> list.head (l2.*1 ++ [h]) = Some n ->
  sh_data s !! h = Some c -> holds h (l1 ++ (a, v) :: l2) (with_node h a v p n mem c s).
Proof.
  intros H Hm Hp Hn Hc. pose proof (holds_fresh _ _ _ _ _ H Hm) as Ha. pose proof (holds_head _ _ _ H) as Hh.
  destruct H as [R D C ND N] eqn:EH. clear EH. rewrite Hm in ND, N. apply list.NoDup_cons in ND as [Ha' ND]. apply list.Forall_cons in N as [Na N].
  rewrite fmap_app in R, Ha, Hh.
  assert (p ∈ h :: l1.*1) as Hpin by (by apply last_Some_elem_of).
  assert (n ∈ l2.*1 ++ [h]) as Hnin by (by apply head_Some_elem_of).
  split; cbn.
  - rewrite fmap_app. cbn. apply ring_inserted; [by apply ring_insert_else|done|rewrite lookup_insert_eq; eauto|done|done].
  - apply list.Forall_app in D as [D1 D2].
    assert (forall m, m.*1 ⊆ l1.*1 ++ l2.*1 -> Forall (fun x => sh_data s !! x.1 = Some x.2) m ->
      Forall (fun x => <[h := u64 (c + 1)]> (<[a := v]> (sh_data s)) !! x.1 = Some x.2) m) as K.
    { intros m Hs Hf. apply list.Forall_forall. intros x Hx. rewrite list.Forall_forall in Hf.
      assert (x.1 ∈ l1.*1 ++ l2.*1) by (apply Hs, list_elem_of_fmap; eauto).
      rewrite !lookup_insert_ne by set_solver. by apply Hf. }
    apply list.Forall_app. split; [apply K; [set_solver|done]|]. constructor; [|apply K; [set_solver|done]].
    cbn. rewrite lookup_insert_ne by set_solver. by rewrite lookup_insert_eq.
  - rewrite lookup_insert_eq. f_equal. assert (c = u64 (Z.of_nat (length (l1 ++ l2)))) as -> by congruence.
    rewrite u64_add. rewrite !length_app. cbn [length]. f_equal. lia.
  - done.
  - apply list.Forall_forall. intros b Hb. rewrite list.Forall_forall in N. specialize (N b Hb).
    assert (b ∉ h :: l1.*1 ++ l2.*1) as Hbn.
    { intros Hin. assert (is_Some (sh_links s !! b)) as [? ?]; [|congruence]. destruct R as [_ R].
      apply elem_of_cons in Hin as [->|Hin]; [|by eapply seg_member].
      destruct (seg_first _ _ _ _ R) as (m & Hm' & _). by eapply nxt_some. }
    apply inserted_none; [set_solver..|]. rewrite lookup_insert_ne by set_solver. done.
Qed.

(** Nodes stay nodes. *)
Ltac node := cbn; repeat (apply put_prev_some || apply put_next_some); done.

(** The two ways to assign the four pointers of a new node. *)
Section link_in.
Context (h a v p n c : Z) (mem : list Z) (s : shlist).
Context (Hm : sh_mem s = a :: mem) (Hc : sh_data s !! h = Some c) (Hah : a <> h) (Hap : a <> p) (Han : a <> n).
Context (Hn : nxt (sh_links s) p = Some n) (Hp : prv (sh_links s) n = Some p).

(** The state after [malloc] and the first assignment. *)
Definition new_node : shlist := mkSh (<[a := (0, 0)]> (sh_links s)) (<[a := v]> (sh_data s)) mem (sh_freed s).

Lemma malloc_ok {B} (k : option Z -> M shlist B) : (item <- sh_malloc ;; k item) s = k (Some a) (upd_links <[a := (0, 0)]> (upd_mem (fun _ => mem) s)).
Proof using Hm. unfold sh_malloc, bind, get, modify, ret. by rewrite Hm. Qed.

Lemma new_node_some b : b = a \/ b = p \/ b = n -> is_Some (sh_links new_node !! b).
Proof using Hn Hp.
  clear Hm Hc Hah Hap Han. intros Hb. cbn. destruct (decide (a = b)) as [->|Hne]; [rewrite lookup_insert_eq; eauto|]. rewrite lookup_insert_ne by done.
  destruct Hb as [Hb|[Hb|Hb]]; [congruence|rewrite Hb; by eapply nxt_some|rewrite Hb; by eapply prv_some].
Qed.

(** In the order of [shListInsFirstItem] (with [p] the head), and in that of the
    others (with [n] the head or the place found). *)
Lemma link_first : p = h ->
  (n <- sh_next h ;; set_next a n ;; set_prev a h ;; n <- sh_next h ;; set_prev n a ;; set_next h a ;; count_add h 1) new_node
  = Ok (tt, with_node h a v p n mem c s).
Proof using Type*.
  intros <-. pose proof (new_node_some a ltac:(auto)) as Sa. pose proof (new_node_some p ltac:(auto)) as Sp.
  pose proof (new_node_some n ltac:(auto)) as Sn.
  assert (nxt (sh_links new_node) p = Some n) as Hn' by (cbn; unfold nxt; by rewrite lookup_insert_ne).
  erewrite bind_ok by (by apply sh_next_ok).
  erewrite bind_ok by (apply set_next_ok; node).
  erewrite bind_ok by (apply set_prev_ok; node).
  erewrite bind_ok by (apply sh_next_ok; cbn; rewrite nxt_put_prev by node; rewrite nxt_put_next by done; by rewrite decide_False).
  erewrite bind_ok by (apply set_prev_ok; node).
  erewrite bind_ok by (apply set_next_ok; node).
  rewrite (count_add_ok _ _ _ c); [done|]. cbn. by rewrite lookup_insert_ne.
Qed.

Lemma link_before :
  (set_next a n ;; p <- sh_prev n ;; set_prev a p ;; p <- sh_prev n ;; set_next p a ;; set_prev n a ;; count_add h 1) new_node
  = Ok (tt, with_node h a v p n mem c s).
Proof using Type*.
  pose proof (new_node_some a ltac:(auto)) as Sa. pose proof (new_node_some p ltac:(auto)) as Sp.
  pose proof (new_node_some n ltac:(auto)) as Sn.
  assert (prv (sh_links new_node) n = Some p) as Hp' by (cbn; unfold prv; by rewrite lookup_insert_ne).
  erewrite bind_ok by (apply set_next_ok; node).
  erewrite bind_ok by (apply sh_prev_ok; cbn; by rewrite prv_put_next).
  erewrite bind_ok by (apply set_prev_ok; node).
  erewrite bind_ok by (apply sh_prev_ok; cbn; rewrite prv_put_prev by node; rewrite decide_False by done; by rewrite prv_put_next).
  erewrite bind_ok by (apply set_next_ok; node).
  erewrite bind_ok by (apply set_prev_ok; node).
  rewrite (count_add_ok _ _ _ c); [|cbn; by rewrite lookup_insert_ne]. unfold with_node, inserted, upd_data, upd_links. cbn.
  rewrite put_comm; [done|node..].
Qed.

End link_in.

(** *** Inserting *)

Lemma ring_next_at k h l1 l2 p n :
  ring k h (l1 ++ l2) -> list.last (h :: l1) = Some p -> list.head (l2 ++ [h]) = Some n ->
  nxt k p = Some n /\ prv k n = Some p.
Proof.
  intros [_ Hs] Hp Hn. destruct l1 as [|x l1 _] using rev_ind.
  - cbn in Hp. injection Hp as <-. destruct l2; cbn in Hn; simplify_eq; [done|]. by destruct Hs as (? & ? & _).
  - rewrite app_comm_cons, last_snoc in Hp. injection Hp as <-. rewrite <- app_assoc in Hs. apply seg_app in Hs as [_ Hs].
    destruct l2; cbn in Hn; simplify_eq; [done|]. by destruct Hs as (? & ? & _).
Qed.

(** What the three insertions need of the place between [l1] and [l2]. *)
Lemma place_ok h l1 l2 s a mem p n :
  holds h (l1 ++ l2) s -> sh_mem s = a :: mem -> list.last (h :: l1.*1) = Some p -> list.head (l2.*1 ++ [h]) = Some n ->
  a <> h /\ a <> p /\ a <> n /\ nxt (sh_links s) p = Some n /\ prv (sh_links s) n = Some p.
Proof.
  intros H Hm Hp Hn. pose proof (holds_fresh _ _ _ _ _ H Hm) as Ha. rewrite fmap_app in Ha.
  assert (p ∈ h :: l1.*1) by (by apply last_Some_elem_of). assert (n ∈ l2.*1 ++ [h]) by (by apply head_Some_elem_of).
  split_and!; [set_solver..| |]; eapply (ring_next_at _ h l1.*1 l2.*1); rewrite <- ?fmap_app; try done; apply H.
Qed.

Lemma ins_first_ok h v l s a mem :
  holds h l s -> sh_mem s = a :: mem ->
  exists s', shListInsFirstItem h v s = Ok (tt, s') /\ holds h ((a, v) :: l) s' /\ sh_mem s' = mem /\ sh_freed s' = sh_freed s.
Proof.
  intros H Hm. set (n := default h (head l.*1)). assert (list.head (l.*1 ++ [h]) = Some n) as Hn by (by destruct l as [|[]]).
  destruct (place_ok h [] l s a mem h n H Hm eq_refl Hn) as (A1 & A2 & A3 & A4 & A5).
  exists (with_node h a v h n mem (u64 (Z.of_nat (length l))) s). split; [|split; [|done]].
  - unfold shListInsFirstItem. rewrite (malloc_ok _ mem _ Hm).
    apply (link_first h a v h n _ mem s Hm (h_count _ _ _ H)); done.
  - apply (holds_with_node h [] l); try done. apply H.
Qed.

Lemma ins_last_ok h v l s a mem :
  holds h l s -> sh_mem s = a :: mem ->
  exists s', shListInsLastItem h v s = Ok (tt, s') /\ holds h (l ++ [(a, v)]) s' /\ sh_mem s' = mem /\ sh_freed s' = sh_freed s.
Proof.
  intros H Hm. set (p := default h (list.last l.*1)).
  assert (list.last (h :: l.*1) = Some p) as Hp by (subst p; rewrite last_cons; by destruct (list.last l.*1)).
  rewrite <- (app_nil_r l) in H. destruct (place_ok h l [] s a mem p h H Hm Hp eq_refl) as (A1 & A2 & A3 & A4 & A5).
  eexists (with_node h a v p h mem _ s). split; [|split; [|done]].
  - unfold shListInsLastItem. rewrite (malloc_ok _ mem _ Hm).
    apply (link_before h a v p h _ mem s Hm (h_count _ _ _ H)); done.
  - apply (holds_with_node h l []); try done. apply H.
Qed.

Lemma new_node_holds h l s a v mem : holds h l s -> sh_mem s = a :: mem -> holds h l (new_node a v mem s).
Proof.
  intros H Hm. pose proof (holds_fresh _ _ _ _ _ H Hm) as Ha. destruct H as [R D C ND N]. rewrite Hm in ND, N.
  apply list.NoDup_cons in ND as [Ha' ND]. apply list.Forall_cons in N as [Na N]. split; cbn.
  - by apply ring_insert_else.
  - apply list.Forall_forall. intros x Hx. rewrite list.Forall_forall in D. rewrite lookup_insert_ne; [by apply D|].
    intros ->. apply Ha. right. apply list_elem_of_fmap. eauto.
  - rewrite lookup_insert_ne; [done|]. intros ->. apply Ha. by left.
  - done.
  - apply list.Forall_forall. intros b Hb. rewrite list.Forall_forall in N. rewrite lookup_insert_ne by set_solver. by apply N.
Qed.

Lemma ins_before_ok h v e func l l1 l2 s a mem :
  holds h l s -> sh_mem s = a :: mem -> break_at (fun d => func v d e) l = Some (l1, l2) ->
  exists s', shListInsBeforeItem h v e (Some func) s = Ok (tt, s') /\ holds h (l1 ++ (a, v) :: l2) s' /\ sh_mem s' = mem /\
    sh_freed s' = sh_freed s.
Proof.
  intros H Hm Hb. pose proof (break_at_app _ _ _ _ Hb) as El.
  set (p := default h (list.last l1.*1)). set (n := default h (head l2.*1)).
  assert (list.last (h :: l1.*1) = Some p) as Hp by (subst p; rewrite last_cons; by destruct (list.last l1.*1)).
  assert (list.head (l2.*1 ++ [h]) = Some n) as Hn by (by destruct l2 as [|[]]).
  pose proof H as H0. rewrite El in H. destruct (place_ok h l1 l2 s a mem p n H Hm Hp Hn) as (A1 & A2 & A3 & A4 & A5).
  eexists (with_node h a v p n mem _ s). split; [|split; [|done]].
  - unfold shListInsBeforeItem. rewrite (malloc_ok _ mem _ Hm). cbn [bind set_item modify get].
    fold (new_node a v mem s). pose proof (new_node_holds _ _ _ _ v _ H0 Hm) as HN.
    change (bind _ _ (upd_data _ _)) with
      ((n <- sh_next h ;; iptr <- find_place (size (sh_links (new_node a v mem s))) h v e func n ;;
        set_next a iptr ;; p <- sh_prev iptr ;; set_prev a p ;; p <- sh_prev iptr ;; set_next p a ;; set_prev iptr a ;;
        count_add h 1) (new_node a v mem s)).
    erewrite bind_ok by (by eapply head_next_ok).
    erewrite bind_ok by (eapply find_place_ok; [by eapply holds_size|by apply rest_all|done]).
    apply (link_before h a v p n _ mem s Hm (h_count _ _ _ H)); done.
  - apply (holds_with_node h l1 l2); try done. apply H.
Qed.

(** *** Deleting *)

(** What is given to the freeing function. *)
Definition freed (func : bool) (d : Z) : list Z := if func && negb (d =? 0) then [d] else [].

Lemma del_item_ok h l1 a d l2 s func :
  holds h (l1 ++ (a, d) :: l2) s ->
  exists s', shListDelItem h (Some a) func s = Ok (tt, s') /\ holds h (l1 ++ l2) s' /\ sh_mem s' = sh_mem s /\
    sh_freed s' = sh_freed s ++ freed func d.
Proof.
  intros H. destruct H as [R D C ND N] eqn:EH. clear EH. rewrite fmap_app in R. cbn [fmap list_fmap fst] in R.
  destruct (ring_member _ _ _ _ _ R) as (n & p & Hn & Hp & Hna & Hpa & Sn & Sp). pose proof (nxt_some _ _ _ Hn) as Sa.
  pose proof (ring_unlinked _ _ _ _ _ _ _ R Hn Hp) as R'. destruct R as [RN RS]. pose proof RN as RN'.
  apply list.NoDup_cons in RN' as [Hh Hnd]. apply list.NoDup_app in Hnd as (_ & N1 & N2). apply list.NoDup_cons in N2 as [N2 _].
  assert (a ∉ h :: l1.*1 ++ l2.*1) as Ha by set_solver.
  apply list.Forall_app in D as [D1 D2]. apply list.Forall_cons in D2 as [Da D2]. cbn in Da.
  exists (mkSh (delete a (unlinked n p (sh_links s))) (<[h := u64 (u64 (Z.of_nat (length (l1 ++ (a, d) :: l2))) + -1)]> (delete a (sh_data s)))
            (sh_mem s) (sh_freed s ++ freed func d)). split; [|split; [|done]].
  - unfold shListDelItem. erewrite bind_ok by (by apply sh_prev_ok). erewrite bind_ok by (by apply sh_next_ok).
    erewrite bind_ok by (by apply set_next_ok).
    erewrite bind_ok by (apply sh_next_ok; cbn; rewrite nxt_put_next by done; by rewrite decide_False).
    erewrite bind_ok by (apply sh_prev_ok; cbn; by rewrite prv_put_next).
    erewrite bind_ok by (apply set_prev_ok; node). erewrite bind_ok by (by apply sh_item_ok).
    unfold unlinked. rewrite <- put_comm by done. set (s1 := upd_links _ _).
    assert (when (func && negb (d =? 0)) (modify (upd_freed (fun l => l ++ [d]))) s1 = Ok (tt, upd_freed (fun l => l ++ freed func d) s1)) as W
      by (unfold freed, upd_freed; destruct (func && negb (d =? 0)); cbn; by rewrite ?app_nil_r).
    rewrite (bind_ok _ _ _ _ _ W). cbn [bind sh_free modify]. rewrite (count_add_ok _ h (-1) (u64 (Z.of_nat (length (l1 ++ (a, d) :: l2))))); [done|].
    cbn. rewrite lookup_delete_ne; [done|set_solver].
  - split; cbn.
    + rewrite fmap_app. destruct R' as [R1 R2]. split; [done|]. apply seg_delete_else; [set_solver|done].
    + assert (forall m, m.*1 ⊆ l1.*1 ++ l2.*1 -> Forall (fun x => sh_data s !! x.1 = Some x.2) m ->
        forall c, Forall (fun x => <[h := c]> (delete a (sh_data s)) !! x.1 = Some x.2) m) as K.
      { intros m Hs Hf c. apply list.Forall_forall. intros x Hx. rewrite list.Forall_forall in Hf.
        assert (x.1 ∈ l1.*1 ++ l2.*1) by (apply Hs, list_elem_of_fmap; eauto).
        rewrite lookup_insert_ne, lookup_delete_ne by set_solver. by apply Hf. }
      apply list.Forall_app. split; apply K; try done; set_solver.
    + rewrite lookup_insert_eq, u64_add. do 2 f_equal. rewrite !length_app. cbn [length]. lia.
    + done.
    + apply list.Forall_forall. intros b Hb. rewrite list.Forall_forall in N. specialize (N b Hb).
      destruct (decide (a = b)) as [->|Hab]; [apply lookup_delete_eq|]. rewrite lookup_delete_ne by done.
      rewrite unlinked_else; [done|intros ->; destruct Sn; congruence|intros ->; destruct Sp; congruence].
Qed.

Lemma del_all_ok fuel h func l s :
  (length l <= fuel)%nat -> holds h l s ->
  exists s', del_all fuel h func (default h (head l.*1)) s = Ok (tt, s') /\ holds h [] s' /\ sh_mem s' = sh_mem s /\
    sh_freed s' = sh_freed s ++ mjoin (freed func <$> l.*2).
Proof.
  revert fuel s. induction l as [|[a d] l IH]; intros fuel s Hf H.
  { exists s. cbn. rewrite app_nil_r. destruct fuel; cbn; by rewrite Z.eqb_refl. }
  pose proof (holds_head _ _ _ H) as Hh. destruct fuel as [|fuel]; [cbn in Hf; lia|].
  destruct (del_item_ok h [] a d l s func H) as (s1 & E1 & H1 & M1 & F1).
  destruct (IH fuel s1 ltac:(cbn in Hf; lia) H1) as (s2 & E2 & H2 & M2 & F2).
  exists s2. split_and!; [|done|congruence|]. 2: { rewrite F2, F1, <- app_assoc. done. }
  cbn -[shListDelItem]. destruct (a =? h) eqn:E; bools; [subst; set_solver|].
  rewrite (bind_ok _ _ _ _ _ E1). by rewrite (bind_ok _ _ _ _ _ (head_next_ok _ _ _ H1)).
Qed.

Lemma del_all_items_ok h func l s :
  holds h l s ->
  exists s', shListDelAllItems h func s = Ok (tt, s') /\ holds h [] s' /\ sh_mem s' = sh_mem s /\
    sh_freed s' = sh_freed s ++ mjoin (freed func <$> l.*2).
Proof.
  intros H. destruct (del_all_ok (size (sh_links s)) h func l s (holds_size _ _ _ H) H) as (s' & E & H' & Hm & Hf).
  exists (upd_data <[h := 0]> s'). split_and!; [|split; try apply H'|done|done].
  - unfold shListDelAllItems. cbn [bind get]. rewrite (bind_ok _ _ _ _ _ (head_next_ok _ _ _ H)). by rewrite (bind_ok _ _ _ _ _ E).
  - cbn. constructor.
  - cbn. by rewrite lookup_insert_eq.
Qed.

(** ** The abstract list *)

(** The calls of the interface. *)
Inductive sh_op :=
| OFind (val : Z) (func : option (Z -> Z -> option bool))
| OFirst | OLast | ONth (n : nat) | ONext (item : option Z) | OPrev (item : option Z)
| ODel (item : option Z) (func : bool) | ODelAll (func : bool)
| OInsFirst (val : Z) | OInsLast (val : Z) | OInsBefore (val etal : Z) (func : option (Z -> Z -> Z -> option bool))
| OCount.

Definition item_ret (m : M shlist (option Z)) : M shlist (option Z + Z) := r <- m ;; ret (inl r).
Definition no_ret (m : M shlist unit) : M shlist (option Z + Z) := m ;; ret (inl None).

Definition run_op (h : Z) (o : sh_op) : M shlist (option Z + Z) :=
  match o with
  | OFind v f => item_ret (shListFindItem h v f)
  | OFirst => item_ret (shListGetFirstItem h)
  | OLast => item_ret (shListGetLastItem h)
  | ONth n => item_ret (shListGetNItem h n)
  | ONext i => item_ret (shListGetNextItem h i)
  | OPrev i => item_ret (shListGetPrevItem h i)
  | ODel i f => no_ret (shListDelItem h i f)
  | ODelAll f => no_ret (shListDelAllItems h f)
  | OInsFirst v => no_ret (shListInsFirstItem h v)
  | OInsLast v => no_ret (shListInsLastItem h v)
  | OInsBefore v e f => no_ret (shListInsBeforeItem h v e f)
  | OCount => c <- shListGetCount h ;; ret (inr c)
  end.

Fixpoint run_ops (h : Z) (os : list sh_op) : M shlist (list (option Z + Z)) :=
  match os with
  | [] => ret []
  | o :: os => r <- run_op h o ;; rs <- run_ops h os ;; ret (r :: rs)
  end.

(** A list of nodes and data, the nodes to come, and the data freed. *)
Definition abs : Type := list (Z * Z) * list Z * list Z.

Definition abs_insert (l1 l2 : list (Z * Z)) (v : Z) (mem fr : list Z) : abs :=
  match mem with
  | [] => (l1 ++ l2, [], fr)
  | a :: mem => (l1 ++ (a, v) :: l2, mem, fr)
  end.

(** Removes the element at the node [a]. *)
Fixpoint take_out (a : Z) (l : list (Z * Z)) : option (list (Z * Z) * Z * list (Z * Z)) :=
  match l with
  | [] => None
  | (b, d) :: l =>
      if b =? a then Some ([], d, l)
      else match take_out a l with Some (l1, x, l2) => Some ((b, d) :: l1, x, l2) | None => None end
  end.

(** What a call does to a list; [None] when it is given a node that is not in
    the list, or its function is not defined on the data. *)
Definition abs_op (h : Z) (o : sh_op) (w : abs) : option ((option Z + Z) * abs) :=
  let '(l, mem, fr) := w in
  match o with
  | OFind v f => match break_at (item_test v f) l with Some (_, l2) => Some (inl (head l2.*1), w) | None => None end
  | OFirst => Some (inl (head l.*1), w)
  | OLast => Some (inl (list.last l.*1), w)
  | ONth n => Some (inl (fst <$> l !! n), w)
  | ONext None | OPrev None | ODel None _ => Some (inl None, w)
  | ONext (Some a) => match after a (h :: l.*1) with Some o => Some (inl o, w) | None => None end
  | OPrev (Some a) => match after a (h :: reverse l.*1) with Some o => Some (inl o, w) | None => None end
  | ODel (Some a) f =>
      match take_out a l with Some (l1, d, l2) => Some (inl None, (l1 ++ l2, mem, fr ++ freed f d)) | None => None end
  | ODelAll f => Some (inl None, ([], mem, fr ++ mjoin (freed f <$> l.*2)))
  | OInsFirst v => Some (inl None, abs_insert [] l v mem fr)
  | OInsLast v => Some (inl None, abs_insert l [] v mem fr)
  | OInsBefore v e None => Some (inl None, abs_insert [] l v mem fr)
  | OInsBefore v e (Some f) =>
      match mem with
      | [] => Some (inl None, w)
      | _ => match break_at (fun d => f v d e) l with
             | Some (l1, l2) => Some (inl None, abs_insert l1 l2 v mem fr)
             | None => None
             end
      end
  | OCount => Some (inr (u64 (Z.of_nat (length l))), w)
  end.

Fixpoint abs_ops (h : Z) (os : list sh_op) (w : abs) : option (list (option Z + Z) * abs) :=
  match os with
  | [] => Some ([], w)
  | o :: os =>
      match abs_op h o w with
      | Some (r, w1) => match abs_ops h os w1 with Some (rs, w2) => Some (r :: rs, w2) | None => None end
      | None => None
      end
  end.

Definition stands_for (h : Z) (w : abs) (s : shlist) : Prop :=
  let '(l, mem, fr) := w in holds h l s /\ sh_mem s = mem /\ sh_freed s = fr.

Lemma take_out_app a l l1 d l2 : take_out a l = Some (l1, d, l2) -> l = l1 ++ (a, d) :: l2.
Proof.
  revert l1 l2. induction l as [|[b x] l IH]; intros l1 l2; cbn; [done|]. destruct (b =? a) eqn:E; bools.
  - intros [= <- <- <-]. by subst.
  - destruct (take_out a l) as [[[m1 y] m2]|]; [|done]. intros [= <- <- <-]. cbn. by rewrite (IH _ _ eq_refl).
Qed.

(** No node is left: nothing is inserted. *)
Lemma malloc_none {B} (k : option Z -> M shlist B) s : sh_mem s = [] -> (item <- sh_malloc ;; k item) s = k None s.
Proof. intros Hm. unfold sh_malloc, bind, get, ret. by rewrite Hm. Qed.

Lemma ret_item m s r s' : m s = Ok (r, s') -> item_ret m s = Ok (inl r, s').
Proof. unfold item_ret, bind. by intros ->. Qed.

Lemma ret_none m s s' : m s = Ok (tt, s') -> no_ret m s = Ok (inl None, s').
Proof. unfold no_ret, bind. by intros ->. Qed.

(** Insertions, with or without memory. *)
Lemma insert_refines h m l1 l2 v mem fr s :
  holds h (l1 ++ l2) s -> sh_mem s = mem -> sh_freed s = fr ->
  (mem = [] -> m s = Ok (tt, s)) ->
  (forall a mem', mem = a :: mem' ->
     exists s', m s = Ok (tt, s') /\ holds h (l1 ++ (a, v) :: l2) s' /\ sh_mem s' = mem' /\ sh_freed s' = sh_freed s) ->
  exists s', no_ret m s = Ok (inl None, s') /\ stands_for h (abs_insert l1 l2 v mem fr) s'.
Proof.
  intros H Hm Hf H0 H1. destruct mem as [|a mem'].
  - exists s. split; [by apply ret_none, H0|]. done.
  - destruct (H1 a mem' eq_refl) as (s' & E & H' & Hm' & Hf'). exists s'. split; [by apply ret_none|]. split_and!; congruence.
Qed.

Lemma op_refines h o w s r w' :
  stands_for h w s -> abs_op h o w = Some (r, w') -> exists s', run_op h o s = Ok (r, s') /\ stands_for h w' s'.
Proof.
  destruct w as [[l mem] fr]. intros (H & Hm & Hf) Ho.
  assert (forall x, Some (x, (l, mem, fr)) = Some (r, w') -> run_op h o s = Ok (x, s) ->
    exists s', run_op h o s = Ok (r, s') /\ stands_for h w' s') as Same by (intros x [= -> <-] E; exists s; done).
  destruct o as [v f| | |n|[i|]|[i|]|[i|] f|f|v|v|v e [f|]|]; cbn [abs_op] in Ho; cbn [run_op].
  - destruct (break_at _ l) as [[l1 l2]|] eqn:B; [|done]. eapply Same; [done|]. by eapply ret_item, find_ok.
  - eapply Same; [done|]. by apply ret_item, first_item_ok.
  - eapply Same; [done|]. by apply ret_item, last_item_ok.
  - eapply Same; [done|]. by apply ret_item, nth_ok.
  - destruct (after i _) as [x|] eqn:A; [|done]. eapply Same; [done|]. by eapply ret_item, next_item_ok.
  - by eapply Same.
  - destruct (after i _) as [x|] eqn:A; [|done]. eapply Same; [done|]. by eapply ret_item, prev_item_ok.
  - by eapply Same.
  - destruct (take_out i l) as [[[l1 d] l2]|] eqn:T; [|done]. injection Ho as <- <-. apply take_out_app in T. subst l.
    destruct (del_item_ok _ _ _ _ _ _ f H) as (s' & E & H' & Hm' & Hf'). exists s'.
    split; [by apply ret_none|]. split_and!; congruence.
  - by eapply Same.
  - injection Ho as <- <-. destruct (del_all_items_ok _ f _ _ H) as (s' & E & H' & Hm' & Hf'). exists s'.
    split; [by apply ret_none|]. split_and!; congruence.
  - injection Ho as <- <-. eapply (insert_refines h _ [] l); [done..| |].
    + intros ->. by apply malloc_none.
    + intros a mem' ->. by apply ins_first_ok.
  - injection Ho as <- <-. eapply (insert_refines h _ l []); [by rewrite app_nil_r|done|done| |].
    + intros ->. by apply malloc_none.
    + intros a mem' ->. by apply ins_last_ok.
  - destruct mem as [|a mem'] eqn:Em.
    + injection Ho as <- <-. exists s. split; [|done]. apply ret_none. by apply malloc_none.
    + destruct (break_at _ l) as [[l1 l2]|] eqn:B; [|done]. injection Ho as <- <-. pose proof (break_at_app _ _ _ _ B) as El.
      change (l1 ++ (a, v) :: l2, mem', fr) with (abs_insert l1 l2 v (a :: mem') fr).
      eapply (insert_refines h _ l1 l2); [by rewrite <- El|done|done|done|]. intros b m [= <- <-]. by eapply ins_before_ok.
  - injection Ho as <- <-. eapply (insert_refines h _ [] l); [done..| |].
    + intros ->. by apply malloc_none.
    + intros a mem' ->. by apply ins_first_ok.
  - eapply Same; [done|]. cbn [run_op]. unfold shListGetCount. erewrite bind_ok by (apply sh_item_ok, H). done.
Qed.

(** The head of an initialised list. *)
Lemma init_holds h s :
  NoDup (sh_mem s) -> Forall (fun a => sh_links s !! a = None) (sh_mem s) -> h ∉ sh_mem s ->
  exists s', shListInitList h s = Ok (tt, s') /\ stands_for h ([], sh_mem s, sh_freed s) s'.
Proof.
  intros ND N Hh. eexists. split; [done|]. split_and!; [|done|done]. split; cbn.
  - split; [apply NoDup_singleton|]. cbn. unfold nxt, prv. by rewrite lookup_insert_eq.
  - constructor.
  - by rewrite lookup_insert_eq.
  - done.
  - apply list.Forall_forall. intros a Ha. rewrite list.Forall_forall in N. rewrite lookup_insert_ne; [by apply N|set_solver].
Qed.

Lemma ops_refine h os w s rs w' :
  stands_for h w s -> abs_ops h os w = Some (rs, w') -> exists s', run_ops h os s = Ok (rs, s') /\ stands_for h w' s'.
Proof.
  revert w s rs. induction os as [|o os IH]; intros w s rs H; cbn [abs_ops run_ops]; [intros [= <- <-]; by exists s|].
  destruct (abs_op h o w) as [[r w1]|] eqn:E; [|done]. destruct (abs_ops h os w1) as [[rs' w2]|] eqn:E2; [|done].
  intros [= <- <-]. destruct (op_refines _ _ _ _ _ _ H E) as (s1 & R1 & H1).
  destruct (IH _ _ _ H1 E2) as (s2 & R2 & H2). exists s2. split; [|done].
  rewrite (bind_ok _ _ _ _ _ R1). by rewrite (bind_ok _ _ _ _ _ R2).
Qed.

(** C31: from [shListInitList] on, any sequence of calls of the interface, with
    nodes of the list as arguments and whatever [malloc] does, returns what the
    same operations on a list return, leaves the ring linked in both directions
    with the list's elements and its count at the head, and frees the data of
    exactly the elements taken out. *)
Theorem shlist_refines_list h os s rs l mem fr :
  NoDup (sh_mem s) -> Forall (fun a => sh_links s !! a = None) (sh_mem s) -> h ∉ sh_mem s ->
  abs_ops h os ([], sh_mem s, sh_freed s) = Some (rs, (l, mem, fr)) ->
  exists s', (shListInitList h ;; run_ops h os) s = Ok (rs, s') /\
    ring (sh_links s') h l.*1 /\ Forall (fun x => sh_data s' !! x.1 = Some x.2) l /\
    shListGetCount h s' = Ok (u64 (Z.of_nat (length l)), s') /\ sh_freed s' = fr.
Proof.
  intros ND N Hh Ho. destruct (init_holds h s ND N Hh) as (s0 & E0 & H0).
  destruct (ops_refine _ _ _ _ _ _ H0 Ho) as (s1 & E1 & H1 & _ & Hf). exists s1.
  rewrite (bind_ok _ _ _ _ _ E0). split_and!; [done|apply H1|apply H1|by apply sh_item_ok, H1|done].
Qed.

Lemma shlist_refines_list_witness :
  exists s', (shListInitList 1 ;; run_ops 1 [OInsFirst 70; OInsFirst 80; OInsLast 0; ODel (Some 2) true; OFind 80 None; OPrev (Some 1); ODelAll true])
    (mkSh ∅ ∅ [2; 3; 4] []) = Ok ([inl None; inl None; inl None; inl None; inl (Some 3); inl (Some 4); inl None], s') /\
    ring (sh_links s') 1 [] /\ Forall (fun x => sh_data s' !! x.1 = Some x.2) (@nil (Z * Z)) /\
    shListGetCount 1 s' = Ok (0, s') /\ sh_freed s' = [70; 80].
Proof.
  apply (shlist_refines_list 1 _ (mkSh ∅ ∅ [2; 3; 4] []) _ [] [] [70; 80]).
  - by apply (bool_decide_unpack _).
  - by apply (bool_decide_unpack _).
  - by apply (bool_decide_unpack _).
  - reflexivity.
Defined.
