(* ===== verification/Io.v ===== *)
(** * Blocking I/O on descriptors

    The retry loops of transport.c ([readx], [writex], [read_packet],
    [write_packet], [transport_read_action], [transport_write_action]) and the
    failure reply of sockets.c ([sendfailmsg]).

    A descriptor is modelled by its contents and by a script of the kernel's
    answers: each [read] or [write] consumes one answer, which is a short
    transfer of at most so many bytes or an error; after the script every call
    transfers all it can.  The loops carry fuel; [readx] and [writex] start them
    with enough of it, and the theorems show they never run out. *)

From S2P Require Import Prelude.

(** ** Descriptors *)

Inductive errno := EINTR | EAGAIN | ENOENT | EEXIST | EPIPE | EOTHER (n : Z).

#[export] Instance errno_eq_dec : EqDecision errno.
Proof. solve_decision. Defined.

Inductive io_event :=
| UpTo (n : nat)        (** the call transfers at most [n + 1] bytes *)
| IoErr (e : errno)     (** the call returns -1 with this [errno] *)
| IoZero.               (** the call returns 0 *)

Record rdfd := mkRd { rd_data : list Z; rd_script : list io_event }.
Record wrfd := mkWr { wr_out : list Z; wr_script : list io_event }.

Inductive io_ret := Got (l : list Z) | Failed (e : errno).

Definition adb_read (len : nat) (s : rdfd) : io_ret * rdfd :=
  match rd_script s with
  | [] => (Got (take len (rd_data s)), mkRd (drop len (rd_data s)) [])
  | UpTo n :: sc =>
      let k := Nat.min (S n) len in
      (Got (take k (rd_data s)), mkRd (drop k (rd_data s)) sc)
  | IoErr e :: sc => (Failed e, mkRd (rd_data s) sc)
  | IoZero :: sc => (Got [], mkRd (rd_data s) sc)
  end.

(** [Got l]: the bytes [l] of [buf] were taken. *)
Definition adb_write (buf : list Z) (s : wrfd) : io_ret * wrfd :=
  match wr_script s with
  | [] => (Got buf, mkWr (wr_out s ++ buf) [])
  | UpTo n :: sc =>
      let b := take (S n) buf in (Got b, mkWr (wr_out s ++ b) sc)
  | IoErr e :: sc => (Failed e, mkWr (wr_out s) sc)
  | IoZero :: sc => (Got [], mkWr (wr_out s) sc)
  end.

(** ** readx and writex *)

Fixpoint readx_loop (fuel : nat) (len : nat) (acc : list Z) : M rdfd (option (list Z)) :=
  fun s =>
  if (0 <? len)%nat then
    match fuel with
    | O => Err EFuel
    | S f =>
        match adb_read len s with
        | (Got (b :: l), s') =>
            readx_loop f (len - length (b :: l)) (acc ++ b :: l) s'
        | (Failed EINTR, s') => readx_loop f len acc s'
        | (_, s') => Ok (None, s')
        end
    end
  else Ok (Some acc, s).

(** [Some l] is the return value 0 with the buffer filled with [l], [None] is -1. *)
Definition readx (len : nat) : M rdfd (option (list Z)) :=
  fun s => readx_loop (len + length (rd_script s)) len [] s.

Fixpoint writex_loop (fuel : nat) (buf : list Z) : M wrfd bool :=
  fun s =>
  match buf with
  | [] => Ok (true, s)
  | _ =>
      match fuel with
      | O => Err EFuel
      | S f =>
          match adb_write buf s with
          | (Got (b :: l), s') => writex_loop f (drop (length (b :: l)) buf) s'
          | (Failed EINTR, s') => writex_loop f buf s'
          | (_, s') => Ok (false, s')
          end
      end
  end.

(** [true] is the return value 0, [false] is -1. *)
Definition writex (buf : list Z) : M wrfd bool :=
  fun s => writex_loop (length buf + length (wr_script s)) buf s.

(** [sendfailmsg]: "FAIL", the length of the reason in hexadecimal, the reason. *)
Definition sendfailmsg (reason : list Z) : M wrfd bool :=
  let len := Nat.min (length reason) (Z.to_nat 65535) in
  let buf := snprintf 9 (bs "FAIL" ++ hex4 (Z.of_nat len)) in
  r <- writex (take 8 buf) ;;
  if r then writex (take len reason) else ret false.

(** ** Pointers through socket pairs *)

(** Size of a pointer: the tools are built for 32-bit targets. *)
Definition sizeof_ptr : nat := 4.

(** The packet pump passes the address of a packet through a socket pair. *)
Definition write_packet (p : Z) : M wrfd bool := writex (le_bytes sizeof_ptr p).

Definition read_packet : M rdfd (option Z) :=
  r <- readx sizeof_ptr ;; ret (of_le <$> r).

(** The transport registration messages. *)
Record tmsg := mkTmsg { tm_transport : Z; tm_action : Z }.

Definition transport_write_action (m : tmsg) : M wrfd bool :=
  writex (le_bytes sizeof_ptr (tm_transport m) ++ le32 (tm_action m)).

Definition transport_read_action : M rdfd (option tmsg) :=
  r <- readx (sizeof_ptr + 4) ;;
  ret ((fun l => mkTmsg (of_le (take sizeof_ptr l)) (of_le (drop sizeof_ptr l))) <$> r).

(** ** Reference behaviour *)

(** An event a correct retry loop does not let its caller see. *)
Definition benign (e : io_event) : Prop :=
  match e with
  | UpTo _ => True
  | IoErr e => e = EINTR
  | IoZero => False
  end.

(** What [readx] is meant to do, on the contents alone. *)
Definition read_exact (len : nat) (data : list Z) : option (list Z) * list Z :=
  if decide (len <= length data)%nat then (Some (take len data), drop len data)
  else (None, []).

(** ** Lemmas *)

Lemma adb_read_data len s r s' :
  adb_read len s = (r, s') ->
  exists l, rd_data s = l ++ rd_data s' /\ (length l <= len)%nat /\
    match r with Got k => k = l | Failed _ => l = [] end.
Proof.
  unfold adb_read. intros H.
  destruct (rd_script s) as [|[n|e|] sc]; simplify_eq/=.
  - exists (take len (rd_data s)). rewrite take_drop, length_take. split_and!; [done|lia|done].
  - eexists. rewrite (take_drop (Nat.min (S n) len)), length_take. split_and!; [done|lia|done].
  - exists []. split_and!; [done|simpl; lia|done].
  - exists []. split_and!; [done|simpl; lia|done].
Qed.

Lemma adb_read_progress len s r s' :
  adb_read len s = (r, s') ->
  (length (rd_script s') <= length (rd_script s))%nat /\
  (rd_script s <> [] -> (length (rd_script s') < length (rd_script s))%nat) /\
  (rd_script s = [] -> exists l, r = Got l).
Proof.
  unfold adb_read. intros H.
  destruct (rd_script s) as [|[n|e|] sc]; simplify_eq/=;
    split_and!; eauto; try lia; done.
Qed.

Lemma readx_loop_ok fuel len acc s :
  (len + length (rd_script s) <= fuel)%nat ->
  exists r s', readx_loop fuel len acc s = Ok (r, s') /\
    (length (rd_script s') <= length (rd_script s))%nat /\
    exists l, rd_data s = l ++ rd_data s' /\
      (length l <= len)%nat /\
      forall out, r = Some out -> out = acc ++ l /\ length l = len.
Proof.
  revert len acc s. induction fuel as [|f IH]; intros len acc s Hf.
  - assert (len = 0%nat) as -> by lia. simpl.
    exists (Some acc), s. split_and!; [done|lia|]. exists [].
    split_and!; [done|simpl; lia|]. intros out [= <-]. by rewrite app_nil_r.
  - simpl. destruct (0 <? len)%nat eqn:Hl; bools.
    2:{ assert (len = 0%nat) as -> by lia.
        exists (Some acc), s. split_and!; [done|lia|]. exists [].
        split_and!; [done|simpl; lia|]. intros out [= <-]. by rewrite app_nil_r. }
    destruct (adb_read len s) as [r s'] eqn:E.
    destruct (adb_read_data _ _ _ _ E) as (l & Hd & Hlen & Hr).
    destruct (adb_read_progress _ _ _ _ E) as (Hs & Hs' & Hs0).
    destruct r as [[|b l0]|e].
    + subst l. eexists None, s'. split_and!; [done|done|]. exists [].
      split_and!; [done|lia|done].
    + subst l. edestruct (IH (len - S (length l0))%nat (acc ++ b :: l0) s')
        as (r & s2 & -> & Hsc & l2 & Hd2 & Hl2 & Hout); [simpl in *; lia|].
      exists r, s2. split_and!; [done|lia|]. exists (b :: l0 ++ l2).
      rewrite Hd, Hd2. simpl. rewrite length_app. simpl in *.
      split_and!; [by rewrite app_assoc|lia|].
      intros out Ho. destruct (Hout _ Ho) as [-> ?].
      rewrite <- app_assoc. simpl. split; [done|lia].
    + assert (rd_script s <> []) as Hne.
      { intros Hn. destruct (Hs0 Hn) as [? [=]]. }
      specialize (Hs' Hne). subst l.
      assert (exists s2, readx_loop f len acc s' = Ok s2) as [[r2 s2] Hx] by
        (edestruct (IH len acc s') as (r & s2 & -> & _); [lia | eauto]).
      destruct e; try (eexists None, s'; split_and!; [done|lia|]; exists [];
        split_and!; [done|simpl; lia|done]).
      edestruct (IH len acc s') as (r & s3 & -> & Hsc & l2 & Hd2 & Hl2 & Hout); [lia|].
      exists r, s3. split_and!; [done|lia|]. exists l2. simpl in Hd.
      rewrite Hd. eauto.
Qed.

Lemma readx_loop_benign fuel len acc s :
  (len + length (rd_script s) <= fuel)%nat ->
  Forall benign (rd_script s) ->
  exists sc, Forall benign sc /\
    readx_loop fuel len acc s =
      Ok (app acc <$> (read_exact len (rd_data s)).1,
          mkRd (read_exact len (rd_data s)).2 sc).
Proof.
  revert len acc s. induction fuel as [|f IH]; intros len acc [data script] Hf Hb; simpl in *.
  - assert (len = 0%nat) as -> by lia. exists script. split; [done|].
    unfold read_exact. rewrite decide_True by lia. simpl. by rewrite app_nil_r.
  - destruct (0 <? len)%nat eqn:Hl; bools.
    2:{ assert (len = 0%nat) as -> by lia. exists script. split; [done|].
        unfold read_exact. rewrite decide_True by lia. simpl. by rewrite app_nil_r. }
    assert (forall k sc, (0 < k <= len)%nat -> Forall benign sc ->
      (len + length sc <= S f)%nat -> (k = len \/ length sc <= f - len)%nat ->
      exists sc', Forall benign sc' /\
      match take k data with
      | [] => Ok (None, mkRd (drop k data) sc)
      | b :: l => readx_loop f (len - length (b :: l)) (acc ++ b :: l) (mkRd (drop k data) sc)
      end = Ok (app acc <$> (read_exact len data).1, mkRd (read_exact len data).2 sc'))
      as Hstep.
    { intros k sc Hk Hsc Hm Hor. destruct (take k data) as [|b l] eqn:Et.
      - assert (data = []) as ->.
        { destruct data; [done|]. destruct k; [lia | done]. }
        exists sc. split; [done|]. unfold read_exact. simpl.
        rewrite decide_False by lia. by rewrite drop_nil.
      - assert (length (b :: l) = Nat.min k (length data)) as Hlen
          by (rewrite <- Et; apply length_take).
        edestruct (IH (len - length (b :: l))%nat (acc ++ b :: l) (mkRd (drop k data) sc))
          as (sc' & Hsc' & ->); [simpl in *; lia | done | ].
        exists sc'. split; [done|]. simpl rd_data. unfold read_exact.
        rewrite length_drop, Hlen.
        destruct (decide (len <= length data)%nat).
        + rewrite decide_True by lia. simpl fmap. simpl snd.
          rewrite drop_drop. replace (k + (len - Nat.min k (length data)))%nat with len by lia.
          do 3 f_equal. rewrite <- app_assoc, <- Et. f_equal.
          rewrite <- (take_drop k (take len data)), take_take.
          f_equal; [f_equal; lia|]. rewrite skipn_firstn_comm. f_equal. lia.
        + rewrite decide_False by lia. done. }
    destruct script as [|[n|e|] sc].
    + unfold adb_read; cbn [rd_script rd_data]. destruct (Hstep len []) as (sc' & ? & He);
        [lia|done|simpl in *; lia|lia|].
      exists sc'. split; [done|]. rewrite <- He. by destruct (take len data).
    + unfold adb_read; cbn [rd_script rd_data]. inversion Hb; subst.
      destruct (Hstep (Nat.min (S n) len) sc) as (sc' & ? & He);
        [lia|done|simpl in *; lia|simpl in *; lia|].
      exists sc'. split; [done|]. rewrite <- He.
      by destruct (take (Nat.min (S n) len) data).
    + inversion Hb as [|? ? He Hb']; subst. simpl in He. subst e. unfold adb_read; simpl.
      edestruct (IH len acc (mkRd data sc)) as (sc' & ? & ->);
        [simpl in *; lia|done|]. eauto.
    + inversion Hb as [|? ? He Hb']; done.
Qed.

Lemma readx_benign len s :
  Forall benign (rd_script s) ->
  exists sc, Forall benign sc /\
    readx len s = Ok ((read_exact len (rd_data s)).1, mkRd (read_exact len (rd_data s)).2 sc).
Proof.
  intros Hb. unfold readx.
  destruct (readx_loop_benign (len + length (rd_script s)) len [] s) as (sc & ? & ->);
    [lia|done|].
  exists sc. split; [done|]. by destruct (read_exact len (rd_data s)) as [[?|] ?].
Qed.

(** With all answers full and no data missing, the common case of a plain stream. *)
Lemma readx_plain len data :
  readx len (mkRd data []) = Ok ((read_exact len data).1, mkRd (read_exact len data).2 []).
Proof.
  destruct (readx_loop_ok len len [] (mkRd data [])) as (r & s' & He & Hsc & _);
    [simpl; lia|].
  destruct (readx_benign len (mkRd data [])) as (sc & _ & Hb); [constructor|].
  unfold readx in *. simpl in *. rewrite Nat.add_0_r in *. rewrite Hb in He.
  simplify_eq/=. by destruct sc; [|simpl in *; lia].
Qed.

Lemma adb_write_out buf s r s' :
  adb_write buf s = (r, s') ->
  exists l, wr_out s' = wr_out s ++ l /\
    match r with Got k => k = l /\ l `prefix_of` buf | Failed _ => l = [] end.
Proof.
  unfold adb_write. intros H.
  destruct (wr_script s) as [|[n|e|] sc]; simplify_eq/=.
  - exists buf. done.
  - eexists. split_and!; [done|done|]. apply (prefix_take buf (S n)).
  - exists []. by rewrite app_nil_r.
  - exists []. rewrite app_nil_r. split_and!; [done|done|]. apply prefix_nil.
Qed.

Lemma adb_write_progress buf s r s' :
  adb_write buf s = (r, s') ->
  (length (wr_script s') <= length (wr_script s))%nat /\
  (wr_script s <> [] -> (length (wr_script s') < length (wr_script s))%nat) /\
  (wr_script s = [] -> exists l, r = Got l).
Proof.
  unfold adb_write. intros H.
  destruct (wr_script s) as [|[n|e|] sc]; simplify_eq/=;
    split_and!; eauto; try lia; done.
Qed.

Lemma writex_loop_ok fuel buf s :
  (length buf + length (wr_script s) <= fuel)%nat ->
  exists r s' l, writex_loop fuel buf s = Ok (r, s') /\
    (length (wr_script s') <= length (wr_script s))%nat /\
    wr_out s' = wr_out s ++ l /\ l `prefix_of` buf /\ (r = true -> l = buf).
Proof.
  revert buf s. induction fuel as [|f IH]; intros buf s Hf.
  - destruct buf as [|b buf]; [|simpl in *; lia]. exists true, s, []. simpl.
    rewrite app_nil_r. split_and!; [done|lia|done|apply prefix_nil|done].
  - destruct buf as [|b0 buf].
    { exists true, s, []. simpl. rewrite app_nil_r.
      split_and!; [done|lia|done|apply prefix_nil|done]. }
    cbn [writex_loop]. destruct (adb_write (b0 :: buf) s) as [r s'] eqn:E.
    destruct (adb_write_out _ _ _ _ E) as (l & Ho & Hr).
    destruct (adb_write_progress _ _ _ _ E) as (Hs & Hs' & Hs0).
    destruct r as [[|b l0]|e].
    + destruct Hr as [<- Hn]. eexists false, s', []. split_and!; eauto; done.
    + destruct Hr as [<- [k Hk]].
      edestruct (IH (drop (length (b :: l0)) (b0 :: buf)) s')
        as (r & s2 & l2 & He & Hsc & Ho2 & Hl2 & Hout).
      { rewrite length_drop. simpl in *. lia. }
      rewrite Hk in Hl2, Hout. rewrite drop_app_length in Hl2, Hout.
      exists r, s2, ((b :: l0) ++ l2). split_and!; [exact He|lia| | |].
      * by rewrite Ho2, Ho, <- app_assoc.
      * rewrite Hk. by apply prefix_app.
      * intros Hr. by rewrite (Hout Hr).
    + assert (wr_script s <> []) as Hne.
      { intros Hn. destruct (Hs0 Hn) as [? [=]]. }
      specialize (Hs' Hne). subst l. rewrite app_nil_r in Ho.
      destruct e; try (eexists false, s', []; rewrite app_nil_r;
        split_and!; [done|lia|done|apply prefix_nil|done]).
      edestruct (IH (b0 :: buf) s') as (r & s3 & l2 & He & Hsc & Ho2 & Hl2 & Hout);
        [simpl in *; lia|].
      exists r, s3, l2. rewrite He, Ho2, Ho. split_and!; [done|lia|done|done|done].
Qed.

Lemma writex_loop_benign fuel buf s :
  (length buf + length (wr_script s) <= fuel)%nat ->
  Forall benign (wr_script s) ->
  exists sc, Forall benign sc /\ (length sc <= length (wr_script s))%nat /\
    writex_loop fuel buf s = Ok (true, mkWr (wr_out s ++ buf) sc).
Proof.
  revert buf s. induction fuel as [|f IH]; intros buf [out script] Hf Hb.
  - destruct buf as [|b buf]; [|simpl in *; lia]. exists script. simpl.
    by rewrite app_nil_r.
  - destruct buf as [|b0 buf].
    { exists script. simpl. by rewrite app_nil_r. }
    cbn [writex_loop]. unfold adb_write; cbn [wr_script wr_out] in *.
    destruct script as [|[n|e|] sc]; simpl in Hb; try (inversion Hb; subst).
    + edestruct (IH (drop (length (b0 :: buf)) (b0 :: buf)) (mkWr (out ++ b0 :: buf) []))
        as (sc' & ? & ? & He); [rewrite length_drop; simpl in *; lia|constructor|].
      exists sc'. split_and!; [done|done|]. rewrite He. simpl wr_out.
      by rewrite drop_all, app_nil_r.
    + cbn [firstn]. edestruct (IH (drop (length (b0 :: take n buf)) (b0 :: buf))
        (mkWr (out ++ b0 :: take n buf) sc)) as (sc' & ? & ? & He);
        [rewrite length_drop; simpl in *; lia|done|].
      exists sc'. split_and!; [done|simpl in *; lia|]. rewrite He. simpl wr_out.
      rewrite <- app_assoc. do 3 f_equal. simpl. do 2 f_equal.
      apply take_drop_len.
    + simpl in *. subst e. edestruct (IH (b0 :: buf) (mkWr out sc)) as (sc' & ? & ? & ->);
        [simpl in *; lia|done|]. exists sc'. split_and!; [done|simpl in *; lia|done].
    + done.
Qed.

Lemma writex_benign buf s :
  Forall benign (wr_script s) ->
  exists sc, Forall benign sc /\ (length sc <= length (wr_script s))%nat /\
    writex buf s = Ok (true, mkWr (wr_out s ++ buf) sc).
Proof. intros. by apply writex_loop_benign. Qed.

Lemma writex_plain buf out :
  writex buf (mkWr out []) = Ok (true, mkWr (out ++ buf) []).
Proof.
  destruct (writex_benign buf (mkWr out [])) as (sc & _ & Hl & ->); [constructor|].
  by destruct sc; [|simpl in *; lia].
Qed.

Lemma read_exact_app len a b :
  length a = len -> read_exact len (a ++ b) = (Some a, b).
Proof.
  intros <-. unfold read_exact. rewrite length_app, decide_True by lia.
  by rewrite take_app_length, drop_app_length.
Qed.

#[export] Hint Rewrite readx_plain writex_plain : adb.

Lemma readx_returns len s :
  exists r s' l, readx len s = Ok (r, s') /\ rd_data s = l ++ rd_data s' /\
    (forall out, r = Some out -> out = l /\ length l = len).
Proof.
  destruct (readx_loop_ok (len + length (rd_script s)) len [] s)
    as (r & s' & He & _ & l & Hd & _ & Ho); [lia|]. eauto 10.
Qed.

Lemma writex_returns buf s :
  exists r s' l, writex buf s = Ok (r, s') /\ wr_out s' = wr_out s ++ l /\
    l `prefix_of` buf /\ (r = true -> l = buf).
Proof.
  destruct (writex_loop_ok (length buf + length (wr_script s)) buf s)
    as (r & s' & l & He & _ & Ho & Hp & Hr); [lia|]. eauto 10.
Qed.

(** ** Theorems *)

(** [readx] is independent of how the kernel splits the transfer: under any
    sequence of short reads and EINTR it returns 0 with exactly the next [len]
    bytes when they are there and leaves the rest, and -1 at a premature end of
    file; and whatever else the kernel answers, it terminates, and returns 0
    only after having consumed exactly the [len] bytes it put in the buffer. *)
Theorem readx_exact len s :
  (Forall benign (rd_script s) ->
   exists sc, readx len s =
     Ok ((read_exact len (rd_data s)).1, mkRd (read_exact len (rd_data s)).2 sc)) /\
  exists r s' l, readx len s = Ok (r, s') /\ rd_data s = l ++ rd_data s' /\
    (forall out, r = Some out -> out = l /\ length l = len).
Proof.
  split.
  - intros Hb. destruct (readx_benign len s Hb) as (sc & _ & He). eauto.
  - apply readx_returns.
Qed.

(** [writex] hands over a prefix of its buffer and nothing else, terminates
    under every sequence of kernel answers, returns 0 only when the whole buffer
    was written, and does so under any mix of short writes and EINTR. *)
Theorem writex_exact buf s :
  (Forall benign (wr_script s) ->
   exists sc, writex buf s = Ok (true, mkWr (wr_out s ++ buf) sc)) /\
  exists r s' l, writex buf s = Ok (r, s') /\ wr_out s' = wr_out s ++ l /\
    l `prefix_of` buf /\ (r = true -> l = buf).
Proof.
  split.
  - intros Hb. destruct (writex_benign buf s Hb) as (sc & _ & _ & He). eauto.
  - apply writex_returns.
Qed.
