(* ===== verification/Shell.v ===== *)
(** * The interactive shell (commandline.c, history.h)

    [adb shell] copies the terminal to the device in a thread of its own and the
    device's answers to the terminal.  On the way it watches for the escape
    sequence that ends the session, keeps track of the line being typed, remembers
    the lines in a list, and answers the arrow keys from it.  This file models
    [stdin_read_thread] and [read_and_dump]; the client is built with
    [SH_HISTORY]. *)

From S2P Require Import Prelude Ring Io ShList.

Definition SH_ARROW_ANY : list Z := [0x1b; 0x5b].
Definition SH_ARROW_UP : Z := 0x41.
Definition SH_ARROW_DOWN : Z := 0x42.
Definition SH_DEL_CHAR : Z := 0x7F.
Definition SH_BLANK_CHAR : Z := 0x20.

(** The address of [history], an object on the thread's stack. *)
Definition history : Z := 1.

(** The variables of the thread.  [buf] and [realbuf] have 1024 bytes, anything at
    first.  [th_strs] has the copies of lines made with [malloc], which returns the
    addresses [th_mem] and fails after them. *)
Record thread := mkThread {
  th_list : shlist;
  th_strs : gmap Z (list Z);
  th_mem : list Z;
  buf : list Z;
  realbuf : list Z;
  item : Z;
  cmdlen : nat;
  ins_flag : bool;
  state : Z;
  th_in : rdfd;
  th_out : wrfd;
}.

Definition upd_list (f : shlist -> shlist) (t : thread) : thread :=
  mkThread (f (th_list t)) (th_strs t) (th_mem t) (buf t) (realbuf t) (item t) (cmdlen t) (ins_flag t) (state t) (th_in t) (th_out t).
Definition upd_strs (f : gmap Z (list Z) -> gmap Z (list Z)) (mem : list Z) (t : thread) : thread :=
  mkThread (th_list t) (f (th_strs t)) mem (buf t) (realbuf t) (item t) (cmdlen t) (ins_flag t) (state t) (th_in t) (th_out t).
Definition upd_buf (f : list Z -> list Z) (t : thread) : thread :=
  mkThread (th_list t) (th_strs t) (th_mem t) (f (buf t)) (realbuf t) (item t) (cmdlen t) (ins_flag t) (state t) (th_in t) (th_out t).
Definition upd_realbuf (f : list Z -> list Z) (t : thread) : thread :=
  mkThread (th_list t) (th_strs t) (th_mem t) (buf t) (f (realbuf t)) (item t) (cmdlen t) (ins_flag t) (state t) (th_in t) (th_out t).
Definition set_cursor (i : Z) (t : thread) : thread :=
  mkThread (th_list t) (th_strs t) (th_mem t) (buf t) (realbuf t) i (cmdlen t) (ins_flag t) (state t) (th_in t) (th_out t).
Definition set_line (n : nat) (ins : bool) (t : thread) : thread :=
  mkThread (th_list t) (th_strs t) (th_mem t) (buf t) (realbuf t) (item t) n ins (state t) (th_in t) (th_out t).
Definition set_state (st : Z) (t : thread) : thread :=
  mkThread (th_list t) (th_strs t) (th_mem t) (buf t) (realbuf t) (item t) (cmdlen t) (ins_flag t) st (th_in t) (th_out t).
Definition set_in (i : rdfd) (t : thread) : thread :=
  mkThread (th_list t) (th_strs t) (th_mem t) (buf t) (realbuf t) (item t) (cmdlen t) (ins_flag t) (state t) i (th_out t).
Definition set_out (o : wrfd) (t : thread) : thread :=
  mkThread (th_list t) (th_strs t) (th_mem t) (buf t) (realbuf t) (item t) (cmdlen t) (ins_flag t) (state t) (th_in t) o.

(** A call on the list. *)
Definition on_history {A} (m : M shlist A) : M thread A :=
  fun t => match m (th_list t) with
           | Ok (a, l) => Ok (a, upd_list (fun _ => l) t)
           | Err e => Err e
           end.

(** ** Lines *)

(** [strcmp(val, idata) == 0] of two copies. *)
Definition shItemCmp (strs : gmap Z (list Z)) (val idata : Z) : option bool :=
  match strs !! val, strs !! idata with
  | Some a, Some b => Some (streq (cstr a) (cstr b))
  | _, _ => None
  end.

Definition str_malloc (l : list Z) : M thread (option Z) :=
  t <- get ;;
  match th_mem t with
  | [] => ret None
  | a :: mem => modify (upd_strs <[a := l]> mem) ;; ret (Some a)
  end.

(** A copy of the line is looked up in the list, and put at its start if it is
    not there. *)
Definition remember_line : M thread unit :=
  t <- get ;;
  if (length (realbuf t) <? cmdlen t)%nat then fail EUndef
  else
    buf_ptr <- str_malloc (take (cmdlen t) (realbuf t) ++ [0]) ;;
    match buf_ptr with
    | None => ret tt
    | Some p =>
        t <- get ;;
        i <- on_history (shListFindItem history p (Some (shItemCmp (th_strs t)))) ;;
        match i with
        | None => on_history (shListInsFirstItem history p) ;; modify (set_cursor history)
        | Some i => modify (set_cursor i)
        end
    end.

(** The end of a line: it is remembered if it was typed and starts with a
    printable character. *)
Definition end_of_line : M thread unit :=
  t <- get ;;
  first <- deref (realbuf t !! 0%nat) ;;
  when (ins_flag t && (SH_BLANK_CHAR <=? first)) remember_line ;;
  modify (set_line 0 false).

(** The [default] case: the line as it is typed. *)
Definition type_char (c : Z) : M thread unit :=
  t <- get ;;
  (if c =? SH_DEL_CHAR then modify (set_line (if (0 <? cmdlen t)%nat then cmdlen t - 1 else cmdlen t) true)
   else if (length (realbuf t) <=? cmdlen t)%nat then fail EUndef
   else modify (upd_realbuf <[cmdlen t := c]>) ;; modify (set_line (S (cmdlen t)) true)) ;;
  modify (set_state 0).

(** One character; [true] is [exit(0)]. *)
Definition scan_char (c : Z) : M thread bool :=
  t <- get ;;
  if c =? 10 then end_of_line ;; modify (set_state 1) ;; ret false
  else if c =? 13 then modify (set_state 1) ;; ret false
  else if c =? 126 then when (state t =? 1) (modify (set_state 2)) ;; ret false
  else if (c =? 46) && (state t =? 2) then ret true
  else type_char c ;; ret false.

(** The loop over the characters of a read. *)
Fixpoint scan_chars (l : list Z) : M thread bool :=
  match l with
  | [] => ret false
  | c :: l => stop <- scan_char c ;; if stop : bool then ret true else scan_chars l
  end.

(** ** Arrow keys *)

(** The item an arrow key asks for. *)
Definition arrow_item (c : Z) : M thread (option Z) :=
  t <- get ;;
  if c =? SH_ARROW_UP then on_history (shListGetNextItem history (Some (item t)))
  else if c =? SH_ARROW_DOWN then on_history (shListGetPrevItem history (Some (item t)))
  else ret None.

(** [snprintf(&buf[at], sizeof buf - at, "%s", text)]. *)
Definition sprintf_at (at_ : nat) (text b : list Z) : list Z :=
  let room := (length b - at_)%nat in
  if (room =? 0)%nat then b
  else let s := snprintf room text ++ [0] in take at_ b ++ s ++ drop (at_ + length s) b.

(** The line of the item replaces the line typed so far, of [len] characters, in
    the two buffers; the result is its length. *)
Definition show_item (len : nat) (i : option Z) : M thread nat :=
  match i with
  | Some i =>
      d <- on_history (sh_item i) ;;
      t <- get ;;
      block <- deref (th_strs t !! d) ;;
      let text := cstr block in
      let n := length text in
      modify (upd_buf (sprintf_at len text)) ;;
      (if (length (realbuf t) <? n)%nat then fail EUndef
       else modify (upd_realbuf (fun b => text ++ drop n b))) ;;
      modify (set_cursor i) ;;
      ret n
  | None => modify (set_cursor history) ;; ret 0%nat
  end.

(** The number of bytes of [buf] to send. *)
Definition arrow (c : Z) : M thread nat :=
  i <- arrow_item c ;;
  t <- get ;;
  let len := cmdlen t in
  if (length (buf t) <? len)%nat then fail EUndef
  else
    modify (upd_buf (fun b => replicate len SH_DEL_CHAR ++ drop len b)) ;;
    n <- show_item len i ;;
    modify (set_line n false) ;;
    ret (n + len)%nat.

(** ** The thread *)

Definition is_arrow (l : list Z) : option Z :=
  match l with
  | [a; b; c] => if bool_decide ([a; b] = SH_ARROW_ANY) then Some c else None
  | _ => None
  end.

(** One read from the terminal of the bytes [l]: [None] is [exit(0)], otherwise
    the number of bytes of [buf] to send. *)
Definition process_input (l : list Z) : M thread (option nat) :=
  modify (upd_buf (fun b => l ++ drop (length l) b)) ;;
  match is_arrow l with
  | Some c => r <- arrow c ;; ret (Some r)
  | None => stop <- scan_chars l ;; ret (if stop : bool then None else Some (length l))
  end.

(** [adb_write(fd, buf, r)]; [false] ends the loop. *)
Definition send_buf (r : nat) : M thread bool :=
  t <- get ;;
  if (length (buf t) <? r)%nat then fail EUndef
  else
    let '(res, o) := adb_write (take r (buf t)) (th_out t) in
    modify (set_out o) ;;
    ret match res with Got (_ :: _) => true | _ => false end.

(** The loop; the result tells whether the program exits. *)
Fixpoint stdin_loop (fuel : nat) : M thread bool :=
  match fuel with
  | O => fail EFuel
  | S f =>
      t <- get ;;
      let '(res, i) := adb_read 1024 (th_in t) in
      modify (set_in i) ;;
      match res with
      | Got [] => ret false
      | Failed e => if decide (e = EINTR) then stdin_loop f else ret false
      | Got l =>
          r <- process_input l ;;
          match r with
          | None => ret true
          | Some r =>
              if bool_decide (is_Some (is_arrow l)) && (r =? 0)%nat then stdin_loop f
              else ok <- send_buf r ;; if ok : bool then stdin_loop f else ret false
          end
      end
  end.

(** Enough for every read to return something. *)
Definition stdin_fuel (i : rdfd) : nat := S (length (rd_data i) + length (rd_script i)).

Definition stdin_read_thread : M thread bool :=
  on_history (shListInitList history) ;;
  t <- get ;;
  stop <- stdin_loop (stdin_fuel (th_in t)) ;;
  if stop : bool then ret true
  else on_history (shListDelAllItems history true) ;; ret false.

(** The bytes printed until the device closes the connection. *)
Fixpoint dump_loop (fuel : nat) (out : list Z) : M rdfd (list Z) :=
  fun s =>
  match fuel with
  | O => Err EFuel
  | S f =>
      match adb_read 4096 s with
      | (Got [], s') => Ok (out, s')
      | (Got l, s') => dump_loop f (out ++ l) s'
      | (Failed EINTR, s') => dump_loop f out s'
      | (Failed _, s') => Ok (out, s')
      end
  end.

Definition read_and_dump : M rdfd (list Z) := fun s => dump_loop (stdin_fuel s) [] s.

(** The variables at the start, with the contents of the arrays and what [malloc]
    will return. *)
Definition thread0 (nodes strs b rb : list Z) (i : rdfd) (o : wrfd) : thread :=
  mkThread (mkSh ∅ ∅ nodes []) ∅ strs b rb history 0 false 0 i o.
