(* ===== verification/ShellFacts.v ===== *)
(** * What the interactive shell does with the terminal

    The thread of Shell.v implements a line editor with a history: an abstract
    machine on lists of lines.  The escape sequence is recognised however the
    input is split. *)

From S2P Require Import Prelude Ring Io ShList Shell.

(** ** The line editor *)

(** The lines remembered, the newest first; which of them the arrow keys stand at,
    0 for none; the line typed so far, the character last put at the start of a
    line, whether something was typed, and how far the escape sequence has come. *)
Record editor := Ed {
  ed_hist : list (list Z);
  ed_pos : nat;
  ed_line : list Z;
  ed_first : Z;
  ed_typed : bool;
  ed_esc : Z;
}.

Definition ed_remember (e : editor) : editor :=
  if ed_typed e && (SH_BLANK_CHAR <=? ed_first e) then
    let s := cstr (ed_line e) in
    match list_find (eq s) (ed_hist e) with
    | Some (i, _) => Ed (ed_hist e) (S i) [] (ed_first e) false 1
    | None => Ed (s :: ed_hist e) 0 [] (ed_first e) false 1
    end
  else Ed (ed_hist e) (ed_pos e) [] (ed_first e) false 1.

Definition ed_esc_to (st : Z) (e : editor) : editor :=
  Ed (ed_hist e) (ed_pos e) (ed_line e) (ed_first e) (ed_typed e) st.

(** [None]: the line has no room for the character. *)
Definition ed_type (c : Z) (e : editor) : option editor :=
  if c =? SH_DEL_CHAR then
    Some (Ed (ed_hist e) (ed_pos e) (take (length (ed_line e) - 1) (ed_line e)) (ed_first e) true 0)
  else if decide (length (ed_line e) < 1024)%nat then
    Some (Ed (ed_hist e) (ed_pos e) (ed_line e ++ [c]) (if (length (ed_line e) =? 0)%nat then c else ed_first e) true 0)
  else None.

(** [inr tt] leaves the program. *)
Definition ed_char (c : Z) (e : editor) : option (editor + unit) :=
  if c =? 10 then Some (inl (ed_remember e))
  else if c =? 13 then Some (inl (ed_esc_to 1 e))
  else if c =? 126 then Some (inl (if ed_esc e =? 1 then ed_esc_to 2 e else e))
  else if (c =? 46) && (ed_esc e =? 2) then Some (inr tt)
  else inl <$> ed_type c e.

Fixpoint ed_chars (l : list Z) (e : editor) : option (editor + unit) :=
  match l with
  | [] => Some (inl e)
  | c :: l =>
      match ed_char c e with
      | Some (inl e) => ed_chars l e
      | r => r
      end
  end.

(** The arrow keys go round the history and the empty line. *)
Definition ed_target (c : Z) (e : editor) : nat :=
  if c =? SH_ARROW_UP then if decide (ed_pos e < length (ed_hist e))%nat then S (ed_pos e) else 0
  else if c =? SH_ARROW_DOWN then if decide (ed_pos e = 0)%nat then length (ed_hist e) else (ed_pos e - 1)%nat
  else 0.

(** The line at a place of the history. *)
Definition ed_text (e : editor) (p : nat) : list Z :=
  match p with O => [] | S k => default [] (ed_hist e !! k) end.

(** The line is deleted and replaced; what is sent does this at the other end. *)
Definition ed_arrow (c : Z) (e : editor) : option (editor * list Z) :=
  let p := ed_target c e in
  let text := ed_text e p in
  if decide (length (ed_line e) + length text < 1024)%nat then
    Some (Ed (ed_hist e) p text (default (ed_first e) (head text)) false (ed_esc e),
          replicate (length (ed_line e)) SH_DEL_CHAR ++ text)
  else None.

(** One read: the new state and what is sent, or the end. *)
Definition ed_input (l : list Z) (e : editor) : option (option (editor * list Z)) :=
  match is_arrow l with
  | Some c => Some <$> ed_arrow c e
  | None =>
      match ed_chars l e with
      | Some (inl e) => Some (Some (e, l))
      | Some (inr _) => Some None
      | None => None
      end
  end.

(** A session: whether it ended by the escape sequence, and what was sent. *)
Fixpoint ed_session (ls : list (list Z)) (e : editor) : option (bool * list Z) :=
  match ls with
  | [] => Some (false, [])
  | l :: ls =>
      match ed_input l e with
      | Some (Some (e, sent)) =>
          match ed_session ls e with
          | Some (b, rest) => Some (b, sent ++ rest)
          | None => None
          end
      | Some None => Some (true, [])
      | None => None
      end
  end.

(** ** The thread stands for an editor *)

Definition is_line (strs : gmap Z (list Z)) (x : Z * Z) (s : list Z) : Prop :=
  exists block, strs !! x.2 = Some block /\ cstr block = s.

(** The history is at the nodes and copies [l], and there is memory for [n] more
    lines. *)
Record edits (n : nat) (l : list (Z * Z)) (e : editor) (t : thread) : Prop := Edits {
  e_holds : holds history l (th_list t);
  e_hist : Forall2 (is_line (th_strs t)) l (ed_hist e);
  e_item : (history :: l.*1) !! ed_pos e = Some (item t);
  e_len : cmdlen t = length (ed_line e);
  e_line : take (cmdlen t) (realbuf t) = ed_line e;
  e_first : realbuf t !! 0%nat = Some (ed_first e);
  e_real : length (realbuf t) = 1024%nat;
  e_buf : length (buf t) = 1024%nat;
  e_ins : ins_flag t = ed_typed e;
  e_state : state t = ed_esc e;
  e_mem : NoDup (th_mem t);
  e_new : Forall (fun a => th_strs t !! a = None) (th_mem t);
  e_room : (n <= length (th_mem t))%nat;
  e_nodes : (n <= length (sh_mem (th_list t)))%nat;
}.

Lemma e_max n l e t : edits n l e t -> (length (ed_line e) <= 1024)%nat.
Proof. intros H. rewrite <- (e_line _ _ _ _ H), length_take, (e_real _ _ _ _ H). lia. Qed.

Lemma on_history_ok {A} (m : M shlist A) t a s : m (th_list t) = Ok (a, s) -> on_history m t = Ok (a, upd_list (fun _ => s) t).
Proof. unfold on_history. by intros ->. Qed.

Lemma on_list_read {A} (m : M shlist A) t a : m (th_list t) = Ok (a, th_list t) -> on_history m t = Ok (a, t).
Proof. unfold on_history. intros ->. by destruct t. Qed.

(** *** Finding a line *)

Lemma break_find strs p block l hist :
  strs !! p = Some block -> Forall2 (is_line strs) l hist ->
  exists l1 l2, break_at (item_test p (Some (shItemCmp strs))) l = Some (l1, l2) /\
    match list_find (eq (cstr block)) hist with
    | Some (i, _) => exists x, head l2.*1 = Some x /\ l.*1 !! i = Some x
    | None => l2 = []
    end.
Proof.
  intros Hp. induction 1 as [|x s l hist (b & Hx & Hb) HF IH]; [by exists [], []|].
  destruct IH as (l1 & l2 & Hbr & Hm). cbn [break_at item_test list_find]. unfold shItemCmp at 1. rewrite Hp, Hx, Hb. unfold streq.
  destruct (decide (cstr block = s)) as [->|Hne].
  - rewrite bool_decide_true by done. do 2 eexists. split; [done|]. cbn. eauto.
  - rewrite bool_decide_false by done. cbn [item_test] in Hbr. rewrite Hbr. do 2 eexists. split; [done|].
    destruct (list_find _ hist) as [[i y]|]; cbn; [|done]. exact Hm.
Qed.

Lemma str_malloc_ok t a mem block :
  th_mem t = a :: mem -> str_malloc block t = Ok (Some a, upd_strs <[a := block]> mem t).
Proof. intros H. unfold str_malloc. cbn. by rewrite H. Qed.

Lemma is_line_insert strs a block l hist :
  strs !! a = None -> Forall2 (is_line strs) l hist -> Forall2 (is_line (<[a := block]> strs)) l hist.
Proof.
  intros Ha. apply Forall2_impl. intros x s (b & Hx & Hb). exists b. split; [|done].
  rewrite lookup_insert_ne; [done|congruence].
Qed.

Lemma cstr_end s : cstr (s ++ [0]) = cstr s.
Proof. induction s as [|b x IH]; cbn; [done|]. destruct (b =? 0); [done|]. by rewrite IH. Qed.

(** The line is in the history, and the cursor where the editor has it. *)
Lemma remember_line_ok n l e t :
  edits (S n) l e t -> ed_typed e && (SH_BLANK_CHAR <=? ed_first e) = true ->
  exists l' t', remember_line t = Ok (tt, t') /\ edits n l' (ed_remember e) (set_state 1 (set_line 0 false t')) /\
    th_in t' = th_in t /\ th_out t' = th_out t /\ buf t' = buf t.
Proof.
  intros H E. pose proof (e_max _ _ _ _ H) as Hmax. destruct H as [Hh HF Hi Hl Hli Hfi Hr Hb Hin Hs Hm Hn Hro Hno].
  unfold remember_line, ed_remember. rewrite E. cbn [bind get]. rewrite Hr, Hl.
  destruct (1024 <? length (ed_line e))%nat eqn:E2; bools; [lia|].
  destruct (th_mem t) as [|a mem] eqn:Em; [cbn in Hro; lia|]. apply list.NoDup_cons in Hm as [Hm1 Hm2].
  apply list.Forall_cons in Hn as [Hn1 Hn2]. rewrite Hl in Hli. rewrite Hli, (bind_ok _ _ _ _ _ (str_malloc_ok t a mem _ Em)).
  cbn [bind get]. set (t1 := upd_strs <[a := _]> mem t).
  assert (Forall2 (is_line (th_strs t1)) l (ed_hist e)) as HF1 by (by apply is_line_insert).
  assert (th_strs t1 !! a = Some (ed_line e ++ [0])) as Ha by (cbn; by rewrite lookup_insert_eq).
  destruct (break_find _ a _ l _ Ha HF1) as (l1 & l2 & Hbr & Hfound). rewrite cstr_end in Hfound.
  rewrite (bind_ok _ _ _ _ _ (on_list_read _ t1 _ (find_ok _ _ _ _ _ _ _ Hh Hbr))).
  assert (Forall (fun b => th_strs t1 !! b = None) mem) as Hn3.
  { apply list.Forall_forall. intros b Hbm. rewrite list.Forall_forall in Hn2. cbn. rewrite lookup_insert_ne by set_solver. by apply Hn2. }
  destruct (list_find _ (ed_hist e)) as [[i y]|] eqn:Elf.
  - destruct Hfound as (x & -> & Hx). exists l. eexists. split; [done|]. split; [|done]. split; cbn; try done; cbn in *; lia.
  - subst l2. cbn [fmap list_fmap head]. destruct (sh_mem (th_list t)) as [|nd nds] eqn:End; [cbn in Hno; lia|].
    destruct (ins_first_ok history a l (th_list t) nd nds Hh End) as (s' & Ei & Hh' & Hm' & Hf').
    rewrite (bind_ok _ _ _ _ _ (on_history_ok _ t1 _ _ Ei)). exists ((nd, a) :: l). eexists. split; [done|].
    split; [|done]. split; cbn; try done; [|cbn in *; lia|rewrite Hm'; cbn in *; lia].
    constructor; [|done]. eexists. split; [done|]. apply cstr_end.
Qed.

(** The end of a line is handled as the editor does. *)
Lemma end_of_line_ok n l e t :
  edits (S n) l e t ->
  exists l' t', end_of_line t = Ok (tt, t') /\ edits n l' (ed_remember e) (set_state 1 t') /\
    th_in t' = th_in t /\ th_out t' = th_out t /\ buf t' = buf t.
Proof.
  intros H. unfold end_of_line. cbn [bind get]. rewrite (e_first _ _ _ _ H). cbn [bind deref ret].
  rewrite (e_ins _ _ _ _ H). destruct (ed_typed e && (SH_BLANK_CHAR <=? ed_first e)) eqn:E; cbn [when].
  - destruct (remember_line_ok n l e t H E) as (l' & t' & Et & H' & Hi & Ho & Hbu). exists l'. eexists.
    rewrite (bind_ok _ _ _ _ _ Et). split; [done|]. done.
  - exists l. eexists. split; [done|]. split; [|done]. unfold ed_remember. rewrite E.
    destruct H. split; cbn; try done; lia.
Qed.

(** *** Typing *)

Lemma take_insert_snoc (l : list Z) i c : (i < length l)%nat -> take (S i) (<[i := c]> l) = take i l ++ [c].
Proof.
  intros H. rewrite (take_S_r _ _ c); [|by apply list_lookup_insert_eq]. by rewrite take_insert_ge by lia.
Qed.

Lemma type_char_ok n l e t c e' :
  edits n l e t -> ed_type c e = Some e' ->
  exists t', type_char c t = Ok (tt, t') /\ edits n l e' t' /\ th_in t' = th_in t /\ th_out t' = th_out t /\ buf t' = buf t.
Proof.
  intros H. pose proof (e_max _ _ _ _ H) as Hmax. destruct H as [Hh HF Hi Hl Hli Hfi Hr Hb Hin Hs Hm Hn Hro Hno].
  unfold ed_type, type_char. cbn [bind get]. destruct (c =? SH_DEL_CHAR).
  - intros [= <-]. eexists. split; [done|]. split; [|done]. split; cbn; try done.
    + rewrite length_take, Hl. destruct (length (ed_line e)); cbn; lia.
    + rewrite Hl in Hli |- *. transitivity (take (length (ed_line e) - 1) (take (length (ed_line e)) (realbuf t))); [|by rewrite Hli].
      rewrite take_take. f_equal. destruct (length (ed_line e)); cbn; lia.
  - destruct (decide (length (ed_line e) < 1024)%nat); [|done]. intros [= <-]. rewrite Hr, Hl.
    destruct (1024 <=? length (ed_line e))%nat eqn:E; [apply Nat.leb_le in E; lia|].
    eexists. split; [done|]. split; [|done]. split; cbn; try done.
    + rewrite length_app. cbn. lia.
    + rewrite take_insert_snoc by lia. rewrite <- Hl, Hli. done.
    + destruct (length (ed_line e)) eqn:E0; cbn; [by rewrite list_lookup_insert_eq by lia|by rewrite list_lookup_insert_ne].
    + by rewrite length_insert.
Qed.

(** The characters that use memory. *)
Definition newlines (l : list Z) : nat := length (filter (eq 10) l).

(** What a scan leaves: the state of the editor, or the end of the program. *)
Definition scanned (n : nat) (r : editor + unit) (t t' : thread) : Prop :=
  th_in t' = th_in t /\ th_out t' = th_out t /\ buf t' = buf t /\
  match r with inl e => exists l, edits n l e t' | inr _ => True end.

Definition stops (r : editor + unit) : bool := if r is inr _ then true else false.

Lemma scan_char_ok c n l e t r :
  edits (newlines [c] + n) l e t -> ed_char c e = Some r ->
  exists t', scan_char c t = Ok (stops r, t') /\ scanned n r t t'.
Proof.
  intros H. unfold ed_char, scan_char, newlines in *. rewrite filter_cons in H. cbn [bind get].
  destruct (c =? 10) eqn:E10; bools.
  { subst. rewrite decide_True in H by done. destruct (end_of_line_ok _ _ _ _ H) as (l1 & t1 & Et & H1 & Hi & Ho & Hbu).
    intros [= <-]. eexists. rewrite (bind_ok _ _ _ _ _ Et). split; [done|]. split_and!; [done..|]. by exists l1. }
  rewrite decide_False in H by done. cbn in H. destruct (c =? 13).
  { intros [= <-]. eexists. split; [done|]. split_and!; [done..|]. exists l. destruct H. by split. }
  rewrite (e_state _ _ _ _ H). destruct (c =? 126).
  { intros [= <-]. destruct (ed_esc e =? 1); (eexists; split; [done|]; split_and!; [done..|]; exists l); [|done]. destruct H. by split. }
  destruct ((c =? 46) && (ed_esc e =? 2)); [intros [= <-]; by exists t|].
  destruct (ed_type c e) as [e1|] eqn:Ee; cbn; [|done]. intros [= <-].
  destruct (type_char_ok _ _ _ _ _ _ H Ee) as (t1 & Et & H1 & Hi & Ho & Hbu). exists t1. rewrite (bind_ok _ _ _ _ _ Et).
  split; [done|]. split_and!; [done..|]. by exists l.
Qed.

Lemma scan_chars_ok cs n l e t r :
  edits (newlines cs + n) l e t -> ed_chars cs e = Some r ->
  exists t', scan_chars cs t = Ok (stops r, t') /\ scanned n r t t'.
Proof.
  revert l e t. induction cs as [|c cs IH]; intros l e t H; cbn [ed_chars scan_chars].
  { intros [= <-]. exists t. split; [done|]. split_and!; [done..|]. by exists l. }
  assert (newlines (c :: cs) = newlines [c] + newlines cs)%nat as Hnl
    by (unfold newlines; rewrite !filter_cons; case_decide; done).
  rewrite Hnl, <- Nat.add_assoc in H. destruct (ed_char c e) as [[e1|[]]|] eqn:Ec; [| |done].
  - destruct (scan_char_ok _ _ _ _ _ _ H Ec) as (t1 & E1 & Hi1 & Ho1 & Hb1 & l1 & H1). intros Hr.
    destruct (IH _ _ _ H1 Hr) as (t2 & E2 & Hi2 & Ho2 & Hb2 & H2). exists t2. rewrite (bind_ok _ _ _ _ _ E1).
    split; [done|]. split_and!; [congruence..|done].
  - intros [= <-]. destruct (scan_char_ok _ _ _ _ _ _ H Ec) as (t1 & E1 & Hs). exists t1. by rewrite (bind_ok _ _ _ _ _ E1).
Qed.

(** *** Arrow keys *)

Lemma after_nth L i x : NoDup L -> L !! i = Some x -> after x L = Some (L !! S i).
Proof.
  revert i. induction L as [|y L IH]; intros i Hnd Hi; [done|]. apply list.NoDup_cons in Hnd as [Hy Hnd]. cbn.
  destruct i as [|i]; cbn in Hi.
  - injection Hi as ->. rewrite Z.eqb_refl. by destruct L.
  - destruct (y =? x) eqn:E; bools; [|by apply IH]. subst. apply list_elem_of_lookup_2 in Hi. done.
Qed.

(** The node before the one at a place, the head standing at 0. *)
Lemma before_nth h L i x :
  NoDup (h :: L) -> (h :: L) !! i = Some x ->
  after x (h :: reverse L) = Some (match i with O => list.last L | S O => None | S (S k) => L !! k end).
Proof.
  intros Hnd Hi. assert (NoDup (h :: reverse L)) as Hnd' by (by rewrite reverse_Permutation).
  destruct i as [|i]; cbn in Hi.
  - injection Hi as ->. rewrite (after_nth _ 0 x) by done. rewrite <- head_reverse. change ((x :: reverse L) !! 1%nat) with (reverse L !! 0%nat). by destruct (reverse L).
  - pose proof (lookup_lt_Some _ _ _ Hi) as Hlt.
    rewrite (after_nth _ (S (length L - S i)) x); [|done|rewrite <- Hi; change (reverse L !! (length L - S i)%nat = L !! i); rewrite reverse_lookup by lia; f_equal; lia].
    f_equal. change (reverse L !! S (length L - S i) = match i with O => None | S k => L !! k end). destruct i as [|k].
    + apply lookup_ge_None. rewrite length_reverse. lia.
    + rewrite reverse_lookup by lia. f_equal. lia.
Qed.

(** The node at a place of the history. *)
Definition place (l : list (Z * Z)) (p : nat) : option Z := match p with O => None | S k => l.*1 !! k end.

Lemma ed_target_le c e : (ed_pos e <= length (ed_hist e))%nat -> (ed_target c e <= length (ed_hist e))%nat.
Proof. intros. unfold ed_target. repeat case_match; lia. Qed.

Lemma e_pos n l e t : edits n l e t -> length l = length (ed_hist e) /\ (ed_pos e <= length (ed_hist e))%nat.
Proof.
  intros H. pose proof (list.Forall2_length _ _ _ (e_hist _ _ _ _ H)) as Hl. split; [done|].
  pose proof (lookup_lt_Some _ _ _ (e_item _ _ _ _ H)) as Hlt. cbn in Hlt. rewrite length_fmap in Hlt. lia.
Qed.

Lemma arrow_item_ok n l e t c :
  edits n l e t -> arrow_item c t = Ok (place l (ed_target c e), t).
Proof.
  intros H. pose proof (e_pos _ _ _ _ H) as [Hl Hp]. unfold arrow_item, ed_target. cbn [bind get].
  pose proof (proj1 (h_ring _ _ _ (e_holds _ _ _ _ H))) as Hnd.
  destruct (c =? SH_ARROW_UP); [|destruct (c =? SH_ARROW_DOWN); [|done]].
  - apply on_list_read. rewrite (next_item_ok history l _ _ _ (e_holds _ _ _ _ H) (after_nth _ _ _ Hnd (e_item _ _ _ _ H))).
    cbn. case_decide; cbn; [done|]. do 2 f_equal. apply lookup_ge_None. rewrite length_fmap. lia.
  - apply on_list_read. rewrite (prev_item_ok history l _ _ _ (e_holds _ _ _ _ H) (before_nth _ _ _ _ Hnd (e_item _ _ _ _ H))).
    do 2 f_equal. destruct (ed_pos e) as [|[|k]]; cbn; [|done|done].
    rewrite last_lookup, length_fmap, Hl. destruct (length (ed_hist e)) eqn:E0; [|done]. cbn. by destruct l.
Qed.

(** The line of a node of the history. *)
Lemma place_line n l e t p x :
  edits n l e t -> place l p = Some x ->
  exists d block, sh_data (th_list t) !! x = Some d /\ th_strs t !! d = Some block /\ cstr block = ed_text e p.
Proof.
  intros H Hp. destruct p as [|k]; [done|]. cbn in *. rewrite list_lookup_fmap in Hp.
  destruct (l !! k) as [[a d]|] eqn:Ek; [|done]. injection Hp as <-.
  destruct (Forall2_lookup_l _ _ _ _ _ (e_hist _ _ _ _ H) Ek) as (s & Hs & block & Hb & Hc).
  exists d, block. rewrite Hs. split_and!; [|done|done].
  pose proof (h_data _ _ _ (e_holds _ _ _ _ H)) as HD. rewrite list.Forall_lookup in HD. by apply (HD k (a, d)).
Qed.

Lemma place_none n l e t p : edits n l e t -> (p <= length (ed_hist e))%nat -> place l p = None -> p = 0%nat.
Proof.
  intros H Hp. destruct p as [|k]; [done|]. cbn. rewrite <- (proj1 (e_pos _ _ _ _ H)) in Hp.
  intros Hn. apply lookup_ge_None in Hn. rewrite length_fmap in Hn. lia.
Qed.

(** What [snprintf] leaves in the buffer when the text fits. *)
Lemma sprintf_fits k text b :
  length b = 1024%nat -> (k + length text < 1024)%nat ->
  length (sprintf_at k text b) = 1024%nat /\ take (length text + k) (sprintf_at k text b) = take k b ++ text.
Proof.
  intros Hb Ht. unfold sprintf_at, snprintf. rewrite Hb. destruct (1024 - k =? 0)%nat eqn:E; bools; [lia|].
  cbv zeta. rewrite (take_ge text) by lia. split.
  { rewrite !length_app, !length_drop, length_take, ?length_app, Hb. cbn [length]. lia. }
  rewrite app_assoc, app_assoc, <- (app_assoc (take k b ++ text)). apply take_app_length'.
  rewrite length_app, length_take. lia.
Qed.

(** What an input leaves: the editor's state, the first [r] bytes of the buffer to
    be sent. *)
Definition answered (n : nat) (e' : editor) (sent : list Z) (t t' : thread) : Prop :=
  th_in t' = th_in t /\ th_out t' = th_out t /\ (exists l, edits n l e' t') /\ take (length sent) (buf t') = sent.

(** The line at a place of the history is put after the deletions. *)
Lemma show_item_ok n l e t p :
  edits n l e t -> (p <= length (ed_hist e))%nat -> (length (ed_line e) + length (ed_text e p) < 1024)%nat ->
  exists t', show_item (length (ed_line e)) (place l p) t = Ok (length (ed_text e p), t') /\
    th_in t' = th_in t /\ th_out t' = th_out t /\
    edits n l (Ed (ed_hist e) p (ed_text e p) (default (ed_first e) (head (ed_text e p))) false (ed_esc e))
      (set_line (length (ed_text e p)) false t') /\
    take (length (ed_text e p) + length (ed_line e)) (buf t') = take (length (ed_line e)) (buf t) ++ ed_text e p.
Proof.
  intros H Hp Hfit. unfold show_item. destruct (place l p) as [x|] eqn:Epl.
  - destruct (place_line _ _ _ _ _ _ H Epl) as (d & block & Hd & Hblock & Hc).
    destruct H as [Hh HF Hi Hl Hli Hfi Hr Hb Hin Hs Hm Hn Hro Hno].
    destruct (sprintf_fits (length (ed_line e)) (ed_text e p) (buf t) Hb Hfit) as [S1 S2].
    rewrite (bind_ok _ _ _ _ _ (on_list_read _ t _ (sh_item_ok _ _ _ Hd))). cbn [bind get].
    rewrite Hblock. cbn [bind deref ret modify]. rewrite Hc, Hr.
    destruct (1024 <? length (ed_text e p))%nat eqn:E2; bools; [lia|].
    eexists. split; [done|]. split_and!; [done..| |done].
    split; cbn; try done; [by destruct p|by rewrite take_app_length|by destruct (ed_text e p)|rewrite length_app, length_drop; lia].
  - assert (p = 0%nat) as -> by (by eapply place_none). eexists. split; [done|].
    split_and!; [done..| |cbn; by rewrite app_nil_r]. destruct H. by split.
Qed.

Lemma arrow_ok n l e t c e' sent :
  edits n l e t -> ed_arrow c e = Some (e', sent) ->
  exists t', arrow c t = Ok (length sent, t') /\ answered n e' sent t t'.
Proof.
  intros H. unfold ed_arrow. pose proof (ed_target_le c e (proj2 (e_pos _ _ _ _ H))) as Hple.
  case_decide as Hfit; [|done]. intros [= <- <-]. unfold arrow. rewrite (bind_ok _ _ _ _ _ (arrow_item_ok _ _ _ _ c H)).
  cbn [bind get]. rewrite (e_buf _ _ _ _ H), (e_len _ _ _ _ H).
  destruct (1024 <? length (ed_line e))%nat eqn:E; bools; [lia|]. cbn [bind modify]. set (t1 := upd_buf _ t).
  assert (edits n l e t1) as H1.
  { pose proof (e_buf _ _ _ _ H) as Hb. destruct H. split; try done. cbn. rewrite length_app, length_replicate, length_drop. lia. }
  destruct (show_item_ok n l e t1 _ H1 Hple Hfit) as (t2 & E2 & Hi & Ho & H2 & Hb2). rewrite (bind_ok _ _ _ _ _ E2).
  eexists. split; [unfold bind, modify, ret; rewrite length_app, length_replicate, Nat.add_comm; done|].
  split_and!; [done..|by exists l|]. rewrite length_app, length_replicate, Nat.add_comm. cbn [buf set_line]. rewrite Hb2.
  f_equal. apply take_app_length'. by rewrite length_replicate.
Qed.

Lemma process_input_ok n l e t cs r :
  (length cs <= 1024)%nat -> edits (newlines cs + n) l e t -> ed_input cs e = Some r ->
  exists t', match r with
             | Some (e', sent) => process_input cs t = Ok (Some (length sent), t') /\ answered n e' sent t t'
             | None => process_input cs t = Ok (None, t') /\ th_in t' = th_in t /\ th_out t' = th_out t
             end.
Proof.
  intros Hlen H. unfold ed_input, process_input. cbn [bind modify]. set (t1 := upd_buf _ t).
  assert (edits (newlines cs + n) l e t1) as H1.
  { pose proof (e_buf _ _ _ _ H) as Hb. destruct H. split; try done. cbn. rewrite length_app, length_drop. lia. }
  destruct (is_arrow cs) as [c|].
  - destruct (ed_arrow c e) as [[e' sent]|] eqn:E; [|done]. intros [= <-].
    assert (edits n l e t1) as H2 by (destruct H1; split; try done; lia).
    destruct (arrow_ok _ _ _ _ _ _ _ H2 E) as (t' & Et & Ha). exists t'. by rewrite (bind_ok _ _ _ _ _ Et).
  - destruct (ed_chars cs e) as [[e'|[]]|] eqn:E; [| |done]; intros [= <-];
      destruct (scan_chars_ok _ _ _ _ _ _ H1 E) as (t' & Et & Hi & Ho & Hb & Hs); exists t'; rewrite (bind_ok _ _ _ _ _ Et); [|done].
    split; [done|]. split_and!; [done..|]. rewrite Hb. apply take_app_length.
Qed.

(** ** The whole session *)

(** A terminal whose reads return these pieces; an empty one is an interrupted
    read.  After them the terminal is closed. *)
Definition read_event (l : list Z) : io_event := match l with [] => IoErr EINTR | _ :: l => UpTo (length l) end.
Definition keyboard (ls : list (list Z)) : rdfd := mkRd (mjoin ls) (read_event <$> ls).

Lemma read_keyboard n l ls :
  (length l <= n)%nat ->
  adb_read n (keyboard (l :: ls)) = (match l with [] => Failed EINTR | _ => Got l end, keyboard ls).
Proof.
  intros Hl. destruct l as [|c l]; [done|]. unfold adb_read, keyboard. cbn [rd_script rd_data fmap list_fmap read_event].
  rewrite Nat.min_l by done. cbv zeta. change (mjoin ((c :: l) :: ls)) with ((c :: l) ++ mjoin ls).
  by rewrite take_app_length', drop_app_length'.
Qed.

Lemma newlines_app a b : newlines (a ++ b) = (newlines a + newlines b)%nat.
Proof. unfold newlines. by rewrite list.filter_app, length_app. Qed.

Lemma send_buf_ok t sent :
  wr_script (th_out t) = [] -> take (length sent) (buf t) = sent ->
  send_buf (length sent) t = Ok (bool_decide (sent <> []), set_out (mkWr (wr_out (th_out t) ++ sent) []) t).
Proof.
  intros Hs Hb. unfold send_buf. cbn [bind get]. destruct (length (buf t) <? length sent)%nat eqn:E; bools.
  { apply (f_equal length) in Hb. rewrite length_take in Hb. lia. }
  unfold adb_write. rewrite Hs, Hb. cbn. by destruct sent.
Qed.

Lemma stdin_loop_ok ls : forall fuel l e t stop sent,
  Forall (fun l => (length l <= 1024)%nat) ls -> (length ls < fuel)%nat ->
  edits (newlines (mjoin ls)) l e t -> th_in t = keyboard ls -> wr_script (th_out t) = [] ->
  ed_session ls e = Some (stop, sent) ->
  exists t', stdin_loop fuel t = Ok (stop, t') /\ wr_out (th_out t') = wr_out (th_out t) ++ sent /\
    (stop = false -> exists l' e', edits 0 l' e' t').
Proof.
  induction ls as [|cs ls IH]; intros fuel l e t stop sent HF Hfuel H Hin Hw; (destruct fuel as [|fuel]; [cbn in Hfuel; lia|]);
    cbn [ed_session stdin_loop bind get].
  { rewrite Hin. cbn. intros [= <- <-]. eexists. split; [done|]. cbn. rewrite app_nil_r. split; [done|].
    intros _. exists l, e. destruct H. by split. }
  apply list.Forall_cons in HF as [Hcs HF]. rewrite Hin, read_keyboard by done. cbn [bind modify]. set (t1 := set_in _ t).
  change (mjoin (cs :: ls)) with (cs ++ mjoin ls) in H. rewrite newlines_app in H.
  assert (edits (newlines cs + newlines (mjoin ls)) l e t1) as H1 by (destruct H; by split).
  assert (forall l' e' t2 sent' rest, edits (newlines (mjoin ls)) l' e' t2 -> th_in t2 = keyboard ls -> wr_script (th_out t2) = [] ->
    wr_out (th_out t2) = wr_out (th_out t) ++ sent' -> ed_session ls e' = Some (stop, rest) -> sent = sent' ++ rest ->
    exists t', stdin_loop fuel t2 = Ok (stop, t') /\ wr_out (th_out t') = wr_out (th_out t) ++ sent /\
    (stop = false -> exists l' e', edits 0 l' e' t')) as Next.
  { intros l' e' t2 sent' rest H2 Hi Ho Hout Hs ->.
    destruct (IH fuel l' e' t2 stop rest HF ltac:(cbn in Hfuel; lia) H2 Hi Ho Hs) as (t' & Et & Hout' & He).
    exists t'. split; [done|]. split; [|done]. rewrite Hout', Hout. by rewrite app_assoc. }
  destruct cs as [|c cs'] eqn:Ecs.
  { cbn. destruct (ed_session ls e) as [[b rest]|] eqn:Es; [|done]. intros [= <- <-]. by apply (Next l e t1 [] rest); [..|rewrite app_nil_r| |]. }
  rewrite <- Ecs in *. destruct (ed_input cs e) as [r|] eqn:Er; [|done].
  destruct (process_input_ok _ _ _ _ _ _ Hcs H1 Er) as (t2 & Hr). destruct r as [[e' sent']|].
  2: { destruct Hr as (E2 & Hi & Ho). rewrite (bind_ok _ _ _ _ _ E2). intros [= <- <-]. exists t2. split; [done|].
       rewrite Ho, app_nil_r. done. }
  destruct Hr as (E2 & Hi & Ho & (l' & H2) & Hb). rewrite (bind_ok _ _ _ _ _ E2).
  destruct (ed_session ls e') as [[b rest]|] eqn:Es; [|done]. intros [= <- <-].
  pose proof (send_buf_ok t2 sent' ltac:(by rewrite Ho) Hb) as Hsend.
  destruct (bool_decide (is_Some (is_arrow cs)) && (length sent' =? 0)%nat) eqn:Eb; bools.
  - destruct sent'; [|done]. apply (Next l' e' t2 [] rest); [done|done|by rewrite Ho|by rewrite Ho, app_nil_r|done|done].
  - assert (sent' <> []) as Hne.
    { intros ->. apply andb_false_iff in Eb as [Eb|Eb]; [apply bool_decide_eq_false in Eb|done]. unfold ed_input in Er.
      destruct (is_arrow cs); [apply Eb; eauto|]. destruct (ed_chars cs e) as [[?|?]|]; simplify_eq. }
    rewrite (bind_ok _ _ _ _ _ Hsend), bool_decide_true by done.
    apply (Next l' e' _ sent' rest); [destruct H2; by split|done|done|cbn; by rewrite Ho|done|done].
Qed.

Lemma shell_session_ok nodes strs b rb first ls out stop sent :
  length b = 1024%nat -> length rb = 1024%nat -> rb !! 0%nat = Some first ->
  NoDup nodes -> NoDup strs -> history ∉ nodes ->
  (newlines (mjoin ls) <= length nodes)%nat -> (newlines (mjoin ls) <= length strs)%nat ->
  Forall (fun l => (length l <= 1024)%nat) ls ->
  ed_session ls (Ed [] 0 [] first false 0) = Some (stop, sent) ->
  exists t', stdin_read_thread (thread0 nodes strs b rb (keyboard ls) (mkWr out [])) = Ok (stop, t') /\
    wr_out (th_out t') = out ++ sent.
Proof.
  intros Hb Hrb Hf ND1 ND2 Hh Hn1 Hn2 HF Hs. set (t0 := thread0 _ _ _ _ _ _).
  destruct (init_holds history (th_list t0) ND1 ltac:(by apply list.Forall_true) Hh) as (s1 & E1 & H1 & Hm1 & _).
  set (t1 := upd_list (fun _ => s1) t0).
  assert (edits (newlines (mjoin ls)) [] (Ed [] 0 [] first false 0) t1) as He1.
  { split; cbn; try done; [by apply list.Forall_true|]. by rewrite Hm1. }
  assert (length ls < stdin_fuel (keyboard ls))%nat as Hfuel.
  { unfold stdin_fuel, keyboard. cbn [rd_data rd_script]. rewrite length_fmap. lia. }
  destruct (stdin_loop_ok ls _ _ _ t1 stop sent HF Hfuel He1 eq_refl eq_refl Hs) as (t2 & E2 & Hout & He2).
  unfold stdin_read_thread. rewrite (bind_ok _ _ _ _ _ (on_history_ok _ t0 _ _ E1)). cbn [bind get]. fold t1.
  rewrite (bind_ok _ _ _ _ _ E2). destruct stop; [by exists t2|].
  destruct (He2 eq_refl) as (l2 & e2 & H2). destruct (del_all_items_ok history true l2 _ (e_holds _ _ _ _ H2)) as (s3 & E3 & _).
  rewrite (bind_ok _ _ _ _ _ (on_history_ok _ t2 _ _ E3)). by eexists.
Qed.


(** Two lines, the arrow key up twice, a line end, and the escape sequence. *)
Definition demo_typing : list (list Z) :=
  [bs "ls"; [10]; []; bs "pwd"; [10]; [0x1b; 0x5b; 0x41]; [0x1b; 0x5b; 0x41]; [10; 126]; bs "." ].



(** ** The escape sequence *)

(** A line end, then tildes, then a full stop. *)
Definition ends_line (c : Z) : Prop := c = 10 \/ c = 13.
Definition escapes (s : list Z) : Prop :=
  exists pre c k post, ends_line c /\ s = pre ++ c :: replicate (S k) 126 ++ 46 :: post.

(** The machine that looks for it; [None] when it was found. *)
Definition esc_step (st : Z) (c : Z) : option Z :=
  if (c =? 10) || (c =? 13) then Some 1
  else if c =? 126 then Some (if st =? 1 then 2 else st)
  else if (c =? 46) && (st =? 2) then None
  else Some 0.

Fixpoint esc_run (s : list Z) (st : Z) : option Z :=
  match s with
  | [] => Some st
  | c :: s => match esc_step st c with Some st => esc_run s st | None => None end
  end.

Lemma esc_run_app a b st : esc_run (a ++ b) st = match esc_run a st with Some st => esc_run b st | None => None end.
Proof. revert st. induction a as [|c a IH]; intros st; cbn; [done|]. destruct (esc_step st c); [apply IH|done]. Qed.

(** What the states stand for. *)
Definition esc_inv (s : list Z) (st : option Z) : Prop :=
  match st with
  | None => escapes s
  | Some st =>
      ~ escapes s /\ (st = 1 <-> exists p c, ends_line c /\ s = p ++ [c]) /\
      (st = 2 <-> exists p c k, ends_line c /\ s = p ++ c :: replicate (S k) 126)
  end.

Lemma escapes_snoc s c :
  escapes (s ++ [c]) <-> escapes s \/ c = 46 /\ exists p d k, ends_line d /\ s = p ++ d :: replicate (S k) 126.
Proof.
  split.
  - intros (pre & d & k & post & Hd & E). destruct post as [|x post _] using rev_ind.
    + assert (pre ++ d :: replicate (S k) 126 ++ [46] = (pre ++ d :: replicate (S k) 126) ++ [46]) as Hx by (by rewrite <- app_assoc).
      rewrite Hx in E. apply app_inj_tail in E as [E ->]. right. split; [done|]. by exists pre, d, k.
    + assert (pre ++ d :: replicate (S k) 126 ++ 46 :: post ++ [x] = (pre ++ d :: replicate (S k) 126 ++ 46 :: post) ++ [x]) as Hx.
      { rewrite <- app_assoc. f_equal. cbn [app]. f_equal. rewrite <- app_assoc. done. }
      rewrite Hx in E. apply app_inj_tail in E as [E _]. left. by exists pre, d, k, post.
  - intros [(pre & d & k & post & Hd & ->)|(-> & p & d & k & Hd & ->)].
    + exists pre, d, k, (post ++ [c]). split; [done|]. rewrite <- app_assoc. f_equal. cbn [app]. f_equal. by rewrite <- app_assoc.
    + exists p, d, k, []. split; [done|]. by rewrite <- app_assoc.
Qed.

Lemma esc_run_inv s : esc_inv s (esc_run s 0).
Proof.
  induction s as [|c s IH] using rev_ind.
  { cbn. split_and!; [intros (pre & ? & ? & ? & _ & E); by destruct pre|split; [done|intros (p & ? & _ & E); by destruct p]|
      split; [done|intros (p & ? & ? & _ & E); by destruct p]]. }
  rewrite esc_run_app. destruct (esc_run s 0) as [st|]; cbn [esc_inv] in IH.
  2: { cbn. apply escapes_snoc. by left. }
  destruct IH as (Hne & H1 & H2). cbn [esc_run]. unfold esc_step.
  assert (forall st', ~ (c = 46 /\ st = 2) -> (st' = 1 <-> ends_line c) -> (st' = 2 <-> c = 126 /\ (st = 1 \/ st = 2)) ->
    esc_inv (s ++ [c]) (Some st')) as K.
  { intros st' Hc K1 K2. split_and!.
    - rewrite escapes_snoc. rewrite <- H2. tauto.
    - rewrite K1. split; [by exists s, c|]. intros (p & d & Hd & E). by apply app_inj_tail in E as [_ ->].
    - rewrite K2. split.
      + intros (-> & [Hst|Hst]).
        * apply H1 in Hst as (p & d & Hd & ->). exists p, d, 0%nat. split; [done|]. by rewrite <- app_assoc.
        * apply H2 in Hst as (p & d & k & Hd & ->). exists p, d, (S k). split; [done|].
          rewrite <- app_assoc, <- app_comm_cons, <- replicate_S_end. done.
      + intros (p & d & k & Hd & E). rewrite replicate_S_end, app_comm_cons, app_assoc in E. apply app_inj_tail in E as [-> ->].
        split; [done|]. destruct k as [|k]; [left; apply H1; by exists p, d|right; apply H2; by exists p, d, k]. }
  unfold ends_line in K. destruct ((c =? 10) || (c =? 13)) eqn:E1.
  { apply orb_true_iff in E1 as [E1|E1]; bools; subst; apply K; lia. }
  apply orb_false_iff in E1 as [E1 E1']; bools. destruct (c =? 126) eqn:E2; bools.
  { subst. apply K; [lia| |]; destruct (st =? 1) eqn:E3; bools; lia. }
  destruct ((c =? 46) && (st =? 2)) eqn:E3; bools.
  - subst. cbn. apply escapes_snoc. right. split; [done|]. by apply H2.
  - apply andb_false_iff in E3. apply K; [destruct E3; bools; lia|lia|lia].
Qed.

Lemma esc_found s : esc_run s 0 = None <-> escapes s.
Proof. pose proof (esc_run_inv s) as H. destruct (esc_run s 0); cbn in H; [|done]. split; [done|]. by intros ?%H. Qed.

(** Lines of at most 1024 characters, after [k] of them. *)
Fixpoint short_lines (k : nat) (s : list Z) : bool :=
  match s with
  | [] => true
  | c :: s => if c =? 10 then short_lines 0 s else (k <? 1024)%nat && short_lines (S k) s
  end.

Fixpoint column (k : nat) (s : list Z) : nat :=
  match s with
  | [] => k
  | c :: s => column (if c =? 10 then 0 else S k) s
  end.

Lemma short_lines_app k a b : short_lines k (a ++ b) = short_lines k a && short_lines (column k a) b.
Proof.
  revert k. induction a as [|c a IH]; intros k; cbn; [done|]. destruct (c =? 10); rewrite IH; [done|]. by rewrite andb_assoc.
Qed.

Lemma ed_char_esc c e k :
  (length (ed_line e) <= k)%nat -> (c = 10 \/ (k < 1024)%nat) ->
  match esc_step (ed_esc e) c with
  | None => ed_char c e = Some (inr tt)
  | Some st => exists e', ed_char c e = Some (inl e') /\ ed_esc e' = st /\ (length (ed_line e') <= if (c =? 10)%Z then 0 else S k)%nat
  end.
Proof.
  intros Hl Hk. unfold esc_step, ed_char. destruct (c =? 10) eqn:E; cbn [orb].
  { eexists. split; [done|]. unfold ed_remember. repeat case_match; cbn; split; done || lia. }
  bools. destruct (c =? 13); [eexists; split; [done|]; cbn; split; [done|lia]|].
  destruct (c =? 126); [destruct (ed_esc e =? 1); (eexists; split; [done|]; cbn; split; [done|lia])|].
  destruct ((c =? 46) && (ed_esc e =? 2)); [done|]. unfold ed_type. destruct (c =? SH_DEL_CHAR).
  - eexists. split; [done|]. cbn. rewrite length_take. split; [done|lia].
  - rewrite decide_True by lia. eexists. split; [done|]. cbn. rewrite length_app. cbn. split; [done|lia].
Qed.

Lemma ed_chars_esc cs : forall e k,
  (length (ed_line e) <= k)%nat -> short_lines k cs = true ->
  match esc_run cs (ed_esc e) with
  | None => ed_chars cs e = Some (inr tt)
  | Some st => exists e', ed_chars cs e = Some (inl e') /\ ed_esc e' = st /\ (length (ed_line e') <= column k cs)%nat
  end.
Proof.
  induction cs as [|c cs IH]; intros e k Hl Hs; cbn [esc_run ed_chars column short_lines] in *; [by exists e|].
  assert (c = 10 \/ (k < 1024)%nat) as Hc by (destruct (c =? 10) eqn:E; bools; [by left|right; lia]).
  pose proof (ed_char_esc c e k Hl Hc) as H. destruct (esc_step (ed_esc e) c) as [st|]; [|by rewrite H].
  destruct H as (e' & -> & <- & Hl'). apply IH; [done|]. destruct (c =? 10); bools; done.
Qed.

(** Pieces before the one in which the sequence is complete, or all. *)
Fixpoint unescaped (ls : list (list Z)) (st : Z) : bool * list Z :=
  match ls with
  | [] => (false, [])
  | l :: ls =>
      match esc_run l st with
      | Some st => let '(b, r) := unescaped ls st in (b, l ++ r)
      | None => (true, [])
      end
  end.

Lemma ed_session_esc ls : forall e k,
  Forall (fun l => is_arrow l = None) ls -> (length (ed_line e) <= k)%nat -> short_lines k (mjoin ls) = true ->
  ed_session ls e = Some (unescaped ls (ed_esc e)).
Proof.
  induction ls as [|l ls IH]; intros e k Ha Hl Hs; [done|]. apply list.Forall_cons in Ha as [Ha1 Ha2].
  change (mjoin (l :: ls)) with (l ++ mjoin ls) in Hs. rewrite short_lines_app in Hs. bools.
  cbn [ed_session unescaped]. unfold ed_input. rewrite Ha1. pose proof (ed_chars_esc l e k Hl ltac:(done)) as H1.
  destruct (esc_run l (ed_esc e)) as [st|]; [|by rewrite H1]. destruct H1 as (e' & -> & <- & Hl').
  rewrite (IH e' _ Ha2 Hl') by done. by destruct (unescaped ls (ed_esc e')).
Qed.

Lemma unescaped_take ls : forall st k,
  esc_run (mjoin (take k ls)) st <> None -> (k = length ls \/ esc_run (mjoin (take (S k) ls)) st = None) -> (k <= length ls)%nat ->
  unescaped ls st = (bool_decide (k <> length ls), mjoin (take k ls)).
Proof.
  induction ls as [|l ls IH]; intros st k H1 H2 Hk.
  { destruct k; [|cbn in Hk; lia]. by rewrite bool_decide_false by (intros []; done). }
  cbn [unescaped]. destruct k as [|k].
  - destruct H2 as [H2|H2]; [done|]. assert (mjoin (take 1 (l :: ls)) = l) as Hj by (cbn; by rewrite take_0, app_nil_r).
    rewrite Hj in H2. by rewrite H2.
  - cbn [length] in *. assert (forall n, mjoin (take (S n) (l :: ls)) = l ++ mjoin (take n ls)) as Hj by done.
    rewrite Hj in *. rewrite esc_run_app in H1, H2.
    destruct (esc_run l st) as [st'|]; [|done]. rewrite (IH st' k); [|done|destruct H2; [left; lia|by right]|lia].
    f_equal. apply bool_decide_ext. lia.
Qed.

(** The session ends by the escape sequence exactly when the text typed
    contains a line end, tildes and a full stop, however the reads split it;
    what was read before the read that completes it has been sent to the device
    unchanged, and otherwise all that was typed. *)
Theorem shell_escape_found nodes strs b rb ls out k :
  length b = 1024%nat -> length rb = 1024%nat -> NoDup nodes -> NoDup strs -> history ∉ nodes ->
  (newlines (mjoin ls) <= length nodes)%nat -> (newlines (mjoin ls) <= length strs)%nat ->
  Forall (fun l => (length l <= 1024)%nat) ls -> Forall (fun l => is_arrow l = None) ls -> short_lines 0 (mjoin ls) = true ->
  (k <= length ls)%nat -> ~ escapes (mjoin (take k ls)) -> (k = length ls \/ escapes (mjoin (take (S k) ls))) ->
  exists t', stdin_read_thread (thread0 nodes strs b rb (keyboard ls) (mkWr out [])) = Ok (bool_decide (k <> length ls), t') /\
    wr_out (th_out t') = out ++ mjoin (take k ls).
Proof.
  intros Hb Hrb ND1 ND2 Hh Hn1 Hn2 HF Ha Hs Hk Hno Hyes. destruct rb as [|first rb'] eqn:Erb; [done|]. rewrite <- Erb in *.
  apply (shell_session_ok nodes strs b rb first); try done; [by rewrite Erb|].
  rewrite (ed_session_esc ls _ 0 Ha) by done. f_equal. apply unescaped_take; [by rewrite esc_found| |done].
  destruct Hyes as [?|?]; [by left|right]. by apply esc_found.
Qed.

Lemma shell_escape_found_witness :
  exists t', stdin_read_thread (thread0 [2] [100] (replicate 1024 0) (replicate 1024 0) (keyboard [bs "id"; [10; 126]; bs "~.x"]) (mkWr [] [])) =
    Ok (true, t') /\ wr_out (th_out t') = bs "id" ++ [10; 126].
Proof.
  apply (shell_escape_found [2] [100] (replicate 1024 0) (replicate 1024 0) [bs "id"; [10; 126]; bs "~.x"] [] 2).
  - reflexivity.
  - reflexivity.
  - by apply (bool_decide_unpack _).
  - by apply (bool_decide_unpack _).
  - by apply (bool_decide_unpack _).
  - vm_compute. lia.
  - vm_compute. lia.
  - apply (bool_decide_unpack _). by vm_compute.
  - repeat constructor.
  - reflexivity.
  - cbn. lia.
  - rewrite <- esc_found. by vm_compute.
  - right. rewrite <- esc_found. by vm_compute.
Defined.

(** ** The end of the buffer *)

(** Characters that are only stored. *)
Definition plain (c : Z) : Prop := c <> 10 /\ c <> 13 /\ c <> 126 /\ c <> 46 /\ c <> SH_DEL_CHAR.

Lemma scan_plain_char c t :
  plain c -> length (realbuf t) = 1024%nat ->
  scan_char c t = if (1024 <=? cmdlen t)%nat then Err EUndef
                  else Ok (false, set_state 0 (set_line (S (cmdlen t)) true (upd_realbuf <[cmdlen t := c]> t))).
Proof.
  intros (P1 & P2 & P3 & P4 & P5) Hr. unfold scan_char, type_char. cbn [bind get].
  repeat (rewrite (proj2 (Z.eqb_neq c _)) by done; cbn [andb]). unfold bind, get.
  rewrite Hr. by destruct (1024 <=? cmdlen t)%nat.
Qed.

(** A piece of the line: it is stored, or it does not fit. *)
Lemma scan_plain cs : forall t,
  Forall plain cs -> length (realbuf t) = 1024%nat -> (cmdlen t <= 1024)%nat ->
  if decide (cmdlen t + length cs <= 1024)%nat
  then exists t', scan_chars cs t = Ok (false, t') /\ length (realbuf t') = 1024%nat /\ cmdlen t' = (cmdlen t + length cs)%nat /\
         buf t' = buf t /\ th_in t' = th_in t /\ th_out t' = th_out t
  else scan_chars cs t = Err EUndef.
Proof.
  induction cs as [|c cs IH]; intros t HF Hr Hc; cbn [scan_chars].
  { cbn. rewrite decide_True by lia. exists t. split_and!; done || lia. }
  apply list.Forall_cons in HF as [Hp HF]. unfold bind at 1 2. rewrite (scan_plain_char c t Hp Hr). cbn [length].
  destruct (1024 <=? cmdlen t)%nat eqn:El; [apply Nat.leb_le in El; by rewrite decide_False by lia|]. apply Nat.leb_gt in El.
  set (t1 := set_state _ _). pose proof (IH t1 HF ltac:(cbn; by rewrite length_insert) ltac:(cbn; lia)) as H. cbn [cmdlen t1 set_state set_line] in H.
  destruct (decide (S (cmdlen t) + length cs <= 1024)%nat).
  - rewrite decide_True by lia. destruct H as (t' & E & H1 & H2 & H3 & H4 & H5). exists t'. split_and!; [done..|lia|done|done|done].
  - rewrite decide_False by lia. done.
Qed.

Lemma stdin_loop_overflows ls : forall fuel t,
  Forall (fun l => (length l <= 1024)%nat) ls -> Forall (fun l => is_arrow l = None) ls -> Forall plain (mjoin ls) ->
  (length ls < fuel)%nat -> th_in t = keyboard ls -> wr_script (th_out t) = [] ->
  length (buf t) = 1024%nat -> length (realbuf t) = 1024%nat -> (cmdlen t <= 1024 < cmdlen t + length (mjoin ls))%nat ->
  stdin_loop fuel t = Err EUndef.
Proof.
  induction ls as [|l ls IH]; intros fuel t HF HA HP Hfuel Hin Hw Hb Hr Hlen; [cbn in Hlen; lia|].
  destruct fuel as [|fuel]; [cbn in Hfuel; lia|]. apply list.Forall_cons in HF as [Hl HF]. apply list.Forall_cons in HA as [Ha HA].
  change (mjoin (l :: ls)) with (l ++ mjoin ls) in *. apply list.Forall_app in HP as [HP1 HP2]. rewrite length_app in Hlen.
  cbn [stdin_loop bind get]. rewrite Hin, read_keyboard by done. cbn [bind modify].
  destruct l as [|c l'] eqn:El; [cbn; apply IH; try done; cbn in *; lia|]. rewrite <- El in *.
  unfold process_input. rewrite Ha. set (t1 := set_in _ t). set (t2 := upd_buf (fun b => l ++ drop (length l) b) t1).
  assert (length (buf t2) = 1024%nat) as Hb2 by (cbn; rewrite length_app, length_drop; lia).
  pose proof (scan_plain l t2 HP1 Hr ltac:(cbn; lia)) as H. cbn [cmdlen t2 t1 upd_buf set_in] in H.
  case_decide as Hd; [|by unfold bind, modify; fold t2; rewrite H].
  destruct H as (t3 & E & H1 & H2 & H3 & H4 & H5). unfold bind at 1 2 3, modify. fold t2. rewrite E. cbn [ret].
  rewrite bool_decide_false by (intros [? ?]; congruence). cbn [andb].
  assert (take (length l) (buf t3) = l) as Hbuf by (rewrite H3; apply take_app_length).
  rewrite (bind_ok _ _ _ _ _ (send_buf_ok t3 l ltac:(by rewrite H5) Hbuf)), bool_decide_true by (by rewrite El).
  apply IH; cbn; rewrite ?H1, ?H2, ?H3, ?H4; try done; cbn in *; lia.
Qed.

(** A line is not bounded by its buffer: once more than 1024 ordinary
    characters of the first line have been typed, in reads of any size, the thread
    writes past the end of [realbuf]. *)
Theorem shell_line_overflows nodes strs b rb ls out :
  length b = 1024%nat -> length rb = 1024%nat -> Forall (fun l => (length l <= 1024)%nat) ls ->
  Forall (fun l => is_arrow l = None) ls -> Forall plain (mjoin ls) -> (1024 < length (mjoin ls))%nat ->
  stdin_read_thread (thread0 nodes strs b rb (keyboard ls) (mkWr out [])) = Err EUndef.
Proof.
  intros Hb Hr HF HA HP Hlen. unfold stdin_read_thread. set (t0 := thread0 _ _ _ _ _ _).
  erewrite bind_ok by (by apply on_history_ok). cbn [bind get]. unfold bind. rewrite (stdin_loop_overflows ls); try done.
  - unfold stdin_fuel, t0, thread0, keyboard. cbn [th_in upd_list rd_data rd_script]. rewrite length_fmap. lia.
  - cbn [cmdlen upd_list t0 thread0]. lia.
Qed.

Lemma shell_line_overflows_witness :
  stdin_read_thread (thread0 [] [] (replicate 1024 0) (replicate 1024 0) (keyboard (replicate 205 (bs "xxxxx"))) (mkWr [] [])) = Err EUndef.
Proof.
  apply (shell_line_overflows [] [] (replicate 1024 0) (replicate 1024 0) (replicate 205 (bs "xxxxx")) []).
  - reflexivity.
  - reflexivity.
  - apply (bool_decide_unpack _). by vm_compute.
  - apply (bool_decide_unpack _). by vm_compute.
  - apply list.Forall_forall. intros c Hc. assert (c = 120) as ->; [|by unfold plain].
    apply list_elem_of_join in Hc as (l & Hc & Hl). apply elem_of_replicate in Hl as [-> _]. cbn in Hc. set_solver.
  - vm_compute. lia.
Defined.

(** ** The other direction *)

Lemma dump_loop_ok ls : forall fuel acc,
  Forall (fun l => (length l <= 4096)%nat) ls -> (length ls < fuel)%nat ->
  dump_loop fuel acc (keyboard ls) = Ok (acc ++ mjoin ls, mkRd [] []).
Proof.
  induction ls as [|l ls IH]; intros fuel acc HF Hfuel; (destruct fuel as [|fuel]; [cbn in Hfuel; lia|]).
  { cbn. by rewrite app_nil_r. }
  apply list.Forall_cons in HF as [Hl HF]. change (mjoin (l :: ls)) with (l ++ mjoin ls). rewrite app_assoc. cbn [dump_loop].
  rewrite read_keyboard by done.
  destruct l as [|c l]; [rewrite app_nil_r|]; apply IH; try done; cbn in Hfuel; lia.
Qed.

(** All that the device sends is printed, however it arrives. *)
Lemma read_and_dump_prints ls :
  Forall (fun l => (length l <= 4096)%nat) ls -> read_and_dump (keyboard ls) = Ok (mjoin ls, mkRd [] []).
Proof. intros HF. apply dump_loop_ok; [done|]. unfold stdin_fuel, keyboard. cbn [rd_data rd_script]. rewrite length_fmap. lia. Qed.
