(* ===== verification/BipBuffer.v ===== *)
(** * Socket pairs in user space

    On Windows adb has no socket pairs and emulates them (sysdeps_win32.c): each
    direction is a circular buffer of two regions, with two flags, two events that
    threads wait for, and a lock.  This file models the buffer, the threads that read,
    write and close it as programs whose steps interleave, the pairs, and the table of
    descriptors they live in.  The lock makes the part of a call between
    [EnterCriticalSection] and [LeaveCriticalSection] one step; what is done without it,
    testing [closed], waiting, closing, takes steps of its own. *)

From S2P Require Import Prelude Io.

(** ** The buffer *)

Definition BIP_BUFFER_SIZE : Z := 4096.

(** Events are signalled until they are reset. *)
Record bip := mkBip {
  a_start : Z; a_end : Z; b_end : Z;
  closed : bool;
  can_write : bool; evt_write : bool;
  can_read : bool; evt_read : bool;
  buff : list Z }.

Definition set_regions (s e b : Z) (p : bip) : bip :=
  mkBip s e b (closed p) (can_write p) (evt_write p) (can_read p) (evt_read p) (buff p).
Definition set_closed (p : bip) : bip :=
  mkBip (a_start p) (a_end p) (b_end p) true (can_write p) (evt_write p) (can_read p)
    (evt_read p) (buff p).
(** A flag and its event change together, except in [bip_buffer_close]. *)
Definition set_can_write (b : bool) (p : bip) : bip :=
  mkBip (a_start p) (a_end p) (b_end p) (closed p) b b (can_read p) (evt_read p) (buff p).
Definition set_can_read (b : bool) (p : bip) : bip :=
  mkBip (a_start p) (a_end p) (b_end p) (closed p) (can_write p) (evt_write p) b b (buff p).
Definition set_evt_write (p : bip) : bip :=
  mkBip (a_start p) (a_end p) (b_end p) (closed p) (can_write p) true (can_read p)
    (evt_read p) (buff p).
Definition set_evt_read (p : bip) : bip :=
  mkBip (a_start p) (a_end p) (b_end p) (closed p) (can_write p) (evt_write p) (can_read p)
    true (buff p).
Definition set_buff (l : list Z) (p : bip) : bip :=
  mkBip (a_start p) (a_end p) (b_end p) (closed p) (can_write p) (evt_write p) (can_read p)
    (evt_read p) l.

Definition bip_buffer_init (junk : list Z) : bip :=
  mkBip 0 0 0 false true true false false junk.

(** [memcpy] into the buffer and out of it. *)
Definition copy_in (off : Z) (src : list Z) : M bip unit :=
  fun p =>
  if (0 <=? off) && (off + Z.of_nat (length src) <=? Z.of_nat (length (buff p))) then
    Ok (tt, set_buff (take (Z.to_nat off) (buff p) ++ src ++
                      drop (Z.to_nat off + length src) (buff p)) p)
  else Err EUndef.

Definition copy_out (off n : Z) : M bip (list Z) :=
  fun p =>
  if (0 <=? off) && (0 <=? n) && (off + n <=? Z.of_nat (length (buff p))) then
    Ok (take (Z.to_nat n) (drop (Z.to_nat off) (buff p)), p)
  else Err EUndef.

(** [assert]. *)
Definition assert_ (b : bool) : M bip unit := if b then ret tt else fail EFatal.

(** From the label [Exit] of [bip_buffer_write]. *)
Definition write_exit (count : Z) : M bip Z :=
  assert_ (0 <? count) ;;
  p <- get ;;
  when (negb (can_read p)) (modify (set_can_read true)) ;;
  ret count.

(** [bip_buffer_write] in the critical section, once [can_write] holds. *)
Definition bip_write_locked (src : list Z) : M bip Z :=
  p <- get ;;
  let room := BIP_BUFFER_SIZE - a_end p in
  let n := if 0 <? room then Z.min room (Z.of_nat (length src)) else 0 in
  when (0 <? room)
    (copy_in (a_end p) (take (Z.to_nat n) src) ;;
     modify (set_regions (a_start p) (a_end p + n) (b_end p))) ;;
  if (0 <? room) && (a_end p + n =? BIP_BUFFER_SIZE) && (a_start p =? 0) then
    modify (set_can_write false) ;; write_exit n
  else
    let src := drop (Z.to_nat n) src in
    if Z.of_nat (length src) =? 0 then write_exit n
    else
      let avail := a_start p - b_end p in
      assert_ (0 <? avail) ;;
      let m := Z.min avail (Z.of_nat (length src)) in
      copy_in (b_end p) (take (Z.to_nat m) src) ;;
      modify (set_regions (a_start p) (a_end p + n) (b_end p + m)) ;;
      when (b_end p + m =? a_start p) (modify (set_can_write false)) ;;
      write_exit (n + m).

(** From the label [Exit] of [bip_buffer_read]. *)
Definition read_exit (got : list Z) : M bip (list Z) :=
  assert_ (0 <? Z.of_nat (length got)) ;;
  p <- get ;;
  when (negb (can_write p)) (modify (set_can_write true)) ;;
  ret got.

(** [bip_buffer_read] in the critical section, once [can_read] holds. *)
Definition bip_read_locked (len : Z) : M bip (list Z) :=
  p <- get ;;
  let avail := a_end p - a_start p in
  assert_ (0 <? avail) ;;
  let n := Z.min avail len in
  got <- copy_out (a_start p) n ;;
  modify (set_regions (a_start p + n) (a_end p) (b_end p)) ;;
  if a_start p + n <? a_end p then read_exit got
  else
    modify (set_regions 0 (b_end p) 0) ;;
    if 0 <? b_end p then
      let m := Z.min (b_end p) (len - n) in
      more <- copy_out 0 m ;;
      modify (set_regions m (b_end p) 0) ;;
      if m <? b_end p then read_exit (got ++ more)
      else
        modify (set_regions 0 0 0) ;; modify (set_can_read false) ;; read_exit (got ++ more)
    else modify (set_can_read false) ;; read_exit got.

(** ** Threads *)

(** What a call gives: bytes read, a number of bytes written, [EPIPE], or zero. *)
Inductive answer := GotBytes (l : list Z) | Wrote (n : Z) | Broken | Zero.

(** A call of [bip_buffer_read] or [bip_buffer_write] in progress. *)
Inductive call := CallRead (len : Z) | CallWrite (src : list Z).

Inductive pc :=
| Entering (c : call)      (** before [EnterCriticalSection] *)
| Unlocked (c : call)      (** the flag was not set; before the first test of [closed] *)
| Sleeping (c : call)      (** in [WaitForSingleObject] *)
| Woken (c : call)         (** before the second test of [closed] *)
| Done (a : answer).

(** The length that the caller passed. *)
Definition call_len (c : call) : Z :=
  match c with CallRead len => len | CallWrite src => Z.of_nat (length src) end.

Definition begin (c : call) : pc := if call_len c <=? 0 then Done Zero else Entering c.

(** The flag and the event a call waits for. *)
Definition flag (c : call) (p : bip) : bool :=
  match c with CallRead _ => can_read p | CallWrite _ => can_write p end.
Definition event (c : call) (p : bip) : bool :=
  match c with CallRead _ => evt_read p | CallWrite _ => evt_write p end.

Definition locked (c : call) : M bip answer :=
  match c with
  | CallRead len => l <- bip_read_locked len ;; ret (GotBytes l)
  | CallWrite src => n <- bip_write_locked src ;; ret (Wrote n)
  end.

(** One step of a call; a sleeping thread has none until its event is signalled. *)
Definition call_step (t : pc) : M bip (option pc) :=
  p <- get ;;
  match t with
  | Entering c => if flag c p then a <- locked c ;; ret (Some (Done a)) else ret (Some (Unlocked c))
  | Unlocked c => ret (Some (if closed p then Done Broken else Sleeping c))
  | Sleeping c => ret (if event c p then Some (Woken c) else None)
  | Woken c => ret (Some (if closed p then Done Broken else Entering c))
  | Done a => ret None
  end.

(** [bip_buffer_close], which takes no lock. *)
Inductive closing := BeforeClose | WakeReader | WakeWriter | AfterClose.

Definition close_step (c : closing) : M bip closing :=
  p <- get ;;
  match c with
  | BeforeClose => modify set_closed ;; ret WakeReader
  | WakeReader => when (negb (can_read p)) (modify set_evt_read) ;; ret WakeWriter
  | WakeWriter => when (negb (can_write p)) (modify set_evt_write) ;; ret AfterClose
  | AfterClose => ret AfterClose
  end.

(** [bip_buffer_close] without interruption. *)
Definition bip_buffer_close : M bip unit :=
  c <- close_step BeforeClose ;; c <- close_step c ;; c <- close_step c ;; ret tt.

(** One direction of a pair in use: a thread that reads, a thread that writes, a thread
    that closes; and the bytes taken from the writer and given to the reader so far. *)
Record use := mkUse {
  u_bip : bip;
  u_reader : pc; u_writer : pc; u_closer : closing;
  u_sent : list Z; u_received : list Z }.

(** The bytes that a step of a call moves. *)
Definition moved (t t' : pc) : list Z :=
  match t, t' with
  | Entering (CallWrite src), Done (Wrote n) => take (Z.to_nat n) src
  | Entering (CallRead _), Done (GotBytes l) => l
  | _, _ => []
  end.

Inductive use_step : use -> use -> Prop :=
| reader_step p t w c s r p' t' :
    call_step t p = Ok (Some t', p') ->
    use_step (mkUse p t w c s r) (mkUse p' t' w c s (r ++ moved t t'))
| writer_step p t w c s r p' w' :
    call_step w p = Ok (Some w', p') ->
    use_step (mkUse p t w c s r) (mkUse p' t w' c (s ++ moved w w') r)
| closer_step p t w c s r p' c' :
    close_step c p = Ok (c', p') ->
    use_step (mkUse p t w c s r) (mkUse p' t w c' s r)
| reader_call p a w c s r len :
    use_step (mkUse p (Done a) w c s r) (mkUse p (begin (CallRead len)) w c s r)
| writer_call p t a c s r src :
    use_step (mkUse p t (Done a) c s r) (mkUse p t (begin (CallWrite src)) c s r)
| reader_wait_fails p k w c s r :
    use_step (mkUse p (Sleeping k) w c s r) (mkUse p (Done Zero) w c s r)
| writer_wait_fails p t k c s r :
    use_step (mkUse p t (Sleeping k) c s r) (mkUse p t (Done Zero) c s r).

(** A new buffer. *)
Definition use_start (junk : list Z) : use :=
  mkUse (bip_buffer_init junk) (Done Zero) (Done Zero) BeforeClose [] [].
