(* ===== verification/BipFacts.v ===== *)
(** * Socket pairs in user space are streams

    The buffer is a queue of bounded length; threads that read, write and close it lose
    no wake-up and see the bytes in order; and what goes wrong when a pair is closed. *)

From S2P Require Import Prelude Io BipBuffer.

(** ** Slices of the buffer *)

Definition slice (l : list Z) (i j : Z) : list Z :=
  take (Z.to_nat (j - i)) (drop (Z.to_nat i) l).

(** The memory after [copy_in]. *)
Definition put (l : list Z) (off : Z) (src : list Z) : list Z :=
  take (Z.to_nat off) l ++ src ++ drop (Z.to_nat off + length src) l.

Abbreviation len l := (Z.of_nat (length l)).

Lemma slice_length l i j : 0 <= i <= j -> j <= len l -> len (slice l i j) = j - i.
Proof. intros. unfold slice. rewrite length_take, length_drop. lia. Qed.

Lemma put_length l off src : 0 <= off -> off + len src <= len l -> length (put l off src) = length l.
Proof. intros. unfold put. rewrite !length_app, length_take, length_drop. lia. Qed.

Lemma slice_split l i j k :
  0 <= i <= j -> j <= k -> slice l i k = slice l i j ++ slice l j k.
Proof.
  intros. unfold slice. replace (Z.to_nat (k - i)) with (Z.to_nat (j - i) + Z.to_nat (k - j))%nat by lia.
  rewrite <- take_take_drop, drop_drop. repeat f_equal. lia.
Qed.

Lemma slice_empty l i : slice l i i = [].
Proof. unfold slice. by rewrite Z.sub_diag. Qed.

(** The bytes that were copied. *)
Lemma slice_put_here l off src :
  0 <= off -> off + len src <= len l -> slice (put l off src) off (off + len src) = src.
Proof.
  intros. unfold slice, put. rewrite drop_app_exact by (rewrite length_take; lia).
  apply take_app_exact. lia.
Qed.

(** Bytes before and behind them. *)
Lemma slice_put_before l off src i j :
  0 <= i <= j -> j <= off -> off + len src <= len l -> slice (put l off src) i j = slice l i j.
Proof.
  intros. unfold slice, put.
  rewrite <- (take_drop (Z.to_nat off) l) at 3.
  rewrite !drop_app_le by (rewrite length_take; lia).
  rewrite !take_app_le by (rewrite length_drop, length_take; lia). done.
Qed.

Lemma slice_put_behind l off src i j :
  0 <= off -> off + len src <= i -> i <= j -> j <= len l ->
  slice (put l off src) i j = slice l i j.
Proof.
  intros. unfold slice, put. f_equal. rewrite drop_app_ge by (rewrite length_take; lia).
  rewrite drop_app_ge by (rewrite length_take; lia). rewrite drop_drop. f_equal.
  rewrite length_take. lia.
Qed.

(** ** The queue in the buffer *)

Definition content (p : bip) : list Z := slice (buff p) (a_start p) (a_end p) ++ slice (buff p) 0 (b_end p).

Record bip_ok (p : bip) : Prop := {
  ok_len : len (buff p) = BIP_BUFFER_SIZE;
  ok_regions : 0 <= b_end p <= a_start p /\ a_start p <= a_end p <= BIP_BUFFER_SIZE;
  ok_b : 0 < b_end p -> a_end p = BIP_BUFFER_SIZE;
  ok_empty : a_start p = a_end p -> a_start p = 0;
  ok_read : can_read p = (a_start p <? a_end p);
  ok_write : can_write p = negb ((a_end p =? BIP_BUFFER_SIZE) && (b_end p =? a_start p));
  ok_evt_read : can_read p = true -> evt_read p = true;
  ok_evt_write : can_write p = true -> evt_write p = true }.

Lemma content_length p : bip_ok p -> len (content p) = (a_end p - a_start p) + b_end p.
Proof.
  intros [Hl Hr Hb He _ _ _ _]. unfold content. rewrite length_app, Nat2Z.inj_add, !slice_length by lia. lia.
Qed.

Lemma content_empty p : bip_ok p -> can_read p = false <-> content p = [].
Proof.
  intros Hok. pose proof (content_length p Hok) as Hc. destruct Hok as [Hl Hr Hb He Hrd _ _ _].
  rewrite Hrd, Z.ltb_ge. split.
  - intros. apply length_zero_iff_nil. lia.
  - intros H. rewrite H in Hc. simpl in Hc. lia.
Qed.

Lemma content_full p : bip_ok p -> can_write p = false <-> len (content p) = BIP_BUFFER_SIZE.
Proof.
  intros Hok. rewrite (content_length p Hok). destruct Hok as [Hl Hr Hb He _ Hw _ _].
  rewrite Hw, negb_false_iff, andb_true_iff, !Z.eqb_eq. unfold BIP_BUFFER_SIZE in *. lia.
Qed.

Lemma bip_buffer_init_ok junk : len junk = BIP_BUFFER_SIZE ->
  bip_ok (bip_buffer_init junk) /\ content (bip_buffer_init junk) = [].
Proof. intros. split; [|done]. split; simpl; unfold BIP_BUFFER_SIZE in *; lia || done. Qed.

(** ** Reading and writing *)

Lemma copy_in_ok off src p :
  0 <= off -> off + len src <= len (buff p) ->
  copy_in off src p = Ok (tt, set_buff (put (buff p) off src) p).
Proof.
  intros. unfold copy_in. rewrite (proj2 (Z.leb_le 0 off)), (proj2 (Z.leb_le _ _)) by lia. done.
Qed.

Lemma copy_out_ok off n p :
  0 <= off -> 0 <= n -> off + n <= len (buff p) ->
  copy_out off n p = Ok (slice (buff p) off (off + n), p).
Proof.
  intros. unfold copy_out, slice. rewrite !(proj2 (Z.leb_le _ _)) by lia. cbn [andb].
  do 3 f_equal. lia.
Qed.

Lemma write_exit_ok count p :
  0 < count -> (can_read p = true -> evt_read p = true) ->
  write_exit count p = Ok (count, set_can_read true p).
Proof.
  intros Hc He. unfold write_exit, assert_. rewrite (proj2 (Z.ltb_lt 0 count) Hc).
  unfold bind, ret, get, when, modify. destruct (can_read p) eqn:E; cbn [negb]; [|done].
  unfold set_can_read. rewrite <- E at 1. rewrite <- (He eq_refl). by destruct p; simpl in *; subst.
Qed.

Lemma read_exit_ok got p :
  got <> [] -> (can_write p = true -> evt_write p = true) ->
  read_exit got p = Ok (got, set_can_write true p).
Proof.
  intros Hg He. unfold read_exit, assert_. rewrite (proj2 (Z.ltb_lt 0 _)) by (destruct got; [done|simpl; lia]).
  unfold bind, ret, get, when, modify. destruct (can_write p) eqn:E; cbn [negb]; [|done].
  unfold set_can_write. rewrite <- E at 1. rewrite <- (He eq_refl). by destruct p; simpl in *; subst.
Qed.

(** A write takes as much as fits and appends it. *)
Definition wrote (p : bip) (src : list Z) (count : Z) (p' : bip) : Prop :=
  bip_ok p' /\ closed p' = closed p /\ can_read p' = true /\
  count = Z.min (len src) (BIP_BUFFER_SIZE - len (content p)) /\
  content p' = content p ++ take (Z.to_nat count) src.

(** The state after [n] bytes went to region A. *)
Definition after_a (p : bip) (l : list Z) : bip :=
  set_regions (a_start p) (a_end p + len l) (b_end p) (set_buff (put (buff p) (a_end p) l) p).

(** The state after bytes went to region B. *)
Definition after_b (p : bip) (l : list Z) : bip :=
  set_regions (a_start p) (a_end p) (b_end p + len l) (set_buff (put (buff p) (b_end p) l) p).

Lemma content_after_a p l :
  bip_ok p -> a_end p + len l <= BIP_BUFFER_SIZE -> b_end p = 0 ->
  content (after_a p l) = content p ++ l.
Proof.
  intros [Hl Hr _ _ _ _ _ _] Hfit Hb. unfold content, after_a. cbn. rewrite Hb, !slice_empty, !app_nil_r.
  rewrite (slice_split _ (a_start p) (a_end p)) by lia.
  rewrite slice_put_before by lia. by rewrite slice_put_here by lia.
Qed.

Lemma content_after_b p l :
  len (buff p) = BIP_BUFFER_SIZE -> 0 <= b_end p -> b_end p + len l <= a_start p ->
  a_start p <= a_end p <= BIP_BUFFER_SIZE ->
  content (after_b p l) = content p ++ l.
Proof.
  intros Hl Hb Hfit Ha. unfold content, after_b. cbn. rewrite <- app_assoc. f_equal.
  - apply slice_put_behind; lia.
  - rewrite (slice_split _ 0 (b_end p)) by lia.
    rewrite slice_put_before by lia. by rewrite slice_put_here by lia.
Qed.

(** The first region takes the bytes there is room for. *)
Lemma append_a p src n :
  bip_ok p -> n = Z.min (BIP_BUFFER_SIZE - a_end p) (len src) -> 0 < BIP_BUFFER_SIZE - a_end p ->
  (copy_in (a_end p) (take (Z.to_nat n) src) ;;
   modify (set_regions (a_start p) (a_end p + n) (b_end p))) p =
    Ok (tt, after_a p (take (Z.to_nat n) src)).
Proof.
  intros Hok -> Hr. pose proof (ok_len p Hok). pose proof (ok_regions p Hok).
  set (l := take _ src). assert (len l = Z.min (BIP_BUFFER_SIZE - a_end p) (len src)) as Hl
    by (unfold l; rewrite length_take; lia).
  erewrite bind_ok by (apply copy_in_ok; lia). unfold modify, after_a. by rewrite Hl.
Qed.

(** The rest goes to the second region. *)
Lemma append_b p src c :
  len (buff p) = BIP_BUFFER_SIZE -> 0 <= b_end p < a_start p -> a_start p <= BIP_BUFFER_SIZE ->
  0 <= c -> src <> [] -> (can_read p = true -> evt_read p = true) ->
  let m := Z.min (a_start p - b_end p) (len src) in
  let q := after_b p (take (Z.to_nat m) src) in
  (copy_in (b_end p) (take (Z.to_nat m) src) ;;
   modify (set_regions (a_start p) (a_end p) (b_end p + m)) ;;
   when (b_end p + m =? a_start p) (modify (set_can_write false)) ;;
   write_exit (c + m)) p =
    Ok (c + m, set_can_read true (if b_end p + m =? a_start p then set_can_write false q else q)).
Proof.
  intros Hl Hb Ha Hc Hs He m q.
  assert (0 < len src) by (destruct src; [done|simpl; lia]).
  assert (len (take (Z.to_nat m) src) = m) as Hm by (rewrite length_take; lia).
  erewrite bind_ok by (apply copy_in_ok; lia). erewrite bind_ok by reflexivity.
  assert (set_regions (a_start p) (a_end p) (b_end p + m)
    (set_buff (put (buff p) (b_end p) (take (Z.to_nat m) src)) p) = q) as ->
    by (unfold q, after_b; by rewrite Hm).
  destruct (b_end p + m =? a_start p); cbn [when];
    (erewrite bind_ok by reflexivity); apply write_exit_ok; (lia || done).
Qed.

(** The invariant after a write: it depends on the regions and on the flag. *)
Lemma written_ok p q full :
  bip_ok p -> len (buff q) = BIP_BUFFER_SIZE -> a_start q = a_start p -> closed q = closed p ->
  can_write q = true -> evt_write q = true ->
  0 <= b_end q <= a_start q -> a_start q < a_end q <= BIP_BUFFER_SIZE ->
  (0 < b_end q -> a_end q = BIP_BUFFER_SIZE) ->
  full = ((a_end q =? BIP_BUFFER_SIZE) && (b_end q =? a_start q)) ->
  let p' := set_can_read true (if full : bool then set_can_write false q else q) in
  bip_ok p' /\ closed p' = closed p /\ can_read p' = true /\ content p' = content q.
Proof.
  intros Hok Hl Hs Hc Hcw Hew Hb Ha Hbe Hf p'.
  assert (closed p' = closed p /\ can_read p' = true /\ content p' = content q) as Hrest
    by (unfold p'; destruct full; done).
  split; [|exact Hrest]. unfold p'.
  destruct full; split; cbn; rewrite ?Hcw, <- ?Hf; try done; try lia;
    symmetry; apply Z.ltb_lt; lia.
Qed.

(** The case in which region A has room. *)
Lemma write_region_a p src n :
  bip_ok p -> can_write p = true -> src <> [] -> b_end p = 0 ->
  n = Z.min (BIP_BUFFER_SIZE - a_end p) (len src) -> a_end p < BIP_BUFFER_SIZE ->
  let q := after_a p (take (Z.to_nat n) src) in
  let full := (a_end p + n =? BIP_BUFFER_SIZE) && (a_start p =? 0) in
  full = true \/ n = len src ->
  wrote p src n (set_can_read true (if full then set_can_write false q else q)).
Proof.
  intros Hok Hcw Hs Hb0 Hn Hroom q full Hcase.
  pose proof Hok as [Hl Hr _ _ _ _ _ Hew]. specialize (Hew Hcw).
  assert (0 < len src) by (destruct src; [done|simpl; lia]).
  assert (len (take (Z.to_nat n) src) = n) as Hln by (rewrite length_take; lia).
  assert (a_end q = a_end p + n) as Haq by (unfold q, after_a; cbn; lia).
  assert (content q = content p ++ take (Z.to_nat n) src) as Hcq by (apply content_after_a; [done|lia|done]).
  assert (a_start q = a_start p) as Hsq by done. assert (b_end q = 0) as Hbq by exact Hb0.
  destruct (written_ok p q full) as (H1 & H2 & H3 & H4);
    rewrite ?Haq, ?Hsq, ?Hbq; try done; try lia.
  - unfold q, after_a. cbn. rewrite put_length; lia.
  - unfold wrote. rewrite H4, Hcq, (content_length p Hok). split_and!; try done.
    destruct Hcase as [Hf|]; [|lia]. unfold full in Hf. bools. lia.
Qed.

(** The case in which the rest goes to region B: [q] is the state before. *)
Lemma write_region_b p q src l c :
  bip_ok p -> len (content q) = BIP_BUFFER_SIZE - a_start q + b_end q -> closed q = closed p ->
  a_start q = a_start p -> a_end q = BIP_BUFFER_SIZE -> can_write q = true -> evt_write q = true ->
  0 <= b_end q < a_start q -> a_start q < BIP_BUFFER_SIZE ->
  len (buff q) = BIP_BUFFER_SIZE ->
  l = drop (Z.to_nat c) src -> 0 <= c -> l <> [] ->
  content q = content p ++ take (Z.to_nat c) src ->
  let m := Z.min (a_start q - b_end q) (len l) in
  let r := after_b q (take (Z.to_nat m) l) in
  wrote p src (c + m) (set_can_read true (if b_end q + m =? a_start q then set_can_write false r else r)).
Proof.
  intros Hok Hlq' Hcl Hs Ha Hcw Hew Hb Hlt Hlq Hsrc Hc Hl Hcont m r.
  assert (0 < len l) by (destruct l; [done|simpl; lia]).
  assert (len (take (Z.to_nat m) l) = m) as Hm by (rewrite length_take; lia).
  assert (b_end r = b_end q + m) as Hbr by (unfold r, after_b; cbn; lia).
  assert (a_start r = a_start q) as Hsr by done. assert (a_end r = a_end q) as Har by done.
  assert (content r = content q ++ take (Z.to_nat m) l) as Hcr by (apply content_after_b; lia).
  pose proof (content_length p Hok) as Hlp.
  destruct (written_ok p r (b_end q + m =? a_start q)) as (H1 & H2 & H3 & H4);
    rewrite ?Har, ?Hsr, ?Hbr; try done; try lia.
  - unfold r, after_b. cbn. rewrite put_length; lia.
  - unfold wrote. rewrite H4, Hcr, Hcont. split_and!; try done.
    + rewrite Hcont, length_app, Nat2Z.inj_add, length_take in Hlq'.
      apply (f_equal length) in Hsrc. rewrite length_drop in Hsrc. lia.
    + rewrite <- app_assoc. f_equal. rewrite Z2Nat.inj_add by lia.
      by rewrite <- take_take_drop, <- Hsrc.
Qed.

Lemma bip_write_locked_ok p src :
  bip_ok p -> can_write p = true -> src <> [] ->
  wp (bip_write_locked src) (wrote p src) p.
Proof.
  intros Hok Hcw Hs. assert (0 < len src) by (destruct src; [done|simpl; lia]).
  pose proof Hok as [Hl Hr Hb He Hrd Hw Her Hew]. specialize (Hew Hcw). rewrite Hcw in Hw.
  symmetry in Hw. apply negb_true_iff, andb_false_iff in Hw. rewrite !Z.eqb_neq in Hw.
  unfold wp, bip_write_locked. erewrite bind_ok by reflexivity. cbv beta zeta.
  destruct (0 <? BIP_BUFFER_SIZE - a_end p) eqn:E1; bools.
  - set (n := Z.min _ _). cbn [when andb]. erewrite bind_ok by (by apply append_a).
    pose proof (write_region_a p src n Hok Hcw Hs ltac:(lia) eq_refl ltac:(lia)) as HA. cbv zeta in HA.
    set (q := after_a p _) in *.
    destruct ((a_end p + n =? BIP_BUFFER_SIZE) && (a_start p =? 0)) eqn:E2.
    { erewrite bind_ok by reflexivity. rewrite write_exit_ok by (lia || done). apply HA. by left. }
    apply andb_false_iff in E2. rewrite !Z.eqb_neq in E2.
    destruct (Z.of_nat (length (drop (Z.to_nat n) src)) =? 0) eqn:E3; bools; rewrite length_drop in E3.
    { rewrite write_exit_ok by (lia || done). apply HA. right. lia. }
    assert (len (take (Z.to_nat n) src) = n) as Hln by (rewrite length_take; lia).
    assert (a_end q = a_end p + n) as Haq by (unfold q, after_a; cbn; lia).
    assert (content q = content p ++ take (Z.to_nat n) src) as Hcq
      by (apply content_after_a; [done|lia|lia]).
    assert (len (buff q) = BIP_BUFFER_SIZE) as Hlq by (unfold q, after_a; cbn; rewrite put_length; lia).
    assert (drop (Z.to_nat n) src <> []) as Hne
      by (intros Hnil; apply (f_equal length) in Hnil; rewrite length_drop in Hnil; simpl in Hnil; lia).
    erewrite bind_ok by (unfold assert_; rewrite (proj2 (Z.ltb_lt _ _)) by lia; reflexivity).
    pose proof (append_b q (drop (Z.to_nat n) src) n Hlq) as HB. cbv zeta in HB.
    change (a_start q) with (a_start p) in HB. change (b_end q) with (b_end p) in HB.
    rewrite Haq in HB. rewrite HB; [|lia|lia|lia|done|done].
    apply (write_region_b p q); try done; cbn -[BIP_BUFFER_SIZE]; try lia.
    rewrite Hcq, length_app, Nat2Z.inj_add, content_length, Hln by done. cbn. lia.
  - cbn [when andb]. erewrite bind_ok by reflexivity. change (drop (Z.to_nat 0) src) with src.
    rewrite (proj2 (Z.eqb_neq _ 0)) by lia. rewrite Z.add_0_r.
    erewrite bind_ok by (unfold assert_; rewrite (proj2 (Z.ltb_lt _ _)) by lia; reflexivity).
    pose proof (append_b p src 0 Hl) as HB. cbv zeta in HB. rewrite HB; [|lia|lia|lia|done|done].
    apply (write_region_b p p); try done; try lia.
    + rewrite content_length by done. lia.
    + by rewrite app_nil_r.
Qed.

(** A read takes what there is, up to its length, from the front. *)
Definition took (p : bip) (n : Z) (got : list Z) (p' : bip) : Prop :=
  bip_ok p' /\ closed p' = closed p /\ can_write p' = true /\ got <> [] /\
  got = take (Z.to_nat n) (content p) /\ content p' = drop (Z.to_nat n) (content p).

(** The invariant after a read. *)
Lemma taken_ok p s e b (more : bool) :
  bip_ok p -> 0 <= b <= s -> s <= e <= BIP_BUFFER_SIZE -> (0 < b -> e = BIP_BUFFER_SIZE) ->
  ~ (e = BIP_BUFFER_SIZE /\ b = s) -> (s = e -> s = 0) ->
  more = (s <? e) -> (more = true -> can_read p = true) ->
  let q := set_regions s e b p in
  bip_ok (set_can_write true (if more then q else set_can_read false q)).
Proof.
  intros Hok Hb He Hbe Hnf Hse Hm Hcr q. pose proof Hok as [Hl _ _ _ _ _ Her _].
  destruct more; split; cbn; try done; try lia; try (rewrite <- Hm; by auto); try (by auto).
  all: symmetry; apply negb_true_iff, andb_false_iff; rewrite !Z.eqb_neq; lia.
Qed.

Lemma bip_read_locked_ok p n :
  bip_ok p -> can_read p = true -> 0 < n ->
  wp (bip_read_locked n) (took p n) p.
Proof.
  intros Hok Hcr Hn. pose proof Hok as [Hl Hr Hb He Hrd Hw Her Hew].
  rewrite Hcr in Hrd. symmetry in Hrd. apply Z.ltb_lt in Hrd.
  pose proof (slice_length (buff p) (a_start p) (a_end p)) as HlA.
  unfold wp, bip_read_locked. erewrite bind_ok by reflexivity. cbv beta zeta.
  erewrite bind_ok by (unfold assert_; rewrite (proj2 (Z.ltb_lt _ _)) by lia; reflexivity).
  set (k := Z.min (a_end p - a_start p) n).
  erewrite bind_ok by (apply copy_out_ok; lia). erewrite bind_ok by reflexivity.
  set (got := slice (buff p) (a_start p) (a_start p + k)).
  assert (len got = k) as Hgl by (unfold got; rewrite slice_length; lia).
  assert (got <> []) as Hgn by (intros Hg; rewrite Hg in Hgl; simpl in Hgl; lia).
  assert (slice (buff p) (a_start p) (a_end p) = got ++ slice (buff p) (a_start p + k) (a_end p)) as Hsp
    by (apply slice_split; lia).
  destruct (a_start p + k <? a_end p) eqn:E1; bools.
  - rewrite read_exit_ok by done. unfold took.
    assert (Z.to_nat n = length got) as -> by lia. unfold content. rewrite Hsp, <- app_assoc.
    rewrite take_app_exact, drop_app_exact by done. split_and!; try done.
    apply (taken_ok p (a_start p + k) (a_end p) (b_end p) true); try done; lia.
  - assert (k = a_end p - a_start p) as Hk by lia.
    assert (content p = got ++ slice (buff p) 0 (b_end p)) as Hc.
    { unfold content, got. do 2 f_equal. lia. }
    erewrite bind_ok by reflexivity.
    destruct (0 <? b_end p) eqn:E2; bools.
    + set (m := Z.min (b_end p) (n - k)).
      erewrite bind_ok by (apply copy_out_ok; cbn; lia). erewrite bind_ok by reflexivity.
      cbn [buff set_regions]. rewrite Z.add_0_l. set (more := slice (buff p) 0 m).
      assert (len more = m) as Hml by (unfold more; rewrite slice_length; lia).
      assert (got ++ more <> []) as Hne by (by destruct got).
      assert (slice (buff p) 0 (b_end p) = more ++ slice (buff p) m (b_end p)) as Hsp2
        by (apply slice_split; lia).
      destruct (m <? b_end p) eqn:E3; bools.
      * rewrite read_exit_ok by done. unfold took.
        assert (Z.to_nat n = length (got ++ more)) as -> by (rewrite length_app; lia).
        rewrite Hc, Hsp2, app_assoc, take_app_exact, drop_app_exact by done. split_and!; try done.
        -- apply (taken_ok p m (b_end p) 0 true); try done; lia.
        -- unfold content. cbn. apply app_nil_r.
      * erewrite bind_ok by reflexivity. erewrite bind_ok by reflexivity.
        rewrite read_exit_ok by done. unfold took.
        assert (m = b_end p) as Hmb by lia. rewrite Hmb, slice_empty, app_nil_r in Hsp2.
        rewrite Hc, Hsp2, take_ge, drop_ge by (rewrite length_app; lia). split_and!; try done;
          (apply (taken_ok p 0 0 0 false); try done; lia).
    + erewrite bind_ok by reflexivity. rewrite read_exit_ok by done. unfold took.
      assert (b_end p = 0) as Hb0 by lia. rewrite Hb0 in Hc. rewrite slice_empty, app_nil_r in Hc.
      rewrite Hc, take_ge, drop_ge by lia. rewrite Hb0. split_and!; try done;
        (apply (taken_ok p 0 0 0 false); try done; lia).
Qed.

(** ** The buffer as a queue *)

(** What the buffer is meant to be: a queue of at most [BIP_BUFFER_SIZE] bytes. *)
Definition queue_write (q src : list Z) : Z * list Z :=
  let n := Z.min (len src) (BIP_BUFFER_SIZE - len q) in (n, q ++ take (Z.to_nat n) src).
Definition queue_read (q : list Z) (n : Z) : list Z * list Z :=
  (take (Z.to_nat n) q, drop (Z.to_nat n) q).

(** C28: The circular buffer of two regions is a queue of 4096 bytes: a write that is let
    in appends as much as fits and says how much that was, a read that is let in takes
    from the front what there is up to its length, the flags say exactly when the queue
    is full or empty, and none of the assertions in the code fails. *)
Theorem bip_refines_queue p :
  bip_ok p ->
  (can_read p = false <-> content p = []) /\
  (can_write p = false <-> len (content p) = BIP_BUFFER_SIZE) /\
  (forall src, can_write p = true -> src <> [] ->
    exists n p', bip_write_locked src p = Ok (n, p') /\ bip_ok p' /\
      queue_write (content p) src = (n, content p') /\ 0 < n) /\
  (forall n, can_read p = true -> 0 < n ->
    exists l p', bip_read_locked n p = Ok (l, p') /\ bip_ok p' /\
      queue_read (content p) n = (l, content p') /\ l <> []).
Proof.
  intros Hok. split_and!; [by apply content_empty|by apply content_full| |].
  - intros src Hcw Hs. pose proof (bip_write_locked_ok p src Hok Hcw Hs) as Hw.
    apply wp_ok in Hw as (n & p' & He & Hok' & _ & _ & Hn & Hc). exists n, p'.
    unfold queue_write. rewrite <- Hn, <- Hc. split_and!; try done.
    assert (len (content p) <> BIP_BUFFER_SIZE) as Hnf
      by (intros Hf; apply content_full in Hf; congruence || done).
    pose proof (content_length p Hok). pose proof (ok_regions p Hok). pose proof (ok_b p Hok).
    destruct src; [done|]. simpl length in Hn. lia.
  - intros n Hcr Hn. pose proof (bip_read_locked_ok p n Hok Hcr Hn) as Hw.
    apply wp_ok in Hw as (l & p' & He & Hok' & _ & _ & Hne & Hl & Hc). exists l, p'.
    unfold queue_read. by rewrite <- Hl, <- Hc.
Qed.

Definition demo_junk : list Z := replicate 4096 7.

Lemma bip_refines_queue_witness :
  exists n p', bip_write_locked [1; 2; 3] (bip_buffer_init demo_junk) = Ok (n, p') /\ bip_ok p' /\
    queue_write (content (bip_buffer_init demo_junk)) [1; 2; 3] = (n, content p') /\ 0 < n.
Proof.
  destruct (bip_refines_queue (bip_buffer_init demo_junk)) as (_ & _ & H & _).
  - apply bip_buffer_init_ok. by vm_compute.
  - apply H; [reflexivity|discriminate].
Defined.

(** ** Threads *)

(** Calls in progress are what their thread makes of them. *)
Definition reads (t : pc) : Prop :=
  match t with
  | Entering c | Unlocked c | Sleeping c | Woken c => exists n, c = CallRead n /\ 0 < n
  | Done _ => True
  end.
Definition writes (t : pc) : Prop :=
  match t with
  | Entering c | Unlocked c | Sleeping c | Woken c => exists src, c = CallWrite src /\ src <> []
  | Done _ => True
  end.

(** A thread that sleeps with nothing signalled has a reason to. *)
Definition reader_waits (p : bip) (t : pc) (c : closing) : Prop :=
  forall k, t = Sleeping k -> evt_read p = false ->
    can_read p = false /\ (closed p = true -> c = WakeReader).
Definition writer_waits (p : bip) (t : pc) (c : closing) : Prop :=
  forall k, t = Sleeping k -> evt_write p = false ->
    can_write p = false /\ (closed p = true -> c = WakeReader \/ c = WakeWriter).

Record use_ok (u : use) : Prop := {
  uo_bip : bip_ok (u_bip u);
  uo_reads : reads (u_reader u);
  uo_writes : writes (u_writer u);
  uo_stream : u_sent u = u_received u ++ content (u_bip u);
  uo_closed : closed (u_bip u) = true <-> u_closer u <> BeforeClose;
  uo_reader : reader_waits (u_bip u) (u_reader u) (u_closer u);
  uo_writer : writer_waits (u_bip u) (u_writer u) (u_closer u) }.

(** A thread that goes to sleep has just seen its flag unset and the buffer open. *)
Lemma reader_falls_asleep p k c : bip_ok p -> closed p = false -> reader_waits p (Sleeping k) c.
Proof.
  intros Hok Hc k' _ He. split; [|congruence].
  destruct (can_read p) eqn:E; [|done]. pose proof (ok_evt_read p Hok E). congruence.
Qed.

Lemma writer_falls_asleep p k c : bip_ok p -> closed p = false -> writer_waits p (Sleeping k) c.
Proof.
  intros Hok Hc k' _ He. split; [|congruence].
  destruct (can_write p) eqn:E; [|done]. pose proof (ok_evt_write p Hok E). congruence.
Qed.

Lemma awake_waits p t c : (forall k, t <> Sleeping k) -> reader_waits p t c /\ writer_waits p t c.
Proof. intros H. split; intros k ->; by destruct (H k). Qed.

Ltac thread_step :=
  split_and!; try done;
  first [by left | by right | by (eexists; split) | intros; by apply awake_waits
    | intros; by apply reader_falls_asleep | intros; by apply writer_falls_asleep].

(** One step of the reader. *)
Lemma reader_advance p t :
  bip_ok p -> reads t ->
  wp (call_step t) (fun o p' =>
    match o with
    | None => (exists a, t = Done a) \/ exists k, t = Sleeping k /\ evt_read p = false
    | Some t' =>
        bip_ok p' /\ reads t' /\ closed p' = closed p /\ content p = moved t t' ++ content p' /\
        (p' = p \/ can_write p' = true) /\ forall c, reader_waits p' t' c
    end) p.
Proof.
  intros Hok Ht. unfold call_step. apply wp_bind, wp_get.
  destruct t as [k|k|k|k|a]; cbn in Ht; try destruct Ht as (n & -> & Hn); cbn [flag event].
  - destruct (can_read p) eqn:E; [|apply wp_ret; thread_step].
    apply wp_bind, wp_bind. eapply wp_mono; [by apply bip_read_locked_ok|].
    intros l p' (Hok' & Hc & Hw & _ & Hl & Hr). apply wp_ret, wp_ret. cbn [moved].
    assert (content p = l ++ content p') by (by rewrite Hl, Hr, take_drop). thread_step.
  - apply wp_ret. destruct (closed p) eqn:E; thread_step.
  - apply wp_ret. destruct (evt_read p) eqn:E; [thread_step|eauto].
  - apply wp_ret. destruct (closed p) eqn:E; thread_step.
  - apply wp_ret. eauto.
Qed.

(** One step of the writer. *)
Lemma writer_advance p t :
  bip_ok p -> writes t ->
  wp (call_step t) (fun o p' =>
    match o with
    | None => (exists a, t = Done a) \/ exists k, t = Sleeping k /\ evt_write p = false
    | Some t' =>
        bip_ok p' /\ writes t' /\ closed p' = closed p /\ content p' = content p ++ moved t t' /\
        (p' = p \/ can_read p' = true) /\ forall c, writer_waits p' t' c
    end) p.
Proof.
  intros Hok Ht. unfold call_step. apply wp_bind, wp_get.
  destruct t as [k|k|k|k|a]; cbn in Ht; try destruct Ht as (src & -> & Hn); cbn [flag event].
  - destruct (can_write p) eqn:E; [|apply wp_ret; cbn [moved]; rewrite app_nil_r; thread_step].
    apply wp_bind, wp_bind. eapply wp_mono; [by apply bip_write_locked_ok|].
    intros n p' (Hok' & Hc & Hr & _ & Hcont). apply wp_ret, wp_ret. cbn [moved]. thread_step.
  - apply wp_ret. destruct (closed p) eqn:E; cbn [moved]; rewrite app_nil_r; thread_step.
  - apply wp_ret. destruct (evt_write p) eqn:E; [cbn [moved]; rewrite app_nil_r; thread_step|eauto].
  - apply wp_ret. destruct (closed p) eqn:E; cbn [moved]; rewrite app_nil_r; thread_step.
  - apply wp_ret. eauto.
Qed.

(** The thread that did not move still has its reason. *)
Lemma writer_waits_on p p' t c :
  bip_ok p' -> closed p' = closed p -> p' = p \/ can_write p' = true ->
  writer_waits p t c -> writer_waits p' t c.
Proof.
  intros Hok Hc [->|Hw] H k Hk He; [by apply (H k)|].
  pose proof (ok_evt_write p' Hok Hw). congruence.
Qed.

Lemma reader_waits_on p p' t c :
  bip_ok p' -> closed p' = closed p -> p' = p \/ can_read p' = true ->
  reader_waits p t c -> reader_waits p' t c.
Proof.
  intros Hok Hc [->|Hr] H k Hk He; [by apply (H k)|].
  pose proof (ok_evt_read p' Hok Hr). congruence.
Qed.

Lemma reader_begins p n c : reads (begin (CallRead n)) /\ reader_waits p (begin (CallRead n)) c.
Proof.
  unfold begin, call_len. destruct (n <=? 0) eqn:E; bools; (split; [|by apply awake_waits]).
  - done.
  - by eexists.
Qed.

Lemma writer_begins p src c :
  writes (begin (CallWrite src)) /\ writer_waits p (begin (CallWrite src)) c.
Proof.
  unfold begin, call_len. destruct (len src <=? 0) eqn:E; bools; (split; [|by apply awake_waits]).
  - done.
  - exists src. split; [done|]. by intros ->.
Qed.

(** Closing wakes whoever sleeps. *)
Lemma close_step_ok p c t w :
  bip_ok p -> (closed p = true <-> c <> BeforeClose) -> reader_waits p t c -> writer_waits p w c ->
  wp (close_step c) (fun c' p' =>
    bip_ok p' /\ content p' = content p /\ (closed p' = true <-> c' <> BeforeClose) /\
    reader_waits p' t c' /\ writer_waits p' w c') p.
Proof.
  intros Hok Hc Hr Hw. unfold close_step. apply wp_bind, wp_get.
  pose proof (ok_evt_read p Hok) as Her. pose proof (ok_evt_write p Hok) as Hew.
  destruct c; unfold when; try destruct (negb _) eqn:E; bools;
    repeat first [apply wp_bind | apply wp_modify | apply wp_ret]; cbv beta;
    (split_and!; [by destruct Hok; split|done|split; [done|intros _; first [done | by apply Hc]]| |]);
    intros k Hk He; cbn in He; try congruence;
    try (rewrite Her in He by done; done); try (rewrite Hew in He by done; done);
    try destruct (Hr k Hk He) as [H1 H2]; try destruct (Hw k Hk He) as [H1 H2];
    (split; [exact H1|]); cbn; intros Hcl; try specialize (H2 Hcl); try done; auto.
Qed.

Lemma use_step_ok u u' : use_step u u' -> use_ok u -> use_ok u'.
Proof.
  intros Hs [Hb Hr Hw Hst Hc Hrw Hww].
  destruct Hs; cbn [u_bip u_reader u_writer u_closer u_sent u_received] in *.
  - pose proof (reader_advance p t Hb Hr) as H1. unfold wp in H1. rewrite H in H1.
    destruct H1 as (Hok & Ht & Hcl & Hcont & Hor & Hwait).
    split; cbn; rewrite ?Hcl; auto; [by rewrite Hst, Hcont, app_assoc|by eapply writer_waits_on].
  - pose proof (writer_advance p w Hb Hw) as H1. unfold wp in H1. rewrite H in H1.
    destruct H1 as (Hok & Ht & Hcl & Hcont & Hor & Hwait).
    split; cbn; rewrite ?Hcl; auto; [by rewrite Hst, Hcont, app_assoc|by eapply reader_waits_on].
  - pose proof (close_step_ok p c t w Hb Hc Hrw Hww) as H1. unfold wp in H1. rewrite H in H1.
    destruct H1 as (Hok & Hcont & Hcl & Ht & Hw'). split; cbn; auto. by rewrite Hcont.
  - destruct (reader_begins p len c). by split.
  - destruct (writer_begins p src c). by split.
  - split; cbn; auto. by apply awake_waits.
  - split; cbn; auto. by apply awake_waits.
Qed.

Lemma use_start_ok junk : len junk = BIP_BUFFER_SIZE -> use_ok (use_start junk).
Proof.
  intros Hj. destruct (bip_buffer_init_ok junk Hj) as [Hok Hc].
  split; cbn; try done; by apply awake_waits.
Qed.

Lemma use_reachable_ok junk u :
  len junk = BIP_BUFFER_SIZE -> rtc use_step (use_start junk) u -> use_ok u.
Proof.
  intros Hj Hr. assert (use_ok (use_start junk)) as H0 by (by apply use_start_ok). revert Hr H0.
  induction 1 as [|a b c Hab _ IH]; [done|]. intros Ha. apply IH. by eapply use_step_ok.
Qed.

(** C27: However a thread that reads, a thread that writes and a thread that closes
    interleave, the bytes given to the reader followed by those in the buffer are the
    bytes taken from the writer, in order; no assertion fails and nothing is copied
    outside the buffer; and no wake-up is lost: a reader sleeps without being signalled
    only while the buffer is empty, a writer only while it is full, and when the buffer
    is closed, only until the closing thread gets to signal it. *)
Theorem bip_threads_safe junk u :
  len junk = BIP_BUFFER_SIZE -> rtc use_step (use_start junk) u ->
  u_sent u = u_received u ++ content (u_bip u) /\ len (content (u_bip u)) <= BIP_BUFFER_SIZE /\
  (exists r, call_step (u_reader u) (u_bip u) = Ok r) /\
  (exists r, call_step (u_writer u) (u_bip u) = Ok r) /\
  (forall k, u_reader u = Sleeping k -> evt_read (u_bip u) = false ->
    content (u_bip u) = [] /\ (closed (u_bip u) = true -> u_closer u = WakeReader)) /\
  (forall k, u_writer u = Sleeping k -> evt_write (u_bip u) = false ->
    len (content (u_bip u)) = BIP_BUFFER_SIZE /\
    (closed (u_bip u) = true -> u_closer u = WakeReader \/ u_closer u = WakeWriter)).
Proof.
  intros Hj Hu. destruct (use_reachable_ok junk u Hj Hu) as [Hb Hr Hw Hs Hc Hrw Hww].
  pose proof (content_length _ Hb). pose proof (ok_regions _ Hb). split_and!; [done|lia| | | |].
  - pose proof (reader_advance _ _ Hb Hr) as H1. apply wp_ok in H1 as (o & p' & -> & _). eauto.
  - pose proof (writer_advance _ _ Hb Hw) as H1. apply wp_ok in H1 as (o & p' & -> & _). eauto.
  - intros k Hk He. destruct (Hrw k Hk He). split; [by apply content_empty|done].
  - intros k Hk He. destruct (Hww k Hk He). split; [by apply content_full|done].
Qed.

(** A reader has gone to sleep. *)
Definition demo_use : use :=
  mkUse (bip_buffer_init demo_junk) (Sleeping (CallRead 10)) (Done Zero) BeforeClose [] [].

Lemma bip_threads_safe_witness :
  content (u_bip demo_use) = [] /\ (closed (u_bip demo_use) = true -> u_closer demo_use = WakeReader).
Proof.
  destruct (bip_threads_safe demo_junk demo_use) as (_ & _ & _ & _ & H & _).
  - by vm_compute.
  - eapply rtc_l; [apply (reader_call _ _ _ _ _ _ 10)|].
    eapply rtc_l; [by apply (reader_step _ (Entering (CallRead 10)))|].
    eapply rtc_l; [by apply (reader_step _ (Unlocked (CallRead 10)))|]. apply rtc_refl.
  - apply (H (CallRead 10)); reflexivity.
Defined.

(** ** Closing loses data *)

(** Bytes for an empty buffer. *)
Lemma first_write junk src :
  len junk = BIP_BUFFER_SIZE -> src <> [] -> len src <= BIP_BUFFER_SIZE ->
  exists p, bip_write_locked src (bip_buffer_init junk) = Ok (len src, p) /\
    closed p = false /\ can_read p = true /\ evt_read p = true /\ content p = src.
Proof.
  intros Hj Hs Hl. destruct (bip_buffer_init_ok junk Hj) as [Hok Hc].
  pose proof (bip_write_locked_ok _ src Hok eq_refl Hs) as Hw.
  apply wp_ok in Hw as (n & p & He & Hok' & Hcl & Hcr & Hn & Hcont). rewrite Hc in Hn, Hcont.
  cbn in Hn. rewrite Z.min_l in Hn by lia. subst n. exists p. rewrite Nat2Z.id, firstn_all in Hcont.
  split_and!; try done. by apply ok_evt_read.
Qed.

(** C37: A reader that waits when bytes are written and the pair is closed right after is
    told that the connection is broken, though all the bytes are in the buffer: after
    waking up [bip_buffer_read] looks at [closed] before it looks for data.  (A socket
    pair of the system delivers them first.) *)
Theorem bip_close_loses_data junk src n :
  len junk = BIP_BUFFER_SIZE -> src <> [] -> len src <= BIP_BUFFER_SIZE -> 0 < n ->
  exists u, rtc use_step (use_start junk) u /\
    u_reader u = Done Broken /\ u_writer u = Done (Wrote (len src)) /\
    u_sent u = src /\ u_received u = [] /\ content (u_bip u) = src.
Proof.
  intros Hj Hs Hl Hn. destruct (first_write junk src Hj Hs Hl) as (p & Hw & Hcl & Hcr & Her & Hcont).
  exists (mkUse (set_closed p) (Done Broken) (Done (Wrote (len src))) WakeReader src []).
  split; [|done]. set (p0 := bip_buffer_init junk) in *.
  assert (begin (CallRead n) = Entering (CallRead n)) as Hbr
    by (unfold begin, call_len; by rewrite (proj2 (Z.leb_gt n 0))).
  assert (begin (CallWrite src) = Entering (CallWrite src)) as Hbw.
  { unfold begin, call_len. rewrite (proj2 (Z.leb_gt _ 0)); [done|]. destruct src; [done|simpl; lia]. }
  eapply rtc_l; [apply reader_call|]. rewrite Hbr.
  eapply rtc_l; [by apply (reader_step p0 (Entering (CallRead n)))|].
  eapply rtc_l; [by apply (reader_step p0 (Unlocked (CallRead n)))|].
  eapply rtc_l; [apply (writer_call p0)|]. rewrite Hbw.
  eapply rtc_l.
  { apply (writer_step p0). unfold call_step. erewrite bind_ok by reflexivity. cbn [flag].
    change (can_write p0) with true. cbv iota. cbn [locked].
    erewrite bind_ok by (by erewrite bind_ok by exact Hw). reflexivity. }
  eapply rtc_l; [by apply (closer_step p _ _ BeforeClose)|].
  eapply rtc_l.
  { apply (reader_step (set_closed p) (Sleeping (CallRead n))). unfold call_step. erewrite bind_ok by reflexivity.
    cbn [event evt_read set_closed]. rewrite Her. reflexivity. }
  eapply rtc_l; [by apply (reader_step (set_closed p) (Woken (CallRead n)))|].
  cbn [moved]. rewrite Nat2Z.id, firstn_all. apply rtc_refl.
Qed.

Lemma bip_close_loses_data_witness :
  exists u, rtc use_step (use_start demo_junk) u /\
    u_reader u = Done Broken /\ u_writer u = Done (Wrote 4) /\
    u_sent u = bs "OKAY" /\ u_received u = [] /\ content (u_bip u) = bs "OKAY".
Proof.
  apply (bip_close_loses_data demo_junk (bs "OKAY") 10);
    [by vm_compute|discriminate|by vm_compute|lia].
Defined.
