(* ===== verification/Win32Fds.v ===== *)
(** * Descriptors on Windows

    The table of descriptors that adb keeps on Windows (sysdeps_win32.c): files, sockets
    and the socket pairs of BipBuffer.v behind one kind of number.  A descriptor is an
    index into a table of 128 records plus 100.  Handles of the system are numbers; the
    calls that close them are recorded. *)

From S2P Require Import Prelude Io BipBuffer.

(** ** The table *)

Inductive fh_class := FileClass | SocketClass | PairClass.

#[export] Instance fh_class_eq_dec : EqDecision fh_class.
Proof. solve_decision. Defined.

(** The union [u] of [FHRec]: a handle or socket, or a pointer to a pair. *)
Inductive fh_union := UHandle (h : Z) | UPair (p : option Z).

Record FHRec := mkFH { clazz : option fh_class; used : bool; eof : bool; fh_u : fh_union }.

Record SocketPairRec := mkSP {
  a2b_bip : bip; b2a_bip : bip; a_fd : option nat; pair_used : Z }.

Record fds := mkFds {
  win32_fhs : list FHRec;
  win32_fh_count : Z;
  pairs : gmap Z SocketPairRec;       (** the pairs that are allocated *)
  next_pair : Z;
  closed_handles : list Z }.

Definition WIN32_FH_BASE : Z := 100.
Definition WIN32_MAX_FHS : Z := 128.
Definition INVALID_HANDLE_VALUE : Z := -1.

Definition set_fhs (l : list FHRec) (w : fds) : fds :=
  mkFds l (win32_fh_count w) (pairs w) (next_pair w) (closed_handles w).
Definition set_count (n : Z) (w : fds) : fds :=
  mkFds (win32_fhs w) n (pairs w) (next_pair w) (closed_handles w).
Definition set_pairs (m : gmap Z SocketPairRec) (w : fds) : fds :=
  mkFds (win32_fhs w) (win32_fh_count w) m (next_pair w) (closed_handles w).
Definition take_pair (w : fds) : fds :=
  mkFds (win32_fhs w) (win32_fh_count w) (pairs w) (next_pair w + 1) (closed_handles w).
Definition close_handle (h : Z) (w : fds) : fds :=
  mkFds (win32_fhs w) (win32_fh_count w) (pairs w) (next_pair w) (closed_handles w ++ [h]).

(** An [FH] is an index into the table, [None] is the null pointer. *)
Definition fh_at (f : nat) : M fds FHRec := w <- get ;; deref (win32_fhs w !! f).
Definition fh_put (f : nat) (r : FHRec) : M fds unit :=
  modify (fun w => set_fhs (<[f := r]> (win32_fhs w)) w).

Definition fh_from_int (fd : Z) : M fds (option nat) :=
  w <- get ;;
  let i := fd - WIN32_FH_BASE in
  if (i <? 0) || (win32_fh_count w <=? i) then ret None
  else
    r <- fh_at (Z.to_nat i) ;;
    ret (if used r then Some (Z.to_nat i) else None).

Definition fh_to_int (f : nat) : M fds Z :=
  r <- fh_at f ;;
  ret (if used r && (Z.of_nat f <? WIN32_MAX_FHS) then Z.of_nat f + WIN32_FH_BASE else -1).

(** The first record without a class, from index [nn] on. *)
Fixpoint find_free (nn : nat) (l : list FHRec) : option nat :=
  match l with
  | [] => None
  | r :: l' => match clazz r with None => Some nn | Some _ => find_free (S nn) l' end
  end.

(** [clazz->_fh_init]. *)
Definition fh_init (c : fh_class) : fh_union :=
  match c with
  | FileClass | SocketClass => UHandle INVALID_HANDLE_VALUE
  | PairClass => UPair None
  end.

Definition fh_alloc (c : fh_class) : M fds (option nat) :=
  w <- get ;;
  let n := win32_fh_count w in
  f <- (if n <? WIN32_MAX_FHS then modify (set_count (n + 1)) ;; ret (Some (Z.to_nat n))
        else ret (find_free 0 (win32_fhs w))) ;;
  match f with
  | None => ret None
  | Some i => fh_put i (mkFH (Some c) true false (fh_init c)) ;; ret (Some i)
  end.

(** ** Socket pairs *)

Definition run_bip {A} (m : M bip A) (p : bip) : M fds (A * bip) :=
  fun w => match m p with Ok r => Ok (r, w) | Err e => Err e end.

Definition fh_socketpair_close (f : nat) : M fds unit :=
  r <- fh_at f ;;
  match fh_u r with
  | UPair (Some a) =>
      w <- get ;;
      pair <- deref (pairs w !! a) ;;
      let a' := if decide (a_fd pair = Some f) then None else a_fd pair in
      b2a <- run_bip bip_buffer_close (b2a_bip pair) ;;
      a2b <- run_bip bip_buffer_close (a2b_bip pair) ;;
      (if pair_used pair - 1 =? 0 then modify (fun w => set_pairs (delete a (pairs w)) w)
       else modify (fun w => set_pairs (<[a := mkSP a2b.2 b2a.2 a' (pair_used pair - 1)]> (pairs w)) w)) ;;
      fh_put f (mkFH (clazz r) (used r) (eof r) (UPair None))
  | _ => ret tt
  end.

(** [_fh_file_close] and [_fh_socket_close]. *)
Definition fh_handle_close (f : nat) : M fds unit :=
  r <- fh_at f ;;
  match fh_u r with
  | UHandle h => modify (close_handle h) ;; fh_put f (mkFH (clazz r) (used r) (eof r) (UHandle INVALID_HANDLE_VALUE))
  | UPair _ => fail EUndef
  end.

(** [_fh_close]; closing the null pointer is undefined. *)
Definition fh_close (f : option nat) : M fds unit :=
  i <- deref f ;;
  r <- fh_at i ;;
  if used r then
    match clazz r with
    | Some PairClass => fh_socketpair_close i
    | Some _ => fh_handle_close i
    | None => fail EUndef
    end ;;
    r <- fh_at i ;;
    fh_put i (mkFH None false false (fh_u r))
  else ret tt.

(** [adb_socketpair]; [malloc] says whether memory is left, [ja] and [jb] are the bytes
    the memory held before. *)
Definition adb_socketpair (malloc : bool) (ja jb : list Z) : M fds (option (Z * Z)) :=
  fa <- fh_alloc PairClass ;;
  fb <- fh_alloc PairClass ;;
  match fa, fb, malloc with
  | Some a, Some b, true =>
      w <- get ;;
      let p := next_pair w in
      modify take_pair ;;
      modify (fun w => set_pairs (<[p := mkSP (bip_buffer_init ja) (bip_buffer_init jb) (Some a) 2]> (pairs w)) w) ;;
      ra <- fh_at a ;; fh_put a (mkFH (clazz ra) (used ra) (eof ra) (UPair (Some p))) ;;
      rb <- fh_at b ;; fh_put b (mkFH (clazz rb) (used rb) (eof rb) (UPair (Some p))) ;;
      x <- fh_to_int a ;; y <- fh_to_int b ;;
      ret (Some (x, y))
  | _, _, _ => fh_close fb ;; fh_close fa ;; ret None
  end.

(** Where a transfer goes: nowhere (the result is -1), to a handle of the system, or to a
    buffer of a pair, which is the one from A to B or the other. *)
Inductive target := BadFd | Handle (h : Z) | Buffer (pair : Z) (a2b : bool).

(** [_fh_socketpair_read] and [_fh_socketpair_write] up to the call of the buffer. *)
Definition fh_socketpair_target (reading : bool) (f : nat) (u : fh_union) : M fds target :=
  match u with
  | UPair (Some a) =>
      w <- get ;;
      pair <- deref (pairs w !! a) ;;
      let is_a := bool_decide (a_fd pair = Some f) in
      ret (Buffer a (if reading then negb is_a else is_a))
  | UPair None => ret BadFd
  | UHandle _ => fail EUndef
  end.

(** [adb_read] and [adb_write] up to the transfer itself. *)
Definition adb_transfer (reading : bool) (fd : Z) : M fds target :=
  f <- fh_from_int fd ;;
  match f with
  | None => ret BadFd
  | Some i =>
      r <- fh_at i ;;
      match clazz r, fh_u r with
      | Some PairClass, u => fh_socketpair_target reading i u
      | Some _, UHandle h => ret (Handle h)
      | _, _ => fail EUndef
      end
  end.

Definition adb_close (fd : Z) : M fds bool :=
  f <- fh_from_int fd ;;
  match f with
  | None => ret false
  | Some i => fh_close (Some i) ;; ret true
  end.

(** The process before any descriptor: all records are zero. *)
Definition fds_start : fds :=
  mkFds (replicate 128 (mkFH None false false (UHandle 0))) 0 ∅ 1 [].
