(* ===== verification/Win32Facts.v ===== *)
(** * Descriptors on Windows: what the table guarantees

    New descriptors are fresh, a socket pair connects its two ends crosswise, and what
    happens when the table is full. *)

From S2P Require Import Prelude Io BipBuffer Win32Fds.

(** A record that [_fh_alloc] may hand out. *)
Definition free (w : fds) (i : nat) : Prop := exists r, win32_fhs w !! i = Some r /\ clazz r = None.

Record fds_ok (w : fds) : Prop := {
  fo_len : length (win32_fhs w) = 128%nat;
  fo_count : 0 <= win32_fh_count w <= WIN32_MAX_FHS;
  fo_unused : forall i, win32_fh_count w <= Z.of_nat i < WIN32_MAX_FHS -> free w i;
  fo_used : forall i r, win32_fhs w !! i = Some r -> used r = true <-> clazz r <> None;
  fo_next : forall a, is_Some (pairs w !! a) -> a < next_pair w }.

Lemma fds_start_ok : fds_ok fds_start.
Proof.
  unfold fds_start. split; cbn [win32_fhs win32_fh_count pairs next_pair]; try done.
  - intros i Hi. exists (mkFH None false false (UHandle 0)). split; [|done].
    apply lookup_replicate. split; [done|]. unfold WIN32_MAX_FHS in Hi. lia.
  - intros i r [-> _]%lookup_replicate. done.
  - by intros a [? ?%lookup_empty_Some].
Qed.

Lemma find_free_spec n l :
  match find_free n l with
  | Some i => exists k r, i = (n + k)%nat /\ l !! k = Some r /\ clazz r = None
  | None => forall k r, l !! k = Some r -> clazz r <> None
  end.
Proof.
  revert n. induction l as [|r l IH]; intros n; cbn [find_free]; [done|].
  destruct (clazz r) eqn:E.
  - specialize (IH (S n)). destruct (find_free (S n) l).
    + destruct IH as (k & r' & -> & Hk & Hc). exists (S k), r'. split; [lia|done].
    + intros [|k] r' Hk; cbn in Hk; [simplify_eq; by rewrite E|by eapply IH].
  - exists 0%nat, r. split; [lia|done].
Qed.

(** The table after a record was handed out. *)
Definition allocated (c : fh_class) (w : fds) (i : nat) (w' : fds) : Prop :=
  free w i /\ (i < 128)%nat /\ Z.of_nat i < win32_fh_count w' /\
  win32_fh_count w <= win32_fh_count w' /\
  win32_fhs w' = <[i := mkFH (Some c) true false (fh_init c)]> (win32_fhs w) /\
  pairs w' = pairs w /\ next_pair w' = next_pair w.

Lemma free_insert w w' i j r :
  win32_fhs w' = <[i := r]> (win32_fhs w) -> i <> j -> free w j -> free w' j.
Proof. intros Hw Hn (q & Hq & Hc). exists q. rewrite Hw, list_lookup_insert_ne by done. done. Qed.

Lemma allocated_ok c w i w' :
  fds_ok w -> allocated c w i w' ->
  win32_fh_count w' <= WIN32_MAX_FHS ->
  (win32_fh_count w' = win32_fh_count w \/ win32_fh_count w' = win32_fh_count w + 1 /\ Z.of_nat i = win32_fh_count w) ->
  fds_ok w'.
Proof.
  intros [Hl Hc Hu Hcl Hn] (Hf & Hi & Hic & Hle & Hw & Hp & Hnx) Hmax Hcnt. split.
  - by rewrite Hw, length_insert.
  - lia.
  - intros j Hj. apply (free_insert w w' i j _ Hw); [lia|]. apply Hu. lia.
  - intros j r Hj. rewrite Hw in Hj. apply list_lookup_insert_Some in Hj as [(<- & <- & _)|[_ Hj]]; [done|].
    by eapply Hcl.
  - rewrite Hp, Hnx. done.
Qed.

Lemma fh_alloc_spec c w :
  fds_ok w ->
  wp (fh_alloc c) (fun o w' =>
    match o with
    | Some i => allocated c w i w' /\ fds_ok w'
    | None => w' = w /\ forall i, ~ free w i
    end) w.
Proof.
  intros Hok. pose proof Hok as [Hl Hc Hu Hcl Hn]. unfold fh_alloc. apply wp_bind, wp_get.
  destruct (win32_fh_count w <? WIN32_MAX_FHS) eqn:E; bools.
  - apply wp_bind, wp_bind, wp_modify, wp_ret, wp_bind. unfold fh_put. apply wp_modify, wp_ret.
    assert (allocated c w (Z.to_nat (win32_fh_count w))
      (set_fhs (<[Z.to_nat (win32_fh_count w) := mkFH (Some c) true false (fh_init c)]> (win32_fhs w))
         (set_count (win32_fh_count w + 1) w))) as Ha.
    { unfold WIN32_MAX_FHS in *. split_and!; cbn; try done; try lia. apply Hu. unfold WIN32_MAX_FHS. lia. }
    split; [exact Ha|]. eapply allocated_ok; [exact Hok|exact Ha|cbn; lia|]. right. cbn. lia.
  - apply wp_bind, wp_ret. pose proof (find_free_spec 0 (win32_fhs w)) as Hf.
    destruct (find_free 0 (win32_fhs w)) as [i|].
    + destruct Hf as (k & r & -> & Hk & Hr). cbn [Nat.add]. apply wp_bind. unfold fh_put. apply wp_modify, wp_ret.
      pose proof (lookup_lt_Some _ _ _ Hk) as Hlt. unfold WIN32_MAX_FHS in *.
      assert (allocated c w k (set_fhs (<[k := mkFH (Some c) true false (fh_init c)]> (win32_fhs w)) w)) as Ha.
      { split_and!; cbn; try done; try lia. by exists r. }
      split; [exact Ha|]. eapply allocated_ok; [exact Hok|exact Ha|cbn; unfold WIN32_MAX_FHS; lia|by left].
    + apply wp_ret. split; [done|]. intros i (r & Hr & Hcn). by eapply Hf.
Qed.

(** A descriptor that is in use. *)
Lemma fh_from_int_used w i r :
  fds_ok w -> win32_fhs w !! i = Some r -> used r = true -> Z.of_nat i < win32_fh_count w ->
  fh_from_int (Z.of_nat i + WIN32_FH_BASE) w = Ok (Some i, w).
Proof.
  intros Hok Hr Hu Hc. unfold fh_from_int. erewrite bind_ok by reflexivity. cbv zeta.
  rewrite Z.add_simpl_r, Nat2Z.id. rewrite (proj2 (Z.ltb_ge _ _)), (proj2 (Z.leb_gt _ _)) by lia.
  cbn [orb]. erewrite bind_ok; [by rewrite Hu|]. unfold fh_at. erewrite bind_ok by reflexivity.
  by rewrite Hr.
Qed.

(** A transfer on an end of a pair. *)
Lemma pair_transfer w i r p s reading :
  fds_ok w -> win32_fhs w !! i = Some r -> used r = true -> Z.of_nat i < win32_fh_count w ->
  clazz r = Some PairClass -> fh_u r = UPair (Some p) -> pairs w !! p = Some s ->
  adb_transfer reading (Z.of_nat i + WIN32_FH_BASE) w =
    Ok (Buffer p (if reading then negb (bool_decide (a_fd s = Some i)) else bool_decide (a_fd s = Some i)), w).
Proof.
  intros Hok Hr Hu Hc Hcl Hp Hs. unfold adb_transfer.
  erewrite bind_ok by (by eapply fh_from_int_used). cbv iota.
  erewrite bind_ok by (unfold fh_at; erewrite bind_ok by reflexivity; by rewrite Hr).
  rewrite Hcl, Hp. cbn [fh_socketpair_target]. erewrite bind_ok by reflexivity.
  erewrite bind_ok by (by rewrite Hs). done.
Qed.

Lemma fh_at_ok w i r : win32_fhs w !! i = Some r -> fh_at i w = Ok (r, w).
Proof. intros Hr. unfold fh_at. erewrite bind_ok by reflexivity. by rewrite Hr. Qed.

Lemma fh_to_int_ok w i r :
  win32_fhs w !! i = Some r -> used r = true -> (i < 128)%nat ->
  fh_to_int i w = Ok (Z.of_nat i + WIN32_FH_BASE, w).
Proof.
  intros Hr Hu Hi. unfold fh_to_int. erewrite bind_ok by (by apply fh_at_ok). rewrite Hu.
  rewrite (proj2 (Z.ltb_lt _ _)) by (unfold WIN32_MAX_FHS; lia). done.
Qed.

(** Two free records give two different ones. *)
Lemma alloc_two c w i j :
  fds_ok w -> free w i -> free w j -> i <> j ->
  exists a b w1 w2, fh_alloc c w = Ok (Some a, w1) /\ fh_alloc c w1 = Ok (Some b, w2) /\
    allocated c w a w1 /\ allocated c w1 b w2 /\ fds_ok w2 /\ a <> b.
Proof.
  intros Hok Hi Hj Hij. pose proof (fh_alloc_spec c w Hok) as H1.
  apply wp_ok in H1 as ([a|] & w1 & E1 & H1); [|by destruct H1 as [_ []%(fun H => H i)]].
  destruct H1 as [Ha Hok1]. pose proof (fh_alloc_spec c w1 Hok1) as H2.
  pose proof Ha as (_ & Halt & _ & _ & Hw & _).
  apply wp_ok in H2 as ([b|] & w2 & E2 & H2).
  - destruct H2 as [Hb Hok2]. exists a, b, w1, w2. split_and!; try done. intros <-.
    destruct Hb as ((r & Hr & Hc) & _). rewrite Hw, list_lookup_insert_eq in Hr.
    + by simplify_eq.
    + by rewrite (fo_len w Hok).
  - exfalso. destruct H2 as [_ H2]. destruct (decide (a = i)) as [->|].
    + apply (H2 j). by apply (free_insert w w1 i j _ Hw).
    + apply (H2 i). by apply (free_insert w w1 a i _ Hw).
Qed.

(** The records of the two ends, with the pair in them. *)
Definition pair_end (p : Z) : FHRec := mkFH (Some PairClass) true false (UPair (Some p)).

(** The table once the pair is set up. *)
Definition paired (w : fds) (a b : nat) (s : SocketPairRec) : fds :=
  let p := next_pair w in
  mkFds (<[b := pair_end p]> (<[a := pair_end p]> (win32_fhs w))) (win32_fh_count w)
    (<[p := s]> (pairs w)) (p + 1) (closed_handles w).

Lemma paired_ok w a b s :
  fds_ok w -> ~ free w a -> ~ free w b -> fds_ok (paired w a b s).
Proof.
  intros [Hl Hc Hu Hcl Hn] Ha Hb. split; cbn.
  - by rewrite !length_insert.
  - done.
  - intros i Hi. destruct (Hu i Hi) as (r & Hr & Hrc). exists r. split; [|done].
    cbn. rewrite !list_lookup_insert_ne by (intros ->; eauto). done.
  - intros i r Hi. apply list_lookup_insert_Some in Hi as [(<- & <- & _)|[_ Hi]]; [done|].
    apply list_lookup_insert_Some in Hi as [(<- & <- & _)|[_ Hi]]; [done|]. by eapply Hcl.
  - intros x Hx. destruct (decide (x = next_pair w)) as [->|Hne]; [lia|].
    rewrite lookup_insert_ne in Hx by done. specialize (Hn x Hx). lia.
Qed.

Lemma paired_ends w a b s :
  length (win32_fhs w) = 128%nat -> (a < 128)%nat -> (b < 128)%nat -> a <> b ->
  win32_fhs (paired w a b s) !! a = Some (pair_end (next_pair w)) /\
  win32_fhs (paired w a b s) !! b = Some (pair_end (next_pair w)).
Proof.
  intros Hl Ha Hb Hab. cbn. split.
  - rewrite list_lookup_insert_ne by done. apply list_lookup_insert_eq. lia.
  - apply list_lookup_insert_eq. rewrite length_insert. lia.
Qed.

(** The run of [adb_socketpair] when nothing fails. *)
Lemma socketpair_run w ja jb i j :
  fds_ok w -> free w i -> free w j -> i <> j ->
  exists a b w2, let s := mkSP (bip_buffer_init ja) (bip_buffer_init jb) (Some a) 2 in
    adb_socketpair true ja jb w =
      Ok (Some (Z.of_nat a + WIN32_FH_BASE, Z.of_nat b + WIN32_FH_BASE), paired w2 a b s) /\
    fds_ok w2 /\ fds_ok (paired w2 a b s) /\ pairs w2 = pairs w /\ a <> b /\
    (a < 128)%nat /\ (b < 128)%nat /\
    Z.of_nat a < win32_fh_count w2 /\ Z.of_nat b < win32_fh_count w2.
Proof.
  intros Hok Hi Hj Hij.
  destruct (alloc_two PairClass w i j Hok Hi Hj Hij) as (a & b & w1 & w2 & E1 & E2 & Ha & Hb & Hok2 & Hab).
  destruct Ha as (_ & Ha & Hac & _ & Hw1 & Hp1 & _). destruct Hb as (_ & Hb & Hbc & Hle & Hw2 & Hp2 & _).
  rewrite Hw1 in Hw2. set (new := mkFH (Some PairClass) true false (fh_init PairClass)) in *.
  assert (win32_fhs w2 !! a = Some new) as Hra.
  { rewrite Hw2, list_lookup_insert_ne by done. apply list_lookup_insert_eq. by rewrite (fo_len w Hok). }
  assert (win32_fhs w2 !! b = Some new) as Hrb.
  { rewrite Hw2, list_lookup_insert_eq; [done|]. rewrite length_insert, (fo_len w Hok). lia. }
  exists a, b, w2. intros s. destruct (paired_ends w2 a b s (fo_len w2 Hok2) Ha Hb Hab) as [Hra' Hrb'].
  split_and!; try done; try lia; [| |congruence].
  - unfold adb_socketpair. erewrite bind_ok by exact E1. erewrite bind_ok by exact E2. cbv iota.
    do 3 (erewrite bind_ok by reflexivity; cbv zeta). erewrite bind_ok by (by apply fh_at_ok).
    erewrite bind_ok by reflexivity.
    erewrite bind_ok by (apply fh_at_ok; cbn; by rewrite list_lookup_insert_ne).
    erewrite bind_ok by reflexivity.
    erewrite bind_ok by (by apply (fh_to_int_ok (paired w2 a b s) a (pair_end (next_pair w2)))).
    by erewrite bind_ok by (by apply (fh_to_int_ok (paired w2 a b s) b (pair_end (next_pair w2)))).
  - apply paired_ok; [done|intros (r & Hr & Hc); by simplify_eq..].
Qed.

(** With two free records, a socket pair is two new and different descriptors, and
    what is written to either is what the other reads: each direction has a buffer of
    its own, new and empty. *)
Theorem socketpair_connects w ja jb i j :
  fds_ok w -> free w i -> free w j -> i <> j ->
  exists x y p s w', adb_socketpair true ja jb w = Ok (Some (x, y), w') /\ fds_ok w' /\ x <> y /\
    pairs w !! p = None /\ pairs w' !! p = Some s /\
    a2b_bip s = bip_buffer_init ja /\ b2a_bip s = bip_buffer_init jb /\
    adb_transfer false x w' = Ok (Buffer p true, w') /\ adb_transfer true y w' = Ok (Buffer p true, w') /\
    adb_transfer false y w' = Ok (Buffer p false, w') /\ adb_transfer true x w' = Ok (Buffer p false, w').
Proof.
  intros Hok Hi Hj Hij.
  destruct (socketpair_run w ja jb i j Hok Hi Hj Hij) as (a & b & w2 & Hrun & Hok2 & Hok' & Hp & Hab & Ha & Hb & Hac & Hbc).
  set (s := mkSP _ _ _ _) in *. set (w' := paired w2 a b s) in *.
  destruct (paired_ends w2 a b s (fo_len w2 Hok2) Ha Hb Hab) as [Hra Hrb].
  assert (pairs w' !! next_pair w2 = Some s) as Hs by (cbn; apply lookup_insert_eq).
  assert (bool_decide (Some a = Some a) = true) as Hda by (by apply bool_decide_eq_true).
  assert (bool_decide (Some a = Some b) = false) as Hdb by (apply bool_decide_eq_false; by intros [=]).
  exists (Z.of_nat a + WIN32_FH_BASE), (Z.of_nat b + WIN32_FH_BASE), (next_pair w2), s, w'.
  split_and!; try done; [lia| | | | |].
  - destruct (pairs w !! next_pair w2) eqn:E; [|done]. rewrite <- Hp in E.
    pose proof (fo_next w2 Hok2 _ (mk_is_Some _ _ E)). lia.
  - rewrite (pair_transfer w' a _ _ s _ Hok' Hra) by done. cbn. by rewrite Hda.
  - rewrite (pair_transfer w' b _ _ s _ Hok' Hrb) by done. cbn. by rewrite Hdb.
  - rewrite (pair_transfer w' b _ _ s _ Hok' Hrb) by done. cbn. by rewrite Hdb.
  - rewrite (pair_transfer w' a _ _ s _ Hok' Hra) by done. cbn. by rewrite Hda.
Qed.

(** When fewer than two records are free, the failure path closes a null pointer. *)
Theorem socketpair_full_table_crashes w malloc ja jb :
  fds_ok w -> (forall i j, free w i -> free w j -> i = j) ->
  adb_socketpair malloc ja jb w = Err EUndef.
Proof.
  intros Hok Hone. unfold adb_socketpair.
  pose proof (fh_alloc_spec PairClass w Hok) as H1. apply wp_ok in H1 as ([a|] & w1 & E1 & H1).
  - destruct H1 as [Ha Hok1]. pose proof Ha as (Hfa & _ & _ & _ & Hw & _).
    pose proof (fh_alloc_spec PairClass w1 Hok1) as H2. apply wp_ok in H2 as ([b|] & w2 & E2 & H2).
    + exfalso. destruct H2 as [((r & Hr & Hc) & _) _]. rewrite Hw in Hr.
      apply list_lookup_insert_Some in Hr as [(<- & <- & _)|[Hne Hr]]; [done|].
      apply Hne. apply Hone; [done|]. by exists r.
    + erewrite bind_ok by exact E1. erewrite bind_ok by exact E2. done.
  - destruct H1 as [-> Hno]. pose proof (fh_alloc_spec PairClass w Hok) as H2.
    apply wp_ok in H2 as ([b|] & w2 & E2 & H2); [destruct H2 as [(Hf & _) _]; by destruct (Hno b)|].
    rewrite E1 in E2. simplify_eq. erewrite bind_ok by exact E1. by erewrite bind_ok by exact E1.
Qed.
