(* ===== verification/Wire.v ===== *)
(** * Packets on the wire

    The message header and packet of adb.h, the checksum and magic number
    [send_packet] fills in and [check_header]/[check_data] verify
    (transport.c), and the two ways a packet crosses to the other side:
    transport_local.c over a TCP stream and transport_usb.c over the device's
    USB character device (usb_linux_client.c). *)

From S2P Require Import Prelude Io.

(** ** Data *)

Definition MAX_PAYLOAD : Z := 4096.

Definition A_SYNC : Z := 0x434e5953.
Definition A_CNXN : Z := 0x4e584e43.
Definition A_OPEN : Z := 0x4e45504f.
Definition A_OKAY : Z := 0x59414b4f.
Definition A_CLSE : Z := 0x45534c43.
Definition A_WRTE : Z := 0x45545257.
Definition A_VERSION : Z := 0x01000000.

Record amessage := mkMsg {
  command : Z;
  arg0 : Z;
  arg1 : Z;
  data_length : Z;
  data_check : Z;
  magic : Z
}.

(** [pk_data] is the array [data[MAX_PAYLOAD]]; [pk_len] and [pk_off] are the
    fields [len] and [ptr - data] the socket queues use. *)
Record apacket := mkPkt {
  pk_len : Z;
  pk_off : Z;
  msg : amessage;
  pk_data : list Z
}.

Definition zero_msg : amessage := mkMsg 0 0 0 0 0 0.

(** [get_apacket] clears everything but the payload, whose initial contents
    [junk] are whatever the allocator left there. *)
Definition get_apacket (junk : list Z) : apacket := mkPkt 0 0 zero_msg junk.

Definition set_msg (f : amessage -> amessage) (p : apacket) : apacket :=
  mkPkt (pk_len p) (pk_off p) (f (msg p)) (pk_data p).

(** ** Checksums *)

(** The loop [while(count-- > 0) sum += *x++] of [send_packet] and
    [check_data]; [None] when it reads past the array. *)
Fixpoint sum_bytes (count : nat) (x : list Z) (sum : Z) : option Z :=
  match count with
  | O => Some sum
  | S c =>
      match x with
      | b :: x' => sum_bytes c x' (u32 (sum + b))
      | [] => None
      end
  end.

(** The part of [send_packet] before the packet is queued for the transport. *)
Definition send_packet_fill (p : apacket) : option apacket :=
  match sum_bytes (Z.to_nat (data_length (msg p))) (pk_data p) 0 with
  | Some sum =>
      Some (set_msg (fun m => mkMsg (command m) (arg0 m) (arg1 m) (data_length m) sum
                                (Z.lxor (command m) 0xffffffff)) p)
  | None => None
  end.

(** [true] is the return value 0. *)
Definition check_header (p : apacket) : bool :=
  if negb (magic (msg p) =? Z.lxor (command (msg p)) 0xffffffff) then false
  else if MAX_PAYLOAD <? data_length (msg p) then false
  else true.

Definition check_data (p : apacket) : option bool :=
  match sum_bytes (Z.to_nat (data_length (msg p))) (pk_data p) 0 with
  | Some sum => Some (sum =? data_check (msg p))
  | None => None
  end.

(** ** Memory representation *)

(** [sizeof(amessage)]. *)
Definition sizeof_amessage : nat := 24.

(** The bytes of the header in memory, and their reading back. *)
Definition msg_bytes (m : amessage) : list Z :=
  le32 (command m) ++ le32 (arg0 m) ++ le32 (arg1 m) ++
  le32 (data_length m) ++ le32 (data_check m) ++ le32 (magic m).

Definition msg_of_bytes (l : list Z) : amessage :=
  let w i := of_le (take 4 (drop (4 * i) l)) in
  mkMsg (w 0%nat) (w 1%nat) (w 2%nat) (w 3%nat) (w 4%nat) (w 5%nat).

(** The packet after bytes that fit were copied to the front of [p->data]. *)
Definition fill_data (l : list Z) (p : apacket) : apacket :=
  mkPkt (pk_len p) (pk_off p) (msg p) (l ++ drop (length l) (pk_data p)).

(** Copying bytes to [p->data]; more than the array holds is undefined. *)
Definition put_data {W} (l : list Z) (p : apacket) : M W apacket :=
  if decide (length l <= length (pk_data p))%nat then ret (fill_data l p) else fail EUndef.

(** A read of [len] bytes into [p->data] with [rd].  The length is handed to
    the kernel, so asking for more than the array holds is undefined, whatever
    arrives. *)
Definition read_data (rd : nat -> M rdfd (option (list Z))) (len : nat) (p : apacket) :
    M rdfd (option apacket) :=
  if decide (len <= length (pk_data p))%nat then
    d <- rd len ;;
    match d with
    | None => ret None
    | Some db => p <- put_data db p ;; ret (Some p)
    end
  else fail EUndef.

(** ** transport_local.c *)

Module Local.

(** [Some p'] is the return value 0 with the packet filled, [None] is -1. *)
Definition remote_read (p : apacket) : M rdfd (option apacket) :=
  h <- readx sizeof_amessage ;;
  match h with
  | None => ret None
  | Some hb =>
      let p := set_msg (fun _ => msg_of_bytes hb) p in
      if negb (check_header p) then ret None
      else
        d <- read_data readx (Z.to_nat (data_length (msg p))) p ;;
        match d with
        | None => ret None
        | Some p =>
            ok <- deref (check_data p) ;;
            ret (if ok then Some p else None)
        end
  end.

(** One [writex] of the header and the payload that follows it in memory. *)
Definition remote_write (p : apacket) : M wrfd bool :=
  let length := Z.to_nat (data_length (msg p)) in
  if decide (length <= List.length (pk_data p))%nat
  then writex (msg_bytes (msg p) ++ take length (pk_data p))
  else fail EUndef.

End Local.

(** ** transport_usb.c over usb_linux_client.c *)

Module Usb.

(** One transfer; anything but a full one is an error. *)
Definition usb_read (len : nat) : M rdfd (option (list Z)) :=
  fun s =>
  match adb_read len s with
  | (Got l, s') => Ok (if decide (length l = len) then Some l else None, s')
  | (Failed _, s') => Ok (None, s')
  end.

Definition usb_write (buf : list Z) : M wrfd bool :=
  fun s =>
  match adb_write buf s with
  | (Got l, s') => Ok (bool_decide (length l = length buf), s')
  | (Failed _, s') => Ok (false, s')
  end.

Definition remote_read (p : apacket) : M rdfd (option apacket) :=
  h <- usb_read sizeof_amessage ;;
  match h with
  | None => ret None
  | Some hb =>
      let p := set_msg (fun _ => msg_of_bytes hb) p in
      if negb (check_header p) then ret None
      else
        d <- (if data_length (msg p) =? 0 then ret (Some p)
              else read_data usb_read (Z.to_nat (data_length (msg p))) p) ;;
        match d with
        | None => ret None
        | Some p =>
            ok <- deref (check_data p) ;;
            ret (if ok then Some p else None)
        end
  end.

Definition remote_write (p : apacket) : M wrfd bool :=
  let size := Z.to_nat (data_length (msg p)) in
  r <- usb_write (msg_bytes (msg p)) ;;
  if negb r then ret false
  else if data_length (msg p) =? 0 then ret true
  else if decide (size <= length (pk_data p))%nat
       then usb_write (take size (pk_data p))
       else fail EUndef.

End Usb.

(** ** Well-formedness *)

Definition msg_ok (m : amessage) : Prop :=
  is_u32 (command m) /\ is_u32 (arg0 m) /\ is_u32 (arg1 m) /\
  is_u32 (data_length m) /\ is_u32 (data_check m) /\ is_u32 (magic m).

(** A packet as the program holds it: header words of 32 bits and a payload
    array of MAX_PAYLOAD bytes. *)
Definition pkt_ok (p : apacket) : Prop :=
  msg_ok (msg p) /\ Z.of_nat (length (pk_data p)) = MAX_PAYLOAD /\ Forall is_byte (pk_data p).

(** The payload proper. *)
Definition payload (p : apacket) : list Z :=
  take (Z.to_nat (data_length (msg p))) (pk_data p).

(** The bytes a packet occupies on the wire. *)
Definition wire (p : apacket) : list Z := msg_bytes (msg p) ++ payload p.

(** The sum of the bytes, as the protocol defines the check word. *)
Definition byte_sum (l : list Z) : Z := u32 (foldr Z.add 0 l).

(** Send a sequence of packets, and read [n] packets, each into a fresh one. *)
Fixpoint send_all (ps : list apacket) : M wrfd bool :=
  match ps with
  | [] => ret true
  | p :: ps' =>
      r <- Local.remote_write p ;;
      if r then send_all ps' else ret false
  end.

Fixpoint recv_all (junk : list Z) (n : nat) : M rdfd (option (list apacket)) :=
  match n with
  | O => ret (Some [])
  | S n' =>
      r <- Local.remote_read (get_apacket junk) ;;
      match r with
      | None => ret None
      | Some p =>
          rs <- recv_all junk n' ;;
          ret (cons p <$> rs)
      end
  end.

(** ** Lemmas *)

Lemma u32_add_l a b : u32 (u32 a + b) = u32 (a + b).
Proof. unfold u32. by rewrite Z.add_mod_idemp_l. Qed.

Lemma sum_bytes_spec count x s :
  is_u32 s -> (count <= length x)%nat ->
  sum_bytes count x s = Some (u32 (s + foldr Z.add 0 (take count x))).
Proof.
  revert x s. induction count as [|c IH]; intros x s Hs Hl; simpl.
  - rewrite Z.add_0_r. by rewrite u32_id.
  - destruct x as [|b x]; simpl in *; [lia|].
    rewrite IH by (auto with adb lia). rewrite u32_add_l. do 2 f_equal. lia.
Qed.

Lemma sum_bytes_payload p :
  (Z.to_nat (data_length (msg p)) <= length (pk_data p))%nat ->
  sum_bytes (Z.to_nat (data_length (msg p))) (pk_data p) 0 = Some (byte_sum (payload p)).
Proof. intros. by rewrite sum_bytes_spec. Qed.

Lemma msg_bytes_length m : length (msg_bytes m) = sizeof_amessage.
Proof. reflexivity. Qed.

Lemma msg_of_msg_bytes m : msg_ok m -> msg_of_bytes (msg_bytes m) = m.
Proof.
  intros (H0 & H1 & H2 & H3 & H4 & H5). destruct m as [c a0 a1 dl dc mg]; simpl in *.
  unfold msg_of_bytes.
  change (mkMsg (of_le (le32 c)) (of_le (le32 a0)) (of_le (le32 a1)) (of_le (le32 dl))
    (of_le (le32 dc)) (of_le (le32 mg)) = mkMsg c a0 a1 dl dc mg).
  by rewrite !of_le_le32.
Qed.

Lemma msg_of_bytes_ok l : Forall is_byte l -> msg_ok (msg_of_bytes l).
Proof.
  intros Hl.
  assert (forall i, is_u32 (of_le (take 4 (drop i l)))) as Hw.
  { intros i. assert (Forall is_byte (take 4 (drop i l))) as Hb
      by (apply Forall_take, Forall_drop; done).
    pose proof (of_le_range _ Hb) as Hr. rewrite length_take in Hr.
    unfold is_u32, two32. split; [lia|].
    eapply Z.lt_le_trans; [apply Hr|].
    change 4294967296 with (256 ^ 4). apply Z.pow_le_mono_r; lia. }
  unfold msg_ok, msg_of_bytes; simpl. split_and!; apply Hw.
Qed.

(** A packet ready for the wire: what [send_packet] leaves in a packet whose
    payload fits. *)
Definition sendable (q : apacket) : Prop :=
  pkt_ok q /\ data_length (msg q) <= MAX_PAYLOAD /\
  check_header q = true /\ check_data q = Some true.

Lemma data_fits q :
  Z.of_nat (length (pk_data q)) = MAX_PAYLOAD -> data_length (msg q) <= MAX_PAYLOAD ->
  (Z.to_nat (data_length (msg q)) <= length (pk_data q))%nat.
Proof. intros. unfold MAX_PAYLOAD in *. lia. Qed.

Lemma send_packet_fill_sendable p :
  pkt_ok p -> data_length (msg p) <= MAX_PAYLOAD ->
  exists q, send_packet_fill p = Some q /\ sendable q /\
    payload q = payload p /\ command (msg q) = command (msg p) /\
    arg0 (msg q) = arg0 (msg p) /\ arg1 (msg q) = arg1 (msg p) /\
    data_length (msg q) = data_length (msg p).
Proof.
  intros [Hm [Hd Hb]] Hl. unfold send_packet_fill.
  rewrite sum_bytes_payload by (by apply data_fits).
  eexists. split; [done|]. split; [|done].
  destruct Hm as (? & ? & ? & ? & ? & ?).
  split; [split; [|done]|split; [done|split]].
  - unfold msg_ok; simpl. repeat (split; [done||apply u32_range|]). by apply lxor_u32.
  - unfold check_header; simpl. rewrite Z.eqb_refl. simpl.
    destruct (MAX_PAYLOAD <? data_length (msg p)) eqn:E; bools; [lia|done].
  - unfold check_data; simpl. rewrite sum_bytes_payload by (by apply data_fits).
    by rewrite Z.eqb_refl.
Qed.

Lemma wire_prefix q rest :
  sendable q -> wire q ++ rest = msg_bytes (msg q) ++ (payload q ++ rest).
Proof. intros _. unfold wire. by rewrite <- app_assoc. Qed.

Lemma payload_length q :
  sendable q -> length (payload q) = Z.to_nat (data_length (msg q)).
Proof.
  intros ((Hm & Hd & Hb) & Hl & _). unfold payload. rewrite length_take.
  pose proof (data_fits _ Hd Hl). lia.
Qed.

Lemma fill_data_payload l p :
  length l = Z.to_nat (data_length (msg p)) -> payload (fill_data l p) = l.
Proof. intros Hl. unfold payload; simpl. rewrite <- Hl. apply take_app_length. Qed.

Lemma check_header_msg p q : msg p = msg q -> check_header p = check_header q.
Proof. unfold check_header. by intros ->. Qed.

Lemma check_data_payload p :
  (Z.to_nat (data_length (msg p)) <= length (pk_data p))%nat ->
  check_data p = Some (byte_sum (payload p) =? data_check (msg p)).
Proof. intros H. unfold check_data. by rewrite sum_bytes_payload. Qed.

Lemma fill_data_length l p :
  (length l <= length (pk_data p))%nat ->
  length (pk_data (fill_data l p)) = length (pk_data p).
Proof. intros. simpl. rewrite length_app, length_drop. lia. Qed.

Lemma put_data_fits {W} l p (w : W) :
  (length l <= length (pk_data p))%nat -> put_data l p w = Ok (fill_data l p, w).
Proof. intros H. unfold put_data. by rewrite decide_True. Qed.

(** A read that fits the array behaves like the read into a buffer of its own. *)
Lemma read_data_some rd len p s s' l :
  (len <= length (pk_data p))%nat -> rd len s = Ok (Some l, s') -> length l = len ->
  read_data rd len p s = Ok (Some (fill_data l p), s').
Proof.
  intros Hlen E Hl. unfold read_data. rewrite decide_True, (bind_ok _ _ _ _ _ E) by done.
  by rewrite (bind_ok _ _ _ _ _ (put_data_fits l p s' ltac:(lia))).
Qed.

Lemma read_data_none rd len p s s' :
  (len <= length (pk_data p))%nat -> rd len s = Ok (None, s') ->
  read_data rd len p s = Ok (None, s').
Proof.
  intros Hlen E. unfold read_data. by rewrite decide_True, (bind_ok _ _ _ _ _ E).
Qed.

(** Reading the header of [q] followed by a payload [l] of the announced
    length accepts exactly when [l] has the checksum of the header. *)
Lemma local_read_payload q l rest r rs :
  sendable q -> length l = Z.to_nat (data_length (msg q)) ->
  Z.of_nat (length (pk_data r)) = MAX_PAYLOAD -> Forall benign rs ->
  exists rsc r', Forall benign rsc /\
    Local.remote_read r (mkRd (msg_bytes (msg q) ++ l ++ rest) rs) =
      Ok (if byte_sum l =? data_check (msg q) then Some r' else None, mkRd rest rsc) /\
    msg r' = msg q /\ payload r' = l /\ pk_data r' = l ++ drop (length l) (pk_data r).
Proof.
  intros Hq Hl Hr Hrs. pose proof Hq as ((Hm & Hd & Hb) & Hlen & Hch & Hcd).
  destruct (readx_benign sizeof_amessage (mkRd (msg_bytes (msg q) ++ l ++ rest) rs))
    as (sc1 & Hsc1 & E1); [done|].
  cbn [rd_data] in E1. rewrite (read_exact_app _ _ _ (msg_bytes_length _)) in E1; simpl in E1.
  destruct (readx_benign (Z.to_nat (data_length (msg q))) (mkRd (l ++ rest) sc1))
    as (sc2 & Hsc2 & E2); [done|].
  cbn [rd_data] in E2. rewrite (read_exact_app _ _ _ Hl) in E2; simpl in E2.
  set (r1 := set_msg (fun _ => msg q) r).
  exists sc2, (fill_data l r1).
  split; [done|]. unfold Local.remote_read.
  rewrite (bind_ok _ _ _ _ _ E1). rewrite msg_of_msg_bytes by done. fold r1. cbv zeta.
  rewrite (check_header_msg r1 q) by done. rewrite Hch. cbn [negb].
  assert ((length l <= length (pk_data r1))%nat) as Hfit.
  { simpl. unfold MAX_PAYLOAD in *. lia. }
  erewrite bind_ok; [|eapply (read_data_some readx); [simpl in *; lia|exact E2|done]].
  cbv beta iota.
  rewrite check_data_payload.
  2:{ rewrite fill_data_length by done. simpl in *. lia. }
  rewrite fill_data_payload by done. simpl. by destruct (_ =? _).
Qed.

Lemma byte_sum_check q : sendable q -> byte_sum (payload q) = data_check (msg q).
Proof.
  intros ((Hm & Hd & Hb) & Hl & _ & Hc).
  rewrite check_data_payload in Hc by (by apply data_fits). simplify_eq. bools. done.
Qed.

Lemma local_write_sendable q out ws :
  sendable q -> Forall benign ws ->
  exists wsc, Forall benign wsc /\
    Local.remote_write q (mkWr out ws) = Ok (true, mkWr (out ++ wire q) wsc).
Proof.
  intros ((Hm & Hd & Hb) & Hl & _) Hws. unfold Local.remote_write.
  rewrite decide_True by (by apply data_fits).
  destruct (writex_benign (wire q) (mkWr out ws)) as (sc & ? & _ & E); [done|].
  exists sc. split; [done|]. exact E.
Qed.

Lemma byte_sum_update l i b x :
  l !! i = Some b -> byte_sum (<[i := x]> l) = u32 (foldr Z.add 0 l + (x - b)).
Proof.
  intros Hi. unfold byte_sum. f_equal.
  revert i Hi. induction l as [|a l IH]; intros [|i] Hi; simplify_eq/=; [lia|].
  rewrite (IH i Hi). lia.
Qed.

Lemma deref_check_data p (w : rdfd) :
  (Z.to_nat (data_length (msg p)) <= length (pk_data p))%nat ->
  deref (check_data p) w = Ok (byte_sum (payload p) =? data_check (msg p), w).
Proof. intros. by rewrite check_data_payload. Qed.

Lemma readx_bytes len s r s' :
  Forall is_byte (rd_data s) -> readx len s = Ok (r, s') ->
  Forall is_byte (rd_data s') /\
  forall out, r = Some out -> Forall is_byte out /\ length out = len.
Proof.
  intros Hb He. destruct (readx_returns len s) as (r1 & s1 & l & E1 & Hd & Ho).
  rewrite E1 in He. simplify_eq. rewrite Hd in Hb. apply Forall_app in Hb as [Hl Hs].
  split; [done|]. intros out Hr. destruct (Ho _ Hr) as [-> ?]. done.
Qed.

Lemma check_header_spec p :
  check_header p = true <->
  magic (msg p) = Z.lxor (command (msg p)) 0xffffffff /\ data_length (msg p) <= MAX_PAYLOAD.
Proof.
  unfold check_header.
  destruct (magic (msg p) =? Z.lxor (command (msg p)) 0xffffffff) eqn:E1;
    destruct (MAX_PAYLOAD <? data_length (msg p)) eqn:E2; simpl; bools;
    split; intros; try done; lia.
Qed.

(** What the receiver may rely on after a successful read. *)
Definition received_ok (p : apacket) : Prop :=
  msg_ok (msg p) /\ magic (msg p) = Z.lxor (command (msg p)) 0xffffffff /\
  0 <= data_length (msg p) <= MAX_PAYLOAD /\
  Z.of_nat (length (pk_data p)) = MAX_PAYLOAD /\
  data_check (msg p) = byte_sum (payload p).

(** A read of the payload that returns, with the header and the size of the
    array as they were. *)
Definition reads_into (p : apacket) (rd : M rdfd (option apacket)) (s : rdfd) : Prop :=
  exists o s', rd s = Ok (o, s') /\
    forall q, o = Some q -> msg q = msg p /\ length (pk_data q) = length (pk_data p).

(** A function that reads [len] bytes or fails, and returns in any case. *)
Definition whole_read (rd : nat -> M rdfd (option (list Z))) : Prop :=
  forall len s, Forall is_byte (rd_data s) ->
  exists o s', rd len s = Ok (o, s') /\ Forall is_byte (rd_data s') /\
    forall out, o = Some out -> Forall is_byte out /\ length out = len.

Lemma readx_whole : whole_read readx.
Proof.
  intros len s Hs. destruct (readx_returns len s) as (o & s' & _ & E & _).
  exists o, s'. split; [done|]. by apply (readx_bytes len s).
Qed.

Lemma usb_read_whole : whole_read Usb.usb_read.
Proof.
  intros len s Hs. unfold Usb.usb_read. destruct (adb_read len s) as [r s'] eqn:E.
  destruct (adb_read_data _ _ _ _ E) as (l & Hd & _ & Hr).
  rewrite Hd in Hs. apply Forall_app in Hs as [Hl Hs'].
  destruct r as [l'|e]; eexists _, _; (split; [done|]); (split; [done|]); [|done].
  intros out. destruct (decide _); intros [= <-]. by rewrite Hr in *.
Qed.

Lemma read_data_returns rd len p s :
  whole_read rd -> (len <= length (pk_data p))%nat -> Forall is_byte (rd_data s) ->
  reads_into p (read_data rd len p) s.
Proof.
  intros Hrd Hlen Hs. destruct (Hrd len s Hs) as ([l|] & s' & E & _ & Ho).
  - destruct (Ho l eq_refl) as [_ Hl]. exists (Some (fill_data l p)), s'.
    split; [by apply read_data_some|]. intros q [= <-]. split; [done|].
    apply fill_data_length. lia.
  - exists None, s'. split; [by apply read_data_none|done].
Qed.

(** Both forms of [remote_read] after an accepted header. *)
Lemma body_safe p rd s :
  reads_into p rd s -> msg_ok (msg p) -> check_header p = true ->
  Z.of_nat (length (pk_data p)) = MAX_PAYLOAD ->
  exists o s',
    (d <- rd ;;
     match d with
     | None => ret None
     | Some p => ok <- deref (check_data p) ;; ret (if ok : bool then Some p else None)
     end) s = Ok (o, s') /\ forall q, o = Some q -> received_ok q.
Proof.
  intros (o & s' & E & Ho) Hmok Hch Hr. rewrite (bind_ok _ _ _ _ _ E).
  destruct o as [q|]; [|by eexists _, _]. destruct (Ho q eq_refl) as [Hm Hl].
  apply check_header_spec in Hch as [Hmag Hlen].
  erewrite bind_ok; [|apply deref_check_data; rewrite Hm, Hl; unfold MAX_PAYLOAD in *; lia].
  eexists _, _. split; [done|]. intros q'. destruct (_ =? _) eqn:Ec; intros [= <-]; bools.
  unfold received_ok. rewrite Hl, Hm in *. destruct Hmok as (?&?&?&[? ?]&?&?).
  split_and!; done.
Qed.

(** ** Theorems *)

(** C21: framing.  A sequence of packets prepared by [send_packet] and written
    with [remote_write] is read back by as many [remote_read]s, in order, with
    the same headers and payloads and nothing left over, however the kernel
    splits the transfers on either side. *)
Theorem packet_stream_roundtrip ps junk out ws :
  Forall sendable ps -> Z.of_nat (length junk) = MAX_PAYLOAD -> Forall benign ws ->
  (exists wsc, send_all ps (mkWr out ws) =
     Ok (true, mkWr (out ++ concat (wire <$> ps)) wsc)) /\
  forall rest rs, Forall benign rs ->
  exists rsc qs,
    recv_all junk (length ps) (mkRd (concat (wire <$> ps) ++ rest) rs) =
      Ok (Some qs, mkRd rest rsc) /\
    Forall2 (fun p q => msg q = msg p /\ payload q = payload p) ps qs.
Proof.
  intros Hps Hj. revert out ws. induction Hps as [|p ps Hp _ IH]; intros out ws Hws.
  - split; [exists ws; simpl; by rewrite app_nil_r|].
    intros rest rs Hrs. exists rs, []. done.
  - split.
    + destruct (local_write_sendable p out ws Hp Hws) as (wsc & Hwsc & Ew).
      destruct (IH (out ++ wire p) wsc Hwsc) as [[wsc' Es] _].
      exists wsc'. cbn [send_all]. rewrite (bind_ok _ _ _ _ _ Ew), Es.
      simpl. by rewrite <- app_assoc.
    + intros rest rs Hrs. cbn [recv_all length fmap list_fmap concat].
      destruct (local_read_payload p (payload p) (concat (wire <$> ps) ++ rest)
        (get_apacket junk) rs) as (rsc & q & Hrsc & Er & Hq1 & Hq2 & _);
        [done|by apply payload_length|done|done|].
      rewrite byte_sum_check, Z.eqb_refl in Er by done.
      unfold wire at 1. rewrite <- !app_assoc. rewrite (bind_ok _ _ _ _ _ Er).
      destruct (IH out ws Hws) as [_ Hrec].
      destruct (Hrec rest rsc Hrsc) as (rsc' & qs & Eq & HF).
      exists rsc', (q :: qs). rewrite (bind_ok _ _ _ _ _ Eq). auto.
Qed.

(** C22: whatever the other side sends and however the kernel answers, the
    [remote_read] of either transport returns, never asks for or stores more
    payload than the array of the packet holds (which would be [EUndef]), and
    when it accepts a packet, the magic word matches the command, the payload
    length is within MAX_PAYLOAD and the check word is that of the payload. *)
Theorem remote_read_safe r s :
  Z.of_nat (length (pk_data r)) = MAX_PAYLOAD -> Forall is_byte (rd_data s) ->
  (exists o s', Local.remote_read r s = Ok (o, s') /\
     forall p, o = Some p -> received_ok p) /\
  (exists o s', Usb.remote_read r s = Ok (o, s') /\
     forall p, o = Some p -> received_ok p).
Proof.
  intros Hr Hs. split.
  - unfold Local.remote_read.
    destruct (readx_whole sizeof_amessage s Hs) as (o & s1 & E & Hs1 & Ho).
    rewrite (bind_ok _ _ _ _ _ E). destruct o as [hb|]; [|by eexists _, _].
    cbv zeta. destruct (check_header _) eqn:Ech; [|by eexists _, _].
    apply (body_safe (set_msg (fun _ => msg_of_bytes hb) r)); try done; [|apply msg_of_bytes_ok; by apply (Ho hb)].
    apply read_data_returns; [apply readx_whole| |done].
    by apply data_fits; [|apply check_header_spec in Ech as [_ ?]].
  - unfold Usb.remote_read.
    destruct (usb_read_whole sizeof_amessage s Hs) as (o & s1 & E & Hs1 & Ho).
    rewrite (bind_ok _ _ _ _ _ E). destruct o as [hb|]; [|by eexists _, _].
    cbv zeta. destruct (check_header _) eqn:Ech; [|by eexists _, _].
    apply (body_safe (set_msg (fun _ => msg_of_bytes hb) r)); try done; [|apply msg_of_bytes_ok; by apply (Ho hb)].
    case_match; [by eexists _, _; split; [done|]; intros q [= <-]|].
    apply read_data_returns; [apply usb_read_whole| |done].
    by apply data_fits; [|apply check_header_spec in Ech as [_ ?]].
Qed.

(** A packet one payload byte of which was changed in transit is rejected,
    and so is one whose command word no longer matches its magic word; the
    payload of the latter is not even read. *)
Theorem corrupt_packet_rejected q r rest rs :
  sendable q -> Z.of_nat (length (pk_data r)) = MAX_PAYLOAD -> Forall benign rs ->
  (forall i b x, payload q !! i = Some b -> is_byte b -> is_byte x -> x <> b ->
   exists rsc, Local.remote_read r
     (mkRd (msg_bytes (msg q) ++ <[i := x]> (payload q) ++ rest) rs) = Ok (None, mkRd rest rsc)) /\
  (forall m, msg_ok m -> magic m <> Z.lxor (command m) 0xffffffff ->
   exists rsc, Local.remote_read r (mkRd (msg_bytes m ++ rest) rs) = Ok (None, mkRd rest rsc)).
Proof.
  intros Hq Hr Hrs. split.
  - intros i b x Hi Hb Hx Hne.
    destruct (local_read_payload q (<[i := x]> (payload q)) rest r rs)
      as (rsc & r' & _ & E & _); [done|rewrite length_insert; by apply payload_length|done|done|].
    exists rsc. rewrite E. rewrite <- (byte_sum_check q Hq).
    rewrite (byte_sum_update _ _ _ _ Hi). unfold byte_sum.
    rewrite (proj2 (Z.eqb_neq _ _)); [done|].
    unfold u32, two32, is_byte in *. zdiv.
  - intros m Hm Hmag. unfold Local.remote_read.
    destruct (readx_benign sizeof_amessage (mkRd (msg_bytes m ++ rest) rs))
      as (sc1 & _ & E1); [done|]. cbn [rd_data] in E1.
    rewrite (read_exact_app _ _ _ (msg_bytes_length _)) in E1. cbn [fst snd] in E1.
    rewrite (bind_ok _ _ _ _ _ E1), msg_of_msg_bytes by done. cbv zeta.
    destruct (check_header _) eqn:Ech; [|by exists sc1].
    by apply check_header_spec in Ech as [? _].
Qed.

(** The check word is the sum of the payload's bytes, not a CRC: a packet
    whose payload bytes were reordered is accepted as if it were intact. *)
Theorem reordered_payload_accepted q l r rest rs :
  sendable q -> l ≡ₚ payload q ->
  Z.of_nat (length (pk_data r)) = MAX_PAYLOAD -> Forall benign rs ->
  exists rsc r', Local.remote_read r (mkRd (msg_bytes (msg q) ++ l ++ rest) rs) =
    Ok (Some r', mkRd rest rsc) /\ msg r' = msg q /\ payload r' = l.
Proof.
  intros Hq Hp Hr Hrs.
  destruct (local_read_payload q l rest r rs) as (rsc & r' & _ & E & Hm & Hl & _);
    [done|rewrite Hp; by apply payload_length|done|done|].
  exists rsc, r'. rewrite E.
  assert (byte_sum l = byte_sum (payload q)) as ->.
  { unfold byte_sum. f_equal. clear -Hp. induction Hp; simpl; lia. }
  by rewrite byte_sum_check, Z.eqb_refl by done.
Qed.

(** ** A concrete packet *)

Definition demo_junk : list Z := replicate (Z.to_nat MAX_PAYLOAD) 170.

Definition demo_pkt : apacket :=
  mkPkt 0 0 (mkMsg A_WRTE 1 2 3 6 (Z.lxor A_WRTE 0xffffffff))
    ([1; 2; 3] ++ replicate (Z.to_nat 4093) 0).

Lemma demo_pkt_sendable : sendable demo_pkt.
Proof.
  split; [split; [|split]|split_and!]; try by vm_compute.
  apply Forall_app. split; [repeat constructor; done|]. by apply Forall_replicate.
Qed.

Lemma packet_stream_roundtrip_witness :
  exists rsc qs, recv_all demo_junk 2 (mkRd (concat (wire <$> [demo_pkt; demo_pkt]) ++ [7])
      [UpTo 4; IoErr EINTR; UpTo 0]) = Ok (Some qs, mkRd [7] rsc) /\
    Forall2 (fun p q => msg q = msg p /\ payload q = payload p) [demo_pkt; demo_pkt] qs.
Proof.
  destruct (packet_stream_roundtrip [demo_pkt; demo_pkt] demo_junk [] []) as [_ H].
  - apply (Forall_replicate _ 2), demo_pkt_sendable.
  - by vm_compute.
  - constructor.
  - apply (H [7] [UpTo 4; IoErr EINTR; UpTo 0]). repeat constructor.
Defined.

Lemma remote_read_safe_witness :
  exists o s', Local.remote_read (get_apacket demo_junk)
      (mkRd (msg_bytes (mkMsg A_WRTE 1 2 4097 6 (Z.lxor A_WRTE 0xffffffff)) ++ [1; 2; 3]) [IoZero]) =
      Ok (o, s') /\ forall p, o = Some p -> received_ok p.
Proof.
  apply remote_read_safe; [by vm_compute|].
  apply Forall_app; split; [|repeat constructor; done]. vm_compute. repeat constructor; done.
Defined.

Lemma corrupt_packet_rejected_witness :
  exists rsc, Local.remote_read (get_apacket demo_junk)
    (mkRd (msg_bytes (msg demo_pkt) ++ [1; 9; 3] ++ []) []) = Ok (None, mkRd [] rsc).
Proof.
  destruct (corrupt_packet_rejected demo_pkt (get_apacket demo_junk) [] [] demo_pkt_sendable)
    as [H _]; [by vm_compute|constructor|].
  apply (H 1%nat 2 9); [by vm_compute|done|done|done].
Defined.

Lemma reordered_payload_accepted_witness :
  exists rsc r', Local.remote_read (get_apacket demo_junk)
    (mkRd (msg_bytes (msg demo_pkt) ++ [2; 1; 3] ++ []) []) = Ok (Some r', mkRd [] rsc) /\
    msg r' = msg demo_pkt /\ payload r' = [2; 1; 3].
Proof.
  apply reordered_payload_accepted; [apply demo_pkt_sendable| |by vm_compute|constructor].
  change (payload demo_pkt) with [1; 2; 3]. constructor.
Defined.
