(* ===== verification/UsbHost.v ===== *)
(** * USB devices of the host (usb_linux.c, usb_vendors.c, transport_usb.c)

    A thread of the server looks at the device files of all USB devices once a
    second.  From the descriptors it tells which devices have an interface of the
    debug bridge; it opens those it does not know, registers a transport for each,
    and kicks the ones that are gone.  Packets are transferred by requests to the
    kernel (URBs), which a reader and a writer wait for.

    Handles are nodes of a ring with its head at the address 0.  What the scan sees
    of the kernel (directories, files, answers to control requests) is an
    argument; the requests, the wakes of waiting threads and what other threads
    change meanwhile are scripts. *)

From S2P Require Import Prelude Ring Io.

(** ** Vendors *)

Definition builtInVendorIds : list Z :=
  [0x18d1; 0x0bb4; 0x04e8; 0x22b8; 0x1004; 0x12D1; 0x0502; 0x0FCE; 0x0489; 0x413c; 0x0955; 0x091E; 0x04dd; 0x19D2; 0x0482; 0x10A9].

Definition VENDOR_COUNT_MAX : nat := 128.
Definition INI_PATH_MAX : nat := 4096.

(** [build_path] and [get_adb_usb_ini]: [None] when the path does not fit. *)
Definition build_path (len : nat) (home : list Z) : option (list Z) :=
  let path := home ++ bs "/" ++ bs ".android" ++ bs "/" ++ bs "adb_usb.ini" in
  if (len <=? length path)%nat then None else Some path.

Definition get_adb_usb_ini (home : option (list Z)) (len : nat) : option (list Z) := build_path len (default (bs "/tmp") home).

(** [strtol(s, NULL, 0)]; [None] sets [ERANGE]. *)
Fixpoint scan_base (base : Z) (s : list Z) (n : Z) : Z :=
  match s with
  | c :: s =>
      match hexval c with
      | Some v => if v <? base then scan_base base s (base * n + v) else n
      | None => n
      end
  | [] => n
  end.

Definition strtol0 (s : list Z) : option Z :=
  let '(sign, s) := match skip_space s with
                    | c :: s' => if c =? 45 then (-1, s') else if c =? 43 then (1, s') else (1, c :: s')
                    | [] => (1, [])
                    end in
  let n := match s with
           | z :: x :: s' =>
               if (z =? 48) && ((x =? 120) || (x =? 88)) then scan_base 16 s' 0
               else if z =? 48 then scan_base 8 s 0 else scan_base 10 s 0
           | _ => scan_base 10 s 0
           end in
  let v := sign * n in
  if (- 2 ^ 63 <=? v) && (v <? 2 ^ 63) then Some v else None.

(** What [fgets] returns of a file, one call after the other. *)
Fixpoint fgets_lines (room : nat) (line file : list Z) : list (list Z) :=
  match file with
  | [] => match line with [] => [] | _ => [line] end
  | c :: file =>
      match room with
      | S (S r) => if c =? 10 then (line ++ [c]) :: fgets_lines (INI_PATH_MAX - 1) [] file else fgets_lines (S r) (line ++ [c]) file
      | _ => (line ++ [c]) :: fgets_lines (INI_PATH_MAX - 1) [] file
      end
  end.

(** [stale]: [errno] is [EINVAL] or [ERANGE] before the first line is read. *)
Fixpoint read_vendors (stale : bool) (lines : list (list Z)) (vendorIds : list Z) : result (list Z) :=
  match lines with
  | [] => Ok vendorIds
  | temp :: lines =>
      if (match temp with c :: _ => c =? 35 | [] => false end) then read_vendors stale lines vendorIds
      else match strtol0 (cstr temp) with
           | None => Err EFatal
           | Some value =>
               if stale || (2 ^ 31 - 1 <? value) || (value <? 0) then Err EFatal
               else
                 let vendorIds := vendorIds ++ [value] in
                 if (length vendorIds =? VENDOR_COUNT_MAX)%nat then Ok vendorIds else read_vendors stale lines vendorIds
           end
  end.

(** The ids of the vendors, given [HOME], the files that can be opened, and
    [errno]. *)
Definition usb_vendors_init (home : option (list Z)) (fopen : list Z -> option (list Z)) (stale : bool) : result (list Z) :=
  match get_adb_usb_ini home INI_PATH_MAX with
  | None => Ok builtInVendorIds
  | Some path =>
      match fopen path with
      | None => Ok builtInVendorIds
      | Some file => read_vendors stale (fgets_lines (INI_PATH_MAX - 1) [] file) builtInVendorIds
      end
  end.

Definition ADB_CLASS : Z := 0xff.
Definition ADB_SUBCLASS : Z := 0x42.
Definition ADB_PROTOCOL : Z := 0x1.

Fixpoint is_adb_interface (vendorIds : list Z) (vid usb_class usb_subclass usb_protocol : Z) : bool :=
  match vendorIds with
  | [] => false
  | v :: vs =>
      if vid =? v then (usb_class =? ADB_CLASS) && (usb_subclass =? ADB_SUBCLASS) && (usb_protocol =? ADB_PROTOCOL)
      else is_adb_interface vs vid usb_class usb_subclass usb_protocol
  end.

(** ** Handles *)

Record handle := mkHandle {
  h_fname : list Z;
  h_desc : Z;
  h_ep_in : Z;
  h_ep_out : Z;
  h_zero_mask : Z;
  h_writeable : bool;
  h_in_busy : bool;
  h_out_busy : bool;
  h_in_status : Z;
  h_out_status : Z;
  h_dead : bool;
  h_mark : bool;
}.

Definition set_mark b h := mkHandle (h_fname h) (h_desc h) (h_ep_in h) (h_ep_out h) (h_zero_mask h) (h_writeable h) (h_in_busy h) (h_out_busy h) (h_in_status h) (h_out_status h) (h_dead h) b.
Definition set_dead b h := mkHandle (h_fname h) (h_desc h) (h_ep_in h) (h_ep_out h) (h_zero_mask h) (h_writeable h) (h_in_busy h) (h_out_busy h) (h_in_status h) (h_out_status h) b (h_mark h).
Definition set_in busy st h := mkHandle (h_fname h) (h_desc h) (h_ep_in h) (h_ep_out h) (h_zero_mask h) (h_writeable h) busy (h_out_busy h) st (h_out_status h) (h_dead h) (h_mark h).
Definition set_out busy st h := mkHandle (h_fname h) (h_desc h) (h_ep_in h) (h_ep_out h) (h_zero_mask h) (h_writeable h) (h_in_busy h) busy (h_in_status h) st (h_dead h) (h_mark h).

(** What the code does to the rest of the server and to other threads. *)
Inductive ucall :=
| RegisterTransport (h : Z) (serial : list Z) (writeable : bool)
| UnregisterTransport (h : Z)
| Discard (h : Z)
| Broadcast (h : Z).

(** What has happened when a wait for the end of a write returns [wk_res]: the
    handle was kicked, or the transfer ended with a status and a length. *)
Record wake := mkWake { wk_res : Z; wk_dead : bool; wk_done : option (Z * Z) }.

(** What [USBDEVFS_REAPURB] returns, and whether the handle has been kicked. *)
Inductive reap :=
| ReapFailed (e : errno) (dead : bool)
| ReapIn (status : Z) (data : list Z) (dead : bool)
| ReapOut (status : Z) (dead : bool).

(** [u_locked] is [usb_lock]; [u_submit], [u_wakes] and [u_reaps] are the answers to
    [USBDEVFS_SUBMITURB], [pthread_cond_timedwait] and [USBDEVFS_REAPURB], in order;
    [u_urbs] are the data of the requests made, with their endpoints. *)
Record usb := mkUsb {
  u_handles : gmap Z handle;
  u_links : gmap Z (Z * Z);
  u_next : Z;
  u_locked : bool;
  u_closed : list Z;
  u_calls : list ucall;
  u_errno : errno;
  u_submit : list (option errno);
  u_wakes : list wake;
  u_reaps : list reap;
  u_urbs : list (Z * list Z);
}.

Definition upd_handles f u := mkUsb (f (u_handles u)) (u_links u) (u_next u) (u_locked u) (u_closed u) (u_calls u) (u_errno u) (u_submit u) (u_wakes u) (u_reaps u) (u_urbs u).
Definition upd_links f u := mkUsb (u_handles u) (f (u_links u)) (u_next u) (u_locked u) (u_closed u) (u_calls u) (u_errno u) (u_submit u) (u_wakes u) (u_reaps u) (u_urbs u).
Definition upd_next f u := mkUsb (u_handles u) (u_links u) (f (u_next u)) (u_locked u) (u_closed u) (u_calls u) (u_errno u) (u_submit u) (u_wakes u) (u_reaps u) (u_urbs u).
Definition upd_locked f u := mkUsb (u_handles u) (u_links u) (u_next u) (f (u_locked u)) (u_closed u) (u_calls u) (u_errno u) (u_submit u) (u_wakes u) (u_reaps u) (u_urbs u).
Definition upd_closed f u := mkUsb (u_handles u) (u_links u) (u_next u) (u_locked u) (f (u_closed u)) (u_calls u) (u_errno u) (u_submit u) (u_wakes u) (u_reaps u) (u_urbs u).
Definition upd_calls f u := mkUsb (u_handles u) (u_links u) (u_next u) (u_locked u) (u_closed u) (f (u_calls u)) (u_errno u) (u_submit u) (u_wakes u) (u_reaps u) (u_urbs u).
Definition upd_errno f u := mkUsb (u_handles u) (u_links u) (u_next u) (u_locked u) (u_closed u) (u_calls u) (f (u_errno u)) (u_submit u) (u_wakes u) (u_reaps u) (u_urbs u).
Definition upd_submit f u := mkUsb (u_handles u) (u_links u) (u_next u) (u_locked u) (u_closed u) (u_calls u) (u_errno u) (f (u_submit u)) (u_wakes u) (u_reaps u) (u_urbs u).
Definition upd_wakes f u := mkUsb (u_handles u) (u_links u) (u_next u) (u_locked u) (u_closed u) (u_calls u) (u_errno u) (u_submit u) (f (u_wakes u)) (u_reaps u) (u_urbs u).
Definition upd_reaps f u := mkUsb (u_handles u) (u_links u) (u_next u) (u_locked u) (u_closed u) (u_calls u) (u_errno u) (u_submit u) (u_wakes u) (f (u_reaps u)) (u_urbs u).
Definition upd_urbs f u := mkUsb (u_handles u) (u_links u) (u_next u) (u_locked u) (u_closed u) (u_calls u) (u_errno u) (u_submit u) (u_wakes u) (u_reaps u) (f (u_urbs u)).

Definition U := M usb.

Definition lock_usb : U unit := u <- get ;; if u_locked u then fail EDeadlock else modify (upd_locked (fun _ => true)).
Definition unlock_usb : U unit := modify (upd_locked (fun _ => false)).
Definition handle_at (a : Z) : U handle := u <- get ;; deref (u_handles u !! a).
Definition set_handle (a : Z) (h : handle) : U unit := modify (upd_handles <[a := h]>).
Definition ucall_log (c : ucall) : U unit := modify (upd_calls (fun l => l ++ [c])).
Definition u_close (fd : Z) : U unit := modify (upd_closed (fun l => l ++ [fd])).
Definition next_of (a : Z) : U Z := u <- get ;; deref (nxt (u_links u) a).
Definition prev_of (a : Z) : U Z := u <- get ;; deref (prv (u_links u) a).
Definition set_next_of (a v : Z) : U unit := u <- get ;; _ <- deref (u_links u !! a) ;; modify (upd_links (put_next a v)).
Definition set_prev_of (a v : Z) : U unit := u <- get ;; _ <- deref (u_links u !! a) ;; modify (upd_links (put_prev a v)).

(** ** The list of devices *)

(** The loops over the list go from a node to the head; every node is visited
    once. *)
Fixpoint find_name (fuel : nat) (a : Z) (dev_name : list Z) : U (option Z) :=
  if a =? 0 then ret None
  else match fuel with
       | O => fail EFuel
       | S f =>
           h <- handle_at a ;;
           if streq (h_fname h) dev_name then ret (Some a) else n <- next_of a ;; find_name f n dev_name
       end.

Definition find_handle (dev_name : list Z) : U (option Z) :=
  u <- get ;; n <- next_of 0 ;; find_name (size (u_links u)) n dev_name.

Definition known_device (dev_name : list Z) : U bool :=
  lock_usb ;;
  o <- find_handle dev_name ;;
  match o with
  | Some a => h <- handle_at a ;; set_handle a (set_mark true h) ;; unlock_usb ;; ret true
  | None => unlock_usb ;; ret false
  end.

Definition ENODEV : Z := 19.

(** The signal that wakes a reader blocked in the kernel is left out. *)
Definition usb_kick (a : Z) : U unit :=
  h <- handle_at a ;;
  if h_dead h then ret tt
  else
    let h := set_dead true h in
    if h_writeable h then
      ucall_log (Discard a) ;;
      set_handle a (set_out false (- ENODEV) (set_in false (- ENODEV) h)) ;;
      ucall_log (Broadcast a)
    else
      set_handle a h ;;
      ucall_log (UnregisterTransport a).

Fixpoint kick_loop (fuel : nat) (a : Z) : U unit :=
  if a =? 0 then ret tt
  else match fuel with
       | O => fail EFuel
       | S f =>
           h <- handle_at a ;;
           (if h_mark h then set_handle a (set_mark false h) else usb_kick a) ;;
           n <- next_of a ;;
           kick_loop f n
       end.

Definition kick_disconnected_devices : U unit :=
  lock_usb ;;
  u <- get ;;
  n <- next_of 0 ;;
  kick_loop (size (u_links u)) n ;;
  unlock_usb.

Definition usb_close (a : Z) : U Z :=
  lock_usb ;;
  n <- next_of a ;; p <- prev_of a ;; set_prev_of n p ;;
  p <- prev_of a ;; n <- next_of a ;; set_next_of p n ;;
  h <- handle_at a ;;
  u_close (h_desc h) ;;
  unlock_usb ;;
  modify (fun u => upd_handles (delete a) (upd_links (delete a) u)) ;;
  ret 0.

(** ** Descriptors *)

Definition USB_DT_DEVICE : Z := 1.
Definition USB_DT_CONFIG : Z := 2.
Definition USB_DT_STRING : Z := 3.
Definition USB_DT_INTERFACE : Z := 4.
Definition USB_DT_ENDPOINT : Z := 5.
Definition USB_DT_DEVICE_SIZE : Z := 18.
Definition USB_DT_CONFIG_SIZE : Z := 9.
Definition USB_DT_INTERFACE_SIZE : Z := 9.
Definition USB_DT_ENDPOINT_SIZE : Z := 7.
Definition USB_ENDPOINT_XFER_BULK : Z := 2.
Definition USB_ENDPOINT_DIR_MASK : Z := 0x80.

(** What is passed to [register_device] besides the name. *)
Record adb_device := mkDevice { d_ep_in : Z; d_ep_out : Z; d_interface : Z; d_serial_index : Z; d_zero_mask : Z }.

(** A byte of the array [devdesc]. *)
Definition byte {W} (devdesc : list Z) (i : Z) : M W Z := deref (if i <? 0 then None else devdesc !! Z.to_nat i).

Definition le16 (lo hi : Z) : Z := lo + 256 * hi.

(** The two descriptors at [at_] are bulk endpoints: [None] when they are not
    endpoints, [Some false] when they are not for bulk transfers. *)
Definition bulk_endpoints {W} (devdesc : list Z) (desclength at_ : Z) : M W (option bool) :=
  if desclength <? at_ + 2 * USB_DT_ENDPOINT_SIZE then ret None
  else
    l1 <- byte devdesc at_ ;; t1 <- byte devdesc (at_ + 1) ;; a1 <- byte devdesc (at_ + 3) ;;
    l2 <- byte devdesc (at_ + 7) ;; t2 <- byte devdesc (at_ + 8) ;; a2 <- byte devdesc (at_ + 10) ;;
    if negb (l1 =? USB_DT_ENDPOINT_SIZE) || negb (t1 =? USB_DT_ENDPOINT) || negb (l2 =? USB_DT_ENDPOINT_SIZE) || negb (t2 =? USB_DT_ENDPOINT) then ret None
    else ret (Some ((a1 =? USB_ENDPOINT_XFER_BULK) && (a2 =? USB_ENDPOINT_XFER_BULK))).

(** The endpoints at [at_] of the interface at [ifc]. *)
Definition endpoints {W} (devdesc : list Z) (ifc at_ : Z) : M W adb_device :=
  number <- byte devdesc (ifc + 2) ;;
  protocol <- byte devdesc (ifc + 7) ;;
  e1 <- byte devdesc (at_ + 2) ;; lo <- byte devdesc (at_ + 4) ;; hi <- byte devdesc (at_ + 5) ;;
  e2 <- byte devdesc (at_ + 9) ;;
  serial <- byte devdesc 16 ;;
  let zero_mask := if protocol =? 1 then u32 (le16 lo hi - 1) else 0 in
  ret (if negb (Z.land e1 USB_ENDPOINT_DIR_MASK =? 0) then mkDevice e1 e2 number serial zero_mask else mkDevice e2 e1 number serial zero_mask).

(** The loop over the descriptors, from [bufptr] to [bufend]. *)
Fixpoint scan_descriptors {W} (fuel : nat) (vendorIds devdesc : list Z) (vid bufend bufptr : Z) : M W (option adb_device) :=
  if bufptr <? bufend then
    match fuel with
    | O => fail EFuel
    | S f =>
        length <- byte devdesc bufptr ;;
        type <- byte devdesc (bufptr + 1) ;;
        if type =? USB_DT_INTERFACE then
          if negb (length =? USB_DT_INTERFACE_SIZE) then ret None
          else
            n <- byte devdesc (bufptr + 4) ;;
            adb <- (if n =? 2 then
                      c <- byte devdesc (bufptr + 5) ;; s <- byte devdesc (bufptr + 6) ;; p <- byte devdesc (bufptr + 7) ;;
                      ret (is_adb_interface vendorIds vid c s p)
                    else ret false) ;;
            if adb : bool then
              bulk <- bulk_endpoints devdesc bufend (bufptr + length) ;;
              match bulk with
              | None => ret None
              | Some false => scan_descriptors f vendorIds devdesc vid bufend (bufptr + length + 2 * USB_DT_ENDPOINT_SIZE)
              | Some true => d <- endpoints devdesc bufptr (bufptr + length) ;; ret (Some d)
              end
            else scan_descriptors f vendorIds devdesc vid bufend (bufptr + length)
        else scan_descriptors f vendorIds devdesc vid bufend (bufptr + length)
    end
  else ret None.

(** One device: [desclength] bytes of [devdesc] were read, a negative number when
    reading failed, which the comparison of unsigned numbers lets pass. *)
Definition scan_device {W} (vendorIds devdesc : list Z) (desclength : Z) : M W (option adb_device) :=
  if (0 <=? desclength) && (desclength <? USB_DT_DEVICE_SIZE + USB_DT_CONFIG_SIZE) then ret None
  else
    l <- byte devdesc 0 ;; t <- byte devdesc 1 ;;
    if negb (l =? USB_DT_DEVICE_SIZE) || negb (t =? USB_DT_DEVICE) then ret None
    else
      lo <- byte devdesc 8 ;; hi <- byte devdesc 9 ;;
      l <- byte devdesc 18 ;; t <- byte devdesc 19 ;;
      if negb (l =? USB_DT_CONFIG_SIZE) || negb (t =? USB_DT_CONFIG) then ret None
      else scan_descriptors (length devdesc) vendorIds devdesc (le16 lo hi) desclength (USB_DT_DEVICE_SIZE + USB_DT_CONFIG_SIZE).

(** ** Registering a device *)

(** The kernel's view of the devices during a scan.  [k_dir] lists a directory;
    [k_descriptors] is what reading a device file opened for reading returns,
    [None] when it cannot be opened, and a failed read inside; [k_rdwr] and [k_rdonly]
    open a device; [k_claim] is the result of claiming an interface; [k_string]
    the answer to a request for a string descriptor: its length and its 16-bit
    words.  [k_stack] is what the array for the descriptors holds before. *)
Record kernel := mkKernel {
  k_dir : list Z -> option (list (list Z));
  k_descriptors : list Z -> option (option (list Z));
  k_rdwr : list Z -> option Z;
  k_rdonly : list Z -> option Z;
  k_claim : list Z -> Z -> Z;
  k_string : list Z -> Z -> Z -> Z * list Z;
  k_stack : list Z;
}.

(** [wValue] and [wIndex] of the requests. *)
Definition string_request (index : Z) : Z := Z.lor (Z.shiftl USB_DT_STRING 8) index.

(** The words after the first, as bytes. *)
Definition serial_of (result : Z) (buffer : list Z) : list Z :=
  cstr ((fun w => w mod 256) <$> drop 1 (take (Z.to_nat (result / 2)) buffer)).

(** The loop over the languages: the first answer is used. *)
Fixpoint read_serial (k : kernel) (name : list Z) (serial_index : Z) (languages : list Z) : list Z :=
  match languages with
  | [] => []
  | lang :: languages =>
      let '(result, buffer) := k_string k name (string_request serial_index) lang in
      if 0 <? result then serial_of result buffer else read_serial k name serial_index languages
  end.

Definition device_serial (k : kernel) (name : list Z) (serial_index : Z) : list Z :=
  if serial_index =? 0 then []
  else
    let '(result, languages) := k_string k name (string_request 0) 0 in
    let languageCount := if 0 <? result then Z.quot (result - 2) 2 else 0 in
    read_serial k name serial_index (take (Z.to_nat languageCount) (drop 1 languages)).

Definition new_handle (name : list Z) (d : adb_device) (desc : Z) (writeable : bool) : handle :=
  mkHandle name desc (d_ep_in d) (d_ep_out d) (d_zero_mask d) writeable false false 0 0 false true.

(** The descriptor and whether it can be written; [None] is [goto fail], which
    closes the descriptor if there is one. *)
Definition open_device (k : kernel) (name : list Z) (interface : Z) : U (option (Z * bool)) :=
  match k_rdwr k name with
  | None => ret ((fun fd => (fd, false)) <$> k_rdonly k name)
  | Some fd => if k_claim k name interface =? 0 then ret (Some (fd, true)) else u_close fd ;; ret None
  end.

Definition register_device (k : kernel) (dev_name : list Z) (d : adb_device) : U unit :=
  lock_usb ;;
  o <- find_handle dev_name ;;
  unlock_usb ;;
  match o with
  | Some _ => ret tt
  | None =>
      r <- open_device k dev_name (d_interface d) ;;
      match r with
      | None => ret tt
      | Some (desc, writeable) =>
          u <- get ;;
          let a := u_next u in
          modify (upd_next (fun n => n + 1)) ;;
          set_handle a (new_handle dev_name d desc writeable) ;;
          modify (upd_links <[a := (0, 0)]>) ;;
          let serial := device_serial k dev_name (d_serial_index d) in
          lock_usb ;;
          set_next_of a 0 ;;
          p <- prev_of 0 ;; set_prev_of a p ;;
          p <- prev_of a ;; set_next_of p a ;;
          n <- next_of a ;; set_prev_of n a ;;
          unlock_usb ;;
          ucall_log (RegisterTransport a serial writeable)
      end
  end.

(** ** The scan *)

Definition badname (name : list Z) : bool := negb (forallb isdigit name).

(** The array and [desclength] after the read. *)
Definition read_descriptors (k : kernel) (r : option (list Z)) : list Z * Z :=
  match r with
  | Some l => let l := take 256 l in (l ++ drop (length l) (k_stack k), Z.of_nat (length l))
  | None => (k_stack k, -1)
  end.

(** One entry of a bus directory. *)
Definition scan_entry (k : kernel) (vendorIds busname entry : list Z) : U unit :=
  if badname entry then ret tt
  else
    let devname := snprintf 32 (busname ++ bs "/" ++ entry) in
    known <- known_device devname ;;
    if known : bool then ret tt
    else match k_descriptors k devname with
         | None => ret tt
         | Some r =>
             let '(devdesc, desclength) := read_descriptors k r in
             d <- scan_device vendorIds devdesc desclength ;;
             match d with
             | Some d => register_device k devname d
             | None => ret tt
             end
         end.

Fixpoint scan_bus (k : kernel) (vendorIds busname : list Z) (entries : list (list Z)) : U unit :=
  match entries with
  | [] => ret tt
  | e :: entries => scan_entry k vendorIds busname e ;; scan_bus k vendorIds busname entries
  end.

Fixpoint scan_buses (k : kernel) (vendorIds base : list Z) (entries : list (list Z)) : U unit :=
  match entries with
  | [] => ret tt
  | e :: entries =>
      (if badname e then ret tt
       else
         let busname := snprintf 32 (base ++ bs "/" ++ e) in
         match k_dir k busname with
         | None => ret tt
         | Some devices => scan_bus k vendorIds busname devices
         end) ;;
      scan_buses k vendorIds base entries
  end.

Definition find_usb_device (k : kernel) (vendorIds base : list Z) : U unit :=
  match k_dir k base with
  | None => ret tt
  | Some buses => scan_buses k vendorIds base buses
  end.

(** One round of [device_poll_thread]. *)
Definition poll_round (k : kernel) (vendorIds : list Z) : U unit :=
  find_usb_device k vendorIds (bs "/dev/bus/usb") ;; kick_disconnected_devices.

(** ** Transfers *)

(** The request is repeated while it is interrupted; no answer left is success. *)
Fixpoint submit_loop (answers : list (option errno)) : U bool :=
  match answers with
  | [] => modify (upd_submit (fun _ => [])) ;; ret true
  | None :: l => modify (upd_submit (fun _ => l)) ;; ret true
  | Some e :: l =>
      modify (upd_errno (fun _ => e)) ;;
      if decide (e = EINTR) then submit_loop l else modify (upd_submit (fun _ => l)) ;; ret false
  end.

Definition submit_urb (ep : Z) (data : list Z) : U bool :=
  u <- get ;;
  ok <- submit_loop (u_submit u) ;;
  when ok (modify (upd_urbs (fun l => l ++ [(ep, data)]))) ;;
  ret ok.

(** The wait for the end of a write. *)
Definition woken (w : wake) (h : handle) : handle :=
  let h := match wk_done w with Some (st, _) => set_out false st h | None => h end in
  if wk_dead w then set_dead true h else h.

Fixpoint wait_loop (wakes : list wake) (a : Z) : U Z :=
  match wakes with
  | [] => fail EFuel
  | w :: wakes =>
      modify (upd_wakes (fun _ => wakes)) ;;
      h <- handle_at a ;;
      let h := woken w h in
      set_handle a h ;;
      let res := wk_res w in
      if (res <? 0) || h_dead h then ret res
      else if negb (h_out_busy h) then
        ret (if h_out_status h =? 0 then match wk_done w with Some (_, actual) => actual | None => res end else res)
      else wait_loop wakes a
  end.

Definition usb_bulk_write (a : Z) (data : list Z) : U Z :=
  h <- handle_at a ;;
  set_handle a (set_out (h_out_busy h) (-1) h) ;;
  if h_dead h then ret (-1)
  else
    ok <- submit_urb (h_ep_out h) data ;;
    if negb ok then ret (-1)
    else
      h <- handle_at a ;;
      set_handle a (set_out true (h_out_status h) h) ;;
      u <- get ;;
      wait_loop (u_wakes u) a.

(** The wait for the end of a read: the result and the data. *)
Definition reap_dead (r : reap) : bool := match r with ReapFailed _ d | ReapIn _ _ d | ReapOut _ d => d end.

Fixpoint reap_loop (reaps : list reap) (a : Z) (len : nat) : U (Z * list Z) :=
  match reaps with
  | [] => fail EFuel
  | r :: reaps =>
      modify (upd_reaps (fun _ => reaps)) ;;
      h <- handle_at a ;;
      when (reap_dead r) (set_handle a (set_dead true h)) ;;
      match r with ReapFailed e _ => modify (upd_errno (fun _ => e)) | _ => ret tt end ;;
      if h_dead h || reap_dead r then ret (-1, [])
      else match r with
           | ReapFailed e _ => if decide (e = EINTR) then reap_loop reaps a len else ret (-1, [])
           | ReapIn status data _ =>
               set_handle a (set_in false status h) ;;
               let data := take len data in
               ret (if status =? 0 then (Z.of_nat (length data), data) else (-1, []))
           | ReapOut status _ =>
               set_handle a (set_out false status h) ;;
               ucall_log (Broadcast a) ;;
               reap_loop reaps a len
           end
  end.

Definition usb_bulk_read (a : Z) (len : nat) : U (Z * list Z) :=
  h <- handle_at a ;;
  set_handle a (set_in (h_in_busy h) (-1) h) ;;
  if h_dead h then ret (-1, [])
  else
    ok <- submit_urb (h_ep_in h) [] ;;
    if negb ok then ret (-1, [])
    else
      h <- handle_at a ;;
      set_handle a (set_in true (h_in_status h) h) ;;
      u <- get ;;
      reap_loop (u_reaps u) a len.

Definition XFER : nat := 4096.

(** The chunks of the data; the length is enough fuel. *)
Fixpoint write_chunks (fuel : nat) (a : Z) (data : list Z) : U bool :=
  match data with
  | [] => ret true
  | _ =>
      match fuel with
      | O => fail EFuel
      | S f =>
          let xfer := take XFER data in
          n <- usb_bulk_write a xfer ;;
          if n =? Z.of_nat (length xfer) then write_chunks f a (drop XFER data) else ret false
      end
  end.

Definition usb_write (a : Z) (data : list Z) : U Z :=
  h <- handle_at a ;;
  let need_zero := negb (h_zero_mask h =? 0) && (Z.land (Z.of_nat (length data)) (h_zero_mask h) =? 0) in
  ok <- write_chunks (length data) a data ;;
  if negb ok then ret (-1) else if need_zero then usb_bulk_write a [] else ret 0.

Definition ETIMEDOUT : errno := EOTHER 110.

(** [len] bytes in chunks; the bytes read so far are [acc].  Every round that goes
    on uses up an answer of the kernel, unless the handle is dead and [errno] is
    [ETIMEDOUT]. *)
Fixpoint usb_read_loop (fuel : nat) (a : Z) (len : nat) (acc : list Z) : U (option (list Z)) :=
  match len with
  | O => ret (Some acc)
  | _ =>
      match fuel with
      | O => fail EFuel
      | S f =>
          let xfer := Nat.min XFER len in
          r <- usb_bulk_read a xfer ;;
          let '(n, data) := r in
          if n =? Z.of_nat xfer then usb_read_loop f a (len - xfer) (acc ++ data)
          else
            h <- handle_at a ;;
            u <- get ;;
            if bool_decide (u_errno u = ETIMEDOUT) && negb (h_desc h =? -1) then
              if 0 <? n then usb_read_loop f a (len - Z.to_nat n) (acc ++ data) else usb_read_loop f a len acc
            else ret None
      end
  end.

Definition usb_read (a : Z) (len : nat) : U (option (list Z)) :=
  u <- get ;; usb_read_loop (len + length (u_reaps u) + length (u_submit u)) a len [].
