(* ===== verification/UsbScan.v ===== *)
(** * Finding the debug interface of a USB device

    The scan of a device's descriptors finds the same interface and endpoints as a
    definition on lists of descriptors, and does not end when a descriptor has the
    length 0. *)

From S2P Require Import Prelude Ring Io UsbHost.

(** ** Descriptors as data *)

Inductive descriptor :=
| Interface (number alternate endpoints cls subclass protocol name : Z)
| Other (type : Z) (body : list Z).

Definition desc_bytes (d : descriptor) : list Z :=
  match d with
  | Interface number alternate endpoints cls subclass protocol name => [9; 4; number; alternate; endpoints; cls; subclass; protocol; name]
  | Other type body => Z.of_nat (length body + 2) :: type :: body
  end.

(** [Interface] is the only one with the type of interfaces. *)
Definition desc_ok (d : descriptor) : Prop := match d with Interface _ _ _ _ _ _ _ => True | Other type _ => type <> USB_DT_INTERFACE end.

(** Address, attributes and packet size of an endpoint. *)
Definition as_endpoint (d : descriptor) : option (Z * Z * Z) :=
  match d with
  | Other type [address; attributes; lo; hi; _] => if type =? USB_DT_ENDPOINT then Some (address, attributes, le16 lo hi) else None
  | _ => None
  end.

(** The device for an interface [number] with two endpoints; the one with the
    direction bit is for reading. *)
Definition device_with (number serial a1 size a2 : Z) : adb_device :=
  let zero_mask := u32 (size - 1) in
  if Z.testbit a1 7 then mkDevice a1 a2 number serial zero_mask else mkDevice a2 a1 number serial zero_mask.

(** The first interface of the debug bridge that is followed by two endpoints for
    bulk transfers; the search ends at one that is followed by something else. *)
Fixpoint find_adb (vendorIds : list Z) (vid serial : Z) (ds : list descriptor) : option adb_device :=
  match ds with
  | [] => None
  | Interface number _ n cls subclass protocol _ :: rest =>
      if bool_decide (n = 2 /\ vid ∈ vendorIds /\ cls = ADB_CLASS /\ subclass = ADB_SUBCLASS /\ protocol = ADB_PROTOCOL) then
        match rest with
        | d1 :: d2 :: rest =>
            match as_endpoint d1, as_endpoint d2 with
            | Some (a1, t1, size), Some (a2, t2, _) =>
                if bool_decide (t1 = USB_ENDPOINT_XFER_BULK /\ t2 = USB_ENDPOINT_XFER_BULK) then Some (device_with number serial a1 size a2)
                else find_adb vendorIds vid serial rest
            | _, _ => None
            end
        | _ => None
        end
      else find_adb vendorIds vid serial rest
  | Other _ _ :: rest => find_adb vendorIds vid serial rest
  end.

(** ** The scan *)

Lemma is_adb_interface_spec vs vid c s p :
  is_adb_interface vs vid c s p = bool_decide (vid ∈ vs /\ c = ADB_CLASS /\ s = ADB_SUBCLASS /\ p = ADB_PROTOCOL).
Proof.
  induction vs as [|v vs IH]; cbn [is_adb_interface]; [symmetry; apply bool_decide_false; set_solver|].
  destruct (vid =? v) eqn:E; bools.
  - apply eq_bool_prop_intro. rewrite bool_decide_spec. rewrite !andb_True. rewrite !Is_true_true, !Z.eqb_eq. set_solver.
  - rewrite IH. apply bool_decide_ext. set_solver.
Qed.

Lemma byte_at {W} (pre l : list Z) i x (w : W) :
  l !! i = Some x -> byte (pre ++ l) (Z.of_nat (length pre) + Z.of_nat i) w = Ok (x, w).
Proof.
  intros H. unfold byte. destruct (Z.of_nat (length pre) + Z.of_nat i <? 0) eqn:E; bools; [lia|].
  replace (Z.to_nat (Z.of_nat (length pre) + Z.of_nat i)) with (length pre + i)%nat by lia.
  rewrite lookup_app_r by lia. replace (length pre + i - length pre)%nat with i by lia. by rewrite H.
Qed.

(** The check of the endpoints on the bytes from there on. *)
Definition bulk_bytes (l : list Z) : option bool :=
  match l with
  | l1 :: t1 :: _ :: a1 :: _ :: _ :: _ :: l2 :: t2 :: _ :: a2 :: _ :: _ :: _ :: _ =>
      if (l1 =? 7) && (t1 =? 5) && (l2 =? 7) && (t2 =? 5) then Some ((a1 =? 2) && (a2 =? 2)) else None
  | _ => None
  end.

Lemma bulk_endpoints_ok {W} (pre l tail : list Z) (w : W) :
  bulk_endpoints (pre ++ l ++ tail) (Z.of_nat (length pre) + Z.of_nat (length l)) (Z.of_nat (length pre)) w = Ok (bulk_bytes l, w).
Proof.
  unfold bulk_endpoints. change (2 * USB_DT_ENDPOINT_SIZE) with 14.
  destruct (Z.of_nat (length pre) + Z.of_nat (length l) <? Z.of_nat (length pre) + 14) eqn:E; bools.
  { do 14 (destruct l as [|? l]; [done|]). cbn [length] in E. lia. }
  do 14 (destruct l as [|? l]; [cbn in E; lia|]).
  erewrite bind_ok; [|rewrite <- (Z.add_0_r (Z.of_nat (length pre))); by apply (byte_at _ _ 0)].
  erewrite bind_ok by (by apply (byte_at _ _ 1)). erewrite bind_ok by (by apply (byte_at _ _ 3)).
  erewrite bind_ok by (by apply (byte_at _ _ 7)). erewrite bind_ok by (by apply (byte_at _ _ 8)). erewrite bind_ok by (by apply (byte_at _ _ 10)).
  unfold bulk_bytes, USB_DT_ENDPOINT_SIZE, USB_DT_ENDPOINT, USB_ENDPOINT_XFER_BULK.
  destruct (_ =? 7); [|done]. destruct (_ =? 5); [|done]. destruct (_ =? 7); [|done]. by destruct (_ =? 5).
Qed.

Definition text (ds : list descriptor) : list Z := mjoin (desc_bytes <$> ds).

Lemma text_cons d ds : text (d :: ds) = desc_bytes d ++ text ds.
Proof. done. Qed.

(** What is not an endpoint starts with other bytes. *)
Lemma not_endpoint d : as_endpoint d = None -> exists l1 t1 l, desc_bytes d = l1 :: t1 :: l /\ (l1 =? 7) && (t1 =? 5) = false.
Proof.
  destruct d as [|type body]; intros H; [by eexists _, _, _|]. eexists _, _, _. split; [reflexivity|].
  apply andb_false_iff. destruct (Z.of_nat (length body + 2) =? 7) eqn:E; [right|by left]. bools.
  do 5 (destruct body as [|? body]; [cbn in E; lia|]). destruct body; [|cbn in E; lia]. cbn in H.
  change USB_DT_ENDPOINT with 5 in H. by destruct (type =? 5).
Qed.

Lemma is_endpoint d a t s :
  as_endpoint d = Some (a, t, s) -> exists lo hi i, d = Other USB_DT_ENDPOINT [a; t; lo; hi; i] /\ s = le16 lo hi.
Proof.
  destruct d as [|type body]; [done|]. do 5 (destruct body as [|? body]; [done|]). destruct body; [|done]. cbn.
  destruct (type =? USB_DT_ENDPOINT) eqn:E; [|done]. bools. intros [= <- <- <-]. subst. by eexists _, _, _.
Qed.

Lemma bulk_none l1 t1 l : (l1 =? 7) && (t1 =? 5) = false -> bulk_bytes (l1 :: t1 :: l) = None.
Proof.
  intros H. do 12 (destruct l as [|? l]; [done|]). cbn [bulk_bytes]. by rewrite H.
Qed.

Lemma bulk_text ds :
  bulk_bytes (text ds) =
  match ds with
  | d1 :: d2 :: _ =>
      match as_endpoint d1, as_endpoint d2 with
      | Some (_, t1, _), Some (_, t2, _) => Some ((t1 =? 2) && (t2 =? 2))
      | _, _ => None
      end
  | _ => None
  end.
Proof.
  destruct ds as [|d1 ds]; [done|]. rewrite text_cons. destruct (as_endpoint d1) as [[[a1 t1] s1]|] eqn:E1.
  2: { destruct (not_endpoint d1 E1) as (x & y & l & -> & H). rewrite <- !app_comm_cons, bulk_none by done. by destruct ds as [|? ds]. }
  destruct (is_endpoint _ _ _ _ E1) as (lo1 & hi1 & i1 & -> & _). destruct ds as [|d2 ds]; [done|]. rewrite text_cons.
  destruct (as_endpoint d2) as [[[a2 t2] s2]|] eqn:E2.
  - destruct (is_endpoint _ _ _ _ E2) as (lo2 & hi2 & i2 & -> & _). done.
  - destruct (not_endpoint d2 E2) as (x & y & l & -> & H). cbn [desc_bytes app]. generalize (l ++ text ds). intros l'.
    do 5 (destruct l' as [|? l']; [done|]). cbn [bulk_bytes]. change ((Z.of_nat (length [a1; t1; lo1; hi1; i1] + 2) =? 7) && (USB_DT_ENDPOINT =? 5)) with true.
    cbn [andb]. by rewrite H.
Qed.

Lemma desc_starts d : exists l, desc_bytes d = Z.of_nat (length (desc_bytes d)) :: (match d with Interface _ _ _ _ _ _ _ => 4 | Other type _ => type end) :: l.
Proof. destruct d as [|type body]; [by eexists|]. exists body. cbn. do 2 f_equal. lia. Qed.

(** The two tests of an interface. *)
Lemma adb_test {W} (pre l tail : list Z) vs vid number alternate n cls subclass protocol name (w : W) :
  (if n =? 2 then
     c <- byte (pre ++ (desc_bytes (Interface number alternate n cls subclass protocol name) ++ l) ++ tail) (Z.of_nat (length pre) + 5) ;;
     s <- byte (pre ++ (desc_bytes (Interface number alternate n cls subclass protocol name) ++ l) ++ tail) (Z.of_nat (length pre) + 6) ;;
     p <- byte (pre ++ (desc_bytes (Interface number alternate n cls subclass protocol name) ++ l) ++ tail) (Z.of_nat (length pre) + 7) ;;
     ret (is_adb_interface vs vid c s p)
   else ret false) w =
  Ok (bool_decide (n = 2 /\ vid ∈ vs /\ cls = ADB_CLASS /\ subclass = ADB_SUBCLASS /\ protocol = ADB_PROTOCOL), w).
Proof.
  destruct (n =? 2) eqn:E; bools.
  - erewrite bind_ok by (by apply (byte_at _ _ 5)). erewrite bind_ok by (by apply (byte_at _ _ 6)). erewrite bind_ok by (by apply (byte_at _ _ 7)).
    rewrite is_adb_interface_spec. unfold ret. do 2 f_equal. apply bool_decide_ext. naive_solver.
  - unfold ret. do 2 f_equal. symmetry. apply bool_decide_false. naive_solver.
Qed.

Lemma dir_bit a : negb (Z.land a USB_ENDPOINT_DIR_MASK =? 0) = Z.testbit a 7.
Proof.
  destruct (Z.testbit a 7) eqn:E; [apply negb_true_iff, Z.eqb_neq|apply negb_false_iff, Z.eqb_eq].
  - intros H. assert (Z.testbit (Z.land a USB_ENDPOINT_DIR_MASK) 7 = true) as Hb by (rewrite Z.land_spec, E; done). by rewrite H in Hb.
  - change USB_ENDPOINT_DIR_MASK with (2 ^ 7). apply Z.bits_inj_0. intros i. rewrite Z.land_spec, Z.pow2_bits_eqb by lia.
    destruct (7 =? i) eqn:Ei; bools; [subst; by rewrite E|apply andb_false_r].
Qed.

Lemma endpoints_ok {W} (pre tail : list Z) number alternate n cls subclass name a1 t1 lo1 hi1 i1 a2 t2 lo2 hi2 i2 l serial (w : W) :
  pre !! 16%nat = Some serial ->
  endpoints (pre ++ (desc_bytes (Interface number alternate n cls subclass ADB_PROTOCOL name) ++ desc_bytes (Other USB_DT_ENDPOINT [a1; t1; lo1; hi1; i1]) ++
    desc_bytes (Other USB_DT_ENDPOINT [a2; t2; lo2; hi2; i2]) ++ l) ++ tail) (Z.of_nat (length pre)) (Z.of_nat (length pre) + 9) w =
  Ok (device_with number serial a1 (le16 lo1 hi1) a2, w).
Proof.
  intros Hs. unfold endpoints. erewrite bind_ok by (by apply (byte_at _ _ 2)). erewrite bind_ok by (by apply (byte_at _ _ 7)).
  erewrite bind_ok by (rewrite <- Z.add_assoc; by apply (byte_at _ _ 11)). erewrite bind_ok by (rewrite <- Z.add_assoc; by apply (byte_at _ _ 13)).
  erewrite bind_ok by (rewrite <- Z.add_assoc; by apply (byte_at _ _ 14)). erewrite bind_ok by (rewrite <- Z.add_assoc; by apply (byte_at _ _ 18)).
  erewrite (bind_ok (byte _ 16)) by (unfold byte; cbn [Z.ltb]; change (Z.to_nat 16) with 16%nat; rewrite lookup_app_l by (by eapply lookup_lt_Some); by rewrite Hs).
  unfold device_with. by rewrite dir_bit.
Qed.

Lemma scan_ok {W} vs vid serial tail (w : W) : forall fuel ds pre,
  Forall desc_ok ds -> (length ds <= fuel)%nat -> pre !! 16%nat = Some serial ->
  scan_descriptors fuel vs (pre ++ text ds ++ tail) vid (Z.of_nat (length pre) + Z.of_nat (length (text ds))) (Z.of_nat (length pre)) w =
    Ok (find_adb vs vid serial ds, w).
Proof.
  induction fuel as [|fuel IH]; intros ds pre HF Hl Hs.
  { destruct ds; [|cbn in Hl; lia]. cbn. by rewrite Z.add_0_r, Z.ltb_irrefl. }
  destruct ds as [|d ds]; [cbn; by rewrite Z.add_0_r, Z.ltb_irrefl|]. apply list.Forall_cons in HF as [Hd HF]. cbn in Hl.
  assert (forall ds' l', text ds = l' ++ text ds' -> Forall desc_ok ds' -> (length ds' <= length ds)%nat ->
    scan_descriptors fuel vs (pre ++ text (d :: ds) ++ tail) vid (Z.of_nat (length pre) + Z.of_nat (length (text (d :: ds))))
      (Z.of_nat (length pre) + Z.of_nat (length (desc_bytes d)) + Z.of_nat (length l')) w = Ok (find_adb vs vid serial ds', w)) as Hgo.
  { intros ds' l' Ht HF' Hle. rewrite text_cons, Ht.
    replace (pre ++ (desc_bytes d ++ l' ++ text ds') ++ tail) with ((pre ++ desc_bytes d ++ l') ++ text ds' ++ tail) by (by rewrite <- !app_assoc).
    rewrite <- (IH ds' (pre ++ desc_bytes d ++ l')); [|done|lia|rewrite lookup_app_l; [done|by eapply lookup_lt_Some]].
    f_equal; rewrite !length_app; lia. }
  assert (scan_descriptors fuel vs (pre ++ text (d :: ds) ++ tail) vid (Z.of_nat (length pre) + Z.of_nat (length (text (d :: ds))))
    (Z.of_nat (length pre) + Z.of_nat (length (desc_bytes d))) w = Ok (find_adb vs vid serial ds, w)) as Hnext.
  { rewrite <- (Hgo ds []) by done. cbn [length]. by rewrite Z.add_0_r. }
  destruct (desc_starts d) as [l El]. cbn [scan_descriptors].
  rewrite (proj2 (Z.ltb_lt _ _)) by (rewrite text_cons, length_app, El; cbn [length]; lia).
  erewrite bind_ok; [|rewrite <- (Z.add_0_r (Z.of_nat (length pre))); apply (byte_at _ _ 0); rewrite text_cons, El; reflexivity].
  erewrite bind_ok by (apply (byte_at _ _ 1); rewrite text_cons, El; reflexivity).
  destruct d as [number alternate n cls subclass protocol name|type body]; cbn [desc_ok] in Hd.
  2: { change USB_DT_INTERFACE with 4 in *. rewrite (proj2 (Z.eqb_neq type 4) Hd). exact Hnext. }
  change (4 =? USB_DT_INTERFACE) with true. cbv iota. set (ifc := Interface number alternate n cls subclass protocol name) in *.
  change (negb (Z.of_nat (length (desc_bytes ifc)) =? USB_DT_INTERFACE_SIZE)) with false. cbv iota.
  erewrite bind_ok by (by apply (byte_at _ _ 4)). rewrite text_cons. rewrite (bind_ok _ _ _ _ _ (adb_test pre (text ds) tail vs vid number alternate n cls subclass protocol name w)).
  fold ifc. rewrite <- text_cons. cbn [find_adb ifc]. case_bool_decide as Hadb; [|exact Hnext].
  destruct Hadb as (-> & _ & -> & -> & ->). change (Z.of_nat (length (desc_bytes ifc))) with 9 in *.
  assert (bulk_endpoints (pre ++ text (ifc :: ds) ++ tail) (Z.of_nat (length pre) + Z.of_nat (length (text (ifc :: ds)))) (Z.of_nat (length pre) + 9) w =
    Ok (bulk_bytes (text ds), w)) as Eb.
  { rewrite <- (bulk_endpoints_ok (pre ++ desc_bytes ifc) (text ds) tail w). rewrite text_cons, <- !app_assoc, !length_app. f_equal; cbn [length desc_bytes ifc]; lia. }
  rewrite (bind_ok _ _ _ _ _ Eb), bulk_text. destruct ds as [|d1 [|d2 ds]]; [done|done|].
  destruct (as_endpoint d1) as [[[a1 t1] s1]|] eqn:E1; [|done]. destruct (as_endpoint d2) as [[[a2 t2] s2]|] eqn:E2; [|done].
  destruct (is_endpoint _ _ _ _ E1) as (lo1 & hi1 & i1 & -> & ->). destruct (is_endpoint _ _ _ _ E2) as (lo2 & hi2 & i2 & -> & ->).
  apply list.Forall_cons in HF as [_ HF]. apply list.Forall_cons in HF as [_ HF]. cbn [length] in Hl.
  case_bool_decide as Ht.
  - destruct Ht as [-> ->]. change ((USB_ENDPOINT_XFER_BULK =? 2) && (USB_ENDPOINT_XFER_BULK =? 2)) with true. cbv iota.
    rewrite !text_cons. unfold ifc. by rewrite (bind_ok _ _ _ _ _ (endpoints_ok pre tail number alternate 2 ADB_CLASS ADB_SUBCLASS name a1 _ lo1 hi1 i1 a2 _ lo2 hi2 i2 (text ds) serial w Hs)).
  - replace ((t1 =? 2) && (t2 =? 2)) with false.
    2: { symmetry. apply andb_false_iff. unfold USB_ENDPOINT_XFER_BULK in Ht. destruct (t1 =? 2) eqn:X1; [right|by left]. apply Z.eqb_neq. bools. naive_solver. }
    exact (Hgo ds (desc_bytes (Other USB_DT_ENDPOINT [a1; t1; lo1; hi1; i1]) ++ desc_bytes (Other USB_DT_ENDPOINT [a2; t2; lo2; hi2; i2])) ltac:(by rewrite !text_cons, app_assoc) HF ltac:(cbn; lia)).
Qed.

Lemma byte_0 {W} l i x (w : W) : l !! i = Some x -> byte l (Z.of_nat i) w = Ok (x, w).
Proof. intros H. exact (byte_at [] l i x w H). Qed.

Lemma text_length ds : (length ds <= length (text ds))%nat.
Proof.
  induction ds as [|d ds IH]; [done|]. rewrite text_cons, length_app. destruct (desc_starts d) as [l ->]. cbn [length]. lia.
Qed.

(** C33: the scan of a device file that holds a device descriptor, a configuration
    descriptor and any list of other descriptors that fit the buffer finds what the
    definition on lists finds: the first debug interface of a known vendor that is
    followed by two bulk endpoints, with the right endpoint for each direction, its
    number, and the index of the serial number. *)
Theorem usb_interface_found {W} vs dev cfg ds rest lo hi serial (w : W) :
  length dev = 18%nat -> dev !! 0%nat = Some USB_DT_DEVICE_SIZE -> dev !! 1%nat = Some USB_DT_DEVICE ->
  dev !! 8%nat = Some lo -> dev !! 9%nat = Some hi -> dev !! 16%nat = Some serial ->
  length cfg = 9%nat -> cfg !! 0%nat = Some USB_DT_CONFIG_SIZE -> cfg !! 1%nat = Some USB_DT_CONFIG -> Forall desc_ok ds ->
  scan_device vs (dev ++ cfg ++ text ds ++ rest) (Z.of_nat (length (dev ++ cfg ++ text ds))) w = Ok (find_adb vs (le16 lo hi) serial ds, w).
Proof.
  intros Ld D0 D1 D8 D9 D16 Lc C0 C1 HF. unfold scan_device. rewrite !length_app, Ld, Lc.
  destruct (Z.of_nat (18 + (9 + length (text ds))) <? USB_DT_DEVICE_SIZE + USB_DT_CONFIG_SIZE) eqn:E; bools;
    [unfold USB_DT_DEVICE_SIZE, USB_DT_CONFIG_SIZE in E; lia|]. rewrite andb_false_r.
  assert (forall i x, dev !! i = Some x -> (dev ++ cfg ++ text ds ++ rest) !! i = Some x) as Hd by (intros i x Hx; rewrite lookup_app_l; [done|by eapply lookup_lt_Some]).
  assert (forall i x, cfg !! i = Some x -> (dev ++ cfg ++ text ds ++ rest) !! (18 + i)%nat = Some x) as Hc.
  { intros i x Hx. rewrite lookup_app_r, Ld by lia. replace (18 + i - 18)%nat with i by lia. rewrite lookup_app_l; [done|by eapply lookup_lt_Some]. }
  erewrite bind_ok by (by apply (byte_0 _ 0), Hd). erewrite bind_ok by (by apply (byte_0 _ 1), Hd).
  rewrite !Z.eqb_refl. cbn [negb orb]. erewrite bind_ok by (by apply (byte_0 _ 8), Hd). erewrite bind_ok by (by apply (byte_0 _ 9), Hd).
  erewrite bind_ok by (by apply (byte_0 _ 18), (Hc 0%nat)). erewrite bind_ok by (by apply (byte_0 _ 19), (Hc 1%nat)).
  rewrite !Z.eqb_refl. cbn [negb orb]. pose proof (text_length ds) as Ht.
  rewrite <- (scan_ok vs (le16 lo hi) serial rest w (length (dev ++ cfg ++ text ds ++ rest)) ds (dev ++ cfg) HF); [|rewrite !length_app; lia|by rewrite lookup_app_l by lia].
  assert (Z.of_nat (length (dev ++ cfg)) = 27) as L27 by (rewrite length_app; lia). rewrite L27, <- app_assoc.
  rewrite !length_app, Ld, Lc. by replace (Z.of_nat (18 + (9 + length (text ds)))) with (27 + Z.of_nat (length (text ds))) by lia.
Qed.

(** A descriptor of length 0 that is not an interface keeps the scan of all devices
    in its loop for ever. *)
Theorem zero_length_never_ends {W} vs vid pre type tail bufend fuel (w : W) :
  type <> USB_DT_INTERFACE -> Z.of_nat (length pre) < bufend ->
  scan_descriptors fuel vs (pre ++ 0 :: type :: tail) vid bufend (Z.of_nat (length pre)) w = Err EFuel.
Proof.
  intros Ht Hb. induction fuel as [|fuel IH]; cbn [scan_descriptors]; rewrite (proj2 (Z.ltb_lt _ _)) by done; [done|].
  erewrite bind_ok; [|rewrite <- (Z.add_0_r (Z.of_nat (length pre))); by apply (byte_at _ _ 0)].
  erewrite bind_ok by (by apply (byte_at _ _ 1)). rewrite (proj2 (Z.eqb_neq _ _) Ht). by rewrite Z.add_0_r.
Qed.

(** ** Witness *)

(** A Nexus phone: mass storage and debug interface. *)
Definition demo_device : list Z := [18; 1; 0; 2; 0; 0; 0; 64; 0xd1; 0x18; 0x12; 0x4e; 0x26; 2; 1; 2; 3; 1].
Definition demo_config : list Z := [9; 2; 55; 0; 2; 1; 0; 0x80; 250].
Definition demo_descriptors : list descriptor :=
  [Interface 0 0 2 8 6 80 0; Other 5 [0x83; 2; 0; 2; 0]; Other 5 [2; 2; 0; 2; 0];
   Interface 1 0 2 0xff 0x42 1 0; Other 5 [0x84; 2; 0; 2; 0]; Other 5 [3; 2; 0; 2; 0]].

Lemma usb_interface_found_witness :
  find_adb builtInVendorIds (le16 0xd1 0x18) 3 demo_descriptors = Some (mkDevice 0x84 3 1 3 511) /\
  scan_device builtInVendorIds (demo_device ++ demo_config ++ text demo_descriptors ++ replicate 183 0)
    (Z.of_nat (length (demo_device ++ demo_config ++ text demo_descriptors))) tt =
  Ok (find_adb builtInVendorIds (le16 0xd1 0x18) 3 demo_descriptors, tt).
Proof.
  split; [by vm_compute|].
  apply (usb_interface_found builtInVendorIds demo_device demo_config demo_descriptors (replicate 183 0) 0xd1 0x18 3 tt); try done.
  repeat constructor; done.
Defined.
