(* ===== verification/UsbPoll.v ===== *)
(** * The list of USB devices

    Whatever devices come and go between the rounds of the polling thread, the list
    of handles stays consistent; after each round every debug device that can be
    opened has a handle, registered once, and every handle of a device that is gone
    has been kicked. *)

From S2P Require Import Prelude Ring Io UsbHost.

(** ** The invariant *)

(** The handles that were given to [register_usb_transport]. *)
Definition registered (cs : list ucall) : list Z := omap (fun c => match c with RegisterTransport h _ _ => Some h | _ => None end) cs.

(** [l] are the handles in the order of the list, [done] the names the present scan
    has come across. *)
Record us_ok (l : list Z) (done : list (list Z)) (u : usb) : Prop := UsOk {
  us_ring : ring (u_links u) 0 l;
  us_dom : forall a, a ∈ l <-> is_Some (u_handles u !! a);
  us_names : forall a b h h', u_handles u !! a = Some h -> u_handles u !! b = Some h' -> h_fname h = h_fname h' -> a = b;
  us_marks : forall a h, u_handles u !! a = Some h -> h_mark h = bool_decide (h_fname h ∈ done);
  us_next : 0 < u_next u;
  us_fresh : forall a, u_next u <= a -> u_handles u !! a = None;
  us_once : NoDup (registered (u_calls u));
  us_registered : forall a, a ∈ l -> a ∈ registered (u_calls u);
  us_old : forall a, a ∈ registered (u_calls u) -> a < u_next u;
}.

(** What stays of the handles during a scan: no handle goes away or changes but for
    its mark, and a new one is alive. *)
Definition kept (u u' : usb) : Prop :=
  (forall a h, u_handles u !! a = Some h -> exists h', u_handles u' !! a = Some h' /\ h_fname h' = h_fname h /\ h_dead h' = h_dead h) /\
  (forall a h', u_handles u' !! a = Some h' -> u_handles u !! a = None -> h_dead h' = false).

Lemma same_kept u : kept u u.
Proof. split; [by eauto|]. intros a h' H H'. congruence. Qed.

Lemma kept_trans u1 u2 u3 : kept u1 u2 -> kept u2 u3 -> kept u1 u3.
Proof.
  intros [A1 B1] [A2 B2]. split.
  - intros a h H. destruct (A1 a h H) as (h1 & H1 & E1 & D1). destruct (A2 a h1 H1) as (h2 & H2 & E2 & D2). exists h2. split_and!; congruence.
  - intros a h3 H3 Hn. destruct (u_handles u2 !! a) as [h2|] eqn:E; [|by apply (B2 a h3)].
    destruct (A2 a h2 E) as (h3' & H3' & _ & D). assert (h3' = h3) as -> by congruence. rewrite D. by apply (B1 a h2).
Qed.

(** ** Looking for a name *)

Lemma handle_at_ok u a h : u_handles u !! a = Some h -> handle_at a u = Ok (h, u).
Proof. unfold handle_at, bind, get, deref. by intros ->. Qed.

Lemma next_of_ok u a n : nxt (u_links u) a = Some n -> next_of a u = Ok (n, u).
Proof. unfold next_of, bind, get, deref. by intros ->. Qed.

Lemma prev_of_ok u a n : prv (u_links u) a = Some n -> prev_of a u = Ok (n, u).
Proof. unfold prev_of, bind, get, deref. by intros ->. Qed.

Lemma set_next_of_ok u a v : is_Some (u_links u !! a) -> set_next_of a v u = Ok (tt, upd_links (put_next a v) u).
Proof. unfold set_next_of, bind, get, deref. by intros [? ->]. Qed.

Lemma set_prev_of_ok u a v : is_Some (u_links u !! a) -> set_prev_of a v u = Ok (tt, upd_links (put_prev a v) u).
Proof. unfold set_prev_of, bind, get, deref. by intros [? ->]. Qed.

Lemma find_name_ok name u : forall l fuel p,
  seg (u_links u) p l 0 -> 0 ∉ l -> (forall a, a ∈ l -> is_Some (u_handles u !! a)) -> (length l <= fuel)%nat ->
  exists o, find_name fuel (default 0 (head l)) name u = Ok (o, u) /\
    match o with
    | Some a => exists h, u_handles u !! a = Some h /\ h_fname h = name
    | None => forall a h, a ∈ l -> u_handles u !! a = Some h -> h_fname h <> name
    end.
Proof.
  induction l as [|x l IH]; intros fuel p Hs H0 Hd Hf; [exists None; split; [by destruct fuel|set_solver]|].
  destruct Hs as (_ & _ & Hs). destruct fuel as [|fuel]; [cbn in Hf; lia|]. change (default 0 (head (x :: l))) with x.
  cbn [find_name]. destruct (x =? 0) eqn:E; bools; [set_solver|]. destruct (Hd x ltac:(set_solver)) as [h Hh].
  rewrite (bind_ok _ _ _ _ _ (handle_at_ok _ _ _ Hh)). unfold streq. case_bool_decide as Es.
  - exists (Some x). eauto.
  - assert (nxt (u_links u) x = Some (default 0 (head l))) as Hn by (destruct l; by destruct Hs).
    rewrite (bind_ok _ _ _ _ _ (next_of_ok _ _ _ Hn)). destruct (IH fuel x Hs) as (o & -> & Ho); [set_solver|set_solver|cbn in Hf; lia|].
    exists o. split; [done|]. destruct o as [a|]; [done|]. intros a h' [->|Ha]%elem_of_cons Hh'; [|by apply (Ho a)].
    by assert (h' = h) as -> by congruence.
Qed.

Lemma find_handle_ok l done u name :
  us_ok l done u ->
  exists o, find_handle name u = Ok (o, u) /\
    match o with
    | Some a => exists h, u_handles u !! a = Some h /\ h_fname h = name
    | None => forall a h, u_handles u !! a = Some h -> h_fname h <> name
    end.
Proof.
  intros H. pose proof (ring_size _ _ _ (us_ring _ _ _ H)) as Hc. destruct (us_ring _ _ _ H) as [Hnd Hs]. unfold find_handle, bind at 1, get.
  assert (nxt (u_links u) 0 = Some (default 0 (head l))) as Hn by (destruct l; by destruct Hs).
  rewrite (bind_ok _ _ _ _ _ (next_of_ok _ _ _ Hn)).
  destruct (find_name_ok name u l (size (u_links u)) 0 Hs) as (o & -> & Ho); [by apply list.NoDup_cons in Hnd as [? _]|intros a; by apply (us_dom _ _ _ H)|done|].
  exists o. split; [done|]. destruct o as [a|]; [done|]. intros a h Ha. apply (Ho a h); [|done]. apply (us_dom _ _ _ H). eauto.
Qed.

Lemma us_ok_locked l done f u : us_ok l done u -> us_ok l done (upd_locked f u).
Proof. intros [????? ????]. by split. Qed.

(** Handles that keep their names. *)
Lemma us_ok_handles l done done' u m :
  us_ok l done u -> (forall a, is_Some (u_handles u !! a) -> is_Some (m !! a)) ->
  (forall a h', m !! a = Some h' -> exists h, u_handles u !! a = Some h /\ h_fname h' = h_fname h /\ h_mark h' = bool_decide (h_fname h ∈ done')) ->
  us_ok l done' (upd_handles (fun _ => m) u).
Proof.
  intros [H1 H2 H3 H4 H5 H6 H7 H8 H9] Hm1 Hm2. split; try done; cbn.
  - intros a. rewrite H2. split; [apply Hm1|]. intros [h' Hh']. destruct (Hm2 a h' Hh') as (h & ? & _). eauto.
  - intros a b h h' Ha Hb E. destruct (Hm2 a h Ha) as (x & Hx & Ex & _). destruct (Hm2 b h' Hb) as (y & Hy & Ey & _). apply (H3 a b x y); congruence.
  - intros a h' Ha. destruct (Hm2 a h' Ha) as (h & _ & -> & Em). done.
  - intros a Ha. destruct (m !! a) as [h'|] eqn:E; [|done]. destruct (Hm2 a h' E) as (h & Hh & _). rewrite H6 in Hh by done. done.
Qed.

Lemma lock_ok u : u_locked u = false -> lock_usb u = Ok (tt, upd_locked (fun _ => true) u).
Proof. unfold lock_usb, bind, get, modify. by intros ->. Qed.

Lemma relock f u : u_locked u = false -> upd_locked (fun _ => false) (upd_locked f u) = u.
Proof. destruct u. cbn. by intros ->. Qed.

Lemma known_device_ok l done u name :
  us_ok l done u -> u_locked u = false ->
  exists b u', known_device name u = Ok (b, u') /\ us_ok l (done ++ [name]) u' /\ u_locked u' = false /\ kept u u' /\
    (if b : bool then exists a h, u_handles u' !! a = Some h /\ h_fname h = name
     else u' = u /\ forall a h, u_handles u !! a = Some h -> h_fname h <> name).
Proof.
  intros H Hf. unfold known_device. rewrite (bind_ok _ _ _ _ _ (lock_ok u Hf)).
  destruct (find_handle_ok l done _ name (us_ok_locked l done (fun _ => true) u H)) as (o & E & Ho). rewrite (bind_ok _ _ _ _ _ E). cbn in Ho.
  destruct o as [a|].
  - destruct Ho as (h & Hh & Hn). erewrite bind_ok by (apply handle_at_ok; exact Hh).
    exists true. eexists. split; [reflexivity|]. split_and!; [|done| |].
    + apply (us_ok_handles l done (done ++ [name]) (upd_locked (fun _ => false) u) (<[a := set_mark true h]> (u_handles u))); [by apply us_ok_locked| |].
      * intros b. cbn. rewrite lookup_insert_is_Some. destruct (decide (a = b)); [by left|by right].
      * intros b x [[<- <-]|[Hb Hx]]%lookup_insert_Some.
        -- exists h. split_and!; [done|done|]. cbn. symmetry. apply bool_decide_true. subst. set_solver.
        -- exists x. split_and!; [done|done|]. rewrite (us_marks _ _ _ H b x Hx). apply bool_decide_ext. rewrite elem_of_app, list_elem_of_singleton.
           split; [tauto|]. intros [?|?]; [done|]. exfalso. apply Hb. apply (us_names _ _ _ H a b h x); congruence.
    + split; cbn; [|intros b x [[<- <-]|[_ Hx]]%lookup_insert_Some Hb; congruence].
      intros b x Hx. destruct (decide (b = a)) as [->|Hb]; [|exists x; by rewrite lookup_insert_ne].
      exists (set_mark true h). rewrite lookup_insert_eq. assert (x = h) as -> by congruence. done.
    + exists a, (set_mark true h). cbn. by rewrite lookup_insert_eq.
  - exists false, u. unfold unlock_usb, bind, modify, ret. rewrite relock by done. split_and!; [done| |done|apply same_kept|done|done].
    destruct H as [H1 H2 H3 H4 H5 H6 H7 H8 H9]. split; try done. intros a h Ha. rewrite (H4 a h Ha). apply bool_decide_ext.
    rewrite elem_of_app, list_elem_of_singleton. pose proof (Ho a h Ha). tauto.
Qed.

(** ** A new device *)

Definition openable (k : kernel) (name : list Z) (d : adb_device) : Prop :=
  match k_rdwr k name with
  | Some _ => k_claim k name (d_interface d) = 0
  | None => is_Some (k_rdonly k name)
  end.

Lemma open_device_ok k name d u :
  exists r c, open_device k name (d_interface d) u = Ok (r, upd_closed (fun l => l ++ c) u) /\ (openable k name d -> is_Some r).
Proof.
  assert (forall u, upd_closed (fun l => l ++ []) u = u) as Hnil by (intros []; unfold upd_closed; cbn; by rewrite app_nil_r).
  unfold open_device, openable. destruct (k_rdwr k name) as [fd|].
  - destruct (k_claim k name (d_interface d) =? 0) eqn:E; bools; [exists (Some (fd, true)), []; rewrite Hnil; by eauto|].
    by exists None, [fd].
  - eexists _, []. rewrite Hnil. split; [done|]. intros [fd ->]. by eexists.
Qed.

(** The new node at the end of the list. *)
Lemma link_last l done u h serial w :
  us_ok l done u -> u_locked u = false -> h_mark h = bool_decide (h_fname h ∈ done) ->
  (forall b x, u_handles u !! b = Some x -> h_fname x <> h_fname h) ->
  let a := u_next u in
  exists u', (modify (upd_next (fun n => n + 1)) ;; set_handle a h ;; modify (upd_links <[a := (0, 0)]>) ;;
      lock_usb ;; set_next_of a 0 ;; p <- prev_of 0 ;; set_prev_of a p ;; p <- prev_of a ;; set_next_of p a ;; n <- next_of a ;; set_prev_of n a ;;
      unlock_usb ;; ucall_log (RegisterTransport a serial w)) u = Ok (tt, u') /\
    us_ok (l ++ [a]) done u' /\ u_locked u' = false /\ u_handles u' = <[a := h]> (u_handles u).
Proof.
  intros H Hf Hm Hnew a. pose proof (us_fresh _ _ _ H a ltac:(lia)) as Fa.
  assert (a ∉ 0 :: l) as Ha.
  { pose proof (us_next _ _ _ H). intros [?|Hin]%elem_of_cons; [lia|]. apply (us_dom _ _ _ H) in Hin as [? ?]. congruence. }
  set (k0 := <[a := (0, 0)]> (u_links u)). assert (is_Some (k0 !! a)) as Sa by (unfold k0; rewrite lookup_insert_eq; eauto).
  assert (ring k0 0 l) as R0 by (apply ring_insert_else; [done|apply H]).
  destruct (ring_append k0 0 l a R0 Ha Sa) as (p & P1 & Pa & Sp & R1). assert (is_Some (k0 !! 0)) as S0 by (by eapply prv_some).
  exists (upd_calls (fun c => c ++ [RegisterTransport a serial w]) (upd_locked (fun _ => false) (upd_links (fun _ => inserted a p 0 k0)
    (upd_handles <[a := h]> (upd_next (fun n => n + 1) u))))). split_and!; [| |done|done].
  - unfold bind at 1, modify at 1, bind at 1, set_handle, modify at 1, bind at 1, modify at 1. erewrite bind_ok by (by apply lock_ok).
    erewrite bind_ok by (apply set_next_of_ok; exact Sa).
    erewrite bind_ok by (apply prev_of_ok; cbn -[put_prev put_next]; rewrite prv_put_next by done; exact P1).
    erewrite bind_ok by (apply set_prev_of_ok; (cbn; by apply put_next_some)).
    erewrite bind_ok by (apply prev_of_ok; cbn -[put_prev put_next]; rewrite prv_put_prev by (by apply put_next_some); by rewrite decide_True).
    erewrite bind_ok by (apply set_next_of_ok; (cbn; by repeat (apply put_prev_some || apply put_next_some))).
    erewrite bind_ok by (apply next_of_ok; cbn -[put_prev put_next]; rewrite nxt_put_next by (by repeat (apply put_prev_some || apply put_next_some));
      rewrite decide_False by done; rewrite nxt_put_prev by (by apply put_next_some); rewrite nxt_put_next by done; by rewrite decide_True).
    erewrite bind_ok by (apply set_prev_of_ok; (cbn; by repeat (apply put_prev_some || apply put_next_some))).
    unfold inserted. rewrite <- put_comm by (by repeat (apply put_prev_some || apply put_next_some)). reflexivity.
  - destruct H as [H1 H2 H3 H4 H5 H6 H7 H8 H9]. split; cbn -[registered]; try done.
    + intros b. rewrite elem_of_app, list_elem_of_singleton, H2, lookup_insert_is_Some. destruct (decide (a = b)); naive_solver.
    + intros b c x y [[<- <-]|[Hb Hx]]%lookup_insert_Some [[<- <-]|[Hc Hy]]%lookup_insert_Some E; [done| | |by apply (H3 b c x y)].
      * destruct (Hnew c y Hy). congruence.
      * destruct (Hnew b x Hx). congruence.
    + intros b x [[<- <-]|[_ Hx]]%lookup_insert_Some; [done|by apply (H4 b)].
    + lia.
    + intros b Hb. rewrite lookup_insert_ne by lia. apply H6. lia.
    + unfold registered in *. rewrite omap_app. cbn. apply list.NoDup_app. split_and!; [done| |apply list.NoDup_singleton].
      intros b Hb. rewrite list_elem_of_singleton. intros ->. apply H9 in Hb. lia.
    + intros b. unfold registered in *. rewrite omap_app. cbn. rewrite !elem_of_app. intros [Hb|Hb]; [left; by apply H8|by right].
    + intros b. unfold registered in *. rewrite omap_app. cbn. rewrite !elem_of_app, list_elem_of_singleton. intros [Hb| ->]; [apply H9 in Hb; lia|lia].
Qed.

Lemma us_ok_closed l done f u : us_ok l done u -> us_ok l done (upd_closed f u).
Proof. intros [????? ????]. by split. Qed.

Lemma register_device_ok l done u k name d :
  us_ok l done u -> u_locked u = false -> name ∈ done -> (forall a h, u_handles u !! a = Some h -> h_fname h <> name) ->
  exists l' u', register_device k name d u = Ok (tt, u') /\ us_ok l' done u' /\ u_locked u' = false /\ kept u u' /\
    (openable k name d -> exists a h, u_handles u' !! a = Some h /\ h_fname h = name).
Proof.
  intros H Hf Hin Hnew. unfold register_device. rewrite (bind_ok _ _ _ _ _ (lock_ok u Hf)).
  destruct (find_handle_ok l done _ name (us_ok_locked l done (fun _ => true) u H)) as (o & E & Ho). rewrite (bind_ok _ _ _ _ _ E). cbn in Ho.
  destruct o as [a|]; [destruct Ho as (h & Hh & Hn); by destruct (Hnew a h Hh)|].
  unfold unlock_usb at 1, bind at 1, modify at 1. rewrite relock by done.
  destruct (open_device_ok k name d u) as (r & c & E' & Hr). rewrite (bind_ok _ _ _ _ _ E'). set (u1 := upd_closed _ u).
  assert (us_ok l done u1) as H1 by (by apply us_ok_closed).
  destruct r as [[desc writeable]|]; [|exists l, u1; split_and!; [done|done|done|exact (same_kept u)|by intros [? ?]%Hr]].
  set (h := new_handle name d desc writeable).
  destruct (link_last l done u1 h (device_serial k name (d_serial_index d)) writeable H1 Hf) as (u' & E'' & H'' & F'' & Hh); [|done|].
  { cbn. symmetry. by apply bool_decide_true. }
  exists (l ++ [u_next u1]), u'. split_and!; [exact E''|done|done| |].
  - split; rewrite Hh; cbn.
    + intros b x Hx. exists x. rewrite lookup_insert_ne; [done|]. intros <-. rewrite (us_fresh _ _ _ H (u_next u)) in Hx by lia. done.
    + intros b x [[<- <-]|[_ Hx]]%lookup_insert_Some Hb; [done|congruence].
  - intros _. exists (u_next u1), h. by rewrite Hh, lookup_insert_eq.
Qed.

(** ** The scan *)

(** The device files a scan looks at. *)
Definition dev_names (busname : list Z) (entry : list Z) : list (list Z) := if badname entry then [] else [snprintf 32 (busname ++ bs "/" ++ entry)].
Definition bus_names (k : kernel) (base entry : list Z) : list (list Z) :=
  if badname entry then []
  else
    let busname := snprintf 32 (base ++ bs "/" ++ entry) in
    match k_dir k busname with None => [] | Some entries => entries ≫= dev_names busname end.
Definition devices (k : kernel) : list (list Z) :=
  match k_dir k (bs "/dev/bus/usb") with None => [] | Some buses => buses ≫= bus_names k (bs "/dev/bus/usb") end.

(** [seen] tells what the descriptors of a device file say: the file cannot be opened, or
    the scan of what a read of it leaves in the array ends with [seen name]. *)
Definition readable (k : kernel) (vendorIds : list Z) (seen : list Z -> option adb_device) (name : list Z) : Prop :=
  match k_descriptors k name with
  | None => seen name = None
  | Some r => forall u : usb, scan_device vendorIds (read_descriptors k r).1 (read_descriptors k r).2 u = Ok (seen name, u)
  end.

(** A debug device that can be opened has a handle. *)
Definition covered (k : kernel) (seen : list Z -> option adb_device) (u : usb) (name : list Z) : Prop :=
  forall d, seen name = Some d -> openable k name d -> exists a h, u_handles u !! a = Some h /\ h_fname h = name.

(** What a part of the scan leads to that comes across [names]. *)
Definition scans (k : kernel) (vendorIds : list Z) (seen : list Z -> option adb_device) (m : U unit) (names : list (list Z)) : Prop :=
  forall l done u, us_ok l done u -> u_locked u = false -> Forall (readable k vendorIds seen) names ->
    exists l' u', m u = Ok (tt, u') /\ us_ok l' (done ++ names) u' /\ u_locked u' = false /\ kept u u' /\ Forall (covered k seen u') names.

Lemma covered_kept k seen u u' name : covered k seen u name -> kept u u' -> covered k seen u' name.
Proof. intros H [K _] d Hd Ho. destruct (H d Hd Ho) as (a & h & Hh & Hn). destruct (K a h Hh) as (h' & Hh' & En & _). exists a, h'. split; congruence. Qed.

Lemma scans_nil k vs seen : scans k vs seen (ret tt) [].
Proof. intros l done u H Hf _. exists l, u. rewrite app_nil_r. split_and!; [done|done|done|apply same_kept|constructor]. Qed.

Lemma scans_app k vs seen m1 m2 n1 n2 : scans k vs seen m1 n1 -> scans k vs seen m2 n2 -> scans k vs seen (m1 ;; m2) (n1 ++ n2).
Proof.
  intros H1 H2 l done u H Hf HF. apply list.Forall_app in HF as [F1 F2]. destruct (H1 l done u H Hf F1) as (l1 & u1 & E1 & O1 & L1 & K1 & C1).
  destruct (H2 l1 (done ++ n1) u1 O1 L1 F2) as (l2 & u2 & E2 & O2 & L2 & K2 & C2). rewrite <- app_assoc in O2.
  exists l2, u2. split_and!; [by rewrite (bind_ok _ _ _ _ _ E1)|done|done|by eapply kept_trans|].
  apply list.Forall_app. split; [|done]. eapply list.Forall_impl; [exact C1|]. intros name Hc. by eapply covered_kept.
Qed.

Lemma scan_entry_ok k vs seen busname entry : scans k vs seen (scan_entry k vs busname entry) (dev_names busname entry).
Proof.
  unfold scan_entry, dev_names. destruct (badname entry); [apply scans_nil|]. set (name := snprintf _ _). intros l done u H Hf HF.
  apply list.Forall_cons in HF as [HR _]. destruct (known_device_ok l done u name H Hf) as (b & u1 & E1 & O1 & L1 & K1 & Hb). rewrite (bind_ok _ _ _ _ _ E1).
  destruct b.
  { exists l, u1. split_and!; [done..|]. constructor; [|constructor]. intros d _ _. exact Hb. }
  destruct Hb as [-> Hn]. unfold readable in HR. destruct (k_descriptors k name) as [r|].
  2: { exists l, u. split_and!; [done..|]. constructor; [|constructor]. intros d Hd. congruence. }
  destruct (read_descriptors k r) as [devdesc desclength]. cbn [fst snd] in HR. rewrite (bind_ok _ _ _ _ _ (HR u)). destruct (seen name) as [d|] eqn:Es.
  2: { exists l, u. split_and!; [done..|]. constructor; [|constructor]. intros d Hd. congruence. }
  destruct (register_device_ok l (done ++ [name]) u k name d O1 L1 ltac:(set_solver) Hn) as (l' & u' & E' & O' & L' & K' & Ho).
  exists l', u'. split_and!; [done..|]. constructor; [|constructor]. intros d' Hd Hop. apply Ho. congruence.
Qed.

Lemma scan_bus_ok k vs seen busname entries : scans k vs seen (scan_bus k vs busname entries) (entries ≫= dev_names busname).
Proof. induction entries as [|e entries IH]; cbn; [apply scans_nil|]. apply scans_app; [apply scan_entry_ok|exact IH]. Qed.

Lemma scan_buses_ok k vs seen base entries : scans k vs seen (scan_buses k vs base entries) (entries ≫= bus_names k base).
Proof.
  induction entries as [|e entries IH]; cbn; [apply scans_nil|]. apply scans_app; [|exact IH]. unfold bus_names.
  destruct (badname e); [apply scans_nil|]. destruct (k_dir k _); [apply scan_bus_ok|apply scans_nil].
Qed.

Lemma find_usb_device_ok k vs seen : scans k vs seen (find_usb_device k vs (bs "/dev/bus/usb")) (devices k).
Proof. unfold find_usb_device, devices. destruct (k_dir k _); [apply scan_buses_ok|apply scans_nil]. Qed.

(** ** Devices that are gone *)

Definition kicked (h : handle) : handle :=
  if h_dead h then h
  else if h_writeable h then set_out false (- ENODEV) (set_in false (- ENODEV) (set_dead true h)) else set_dead true h.

Lemma kicked_facts h : h_dead (kicked h) = true /\ h_fname (kicked h) = h_fname h /\ h_mark (kicked h) = h_mark h.
Proof. unfold kicked. destruct (h_dead h) eqn:E; [done|]. by destruct (h_writeable h). Qed.

Lemma usb_kick_ok u a h :
  u_handles u !! a = Some h ->
  exists cs, usb_kick a u = Ok (tt, upd_calls (fun l => l ++ cs) (upd_handles <[a := kicked h]> u)) /\ registered cs = [].
Proof.
  intros Hh. unfold usb_kick, kicked. rewrite (bind_ok _ _ _ _ _ (handle_at_ok _ _ _ Hh)). destruct (h_dead h).
  - exists []. split; [|done]. destruct u. unfold ret, upd_calls, upd_handles. cbn in *. by rewrite app_nil_r, insert_id.
  - cbn [set_dead h_writeable]. destruct (h_writeable h).
    + exists [Discard a; Broadcast a]. split; [|done]. destruct u. unfold bind, ucall_log, set_handle, modify, upd_calls, upd_handles. cbn. by rewrite <- app_assoc.
    + by exists [UnregisterTransport a].
Qed.

(** What the loop does to a handle. *)
Definition swept (h : handle) : handle := if h_mark h then set_mark false h else kicked h.

Lemma kick_loop_ok : forall l fuel p u,
  seg (u_links u) p l 0 -> NoDup l -> 0 ∉ l -> (forall a, a ∈ l -> is_Some (u_handles u !! a)) -> (length l <= fuel)%nat ->
  exists m cs, kick_loop fuel (default 0 (head l)) u = Ok (tt, upd_calls (fun c => c ++ cs) (upd_handles (fun _ => m) u)) /\ registered cs = [] /\
    forall a, m !! a = if decide (a ∈ l) then swept <$> u_handles u !! a else u_handles u !! a.
Proof.
  induction l as [|x l IH]; intros fuel p u Hs Hnd H0 Hd Hf.
  { exists (u_handles u), []. split_and!; [|done|done]. destruct fuel, u; unfold upd_calls, upd_handles; cbn; by rewrite app_nil_r. }
  destruct Hs as (_ & _ & Hs). destruct fuel as [|fuel]; [cbn in Hf; lia|]. change (default 0 (head (x :: l))) with x.
  apply list.NoDup_cons in Hnd as [Hx Hnd]. cbn [kick_loop]. destruct (x =? 0) eqn:E; bools; [set_solver|].
  destruct (Hd x ltac:(set_solver)) as [h Hh]. rewrite (bind_ok _ _ _ _ _ (handle_at_ok _ _ _ Hh)).
  assert (exists c1, (if h_mark h then set_handle x (set_mark false h) else usb_kick x) u =
    Ok (tt, upd_calls (fun c => c ++ c1) (upd_handles <[x := swept h]> u)) /\ registered c1 = []) as (c1 & E1 & R1).
  { unfold swept. destruct (h_mark h); [|by apply usb_kick_ok]. exists []. split; [|done]. destruct u. unfold set_handle, modify, upd_calls, upd_handles. cbn. by rewrite app_nil_r. }
  rewrite (bind_ok _ _ _ _ _ E1). set (u1 := upd_calls _ _).
  assert (nxt (u_links u1) x = Some (default 0 (head l))) as Hn by (destruct l; by destruct Hs). rewrite (bind_ok _ _ _ _ _ (next_of_ok _ _ _ Hn)).
  destruct (IH fuel x u1 Hs Hnd) as (m & cs & E2 & R2 & Hm); [set_solver| |cbn in Hf; lia|].
  { intros a Ha. cbn. rewrite lookup_insert_ne by set_solver. apply Hd. set_solver. }
  exists m, (c1 ++ cs). split_and!.
  - rewrite E2. destruct u. unfold u1, upd_calls, upd_handles. cbn. by rewrite app_assoc.
  - unfold registered in *. by rewrite omap_app, R1, R2.
  - intros a. rewrite Hm. cbn. destruct (decide (a = x)) as [->|Ha].
    + rewrite decide_False by done. rewrite decide_True by set_solver. by rewrite lookup_insert_eq, Hh.
    + rewrite lookup_insert_ne by done. destruct (decide (a ∈ l)); [rewrite decide_True by set_solver|rewrite decide_False by set_solver]; done.
Qed.

(** After a scan that came across [done]. *)
Lemma kick_disconnected_ok l done u :
  us_ok l done u -> u_locked u = false ->
  exists u', kick_disconnected_devices u = Ok (tt, u') /\ us_ok l [] u' /\ u_locked u' = false /\ u_handles u' = swept <$> u_handles u.
Proof.
  intros H Hf. unfold kick_disconnected_devices. rewrite (bind_ok _ _ _ _ _ (lock_ok u Hf)). unfold bind at 1, get at 1. set (u1 := upd_locked _ u).
  pose proof (ring_size _ _ _ (us_ring _ _ _ H)) as Hc. destruct (us_ring _ _ _ H) as [Hnd Hs]. apply list.NoDup_cons in Hnd as [H0 Hnd].
  assert (nxt (u_links u1) 0 = Some (default 0 (head l))) as Hn by (destruct l; by destruct Hs). rewrite (bind_ok _ _ _ _ _ (next_of_ok _ _ _ Hn)).
  destruct (kick_loop_ok l (size (u_links u1)) 0 u1 Hs Hnd H0) as (m & cs & E & R & Hm); [intros a; by apply (us_dom _ _ _ H)|done|].
  rewrite (bind_ok _ _ _ _ _ E). eexists. split; [reflexivity|].
  assert (m = swept <$> u_handles u) as ->.
  { apply map_eq. intros a. rewrite Hm, lookup_fmap. cbn. destruct (decide (a ∈ l)) as [Ha|Ha]; [done|]. rewrite (us_dom _ _ _ H) in Ha.
    destruct (u_handles u !! a); [by destruct Ha|done]. }
  split_and!; [|done|done].
  assert (us_ok l [] (upd_handles (fun _ => swept <$> u_handles u) u)) as [H1 H2 H3 H4 H5 H6 H7 H8 H9].
  { apply (us_ok_handles l done); [done|intros a; by rewrite lookup_fmap, fmap_is_Some|]. intros a h' Hh'. rewrite lookup_fmap in Hh'.
    apply fmap_Some in Hh' as (h & Hh & ->). exists h. split; [done|]. unfold swept. destruct (h_mark h) eqn:Em; [done|].
    destruct (kicked_facts h) as (_ & F1 & F2). by rewrite F1, F2, Em. }
  assert (registered (u_calls u ++ cs) = registered (u_calls u)) as Er by (unfold registered in *; by rewrite omap_app, R, app_nil_r).
  split; cbn -[registered]; rewrite ?Er; done.
Qed.

(** ** A round *)

(** What a round has done: live handles are those of devices that are there, debug
    devices that can be opened have a handle, the other handles are as before but
    for those of devices that are gone. *)
Definition up_to_date (k : kernel) (seen : list Z -> option adb_device) (u u' : usb) : Prop :=
  (forall a h', u_handles u' !! a = Some h' -> h_dead h' = false -> h_fname h' ∈ devices k) /\
  Forall (covered k seen u') (devices k) /\
  (forall a h, u_handles u !! a = Some h -> exists h', u_handles u' !! a = Some h' /\ h_fname h' = h_fname h /\
    h_dead h' = h_dead h || negb (bool_decide (h_fname h ∈ devices k))).

Lemma swept_facts (h : handle) : h_fname (swept h) = h_fname h /\ h_dead (swept h) = h_dead h || negb (h_mark h).
Proof.
  unfold swept. destruct (h_mark h); [by rewrite orb_false_r|]. destruct (kicked_facts h) as (-> & -> & _). by rewrite orb_true_r.
Qed.

Lemma poll_round_ok l u k vs seen :
  us_ok l [] u -> u_locked u = false -> Forall (readable k vs seen) (devices k) ->
  exists l' u', poll_round k vs u = Ok (tt, u') /\ us_ok l' [] u' /\ u_locked u' = false /\ up_to_date k seen u u'.
Proof.
  intros H Hf HF. unfold poll_round. destruct (find_usb_device_ok k vs seen l [] u H Hf HF) as (l1 & u1 & E1 & O1 & L1 & K1 & C1).
  rewrite (bind_ok _ _ _ _ _ E1). destruct (kick_disconnected_ok l1 (devices k) u1 O1 L1) as (u' & -> & O' & L' & Hm).
  exists l1, u'. split_and!; [done|done|done|]. split_and!.
  - intros a h' Hh' Hd. rewrite Hm, lookup_fmap in Hh'. apply fmap_Some in Hh' as (h & Hh & ->). destruct (swept_facts h) as [-> Ed]. rewrite Ed in Hd. bools.
    rewrite (us_marks _ _ _ O1 a h Hh) in *. by apply (bool_decide_eq_true_1 _).
  - eapply list.Forall_impl; [exact C1|]. intros name Hc d Hd Ho. destruct (Hc d Hd Ho) as (a & h & Hh & Hn). exists a, (swept h).
    rewrite Hm, lookup_fmap, Hh. split; [done|]. by rewrite (proj1 (swept_facts h)).
  - intros a h Hh. destruct (proj1 K1 a h Hh) as (h1 & Hh1 & En & Ed). exists (swept h1). rewrite Hm, lookup_fmap, Hh1.
    destruct (swept_facts h1) as [F1 F2]. split_and!; [done|congruence|]. by rewrite F2, Ed, (us_marks _ _ _ O1 a h1 Hh1), En.
Qed.

(** ** The end of a handle *)

Lemma usb_close_ok l u a h :
  us_ok l [] u -> u_locked u = false -> u_handles u !! a = Some h ->
  exists l' u', usb_close a u = Ok (0, u') /\ us_ok l' [] u' /\ u_locked u' = false /\ u_handles u' = delete a (u_handles u) /\
    u_closed u' = u_closed u ++ [h_desc h].
Proof.
  intros H Hf Hh. assert (a ∈ l) as (l1 & l2 & ->)%list_elem_of_split by (apply (us_dom _ _ _ H); eauto).
  pose proof (us_ring _ _ _ H) as R. destruct (ring_member _ _ _ _ _ R) as (n & p & Hn & Hp & Hna & Hpa & Sn & Sp).
  destruct (ring_unlinked _ _ _ _ _ _ _ R Hn Hp) as [R1 R2]. pose proof R as [Hnd _].
  apply list.NoDup_cons in Hnd as [H0 Hnd]. apply list.NoDup_app in Hnd as (_ & N1 & N2). apply list.NoDup_cons in N2 as [N2 _].
  eexists (l1 ++ l2), _. split.
  { unfold usb_close. rewrite (bind_ok _ _ _ _ _ (lock_ok u Hf)). erewrite bind_ok by (apply next_of_ok; exact Hn). erewrite bind_ok by (apply prev_of_ok; exact Hp).
    erewrite bind_ok by (by apply set_prev_of_ok).
    erewrite bind_ok by (apply prev_of_ok; cbn -[put_prev put_next]; rewrite prv_put_prev by done; by rewrite decide_False).
    erewrite bind_ok by (apply next_of_ok; cbn -[put_prev put_next]; by rewrite nxt_put_prev by done).
    erewrite bind_ok by (apply set_next_of_ok; (cbn; by apply put_prev_some)).
    erewrite bind_ok by (apply handle_at_ok; exact Hh). reflexivity. }
  split_and!; [|done|done|done]. destruct H as [H1 H2 H3 H4 H5 H6 H7 H8 H9]. split; cbn -[registered]; try done.
  - split; [done|]. apply seg_delete_else; [set_solver|done].
  - intros b. pose proof (H2 b) as Hb. rewrite elem_of_app, elem_of_cons in Hb. rewrite elem_of_app. destruct (decide (b = a)) as [->|Hba].
    + rewrite lookup_delete_eq. split; [|by intros [? ?]]. intros [Hin|Hin]; [by destruct (N1 a Hin); left|done].
    + rewrite lookup_delete_ne by done. rewrite <- Hb. naive_solver.
  - intros b c x y [_ Hx]%lookup_delete_Some [_ Hy]%lookup_delete_Some. by apply H3.
  - intros b x [_ Hx]%lookup_delete_Some. by apply (H4 b).
  - intros b Hb. rewrite lookup_delete_None. right. by apply H6.
  - intros b Hb. apply H8. set_solver.
Qed.

(** ** Sequences *)

(** Rounds of the polling thread with what the kernel shows then, and the calls the
    transports make. *)
Inductive uevent := UPoll (k : kernel) | UKick (a : Z) | UClose (a : Z).

Definition run_uevent (vendorIds : list Z) (e : uevent) : U unit :=
  match e with
  | UPoll k => poll_round k vendorIds
  | UKick a => usb_kick a
  | UClose a => _ <- usb_close a ;; ret tt
  end.

Fixpoint run_uevents (vendorIds : list Z) (es : list uevent) : U unit :=
  match es with
  | [] => ret tt
  | e :: es => run_uevent vendorIds e ;; run_uevents vendorIds es
  end.

Definition ulegal (vendorIds : list Z) (u : usb) (e : uevent) : Prop :=
  match e with
  | UPoll k => exists seen, Forall (readable k vendorIds seen) (devices k)
  | UKick a | UClose a => is_Some (u_handles u !! a)
  end.

Fixpoint ulegal_trace (vendorIds : list Z) (u : usb) (es : list uevent) : Prop :=
  match es with
  | [] => True
  | e :: es => ulegal vendorIds u e /\ match run_uevent vendorIds e u with Ok (_, u') => ulegal_trace vendorIds u' es | Err _ => True end
  end.

(** The empty list. *)
Definition usb0 : usb := mkUsb ∅ {[0 := (0, 0)]} 1 false [] [] EINTR [] [] [] [].

Lemma usb0_ok : us_ok [] [] usb0.
Proof.
  split; try done; cbn.
  - split; [|done]. apply list.NoDup_cons. split; [set_solver|apply NoDup_nil_2].
  - intros a. rewrite lookup_empty. split; [set_solver|by intros [? ?]].
  - apply NoDup_nil_2.
  - set_solver.
Qed.

Lemma run_uevent_ok vs l u e :
  us_ok l [] u -> u_locked u = false -> ulegal vs u e -> exists l' u', run_uevent vs e u = Ok (tt, u') /\ us_ok l' [] u' /\ u_locked u' = false.
Proof.
  intros H Hf Hl. destruct e as [k|a|a]; cbn [run_uevent ulegal] in *.
  - destruct Hl as [seen HF]. destruct (poll_round_ok l u k vs seen H Hf HF) as (l' & u' & E & O & L & _). by exists l', u'.
  - destruct Hl as [h Hh]. destruct (usb_kick_ok u a h Hh) as (cs & -> & R). exists l. eexists. split; [reflexivity|]. split; [|done].
    destruct (kicked_facts h) as (_ & Fn & Fm).
    assert (us_ok l [] (upd_handles (fun _ => <[a := kicked h]> (u_handles u)) u)) as [H1 H2 H3 H4 H5 H6 H7 H8 H9].
    { apply (us_ok_handles l []); [done|intros b; rewrite lookup_insert_is_Some; destruct (decide (a = b)); [by left|by right]|].
      intros b x [[<- <-]|[_ Hx]]%lookup_insert_Some; [exists h|exists x]; (split; [done|split; [done|]]); [rewrite Fm|]; by eapply (us_marks _ _ _ H). }
    assert (registered (u_calls u ++ cs) = registered (u_calls u)) as Er by (unfold registered in *; by rewrite omap_app, R, app_nil_r).
    split; cbn -[registered]; rewrite ?Er; done.
  - destruct Hl as [h Hh]. destruct (usb_close_ok l u a h H Hf Hh) as (l' & u' & E & O & L & _). rewrite (bind_ok _ _ _ _ _ E). by exists l', u'.
Qed.

Lemma run_uevents_ok vs : forall es l u,
  us_ok l [] u -> u_locked u = false -> ulegal_trace vs u es -> exists l' u', run_uevents vs es u = Ok (tt, u') /\ us_ok l' [] u' /\ u_locked u' = false.
Proof.
  induction es as [|e es IH]; intros l u H Hf Hl; [by exists l, u|]. destruct Hl as [Hl Hr].
  destruct (run_uevent_ok vs l u e H Hf Hl) as (l1 & u1 & E & O & L). rewrite E in Hr. cbn [run_uevents]. rewrite (bind_ok _ _ _ _ _ E). by eapply IH.
Qed.


(** ** Witness *)

(** A bus with a phone and a mouse, and the same bus without the phone. *)
Definition phone_bytes : list Z :=
  [18; 1; 0; 2; 0; 0; 0; 64; 0xd1; 0x18; 0x12; 0x4e; 0x26; 2; 1; 2; 3; 1; 9; 2; 32; 0; 1; 1; 0; 0x80; 250;
   9; 4; 0; 0; 2; 0xff; 0x42; 1; 0; 7; 5; 0x84; 2; 0; 2; 0; 7; 5; 3; 2; 0; 2; 0].
Definition mouse_bytes : list Z := [18; 1; 0; 2; 0; 0; 0; 8; 0x6d; 4; 0; 1; 0; 1; 0; 1; 0; 1; 9; 2; 18; 0; 1; 1; 0; 0x80; 50; 9; 4; 0; 0; 1; 3; 1; 2; 0].

Definition demo_kernel (phone : bool) : kernel :=
  mkKernel
    (fun dir => if streq dir (bs "/dev/bus/usb") then Some [bs "."; bs "001"]
                else if streq dir (bs "/dev/bus/usb/001") then Some (bs "003" :: if phone then [bs "007"] else []) else None)
    (fun name => if streq name (bs "/dev/bus/usb/001/007") then Some (Some phone_bytes) else if streq name (bs "/dev/bus/usb/001/003") then Some (Some mouse_bytes) else None)
    (fun name => Some 9) (fun _ => None) (fun _ _ => 0)
    (fun _ value _ => if value =? 768 then (4, [772; 1033] ++ replicate 126 0) else (10, [778; 72; 84; 57; 67] ++ replicate 123 0))
    (replicate 256 0).

Definition demo_seen (name : list Z) : option adb_device :=
  if streq name (bs "/dev/bus/usb/001/007") then Some (mkDevice 0x84 3 0 3 511) else None.

Lemma demo_readable phone : Forall (readable (demo_kernel phone) builtInVendorIds demo_seen) (devices (demo_kernel phone)).
Proof.
  assert (forall name, name = bs "/dev/bus/usb/001/003" \/ name = bs "/dev/bus/usb/001/007" -> readable (demo_kernel phone) builtInVendorIds demo_seen name) as Hr.
  { intros name [-> | ->] u; by vm_compute. }
  destruct phone.
  - replace (devices (demo_kernel true)) with [bs "/dev/bus/usb/001/003"; bs "/dev/bus/usb/001/007"] by (by vm_compute).
    repeat constructor; apply Hr; tauto.
  - replace (devices (demo_kernel false)) with [bs "/dev/bus/usb/001/003"] by (by vm_compute). repeat constructor; apply Hr; tauto.
Qed.

(** The phone comes, goes, and its transport closes the handle. *)
Definition demo_usb_events : list uevent := [UPoll (demo_kernel true); UPoll (demo_kernel false); UClose 1].
Definition after_uevents (es : list uevent) : usb := match run_uevents builtInVendorIds es usb0 with Ok (_, u) => u | Err _ => usb0 end.

Lemma demo_usb_legal : ulegal_trace builtInVendorIds usb0 demo_usb_events.
Proof.
  unfold demo_usb_events. cbn [ulegal_trace]. split; [exists demo_seen; apply demo_readable|].
  assert (run_uevent builtInVendorIds (UPoll (demo_kernel true)) usb0 = Ok (tt, after_uevents [UPoll (demo_kernel true)])) as -> by (by vm_compute).
  split; [exists demo_seen; apply demo_readable|].
  assert (run_uevent builtInVendorIds (UPoll (demo_kernel false)) (after_uevents [UPoll (demo_kernel true)]) =
    Ok (tt, after_uevents [UPoll (demo_kernel true); UPoll (demo_kernel false)])) as -> by (by vm_compute).
  split; [cbn [ulegal]; eexists; by vm_compute|]. by destruct (run_uevent _ _ _) as [[? ?]|].
Qed.

