(* ===== verification/UsbTransfer.v ===== *)
(** * Transfers to and from USB devices

    What is written to a device goes out in requests of at most 4096 bytes, in order
    and complete, with an empty one at the end where the device needs it; what such
    requests bring is read back as it was written. *)

From S2P Require Import Prelude Ring Io UsbHost.

(** ** Chunks *)

Fixpoint chunks (fuel : nat) (data : list Z) : list (list Z) :=
  match data with
  | [] => []
  | _ => match fuel with O => [] | S f => take XFER data :: chunks f (drop XFER data) end
  end.

Lemma chunks_join : forall fuel data, (length data <= fuel)%nat -> mjoin (chunks fuel data) = data.
Proof.
  induction fuel as [|fuel IH]; intros [|x data] H; try done; [cbn in H; lia|]. cbn [chunks].
  change (mjoin (?c :: ?cs)) with (c ++ mjoin cs). rewrite IH; [by rewrite take_drop|]. rewrite length_drop. unfold XFER. cbn [length] in *. lia.
Qed.

(** ** Scripts without failures *)

Definition benign_submit (l : list (option errno)) : Prop := Forall (fun r => r = None \/ r = Some EINTR) l.

(** A wake without anything having happened, a timeout among them. *)
Definition idle_wake (w : wake) : Prop := 0 <= wk_res w /\ wk_dead w = false /\ wk_done w = None.

(** The transfers [cs] end one after the other. *)
Fixpoint completes (cs : list (list Z)) (ws : list wake) : Prop :=
  match cs with
  | [] => True
  | c :: cs => exists idle r ws', ws = idle ++ mkWake r false (Some (0, Z.of_nat (length c))) :: ws' /\ Forall idle_wake idle /\ 0 <= r /\ completes cs ws'
  end.

(** Reaping is interrupted, or ends a write. *)
Definition noise (r : reap) : Prop := match r with ReapFailed e d => e = EINTR /\ d = false | ReapOut _ d => d = false | ReapIn _ _ _ => False end.

(** The transfers bring [cs] one after the other. *)
Fixpoint brings (cs : list (list Z)) (rs : list reap) : Prop :=
  match cs with
  | [] => True
  | c :: cs => exists ns rs', rs = ns ++ ReapIn 0 c false :: rs' /\ Forall noise ns /\ brings cs rs'
  end.

(** What stays of a handle and of the state. *)
Record alike (h h' : handle) : Prop := Alike {
  al_in : h_ep_in h' = h_ep_in h;
  al_out : h_ep_out h' = h_ep_out h;
  al_zero : h_zero_mask h' = h_zero_mask h;
  al_desc : h_desc h' = h_desc h;
  al_dead : h_dead h' = h_dead h;
}.

Lemma alike_refl h : alike h h.
Proof. done. Qed.
Lemma alike_trans h1 h2 h3 : alike h1 h2 -> alike h2 h3 -> alike h1 h3.
Proof. intros [] []. split; congruence. Qed.

Lemma usb_handle_at u a h : u_handles u !! a = Some h -> handle_at a u = Ok (h, u).
Proof. unfold handle_at, bind, get, deref. by intros ->. Qed.

Lemma submit_ok ep data u :
  benign_submit (u_submit u) ->
  exists u', submit_urb ep data u = Ok (true, u') /\ u_handles u' = u_handles u /\ u_urbs u' = u_urbs u ++ [(ep, data)] /\ benign_submit (u_submit u') /\
    u_wakes u' = u_wakes u /\ u_reaps u' = u_reaps u.
Proof.
  intros HF. unfold submit_urb, bind at 1, get at 1.
  assert (forall l v, benign_submit l -> exists e l', submit_loop l v = Ok (true, upd_submit (fun _ => l') (upd_errno (fun _ => e) v)) /\ benign_submit l') as Hl.
  { induction l as [|r l IH]; intros v Hb; cbn [submit_loop].
    - exists (u_errno v), []. split; [by destruct v|constructor].
    - apply list.Forall_cons in Hb as [[-> | ->] Hb].
      + exists (u_errno v), l. split; [by destruct v|done].
      + unfold bind at 1, modify at 1. rewrite decide_True by done. destruct (IH (upd_errno (fun _ => EINTR) v) Hb) as (e & l' & -> & Hb'). by exists e, l'. }
  destruct (Hl (u_submit u) u HF) as (e & l' & E & Hb). rewrite (bind_ok _ _ _ _ _ E). cbn [when]. eexists. split; [reflexivity|]. by split_and!.
Qed.

(** ** Writing *)

Lemma wait_loop_ok a n r ws' : forall idle u h,
  Forall idle_wake idle -> 0 <= r -> u_handles u !! a = Some h -> h_dead h = false -> h_out_busy h = true ->
  exists u' h', wait_loop (idle ++ mkWake r false (Some (0, n)) :: ws') a u = Ok (n, u') /\ u_handles u' !! a = Some h' /\ alike h h' /\
    u_wakes u' = ws' /\ u_urbs u' = u_urbs u /\ u_submit u' = u_submit u.
Proof.
  induction idle as [|w idle IH]; intros u h HF Hr Hh Hd Hb; cbn [app wait_loop]; unfold bind at 1, modify at 1;
    (erewrite bind_ok by (apply usb_handle_at; exact Hh)); unfold bind at 1, set_handle at 1, modify at 1.
  - change (woken (mkWake r false (Some (0, n))) h) with (set_out false 0 h). cbn [wk_done wk_dead wk_res h_dead h_out_busy h_out_status set_out]. rewrite (proj2 (Z.ltb_ge _ _) Hr), Hd. cbn [orb negb Z.eqb].
    eexists _, _. split_and!; [reflexivity|cbn; apply lookup_insert_eq|done|done|done|done].
  - apply list.Forall_cons in HF as [(W1 & W2 & W3) HF].
    assert (woken w h = h) as Ew by (unfold woken; by rewrite W3, W2). rewrite Ew, (proj2 (Z.ltb_ge _ _) W1), Hd, Hb. cbn [orb negb].
    edestruct (IH (upd_handles <[a := h]> (upd_wakes (fun _ => idle ++ mkWake r false (Some (0, n)) :: ws') u)) h HF Hr) as (u' & h' & E & G); [cbn; apply lookup_insert_eq|done|done|].
    exists u', h'. by rewrite E.
Qed.

Lemma bulk_write_ok a c ws u h :
  (exists idle r, u_wakes u = idle ++ mkWake r false (Some (0, Z.of_nat (length c))) :: ws /\ Forall idle_wake idle /\ 0 <= r) ->
  benign_submit (u_submit u) -> u_handles u !! a = Some h -> h_dead h = false ->
  exists u' h', usb_bulk_write a c u = Ok (Z.of_nat (length c), u') /\ u_handles u' !! a = Some h' /\ alike h h' /\
    u_wakes u' = ws /\ u_urbs u' = u_urbs u ++ [(h_ep_out h, c)] /\ benign_submit (u_submit u').
Proof.
  intros (idle & r & Hw & HF & Hr) Hs Hh Hd. unfold usb_bulk_write. rewrite (bind_ok _ _ _ _ _ (usb_handle_at _ _ _ Hh)).
  unfold bind at 1, set_handle at 1, modify at 1. rewrite Hd. set (h1 := set_out _ _ h). set (u1 := upd_handles _ u).
  destruct (submit_ok (h_ep_out h) c u1 Hs) as (u2 & E2 & H2 & R2 & S2 & W2 & _). rewrite (bind_ok _ _ _ _ _ E2). cbn [negb].
  assert (u_handles u2 !! a = Some h1) as Hh2 by (rewrite H2; cbn; apply lookup_insert_eq). rewrite (bind_ok _ _ _ _ _ (usb_handle_at _ _ _ Hh2)).
  unfold bind at 1, set_handle at 1, modify at 1, bind at 1, get at 1. cbn [u_wakes upd_handles]. rewrite W2. cbn [u_wakes u1 upd_handles]. rewrite Hw.
  edestruct (wait_loop_ok a (Z.of_nat (length c)) r ws idle (upd_handles <[a := set_out true (h_out_status h1) h1]> u2)) as (u3 & h3 & E3 & H3 & A3 & W3 & R3 & S3);
    [exact HF|exact Hr|cbn; apply lookup_insert_eq|done|done|].
  exists u3, h3. split_and!; [exact E3|exact H3| |done| |].
  - by destruct A3; split.
  - rewrite R3. cbn. by rewrite R2.
  - by rewrite S3.
Qed.

Lemma write_chunks_ok a : forall fuel data u h cs,
  (length data <= fuel)%nat -> completes (chunks fuel data ++ cs) (u_wakes u) -> benign_submit (u_submit u) -> u_handles u !! a = Some h -> h_dead h = false ->
  exists u' h', write_chunks fuel a data u = Ok (true, u') /\ u_handles u' !! a = Some h' /\ alike h h' /\ completes cs (u_wakes u') /\
    benign_submit (u_submit u') /\ u_urbs u' = u_urbs u ++ (pair (h_ep_out h) <$> chunks fuel data).
Proof.
  induction fuel as [|fuel IH]; intros [|x data] u h cs Hl Hc Hs Hh Hd; try (by cbn in Hl; lia);
    try (exists u, h; cbn in *; rewrite app_nil_r; by split_and!).
  cbn [write_chunks chunks]. destruct Hc as (idle & r & ws' & Hw & HF & Hr & Hc).
  destruct (bulk_write_ok a (take XFER (x :: data)) ws' u h) as (u1 & h1 & E1 & H1 & A1 & W1 & R1 & S1); [by exists idle, r|done|done|done|].
  rewrite (bind_ok _ _ _ _ _ E1), Z.eqb_refl.
  destruct (IH (drop XFER (x :: data)) u1 h1 cs) as (u2 & h2 & E2 & H2 & A2 & C2 & S2 & R2); [rewrite length_drop; unfold XFER; cbn [length] in *; lia|by rewrite W1|done|done|by rewrite (al_dead _ _ A1)|].
  exists u2, h2. split_and!; [done|done|by eapply alike_trans|done|done|]. rewrite R2, R1, (al_out _ _ A1), <- app_assoc. done.
Qed.

(** The requests of a write. *)
Definition requests (zero_mask : Z) (data : list Z) : list (list Z) :=
  chunks (length data) data ++ if negb (zero_mask =? 0) && (Z.land (Z.of_nat (length data)) zero_mask =? 0) then [[]] else [].

Lemma usb_write_ok a data u h :
  completes (requests (h_zero_mask h) data) (u_wakes u) -> benign_submit (u_submit u) -> u_handles u !! a = Some h -> h_dead h = false ->
  exists u', usb_write a data u = Ok (0, u') /\ u_urbs u' = u_urbs u ++ (pair (h_ep_out h) <$> requests (h_zero_mask h) data).
Proof.
  intros Hc Hs Hh Hd. unfold usb_write. rewrite (bind_ok _ _ _ _ _ (usb_handle_at _ _ _ Hh)). unfold requests in *.
  destruct (write_chunks_ok a (length data) data u h _ ltac:(done) Hc Hs Hh Hd) as (u1 & h1 & E1 & H1 & A1 & C1 & S1 & R1). rewrite (bind_ok _ _ _ _ _ E1). cbn [negb].
  destruct (negb (h_zero_mask h =? 0) && _).
  - destruct C1 as (idle & r & ws' & Hw & HF & Hr & _).
    destruct (bulk_write_ok a [] ws' u1 h1) as (u2 & h2 & E2 & _ & _ & _ & R2 & _); [by exists idle, r|done|done|by rewrite (al_dead _ _ A1)|].
    exists u2. split; [exact E2|]. by rewrite R2, R1, (al_out _ _ A1), fmap_app, app_assoc.
  - exists u1. split; [done|]. by rewrite R1, app_nil_r.
Qed.

(** ** Reading *)

Lemma reap_loop_ok a c rs' len : forall ns u h,
  Forall noise ns -> (length c <= len)%nat -> u_handles u !! a = Some h -> h_dead h = false ->
  exists u' h', reap_loop (ns ++ ReapIn 0 c false :: rs') a len u = Ok ((Z.of_nat (length c), c), u') /\ u_handles u' !! a = Some h' /\ alike h h' /\
    u_reaps u' = rs' /\ u_submit u' = u_submit u.
Proof.
  induction ns as [|r ns IH]; intros u h HF Hc Hh Hd; cbn [app reap_loop]; unfold bind at 1, modify at 1; (erewrite bind_ok by (apply usb_handle_at; exact Hh)).
  - cbn [reap_dead when]. unfold bind at 1, ret at 1, bind at 1, ret at 1. rewrite Hd. cbn [orb Z.eqb]. rewrite take_ge by done.
    eexists _, _. split_and!; [reflexivity|cbn; apply lookup_insert_eq|done|done|done].
  - apply list.Forall_cons in HF as [Hr HF]. destruct r as [e d|st data d|st d]; [|done|]; cbn [noise] in Hr.
    + destruct Hr as [-> ->]. cbn [reap_dead when]. unfold bind at 1, ret at 1, bind at 1, modify at 1. rewrite Hd. cbn [orb]. rewrite decide_True by done.
      edestruct (IH (upd_errno (fun _ => EINTR) (upd_reaps (fun _ => ns ++ ReapIn 0 c false :: rs') u)) h HF Hc) as (u' & h' & E & G); [done|done|].
      exists u', h'. by rewrite E.
    + subst d. cbn [reap_dead when]. unfold bind at 1, ret at 1, bind at 1, ret at 1. rewrite Hd. cbn [orb]. unfold bind at 1, set_handle at 1, modify at 1, bind at 1, ucall_log at 1, modify at 1.
      edestruct (IH (upd_calls (fun l => l ++ [Broadcast a]) (upd_handles <[a := set_out false st h]> (upd_reaps (fun _ => ns ++ ReapIn 0 c false :: rs') u))) (set_out false st h) HF Hc)
        as (u' & h' & E & H' & A' & G); [cbn; apply lookup_insert_eq|done|].
      exists u', h'. rewrite E. split_and!; [done|done|by destruct A'; split|apply G|apply G].
Qed.

Lemma bulk_read_ok a c rs' len u h :
  (exists ns, u_reaps u = ns ++ ReapIn 0 c false :: rs' /\ Forall noise ns) -> (length c <= len)%nat -> benign_submit (u_submit u) ->
  u_handles u !! a = Some h -> h_dead h = false ->
  exists u' h', usb_bulk_read a len u = Ok ((Z.of_nat (length c), c), u') /\ u_handles u' !! a = Some h' /\ alike h h' /\ u_reaps u' = rs' /\ benign_submit (u_submit u').
Proof.
  intros (ns & Hw & HF) Hc Hs Hh Hd. unfold usb_bulk_read. rewrite (bind_ok _ _ _ _ _ (usb_handle_at _ _ _ Hh)).
  unfold bind at 1, set_handle at 1, modify at 1. rewrite Hd. set (h1 := set_in _ _ h). set (u1 := upd_handles _ u).
  destruct (submit_ok (h_ep_in h) [] u1 Hs) as (u2 & E2 & H2 & _ & S2 & _ & W2). rewrite (bind_ok _ _ _ _ _ E2). cbn [negb].
  assert (u_handles u2 !! a = Some h1) as Hh2 by (rewrite H2; cbn; apply lookup_insert_eq). rewrite (bind_ok _ _ _ _ _ (usb_handle_at _ _ _ Hh2)).
  unfold bind at 1, set_handle at 1, modify at 1, bind at 1, get at 1. cbn [u_reaps upd_handles]. rewrite W2. cbn [u_reaps u1 upd_handles]. rewrite Hw.
  edestruct (reap_loop_ok a c rs' len ns (upd_handles <[a := set_in true (h_in_status h1) h1]> u2)) as (u3 & h3 & E3 & H3 & A3 & W3 & S3);
    [exact HF|exact Hc|cbn; apply lookup_insert_eq|done|].
  exists u3, h3. split_and!; [exact E3|exact H3|by destruct A3; split|done|by rewrite S3].
Qed.

Lemma usb_read_loop_ok a : forall n fuel data acc u h,
  (length data <= n)%nat -> (n <= fuel)%nat -> brings (chunks n data) (u_reaps u) -> benign_submit (u_submit u) -> u_handles u !! a = Some h -> h_dead h = false ->
  exists u', usb_read_loop fuel a (length data) acc u = Ok (Some (acc ++ data), u').
Proof.
  induction n as [|n IH]; intros fuel [|x data] acc u h Hn Hf Hb Hs Hh Hd; try (by cbn in Hn; lia);
    try (exists u; rewrite app_nil_r; by destruct fuel).
  destruct fuel as [|fuel]; [lia|]. set (xs := x :: data) in *. destruct Hb as (ns & rs' & Hw & HF & Hb).
  assert (length (take XFER xs) = Nat.min XFER (length xs)) as Hx by apply length_take.
  destruct (bulk_read_ok a (take XFER xs) rs' (Nat.min XFER (length xs)) u h) as (u1 & h1 & E1 & H1 & A1 & W1 & S1); [by exists ns|lia|done|done|done|].
  change (usb_read_loop (S fuel) a (length xs) acc u) with
    ((r <- usb_bulk_read a (Nat.min XFER (length xs)) ;; let '(n, data) := r in
      if n =? Z.of_nat (Nat.min XFER (length xs)) then usb_read_loop fuel a (length xs - Nat.min XFER (length xs)) (acc ++ data)
      else h <- handle_at a ;; u <- get ;;
        if bool_decide (u_errno u = ETIMEDOUT) && negb (h_desc h =? -1) then
          if 0 <? n then usb_read_loop fuel a (length xs - Z.to_nat n) (acc ++ data) else usb_read_loop fuel a (length xs) acc
        else ret None) u).
  rewrite (bind_ok _ _ _ _ _ E1), Hx, Z.eqb_refl.
  assert (length xs - Nat.min XFER (length xs) = length (drop XFER xs))%nat as -> by (rewrite length_drop; lia).
  destruct (IH fuel (drop XFER xs) (acc ++ take XFER xs) u1 h1) as (u2 & E2); [|lia|by rewrite W1|done|done|by rewrite (al_dead _ _ A1)|].
  { rewrite length_drop. unfold XFER. cbn [length xs] in *. lia. }
  exists u2. rewrite E2, <- app_assoc. by rewrite take_drop.
Qed.

Lemma chunks_nonempty : forall fuel data, Forall (fun c => c <> []) (chunks fuel data).
Proof. induction fuel as [|fuel IH]; intros [|x data]; cbn [chunks]; constructor; [done|apply IH]. Qed.

(** C34: without failures of the kernel, but with interrupted calls, timeouts and the
    ends of other transfers in between, a write of any length sends requests that
    together hold the data in order, with an empty one at the end exactly when the
    device needs it to see the end; and a read of as many bytes gets the data back
    from requests that bring these parts. *)
Theorem usb_transfers_arrive a data u h :
  completes (requests (h_zero_mask h) data) (u_wakes u) -> benign_submit (u_submit u) -> u_handles u !! a = Some h -> h_dead h = false ->
  exists u' sent, usb_write a data u = Ok (0, u') /\ u_urbs u' = u_urbs u ++ (pair (h_ep_out h) <$> sent) /\ mjoin sent = data /\
    (list.last sent = Some [] <-> h_zero_mask h <> 0 /\ Z.land (Z.of_nat (length data)) (h_zero_mask h) = 0) /\
    forall b hb v, brings (filter (fun c => c <> []) sent) (u_reaps v) -> benign_submit (u_submit v) -> u_handles v !! b = Some hb -> h_dead hb = false ->
      exists v', usb_read b (length data) v = Ok (Some data, v').
Proof.
  intros Hc Hs Hh Hd. destruct (usb_write_ok a data u h Hc Hs Hh Hd) as (u' & E & R). exists u', (requests (h_zero_mask h) data).
  pose proof (chunks_nonempty (length data) data) as HN.
  assert (mjoin (chunks (length data) data) = data) as Hj by (by apply chunks_join). set (cs := chunks (length data) data) in *.
  split_and!; [done|done| | |].
  - unfold requests. fold cs. destruct (_ && _); [|by rewrite app_nil_r]. rewrite join_app, Hj. apply app_nil_r.
  - unfold requests. fold cs. destruct (negb (h_zero_mask h =? 0) && _) eqn:Ez; bools.
    + rewrite last_snoc. by split.
    + rewrite app_nil_r. split.
      * intros Hl. apply last_Some_elem_of in Hl. rewrite list.Forall_forall in HN. by destruct (HN [] Hl).
      * intros [H1 H2]. apply andb_false_iff in Ez as [Ez|Ez]; bools; done.
  - intros b hb v Hb Hs' Hh' Hd'. assert (filter (fun c => c <> []) (requests (h_zero_mask h) data) = cs) as Ef.
    { unfold requests. fold cs. rewrite list.filter_app. replace (filter (fun c => c <> []) (if _ : bool then [[]] else [])) with (@nil (list Z)) by (by destruct (_ && _)).
      rewrite app_nil_r. clear -HN. induction cs as [|c cs IH]; [done|]. apply list.Forall_cons in HN as [Hc HN]. by rewrite filter_cons_True, IH. }
    rewrite Ef in Hb. unfold usb_read, bind, get.
    destruct (usb_read_loop_ok b (length data) (length data + length (u_reaps v) + length (u_submit v)) data [] v hb) as (v' & ->); [done|lia|done|done|done|done|].
    by exists v'.
Qed.

(** ** Witness *)

Definition demo_handle : handle := mkHandle (bs "/dev/bus/usb/001/007") 9 0x84 3 511 true false false 0 0 false false.
Definition demo_usb (ws : list wake) : usb := mkUsb {[1 := demo_handle]} {[0 := (1, 1); 1 := (0, 0)]} 2 false [] [] EINTR [Some EINTR; None] ws [] [].

(** 5120 bytes: two requests and an empty one; the second wait times out once. *)
Definition demo_wakes : list wake :=
  [mkWake 0 false (Some (0, 4096)); mkWake 110 false None; mkWake 0 false (Some (0, 1024)); mkWake 0 false (Some (0, 0))].

Definition demo_data : list Z := replicate (Z.to_nat 5120) 65.

Lemma usb_transfers_arrive_witness :
  exists u' sent, usb_write 1 demo_data (demo_usb demo_wakes) = Ok (0, u') /\ u_urbs u' = [] ++ (pair 3 <$> sent) /\ mjoin sent = demo_data /\
    (list.last sent = Some [] <-> 511 <> 0 /\ Z.land (Z.of_nat (length demo_data)) 511 = 0) /\
    forall b hb v, brings (filter (fun c => c <> []) sent) (u_reaps v) -> benign_submit (u_submit v) -> u_handles v !! b = Some hb -> h_dead hb = false ->
      exists v', usb_read b (length demo_data) v = Ok (Some demo_data, v').
Proof.
  apply (usb_transfers_arrive 1 demo_data (demo_usb demo_wakes) demo_handle).
  - change (u_wakes (demo_usb demo_wakes)) with demo_wakes.
    replace (requests (h_zero_mask demo_handle) demo_data) with [take XFER demo_data; drop XFER demo_data; []] by (by vm_compute).
    exists [], 0, (drop 1 demo_wakes). split_and!; [done|constructor|done|].
    exists [mkWake 110 false None], 0, (drop 3 demo_wakes). split_and!; [done|by repeat constructor|done|].
    exists [], 0, []. split_and!; [done|constructor|done|done].
  - constructor; [by right|]. constructor; [by left|constructor].
  - done.
  - done.
Defined.
