(* ===== verification/FdEvent.v ===== *)
(** * The descriptor event loop (fdevent.c, built with select)

    An [fdevent] is embedded in its owner (a socket, a transport, a listener)
    and is identified by its address.  The module keeps the table of registered
    events by descriptor, the three descriptor sets given to [select], the list
    of events waiting for their callback and the bound [select_n].  [close]
    calls are recorded in [closed]. *)

From S2P Require Import Prelude.

Definition FDE_READ : Z := 0x0001.
Definition FDE_WRITE : Z := 0x0002.
Definition FDE_ERROR : Z := 0x0004.
Definition FDE_TIMEOUT : Z := 0x0008.
Definition FDE_DONT_CLOSE : Z := 0x0080.
Definition FDE_EVENTMASK : Z := 0x00ff.
Definition FDE_STATEMASK : Z := 0xff00.
Definition FDE_ACTIVE : Z := 0x0100.
Definition FDE_PENDING : Z := 0x0200.
Definition FDE_CREATED : Z := 0x0400.

(** Number of descriptors an [fd_set] has room for. *)
Definition FD_SETSIZE : Z := 1024.

(** [if (x & m)]. *)
Definition hasbit (x m : Z) : bool := negb (Z.land x m =? 0).

(** [unsigned short] truncation of the stored state. *)
Definition u16 (x : Z) : Z := x mod 65536.

Section FdEvent.
(** [F]: the callback functions of the program. *)
Context {F : Type}.

Record fdevent := mkFde {
  fde_fd : Z;
  fde_state : Z;
  fde_events : Z;
  fde_func : F;
  fde_arg : Z
}.

Record fdst := mkFdst {
  fdes : gmap Z fdevent;
  list_pending : list Z;
  fd_table : list (option Z);
  read_fds : gset Z;
  write_fds : gset Z;
  error_fds : gset Z;
  select_n : Z;
  closed : list Z
}.

Definition fd_table_max (s : fdst) : Z := Z.of_nat (length (fd_table s)).

Definition set_fdes (f : gmap Z fdevent -> gmap Z fdevent) (s : fdst) : fdst :=
  mkFdst (f (fdes s)) (list_pending s) (fd_table s) (read_fds s) (write_fds s)
    (error_fds s) (select_n s) (closed s).
Definition set_pending (f : list Z -> list Z) (s : fdst) : fdst :=
  mkFdst (fdes s) (f (list_pending s)) (fd_table s) (read_fds s) (write_fds s)
    (error_fds s) (select_n s) (closed s).
Definition set_table (f : list (option Z) -> list (option Z)) (s : fdst) : fdst :=
  mkFdst (fdes s) (list_pending s) (f (fd_table s)) (read_fds s) (write_fds s)
    (error_fds s) (select_n s) (closed s).
Definition set_fds (r w e : gset Z) (s : fdst) : fdst :=
  mkFdst (fdes s) (list_pending s) (fd_table s) r w e (select_n s) (closed s).
Definition set_select_n (n : Z) (s : fdst) : fdst :=
  mkFdst (fdes s) (list_pending s) (fd_table s) (read_fds s) (write_fds s)
    (error_fds s) n (closed s).
Definition log_close (fd : Z) (s : fdst) : fdst :=
  mkFdst (fdes s) (list_pending s) (fd_table s) (read_fds s) (write_fds s)
    (error_fds s) (select_n s) (closed s ++ [fd]).

Definition set_state (st : Z) (e : fdevent) : fdevent :=
  mkFde (fde_fd e) (u16 st) (fde_events e) (fde_func e) (fde_arg e).
Definition set_events (ev : Z) (e : fdevent) : fdevent :=
  mkFde (fde_fd e) (fde_state e) (u16 ev) (fde_func e) (fde_arg e).

(** Access to the event at an address; a freed or unknown one is undefined. *)
Definition fde_at (a : Z) : M fdst fdevent := s <- get ;; deref (fdes s !! a).

Definition store_fde (a : Z) (e : fdevent) : M fdst unit := modify (set_fdes <[a := e]>).

(** ** The pending list *)

(** The circular list from [list_pending], front first.  Unlinking a node that
    is on no list follows null links. *)
Definition fdevent_plist_enqueue (a : Z) : M fdst unit :=
  modify (set_pending (fun l => l ++ [a])).

Definition fdevent_plist_remove (a : Z) : M fdst unit :=
  s <- get ;;
  if decide (a ∈ list_pending s)
  then modify (set_pending (filter (fun b => b <> a)))
  else fail EUndef.

Definition fdevent_plist_dequeue : M fdst (option Z) :=
  s <- get ;;
  match list_pending s with
  | [] => ret None
  | a :: l => modify (set_pending (fun _ => l)) ;; ret (Some a)
  end.

(** ** select *)

Definition fdevent_init : M fdst unit := modify (set_fds ∅ ∅ ∅).

Definition fdevent_connect (a : Z) : M fdst unit :=
  e <- fde_at a ;;
  s <- get ;;
  when (select_n s <=? fde_fd e) (modify (set_select_n (fde_fd e + 1))).

(** The loop [for(n = 0, i = 0; i < select_n; i++) if(fd_table[i] != 0) n = i]. *)
Fixpoint last_used (cnt : nat) (i n : Z) (tbl : list (option Z)) : option Z :=
  match cnt with
  | O => Some n
  | S c =>
      match tbl with
      | [] => None
      | x :: tbl' =>
          last_used c (i + 1) (match x with Some _ => i | None => n end) tbl'
      end
  end.

(** [FD_SET]/[FD_CLR] outside the [fd_set] write past it. *)
Definition fd_in_set (fd : Z) : M fdst unit :=
  if (0 <=? fd) && (fd <? FD_SETSIZE) then ret tt else fail EUndef.

Definition fdevent_disconnect (a : Z) : M fdst unit :=
  e <- fde_at a ;;
  fd_in_set (fde_fd e) ;;
  s <- get ;;
  modify (set_fds (read_fds s ∖ {[fde_fd e]}) (write_fds s ∖ {[fde_fd e]})
                  (error_fds s ∖ {[fde_fd e]})) ;;
  s <- get ;;
  n <- deref (last_used (Z.to_nat (select_n s)) 0 0 (fd_table s)) ;;
  modify (set_select_n (n + 1)).

Definition fd_put (b : bool) (fd : Z) (X : gset Z) : gset Z :=
  if b then {[fd]} ∪ X else X ∖ {[fd]}.

Definition fdevent_update (a : Z) (events : Z) : M fdst unit :=
  e <- fde_at a ;;
  fd_in_set (fde_fd e) ;;
  s <- get ;;
  modify (set_fds (fd_put (hasbit events FDE_READ) (fde_fd e) (read_fds s))
                  (fd_put (hasbit events FDE_WRITE) (fde_fd e) (write_fds s))
                  (fd_put (hasbit events FDE_ERROR) (fde_fd e) (error_fds s))) ;;
  store_fde a (set_state (Z.lor (Z.land (fde_state e) FDE_STATEMASK) events) e).

(** ** Registration *)

(** [fd_table_max *= 2] until it exceeds [fd]. *)
Fixpoint grow_max (fuel : nat) (mx fd : Z) : option Z :=
  if mx <=? fd then
    match fuel with
    | O => None
    | S f => grow_max f (mx * 2) fd
    end
  else Some mx.

Definition fdevent_register (a : Z) : M fdst unit :=
  e <- fde_at a ;;
  if fde_fd e <? 0 then fail EFatal
  else
    s <- get ;;
    (if fd_table_max s <=? fde_fd e then
       if 32000 <? fde_fd e then fail EFatal
       else
         when (fd_table_max s =? 0) fdevent_init ;;
         let mx0 := if fd_table_max s =? 0 then 256 else fd_table_max s in
         match grow_max 32 mx0 (fde_fd e) with
         | None => fail EFuel
         | Some mx =>
             (* realloc, then memset of the new entries: of sizeof(int) bytes each, which is
                all of them where a pointer has four bytes, as in the 32-bit builds *)
             modify (set_table (fun t => t ++ replicate (Z.to_nat mx - length t) None))
         end
     else ret tt) ;;
    modify (set_table <[Z.to_nat (fde_fd e) := Some a]>).

Definition fdevent_unregister (a : Z) : M fdst unit :=
  e <- fde_at a ;;
  s <- get ;;
  if (fde_fd e <? 0) || (fd_table_max s <=? fde_fd e) then fail EFatal
  else if decide (fd_table s !! Z.to_nat (fde_fd e) = Some (Some a)) then
    modify (set_table <[Z.to_nat (fde_fd e) := None]>) ;;
    when (negb (hasbit (fde_state e) FDE_DONT_CLOSE)) (modify (log_close (fde_fd e)))
  else fail EFatal.

Definition fdevent_install (a fd : Z) (func : F) (arg : Z) : M fdst unit :=
  s <- get ;;
  (* clearing the links of an event still on the pending list breaks the list *)
  if decide (a ∈ list_pending s) then fail EUndef
  else
    store_fde a (mkFde fd FDE_ACTIVE 0 func arg) ;;
    fdevent_register a ;;
    fdevent_connect a ;;
    e <- fde_at a ;;
    store_fde a (set_state (Z.lor (fde_state e) FDE_ACTIVE) e).

Definition fdevent_remove (a : Z) : M fdst unit :=
  e <- fde_at a ;;
  when (hasbit (fde_state e) FDE_PENDING) (fdevent_plist_remove a) ;;
  when (hasbit (fde_state e) FDE_ACTIVE) (fdevent_disconnect a ;; fdevent_unregister a) ;;
  e <- fde_at a ;;
  store_fde a (set_events 0 (set_state 0 e)).

(** [fdevent_create] allocates the event itself, at [a]. *)
Definition fdevent_create (a fd : Z) (func : F) (arg : Z) : M fdst unit :=
  fdevent_install a fd func arg ;;
  e <- fde_at a ;;
  store_fde a (set_state (Z.lor (fde_state e) FDE_CREATED) e).

Definition fdevent_destroy (a : Z) : M fdst unit :=
  e <- fde_at a ;;
  if negb (hasbit (fde_state e) FDE_CREATED) then fail EFatal
  else fdevent_remove a.

Definition fdevent_set (a : Z) (events : Z) : M fdst unit :=
  let events := Z.land events FDE_EVENTMASK in
  e <- fde_at a ;;
  if Z.land (fde_state e) FDE_EVENTMASK =? events then ret tt
  else
    when (hasbit (fde_state e) FDE_ACTIVE) (fdevent_update a events) ;;
    e <- fde_at a ;;
    let e := set_state (Z.lor (Z.land (fde_state e) FDE_STATEMASK) events) e in
    store_fde a e ;;
    if hasbit (fde_state e) FDE_PENDING then
      let e := set_events (Z.land (fde_events e) (Z.lnot events)) e in
      store_fde a e ;;
      if fde_events e =? 0 then
        fdevent_plist_remove a ;;
        store_fde a (set_state (Z.land (fde_state e) (Z.lnot FDE_PENDING)) e)
      else ret tt
    else ret tt.

Definition fdevent_add (a : Z) (events : Z) : M fdst unit :=
  e <- fde_at a ;;
  fdevent_set a (Z.lor (Z.land (fde_state e) FDE_EVENTMASK) (Z.land events FDE_EVENTMASK)).

Definition fdevent_del (a : Z) (events : Z) : M fdst unit :=
  e <- fde_at a ;;
  fdevent_set a (Z.land (Z.land (fde_state e) FDE_EVENTMASK)
                        (Z.lnot (Z.land events FDE_EVENTMASK))).

(** ** The loop *)

(** What [select] reported: -1 with an error, or the number of ready
    descriptors counted over the three result sets. *)
Record select_ret := mkSel {
  sel_n : Z;
  sel_r : gset Z;
  sel_w : gset Z;
  sel_e : gset Z
}.

Definition sel_events (r : select_ret) (i : Z) : Z :=
  Z.lor (Z.lor (if decide (i ∈ sel_r r) then FDE_READ else 0)
               (if decide (i ∈ sel_w r) then FDE_WRITE else 0))
        (if decide (i ∈ sel_e r) then FDE_ERROR else 0).

Fixpoint process_loop (cnt : nat) (i n : Z) (r : select_ret) : M fdst unit :=
  match cnt with
  | O => ret tt
  | S c =>
      if n <=? 0 then ret tt
      else
        let events := sel_events r i in
        if events =? 0 then process_loop c (i + 1) n r
        else
          s <- get ;;
          slot <- deref (fd_table s !! Z.to_nat i) ;;
          match slot with
          | None => fail EFatal
          | Some a =>
              e <- fde_at a ;;
              let e := set_events (Z.lor (fde_events e) events) e in
              store_fde a e ;;
              (if hasbit (fde_state e) FDE_PENDING then ret tt
               else
                 store_fde a (set_state (Z.lor (fde_state e) FDE_PENDING) e) ;;
                 fdevent_plist_enqueue a) ;;
              process_loop c (i + 1) (n - 1) r
          end
  end.

Definition fdevent_process (r : select_ret) : M fdst unit :=
  if sel_n r <? 0 then ret tt
  else s <- get ;; process_loop (Z.to_nat (select_n s)) 0 (sel_n r) r.

(** One turn of the inner loop of [fdevent_loop]: the callback to run next with
    its descriptor, events and argument. *)
Definition next_callback : M fdst (option (F * Z * Z * Z)) :=
  o <- fdevent_plist_dequeue ;;
  match o with
  | None => ret None
  | Some a =>
      e <- fde_at a ;;
      let events := fde_events e in
      store_fde a (set_state (Z.land (fde_state e) (Z.lnot FDE_PENDING)) (set_events 0 e)) ;;
      ret (Some (fde_func e, fde_fd e, events, fde_arg e))
  end.

End FdEvent.

Arguments fdevent : clear implicits.
Arguments fdst : clear implicits.

(** ** Bits of the state word *)

#[local] Arguments Z.testbit : simpl never.

Lemma hasbit_testbit x k : 0 <= k -> hasbit x (2 ^ k) = Z.testbit x k.
Proof.
  intros Hk. unfold hasbit. destruct (Z.testbit x k) eqn:E.
  - destruct (Z.land x (2 ^ k) =? 0) eqn:E0; [|done]. bools.
    apply (f_equal (fun z => Z.testbit z k)) in E0.
    rewrite Z.land_spec, Z.bits_0, Z.pow2_bits_true, E in E0 by done. done.
  - destruct (Z.land x (2 ^ k) =? 0) eqn:E0; [done|]. bools. exfalso. apply E0.
    apply Z.bits_inj'. intros n Hn. rewrite Z.land_spec, Z.bits_0.
    destruct (decide (n = k)) as [->|]; [by rewrite E|].
    by rewrite Z.pow2_bits_false, andb_false_r by lia.
Qed.

Lemma u16_testbit x k : 0 <= k < 16 -> Z.testbit (u16 x) k = Z.testbit x k.
Proof. intros. unfold u16. change 65536 with (2 ^ 16). by rewrite Z.mod_pow2_bits_low by lia. Qed.

Lemma has_READ x : hasbit x FDE_READ = Z.testbit x 0.
Proof. by apply (hasbit_testbit x 0). Qed.
Lemma has_WRITE x : hasbit x FDE_WRITE = Z.testbit x 1.
Proof. by apply (hasbit_testbit x 1). Qed.
Lemma has_ERROR x : hasbit x FDE_ERROR = Z.testbit x 2.
Proof. by apply (hasbit_testbit x 2). Qed.
Lemma has_ACTIVE x : hasbit x FDE_ACTIVE = Z.testbit x 8.
Proof. by apply (hasbit_testbit x 8). Qed.
Lemma has_PENDING x : hasbit x FDE_PENDING = Z.testbit x 9.
Proof. by apply (hasbit_testbit x 9). Qed.

(** Reduce flag tests of a rewritten state word to tests of its parts. *)
Ltac flags :=
  repeat first
    [ rewrite has_READ in * | rewrite has_WRITE in * | rewrite has_ERROR in *
    | rewrite has_ACTIVE in * | rewrite has_PENDING in * ];
  repeat first
    [ rewrite u16_testbit in * by lia | rewrite Z.lor_spec in * | rewrite Z.land_spec in *
    | rewrite Z.lnot_spec in * by lia ];
  repeat match goal with
  | |- context [Z.testbit FDE_STATEMASK ?k] =>
      let b := eval vm_compute in (Z.testbit FDE_STATEMASK k) in
      change (Z.testbit FDE_STATEMASK k) with b
  | |- context [Z.testbit FDE_EVENTMASK ?k] =>
      let b := eval vm_compute in (Z.testbit FDE_EVENTMASK k) in
      change (Z.testbit FDE_EVENTMASK k) with b
  | |- context [Z.testbit FDE_PENDING ?k] =>
      let b := eval vm_compute in (Z.testbit FDE_PENDING k) in
      change (Z.testbit FDE_PENDING k) with b
  | |- context [Z.testbit FDE_ACTIVE ?k] =>
      let b := eval vm_compute in (Z.testbit FDE_ACTIVE k) in
      change (Z.testbit FDE_ACTIVE k) with b
  | |- context [Z.testbit 0 ?k] => rewrite (Z.bits_0 k)
  end;
  rewrite ?andb_true_r, ?andb_false_r, ?orb_false_r, ?orb_false_l, ?orb_true_r; simpl.

Lemma u16_range x : 0 <= u16 x < 65536.
Proof. apply Z.mod_pos_bound. lia. Qed.

(** ** Invariant *)

Section Inv.
Context {F : Type}.
Implicit Types (s : fdst F) (e : fdevent F).

Definition active e : Prop := hasbit (fde_state e) FDE_ACTIVE = true.
Definition pend e : Prop := hasbit (fde_state e) FDE_PENDING = true.

(** The events an [fdevent] asks for. *)
Definition wanted e : Z := Z.land (fde_state e) FDE_EVENTMASK.

Record fde_ok s (a : Z) e : Prop := {
  ok_range : 0 <= fde_state e < 65536 /\ 0 <= fde_events e < 65536;
  ok_active : active e ->
    0 <= fde_fd e < FD_SETSIZE /\ fde_fd e < select_n s /\
    fd_table s !! Z.to_nat (fde_fd e) = Some (Some a);
  ok_pend : pend e <-> a ∈ list_pending s;
  ok_pa : pend e -> active e /\ fde_events e <> 0;
  ok_sets : active e ->
    (fde_fd e ∈ read_fds s <-> hasbit (fde_state e) FDE_READ = true) /\
    (fde_fd e ∈ write_fds s <-> hasbit (fde_state e) FDE_WRITE = true) /\
    (fde_fd e ∈ error_fds s <-> hasbit (fde_state e) FDE_ERROR = true)
}.

Definition registered s (fd : Z) : Prop :=
  0 <= fd /\ exists a, fd_table s !! Z.to_nat fd = Some (Some a).

(** The descriptors given to [select] are exactly those some live event asks
    for, the pending list holds exactly the events flagged pending, and the
    table, the descriptors and [select_n] agree. *)
Record fd_inv s : Prop := {
  inv_fde : forall a e, fdes s !! a = Some e -> fde_ok s a e;
  inv_table : forall i a, fd_table s !! i = Some (Some a) ->
    exists e, fdes s !! a = Some e /\ active e /\ fde_fd e = Z.of_nat i;
  inv_nodup : NoDup (list_pending s);
  inv_pdom : forall a, a ∈ list_pending s -> is_Some (fdes s !! a);
  inv_sets : forall fd, fd ∈ read_fds s ∪ write_fds s ∪ error_fds s -> registered s fd;
  inv_max : 0 <= select_n s <= fd_table_max s
}.

(** Two live events never share a descriptor. *)
Lemma active_fd_inj s a b e e' :
  fd_inv s -> fdes s !! a = Some e -> fdes s !! b = Some e' ->
  active e -> active e' -> fde_fd e = fde_fd e' -> a = b.
Proof.
  intros Hi Ha Hb Aa Ab Hfd.
  destruct (ok_active _ _ _ (inv_fde _ Hi _ _ Ha) Aa) as (_ & _ & H1).
  destruct (ok_active _ _ _ (inv_fde _ Hi _ _ Hb) Ab) as (_ & _ & H2).
  rewrite Hfd in H1. congruence.
Qed.

(** Replacing one live event, with the parts of the state that mention it. *)
Lemma fd_inv_update s s' a e e' :
  fd_inv s -> fdes s !! a = Some e -> active e ->
  fdes s' = <[a := e']> (fdes s) -> fd_table s' = fd_table s -> select_n s' = select_n s ->
  NoDup (list_pending s') ->
  (forall b, b <> a -> b ∈ list_pending s' <-> b ∈ list_pending s) ->
  (forall fd, fd <> fde_fd e ->
     (fd ∈ read_fds s' <-> fd ∈ read_fds s) /\ (fd ∈ write_fds s' <-> fd ∈ write_fds s) /\
     (fd ∈ error_fds s' <-> fd ∈ error_fds s)) ->
  fde_fd e' = fde_fd e -> active e' -> fde_ok s' a e' ->
  fd_inv s'.
Proof.
  intros Hi Ha Aa Hf Ht Hn Hnd Hp Hs Hfd Aa' Hok.
  destruct (ok_active _ _ _ (inv_fde _ Hi _ _ Ha) Aa) as (Hr & _ & Htab).
  constructor.
  - intros b eb Hb. rewrite Hf in Hb.
    destruct (decide (b = a)) as [->|Hne]; simplify_map_eq; [done|].
    destruct (inv_fde _ Hi _ _ Hb) as [H1 H2 H3 H4 H5].
    constructor; rewrite ?Ht, ?Hn; try done.
    + rewrite H3. symmetry. by apply Hp.
    + intros Ab. destruct (Hs (fde_fd eb)) as (-> & -> & ->); [|by apply H5].
      intros Heq. apply Hne. by eapply active_fd_inj.
  - intros i b Hb. rewrite Ht in Hb.
    destruct (inv_table _ Hi _ _ Hb) as (eb & Hb1 & Hb2 & Hb3). rewrite Hf.
    destruct (decide (b = a)) as [->|Hne]; simplify_map_eq; [|eauto].
    exists e'. eauto with congruence.
  - done.
  - intros b Hb. rewrite Hf. destruct (decide (b = a)) as [->|Hne]; simplify_map_eq; [eauto|].
    by apply (inv_pdom _ Hi), Hp.
  - intros fd Hin. unfold registered. rewrite Ht.
    destruct (decide (fd = fde_fd e)) as [->|Hne]; [split; [lia|eauto]|].
    apply (inv_sets _ Hi). destruct (Hs fd Hne) as (? & ? & ?). set_solver.
  - unfold fd_table_max. rewrite Ht, Hn. apply (inv_max _ Hi).
Qed.

Lemma fd_put_in b fd X : fd ∈ fd_put b fd X <-> b = true.
Proof. unfold fd_put. destruct b; set_solver. Qed.

Lemma fd_put_other b fd X x : x <> fd -> x ∈ fd_put b fd X <-> x ∈ X.
Proof. unfold fd_put. destruct b; set_solver. Qed.

Lemma fd_in_set_ok s fd : 0 <= fd < FD_SETSIZE -> fd_in_set fd s = Ok (tt, s).
Proof.
  intros [H1 H2]. unfold fd_in_set. apply Z.leb_le in H1 as ->. apply Z.ltb_lt in H2 as ->. done.
Qed.

(** The masked event word of [fdevent_set] has only event bits. *)
Lemma land_eventmask_idem x : Z.land (Z.land x FDE_EVENTMASK) FDE_EVENTMASK = Z.land x FDE_EVENTMASK.
Proof. by rewrite <- Z.land_assoc, Z.land_diag. Qed.

Lemma eventmask_high x k : 8 <= k -> Z.testbit (Z.land x FDE_EVENTMASK) k = false.
Proof.
  intros Hk. rewrite Z.land_spec. change FDE_EVENTMASK with (Z.ones 8).
  rewrite Z.ones_spec_high by lia. by rewrite andb_false_r.
Qed.

Lemma eventmask_low x k : 0 <= k < 8 -> Z.testbit (Z.land x FDE_EVENTMASK) k = Z.testbit x k.
Proof.
  intros Hk. rewrite Z.land_spec. change FDE_EVENTMASK with (Z.ones 8).
  rewrite Z.ones_spec_low by lia. by rewrite andb_true_r.
Qed.

(** The state word after new events were stored in it. *)
Definition new_state (st ev : Z) : Z :=
  u16 (Z.lor (Z.land st FDE_STATEMASK) (Z.land ev FDE_EVENTMASK)).

Lemma new_state_low st ev k :
  0 <= k < 8 -> Z.testbit (new_state st ev) k = Z.testbit ev k.
Proof.
  intros Hk. unfold new_state. rewrite u16_testbit, Z.lor_spec, eventmask_low by lia.
  rewrite Z.land_spec. change FDE_STATEMASK with (Z.shiftl (Z.ones 8) 8).
  rewrite Z.shiftl_spec_low by lia. by rewrite andb_false_r.
Qed.

Lemma new_state_high st ev k :
  8 <= k < 16 -> Z.testbit (new_state st ev) k = Z.testbit st k.
Proof.
  intros Hk. unfold new_state. rewrite u16_testbit, Z.lor_spec, eventmask_high by lia.
  rewrite Z.land_spec. change FDE_STATEMASK with (Z.shiftl (Z.ones 8) 8).
  rewrite Z.shiftl_spec_high, Z.ones_spec_low by lia. by rewrite andb_true_r, orb_false_r.
Qed.

Lemma new_state_wanted st ev : Z.land (new_state st ev) FDE_EVENTMASK = Z.land ev FDE_EVENTMASK.
Proof.
  apply Z.bits_inj'. intros k Hk. destruct (decide (k < 8)).
  - rewrite !eventmask_low by lia. apply new_state_low. lia.
  - rewrite !eventmask_high by lia. done.
Qed.

Lemma new_state_idem st ev : new_state (new_state st ev) ev = new_state st ev.
Proof.
  unfold new_state at 1. unfold new_state at 2. apply Z.bits_inj'. intros k Hk.
  destruct (decide (k < 16)); [destruct (decide (k < 8))|].
  - change (Z.testbit (new_state (new_state st ev) ev) k = Z.testbit (new_state st ev) k).
    by rewrite !new_state_low by lia.
  - change (Z.testbit (new_state (new_state st ev) ev) k = Z.testbit (new_state st ev) k).
    by rewrite !new_state_high by lia.
  - unfold u16. change 65536 with (2 ^ 16). by rewrite !Z.mod_pow2_bits_high by lia.
Qed.

Lemma fde_at_ok s a e : fdes s !! a = Some e -> fde_at a s = Ok (e, s).
Proof. intros H. unfold fde_at, bind, get. by rewrite H. Qed.

Lemma set_state_same_fd st e : fde_fd (set_state st e) = fde_fd e.
Proof. done. Qed.

(** The event as [fdevent_set] leaves it. *)
Definition set_result (events : Z) e : fdevent F :=
  if wanted e =? Z.land events FDE_EVENTMASK then e
  else
    let st := new_state (fde_state e) events in
    if hasbit (fde_state e) FDE_PENDING then
      let ev := u16 (Z.land (fde_events e) (Z.lnot (Z.land events FDE_EVENTMASK))) in
      mkFde (fde_fd e) (if ev =? 0 then u16 (Z.land st (Z.lnot FDE_PENDING)) else st) ev
        (fde_func e) (fde_arg e)
    else mkFde (fde_fd e) st (fde_events e) (fde_func e) (fde_arg e).

Lemma fdevent_set_run s a e events :
  fd_inv s -> fdes s !! a = Some e -> active e ->
  exists s', fdevent_set a events s = Ok (tt, s') /\
    fdes s' = <[a := set_result events e]> (fdes s) /\
    fd_table s' = fd_table s /\ select_n s' = select_n s /\ closed s' = closed s /\
    list_pending s' = (if hasbit (fde_state e) FDE_PENDING &&
                          negb (hasbit (fde_state (set_result events e)) FDE_PENDING)
                       then filter (fun b => b <> a) (list_pending s) else list_pending s) /\
    (wanted e <> Z.land events FDE_EVENTMASK ->
     read_fds s' = fd_put (hasbit events FDE_READ) (fde_fd e) (read_fds s) /\
     write_fds s' = fd_put (hasbit events FDE_WRITE) (fde_fd e) (write_fds s) /\
     error_fds s' = fd_put (hasbit events FDE_ERROR) (fde_fd e) (error_fds s)) /\
    (wanted e = Z.land events FDE_EVENTMASK -> s' = s).
Proof.
  intros Hi Ha Aa.
  destruct (ok_active _ _ _ (inv_fde _ Hi _ _ Ha) Aa) as (Hr & _ & _).
  pose proof (ok_pend _ _ _ (inv_fde _ Hi _ _ Ha)) as Hpend.
  unfold fdevent_set. rewrite (bind_ok _ _ _ _ _ (fde_at_ok _ _ _ Ha)).
  unfold set_result. change (Z.land (fde_state e) FDE_EVENTMASK) with (wanted e).
  destruct (wanted e =? Z.land events FDE_EVENTMASK) eqn:Ew; bools.
  { exists s. rewrite insert_id by done. split_and!; try done.
    by destruct (hasbit (fde_state e) FDE_PENDING). }
  unfold when. unfold active in Aa. rewrite Aa.
  unfold fdevent_update.
  assert (forall m, hasbit (Z.land events FDE_EVENTMASK) m = hasbit events (Z.land FDE_EVENTMASK m))
    as Hm. { intros m. unfold hasbit. by rewrite Z.land_assoc. }
  assert (hasbit (Z.land events FDE_EVENTMASK) FDE_READ = hasbit events FDE_READ) as Hmr by apply Hm.
  assert (hasbit (Z.land events FDE_EVENTMASK) FDE_WRITE = hasbit events FDE_WRITE) as Hmw by apply Hm.
  assert (hasbit (Z.land events FDE_EVENTMASK) FDE_ERROR = hasbit events FDE_ERROR) as Hme by apply Hm.
  assert (new_state (new_state (fde_state e) events) events = new_state (fde_state e) events)
    as Hidem by apply new_state_idem.
  unfold fde_at, store_fde, bind, get, modify, deref, ret. rewrite Ha.
  rewrite fd_in_set_ok by done. rewrite Hmr, Hmw, Hme. cbn [fdes set_fdes set_fds].
  rewrite lookup_insert_eq. cbn [fde_state set_state fde_events set_events fde_fd fde_func fde_arg].
  unfold new_state in Hidem. rewrite Hidem.
  change (u16 (Z.lor (Z.land (fde_state e) FDE_STATEMASK) (Z.land events FDE_EVENTMASK)))
    with (new_state (fde_state e) events) in *.
  assert (hasbit (new_state (fde_state e) events) FDE_PENDING = hasbit (fde_state e) FDE_PENDING)
    as Hpb by (rewrite !has_PENDING; apply new_state_high; lia).
  rewrite Hpb. destruct (hasbit (fde_state e) FDE_PENDING) eqn:Ep.
  2:{ eexists. split; [done|]. unfold set_state. cbn. rewrite insert_insert_eq, Hidem.
      by split_and!. }
  destruct (u16 (Z.land (fde_events e) (Z.lnot (Z.land events FDE_EVENTMASK))) =? 0) eqn:E0.
  - unfold fdevent_plist_remove, bind, get, modify, deref, ret. cbn.
    rewrite decide_True by (apply Hpend; done).
    eexists. split; [done|]. unfold set_state, set_events. cbn. rewrite !insert_insert_eq.
    rewrite has_PENDING, u16_testbit, Z.land_spec by lia.
    change (Z.testbit (Z.lnot FDE_PENDING) 9) with false. rewrite andb_false_r.
    by split_and!.
  - eexists. split; [done|]. unfold set_state, set_events. cbn.
    rewrite !insert_insert_eq, Hidem, Hpb. by split_and!.
Qed.

Lemma set_result_low events e k :
  0 <= k < 8 -> Z.testbit (fde_state (set_result events e)) k = Z.testbit events k.
Proof.
  intros Hk. unfold set_result. destruct (wanted e =? _) eqn:Ew; bools.
  { rewrite <- (eventmask_low events k), <- (eventmask_low (fde_state e) k) by lia.
    unfold wanted in Ew. by rewrite Ew. }
  destruct (hasbit (fde_state e) FDE_PENDING); cbn; [|by apply new_state_low].
  destruct (u16 _ =? 0); [|by apply new_state_low].
  rewrite u16_testbit, Z.land_spec, new_state_low by lia.
  rewrite Z.lnot_spec by lia. change FDE_PENDING with (2 ^ 9).
  rewrite Z.pow2_bits_false by lia. by rewrite andb_true_r.
Qed.

Lemma set_result_active events e :
  hasbit (fde_state (set_result events e)) FDE_ACTIVE = hasbit (fde_state e) FDE_ACTIVE.
Proof.
  rewrite !has_ACTIVE. unfold set_result. destruct (wanted e =? _); [done|].
  destruct (hasbit (fde_state e) FDE_PENDING); cbn; [|by apply new_state_high].
  destruct (u16 _ =? 0); [|by apply new_state_high].
  rewrite u16_testbit, Z.land_spec, new_state_high by lia.
  change (Z.testbit (Z.lnot FDE_PENDING) 8) with true. by rewrite andb_true_r.
Qed.

Lemma set_result_pend events e :
  pend (set_result events e) -> (pend e -> fde_events e <> 0) ->
  pend e /\ fde_events (set_result events e) <> 0.
Proof.
  unfold pend. rewrite !has_PENDING. unfold set_result. destruct (wanted e =? _); [auto|].
  rewrite has_PENDING. destruct (Z.testbit (fde_state e) 9) eqn:Ep; cbn.
  - destruct (u16 (Z.land (fde_events e) _) =? 0) eqn:E0.
    + rewrite u16_testbit, Z.land_spec by lia.
      change (Z.testbit (Z.lnot FDE_PENDING) 9) with false. by rewrite andb_false_r.
    + bools. auto.
  - rewrite new_state_high by lia. congruence.
Qed.

Lemma set_result_fd events e : fde_fd (set_result events e) = fde_fd e.
Proof.
  unfold set_result. destruct (wanted e =? _); [done|].
  by destruct (hasbit (fde_state e) FDE_PENDING).
Qed.

Lemma set_result_owner events e :
  fde_func (set_result events e) = fde_func e /\ fde_arg (set_result events e) = fde_arg e.
Proof.
  unfold set_result. destruct (wanted e =? _); [done|].
  by destruct (hasbit (fde_state e) FDE_PENDING).
Qed.

Lemma set_result_range events e :
  0 <= fde_state e < 65536 -> 0 <= fde_events e < 65536 ->
  0 <= fde_state (set_result events e) < 65536 /\
  0 <= fde_events (set_result events e) < 65536.
Proof.
  intros H1 H2. unfold set_result. destruct (wanted e =? _); [done|].
  destruct (hasbit (fde_state e) FDE_PENDING); cbn.
  - split; [destruct (u16 _ =? 0)|]; apply u16_range.
  - split; [apply u16_range|done].
Qed.

Lemma set_result_wanted events e :
  wanted (set_result events e) = Z.land events FDE_EVENTMASK.
Proof.
  unfold wanted. apply Z.bits_inj'. intros k Hk. destruct (decide (k < 8)).
  - rewrite !eventmask_low by lia. apply set_result_low. lia.
  - by rewrite !eventmask_high by lia.
Qed.

Lemma fdevent_set_ok s a e events :
  fd_inv s -> fdes s !! a = Some e -> active e ->
  exists s', fdevent_set a events s = Ok (tt, s') /\ fd_inv s' /\
    fdes s' = <[a := set_result events e]> (fdes s) /\
    fd_table s' = fd_table s /\ closed s' = closed s.
Proof.
  intros Hi Ha Aa. pose proof (inv_fde _ Hi _ _ Ha) as Hok.
  destruct (fdevent_set_run s a e events Hi Ha Aa)
    as (s' & Hrun & Hf & Ht & Hn & Hc & Hp & Hs & Hsame).
  exists s'. split_and!; try done.
  destruct (decide (wanted e = Z.land events FDE_EVENTMASK)) as [Heq|Hne].
  { by rewrite (Hsame Heq). }
  destruct (Hs Hne) as (Hsr & Hsw & Hse).
  assert (forall b, b <> a -> b ∈ list_pending s' <-> b ∈ list_pending s) as Hpo.
  { intros b Hb. rewrite Hp. destruct (_ && _); [|done]. rewrite list_elem_of_filter. tauto. }
  assert (a ∈ list_pending s' <-> pend (set_result events e)) as Hpa.
  { rewrite Hp. pose proof (ok_pend _ _ _ Hok) as Hpe. unfold pend in *.
    destruct (hasbit (fde_state e) FDE_PENDING) eqn:E1;
      destruct (hasbit (fde_state (set_result events e)) FDE_PENDING) eqn:E2; simpl.
    - rewrite <- Hpe. tauto.
    - rewrite list_elem_of_filter. split; [tauto|done].
    - rewrite <- Hpe. split; [done|]. intros _.
      destruct (set_result_pend events e) as [H _]; [done|by unfold pend; rewrite E1|].
      unfold pend in H. congruence.
    - by rewrite <- Hpe. }
  eapply (fd_inv_update s s' a e (set_result events e)); try done.
  - rewrite Hp. destruct (_ && _); [apply list.NoDup_filter|]; apply (inv_nodup _ Hi).
  - intros fd Hfd. rewrite Hsr, Hsw, Hse. split_and!; by apply fd_put_other.
  - by rewrite set_result_fd.
  - unfold active. by rewrite set_result_active.
  - destruct Hok as [Hrange Hact Hpe Hpaa Hset]. constructor.
    + destruct Hrange. by apply set_result_range.
    + intros _. rewrite set_result_fd, Ht, Hn. by apply Hact.
    + by rewrite Hpa.
    + intros Hpd. destruct (set_result_pend events e) as [H1 H2]; [done|by intros; apply Hpaa|].
      split; [|done]. unfold active. rewrite set_result_active. apply Aa.
    + intros _. rewrite set_result_fd, Hsr, Hsw, Hse, !fd_put_in.
      rewrite !has_READ, !has_WRITE, !has_ERROR, !set_result_low by lia. done.
Qed.

Lemma last_used_spec cnt i n tbl :
  (cnt <= length tbl)%nat -> n <= i ->
  exists m, last_used cnt i n tbl = Some m /\ n <= m /\ (m = n \/ m < i + Z.of_nat cnt) /\
    forall j x, (j < cnt)%nat -> tbl !! j = Some (Some x) -> i + Z.of_nat j <= m.
Proof.
  revert i n tbl. induction cnt as [|c IH]; intros i n tbl Hl Hn; simpl.
  - exists n. split_and!; [done|lia|by left|lia].
  - destruct tbl as [|x tbl]; simpl in *; [lia|].
    edestruct (IH (i + 1) (match x with Some _ => i | None => n end) tbl)
      as (m & Hm & Hge & Hor & Hall); [lia|destruct x; lia|].
    exists m. split_and!; [done|destruct x; lia|destruct x; lia|].
    intros [|j] y Hj Hy; simplify_eq/=; [lia|].
    specialize (Hall j y ltac:(lia) Hy). lia.
Qed.

Lemma grow_max_spec fuel mx fd :
  1 <= mx -> fd < mx * 2 ^ Z.of_nat fuel ->
  exists m, grow_max fuel mx fd = Some m /\ fd < m /\ mx <= m.
Proof.
  revert mx. induction fuel as [|f IH]; intros mx Hm Hf; cbn [grow_max].
  - destruct (mx <=? fd) eqn:E; bools; [simpl in Hf; lia|]. eauto with lia.
  - destruct (mx <=? fd) eqn:E; bools; [|eauto with lia].
    rewrite Nat2Z.inj_succ, Z.pow_succ_r in Hf by lia.
    destruct (IH (mx * 2)) as (m & -> & ? & ?); [lia|lia|]. eauto with lia.
Qed.

(** The event once removed. *)
Definition dead_fde e : fdevent F := mkFde (fde_fd e) 0 0 (fde_func e) (fde_arg e).

Lemma dead_fde_inactive e : ~ active (dead_fde e) /\ ~ pend (dead_fde e).
Proof. unfold active, pend. rewrite has_ACTIVE, has_PENDING. done. Qed.

Lemma fdevent_remove_run s a e :
  fd_inv s -> fdes s !! a = Some e -> active e ->
  exists s' m, fdevent_remove a s = Ok (tt, s') /\
    fdes s' = <[a := dead_fde e]> (fdes s) /\
    list_pending s' = filter (fun b => b <> a) (list_pending s) /\
    fd_table s' = <[Z.to_nat (fde_fd e) := None]> (fd_table s) /\
    read_fds s' = read_fds s ∖ {[fde_fd e]} /\ write_fds s' = write_fds s ∖ {[fde_fd e]} /\
    error_fds s' = error_fds s ∖ {[fde_fd e]} /\
    closed s' = closed s ++ (if hasbit (fde_state e) FDE_DONT_CLOSE then [] else [fde_fd e]) /\
    select_n s' = m + 1 /\ 0 <= m < fd_table_max s /\
    forall j x, Z.of_nat j < select_n s -> fd_table s !! j = Some (Some x) -> Z.of_nat j <= m.
Proof.
  intros Hi Ha Aa. destruct (inv_fde _ Hi _ _ Ha) as [Hrg Hact Hpd _ _].
  destruct (Hact Aa) as (Hr & Hsn & Htab). pose proof (inv_max _ Hi) as Hmax.
  pose proof (lookup_lt_Some _ _ _ Htab) as Hlt.
  destruct (last_used_spec (Z.to_nat (select_n s)) 0 0 (fd_table s))
    as (m & Hm & Hge & Hor & Hall); [unfold fd_table_max in *; lia|lia|].
  assert (list_pending s = filter (fun b => b <> a) (list_pending s) \/ a ∈ list_pending s) as Hfl.
  { destruct (decide (a ∈ list_pending s)) as [|Hn]; [by right|left].
    clear -Hn. induction (list_pending s) as [|b l IH]; [done|].
    apply not_elem_of_cons in Hn as [? ?]. rewrite filter_cons_True by done. by rewrite <- IH. }
  assert (exists s1, (when (hasbit (fde_state e) FDE_PENDING) (fdevent_plist_remove a)) s = Ok (tt, s1)
    /\ s1 = set_pending (filter (fun b => b <> a)) s) as (s1 & Hs1 & Es1).
  { unfold pend in Hpd. destruct (hasbit (fde_state e) FDE_PENDING) eqn:Ep; simpl.
    - unfold fdevent_plist_remove, bind, get. rewrite decide_True by (by apply Hpd).
      eexists. split; [done|]. done.
    - eexists. split; [done|]. destruct s; unfold set_pending; simpl in *.
      destruct Hfl as [<-|Hin]; [done|]. apply Hpd in Hin. done. }
  unfold fdevent_remove. rewrite (bind_ok _ _ _ _ _ (fde_at_ok _ _ _ Ha)).
  rewrite (bind_ok _ _ _ _ _ Hs1). unfold active in Aa. rewrite Aa. unfold when at 1.
  unfold fdevent_disconnect, fdevent_unregister, fde_at, store_fde, bind, get, modify, deref, ret.
  rewrite Es1. cbn [fdes set_pending]. rewrite Ha. rewrite fd_in_set_ok by done.
  cbn [fdes set_pending set_fds select_n fd_table set_select_n]. rewrite Hm.
  cbn [fdes set_pending set_fds select_n fd_table set_select_n]. rewrite Ha.
  cbn [fd_table_max fd_table set_select_n set_fds set_pending].
  destruct ((fde_fd e <? 0) || _) eqn:Eb.
  { apply orb_true_iff in Eb as [Eb|Eb]; bools; [lia|].
    unfold fd_table_max in Eb; simpl in Eb. lia. }
  rewrite decide_True by done.
  unfold when. destruct (hasbit (fde_state e) FDE_DONT_CLOSE) eqn:Edc; cbn; rewrite Ha;
    (eexists _, m; split; [done|]; cbn; rewrite ?app_nil_r;
     split_and!; try done; try lia; unfold fd_table_max in *; try lia;
     intros j x Hj Hx; specialize (Hall j x ltac:(lia) Hx); lia).
Qed.

Lemma fdevent_remove_ok s a e :
  fd_inv s -> fdes s !! a = Some e -> active e ->
  exists s', fdevent_remove a s = Ok (tt, s') /\ fd_inv s' /\
    fdes s' = <[a := dead_fde e]> (fdes s) /\ (a ∉ list_pending s') /\
    fd_table s' = <[Z.to_nat (fde_fd e) := None]> (fd_table s) /\
    closed s' = closed s ++ (if hasbit (fde_state e) FDE_DONT_CLOSE then [] else [fde_fd e]).
Proof.
  intros Hi Ha Aa.
  destruct (fdevent_remove_run s a e Hi Ha Aa)
    as (s' & m & Hrun & Hf & Hp & Ht & Hr & Hw & He & Hc & Hn & Hm & Hall).
  destruct (ok_active _ _ _ (inv_fde _ Hi _ _ Ha) Aa) as (Hfd & Hsn & Htab).
  destruct (dead_fde_inactive e) as [Hda Hdp].
  exists s'. split; [done|]. split; [|split_and!; try done; rewrite Hp, list_elem_of_filter; tauto].
  constructor.
  - intros b eb Hb. rewrite Hf in Hb. destruct (decide (b = a)) as [->|Hne]; simplify_map_eq.
    + constructor; try (intros; tauto).
      * simpl. lia.
      * rewrite Hp, list_elem_of_filter. tauto.
    + destruct (inv_fde _ Hi _ _ Hb) as [H1 H2 H3 H4 H5]. constructor; try done.
      * intros Ab. destruct (H2 Ab) as (H21 & H22 & H23).
        assert (fde_fd eb <> fde_fd e).
        { intros Heq. apply Hne. by eapply active_fd_inj. }
        split_and!; try lia.
        -- rewrite Hn. specialize (Hall (Z.to_nat (fde_fd eb)) b ltac:(lia) H23). lia.
        -- rewrite Ht, list_lookup_insert_ne by lia. done.
      * rewrite H3, Hp, list_elem_of_filter. tauto.
      * intros Ab. rewrite Hr, Hw, He.
        assert (fde_fd eb <> fde_fd e).
        { intros Heq. apply Hne. by eapply active_fd_inj. }
        destruct (H5 Ab) as (<- & <- & <-). set_solver.
  - intros i b Hb. rewrite Ht in Hb.
    apply list_lookup_insert_Some in Hb as [(? & ? & ?)|(Hne & Hb)]; [done|].
    destruct (inv_table _ Hi _ _ Hb) as (eb & Hb1 & Hb2 & Hb3). exists eb. split_and!; try done.
    rewrite Hf. destruct (decide (b = a)) as [->|]; [|by simplify_map_eq].
    simplify_map_eq. exfalso. lia.
  - rewrite Hp. apply list.NoDup_filter, (inv_nodup _ Hi).
  - intros b Hb. rewrite Hp in Hb. apply list_elem_of_filter in Hb as [Hne Hb].
    rewrite Hf, lookup_insert_ne by done. by apply (inv_pdom _ Hi).
  - intros fd Hin. rewrite Hr, Hw, He in Hin.
    assert (fd <> fde_fd e) by set_solver.
    assert (registered s fd) as [? [b Hb]] by (apply (inv_sets _ Hi); set_solver).
    split; [done|]. exists b. rewrite Ht, list_lookup_insert_ne by lia. done.
  - unfold fd_table_max in *. rewrite Ht, length_insert. lia.
Qed.

Lemma fdevent_register_run s a e :
  fdes s !! a = Some e -> 0 <= fde_fd e <= 32000 ->
  exists s', fdevent_register a s = Ok (tt, s') /\
    fdes s' = fdes s /\ list_pending s' = list_pending s /\ select_n s' = select_n s /\
    closed s' = closed s /\
    (fd_table s = [] \/ read_fds s' = read_fds s /\ write_fds s' = write_fds s /\
                        error_fds s' = error_fds s) /\
    (fd_table s = [] -> read_fds s' = ∅ /\ write_fds s' = ∅ /\ error_fds s' = ∅) /\
    fde_fd e < fd_table_max s' /\ fd_table_max s <= fd_table_max s' /\
    fd_table s' !! Z.to_nat (fde_fd e) = Some (Some a) /\
    forall i b, i <> Z.to_nat (fde_fd e) ->
      fd_table s' !! i = Some (Some b) <-> fd_table s !! i = Some (Some b).
Proof.
  intros Ha Hfd. unfold fdevent_register. rewrite (bind_ok _ _ _ _ _ (fde_at_ok _ _ _ Ha)).
  destruct (fde_fd e <? 0) eqn:E0; bools; [lia|].
  unfold bind at 1, get.
  assert (fd_table_max s = 0 <-> fd_table s = []) as Hz.
  { unfold fd_table_max. destruct (fd_table s); simpl; split; (done || lia). }
  destruct (fd_table_max s <=? fde_fd e) eqn:E1; bools.
  - destruct (32000 <? fde_fd e) eqn:E2; bools; [lia|].
    set (mx0 := if fd_table_max s =? 0 then 256 else fd_table_max s).
    assert (1 <= mx0 /\ fd_table_max s <= mx0) as [Hmx0 Hmx1].
    { unfold mx0, fd_table_max in *. destruct (_ =? 0) eqn:E3; bools; lia. }
    destruct (grow_max_spec 32 mx0 (fde_fd e)) as (mx & Hmx & Hgt & Hge); [lia| |].
    { change (2 ^ Z.of_nat 32) with 4294967296. lia. }
    rewrite Hmx. clearbody mx0.
    assert (forall i b, (fd_table s ++ replicate (Z.to_nat mx - length (fd_table s)) None) !! i
      = Some (Some b) <-> fd_table s !! i = Some (Some b)) as Hlk.
    { intros i b. rewrite lookup_app_Some. split; [|by left].
      intros [?|[? Hx]]; [done|]. apply lookup_replicate in Hx as [? ?]. done. }
    unfold fd_table_max in *.
    assert (length (fd_table s ++ replicate (Z.to_nat mx - length (fd_table s)) None)
      = Z.to_nat mx) as Hlen by (rewrite length_app, length_replicate; lia).
    unfold when, fdevent_init, bind, modify, ret.
    assert ((fd_table s = [] -> False) -> (Z.of_nat (length (fd_table s)) =? 0) = false) as Hnz.
    { intros Hne. apply Z.eqb_neq. by intros ?%Hz. }
    destruct (decide (fd_table s = [])) as [Ht|Ht].
    + rewrite (proj2 (Z.eqb_eq _ _)) by (by apply Hz).
      eexists; split; [done|]; cbn; rewrite length_insert, Hlen; split_and!; try done; try lia.
      * by left.
      * rewrite list_lookup_insert_eq; [done|rewrite Hlen; lia].
      * intros i b Hi. rewrite list_lookup_insert_ne by done. apply Hlk.
    + rewrite Hnz by done.
      eexists; split; [done|]; cbn; rewrite length_insert, Hlen; split_and!; try done; try lia.
      * by right.
      * rewrite list_lookup_insert_eq; [done|rewrite Hlen; lia].
      * intros i b Hi. rewrite list_lookup_insert_ne by done. apply Hlk.
  - unfold bind, ret, modify, fd_table_max in *. eexists. split; [done|]. cbn. rewrite length_insert.
    split_and!; try done; try lia.
    + by right.
    + intros Ht. rewrite Ht in *. simpl in *. lia.
    + rewrite list_lookup_insert_eq; [done|lia].
    + intros i b Hi. by rewrite list_lookup_insert_ne by done.
Qed.

(** The owner of [a] may install an event there: it holds none, or a removed one. *)
Definition installable s (a : Z) : Prop := forall e, fdes s !! a = Some e -> ~ active e.

Lemma installable_not_pending s a : fd_inv s -> installable s a -> a ∉ list_pending s.
Proof.
  intros Hi Hin Hp. destruct (inv_pdom _ Hi _ Hp) as [e He]. apply (Hin _ He).
  destruct (inv_fde _ Hi _ _ He) as [_ _ H1 H2 _]. by apply H2, H1.
Qed.

Definition fresh_fde (fd : Z) (func : F) (arg : Z) : fdevent F := mkFde fd FDE_ACTIVE 0 func arg.

Lemma fdevent_install_run s a fd func arg :
  (a ∉ list_pending s) -> 0 <= fd <= 32000 ->
  exists s1, fdevent_register a (set_fdes <[a := fresh_fde fd func arg]> s) = Ok (tt, s1) /\
    fdevent_install a fd func arg s =
      Ok (tt, (if select_n s <=? fd then set_select_n (fd + 1) s1 else s1)).
Proof.
  intros Hp Hfd. set (s0 := set_fdes <[a := fresh_fde fd func arg]> s).
  destruct (fdevent_register_run s0 a (fresh_fde fd func arg))
    as (s1 & Hrun & Hf & Hl & Hn & Hc & _); [apply lookup_insert_eq|done|].
  exists s1. split; [done|]. unfold fdevent_install. unfold bind at 1, get.
  rewrite decide_False by done. unfold store_fde, bind at 1, modify. fold s0.
  change (mkFde fd FDE_ACTIVE 0 func arg) with (fresh_fde fd func arg). fold s0.
  rewrite (bind_ok _ _ _ _ _ Hrun).
  assert (fdes s1 !! a = Some (fresh_fde fd func arg)) as Ha.
  { rewrite Hf. apply lookup_insert_eq. }
  unfold fdevent_connect, fde_at, when, bind, get, modify, deref, ret. rewrite Ha. cbn [fde_fd fresh_fde].
  rewrite Hn. change (select_n s0) with (select_n s).
  change (set_state (Z.lor (fde_state (fresh_fde fd func arg)) FDE_ACTIVE) (fresh_fde fd func arg))
    with (fresh_fde fd func arg).
  assert (forall s2, fdes s2 = fdes s1 -> set_fdes <[a := fresh_fde fd func arg]> s2 = s2) as Hid.
  { intros s2 Hs2. unfold set_fdes. destruct s2; simpl in *. rewrite Hs2, insert_id by done. congruence. }
  destruct (select_n s <=? fd); [cbn [fdes set_select_n]|];
    rewrite Ha; by rewrite Hid.
Qed.

(** With an empty table no descriptor is selected on. *)
Lemma empty_table_no_fds s :
  fd_inv s -> fd_table s = [] -> read_fds s = ∅ /\ write_fds s = ∅ /\ error_fds s = ∅.
Proof.
  intros Hi Ht. assert (forall fd, ~ (fd ∈ read_fds s ∪ write_fds s ∪ error_fds s)) as H.
  { intros fd Hin. apply (inv_sets _ Hi) in Hin as [_ [a Ha]]. by rewrite Ht in Ha. }
  split_and!; apply leibniz_equiv; intros x; specialize (H x); set_solver.
Qed.

Lemma fdevent_install_state s a fd func arg :
  fd_inv s -> installable s a -> 0 <= fd <= 32000 ->
  exists s', fdevent_install a fd func arg s = Ok (tt, s') /\
    fdes s' = <[a := fresh_fde fd func arg]> (fdes s) /\
    list_pending s' = list_pending s /\ closed s' = closed s /\
    read_fds s' = read_fds s /\ write_fds s' = write_fds s /\ error_fds s' = error_fds s /\
    select_n s' = Z.max (select_n s) (fd + 1) /\
    fd < fd_table_max s' /\ fd_table_max s <= fd_table_max s' /\
    fd_table s' !! Z.to_nat fd = Some (Some a) /\
    forall i b, i <> Z.to_nat fd ->
      fd_table s' !! i = Some (Some b) <-> fd_table s !! i = Some (Some b).
Proof.
  intros Hi Hin Hfd.
  destruct (fdevent_install_run s a fd func arg) as (s1 & Hr1 & Hrun);
    [by apply installable_not_pending|done|].
  destruct (fdevent_register_run (set_fdes <[a := fresh_fde fd func arg]> s) a (fresh_fde fd func arg))
    as (s2 & Hr2 & Hf & Hl & Hn & Hc & Hs1 & Hs2 & Hm1 & Hm2 & Ht1 & Ht2);
    [apply lookup_insert_eq|done|].
  rewrite Hr1 in Hr2. simplify_eq. cbn in Hf, Hl, Hn, Hc, Hs1, Hs2, Hm1, Ht1, Ht2.
  assert (read_fds s2 = read_fds s /\ write_fds s2 = write_fds s /\ error_fds s2 = error_fds s)
    as (? & ? & ?).
  { destruct (decide (fd_table s = [])) as [He|He]; [|by destruct Hs1].
    destruct (empty_table_no_fds s Hi He) as (-> & -> & ->). by apply Hs2. }
  eexists. split; [exact Hrun|].
  assert (select_n (if select_n s <=? fd then set_select_n (fd + 1) s2 else s2)
    = Z.max (select_n s) (fd + 1)) as Hsel.
  { destruct (select_n s <=? fd) eqn:E; bools; cbn; lia. }
  rewrite Hsel. destruct (select_n s <=? fd); cbn; by split_and!.
Qed.

Lemma fresh_fde_bits fd func arg k :
  0 <= k -> k <> 8 -> Z.testbit (fde_state (fresh_fde fd func arg)) k = false.
Proof. intros. cbn. change FDE_ACTIVE with (2 ^ 8). apply Z.pow2_bits_false. lia. Qed.

Lemma fdevent_install_ok s a fd func arg :
  fd_inv s -> installable s a -> 0 <= fd < FD_SETSIZE -> ~ registered s fd ->
  exists s', fdevent_install a fd func arg s = Ok (tt, s') /\ fd_inv s' /\
    fdes s' = <[a := fresh_fde fd func arg]> (fdes s) /\
    list_pending s' = list_pending s /\ closed s' = closed s.
Proof.
  intros Hi Hin Hfd Hfree.
  destruct (fdevent_install_state s a fd func arg Hi Hin ltac:(unfold FD_SETSIZE in *; lia))
    as (s' & Hrun & Hf & Hl & Hc & Hr & Hw & He & Hn & Hm1 & Hm2 & Ht1 & Ht2).
  exists s'. split_and!; try done.
  assert (forall b e, fdes s !! b = Some e -> active e -> b <> a /\ fde_fd e <> fd) as Hother.
  { intros b e Hb Ab. split; [intros ->; by apply (Hin _ Hb)|]. intros <-. apply Hfree.
    destruct (ok_active _ _ _ (inv_fde _ Hi _ _ Hb) Ab) as (? & _ & ?). split; [lia|eauto]. }
  assert (forall fd', registered s fd' -> registered s' fd') as Hreg.
  { intros fd' [H0 [b Hb]]. split; [done|]. exists b. apply Ht2; [|done].
    intros Heq. apply Hfree. split; [lia|]. exists b. by rewrite <- Heq. }
  constructor.
  - intros b e Hb. rewrite Hf in Hb. destruct (decide (b = a)) as [->|Hne]; simplify_map_eq.
    + assert (~ (fd ∈ read_fds s ∪ write_fds s ∪ error_fds s)) as Hns
        by (intros ?%(inv_sets _ Hi); done).
      constructor; cbn -[hasbit].
      * unfold FDE_ACTIVE. lia.
      * intros _. split_and!; try done; lia.
      * unfold pend. rewrite has_PENDING, fresh_fde_bits by lia. rewrite Hl.
        split; [done|]. intros ?%installable_not_pending; done.
      * unfold pend. by rewrite has_PENDING, fresh_fde_bits by lia.
      * intros _. rewrite Hr, Hw, He. set_solver.
    + destruct (inv_fde _ Hi _ _ Hb) as [H1 H2 H3 H4 H5].
      constructor; rewrite ?Hl, ?Hr, ?Hw, ?He; try done.
      intros Ab. destruct (Hother _ _ Hb Ab), (H2 Ab) as (? & ? & ?).
      split_and!; try lia. apply Ht2; [lia|done].
  - intros i b Hb. rewrite Hf. destruct (decide (i = Z.to_nat fd)) as [->|Hne].
    + rewrite Ht1 in Hb. simplify_eq. exists (fresh_fde fd func arg).
      rewrite lookup_insert_eq. split_and!; [done|done|simpl; lia].
    + apply Ht2 in Hb; [|done]. destruct (inv_table _ Hi _ _ Hb) as (e & Hb1 & Hb2 & Hb3).
      exists e. rewrite lookup_insert_ne; [done|]. intros <-. by apply (Hin _ Hb1).
  - rewrite Hl. apply (inv_nodup _ Hi).
  - intros b Hb. rewrite Hl in Hb. rewrite Hf, lookup_insert_is_Some'. right. by apply (inv_pdom _ Hi).
  - intros fd' Hin'. rewrite Hr, Hw, He in Hin'. by apply Hreg, (inv_sets _ Hi).
  - rewrite Hn. pose proof (inv_max _ Hi). lia.
Qed.

(** ** One pass of the loop *)

(** What [select] may answer for the sets of [s]: only descriptors it was asked
    about, and the number of bits set in the answer. *)
Definition select_answer s (r : select_ret) : Prop :=
  sel_r r ⊆ read_fds s /\ sel_w r ⊆ write_fds s /\ sel_e r ⊆ error_fds s /\
  (0 <= sel_n r -> sel_n r = Z.of_nat (size (sel_r r) + size (sel_w r) + size (sel_e r))).

(** A live event after the readiness reported for its descriptor. *)
Definition marked (r : select_ret) e : fdevent F :=
  if sel_events r (fde_fd e) =? 0 then e
  else mkFde (fde_fd e) (u16 (Z.lor (fde_state e) FDE_PENDING))
         (u16 (Z.lor (fde_events e) (sel_events r (fde_fd e)))) (fde_func e) (fde_arg e).

Lemma sel_events_zero r i :
  sel_events r i = 0 <-> i ∉ sel_r r ∪ sel_w r ∪ sel_e r.
Proof.
  unfold sel_events. destruct (decide (i ∈ sel_r r)), (decide (i ∈ sel_w r)),
    (decide (i ∈ sel_e r)); set_solver.
Qed.

Lemma sel_events_range r i : 0 <= sel_events r i < 8.
Proof.
  unfold sel_events. destruct (decide (i ∈ sel_r r)), (decide (i ∈ sel_w r)),
    (decide (i ∈ sel_e r)); vm_compute; split; congruence.
Qed.

Lemma lor_ne_0_r x y : 0 <= x -> 0 < y < 8 -> u16 (Z.lor x y) <> 0.
Proof.
  intros Hx Hy H0.
  assert (forall k, 0 <= k < 16 -> Z.testbit y k = false) as Hb.
  { intros k Hk. apply (f_equal (fun z => Z.testbit z k)) in H0.
    rewrite u16_testbit, Z.lor_spec, Z.bits_0 in H0 by lia. apply orb_false_iff in H0. tauto. }
  assert (Z.testbit y (Z.log2 y) = true) as Ht by (apply Z.bit_log2; lia).
  pose proof (Z.log2_lt_pow2 y 3). pose proof (Z.log2_nonneg y).
  rewrite Hb in Ht; [done|lia].
Qed.

Lemma marked_state r e k :
  0 <= k < 16 -> k <> 9 -> Z.testbit (fde_state (marked r e)) k = Z.testbit (fde_state e) k.
Proof.
  intros. unfold marked. destruct (_ =? 0); [done|]. cbn. rewrite u16_testbit, Z.lor_spec by lia.
  change FDE_PENDING with (2 ^ 9). rewrite Z.pow2_bits_false by lia. apply orb_false_r.
Qed.

Lemma marked_pend r e : pend (marked r e) <-> pend e \/ sel_events r (fde_fd e) <> 0.
Proof.
  unfold pend. rewrite !has_PENDING. unfold marked.
  destruct (sel_events r (fde_fd e) =? 0) eqn:E; bools; [tauto|]. cbn.
  rewrite u16_testbit, Z.lor_spec by lia. change (Z.testbit FDE_PENDING 9) with true.
  rewrite orb_true_r. tauto.
Qed.

Lemma marked_fd r e : fde_fd (marked r e) = fde_fd e.
Proof. unfold marked. by destruct (_ =? 0). Qed.

(** The state after the descriptor of the live event at [a] was found ready. *)
Definition mark_at (r : select_ret) (a : Z) e s : fdst F :=
  let s1 := set_fdes <[a := marked r e]> s in
  if hasbit (fde_state e) FDE_PENDING then s1 else set_pending (fun l => l ++ [a]) s1.

Lemma mark_at_inv s r a e :
  fd_inv s -> fdes s !! a = Some e -> active e -> sel_events r (fde_fd e) <> 0 ->
  fd_inv (mark_at r a e s).
Proof.
  intros Hi Ha Aa Hev. destruct (inv_fde _ Hi _ _ Ha) as [H1 H2 H3 H4 H5].
  assert (active (marked r e)) as Am.
  { unfold active in *. rewrite has_ACTIVE in *. by rewrite marked_state by lia. }
  assert (list_pending (mark_at r a e s) =
    if hasbit (fde_state e) FDE_PENDING then list_pending s else list_pending s ++ [a]) as Hp
    by (unfold mark_at; by destruct (hasbit (fde_state e) FDE_PENDING)).
  unfold pend in H3.
  eapply (fd_inv_update s (mark_at r a e s) a e (marked r e)); try done;
    try (unfold mark_at; by destruct (hasbit (fde_state e) FDE_PENDING)).
  - rewrite Hp. destruct (hasbit (fde_state e) FDE_PENDING) eqn:E; [apply (inv_nodup _ Hi)|].
    apply list.NoDup_app. split_and!; [apply (inv_nodup _ Hi)| |apply NoDup_singleton].
    intros b Hb ->%list_elem_of_singleton. by apply H3 in Hb.
  - intros b Hb. rewrite Hp. destruct (hasbit (fde_state e) FDE_PENDING); set_solver.
  - by rewrite marked_fd.
  - constructor.
    + unfold marked. destruct (_ =? 0); [done|]. cbn. split; apply u16_range.
    + intros _. rewrite marked_fd. unfold mark_at. destruct (hasbit (fde_state e) FDE_PENDING); by apply H2.
    + rewrite marked_pend. unfold pend. rewrite Hp.
      destruct (hasbit (fde_state e) FDE_PENDING) eqn:E; [rewrite <- H3; tauto|]. set_solver.
    + intros _. split; [done|]. unfold marked. apply Z.eqb_neq in Hev as Hev'. rewrite Hev'.
      apply lor_ne_0_r; [lia|]. pose proof (sel_events_range r (fde_fd e)). lia.
    + intros _. rewrite marked_fd, !has_READ, !has_WRITE, !has_ERROR, !marked_state by lia.
      rewrite has_READ, has_WRITE, has_ERROR in H5.
      unfold mark_at. destruct (hasbit (fde_state e) FDE_PENDING); by apply H5.
Qed.

Definition ready (r : select_ret) (i : Z) : bool := negb (sel_events r i =? 0).

(** The number of ready descriptors in the [cnt] ones from [i]. *)
Fixpoint nready (r : select_ret) (cnt : nat) (i : Z) : nat :=
  match cnt with
  | O => 0
  | S c => (if ready r i then 1 else 0) + nready r c (i + 1)
  end%nat.

(** Every live event with a descriptor in the range got its readiness; the rest
    is as it was. *)
Definition pass_result (r : select_ret) (cnt : nat) (i : Z) s s' : Prop :=
  fd_inv s' /\ fd_table s' = fd_table s /\ select_n s' = select_n s /\ closed s' = closed s /\
  read_fds s' = read_fds s /\ write_fds s' = write_fds s /\ error_fds s' = error_fds s /\
  (exists l, list_pending s' = list_pending s ++ l) /\
  forall a e, fdes s !! a = Some e ->
    fdes s' !! a = Some (if hasbit (fde_state e) FDE_ACTIVE && (i <=? fde_fd e) &&
                            (fde_fd e <? i + Z.of_nat cnt)
                         then marked r e else e).

Lemma marked_idle r e : ready r (fde_fd e) = false -> marked r e = e.
Proof. unfold ready, marked. by destruct (_ =? 0). Qed.

Lemma pass_idle r cnt i s : fd_inv s -> nready r cnt i = 0%nat -> pass_result r cnt i s s.
Proof.
  intros Hi H0.
  assert (forall fd, i <= fd < i + Z.of_nat cnt -> ready r fd = false) as Hr.
  { clear Hi. revert i H0. induction cnt as [|c IH]; intros i H0 fd Hfd; simpl in H0; [lia|].
    destruct (decide (fd = i)) as [->|]; [by destruct (ready r i)|].
    apply (IH (i + 1)); lia. }
  unfold pass_result. split_and!; try done.
  - exists []. by rewrite app_nil_r.
  - intros a e Ha. destruct (hasbit _ _ && _ && _) eqn:E; [|done].
    rewrite !andb_true_iff in E. destruct E as [[_ ?] ?]. bools.
    rewrite marked_idle; [done|]. apply Hr. lia.
Qed.

Lemma ready_registered s r i :
  fd_inv s -> sel_r r ⊆ read_fds s -> sel_w r ⊆ write_fds s -> sel_e r ⊆ error_fds s ->
  sel_events r i <> 0 ->
  exists a e, fd_table s !! Z.to_nat i = Some (Some a) /\ fdes s !! a = Some e /\
    active e /\ fde_fd e = i.
Proof.
  intros Hi Hr Hw He Hev.
  assert (registered s i) as [H0 [a Ha]].
  { apply (inv_sets _ Hi). destruct (decide (i ∈ sel_r r ∪ sel_w r ∪ sel_e r)); [set_solver|].
    by destruct Hev; apply sel_events_zero. }
  destruct (inv_table _ Hi _ _ Ha) as (e & He1 & He2 & He3).
  exists a, e. split_and!; try done. lia.
Qed.

Lemma pending_already x :
  0 <= x < 65536 -> hasbit x FDE_PENDING = true -> u16 (Z.lor x FDE_PENDING) = x.
Proof.
  intros Hst E. rewrite has_PENDING in E. apply Z.bits_inj'. intros k Hk.
  destruct (decide (k < 16)).
  - rewrite u16_testbit, Z.lor_spec by lia. change FDE_PENDING with (2 ^ 9).
    destruct (decide (k = 9)) as [->|]; [by rewrite E|].
    by rewrite Z.pow2_bits_false, orb_false_r by lia.
  - unfold u16. change 65536 with (2 ^ 16) in *. rewrite Z.mod_pow2_bits_high by lia.
    destruct (decide (x = 0)) as [->|]; [by rewrite Z.bits_0|].
    rewrite Z.bits_above_log2; [done|lia|]. apply Z.log2_lt_pow2; [lia|].
    eapply Z.lt_le_trans; [apply Hst|]. apply Z.pow_le_mono_r; lia.
Qed.

(** The body of the loop on a ready descriptor. *)
Lemma mark_at_run s r a e {A} (k : M (fdst F) A) :
  fdes s !! a = Some e -> 0 <= fde_state e < 65536 -> sel_events r (fde_fd e) <> 0 ->
  (e1 <- fde_at a ;;
   let e2 := set_events (Z.lor (fde_events e1) (sel_events r (fde_fd e))) e1 in
   store_fde a e2 ;;
   (if hasbit (fde_state e2) FDE_PENDING then ret tt
    else store_fde a (set_state (Z.lor (fde_state e2) FDE_PENDING) e2) ;;
         fdevent_plist_enqueue a) ;; k) s = k (mark_at r a e s).
Proof.
  intros Ha Hst Hev.
  unfold fde_at, store_fde, fdevent_plist_enqueue, bind, get, deref, modify, ret. rewrite Ha.
  unfold mark_at, marked. apply Z.eqb_neq in Hev as ->. cbn [set_events fde_state].
  destruct (hasbit (fde_state e) FDE_PENDING) eqn:E; cbn.
  - by rewrite pending_already.
  - unfold set_pending, set_fdes. simpl. by rewrite insert_insert_eq.
Qed.

Lemma process_loop_ok cnt i n r s :
  fd_inv s -> 0 <= i ->
  sel_r r ⊆ read_fds s -> sel_w r ⊆ write_fds s -> sel_e r ⊆ error_fds s ->
  Z.of_nat (nready r cnt i) <= n ->
  exists s', process_loop cnt i n r s = Ok (tt, s') /\ pass_result r cnt i s s'.
Proof.
  revert i n s. induction cnt as [|c IH]; intros i n s Hi Hpos Hr Hw He Hn.
  { exists s. split; [done|]. by apply pass_idle. }
  cbn [process_loop]. destruct (n <=? 0) eqn:E0; bools.
  { exists s. split; [done|]. apply pass_idle; [done|lia]. }
  cbn [nready] in Hn. unfold ready in Hn.
  destruct (sel_events r i =? 0) eqn:E1; bools; cbn [negb] in Hn.
  - destruct (IH (i + 1) n s) as (s' & Hrun & H1 & H2 & H3 & H4 & H5 & H6 & H7 & H8 & H9);
      try done; [lia|].
    exists s'. split; [done|]. unfold pass_result. split_and!; try done.
    intros a e Ha. rewrite (H9 a e Ha). f_equal.
    destruct (decide (fde_fd e = i)) as [Heq|].
    + rewrite marked_idle; [by repeat case_match|]. unfold ready. rewrite Heq. by apply Z.eqb_eq in E1 as ->.
    + by replace (i + 1 <=? fde_fd e) with (i <=? fde_fd e) by lia;
      replace (i + 1 + Z.of_nat c) with (i + Z.of_nat (S c)) by lia.
  - destruct (ready_registered s r i) as (a & e & Hs & Ha & Aa & Hfd); try done.
    unfold bind at 1, get. unfold deref at 1. rewrite Hs. unfold bind at 1. unfold ret at 1.
    destruct (ok_range _ _ _ (inv_fde _ Hi _ _ Ha)) as [Hrg _].
    pose proof (mark_at_run s r a e (process_loop c (i + 1) (n - 1) r) Ha Hrg) as Hstep.
    rewrite Hfd in Hstep. cbv zeta in Hstep |- *. rewrite (Hstep E1). clear Hstep.
    set (s1 := mark_at r a e s).
    assert (fd_table s1 = fd_table s /\ select_n s1 = select_n s /\ closed s1 = closed s /\
      read_fds s1 = read_fds s /\ write_fds s1 = write_fds s /\ error_fds s1 = error_fds s /\
      (exists l, list_pending s1 = list_pending s ++ l) /\
      fdes s1 = <[a := marked r e]> (fdes s)) as (G1 & G2 & G3 & G4 & G5 & G6 & [l G7] & G8).
    { unfold s1, mark_at. destruct (hasbit (fde_state e) FDE_PENDING); split_and!; try done;
      [exists []; by rewrite app_nil_r|by exists [a]]. }
    destruct (IH (i + 1) (n - 1) s1)
      as (s' & Hrun & H1 & H2 & H3 & H4 & H5 & H6 & H7 & [l' H8] & H9);
      try (by rewrite ?G4, ?G5, ?G6); try lia.
    { apply mark_at_inv; congruence. }
    exists s'. split; [done|]. unfold pass_result. split_and!; try congruence.
    { exists (l ++ l'). by rewrite H8, G7, app_assoc. }
    intros b eb Hb. destruct (decide (b = a)) as [->|Hne].
    + assert (eb = e) as -> by congruence. erewrite H9 by (rewrite G8; apply lookup_insert_eq).
      rewrite marked_fd. unfold active in Aa. rewrite Aa, Hfd. f_equal.
      rewrite (proj2 (Z.leb_gt (i + 1) i)), (proj2 (Z.leb_le i i)) by lia.
      rewrite (proj2 (Z.ltb_lt i (i + Z.of_nat (S c)))) by lia. by rewrite andb_false_r.
    + rewrite (H9 b eb) by (rewrite G8, lookup_insert_ne; done). f_equal.
      destruct (hasbit (fde_state eb) FDE_ACTIVE) eqn:Ab; [|done].
      assert (fde_fd eb <> i)
        by (intros Heq; apply Hne; apply (active_fd_inj s b a eb e); congruence).
      replace (i + 1 <=? fde_fd eb) with (i <=? fde_fd eb) by lia.
      by replace (i + 1 + Z.of_nat c) with (i + Z.of_nat (S c)) by lia.
Qed.

Lemma nready_list r cnt i :
  exists l : list Z, NoDup l /\ length l = nready r cnt i /\
    forall x, x ∈ l -> i <= x /\ sel_events r x <> 0.
Proof.
  revert i. induction cnt as [|c IH]; intros i; cbn [nready].
  { exists []. split_and!; [constructor|done|set_solver]. }
  destruct (IH (i + 1)) as (l & Hnd & Hl & Hall). unfold ready.
  destruct (sel_events r i =? 0) eqn:E; bools; cbn [negb].
  - exists l. split_and!; try done. intros x Hx. specialize (Hall x Hx). split; [lia|tauto].
  - exists (i :: l). split_and!.
    + constructor; [|done]. intros Hx. specialize (Hall i Hx). lia.
    + simpl. lia.
    + intros x [->|Hx]%elem_of_cons; [split; [lia|done]|].
      specialize (Hall x Hx). split; [lia|tauto].
Qed.

Lemma nready_bound r cnt i :
  (nready r cnt i <= size (sel_r r) + size (sel_w r) + size (sel_e r))%nat.
Proof.
  destruct (nready_list r cnt i) as (l & Hnd & <- & Hall).
  assert (list_to_set l ⊆ sel_r r ∪ sel_w r ∪ sel_e r) as Hsub.
  { intros x Hx%elem_of_list_to_set. destruct (Hall x Hx) as [_ Hev].
    destruct (decide (x ∈ sel_r r ∪ sel_w r ∪ sel_e r)) as [|Hn]; [done|].
    by apply sel_events_zero in Hn. }
  apply subseteq_size in Hsub. rewrite size_list_to_set in Hsub by done.
  rewrite !size_union_alt in Hsub.
  pose proof (subseteq_size (sel_w r ∖ sel_r r) (sel_w r) ltac:(set_solver)).
  pose proof (subseteq_size (sel_e r ∖ (sel_r r ∪ sel_w r)) (sel_e r) ltac:(set_solver)). lia.
Qed.

Lemma fdevent_process_ok s r :
  fd_inv s -> select_answer s r ->
  exists s', fdevent_process r s = Ok (tt, s') /\
    if sel_n r <? 0 then s' = s else pass_result r (Z.to_nat (select_n s)) 0 s s'.
Proof.
  intros Hi (Hr & Hw & He & Hn). unfold fdevent_process.
  destruct (sel_n r <? 0) eqn:E; bools; [by exists s|].
  unfold bind, get. apply process_loop_ok; try done.
  rewrite (Hn E). pose proof (nready_bound r (Z.to_nat (select_n s)) 0). lia.
Qed.

Lemma fdevent_process_inv s r s' :
  fd_inv s -> select_answer s r -> fdevent_process r s = Ok (tt, s') -> fd_inv s'.
Proof.
  intros Hi Ha Hrun. destruct (fdevent_process_ok s r Hi Ha) as (s1 & H1 & H2).
  assert (s1 = s') as -> by congruence.
  destruct (sel_n r <? 0); [by subst|]. by destruct H2.
Qed.

(** The event handed to its callback. *)
Definition idle_fde e : fdevent F :=
  mkFde (fde_fd e) (u16 (Z.land (fde_state e) (Z.lnot FDE_PENDING))) 0 (fde_func e) (fde_arg e).

Lemma idle_state e k :
  0 <= k < 16 -> k <> 9 -> Z.testbit (fde_state (idle_fde e)) k = Z.testbit (fde_state e) k.
Proof.
  intros. cbn. rewrite u16_testbit, Z.land_spec, Z.lnot_spec by lia.
  change FDE_PENDING with (2 ^ 9). rewrite Z.pow2_bits_false by lia. apply andb_true_r.
Qed.

Lemma idle_not_pend e : ~ pend (idle_fde e).
Proof.
  unfold pend. rewrite has_PENDING. cbn. rewrite u16_testbit, Z.land_spec by lia.
  change (Z.testbit (Z.lnot FDE_PENDING) 9) with false. by rewrite andb_false_r.
Qed.

Lemma next_callback_ok s a l :
  fd_inv s -> list_pending s = a :: l ->
  exists s' e, fdes s !! a = Some e /\ active e /\ fde_events e <> 0 /\
    next_callback s = Ok (Some (fde_func e, fde_fd e, fde_events e, fde_arg e), s') /\
    fd_inv s' /\ list_pending s' = l /\ fdes s' = <[a := idle_fde e]> (fdes s) /\
    closed s' = closed s.
Proof.
  intros Hi Hl. assert (a ∈ list_pending s) as Hin by (rewrite Hl; left).
  destruct (inv_pdom _ Hi _ Hin) as [e Ha].
  destruct (inv_fde _ Hi _ _ Ha) as [H1 H2 H3 H4 H5].
  destruct (H4 (proj2 H3 Hin)) as [Aa Hev].
  pose proof (inv_nodup _ Hi) as Hnd. rewrite Hl in Hnd. apply list.NoDup_cons in Hnd as [Hni Hnd].
  unfold next_callback, fdevent_plist_dequeue, fde_at, store_fde, bind, get, modify, deref, ret.
  rewrite Hl. cbn [fdes set_pending]. rewrite Ha. eexists _, e.
  split_and!; try done.
  eapply (fd_inv_update s _ a e (idle_fde e)); try done.
  - intros b Hb. cbn. rewrite Hl. set_solver.
  - unfold active in *. rewrite has_ACTIVE in *. by rewrite idle_state by lia.
  - constructor; cbn -[hasbit idle_fde].
    + cbn. split; [apply u16_range|lia].
    + intros _. by apply H2.
    + split; [by intros ?%idle_not_pend|done].
    + by intros ?%idle_not_pend.
    + intros _. rewrite !has_READ, !has_WRITE, !has_ERROR in *.
      rewrite !idle_state by lia. by apply H5.
Qed.

Lemma next_callback_none s : list_pending s = [] -> next_callback s = Ok (None, s).
Proof. intros Hl. unfold next_callback, fdevent_plist_dequeue, bind, get. by rewrite Hl. Qed.

(** ** Sequences of operations *)

Inductive fd_op :=
| OpInstall (a fd : Z) (func : F) (arg : Z)
| OpCreate (a fd : Z) (func : F) (arg : Z)
| OpSet (a events : Z)
| OpAdd (a events : Z)
| OpDel (a events : Z)
| OpRemove (a : Z)
| OpDestroy (a : Z)
| OpFree (a : Z)               (* the owner frees a removed event *)
| OpProcess (r : select_ret)
| OpCallback.

Definition run_op (o : fd_op) : M (fdst F) unit :=
  match o with
  | OpInstall a fd func arg => fdevent_install a fd func arg
  | OpCreate a fd func arg => fdevent_create a fd func arg
  | OpSet a events => fdevent_set a events
  | OpAdd a events => fdevent_add a events
  | OpDel a events => fdevent_del a events
  | OpRemove a => fdevent_remove a
  | OpDestroy a => fdevent_destroy a
  | OpFree a => modify (set_fdes (delete a))
  | OpProcess r => fdevent_process r
  | OpCallback => next_callback ;; ret tt
  end.

Definition live s (a : Z) : Prop := exists e, fdes s !! a = Some e /\ active e.

(** What the callers of the module owe it. *)
Definition legal s (o : fd_op) : Prop :=
  match o with
  | OpInstall a fd _ _ | OpCreate a fd _ _ =>
      installable s a /\ 0 <= fd < FD_SETSIZE /\ ~ registered s fd
  | OpSet a _ | OpAdd a _ | OpDel a _ | OpRemove a => live s a
  | OpDestroy a =>
      exists e, fdes s !! a = Some e /\ active e /\ hasbit (fde_state e) FDE_CREATED = true
  | OpFree a => ~ live s a
  | OpProcess r => select_answer s r
  | OpCallback => True
  end.

Fixpoint run_ops (os : list fd_op) : M (fdst F) unit :=
  match os with
  | [] => ret tt
  | o :: os => run_op o ;; run_ops os
  end.

Fixpoint legal_trace s (os : list fd_op) : Prop :=
  match os with
  | [] => True
  | o :: os => legal s o /\ forall s', run_op o s = Ok (tt, s') -> legal_trace s' os
  end.

Definition fd_start : fdst F := mkFdst ∅ [] [] ∅ ∅ ∅ 0 [].

Lemma fd_start_inv : fd_inv fd_start.
Proof.
  constructor; cbn; [| |apply NoDup_nil_2| | |by vm_compute]; try set_solver.
Qed.

Lemma free_inv s a : fd_inv s -> ~ live s a -> fd_inv (set_fdes (delete a) s).
Proof.
  intros Hi Hl. constructor; cbn.
  - intros b e Hb. apply lookup_delete_Some in Hb as [_ Hb].
    destruct (inv_fde _ Hi _ _ Hb). by constructor.
  - intros i b Hb. destruct (inv_table _ Hi _ _ Hb) as (e & He & Ae & Hfd).
    exists e. split; [|done]. rewrite lookup_delete_ne; [done|].
    intros ->. apply Hl. by exists e.
  - apply (inv_nodup _ Hi).
  - intros b Hb. destruct (inv_pdom _ Hi _ Hb) as [e He]. exists e.
    rewrite lookup_delete_ne; [done|]. intros ->. apply Hl. exists e. split; [done|].
    destruct (inv_fde _ Hi _ _ He) as [_ _ H3 H4 _]. by apply H4, H3.
  - apply (inv_sets _ Hi).
  - apply (inv_max _ Hi).
Qed.

Lemma fdevent_create_ok s a fd func arg :
  fd_inv s -> installable s a -> 0 <= fd < FD_SETSIZE -> ~ registered s fd ->
  exists s', fdevent_create a fd func arg s = Ok (tt, s') /\ fd_inv s'.
Proof.
  intros Hi Hin Hfd Hr.
  destruct (fdevent_install_ok s a fd func arg Hi Hin Hfd Hr) as (s1 & Hrun & Hi1 & Hf & Hl & Hc).
  assert (fdes s1 !! a = Some (fresh_fde fd func arg)) as Ha by (rewrite Hf; apply lookup_insert_eq).
  unfold fdevent_create. rewrite (bind_ok _ _ _ _ _ Hrun).
  rewrite (bind_ok _ _ _ _ _ (fde_at_ok _ _ _ Ha)). eexists. split; [reflexivity|].
  destruct (inv_fde _ Hi1 _ _ Ha) as [H1 H2 H3 H4 H5].
  eapply (fd_inv_update s1 _ a (fresh_fde fd func arg)); try done; apply (inv_nodup _ Hi1).
Qed.

Lemma run_op_ok s o :
  fd_inv s -> legal s o -> exists s', run_op o s = Ok (tt, s') /\ fd_inv s'.
Proof.
  intros Hi Hl. destruct o; simpl in *.
  - destruct Hl as (? & ? & ?).
    destruct (fdevent_install_ok s a fd func arg) as (s' & ? & ? & _); eauto.
  - destruct Hl as (? & ? & ?). by apply fdevent_create_ok.
  - destruct Hl as (e & ? & ?). destruct (fdevent_set_ok s a e events) as (s' & ? & ? & _); eauto.
  - destruct Hl as (e & Ha & ?). unfold fdevent_add. rewrite (bind_ok _ _ _ _ _ (fde_at_ok _ _ _ Ha)).
    edestruct (fdevent_set_ok s a e) as (s' & ? & ? & _); eauto.
  - destruct Hl as (e & Ha & ?). unfold fdevent_del. rewrite (bind_ok _ _ _ _ _ (fde_at_ok _ _ _ Ha)).
    edestruct (fdevent_set_ok s a e) as (s' & ? & ? & _); eauto.
  - destruct Hl as (e & ? & ?). destruct (fdevent_remove_ok s a e) as (s' & ? & ? & _); eauto.
  - destruct Hl as (e & Ha & ? & Hc). unfold fdevent_destroy.
    rewrite (bind_ok _ _ _ _ _ (fde_at_ok _ _ _ Ha)), Hc.
    destruct (fdevent_remove_ok s a e) as (s' & ? & ? & _); eauto.
  - eexists. split; [reflexivity|]. by apply free_inv.
  - destruct (fdevent_process_ok s r Hi Hl) as (s' & Hrun & _).
    exists s'. split; [done|]. by eapply fdevent_process_inv.
  - destruct (list_pending s) as [|a l] eqn:El.
    + rewrite (bind_ok _ _ _ _ _ (next_callback_none s El)). by exists s.
    + destruct (next_callback_ok s a l Hi El) as (s' & e & _ & _ & _ & Hrun & Hi' & _).
      rewrite (bind_ok _ _ _ _ _ Hrun). by exists s'.
Qed.

Lemma run_ops_ok s os :
  fd_inv s -> legal_trace s os -> exists s', run_ops os s = Ok (tt, s') /\ fd_inv s'.
Proof.
  revert s. induction os as [|o os IH]; intros s Hi Hl; simpl; [by exists s|].
  destruct Hl as [Ho Hrest]. destruct (run_op_ok s o Hi Ho) as (s1 & Hrun & Hi1).
  rewrite (bind_ok _ _ _ _ _ Hrun). by apply IH, Hrest.
Qed.

Lemma selected_iff s fd (X : gset Z) m :
  fd_inv s -> X ⊆ read_fds s ∪ write_fds s ∪ error_fds s ->
  (forall a e, fdes s !! a = Some e -> active e ->
     fde_fd e ∈ X <-> hasbit (fde_state e) m = true) ->
  fd ∈ X <-> exists a e, fdes s !! a = Some e /\ active e /\ fde_fd e = fd /\
                         hasbit (fde_state e) m = true.
Proof.
  intros Hi Hsub Hx. split.
  - intros Hin. destruct (inv_sets _ Hi fd) as [H0 [a Ha]]; [set_solver|].
    destruct (inv_table _ Hi _ _ Ha) as (e & He & Ae & Hfd). exists a, e.
    assert (fde_fd e = fd) as <- by lia. split_and!; try done. by apply (Hx a e).
  - intros (a & e & Ha & Ae & <- & Hm). by apply (Hx a e).
Qed.

(** C23: Whatever sequence of calls the owners of events make, as long as each
    call is one they may make (install only where no live event is and on a
    descriptor [select] can hold and no live event has, change or remove only a
    live event, free only a removed one) and [select] answers for the sets it
    was given, no call aborts or touches a dead event; and afterwards the sets
    given to [select] are exactly the descriptors of the live events that ask
    for each kind of event, the pending list holds exactly the live events with
    undelivered events, without repetition, and two live events never share a
    descriptor. *)
Theorem fdevent_trace_safe (os : list fd_op) :
  legal_trace fd_start os ->
  exists s, run_ops os fd_start = Ok (tt, s) /\
    (forall fd, fd ∈ read_fds s <-> exists a e, fdes s !! a = Some e /\ active e /\
       fde_fd e = fd /\ hasbit (fde_state e) FDE_READ = true) /\
    (forall fd, fd ∈ write_fds s <-> exists a e, fdes s !! a = Some e /\ active e /\
       fde_fd e = fd /\ hasbit (fde_state e) FDE_WRITE = true) /\
    (forall fd, fd ∈ error_fds s <-> exists a e, fdes s !! a = Some e /\ active e /\
       fde_fd e = fd /\ hasbit (fde_state e) FDE_ERROR = true) /\
    NoDup (list_pending s) /\
    (forall a, a ∈ list_pending s -> exists e, fdes s !! a = Some e /\ active e /\ fde_events e <> 0) /\
    (forall a b e e', fdes s !! a = Some e -> fdes s !! b = Some e' -> active e -> active e' ->
       fde_fd e = fde_fd e' -> a = b).
Proof.
  intros Hl. destruct (run_ops_ok fd_start os fd_start_inv Hl) as (s & Hrun & Hi).
  exists s. split_and!; [done|..].
  - intros fd. apply selected_iff; [done|set_solver|].
    intros a e Ha Aa. by destruct (ok_sets _ _ _ (inv_fde _ Hi _ _ Ha) Aa) as (? & ? & ?).
  - intros fd. apply selected_iff; [done|set_solver|].
    intros a e Ha Aa. by destruct (ok_sets _ _ _ (inv_fde _ Hi _ _ Ha) Aa) as (? & ? & ?).
  - intros fd. apply selected_iff; [done|set_solver|].
    intros a e Ha Aa. by destruct (ok_sets _ _ _ (inv_fde _ Hi _ _ Ha) Aa) as (? & ? & ?).
  - apply (inv_nodup _ Hi).
  - intros a Ha. destruct (inv_pdom _ Hi _ Ha) as [e He]. exists e. split; [done|].
    destruct (inv_fde _ Hi _ _ He) as [_ _ H3 H4 _]. by apply H4, H3.
  - intros a b e e' Ha Hb Aa Ab Hfd. by apply (active_fd_inj s a b e e').
Qed.

(** C24: A pass over a successful answer of [select] hands every ready
    descriptor's events to the live event of that descriptor and to no other:
    each live event keeps its undelivered events and gains exactly the reported
    ones, it is pending exactly if it was or if something was reported for it,
    earlier pending events stay in front, and no descriptor is dropped because
    the count of ready descriptors ran out. *)
Theorem fdevent_process_delivers s r :
  fd_inv s -> select_answer s r -> 0 <= sel_n r ->
  exists s', fdevent_process r s = Ok (tt, s') /\ fd_inv s' /\
    (exists l, list_pending s' = list_pending s ++ l) /\
    forall a e, fdes s !! a = Some e -> active e ->
      exists e', fdes s' !! a = Some e' /\ fde_fd e' = fde_fd e /\ wanted e' = wanted e /\
        fde_events e' = Z.lor (fde_events e) (sel_events r (fde_fd e)) /\
        (a ∈ list_pending s' <-> a ∈ list_pending s \/ sel_events r (fde_fd e) <> 0).
Proof.
  intros Hi Hsel Hn. destruct (fdevent_process_ok s r Hi Hsel) as (s' & Hrun & Hp).
  apply Z.ltb_ge in Hn as Hn'. rewrite Hn' in Hp.
  destruct Hp as (Hi' & _ & _ & _ & _ & _ & _ & Hl & Hall).
  exists s'. split_and!; try done. intros a e Ha Aa.
  destruct (inv_fde _ Hi _ _ Ha) as [Hrg Hact Hpd _ _]. destruct (Hact Aa) as (Hfd & Hsn & _).
  specialize (Hall a e Ha). unfold active in Aa. rewrite Aa in Hall.
  rewrite (proj2 (Z.leb_le 0 (fde_fd e))) in Hall by lia.
  rewrite (proj2 (Z.ltb_lt _ _)) in Hall by lia. simpl in Hall.
  exists (marked r e). split_and!; [done|apply marked_fd| | |].
  - unfold wanted. apply Z.bits_inj'. intros k Hk. destruct (decide (k < 8)).
    + rewrite !eventmask_low by lia. apply marked_state; lia.
    + by rewrite !eventmask_high by lia.
  - unfold marked. destruct (sel_events r (fde_fd e) =? 0) eqn:E; bools.
    + by rewrite E, Z.lor_0_r.
    + cbn. unfold u16. apply Z.mod_small. pose proof (sel_events_range r (fde_fd e)).
      split; [apply Z.lor_nonneg; lia|]. change 65536 with (2 ^ 16).
      destruct (decide (Z.lor (fde_events e) (sel_events r (fde_fd e)) = 0)) as [->|]; [done|].
      apply Z.log2_lt_pow2; [pose proof (proj2 (Z.lor_nonneg (fde_events e) (sel_events r (fde_fd e))));
        lia|].
      rewrite Z.log2_lor by lia. apply Z.max_lub_lt.
      * destruct (decide (fde_events e = 0)) as [->|]; [done|]. apply Z.log2_lt_pow2; lia.
      * destruct (decide (sel_events r (fde_fd e) = 0)) as [->|]; [done|].
        apply Z.log2_lt_pow2; lia.
  - rewrite <- (ok_pend _ _ _ (inv_fde _ Hi' _ _ Hall)), marked_pend. by rewrite Hpd.
Qed.

(** The callbacks of a pass run in the order their events became pending:
    the loop takes the event at the front of the pending list, which is live and
    has events to deliver, and calls its own callback with its descriptor, its
    argument and exactly those events, which count as delivered from then on; it
    stops only when nothing is pending. *)
Theorem next_callback_fifo s :
  fd_inv s ->
  match list_pending s with
  | [] => next_callback s = Ok (None, s)
  | a :: l => exists s' e e', fdes s !! a = Some e /\ active e /\ fde_events e <> 0 /\
      next_callback s = Ok (Some (fde_func e, fde_fd e, fde_events e, fde_arg e), s') /\
      fd_inv s' /\ list_pending s' = l /\
      fdes s' !! a = Some e' /\ fde_events e' = 0 /\ wanted e' = wanted e /\ active e' /\
      forall b, b <> a -> fdes s' !! b = fdes s !! b
  end.
Proof.
  intros Hi. destruct (list_pending s) as [|a l] eqn:El; [by apply next_callback_none|].
  destruct (next_callback_ok s a l Hi El) as (s' & e & Ha & Aa & Hev & Hrun & Hi' & Hl & Hf & _).
  exists s', e, (idle_fde e). split_and!; try done.
  - rewrite Hf. apply lookup_insert_eq.
  - unfold wanted. apply Z.bits_inj'. intros k Hk. destruct (decide (k < 8)).
    + rewrite !eventmask_low by lia. apply idle_state; lia.
    + by rewrite !eventmask_high by lia.
  - unfold active in *. rewrite has_ACTIVE in *. by rewrite idle_state by lia.
  - intros b Hb. by rewrite Hf, lookup_insert_ne.
Qed.

(** Changing the events of a live event that has undelivered ones keeps
    exactly the undelivered events that are no longer wanted, and drops those
    that still are; so, where everything undelivered is still wanted, its
    callback is cancelled. *)
Theorem fdevent_set_keeps_unwanted s a e events :
  fd_inv s -> fdes s !! a = Some e -> pend e -> wanted e <> Z.land events FDE_EVENTMASK ->
  exists s' e', fdevent_set a events s = Ok (tt, s') /\ fdes s' !! a = Some e' /\
    wanted e' = Z.land events FDE_EVENTMASK /\
    (forall k, 0 <= k < 8 -> Z.testbit (fde_events e') k =
       Z.testbit (fde_events e) k && negb (Z.testbit events k)) /\
    (Z.land (fde_events e) (Z.lnot (Z.land events FDE_EVENTMASK)) = 0 -> a ∉ list_pending s').
Proof.
  intros Hi Ha Hp Hw. pose proof (inv_fde _ Hi _ _ Ha) as Hok.
  destruct (ok_pa _ _ _ Hok Hp) as [Aa _].
  destruct (fdevent_set_ok s a e events Hi Ha Aa) as (s' & Hrun & Hi' & Hf & _ & _).
  assert (fdes s' !! a = Some (set_result events e)) as Ha' by (rewrite Hf; apply lookup_insert_eq).
  exists s', (set_result events e). split_and!; try done.
  - apply set_result_wanted.
  - intros k Hk. unfold set_result, pend in *. rewrite Hp. apply Z.eqb_neq in Hw as ->. cbn.
    rewrite u16_testbit, Z.land_spec, Z.lnot_spec, eventmask_low by lia. done.
  - intros H0. rewrite <- (ok_pend _ _ _ (inv_fde _ Hi' _ _ Ha')). intros Hp'.
    destruct (ok_pa _ _ _ (inv_fde _ Hi' _ _ Ha') Hp') as [_ Hne]. apply Hne.
    unfold set_result, pend in *. rewrite Hp. apply Z.eqb_neq in Hw as ->. cbn. by rewrite H0.
Qed.

(** Descriptors from [FD_SETSIZE] up to 32000 are accepted by registration,
    and the first request for events on one writes outside the descriptor sets. *)
Theorem fdevent_large_fd_undefined s a fd func arg events :
  fd_inv s -> installable s a -> FD_SETSIZE <= fd <= 32000 ->
  Z.land events FDE_EVENTMASK <> 0 ->
  exists s', fdevent_install a fd func arg s = Ok (tt, s') /\
    fdevent_set a events s' = Err EUndef.
Proof.
  intros Hi Hin Hfd Hev.
  destruct (fdevent_install_state s a fd func arg Hi Hin ltac:(unfold FD_SETSIZE in *; lia))
    as (s' & Hrun & Hf & _).
  exists s'. split; [done|].
  assert (fdes s' !! a = Some (fresh_fde fd func arg)) as Ha by (rewrite Hf; apply lookup_insert_eq).
  unfold fdevent_set. rewrite (bind_ok _ _ _ _ _ (fde_at_ok _ _ _ Ha)).
  change (Z.land (fde_state (fresh_fde fd func arg)) FDE_EVENTMASK) with 0.
  destruct (0 =? _) eqn:E; bools; [congruence|].
  change (hasbit (fde_state (fresh_fde fd func arg)) FDE_ACTIVE) with true. cbn [when].
  unfold fdevent_update. unfold bind at 1 2. rewrite (fde_at_ok _ _ _ Ha).
  unfold fd_in_set. cbn [fresh_fde fde_fd]. rewrite (proj2 (Z.ltb_ge fd FD_SETSIZE)) by lia.
  by rewrite andb_false_r.
Qed.

End Inv.

(** ** A concrete run *)

Lemma reach_inv {F} (s s' : fdst F) os :
  fd_inv s -> legal_trace s os -> run_ops os s = Ok (tt, s') -> fd_inv s'.
Proof. intros Hi Hl Hrun. destruct (run_ops_ok s os Hi Hl) as (s1 & H1 & H2). congruence. Qed.

(** One event on descriptor 5, asked to be readable, found readable. *)
Definition demo_ready : select_ret := mkSel 1 {[5]} ∅ ∅.
Definition demo_ops : list (@fd_op unit) :=
  [OpInstall 1 5 tt 7; OpAdd 1 FDE_READ; OpProcess demo_ready].

Definition run_or_start (os : list (@fd_op unit)) : fdst unit :=
  match run_ops os fd_start with Ok (_, s) => s | Err _ => fd_start end.

Ltac next_state := let H := fresh in intros ? H; vm_compute in H; injection H as <-.

Lemma demo_legal : legal_trace fd_start demo_ops.
Proof.
  split.
  { split_and!; [by intros e He|done|done|].
    intros [_ [a Ha]]. vm_compute in Ha. congruence. }
  next_state. split; [eexists; split; [vm_compute; reflexivity|done]|].
  next_state. split; [|done]. by split_and!.
Qed.

Lemma demo_inv : fd_inv (run_or_start demo_ops).
Proof.
  apply (reach_inv fd_start _ demo_ops fd_start_inv demo_legal). by vm_compute.
Qed.

Lemma fdevent_trace_safe_witness :
  legal_trace fd_start demo_ops /\
  exists s, run_ops demo_ops fd_start = Ok (tt, s) /\ NoDup (list_pending s).
Proof.
  split; [exact demo_legal|].
  destruct (fdevent_trace_safe demo_ops demo_legal) as (s & H1 & _ & _ & _ & H2 & _).
  by exists s.
Defined.

Lemma fdevent_process_delivers_witness :
  exists s', fdevent_process demo_ready (run_or_start demo_ops) = Ok (tt, s') /\ fd_inv s'.
Proof.
  destruct (fdevent_process_delivers (run_or_start demo_ops) demo_ready demo_inv)
    as (s' & H1 & H2 & _); [|done|by exists s'].
  by split_and!.
Defined.

Lemma next_callback_fifo_witness :
  exists s', next_callback (run_or_start demo_ops) = Ok (Some (tt, 5, FDE_READ, 7), s').
Proof.
  pose proof (next_callback_fifo (run_or_start demo_ops) demo_inv) as H. vm_compute in H.
  destruct H as (s' & e & e' & He & _ & _ & Hrun & _). injection He as <-. by exists s'.
Defined.

Lemma fdevent_set_keeps_unwanted_witness :
  exists s' e', fdevent_set 1 (Z.lor FDE_READ FDE_WRITE) (run_or_start demo_ops) = Ok (tt, s') /\
    fdes s' !! 1 = Some e' /\ Z.testbit (fde_events e') 0 = false.
Proof.
  destruct (fdevent_set_keeps_unwanted (run_or_start demo_ops) 1 (mkFde 5 0x301 1 tt 7)
    (Z.lor FDE_READ FDE_WRITE) demo_inv) as (s' & e' & H1 & H2 & _ & H3 & _);
    [by vm_compute|done|by vm_compute|].
  exists s', e'. split_and!; [done|done|]. by rewrite H3 by lia.
Defined.

Lemma fdevent_large_fd_undefined_witness :
  exists s', fdevent_install 1 2000 tt 7 fd_start = Ok (tt, s') /\
    fdevent_set 1 FDE_READ s' = Err EUndef.
Proof.
  apply (fdevent_large_fd_undefined fd_start 1 2000 tt 7 FDE_READ fd_start_inv);
    [by intros e He|unfold FD_SETSIZE; lia|by vm_compute].
Defined.
