(* ===== verification/EventMap.v ===== *)
(** * What the server needs of the descriptor events

    The server's objects embed their events, so the server only has to know
    which of its objects have a live event and for which descriptor: the map
    [fdmap].  The operations of FdEvent.v are restated in terms of it. *)

From S2P Require Import Prelude FdEvent.

Section event_map.
Context {F : Type}.
Implicit Types (s : fdst F) (e : fdevent F).

Definition live_fd e : option Z :=
  if hasbit (fde_state e) FDE_ACTIVE then Some (fde_fd e) else None.

(** The descriptor of each live event. *)
Definition fdmap s : gmap Z Z := omap live_fd (fdes s).

Lemma live_fd_active e fd : live_fd e = Some fd <-> active e /\ fde_fd e = fd.
Proof. unfold live_fd, active. destruct (hasbit _ _); naive_solver. Qed.

Lemma fdmap_some s a fd :
  fdmap s !! a = Some fd <-> exists e, fdes s !! a = Some e /\ active e /\ fde_fd e = fd.
Proof.
  unfold fdmap. rewrite lookup_omap_Some.
  split; intros (e & H); exists e; rewrite live_fd_active in *; tauto.
Qed.

Lemma fdmap_none s a : fdmap s !! a = None <-> ~ live s a.
Proof.
  rewrite eq_None_not_Some. unfold live, is_Some. setoid_rewrite fdmap_some. naive_solver.
Qed.

Lemma fdmap_insert s s' a e :
  fdes s' = <[a := e]> (fdes s) ->
  fdmap s' = match live_fd e with Some fd => <[a := fd]> (fdmap s) | None => delete a (fdmap s) end.
Proof.
  intros Hf. unfold fdmap. rewrite Hf. destruct (live_fd e) eqn:He.
  - by apply omap_insert_Some.
  - by apply omap_insert_None.
Qed.

Lemma registered_fdmap s fd : fd_inv s -> registered s fd <-> exists a, fdmap s !! a = Some fd.
Proof.
  intros Hi. split.
  - intros [H0 [a Ha]]. destruct (inv_table _ Hi _ _ Ha) as (e & He & Ae & Hfd).
    exists a. apply fdmap_some. exists e. split_and!; [done..|lia].
  - intros [a Ha]. apply fdmap_some in Ha as (e & He & Ae & <-).
    destruct (ok_active _ _ _ (inv_fde _ Hi _ _ He) Ae) as (H1 & _ & H2). split; [lia|eauto].
Qed.

(** Two objects never share a descriptor. *)
Lemma fdmap_inj s a b fd :
  fd_inv s -> fdmap s !! a = Some fd -> fdmap s !! b = Some fd -> a = b.
Proof.
  intros Hi (e & He & Ae & H1)%fdmap_some (e' & He' & Ae' & H2)%fdmap_some.
  eapply active_fd_inj; eauto. congruence.
Qed.

Lemma set_result_live ev e : active e -> live_fd (set_result ev e) = Some (fde_fd e).
Proof.
  intros Ae. apply live_fd_active. unfold active. by rewrite set_result_active, set_result_fd.
Qed.

Lemma event_set s a fd ev :
  fd_inv s -> fdmap s !! a = Some fd ->
  exists s', fdevent_set a ev s = Ok (tt, s') /\ fd_inv s' /\ fdmap s' = fdmap s.
Proof.
  intros Hi Ha. pose proof Ha as (e & He & Ae & Hfd)%fdmap_some.
  destruct (fdevent_set_ok s a e ev Hi He Ae) as (s' & Hr & Hi' & Hf & _).
  exists s'. split_and!; [done..|].
  rewrite (fdmap_insert _ _ _ _ Hf), set_result_live, Hfd by done. by rewrite insert_id.
Qed.

Lemma event_add s a fd ev :
  fd_inv s -> fdmap s !! a = Some fd ->
  exists s', fdevent_add a ev s = Ok (tt, s') /\ fd_inv s' /\ fdmap s' = fdmap s.
Proof.
  intros Hi Ha. pose proof Ha as (e & He & _)%fdmap_some.
  unfold fdevent_add. rewrite (bind_ok _ _ _ _ _ (fde_at_ok _ _ _ He)). by eapply event_set.
Qed.

Lemma event_del s a fd ev :
  fd_inv s -> fdmap s !! a = Some fd ->
  exists s', fdevent_del a ev s = Ok (tt, s') /\ fd_inv s' /\ fdmap s' = fdmap s.
Proof.
  intros Hi Ha. pose proof Ha as (e & He & _)%fdmap_some.
  unfold fdevent_del. rewrite (bind_ok _ _ _ _ _ (fde_at_ok _ _ _ He)). by eapply event_set.
Qed.

Lemma event_remove s a fd :
  fd_inv s -> fdmap s !! a = Some fd ->
  exists s', fdevent_remove a s = Ok (tt, s') /\ fd_inv s' /\ fdmap s' = delete a (fdmap s).
Proof.
  intros Hi (e & He & Ae & Hfd)%fdmap_some.
  destruct (fdevent_remove_ok s a e Hi He Ae) as (s' & Hr & Hi' & Hf & _).
  exists s'. split_and!; [done..|]. by rewrite (fdmap_insert _ _ _ _ Hf).
Qed.

Lemma event_install s a fd func arg :
  fd_inv s -> fdmap s !! a = None -> 0 <= fd < FD_SETSIZE -> (forall b, fdmap s !! b <> Some fd) ->
  exists s', fdevent_install a fd func arg s = Ok (tt, s') /\ fd_inv s' /\
    fdmap s' = <[a := fd]> (fdmap s).
Proof.
  intros Hi Ha Hfd Hfree.
  destruct (fdevent_install_ok s a fd func arg Hi) as (s' & Hr & Hi' & Hf & _); try done.
  - intros e He Ae. apply fdmap_none in Ha. apply Ha. by exists e.
  - rewrite registered_fdmap by done. intros [b Hb]. by apply (Hfree b).
  - exists s'. split_and!; [done..|]. by rewrite (fdmap_insert _ _ _ _ Hf).
Qed.

Lemma event_free s a :
  fd_inv s -> fdmap s !! a = None ->
  fd_inv (set_fdes (delete a) s) /\ fdmap (set_fdes (delete a) s) = fdmap s.
Proof.
  intros Hi Ha. split; [by apply free_inv, fdmap_none|].
  unfold fdmap in *. cbn. by rewrite omap_delete, delete_id.
Qed.

End event_map.

#[global] Arguments fdmap {F} s : simpl never.
#[global] Arguments set_fdes {F} f s : simpl never.
