(* ===== verification/Jdwp.v ===== *)
(** * Debuggable processes of the device (jdwp_service.c)

    On the device, every process that can be debugged connects to the daemon and
    sends its process number; a debugger asks for a connection to a number, and
    the daemon passes one end of a pair of sockets to the process.  The services
    [jdwp] and [track-jdwp] show the list of numbers, once and after every change.

    Processes and trackers are nodes of two rings, both with their heads at the
    address 0.  The event created for a process is kept at the address of the
    process.  The peers of the services' sockets are sockets of the daemon; calls
    to them are recorded. *)

From S2P Require Import Prelude Ring Io Wire FdEvent.

Definition MAX_OUT_FDS : nat := 4.


(** [j_in] are the first [in_len] bytes of [in_buff], [j_out] the first [out_count]
    descriptors of [out_fds]. *)
Record jproc := mkProc {
  j_pid : Z;
  j_socket : Z;
  j_in : list Z;
  j_out : list Z;
}.

Record jtracker := mkTracker { jt_peer : option Z; jt_need_update : bool }.
Record jsocket := mkJsocket { js_peer : option Z; js_pass : bool }.

(** What happens to sockets of the daemon, and descriptors passed to a process. *)
Inductive jcall :=
| Enqueue (peer : Z) (data : list Z)
| ClosePeer (peer : Z)
| RemoveSocket (s : Z)
| PassFd (socket fd : Z).

(** The callbacks of events. *)
Inductive jfunc := jdwp_process_event_p | jdwp_control_event_p.

(** [jd_recv], [jd_accept], [jd_pairs] and [jd_sendmsg] are the kernel's answers, in
    order; [jd_closed] the descriptors closed, [jd_calls] what was done. *)
Record jdwp := mkJdwp {
  jd_procs : gmap Z jproc;
  jd_links : gmap Z (Z * Z);
  jd_trackers : gmap Z jtracker;
  jd_tlinks : gmap Z (Z * Z);
  jd_sockets : gmap Z jsocket;
  jd_fde : fdst jfunc;
  jd_next : Z;
  jd_recv : gmap Z rdfd;
  jd_accept : list (errno + Z);
  jd_pairs : list (option (Z * Z));
  jd_sendmsg : list (option errno);
  jd_closed : list Z;
  jd_calls : list jcall;
}.

Definition upd_procs f d := mkJdwp (f (jd_procs d)) (jd_links d) (jd_trackers d) (jd_tlinks d) (jd_sockets d) (jd_fde d) (jd_next d) (jd_recv d) (jd_accept d) (jd_pairs d) (jd_sendmsg d) (jd_closed d) (jd_calls d).
Definition upd_links f d := mkJdwp (jd_procs d) (f (jd_links d)) (jd_trackers d) (jd_tlinks d) (jd_sockets d) (jd_fde d) (jd_next d) (jd_recv d) (jd_accept d) (jd_pairs d) (jd_sendmsg d) (jd_closed d) (jd_calls d).
Definition upd_trackers f d := mkJdwp (jd_procs d) (jd_links d) (f (jd_trackers d)) (jd_tlinks d) (jd_sockets d) (jd_fde d) (jd_next d) (jd_recv d) (jd_accept d) (jd_pairs d) (jd_sendmsg d) (jd_closed d) (jd_calls d).
Definition upd_tlinks f d := mkJdwp (jd_procs d) (jd_links d) (jd_trackers d) (f (jd_tlinks d)) (jd_sockets d) (jd_fde d) (jd_next d) (jd_recv d) (jd_accept d) (jd_pairs d) (jd_sendmsg d) (jd_closed d) (jd_calls d).
Definition upd_sockets f d := mkJdwp (jd_procs d) (jd_links d) (jd_trackers d) (jd_tlinks d) (f (jd_sockets d)) (jd_fde d) (jd_next d) (jd_recv d) (jd_accept d) (jd_pairs d) (jd_sendmsg d) (jd_closed d) (jd_calls d).
Definition upd_fde f d := mkJdwp (jd_procs d) (jd_links d) (jd_trackers d) (jd_tlinks d) (jd_sockets d) (f (jd_fde d)) (jd_next d) (jd_recv d) (jd_accept d) (jd_pairs d) (jd_sendmsg d) (jd_closed d) (jd_calls d).
Definition upd_next f d := mkJdwp (jd_procs d) (jd_links d) (jd_trackers d) (jd_tlinks d) (jd_sockets d) (jd_fde d) (f (jd_next d)) (jd_recv d) (jd_accept d) (jd_pairs d) (jd_sendmsg d) (jd_closed d) (jd_calls d).
Definition upd_recv f d := mkJdwp (jd_procs d) (jd_links d) (jd_trackers d) (jd_tlinks d) (jd_sockets d) (jd_fde d) (jd_next d) (f (jd_recv d)) (jd_accept d) (jd_pairs d) (jd_sendmsg d) (jd_closed d) (jd_calls d).
Definition upd_accept f d := mkJdwp (jd_procs d) (jd_links d) (jd_trackers d) (jd_tlinks d) (jd_sockets d) (jd_fde d) (jd_next d) (jd_recv d) (f (jd_accept d)) (jd_pairs d) (jd_sendmsg d) (jd_closed d) (jd_calls d).
Definition upd_pairs f d := mkJdwp (jd_procs d) (jd_links d) (jd_trackers d) (jd_tlinks d) (jd_sockets d) (jd_fde d) (jd_next d) (jd_recv d) (jd_accept d) (f (jd_pairs d)) (jd_sendmsg d) (jd_closed d) (jd_calls d).
Definition upd_sendmsg f d := mkJdwp (jd_procs d) (jd_links d) (jd_trackers d) (jd_tlinks d) (jd_sockets d) (jd_fde d) (jd_next d) (jd_recv d) (jd_accept d) (jd_pairs d) (f (jd_sendmsg d)) (jd_closed d) (jd_calls d).
Definition upd_closed f d := mkJdwp (jd_procs d) (jd_links d) (jd_trackers d) (jd_tlinks d) (jd_sockets d) (jd_fde d) (jd_next d) (jd_recv d) (jd_accept d) (jd_pairs d) (jd_sendmsg d) (f (jd_closed d)) (jd_calls d).
Definition upd_calls f d := mkJdwp (jd_procs d) (jd_links d) (jd_trackers d) (jd_tlinks d) (jd_sockets d) (jd_fde d) (jd_next d) (jd_recv d) (jd_accept d) (jd_pairs d) (jd_sendmsg d) (jd_closed d) (f (jd_calls d)).

(** ** Memory, events, descriptors *)

Definition J := M jdwp.

Definition j_alloc : J Z := d <- get ;; modify (upd_next (fun a => a + 1)) ;; ret (jd_next d).
Definition proc_at (a : Z) : J jproc := d <- get ;; deref (jd_procs d !! a).
Definition set_proc (a : Z) (p : jproc) : J unit := modify (upd_procs <[a := p]>).
Definition j_fde {A} (m : M (fdst jfunc) A) : J A :=
  fun d => match m (jd_fde d) with Ok (a, s) => Ok (a, upd_fde (fun _ => s) d) | Err e => Err e end.
Definition j_close (fd : Z) : J unit := modify (upd_closed (fun l => l ++ [fd])).
Definition call (c : jcall) : J unit := modify (upd_calls (fun l => l ++ [c])).

Definition recv (socket : Z) (len : nat) : J io_ret :=
  fun d => let '(r, i) := adb_read len (default (mkRd [] []) (jd_recv d !! socket)) in
           Ok (r, upd_recv <[socket := i]> d).

(** A socket that has never been read has nothing. *)
Definition recv_fuel (socket : Z) (d : jdwp) : nat :=
  let i := default (mkRd [] []) (jd_recv d !! socket) in S (length (rd_data i) + length (rd_script i)).

(** Assignments to the links of a ring, chosen by [upd]. *)
Definition set_next (links : jdwp -> gmap Z (Z * Z)) (upd : (gmap Z (Z * Z) -> gmap Z (Z * Z)) -> jdwp -> jdwp) (a v : Z) : J unit :=
  d <- get ;; _ <- deref (links d !! a) ;; modify (upd (put_next a v)).
Definition set_prev (links : jdwp -> gmap Z (Z * Z)) (upd : (gmap Z (Z * Z) -> gmap Z (Z * Z)) -> jdwp -> jdwp) (a v : Z) : J unit :=
  d <- get ;; _ <- deref (links d !! a) ;; modify (upd (put_prev a v)).
Definition get_next (links : jdwp -> gmap Z (Z * Z)) (a : Z) : J Z := d <- get ;; deref (nxt (links d) a).
Definition get_prev (links : jdwp -> gmap Z (Z * Z)) (a : Z) : J Z := d <- get ;; deref (prv (links d) a).

(** [x->prev->next = x->next; x->next->prev = x->prev]. *)
Definition unlink links upd (a : Z) : J unit :=
  p <- get_prev links a ;; n <- get_next links a ;; set_next links upd p n ;;
  n <- get_next links a ;; p <- get_prev links a ;; set_prev links upd n p.

(** The addresses from [a] to the head. *)
Fixpoint walk (fuel : nat) (links : jdwp -> gmap Z (Z * Z)) (a : Z) : J (list Z) :=
  if a =? 0 then ret []
  else match fuel with
       | O => fail EFuel
       | S f => n <- get_next links a ;; l <- walk f links n ;; ret (a :: l)
       end.

Definition members links : J (list Z) :=
  d <- get ;; n <- get_next links 0 ;; walk (size (links d)) links n.

(** ** The list of process numbers *)

(** The loop of [jdwp_process_list]; [room] is [end - p]. *)
Fixpoint pid_lines (room : Z) (procs : list jproc) : list Z :=
  match procs with
  | [] => []
  | p :: procs =>
      if j_pid p <? 0 then pid_lines room procs
      else
        let text := fmt_d (j_pid p) ++ [10] in
        let len := Z.of_nat (length text) in
        if room <=? len then [] else text ++ pid_lines (room - len) procs
  end.

Fixpoint procs_at (l : list Z) : J (list jproc) :=
  match l with
  | [] => ret []
  | a :: l => p <- proc_at a ;; ps <- procs_at l ;; ret (p :: ps)
  end.

(** The text before the terminating zero. *)
Definition jdwp_process_list (bufferlen : Z) : J (list Z) :=
  l <- members jd_links ;; ps <- procs_at l ;; ret (pid_lines bufferlen ps).

Definition jdwp_process_list_msg (bufferlen : Z) : J (list Z) :=
  text <- jdwp_process_list (bufferlen - 4) ;;
  ret (take 4 (snprintf 5 (hex4 (Z.of_nat (length text)))) ++ text).

(** ** Telling the trackers *)

Definition tracker_at (a : Z) : J jtracker := d <- get ;; deref (jd_trackers d !! a).

Fixpoint notify_all (l : list Z) (data : list Z) : J unit :=
  match l with
  | [] => ret tt
  | a :: l =>
      t <- tracker_at a ;;
      peer <- deref (jt_peer t) ;;
      call (Enqueue peer data) ;;
      notify_all l data
  end.

Definition jdwp_process_list_updated : J unit :=
  buffer <- jdwp_process_list_msg 1024 ;;
  l <- members jd_tlinks ;;
  notify_all l buffer.

(** ** Processes *)

Fixpoint close_all (l : list Z) : J unit :=
  match l with
  | [] => ret tt
  | fd :: l => j_close fd ;; close_all l
  end.

Definition jdwp_process_free (a : Z) : J unit :=
  unlink jd_links upd_links a ;;
  p <- proc_at a ;;
  when (0 <=? j_socket p) (j_close (j_socket p)) ;;
  j_fde (fdevent_destroy a) ;;
  close_all (j_out p) ;;
  modify (fun d => upd_procs (delete a) (upd_links (delete a) d)) ;;
  jdwp_process_list_updated.

Definition jdwp_process_alloc (socket : Z) : J Z :=
  a <- j_alloc ;;
  set_proc a (mkProc (-1) socket [] []) ;;
  modify (upd_links <[a := (a, a)]>) ;;
  j_fde (fdevent_create a socket jdwp_process_event_p a) ;;
  j_fde (e <- fde_at a ;; store_fde a (set_state (Z.lor (fde_state e) FDE_DONT_CLOSE) e)) ;;
  set_next jd_links upd_links a 0 ;;
  p <- get_prev jd_links 0 ;;
  set_prev jd_links upd_links a p ;;
  p <- get_prev jd_links a ;;
  set_next jd_links upd_links p a ;;
  n <- get_next jd_links a ;;
  set_prev jd_links upd_links n a ;;
  j_fde (fdevent_add a FDE_READ) ;;
  ret a.

(** [sscanf(temp, "%04x", &pid)] on at most four characters: [None] when there is
    no number. *)
Fixpoint hex_number (s : list Z) (acc : option Z) : option Z :=
  match s with
  | [] => acc
  | c :: s => match hexval c with Some v => hex_number s (Some (16 * default 0 acc + v)) | None => acc end
  end.

Definition sscanf_x (temp : list Z) : option Z :=
  let s := take 4 (skip_space (cstr temp)) in
  let '(sign, s) := match s with
                    | c :: s' => if c =? 45 then (-1, s') else if c =? 43 then (1, s') else (1, s)
                    | [] => (1, [])
                    end in
  let v := match s with
           | z :: x :: s' =>
               if (z =? 48) && ((x =? 120) || (x =? 88)) then Some (default 0 (hex_number s' None)) else hex_number s None
           | _ => hex_number s None
           end in
  (fun v => s32 (sign * v)) <$> v.

(** The loop that reads the number: [None] when it would block, [Some false] when
    the connection is to be closed, [Some true] when the four bytes are there. *)
Fixpoint read_pid (fuel : nat) (socket a : Z) : J (option bool) :=
  p <- proc_at a ;;
  if (4 <=? length (j_in p))%nat then ret (Some true)
  else match fuel with
       | O => fail EFuel
       | S f =>
           r <- recv socket (4 - length (j_in p)) ;;
           match r with
           | Failed e =>
               if decide (e = EINTR) then read_pid f socket a
               else if decide (e = EAGAIN) then ret None
               else ret (Some false)
           | Got [] => ret (Some false)
           | Got l => set_proc a (mkProc (j_pid p) (j_socket p) (j_in p ++ l) (j_out p)) ;; read_pid f socket a
           end
       end.

(** The loop that waits for the end of the connection: [false] when it would
    block. *)
Fixpoint read_end (fuel : nat) (socket : Z) : J bool :=
  match fuel with
  | O => fail EFuel
  | S f =>
      r <- recv socket 32 ;;
      match r with
      | Failed e =>
          if decide (e = EINTR) then read_end f socket
          else if decide (e = EAGAIN) then ret false
          else ret true
      | Got [] => ret true
      | Got _ => read_end f socket
      end
  end.

(** What the first part of [jdwp_process_event] leaves to do. *)
Inductive read_result := Return | CloseProcess | GoOn.

Definition process_readable (socket a : Z) : J read_result :=
  p <- proc_at a ;;
  d <- get ;;
  if j_pid p <? 0 then
    r <- read_pid (recv_fuel socket d) socket a ;;
    match r with
    | None => ret Return
    | Some false => ret CloseProcess
    | Some true =>
        p <- proc_at a ;;
        match sscanf_x (j_in p) with
        | None => ret CloseProcess
        | Some pid =>
            set_proc a (mkProc pid (j_socket p) (j_in p) (j_out p)) ;;
            jdwp_process_list_updated ;;
            ret GoOn
        end
    end
  else
    ended <- read_end (recv_fuel socket d) socket ;;
    ret (if ended : bool then CloseProcess else Return).

(** [sendmsg] with a descriptor, repeated when it is interrupted; no answer left is
    success. *)
Fixpoint send_fd (answers : list (option errno)) (socket fd : Z) : J bool :=
  match answers with
  | [] => modify (upd_sendmsg (fun _ => [])) ;; call (PassFd socket fd) ;; ret true
  | None :: l => modify (upd_sendmsg (fun _ => l)) ;; call (PassFd socket fd) ;; ret true
  | Some e :: l => if decide (e = EINTR) then send_fd l socket fd else modify (upd_sendmsg (fun _ => l)) ;; ret false
  end.

(** [true] when the process is to be closed. *)
Definition process_writable (a : Z) : J bool :=
  p <- proc_at a ;;
  match j_out p with
  | [] => ret false
  | fd :: rest =>
      d <- get ;;
      ok <- send_fd (jd_sendmsg d) (j_socket p) fd ;;
      if negb ok then ret true
      else
        set_proc a (mkProc (j_pid p) (j_socket p) (j_in p) rest) ;;
        when (bool_decide (rest = [])) (j_fde (fdevent_del a FDE_WRITE)) ;;
        ret false
  end.

Definition jdwp_process_event (socket events a : Z) : J unit :=
  r <- (if hasbit events FDE_READ then process_readable socket a else ret GoOn) ;;
  match r with
  | Return => ret tt
  | CloseProcess => jdwp_process_free a
  | GoOn =>
      if hasbit events FDE_WRITE then
        close <- process_writable a ;;
        if close : bool then jdwp_process_free a else ret tt
      else ret tt
  end.

(** ** Connections for debuggers *)

Fixpoint find_pid (l : list Z) (pid : Z) : J (option Z) :=
  match l with
  | [] => ret None
  | a :: l => p <- proc_at a ;; if j_pid p =? pid then ret (Some a) else find_pid l pid
  end.

Definition adb_socketpair : J (option (Z * Z)) :=
  d <- get ;;
  match jd_pairs d with
  | [] => ret None
  | r :: l => modify (upd_pairs (fun _ => l)) ;; ret r
  end.

Definition create_jdwp_connection_fd (pid : Z) : J Z :=
  l <- members jd_links ;;
  found <- find_pid l pid ;;
  match found with
  | None => ret (-1)
  | Some a =>
      p <- proc_at a ;;
      if (MAX_OUT_FDS <=? length (j_out p))%nat then ret (-1)
      else
        fds <- adb_socketpair ;;
        match fds with
        | None => ret (-1)
        | Some (fd0, fd1) =>
            set_proc a (mkProc (j_pid p) (j_socket p) (j_in p) (j_out p ++ [fd1])) ;;
            when (length (j_out p) =? 0)%nat (j_fde (fdevent_add a FDE_WRITE)) ;;
            ret fd0
        end
  end.

(** ** The control socket *)

Fixpoint accept_loop (answers : list (errno + Z)) : J unit :=
  match answers with
  | [] => ret tt
  | inl e :: l =>
      modify (upd_accept (fun _ => l)) ;;
      if decide (e = EINTR) then accept_loop l else ret tt
  | inr s :: l => modify (upd_accept (fun _ => l)) ;; _ <- jdwp_process_alloc s ;; ret tt
  end.

Definition jdwp_control_event (events : Z) : J unit :=
  if hasbit events FDE_READ then d <- get ;; accept_loop (jd_accept d) else ret tt.

(** ** The services *)

Definition create_jdwp_service_socket : J Z :=
  a <- j_alloc ;; modify (upd_sockets <[a := mkJsocket None false]>) ;; ret a.

Definition jsocket_at (a : Z) : J jsocket := d <- get ;; deref (jd_sockets d !! a).

Definition jdwp_socket_ready (a : Z) : J unit :=
  s <- jsocket_at a ;;
  peer <- deref (js_peer s) ;;
  if js_pass s then call (ClosePeer peer)
  else
    text <- jdwp_process_list MAX_PAYLOAD ;;
    call (Enqueue peer text) ;;
    modify (upd_sockets <[a := mkJsocket (js_peer s) true]>).

Definition jdwp_socket_enqueue (a : Z) : J Z :=
  s <- jsocket_at a ;; peer <- deref (js_peer s) ;; call (ClosePeer peer) ;; ret (-1).

Definition jdwp_socket_close (a : Z) : J unit :=
  s <- jsocket_at a ;;
  call (RemoveSocket a) ;;
  match js_peer s with Some peer => call (ClosePeer peer) | None => ret tt end ;;
  modify (upd_sockets (delete a)).

Definition create_jdwp_tracker_service_socket : J Z :=
  a <- j_alloc ;;
  modify (upd_trackers <[a := mkTracker None true]>) ;;
  modify (upd_tlinks <[a := (0, 0)]>) ;;
  set_next jd_tlinks upd_tlinks a 0 ;;
  p <- get_prev jd_tlinks 0 ;;
  set_prev jd_tlinks upd_tlinks a p ;;
  n <- get_next jd_tlinks a ;;
  set_prev jd_tlinks upd_tlinks n a ;;
  p <- get_prev jd_tlinks a ;;
  set_next jd_tlinks upd_tlinks p a ;;
  ret a.

Definition jdwp_tracker_ready (a : Z) : J unit :=
  t <- tracker_at a ;;
  if jt_need_update t then
    modify (upd_trackers <[a := mkTracker (jt_peer t) false]>) ;;
    msg <- jdwp_process_list_msg MAX_PAYLOAD ;;
    peer <- deref (jt_peer t) ;;
    call (Enqueue peer msg)
  else ret tt.

Definition jdwp_tracker_enqueue (a : Z) : J Z :=
  t <- tracker_at a ;; peer <- deref (jt_peer t) ;; call (ClosePeer peer) ;; ret (-1).

Definition jdwp_tracker_close (a : Z) : J unit :=
  t <- tracker_at a ;;
  match jt_peer t with Some peer => call (ClosePeer peer) | None => ret tt end ;;
  call (RemoveSocket a) ;;
  unlink jd_tlinks upd_tlinks a ;;
  modify (fun d => upd_trackers (delete a) (upd_tlinks (delete a) d)).

(** The caller connects the new socket with the one that asked for it. *)
Definition connect_tracker (a peer : Z) : J unit :=
  t <- tracker_at a ;; modify (upd_trackers <[a := mkTracker (Some peer) (jt_need_update t)]>).

Definition connect_listing (a peer : Z) : J unit :=
  s <- jsocket_at a ;; modify (upd_sockets <[a := mkJsocket (Some peer) (js_pass s)]>).

(** ** Startup *)

Definition JDWP_CONTROL_NAME : list Z := 0 :: bs "jdwp-control".
Definition SUN_PATH : nat := 108.

(** [s], [bound] and [listening] are the answers of [socket], [bind] and [listen];
    the event is at [ctl]. *)
Definition jdwp_control_init (sockname : list Z) (s : option Z) (bound listening : bool) (ctl : Z) : J Z :=
  if (SUN_PATH <=? length sockname)%nat then ret (-1)
  else match s with
       | None => ret (-1)
       | Some s =>
           if negb bound then j_close s ;; ret (-1)
           else if negb listening then j_close s ;; ret (-1)
           else
             j_fde (fdevent_create ctl s jdwp_control_event_p ctl) ;;
             j_fde (fdevent_add ctl FDE_READ) ;;
             ret 0
       end.

Definition init_jdwp (s : option Z) (bound listening : bool) (ctl : Z) : J Z :=
  modify (upd_links <[0 := (0, 0)]>) ;;
  modify (upd_tlinks <[0 := (0, 0)]>) ;;
  jdwp_control_init JDWP_CONTROL_NAME s bound listening ctl.
