(* ===== verification/JdwpFacts.v ===== *)
(** * The lists of debuggable processes

    The invariant of jdwp_service.c: the two rings, the tables they stand for and the
    events of the processes agree, and what the trackers were last told is the
    present list.  New processes and the ends of processes keep it. *)

From S2P Require Import Prelude Ring Io Wire FdEvent EventMap Jdwp.

(** ** Events of processes *)

(** The event at [a] is live for [fd], was made by [fdevent_create], and leaves the
    descriptor open. *)
Definition owns (s : fdst jfunc) (a fd : Z) : Prop :=
  exists e, fdes s !! a = Some e /\ active e /\ fde_fd e = fd /\
    Z.testbit (fde_state e) 10 = true /\ Z.testbit (fde_state e) 7 = true.

Lemma owns_fdmap s a fd : owns s a fd -> fdmap s !! a = Some fd.
Proof. intros (e & He & Ae & Hfd & _). apply fdmap_some. eauto. Qed.

Lemma set_result_bits ev (e : fdevent jfunc) :
  Z.testbit (fde_state (set_result ev e)) 10 = Z.testbit (fde_state e) 10 /\
  Z.testbit (fde_state (set_result ev e)) 7 = Z.testbit ev 7.
Proof.
  unfold set_result. destruct (wanted e =? Z.land ev FDE_EVENTMASK) eqn:Ew; bools.
  { split; [done|]. rewrite <- (eventmask_low ev 7) by lia. rewrite <- Ew. unfold wanted. by rewrite eventmask_low by lia. }
  assert (Z.testbit (new_state (fde_state e) ev) 10 = Z.testbit (fde_state e) 10) as H10 by (apply new_state_high; lia).
  assert (Z.testbit (new_state (fde_state e) ev) 7 = Z.testbit ev 7) as H7 by (apply new_state_low; lia).
  destruct (hasbit (fde_state e) FDE_PENDING); [|done]. cbn [fde_state]. case_match; [|done].
  split; rewrite u16_testbit, Z.land_spec by lia; [rewrite H10|rewrite H7]; by rewrite andb_true_r.
Qed.

(** What a call leaves of the other events. *)
Definition others (a : Z) (s s' : fdst jfunc) : Prop := forall b, b <> a -> fdes s' !! b = fdes s !! b.

Lemma owns_else s s' a b fd : others a s s' -> b <> a -> owns s b fd -> owns s' b fd.
Proof. intros Ho Hb (e & He & H). exists e. by rewrite Ho. Qed.

Lemma owned_set s a fd ev :
  fd_inv s -> owns s a fd -> Z.testbit ev 7 = true ->
  exists s', fdevent_set a ev s = Ok (tt, s') /\ fd_inv s' /\ owns s' a fd /\ others a s s' /\ closed s' = closed s /\ fdmap s' = fdmap s.
Proof.
  intros Hi (e & He & Ae & Hfd & H10 & H7) Hev. destruct (fdevent_set_ok s a e ev Hi He Ae) as (s' & Hr & Hi' & Hf & _ & Hc).
  exists s'. destruct (set_result_bits ev e) as [B1 B2]. split_and!; [done|done| | |done|].
  - exists (set_result ev e). rewrite Hf, lookup_insert_eq, B1, B2. split_and!; [done| |by rewrite set_result_fd|done|done].
    unfold active. by rewrite set_result_active.
  - intros b Hb. by rewrite Hf, lookup_insert_ne.
  - rewrite (fdmap_insert _ _ _ _ Hf), set_result_live, Hfd by done. apply insert_id, fdmap_some. eauto.
Qed.

Lemma owned_add s a fd ev :
  fd_inv s -> owns s a fd ->
  exists s', fdevent_add a ev s = Ok (tt, s') /\ fd_inv s' /\ owns s' a fd /\ others a s s' /\ closed s' = closed s /\ fdmap s' = fdmap s.
Proof.
  intros Hi Ho. pose proof Ho as (e & He & Ae & Hfd & H10 & H7). unfold fdevent_add.
  rewrite (bind_ok _ _ _ _ _ (fde_at_ok _ _ _ He)). apply owned_set; [done..|].
  rewrite Z.lor_spec, eventmask_low, H7 by lia. done.
Qed.

Lemma owned_del s a fd :
  fd_inv s -> owns s a fd ->
  exists s', fdevent_del a FDE_WRITE s = Ok (tt, s') /\ fd_inv s' /\ owns s' a fd /\ others a s s' /\ closed s' = closed s /\ fdmap s' = fdmap s.
Proof.
  intros Hi Ho. pose proof Ho as (e & He & Ae & Hfd & H10 & H7). unfold fdevent_del.
  rewrite (bind_ok _ _ _ _ _ (fde_at_ok _ _ _ He)). apply owned_set; [done..|].
  rewrite Z.land_spec, eventmask_low, H7 by lia. done.
Qed.

Lemma owned_destroy s a fd :
  fd_inv s -> owns s a fd ->
  exists s', fdevent_destroy a s = Ok (tt, s') /\ fd_inv s' /\ others a s s' /\ closed s' = closed s /\ fdmap s' = delete a (fdmap s).
Proof.
  intros Hi (e & He & Ae & Hfd & H10 & H7). destruct (fdevent_remove_ok s a e Hi He Ae) as (s' & Hr & Hi' & Hf & _ & _ & Hc).
  exists s'. split_and!; [|done| | |].
  - unfold fdevent_destroy. rewrite (bind_ok _ _ _ _ _ (fde_at_ok _ _ _ He)).
    change FDE_CREATED with (2 ^ 10). rewrite hasbit_testbit, H10 by lia. done.
  - intros b Hb. by rewrite Hf, lookup_insert_ne.
  - rewrite Hc. change FDE_DONT_CLOSE with (2 ^ 7). rewrite hasbit_testbit, H7 by lia. apply app_nil_r.
  - by rewrite (fdmap_insert _ _ _ _ Hf).
Qed.

(** Creation, and the bit that keeps the descriptor open. *)
Definition created_fde (fd : Z) (func : jfunc) (arg : Z) : fdevent jfunc :=
  set_state (Z.lor FDE_ACTIVE FDE_CREATED) (fresh_fde fd func arg).

Lemma create_run s a fd func arg :
  fd_inv s -> fdes s !! a = None -> 0 <= fd < FD_SETSIZE -> (forall b, fdmap s !! b <> Some fd) ->
  exists s', fdevent_create a fd func arg s = Ok (tt, s') /\ fd_inv s' /\
    fdes s' = <[a := created_fde fd func arg]> (fdes s) /\ closed s' = closed s.
Proof.
  intros Hi Ha Hfd Hfree.
  destruct (fdevent_install_ok s a fd func arg Hi) as (s1 & Hr & Hi1 & Hf & Hl & Hc); [by intros e; rewrite Ha|done| |].
  { rewrite registered_fdmap by done. intros [b Hb]. by apply (Hfree b). }
  assert (fdes s1 !! a = Some (fresh_fde fd func arg)) as Ha1 by (rewrite Hf; apply lookup_insert_eq).
  exists (set_fdes <[a := created_fde fd func arg]> s1). split_and!; [| | |done].
  - unfold fdevent_create. rewrite (bind_ok _ _ _ _ _ Hr). by rewrite (bind_ok _ _ _ _ _ (fde_at_ok _ _ _ Ha1)).
  - destruct (inv_fde _ Hi1 _ _ Ha1) as [H1 H2 H3 H4 H5].
    eapply (fd_inv_update s1 _ a (fresh_fde fd func arg)); try done; apply (inv_nodup _ Hi1).
  - unfold set_fdes. cbn. by rewrite Hf, insert_insert_eq.
Qed.

Lemma create_owned s a fd func arg :
  fd_inv s -> fdes s !! a = None -> 0 <= fd < FD_SETSIZE -> (forall b, fdmap s !! b <> Some fd) ->
  exists s1 s', fdevent_create a fd func arg s = Ok (tt, s1) /\
    (e <- fde_at a ;; store_fde a (set_state (Z.lor (fde_state e) FDE_DONT_CLOSE) e)) s1 = Ok (tt, s') /\
    fd_inv s' /\ owns s' a fd /\ others a s s' /\ closed s' = closed s /\ fdmap s' = <[a := fd]> (fdmap s).
Proof.
  intros Hi Ha Hfd Hfree. destruct (create_run s a fd func arg Hi Ha Hfd Hfree) as (s2 & Hr & Hi2 & Hf2 & Hc).
  set (e1 := created_fde fd func arg) in *. set (e2 := set_state (Z.lor (fde_state e1) FDE_DONT_CLOSE) e1). set (s3 := set_fdes <[a := e2]> s2).
  assert (fdes s2 !! a = Some e1) as Ha2 by (rewrite Hf2; apply lookup_insert_eq).
  assert (fd_inv s3) as Hi3.
  { destruct (inv_fde _ Hi2 _ _ Ha2) as [H1 H2 H3 H4 H5].
    eapply (fd_inv_update s2 s3 a e1); try done; apply (inv_nodup _ Hi2). }
  assert (fdes s3 = <[a := e2]> (fdes s)) as Hf3 by (unfold s3, set_fdes; cbn; by rewrite Hf2, insert_insert_eq).
  exists s2, s3. split_and!; [done|by rewrite (bind_ok _ _ _ _ _ (fde_at_ok _ _ _ Ha2))|done| | |done|by rewrite (fdmap_insert _ _ _ _ Hf3)].
  - exists e2. split_and!; try done. rewrite Hf3. apply lookup_insert_eq.
  - intros b Hb. by rewrite Hf3, lookup_insert_ne.
Qed.

(** ** The invariant *)

Record jd_ok (ps ts : list Z) (d : jdwp) : Prop := JdOk {
  ok_ring : ring (jd_links d) 0 ps;
  ok_procs : forall a, a ∈ ps <-> is_Some (jd_procs d !! a);
  ok_proc : forall a p, jd_procs d !! a = Some p ->
    owns (jd_fde d) a (j_socket p) /\ (length (j_in p) <= 4)%nat /\ (length (j_out p) <= MAX_OUT_FDS)%nat;
  ok_tring : ring (jd_tlinks d) 0 ts;
  ok_trackers : forall a, a ∈ ts <-> is_Some (jd_trackers d !! a);
  ok_peers : forall a t, jd_trackers d !! a = Some t -> is_Some (jt_peer t);
  ok_events : fd_inv (jd_fde d);
  ok_open : closed (jd_fde d) = [];
  ok_next : 0 < jd_next d;
  ok_fresh : forall a, jd_next d <= a -> jd_procs d !! a = None /\ jd_trackers d !! a = None /\ fdes (jd_fde d) !! a = None;
}.

(** ** Reading the rings *)

Lemma walk_ok (links : jdwp -> gmap Z (Z * Z)) l : forall fuel a d,
  seg (links d) a l 0 -> 0 ∉ l -> (length l <= fuel)%nat -> walk fuel links (default 0 (head l)) d = Ok (l, d).
Proof.
  induction l as [|x l IH]; intros fuel a d Hs H0 Hf; [by destruct fuel|]. destruct Hs as (_ & _ & Hs).
  destruct fuel as [|fuel]; [cbn in Hf; lia|]. change (default 0 (head (x :: l))) with x. cbn [walk]. destruct (x =? 0) eqn:E; bools; [set_solver|].
  assert (get_next links x d = Ok (default 0 (head l), d)) as En.
  { unfold get_next, bind, get. destruct l; destruct Hs as [Hn _]; by rewrite Hn. }
  rewrite (bind_ok _ _ _ _ _ En). erewrite bind_ok; [done|]. apply (IH fuel x); [done|set_solver|cbn in Hf; lia].
Qed.

Lemma members_ok links l d : ring (links d) 0 l -> members links d = Ok (l, d).
Proof.
  intros Hr. pose proof (ring_size _ _ _ Hr) as Hc. destruct Hr as [Hnd Hs]. unfold members. cbn [bind get].
  assert (get_next links 0 d = Ok (default 0 (head l), d)) as En.
  { unfold get_next, bind, get. destruct l; destruct Hs as [Hn _]; by rewrite Hn. }
  rewrite (bind_ok _ _ _ _ _ En). apply (walk_ok links l _ 0); [done|by apply list.NoDup_cons in Hnd as [? _]|done].
Qed.

(** The processes in the order of their list. *)
Definition listed (ps : list Z) (d : jdwp) : list jproc := omap (fun a => jd_procs d !! a) ps.

Lemma procs_at_ok ps d : (forall a, a ∈ ps -> is_Some (jd_procs d !! a)) -> procs_at ps d = Ok (listed ps d, d).
Proof.
  unfold listed. induction ps as [|a ps IH]; intros H; [done|]. cbn. destruct (H a ltac:(set_solver)) as [p Hp].
  unfold bind at 1, proc_at. cbn. rewrite Hp. cbn. unfold bind. rewrite IH by set_solver. done.
Qed.

Definition message (room : Z) (ps : list Z) (d : jdwp) : list Z :=
  let text := pid_lines room (listed ps d) in take 4 (snprintf 5 (hex4 (Z.of_nat (length text)))) ++ text.

Lemma process_list_ok ps ts d room : jd_ok ps ts d -> jdwp_process_list room d = Ok (pid_lines room (listed ps d), d).
Proof.
  intros H. unfold jdwp_process_list. rewrite (bind_ok _ _ _ _ _ (members_ok _ _ _ (ok_ring _ _ _ H))).
  rewrite (bind_ok _ _ _ _ _ (procs_at_ok ps d ltac:(intros a; by apply (ok_procs _ _ _ H)))). done.
Qed.

Lemma process_list_msg_ok ps ts d len : jd_ok ps ts d -> jdwp_process_list_msg len d = Ok (message (len - 4) ps d, d).
Proof. intros H. unfold jdwp_process_list_msg. by rewrite (bind_ok _ _ _ _ _ (process_list_ok _ _ _ _ H)). Qed.

(** ** Telling the trackers *)

(** The messages a socket was given. *)
Definition enqueued (peer : Z) (cs : list jcall) : list (list Z) :=
  omap (fun c => match c with Enqueue p x => if p =? peer then Some x else None | _ => None end) cs.

Lemma enqueued_app peer a b : enqueued peer (a ++ b) = enqueued peer a ++ enqueued peer b.
Proof. apply omap_app. Qed.

(** What is true of a tracker: what it was last told is the present list; after
    its first answer it was told something. *)
Definition current (ps : list Z) (d : jdwp) (m : list Z) : Prop := m = message 1020 ps d \/ m = message 4092 ps d.

Definition tracks (ps : list Z) (d : jdwp) (t : jtracker) : Prop :=
  forall peer, jt_peer t = Some peer ->
    (jt_need_update t = false -> enqueued peer (jd_calls d) <> []) /\
    (forall m, list.last (enqueued peer (jd_calls d)) = Some m -> current ps d m).

Definition informed (ps : list Z) (d : jdwp) : Prop := forall a t, jd_trackers d !! a = Some t -> tracks ps d t.

Lemma notify_all_ok ts data : forall d,
  (forall a, a ∈ ts -> exists t peer, jd_trackers d !! a = Some t /\ jt_peer t = Some peer) ->
  exists cs, notify_all ts data d = Ok (tt, upd_calls (fun l => l ++ cs) d) /\
    (forall peer, Forall (eq data) (enqueued peer cs)) /\
    (forall a t peer, a ∈ ts -> jd_trackers d !! a = Some t -> jt_peer t = Some peer -> enqueued peer cs <> []).
Proof.
  induction ts as [|a ts IH]; intros d H.
  { exists []. split_and!; [unfold upd_calls; cbn; rewrite app_nil_r; by destruct d|by constructor|set_solver]. }
  destruct (H a ltac:(set_solver)) as (t & peer & Ht & Hp).
  destruct (IH (upd_calls (fun l => l ++ [Enqueue peer data]) d)) as (cs & E & H1 & H2).
  { intros b Hb. apply H. set_solver. }
  exists (Enqueue peer data :: cs). split_and!.
  - cbn [notify_all]. unfold bind at 1, tracker_at. cbn. rewrite Ht. cbn. rewrite Hp. cbn. unfold bind, call, modify. rewrite E.
    unfold upd_calls. cbn. by rewrite <- app_assoc.
  - intros q. cbn. destruct (peer =? q); [constructor; [done|apply H1]|apply H1].
  - intros b t' q [->|Hb]%elem_of_cons Ht' Hq; cbn.
    + assert (q = peer) as -> by congruence. by rewrite Z.eqb_refl.
    + destruct (peer =? q); [done|]. by apply (H2 b t').
Qed.

(** The structures do not depend on the calls made. *)
Lemma jd_ok_calls ps ts f d : jd_ok ps ts d -> jd_ok ps ts (upd_calls f d).
Proof. intros [????? ?????]. by split. Qed.

(** After an update every tracker has the present list. *)
Lemma list_updated_ok ps ts d :
  jd_ok ps ts d ->
  exists d', jdwp_process_list_updated d = Ok (tt, d') /\ jd_ok ps ts d' /\ informed ps d' /\
    exists cs, d' = upd_calls (fun l => l ++ cs) d.
Proof.
  intros H. unfold jdwp_process_list_updated. rewrite (bind_ok _ _ _ _ _ (process_list_msg_ok _ _ _ 1024 H)).
  rewrite (bind_ok _ _ _ _ _ (members_ok _ _ _ (ok_tring _ _ _ H))). change (1024 - 4) with 1020.
  destruct (notify_all_ok ts (message 1020 ps d) d) as (cs & E & H1 & H2).
  { intros a Ha. apply (ok_trackers _ _ _ H) in Ha as [t Ht]. destruct (ok_peers _ _ _ H _ _ Ht) as [p Hp]. eauto. }
  eexists. split; [exact E|]. split_and!; [by apply jd_ok_calls| |by eexists].
  intros a t Ht peer Hp. cbn in Ht. assert (a ∈ ts) as Ha by (apply (ok_trackers _ _ _ H); eauto).
  pose proof (H2 _ _ _ Ha Ht Hp) as Hne. cbn [jd_calls upd_calls]. rewrite enqueued_app. split.
  - intros _ [? ?]%app_eq_nil. done.
  - intros m Hm. left. rewrite last_app in Hm. destruct (list.last (enqueued peer cs)) as [x|] eqn:El; [|by apply last_None in El].
    injection Hm as <-. apply last_Some_elem_of in El. pose proof (H1 peer) as HF. rewrite list.Forall_forall in HF. symmetry. by apply HF.
Qed.

(** ** Changing the rings *)

Section Links.
Context (links : jdwp -> gmap Z (Z * Z)) (upd : (gmap Z (Z * Z) -> gmap Z (Z * Z)) -> jdwp -> jdwp).
Context (law : forall f d, links (upd f d) = f (links d)).

Lemma get_next_ok d a v : nxt (links d) a = Some v -> get_next links a d = Ok (v, d).
Proof using Type. unfold get_next, bind, get, deref. by intros ->. Qed.

Lemma get_prev_ok d a v : prv (links d) a = Some v -> get_prev links a d = Ok (v, d).
Proof using Type. unfold get_prev, bind, get, deref. by intros ->. Qed.

Lemma link_next_ok d a v : is_Some (links d !! a) -> set_next links upd a v d = Ok (tt, upd (put_next a v) d).
Proof using Type. unfold set_next, bind, get, deref. by intros [? ->]. Qed.

Lemma link_prev_ok d a v : is_Some (links d !! a) -> set_prev links upd a v d = Ok (tt, upd (put_prev a v) d).
Proof using Type. unfold set_prev, bind, get, deref. by intros [? ->]. Qed.

Lemma unlink_ok d l1 a l2 :
  ring (links d) 0 (l1 ++ a :: l2) ->
  exists n p, unlink links upd a d = Ok (tt, upd (put_prev n p) (upd (put_next p n) d)) /\
    ring (delete a (put_prev n p (put_next p n (links d)))) 0 (l1 ++ l2).
Proof using Type*.
  intros R. destruct (ring_member _ _ _ _ _ R) as (n & p & Hn & Hp & Hna & Hpa & Sn & Sp).
  exists n, p. split.
  - unfold unlink. erewrite bind_ok by (by apply get_prev_ok). erewrite bind_ok by (by apply get_next_ok).
    erewrite bind_ok by (by apply link_next_ok).
    erewrite bind_ok by (apply get_next_ok; rewrite law, nxt_put_next by done; by rewrite decide_False).
    erewrite bind_ok by (apply get_prev_ok; rewrite law; by rewrite prv_put_next).
    apply link_prev_ok. rewrite law. by apply put_next_some.
  - rewrite put_comm by done. destruct (ring_unlinked _ _ _ _ _ _ _ R Hn Hp) as [R1 R2]. split; [done|].
    apply seg_delete_else; [|done]. destruct R as [RN _]. rewrite list.NoDup_cons in RN. destruct RN as [H0 RN].
    apply list.NoDup_app in RN as (_ & N1 & N2). apply list.NoDup_cons in N2 as [N2 _]. set_solver.
Qed.

End Links.

(** ** A new process *)

Lemma j_fde_ok {A} (m : M (fdst jfunc) A) d a s : m (jd_fde d) = Ok (a, s) -> j_fde m d = Ok (a, upd_fde (fun _ => s) d).
Proof. unfold j_fde. by intros ->. Qed.

(** What may be a new descriptor. *)
Definition free_fd (d : jdwp) (fd : Z) : Prop := 0 <= fd < FD_SETSIZE /\ forall b, fdmap (jd_fde d) !! b <> Some fd.

Lemma alloc_run ps ts d socket :
  jd_ok ps ts d -> free_fd d socket ->
  exists s' k p, jdwp_process_alloc socket d =
      Ok (jd_next d, upd_fde (fun _ => s') (upd_links (fun _ => k) (upd_procs <[jd_next d := mkProc (-1) socket [] []]> (upd_next (fun a => a + 1) d)))) /\
    k = inserted (jd_next d) p 0 (<[jd_next d := (jd_next d, jd_next d)]> (jd_links d)) /\ ring k 0 (ps ++ [jd_next d]) /\
    fd_inv s' /\ owns s' (jd_next d) socket /\ others (jd_next d) (jd_fde d) s' /\ closed s' = [] /\
    fdmap s' = <[jd_next d := socket]> (fdmap (jd_fde d)).
Proof.
  intros H [Hfd Hfree]. set (a := jd_next d). destruct (ok_fresh _ _ _ H a ltac:(lia)) as (Fp & _ & Fe).
  destruct (create_owned _ a socket jdwp_process_event_p a (ok_events _ _ _ H) Fe Hfd Hfree) as (s1 & s2 & E1 & E2 & I2 & O2 & Ot2 & C2 & M2).
  destruct (owned_add s2 a socket FDE_READ I2 O2) as (s3 & E3 & I3 & O3 & Ot3 & C3 & M3).
  assert (a ∉ 0 :: ps) as Ha.
  { pose proof (ok_next _ _ _ H). intros [?|Hin]%elem_of_cons; [lia|]. apply (ok_procs _ _ _ H) in Hin as [? ?]. congruence. }
  set (k0 := <[a := (a, a)]> (jd_links d)). assert (is_Some (k0 !! a)) as Sa by (unfold k0; rewrite lookup_insert_eq; eauto).
  assert (ring k0 0 ps) as R0 by (apply ring_insert_else; [done|apply H]).
  destruct (ring_append k0 0 ps a R0 Ha Sa) as (p & P1 & Pa & Sp & R1).
  assert (is_Some (k0 !! 0)) as S0 by (by eapply prv_some).
  exists s3, (inserted a p 0 k0), p. split_and!; [|done|done|done|done| |by rewrite C3, C2; apply H|by rewrite M3].
  2: { intros b Hb. rewrite Ot3, Ot2 by done. done. }
  unfold jdwp_process_alloc. cbn [j_alloc bind get modify ret set_proc]. fold a.
  erewrite bind_ok by (apply j_fde_ok; exact E1). erewrite bind_ok by (apply j_fde_ok; exact E2).
  erewrite bind_ok by (apply link_next_ok; exact Sa).
  erewrite bind_ok by (apply get_prev_ok; cbn; rewrite prv_put_next by done; exact P1).
  erewrite bind_ok by (apply link_prev_ok; (cbn; by apply put_next_some)).
  erewrite bind_ok by (apply get_prev_ok; cbn; rewrite prv_put_prev by (by apply put_next_some); by rewrite decide_True).
  erewrite bind_ok by (apply link_next_ok; (cbn; by repeat (apply put_prev_some || apply put_next_some))).
  erewrite bind_ok by (apply get_next_ok; cbn; rewrite nxt_put_next by (by repeat (apply put_prev_some || apply put_next_some));
    rewrite decide_False by done; rewrite nxt_put_prev by (by apply put_next_some); rewrite nxt_put_next by done; by rewrite decide_True).
  erewrite bind_ok by (apply link_prev_ok; (cbn; by repeat (apply put_prev_some || apply put_next_some))).
  erewrite bind_ok by (apply j_fde_ok; cbn; exact E3). unfold inserted.
  rewrite <- put_comm by (by repeat (apply put_prev_some || apply put_next_some)). reflexivity.
Qed.

(** A process that has not sent its number is not in the list. *)
Lemma pid_lines_app room ps p : j_pid p < 0 -> pid_lines room (ps ++ [p]) = pid_lines room ps.
Proof.
  intros Hp. revert room. induction ps as [|q ps IH]; intros room; cbn [app pid_lines].
  - by rewrite (proj2 (Z.ltb_lt _ _)).
  - destruct (j_pid q <? 0); [apply IH|]. case_match; [done|]. by rewrite IH.
Qed.

Lemma listed_insert_else (ps : list Z) (m : gmap Z jproc) a p : a ∉ ps -> omap (fun b => <[a := p]> m !! b) ps = omap (fun b => m !! b) ps.
Proof.
  intros Ha. induction ps as [|b ps IH]; [done|]. cbn. rewrite lookup_insert_ne by set_solver. rewrite IH by set_solver. done.
Qed.

(** What the trackers were told stays right when the list does not change. *)
Lemma informed_same ps ps' d d' :
  informed ps d -> jd_trackers d' = jd_trackers d -> jd_calls d' = jd_calls d ->
  (forall room, pid_lines room (listed ps' d') = pid_lines room (listed ps d)) -> informed ps' d'.
Proof.
  intros H Ht Hc Hl a t Ha peer Hp. rewrite Ht in Ha. destruct (H a t Ha peer Hp) as [H1 H2]. rewrite Hc. split; [done|].
  intros m Hm. destruct (H2 m Hm) as [->| ->]; [left|right]; unfold message; by rewrite Hl.
Qed.

Lemma alloc_ok ps ts d socket :
  jd_ok ps ts d -> informed ps d -> free_fd d socket ->
  exists a d', jdwp_process_alloc socket d = Ok (a, d') /\ jd_ok (ps ++ [a]) ts d' /\ informed (ps ++ [a]) d' /\
    jd_procs d' = <[a := mkProc (-1) socket [] []]> (jd_procs d) /\ fdmap (jd_fde d') = <[a := socket]> (fdmap (jd_fde d)).
Proof.
  intros H HI Hf. destruct (alloc_run ps ts d socket H Hf) as (s' & k & p & E & _ & R & I & O & Ot & C & Mp).
  set (a := jd_next d) in *. destruct (ok_fresh _ _ _ H a ltac:(lia)) as (Fp & _ & Fe).
  eexists a, _. split; [exact E|]. split_and!; [|eapply informed_same; [exact HI|done|done|]|done|done].
  - destruct H as [H1 H2 H3 H4 H5 H6 H7 H8 H9 H10]. split; cbn; try done; [| | |].
    + intros b. rewrite elem_of_app, list_elem_of_singleton, H2. destruct (decide (b = a)) as [->|Hb].
      * rewrite lookup_insert_eq. naive_solver.
      * rewrite lookup_insert_ne by done. naive_solver.
    + intros b q. destruct (decide (b = a)) as [->|Hb].
      * rewrite lookup_insert_eq. intros [= <-]. cbn. split_and!; [done|lia|lia].
      * rewrite lookup_insert_ne by done. intros Hq. destruct (H3 b q Hq) as (? & ? & ?). split_and!; [by eapply owns_else|done|done].
    + unfold a. lia.
    + intros b Hb. destruct (H10 b ltac:(unfold a in *; lia)) as (? & ? & ?). rewrite lookup_insert_ne by (unfold a; lia).
      split_and!; [done|done|]. rewrite Ot by (unfold a; lia). done.
  - intros room. unfold listed. rewrite omap_app. cbn [omap list_omap]. cbn [jd_procs upd_fde upd_links upd_procs upd_next].
    rewrite lookup_insert_eq. rewrite pid_lines_app by (cbn; lia). f_equal. apply listed_insert_else.
    intros Hin. apply (ok_procs _ _ _ H) in Hin as [? ?]. congruence.
Qed.

(** ** The end of a process *)

Lemma close_all_ok l : forall d, close_all l d = Ok (tt, upd_closed (fun c => c ++ l) d).
Proof.
  induction l as [|fd l IH]; intros d; cbn; [unfold upd_closed; rewrite app_nil_r; by destruct d|].
  unfold bind, j_close, modify. rewrite IH. unfold upd_closed. cbn. by rewrite <- app_assoc.
Qed.

Lemma proc_at_ok d a p : jd_procs d !! a = Some p -> proc_at a d = Ok (p, d).
Proof. unfold proc_at, bind, get, deref. by intros ->. Qed.

(** Deleting the process from all tables. *)
Lemma free_run ps1 a ps2 ts d p :
  jd_ok (ps1 ++ a :: ps2) ts d -> jd_procs d !! a = Some p ->
  exists s' k, jd_ok (ps1 ++ ps2) ts (upd_procs (delete a) (upd_links (fun _ => k) (upd_fde (fun _ => s')
      (upd_closed (fun c => (c ++ [j_socket p]) ++ j_out p) d)))) /\
    fdmap s' = delete a (fdmap (jd_fde d)) /\
    jdwp_process_free a d = jdwp_process_list_updated (upd_procs (delete a) (upd_links (fun _ => k) (upd_fde (fun _ => s')
      (upd_closed (fun c => (c ++ [j_socket p]) ++ j_out p) d)))).
Proof.
  intros H Hp. destruct (ok_proc _ _ _ H _ _ Hp) as (Ho & _ & _).
  assert (0 <= j_socket p) as Hs.
  { pose proof Ho as (e & He & Ae & <- & _). by destruct (ok_active _ _ _ (inv_fde _ (ok_events _ _ _ H) _ _ He) Ae) as ([? ?] & _). }
  destruct (unlink_ok jd_links upd_links (fun _ _ => eq_refl) d ps1 a ps2 (ok_ring _ _ _ H)) as (n & q & Eu & R).
  destruct (owned_destroy _ _ _ (ok_events _ _ _ H) Ho) as (s' & Ed & I & Ot & C & Mp).
  exists s', (delete a (put_prev n q (put_next q n (jd_links d)))). split_and!; [|done|].
  - pose proof (ok_ring _ _ _ H) as [Hnd _]. apply list.NoDup_cons in Hnd as [_ Hnd].
    apply list.NoDup_app in Hnd as (_ & N1 & N2). apply list.NoDup_cons in N2 as [N2 _].
    destruct H as [H1 H2 H3 H4 H5 H6 H7 H8 H9 H10]. split; cbn; try done.
    + intros b. pose proof (H2 b) as Hb. rewrite elem_of_app, elem_of_cons in Hb. rewrite elem_of_app.
      destruct (decide (b = a)) as [->|Hba].
      * rewrite lookup_delete_eq. split; [|by intros [? ?]]. intros [Hin|Hin]; [by destruct (N1 a Hin); left|done].
      * rewrite lookup_delete_ne by done. rewrite <- Hb. naive_solver.
    + intros b x Hx. apply lookup_delete_Some in Hx as [Hb Hx]. destruct (H3 b x Hx) as (? & ? & ?).
      split_and!; [eapply owns_else; [exact Ot|done|done]|done|done].
    + by rewrite C.
    + intros b Hb. destruct (H10 b Hb) as (X1 & X2 & X3). rewrite lookup_delete_ne by congruence. split_and!; [done|done|].
      rewrite Ot by congruence. done.
  - unfold jdwp_process_free. rewrite (bind_ok _ _ _ _ _ Eu).
    erewrite bind_ok by (apply proc_at_ok; exact Hp). rewrite (proj2 (Z.leb_le _ _)) by done. cbn [when].
    unfold j_close. unfold bind at 1, modify at 1. erewrite bind_ok by (apply j_fde_ok; cbn; exact Ed).
    rewrite (bind_ok _ _ _ _ _ (close_all_ok _ _)). unfold bind, modify.
    apply (f_equal jdwp_process_list_updated). destruct d. reflexivity.
Qed.

Lemma free_at ps ts d a p :
  jd_ok ps ts d -> jd_procs d !! a = Some p ->
  exists ps' d', jdwp_process_free a d = Ok (tt, d') /\ jd_ok ps' ts d' /\ informed ps' d' /\ jd_sockets d' = jd_sockets d /\ jd_trackers d' = jd_trackers d.
Proof.
  intros H Hp. assert (a ∈ ps) as (ps1 & ps2 & ->)%list_elem_of_split by (apply (ok_procs _ _ _ H); eauto).
  destruct (free_run _ _ _ _ _ _ H Hp) as (s' & k & H1 & _ & ->).
  destruct (list_updated_ok _ _ _ H1) as (d' & -> & H2 & HI & cs & ->). by eexists _, _.
Qed.
