(* ===== verification/JdwpRun.v ===== *)
(** * Sequences of events of debuggable processes

    The handlers of jdwp_service.c keep the structures of JdwpFacts.v, in every order
    of events, and a debugger reaches the process it asks for. *)

From S2P Require Import Prelude Ring Io Wire FdEvent EventMap Jdwp JdwpFacts.

(** ** Reading from a process *)

(** A process and the input changed, nothing else. *)
Definition edited (a : Z) (q : jproc) (i : gmap Z rdfd) (d : jdwp) : jdwp := upd_recv (fun _ => i) (upd_procs <[a := q]> d).

Lemma edited_again a q i q' i' d : edited a q' i' (edited a q i d) = edited a q' i' d.
Proof. destruct d. unfold edited, upd_recv, upd_procs. cbn. by rewrite insert_insert_eq. Qed.

Lemma edited_none a p d : jd_procs d !! a = Some p -> edited a p (jd_recv d) d = d.
Proof. intros H. destruct d. unfold edited, upd_recv, upd_procs. cbn in *. by rewrite insert_id. Qed.

Lemma edited_ok a p q i ps ts d :
  jd_ok ps ts d -> jd_procs d !! a = Some p -> j_socket q = j_socket p -> (length (j_in q) <= 4)%nat ->
  (length (j_out q) <= MAX_OUT_FDS)%nat -> jd_ok ps ts (edited a q i d).
Proof.
  intros [H1 H2 H3 H4 H5 H6 H7 H8 H9 H10] Hp Hs Hi Ho. split; try done; cbn.
  - intros b. rewrite H2. destruct (decide (b = a)) as [->|Hb]; [|by rewrite lookup_insert_ne]. rewrite lookup_insert_eq, Hp. split; eauto.
  - intros b x. destruct (decide (b = a)) as [->|Hb]; [|rewrite lookup_insert_ne by done; apply H3].
    rewrite lookup_insert_eq. intros [= <-]. rewrite Hs. by destruct (H3 a p Hp) as (? & _ & _).
  - intros b Hb. destruct (H10 b Hb) as (? & ? & ?). by rewrite lookup_insert_ne by congruence.
Qed.

(** The list shows nothing but the numbers. *)
Lemma pid_lines_map room l l' : j_pid <$> l = j_pid <$> l' -> pid_lines room l = pid_lines room l'.
Proof.
  revert room l'. induction l as [|p l IH]; intros room [|p' l'] E; try done. injection E as E1 E2. cbn. rewrite E1. by rewrite !(IH _ l').
Qed.

Lemma listed_edited a p q i ps d :
  jd_procs d !! a = Some p -> j_pid q = j_pid p -> j_pid <$> listed ps (edited a q i d) = j_pid <$> listed ps d.
Proof.
  intros Hp Hq. unfold listed. induction ps as [|b ps IH]; [done|]. cbn. destruct (decide (b = a)) as [->|Hb].
  - rewrite lookup_insert_eq, Hp. cbn. rewrite Hq. by f_equal.
  - rewrite lookup_insert_ne by done. destruct (jd_procs d !! b); [cbn; by f_equal|done].
Qed.

Lemma edited_informed a p q i ps d :
  informed ps d -> jd_procs d !! a = Some p -> j_pid q = j_pid p -> informed ps (edited a q i d).
Proof.
  intros H Hp Hq. eapply informed_same; [exact H|done|done|]. intros room. by eapply pid_lines_map, listed_edited.
Qed.

(** The input of a descriptor, and what bounds the calls that read it. *)
Definition input (socket : Z) (d : jdwp) : rdfd := default (mkRd [] []) (jd_recv d !! socket).
Definition pending (i : rdfd) : nat := (length (rd_data i) + length (rd_script i))%nat.

Lemma read_shrinks len i r i' :
  (0 < len)%nat -> adb_read len i = (r, i') -> r <> Got [] -> (pending i' < pending i)%nat.
Proof.
  intros Hl E Hr. pose proof (adb_read_progress _ _ _ _ E) as (P1 & P2 & P3).
  destruct (adb_read_data _ _ _ _ E) as (l & Hd & _ & Hg). unfold pending. rewrite Hd, length_app.
  destruct (rd_script i) eqn:Es; [|specialize (P2 ltac:(done)); cbn in *; lia].
  destruct (P3 eq_refl) as [l' ->]. assert (l = l') as -> by naive_solver. destruct l'; [done|]. cbn in *. lia.
Qed.

Lemma recv_ok socket len d r i : adb_read len (input socket d) = (r, i) -> recv socket len d = Ok (r, upd_recv <[socket := i]> d).
Proof. unfold recv, input. by intros ->. Qed.

Lemma read_benign len i r i' :
  (0 < len)%nat -> adb_read len i = (r, i') -> Forall benign (rd_script i) ->
  Forall benign (rd_script i') /\ match r with Failed e => e = EINTR | Got l => l = [] -> rd_data i = [] end.
Proof.
  unfold adb_read. intros Hl E H. destruct len as [|len]; [lia|].
  destruct (rd_script i) as [|[n|e|] sc]; simplify_eq/=; try (apply list.Forall_cons in H as [H1 H2]); split; try done.
  - by destruct (rd_data i).
  - by destruct (rd_data i).
Qed.

Lemma edited_recv a p f d : jd_procs d !! a = Some p -> upd_recv f d = edited a p (f (jd_recv d)) d.
Proof. intros H. destruct d. unfold edited, upd_recv, upd_procs. cbn in *. by rewrite insert_id. Qed.

(** A process after [l] was read from it. *)
Definition grown (p : jproc) (l : list Z) : jproc := mkProc (j_pid p) (j_socket p) (j_in p ++ l) (j_out p).

(** The number of the process arrives in any pieces; nothing else of the process
    changes.  Without failures, four bytes are enough. *)
Definition pid_read (socket : Z) (p : jproc) (d : jdwp) (r : option bool) (l : list Z) (i : gmap Z rdfd) : Prop :=
  (length (j_in p ++ l) <= 4)%nat /\ (r = Some true -> length (j_in p ++ l) = 4%nat) /\
  rd_data (input socket d) = l ++ rd_data (default (mkRd [] []) (i !! socket)) /\
  (Forall benign (rd_script (input socket d)) -> (4 <= length (j_in p) + length (rd_data (input socket d)))%nat -> r = Some true).

Lemma grown_nil p : grown p [] = p.
Proof. destruct p. unfold grown. cbn. by rewrite app_nil_r. Qed.

(** A call that took [l] from the input, and what the others read. *)
Lemma pid_read_step socket a p d r l i l' i' :
  jd_procs d !! a = Some p -> rd_data (input socket d) = l ++ rd_data i ->
  (Forall benign (rd_script (input socket d)) -> Forall benign (rd_script i)) ->
  pid_read socket (grown p l) (edited a (grown p l) (<[socket := i]> (jd_recv d)) d) r l' i' -> pid_read socket p d r (l ++ l') i'.
Proof.
  intros Hp Hd Hb (G1 & G2 & G3 & G4). unfold input in G3, G4. cbn [jd_recv edited upd_recv grown j_in] in *.
  rewrite lookup_insert_eq in G3, G4. cbn in G3, G4. rewrite <- app_assoc in G1, G2. split_and!; [done|done|by rewrite Hd, G3, app_assoc|].
  intros B H4. apply G4; [by apply Hb|]. rewrite Hd, length_app in H4. rewrite length_app. lia.
Qed.

Lemma read_pid_ok socket a : forall fuel d p,
  jd_procs d !! a = Some p -> (pending (input socket d) < fuel)%nat -> (length (j_in p) <= 4)%nat ->
  exists r l i, read_pid fuel socket a d = Ok (r, edited a (grown p l) i d) /\ pid_read socket p d r l i.
Proof.
  induction fuel as [|fuel IH]; intros d p Hp Hf Hl; [lia|]. cbn [read_pid]. rewrite (bind_ok _ _ _ _ _ (proc_at_ok _ _ _ Hp)).
  destruct (Nat.leb_spec 4 (length (j_in p))) as [E4|E4].
  { exists (Some true), [], (jd_recv d). rewrite grown_nil, edited_none by done. unfold pid_read. rewrite app_nil_r. split_and!; [done|done|lia|done|done]. }
  destruct (adb_read (4 - length (j_in p)) (input socket d)) as [r i] eqn:Er. rewrite (bind_ok _ _ _ _ _ (recv_ok _ _ _ _ _ Er)).
  destruct (adb_read_data _ _ _ _ Er) as (l & Hd & Hlen & Hg). pose proof (read_shrinks (4 - length (j_in p)) _ _ _ ltac:(lia) Er) as Hsh.
  pose proof (read_benign (4 - length (j_in p)) _ _ _ ltac:(lia) Er) as Hb. rewrite (edited_recv a p) by done.
  set (i1 := <[socket := i]> (jd_recv d)). assert (default (mkRd [] []) (i1 !! socket) = i) as Hi1 by (unfold i1; by rewrite lookup_insert_eq).
  assert (l = [] -> (Forall benign (rd_script (input socket d)) -> (4 <= length (j_in p) + length (rd_data (input socket d)))%nat -> False) ->
    forall r', r' <> Some true -> exists r'' l' i', Ok (r', edited a p i1 d) = Ok (r'', edited a (grown p l') i' d) /\ pid_read socket p d r'' l' i') as Hstop.
  { intros -> Hno r' Hr'. exists r', [], i1. unfold pid_read. rewrite grown_nil, app_nil_r, Hi1. split_and!; try done. intros. by destruct Hno. }
  assert (forall m, r <> Got [] -> (length (j_in p ++ l) <= 4)%nat -> m = edited a (grown p l) i1 d ->
    (Forall benign (rd_script (input socket d)) -> Forall benign (rd_script i)) ->
    exists r' l' i', read_pid fuel socket a m = Ok (r', edited a (grown p l') i' d) /\ pid_read socket p d r' l' i') as Hgo.
  { intros m Hr H4 -> B. destruct (IH (edited a (grown p l) i1 d) (grown p l)) as (r' & l' & i' & -> & G); [cbn; apply lookup_insert_eq| |done|].
    { unfold input. cbn [jd_recv edited upd_recv]. rewrite Hi1. specialize (Hsh Hr). lia. }
    exists r', (l ++ l'), i'. rewrite edited_again. split; [unfold grown; cbn; by rewrite <- app_assoc|]. by eapply pid_read_step. }
  destruct r as [l0|e]; subst l.
  - destruct l0 as [|x l].
    { apply Hstop; [done| |done]. intros B H4. destruct (Hb B) as [_ B2]. rewrite B2 in H4 by done. cbn in H4. lia. }
    unfold bind at 1, set_proc, modify. apply Hgo; [done|rewrite length_app; lia| |by intros B; destruct (Hb B)].
    unfold edited, upd_procs, upd_recv. cbn. by rewrite insert_insert_eq.
  - case_decide.
    { apply Hgo; [done|by rewrite app_nil_r|by rewrite grown_nil|by intros B; destruct (Hb B)]. }
    case_decide; (apply Hstop; [done|intros B _; by destruct (Hb B)|done]).
Qed.

Lemma read_end_ok socket : forall fuel d,
  (pending (input socket d) < fuel)%nat -> exists b i, read_end fuel socket d = Ok (b, upd_recv (fun _ => i) d).
Proof.
  induction fuel as [|fuel IH]; intros d Hf; [lia|]. cbn [read_end].
  destruct (adb_read 32 (input socket d)) as [r i] eqn:Er. rewrite (bind_ok _ _ _ _ _ (recv_ok _ _ _ _ _ Er)).
  pose proof (read_shrinks 32 _ _ _ ltac:(lia) Er) as Hsh.
  assert (r <> Got [] -> exists b i', read_end fuel socket (upd_recv <[socket := i]> d) = Ok (b, upd_recv (fun _ => i') d)) as Hgo.
  { intros Hr. destruct (IH (upd_recv <[socket := i]> d)) as (b & i' & ->); [|by exists b, i'].
    unfold input. cbn. rewrite lookup_insert_eq. cbn. specialize (Hsh Hr). lia. }
  destruct r as [[|x l]|e]; [by eexists _, _|by apply Hgo|]. case_decide; [by apply Hgo|]. case_decide; by eexists _, _.
Qed.

(** ** The two parts of the handler of a process *)

(** What a handler may leave of process [a]: the same socket; its event stays. *)
Definition keeps (a : Z) (p : jproc) (d d' : jdwp) : Prop :=
  (exists q, jd_procs d' = <[a := q]> (jd_procs d) /\ j_socket q = j_socket p) /\
  jd_sockets d' = jd_sockets d /\ jd_trackers d' = jd_trackers d.

Lemma process_readable_ok ps ts d a p socket :
  jd_ok ps ts d -> informed ps d -> jd_procs d !! a = Some p ->
  exists r d', process_readable socket a d = Ok (r, d') /\ jd_ok ps ts d' /\ informed ps d' /\ keeps a p d d' /\ jd_fde d' = jd_fde d.
Proof.
  intros H HI Hp. destruct (ok_proc _ _ _ H _ _ Hp) as (_ & Hl & Ho). unfold process_readable.
  rewrite (bind_ok _ _ _ _ _ (proc_at_ok _ _ _ Hp)). unfold bind at 1, get at 1.
  assert (pending (input socket d) < recv_fuel socket d)%nat as Hf by (unfold recv_fuel, pending, input; lia).
  destruct (j_pid p <? 0).
  - destruct (read_pid_ok socket a _ d p Hp Hf Hl) as (r & l & i & E & G1 & _). rewrite (bind_ok _ _ _ _ _ E).
    assert (jd_ok ps ts (edited a (grown p l) i d)) as H1 by (by eapply edited_ok).
    assert (informed ps (edited a (grown p l) i d)) as I1 by (by eapply edited_informed).
    assert (keeps a p d (edited a (grown p l) i d)) as K1 by (split; [by exists (grown p l)|done]).
    destruct r as [[]|]; [|by eexists _, _..]. erewrite bind_ok by (apply proc_at_ok; cbn; apply lookup_insert_eq).
    destruct (sscanf_x (j_in (grown p l))) as [pid|]; [|by eexists _, _]. unfold bind at 1, set_proc at 1, modify at 1. set (d2 := upd_procs _ _).
    assert (d2 = edited a (mkProc pid (j_socket p) (j_in p ++ l) (j_out p)) i d) as Ed2
      by (unfold d2, edited, upd_procs, upd_recv; cbn; by rewrite insert_insert_eq).
    destruct (list_updated_ok ps ts d2) as (d3 & E3 & H3 & I3 & cs & ->).
    { rewrite Ed2. by eapply edited_ok. }
    rewrite (bind_ok _ _ _ _ _ E3). eexists _, _. split_and!; [done|done|done| |by rewrite Ed2].
    rewrite Ed2. split; [by eexists|done].
  - destruct (read_end_ok socket _ d Hf) as (b & i & E). rewrite (bind_ok _ _ _ _ _ E). eexists _, _. split_and!; [done| | | |done].
    + rewrite (edited_recv a p) by done. by eapply edited_ok.
    + rewrite (edited_recv a p) by done. by eapply edited_informed.
    + split; [|done]. exists p. cbn. by rewrite insert_id.
Qed.

Lemma send_fd_ok socket fd : forall answers d,
  exists ok l cs, send_fd answers socket fd d = Ok (ok, upd_calls (fun c => c ++ cs) (upd_sendmsg (fun _ => l) d)) /\
    cs = (if ok : bool then [PassFd socket fd] else []).
Proof.
  induction answers as [|[e|] answers IH]; intros d; cbn [send_fd].
  - by exists true, [], [PassFd socket fd].
  - case_decide; [apply IH|]. exists false, answers, []. split; [|done]. destruct d. unfold upd_calls, upd_sendmsg, bind, modify, ret. cbn. by rewrite app_nil_r.
  - by exists true, answers, [PassFd socket fd].
Qed.

(** The event of a process changed. *)
Lemma fde_changed ps ts d a p s' :
  jd_ok ps ts d -> jd_procs d !! a = Some p -> fd_inv s' -> owns s' a (j_socket p) -> others a (jd_fde d) s' -> closed s' = closed (jd_fde d) ->
  jd_ok ps ts (upd_fde (fun _ => s') d).
Proof.
  intros [H1 H2 H3 H4 H5 H6 H7 H8 H9 H10] Hp Hi Ho Hot Hc. split; try done; cbn.
  - intros b q Hq. destruct (H3 b q Hq) as (O & ? & ?). split_and!; [|done|done]. destruct (decide (b = a)) as [->|Hb]; [by simplify_eq|by eapply owns_else].
  - by rewrite Hc.
  - intros b Hb. destruct (H10 b Hb) as (? & ? & ?). split_and!; [done|done|]. rewrite Hot by congruence. done.
Qed.

(** Calls that give the trackers nothing. *)
Lemma informed_calls ps d cs :
  informed ps d ->
  (forall a t peer, jd_trackers d !! a = Some t -> jt_peer t = Some peer -> enqueued peer cs = []) -> informed ps (upd_calls (fun l => l ++ cs) d).
Proof.
  intros H Hc a t Ht peer Hp. cbn [upd_calls jd_calls jd_trackers] in *. rewrite enqueued_app, (Hc a t peer Ht Hp), app_nil_r. by apply (H a t).
Qed.

Lemma process_writable_ok ps ts d a p :
  jd_ok ps ts d -> informed ps d -> jd_procs d !! a = Some p ->
  exists c d', process_writable a d = Ok (c, d') /\ jd_ok ps ts d' /\ informed ps d' /\ keeps a p d d' /\ fdmap (jd_fde d') = fdmap (jd_fde d).
Proof.
  intros H HI Hp. destruct (ok_proc _ _ _ H _ _ Hp) as (Ho & Hl & Hout). unfold process_writable. rewrite (bind_ok _ _ _ _ _ (proc_at_ok _ _ _ Hp)).
  assert (keeps a p d d) as K0 by (split; [exists p; by rewrite insert_id|done]).
  destruct (j_out p) as [|fd rest] eqn:Eo; [by eexists _, _|]. unfold bind at 1, get at 1.
  destruct (send_fd_ok (j_socket p) fd (jd_sendmsg d) d) as (ok & l & cs & E & Hcs). rewrite (bind_ok _ _ _ _ _ E). set (d1 := upd_calls _ _).
  assert (jd_ok ps ts d1) as H1 by (apply jd_ok_calls; destruct H; by split).
  assert (informed ps d1) as I1.
  { apply informed_calls; [done|]. intros b t peer _ _. subst cs. by destruct ok. }
  destruct ok; cbn [negb]; [|by eexists _, _]. unfold bind at 1, set_proc, modify.
  set (q := mkProc (j_pid p) (j_socket p) (j_in p) rest). set (d2 := upd_procs _ _).
  assert (d2 = edited a q (jd_recv d) d1) as E2 by done.
  assert (jd_ok ps ts d2) as H2 by (rewrite E2; eapply edited_ok; [exact H1|exact Hp|done|done|cbn in *; lia]).
  assert (informed ps d2) as I2 by (rewrite E2; by eapply edited_informed).
  assert (keeps a p d d2) as K2 by (split; [by exists q|done]).
  case_bool_decide as Er; cbn [when]; [|by eexists _, _].
  destruct (owned_del (jd_fde d2) a (j_socket p) (ok_events _ _ _ H) Ho) as (s' & Es & F1 & F2 & F3 & F4 & F5).
  erewrite bind_ok by (by apply j_fde_ok). eexists _, _. split_and!; [done| |done|done|done].
  eapply (fde_changed ps ts d2 a q); try done. cbn. apply lookup_insert_eq.
Qed.

(** ** The handler of a process *)

Lemma keeps_some a p d d' : keeps a p d d' -> exists q, jd_procs d' !! a = Some q.
Proof. intros [(q & -> & _) _]. rewrite lookup_insert_eq. eauto. Qed.

Lemma process_event_ok ps ts d a p events socket :
  jd_ok ps ts d -> informed ps d -> jd_procs d !! a = Some p ->
  exists ps' d', jdwp_process_event socket events a d = Ok (tt, d') /\ jd_ok ps' ts d' /\ informed ps' d' /\ jd_sockets d' = jd_sockets d /\ jd_trackers d' = jd_trackers d.
Proof.
  intros H HI Hp. unfold jdwp_process_event.
  assert (exists r d1, (if hasbit events FDE_READ then process_readable socket a else ret GoOn) d = Ok (r, d1) /\ jd_ok ps ts d1 /\ informed ps d1 /\ keeps a p d d1)
    as (r & d1 & E1 & H1 & I1 & K1).
  { destruct (hasbit events FDE_READ).
    - destruct (process_readable_ok ps ts d a p socket H HI Hp) as (r & d1 & E1 & H1 & I1 & K1 & _). by exists r, d1.
    - exists GoOn, d. split_and!; [done..|]. split; [|done]. exists p. by rewrite insert_id. }
  rewrite (bind_ok _ _ _ _ _ E1). destruct (keeps_some _ _ _ _ K1) as [p1 Hp1]. destruct K1 as (_ & <- & <-).
  destruct r; [by eexists _, _|by eapply free_at|]. destruct (hasbit events FDE_WRITE); [|by eexists _, _].
  destruct (process_writable_ok ps ts d1 a p1 H1 I1 Hp1) as (c & d2 & E2 & H2 & I2 & K2 & _). rewrite (bind_ok _ _ _ _ _ E2).
  destruct (keeps_some _ _ _ _ K2) as [p2 Hp2]. destruct K2 as (_ & <- & <-). destruct c; [by eapply free_at|by eexists _, _].
Qed.

(** ** Debuggers *)

Lemma find_pid_ok pid d : forall ps,
  (forall a, a ∈ ps -> is_Some (jd_procs d !! a)) ->
  exists o, find_pid ps pid d = Ok (o, d) /\
    match o with
    | Some a => exists p, jd_procs d !! a = Some p /\ j_pid p = pid
    | None => Forall (fun p => j_pid p <> pid) (listed ps d)
    end.
Proof.
  induction ps as [|a ps IH]; intros H; [by exists None|]. destruct (H a ltac:(set_solver)) as [p Hp].
  cbn [find_pid]. rewrite (bind_ok _ _ _ _ _ (proc_at_ok _ _ _ Hp)). destruct (j_pid p =? pid) eqn:E; bools.
  - exists (Some a). eauto.
  - destruct (IH ltac:(set_solver)) as (o & -> & Ho). exists o. split; [done|]. destruct o; [done|]. unfold listed. cbn. rewrite Hp. by constructor.
Qed.

(** A new descriptor for the process [a]; its event asks for writing. *)
Lemma offer_fd_ok ps ts d a p fd :
  jd_ok ps ts d -> informed ps d -> jd_procs d !! a = Some p -> (length (j_out p) < MAX_OUT_FDS)%nat ->
  exists d', (set_proc a (mkProc (j_pid p) (j_socket p) (j_in p) (j_out p ++ [fd])) ;;
              when (length (j_out p) =? 0)%nat (j_fde (fdevent_add a FDE_WRITE))) d = Ok (tt, d') /\
    jd_ok ps ts d' /\ informed ps d' /\ keeps a p d d' /\ jd_calls d' = jd_calls d /\ jd_sendmsg d' = jd_sendmsg d /\ jd_closed d' = jd_closed d /\
    jd_procs d' = <[a := mkProc (j_pid p) (j_socket p) (j_in p) (j_out p ++ [fd])]> (jd_procs d).
Proof.
  intros H HI Hp Hn. destruct (ok_proc _ _ _ H _ _ Hp) as (Ho & Hl & Hout).
  set (q := mkProc (j_pid p) (j_socket p) (j_in p) (j_out p ++ [fd])). unfold bind at 1, set_proc, modify.
  change (upd_procs <[a := q]> d) with (edited a q (jd_recv d) d).
  assert (jd_ok ps ts (edited a q (jd_recv d) d)) as H1.
  { eapply edited_ok; [exact H|exact Hp|done|done|]. cbn. rewrite length_app. cbn in *. lia. }
  assert (informed ps (edited a q (jd_recv d) d)) as I1 by (by eapply edited_informed).
  assert (keeps a p d (edited a q (jd_recv d) d)) as K1 by (split; [by exists q|done]).
  destruct (length (j_out p) =? 0)%nat; cbn [when]; [|by eexists].
  destruct (owned_add (jd_fde d) a (j_socket p) FDE_WRITE (ok_events _ _ _ H) Ho) as (s' & Es & F1 & F2 & F3 & F4 & F5).
  eexists. split; [by apply j_fde_ok|]. split_and!; try done.
  eapply (fde_changed ps ts _ a q); try done. cbn. apply lookup_insert_eq.
Qed.

Lemma connection_fd_ok ps ts d pid :
  jd_ok ps ts d -> informed ps d ->
  exists r d', create_jdwp_connection_fd pid d = Ok (r, d') /\ jd_ok ps ts d' /\ informed ps d' /\ jd_sockets d' = jd_sockets d /\ jd_trackers d' = jd_trackers d.
Proof.
  intros H HI. unfold create_jdwp_connection_fd. rewrite (bind_ok _ _ _ _ _ (members_ok _ _ _ (ok_ring _ _ _ H))).
  destruct (find_pid_ok pid d ps ltac:(intros a; by apply (ok_procs _ _ _ H))) as (o & E & Ho). rewrite (bind_ok _ _ _ _ _ E).
  destruct o as [a|]; [|by eexists _, _]. destruct Ho as (p & Hp & _). rewrite (bind_ok _ _ _ _ _ (proc_at_ok _ _ _ Hp)).
  destruct (Nat.leb_spec MAX_OUT_FDS (length (j_out p))) as [Hm|Hm]; [by eexists _, _|].
  unfold bind at 1, adb_socketpair, bind at 1, get at 1. destruct (jd_pairs d) as [|pair l]; [by eexists _, _|]. unfold bind at 1, modify at 1, ret at 1.
  assert (jd_ok ps ts (upd_pairs (fun _ => l) d)) as H1 by (destruct H; by split).
  destruct pair as [[fd0 fd1]|]; [|by eexists _, _].
  destruct (offer_fd_ok ps ts (upd_pairs (fun _ => l) d) a p fd1 H1 HI Hp Hm) as (d' & E' & H' & I' & (_ & S' & T') & _).
  unfold bind at 1 in E'. unfold bind at 1. cbn [set_proc modify] in *. rewrite (bind_ok _ _ _ _ _ E'). by eexists _, _.
Qed.

(** ** New processes *)

Lemma accept_loop_ok ts : forall answers ps d,
  jd_ok ps ts d -> informed ps d -> Forall (fun r => match r with inr s => free_fd d s | inl _ => True end) answers ->
  exists ps' d', accept_loop answers d = Ok (tt, d') /\ jd_ok ps' ts d' /\ informed ps' d' /\ jd_sockets d' = jd_sockets d /\ jd_trackers d' = jd_trackers d.
Proof.
  induction answers as [|r answers IH]; intros ps d H HI HF; [by eexists _, _|]. apply list.Forall_cons in HF as [Hr HF].
  assert (jd_ok ps ts (upd_accept (fun _ => answers) d)) as H1 by (destruct H; by split).
  destruct r as [e|s]; cbn [accept_loop]; unfold bind at 1, modify at 1.
  - case_decide; [|by eexists _, _]. exact (IH ps _ H1 HI HF).
  - destruct (alloc_run ps ts _ s H1 Hr) as (s' & k & p & E & _). destruct (alloc_ok ps ts _ s H1 HI Hr) as (a & d' & E' & H' & I' & _).
    rewrite (bind_ok _ _ _ _ _ E'). rewrite E in E'. injection E' as <- <-. by eexists _, _.
Qed.

(** ** Trackers *)

(** The service is made and connected with the socket that asked for it. *)
Definition open_tracker (peer : Z) : J Z := a <- create_jdwp_tracker_service_socket ;; connect_tracker a peer ;; ret a.

Lemma open_tracker_run ps ts d peer :
  jd_ok ps ts d ->
  exists k, open_tracker peer d = Ok (jd_next d, upd_tlinks (fun _ => k) (upd_trackers <[jd_next d := mkTracker (Some peer) true]> (upd_next (fun a => a + 1) d))) /\
    ring k 0 (ts ++ [jd_next d]).
Proof.
  intros H. set (a := jd_next d). destruct (ok_fresh _ _ _ H a ltac:(lia)) as (_ & Ft & _).
  assert (a ∉ 0 :: ts) as Ha.
  { pose proof (ok_next _ _ _ H). intros [?|Hin]%elem_of_cons; [lia|]. apply (ok_trackers _ _ _ H) in Hin as [? ?]. congruence. }
  set (k0 := <[a := (0, 0)]> (jd_tlinks d)). assert (is_Some (k0 !! a)) as Sa by (unfold k0; rewrite lookup_insert_eq; eauto).
  assert (ring k0 0 ts) as R0 by (apply ring_insert_else; [done|apply H]).
  destruct (ring_append k0 0 ts a R0 Ha Sa) as (p & P1 & Pa & Sp & R1).
  assert (is_Some (k0 !! 0)) as S0 by (by eapply prv_some).
  exists (inserted a p 0 k0). split; [|done].
  assert (0 <> a) as H0 by set_solver.
  assert (exists d', create_jdwp_tracker_service_socket d = Ok (a, d') /\
    d' = upd_tlinks (fun _ => inserted a p 0 k0) (upd_trackers <[a := mkTracker None true]> (upd_next (fun a => a + 1) d))) as (d' & E & Ed).
  { eexists. unfold create_jdwp_tracker_service_socket. cbn [j_alloc bind get modify ret]. fold a.
    erewrite bind_ok by (apply link_next_ok; exact Sa).
    erewrite bind_ok by (apply get_prev_ok; cbn; rewrite prv_put_next by done; exact P1).
    erewrite bind_ok by (apply link_prev_ok; (cbn; by apply put_next_some)).
    erewrite bind_ok by (apply get_next_ok; cbn; rewrite nxt_put_prev by (by apply put_next_some); rewrite nxt_put_next by done; by rewrite decide_True).
    erewrite bind_ok by (apply link_prev_ok; (cbn; by repeat (apply put_prev_some || apply put_next_some))).
    erewrite bind_ok by (apply get_prev_ok; cbn -[put_prev put_next]; rewrite prv_put_prev by (by repeat (apply put_prev_some || apply put_next_some));
      rewrite decide_False by done; rewrite prv_put_prev by (by apply put_next_some); by rewrite decide_True).
    erewrite bind_ok by (apply link_next_ok; (cbn; by repeat (apply put_prev_some || apply put_next_some))).
    split; [reflexivity|reflexivity]. }
  unfold open_tracker. rewrite (bind_ok _ _ _ _ _ E). subst d'.
  assert (forall d t, jd_trackers d !! a = Some t ->
    connect_tracker a peer d = Ok (tt, upd_trackers <[a := mkTracker (Some peer) (jt_need_update t)]> d)) as Ec.
  { intros d1 t Ht. unfold connect_tracker, tracker_at, bind, get, deref, modify. by rewrite Ht. }
  erewrite bind_ok by (apply Ec; cbn; apply lookup_insert_eq). unfold ret. do 2 f_equal. destruct d. unfold upd_trackers, upd_tlinks, upd_next. cbn.
  by rewrite insert_insert_eq.
Qed.

(** The invariant of sequences: also, the sockets that asked for the list once are
    not those of trackers. *)
Definition apart (d : jdwp) : Prop :=
  forall a s b t peer, jd_sockets d !! a = Some s -> jd_trackers d !! b = Some t -> js_peer s = Some peer -> jt_peer t <> Some peer.

Record jd_inv (ps ts : list Z) (d : jdwp) : Prop := JdInv {
  inv_ok : jd_ok ps ts d;
  inv_informed : informed ps d;
  inv_apart : apart d;
  inv_served : forall a s, jd_sockets d !! a = Some s -> is_Some (js_peer s);
}.

(** A socket that nobody has used. *)
Definition new_peer (d : jdwp) (peer : Z) : Prop :=
  enqueued peer (jd_calls d) = [] /\
  (forall a s, jd_sockets d !! a = Some s -> js_peer s <> Some peer) /\ (forall a t, jd_trackers d !! a = Some t -> jt_peer t <> Some peer).

Lemma open_tracker_ok ps ts d peer :
  jd_inv ps ts d -> new_peer d peer ->
  exists a d', open_tracker peer d = Ok (a, d') /\ jd_inv ps (ts ++ [a]) d' /\ jd_trackers d' !! a = Some (mkTracker (Some peer) true).
Proof.
  intros [H HI HA HS] (N1 & N2 & N3). destruct (open_tracker_run ps ts d peer H) as (k & E & R). set (a := jd_next d) in *.
  destruct (ok_fresh _ _ _ H a ltac:(lia)) as (Fp & Ft & Fe). eexists a, _. split; [exact E|]. split; [split|cbn; apply lookup_insert_eq].
  - destruct H as [H1 H2 H3 H4 H5 H6 H7 H8 H9 H10]. split; cbn; try done.
    + intros b. rewrite elem_of_app, list_elem_of_singleton, H5. destruct (decide (b = a)) as [->|Hb].
      * rewrite lookup_insert_eq. naive_solver.
      * rewrite lookup_insert_ne by done. naive_solver.
    + intros b t. destruct (decide (b = a)) as [->|Hb]; [rewrite lookup_insert_eq; intros [= <-]; eauto|rewrite lookup_insert_ne by done; apply H6].
    + unfold a. lia.
    + intros b Hb. destruct (H10 b ltac:(unfold a in *; lia)) as (? & ? & ?). by rewrite lookup_insert_ne by (unfold a; lia).
  - intros b t Hb q Hq. cbn in Hb. destruct (decide (b = a)) as [->|Hne].
    + rewrite lookup_insert_eq in Hb. injection Hb as <-. injection Hq as <-. cbn [jd_calls upd_tlinks upd_trackers upd_next]. by rewrite N1.
    + rewrite lookup_insert_ne in Hb by done. by apply (HI b t).
  - intros c s b t q Hc Hb Hs. cbn in Hc, Hb. destruct (decide (b = a)) as [->|Hne].
    + rewrite lookup_insert_eq in Hb. injection Hb as <-. cbn. intros [= ->]. by apply (N2 c s).
    + rewrite lookup_insert_ne in Hb by done. by apply (HA c s b t).
  - done.
Qed.

(** The state of a tracker changed, not its peer. *)
Lemma tracker_set_ok ps ts d a t u :
  jd_ok ps ts d -> jd_trackers d !! a = Some t -> jt_peer u = jt_peer t -> jd_ok ps ts (upd_trackers <[a := u]> d).
Proof.
  intros [H1 H2 H3 H4 H5 H6 H7 H8 H9 H10] Ht Hu. split; try done; cbn.
  - intros b. rewrite H5. destruct (decide (b = a)) as [->|Hb]; [|by rewrite lookup_insert_ne]. rewrite lookup_insert_eq, Ht. split; eauto.
  - intros b x. destruct (decide (b = a)) as [->|Hb]; [|rewrite lookup_insert_ne by done; apply H6].
    rewrite lookup_insert_eq. intros [= <-]. rewrite Hu. by apply (H6 a t).
  - intros b Hb. destruct (H10 b Hb) as (? & ? & ?). by rewrite lookup_insert_ne by congruence.
Qed.

Lemma tracker_at_ok d a t : jd_trackers d !! a = Some t -> tracker_at a d = Ok (t, d).
Proof. unfold tracker_at, bind, get, deref. by intros ->. Qed.

Lemma tracker_ready_ok ps ts d a t :
  jd_inv ps ts d -> jd_trackers d !! a = Some t ->
  exists d', jdwp_tracker_ready a d = Ok (tt, d') /\ jd_inv ps ts d' /\ exists u, jd_trackers d' !! a = Some u /\ jt_peer u = jt_peer t /\ jt_need_update u = false.
Proof.
  intros [H HI HA HS] Ht. destruct (ok_peers _ _ _ H _ _ Ht) as [peer Hp]. unfold jdwp_tracker_ready. rewrite (bind_ok _ _ _ _ _ (tracker_at_ok _ _ _ Ht)).
  destruct (jt_need_update t) eqn:En; [|exists d; split_and!; [done|done|by exists t]].
  set (u := mkTracker (jt_peer t) false). unfold bind at 1, modify at 1. set (d1 := upd_trackers _ _).
  assert (jd_ok ps ts d1) as H1 by (by eapply tracker_set_ok). rewrite (bind_ok _ _ _ _ _ (process_list_msg_ok _ _ _ MAX_PAYLOAD H1)).
  change (MAX_PAYLOAD - 4) with 4092. rewrite Hp. cbn [deref]. eexists. split; [reflexivity|]. split; [split|].
  - by apply jd_ok_calls.
  - intros b x Hb q Hq. cbn [jd_trackers upd_calls d1 upd_trackers] in Hb. cbn [jd_calls upd_calls d1 upd_trackers]. rewrite enqueued_app. cbn [enqueued omap list_omap].
    destruct (peer =? q) eqn:E; bools.
    + rewrite last_snoc. split; [by intros _ [_ ?]%app_eq_nil|]. intros m [= <-]. by right.
    + rewrite app_nil_r. destruct (decide (b = a)) as [->|Hne]; [|rewrite lookup_insert_ne in Hb by done; by apply (HI b x)].
      rewrite lookup_insert_eq in Hb. injection Hb as <-. cbn in Hq. congruence.
  - intros c s b x q Hc Hb Hs. cbn in Hc, Hb. destruct (decide (b = a)) as [->|Hne].
    + rewrite lookup_insert_eq in Hb. injection Hb as <-. cbn. by apply (HA c s a t).
    + rewrite lookup_insert_ne in Hb by done. by apply (HA c s b x).
  - done.
  - exists u. split_and!; [cbn; apply lookup_insert_eq|done|done].
Qed.

Lemma tracker_close_ok ps ts d a t :
  jd_inv ps ts d -> jd_trackers d !! a = Some t ->
  exists ts' d', jdwp_tracker_close a d = Ok (tt, d') /\ jd_inv ps ts' d' /\ jd_trackers d' = delete a (jd_trackers d).
Proof.
  intros [H HI HA HS] Ht. destruct (ok_peers _ _ _ H _ _ Ht) as [peer Hp]. unfold jdwp_tracker_close.
  rewrite (bind_ok _ _ _ _ _ (tracker_at_ok _ _ _ Ht)), Hp. unfold call. unfold bind at 1, modify at 1, bind at 1, modify at 1.
  assert (a ∈ ts) as (ts1 & ts2 & ->)%list_elem_of_split by (apply (ok_trackers _ _ _ H); eauto).
  set (d2 := upd_calls _ (upd_calls _ d)).
  destruct (unlink_ok jd_tlinks upd_tlinks (fun _ _ => eq_refl) d2 ts1 a ts2 (ok_tring _ _ _ H)) as (n & q & Eu & R). rewrite (bind_ok _ _ _ _ _ Eu).
  exists (ts1 ++ ts2). eexists. split; [reflexivity|]. split; [split|done].
  - pose proof (ok_tring _ _ _ H) as [Hnd _]. apply list.NoDup_cons in Hnd as [_ Hnd].
    apply list.NoDup_app in Hnd as (_ & N1 & N2). apply list.NoDup_cons in N2 as [N2 _].
    destruct H as [H1 H2 H3 H4 H5 H6 H7 H8 H9 H10]. split; cbn; try done.
    + intros b. pose proof (H5 b) as Hb. rewrite elem_of_app, elem_of_cons in Hb. rewrite elem_of_app.
      destruct (decide (b = a)) as [->|Hba].
      * rewrite lookup_delete_eq. split; [|by intros [? ?]]. intros [Hin|Hin]; [by destruct (N1 a Hin); left|done].
      * rewrite lookup_delete_ne by done. rewrite <- Hb. naive_solver.
    + intros b x Hx. apply lookup_delete_Some in Hx as [Hb Hx]. by apply (H6 b x).
    + intros b Hb. destruct (H10 b Hb) as (X1 & X2 & X3). by rewrite lookup_delete_ne by congruence.
  - intros b x Hb p Hp'. cbn [jd_trackers upd_calls upd_trackers upd_tlinks d2] in Hb. apply lookup_delete_Some in Hb as [_ Hb].
    cbn [jd_calls upd_calls upd_trackers upd_tlinks d2]. rewrite !enqueued_app. cbn [enqueued omap list_omap]. rewrite !app_nil_r. by apply (HI b x).
  - intros c s b x p Hc Hb Hs. cbn in Hc, Hb. apply lookup_delete_Some in Hb as [_ Hb]. by apply (HA c s b x).
  - done.
Qed.

(** Calls that give nobody a message, and one that gives a message to somebody else. *)
Lemma calls_inv ps ts d cs :
  jd_inv ps ts d -> (forall a t peer, jd_trackers d !! a = Some t -> jt_peer t = Some peer -> enqueued peer cs = []) ->
  jd_inv ps ts (upd_calls (fun l => l ++ cs) d).
Proof. intros [H HI HA HS] Hc. split; [by apply jd_ok_calls|by apply informed_calls|done|done]. Qed.

Lemma tracker_enqueue_ok ps ts d a t :
  jd_inv ps ts d -> jd_trackers d !! a = Some t -> exists r d', jdwp_tracker_enqueue a d = Ok (r, d') /\ jd_inv ps ts d'.
Proof.
  intros H Ht. destruct (ok_peers _ _ _ (inv_ok _ _ _ H) _ _ Ht) as [peer Hp]. unfold jdwp_tracker_enqueue.
  rewrite (bind_ok _ _ _ _ _ (tracker_at_ok _ _ _ Ht)), Hp. eexists _, _. split; [reflexivity|]. by apply calls_inv.
Qed.

(** ** The list asked for once *)

Definition open_service (peer : Z) : J Z := a <- create_jdwp_service_socket ;; connect_listing a peer ;; ret a.

Lemma open_service_ok ps ts d peer :
  jd_inv ps ts d -> new_peer d peer ->
  exists a d', open_service peer d = Ok (a, d') /\ jd_inv ps ts d' /\ jd_sockets d' !! a = Some (mkJsocket (Some peer) false).
Proof.
  intros [H HI HA HS] (N1 & N2 & N3). set (a := jd_next d).
  exists a, (upd_sockets <[a := mkJsocket (Some peer) false]> (upd_next (fun a => a + 1) d)). split_and!.
  - unfold open_service. erewrite bind_ok by reflexivity. fold a. unfold connect_listing, jsocket_at, bind, get, deref, modify, ret.
    cbn [jd_sockets upd_sockets upd_next]. rewrite lookup_insert_eq. cbn [js_pass]. do 2 f_equal. destruct d.
    unfold upd_sockets, upd_next. cbn. by rewrite insert_insert_eq.
  - split.
    + destruct H as [H1 H2 H3 H4 H5 H6 H7 H8 H9 H10]. split; try done; cbn; [lia|]. intros b Hb. apply H10. lia.
    + done.
    + intros c s b t q Hc Hb Hs. cbn in Hc, Hb. destruct (decide (c = a)) as [->|Hne].
      * rewrite lookup_insert_eq in Hc. injection Hc as <-. injection Hs as <-. by apply (N3 b t).
      * rewrite lookup_insert_ne in Hc by done. by apply (HA c s b t).
    + intros c s Hc. cbn in Hc. apply lookup_insert_Some in Hc as [[_ <-]|[_ Hc]]; [eauto|by apply (HS c)].
  - cbn. apply lookup_insert_eq.
Qed.

Lemma jsocket_at_ok d a s : jd_sockets d !! a = Some s -> jsocket_at a d = Ok (s, d).
Proof. unfold jsocket_at, bind, get, deref. by intros ->. Qed.

(** Sockets that go away or keep their peers. *)
Lemma sockets_inv ps ts d m :
  jd_inv ps ts d -> (forall a s, m !! a = Some s -> exists s', jd_sockets d !! a = Some s' /\ js_peer s = js_peer s') ->
  jd_inv ps ts (upd_sockets (fun _ => m) d).
Proof.
  intros [H HI HA HS] Hm. split; [destruct H; by split|done| |].
  - intros c s b t q Hc Hb Hs. cbn in Hc, Hb. destruct (Hm c s Hc) as (s' & Hc' & Hq). apply (HA c s' b t q); congruence.
  - intros c s Hc. cbn in Hc. destruct (Hm c s Hc) as (s' & Hc' & ->). by apply (HS c).
Qed.

Lemma service_ready_ok ps ts d a s :
  jd_inv ps ts d -> jd_sockets d !! a = Some s -> exists d', jdwp_socket_ready a d = Ok (tt, d') /\ jd_inv ps ts d'.
Proof.
  intros H Hs. destruct (inv_served _ _ _ H _ _ Hs) as [peer Hp]. unfold jdwp_socket_ready. rewrite (bind_ok _ _ _ _ _ (jsocket_at_ok _ _ _ Hs)), Hp.
  erewrite (bind_ok (deref (Some peer))) by reflexivity. destruct (js_pass s); [eexists; split; [reflexivity|by apply calls_inv]|].
  rewrite (bind_ok _ _ _ _ _ (process_list_ok _ _ _ MAX_PAYLOAD (inv_ok _ _ _ H))). eexists. split; [reflexivity|].
  match goal with |- jd_inv _ _ (upd_sockets ?f ?d1) => change (jd_inv ps ts (upd_sockets (fun _ => f (jd_sockets d1)) d1)) end.
  apply sockets_inv.
  - apply calls_inv; [done|]. intros b t q Hb Hq. cbn. destruct (peer =? q) eqn:E; bools; [|done]. exfalso. by apply (inv_apart _ _ _ H a s b t q); congruence.
  - cbn. intros b x [[<- <-]|[_ Hx]]%lookup_insert_Some; [by exists s|by exists x].
Qed.

Lemma service_enqueue_ok ps ts d a s :
  jd_inv ps ts d -> jd_sockets d !! a = Some s -> exists r d', jdwp_socket_enqueue a d = Ok (r, d') /\ jd_inv ps ts d'.
Proof.
  intros H Hs. destruct (inv_served _ _ _ H _ _ Hs) as [peer Hp]. unfold jdwp_socket_enqueue.
  rewrite (bind_ok _ _ _ _ _ (jsocket_at_ok _ _ _ Hs)), Hp. eexists _, _. split; [reflexivity|by apply calls_inv].
Qed.

Lemma service_close_ok ps ts d a s :
  jd_inv ps ts d -> jd_sockets d !! a = Some s -> exists d', jdwp_socket_close a d = Ok (tt, d') /\ jd_inv ps ts d'.
Proof.
  intros H Hs. destruct (inv_served _ _ _ H _ _ Hs) as [peer Hp]. unfold jdwp_socket_close.
  rewrite (bind_ok _ _ _ _ _ (jsocket_at_ok _ _ _ Hs)), Hp. eexists. split; [reflexivity|].
  match goal with |- jd_inv _ _ (upd_sockets ?f ?d1) => change (jd_inv ps ts (upd_sockets (fun _ => f (jd_sockets d1)) d1)) end.
  apply sockets_inv; [by do 2 (apply calls_inv; [|done])|]. cbn. intros b x [_ Hx]%lookup_delete_Some. by exists x.
Qed.
