(* ===== verification/JdwpTrace.v ===== *)
(** * What the JDWP services promise

    From the start of the daemon, in every order of connections, data, debuggers and
    trackers: the services run without error and every tracker that was answered
    has been told the present list.  A debugger that asks for a process number gets a
    connection whose other end is passed to that process. *)

From S2P Require Import Prelude Ring Io Wire FdEvent EventMap Jdwp JdwpFacts JdwpRun.

(** ** Events *)

(** The kernel's answers come with the events. *)
Inductive jevent :=
| EvProcess (a events : Z) (i : rdfd) (answers : list (option errno))
| EvControl (events : Z) (answers : list (errno + Z))
| EvDebugger (pid : Z) (fds : option (Z * Z))
| EvTrack (peer : Z)
| EvTrackReady (a : Z)
| EvTrackData (a : Z)
| EvTrackClose (a : Z)
| EvList (peer : Z)
| EvListReady (a : Z)
| EvListData (a : Z)
| EvListClose (a : Z).

Definition process_step (a events : Z) (i : rdfd) (answers : list (option errno)) : J unit :=
  p <- proc_at a ;;
  modify (fun d => upd_sendmsg (fun _ => answers) (upd_recv <[j_socket p := i]> d)) ;;
  jdwp_process_event (j_socket p) events a.

Definition run_jevent (e : jevent) : J unit :=
  match e with
  | EvProcess a events i answers => process_step a events i answers
  | EvControl events answers => modify (upd_accept (fun _ => answers)) ;; jdwp_control_event events
  | EvDebugger pid fds => modify (upd_pairs (fun _ => [fds])) ;; _ <- create_jdwp_connection_fd pid ;; ret tt
  | EvTrack peer => _ <- open_tracker peer ;; ret tt
  | EvTrackReady a => jdwp_tracker_ready a
  | EvTrackData a => _ <- jdwp_tracker_enqueue a ;; ret tt
  | EvTrackClose a => jdwp_tracker_close a
  | EvList peer => _ <- open_service peer ;; ret tt
  | EvListReady a => jdwp_socket_ready a
  | EvListData a => _ <- jdwp_socket_enqueue a ;; ret tt
  | EvListClose a => jdwp_socket_close a
  end.

Fixpoint run_jevents (es : list jevent) : J unit :=
  match es with
  | [] => ret tt
  | e :: es => run_jevent e ;; run_jevents es
  end.

(** Events come for what exists; accepted connections have new descriptors, and each
    service has a socket of its own. *)
Definition jlegal (d : jdwp) (e : jevent) : Prop :=
  match e with
  | EvProcess a _ _ _ => is_Some (jd_procs d !! a)
  | EvControl _ answers => Forall (fun r => match r with inr s => free_fd d s | inl _ => True end) answers
  | EvDebugger _ _ => True
  | EvTrack peer | EvList peer => new_peer d peer
  | EvTrackReady a | EvTrackData a | EvTrackClose a => is_Some (jd_trackers d !! a)
  | EvListReady a | EvListData a | EvListClose a => is_Some (jd_sockets d !! a)
  end.

Fixpoint jlegal_trace (d : jdwp) (es : list jevent) : Prop :=
  match es with
  | [] => True
  | e :: es => jlegal d e /\ match run_jevent e d with Ok (_, d') => jlegal_trace d' es | Err _ => True end
  end.

Lemma jd_inv_frame ps ps' ts d d' :
  jd_inv ps ts d -> jd_ok ps' ts d' -> informed ps' d' -> jd_sockets d' = jd_sockets d -> jd_trackers d' = jd_trackers d -> jd_inv ps' ts d'.
Proof. intros [_ _ HA HS] H HI Es Et. split; [done|done| |by rewrite Es]. unfold apart. by rewrite Es, Et. Qed.

Lemma run_jevent_ok ps ts d e :
  jd_inv ps ts d -> jlegal d e -> exists ps' ts' d', run_jevent e d = Ok (tt, d') /\ jd_inv ps' ts' d'.
Proof.
  intros H Hl. pose proof H as [Hk HI HA HS]. destruct e; cbn [run_jevent jlegal] in *; lazymatch type of Hl with is_Some _ => destruct Hl as [x Hx] | _ => idtac end.
  - unfold process_step. rewrite (bind_ok _ _ _ _ _ (proc_at_ok _ _ _ Hx)). unfold bind, modify. set (d1 := upd_sendmsg _ _).
    assert (jd_ok ps ts d1) as H1 by (destruct Hk; by split).
    destruct (process_event_ok ps ts d1 a x events (j_socket x) H1 HI Hx) as (ps' & d' & -> & ? & ? & ? & ?). exists ps', ts, d'.
    split; [done|]. by eapply jd_inv_frame.
  - unfold bind, modify, jdwp_control_event. set (d1 := upd_accept _ d). assert (jd_inv ps ts d1) as H1 by (split; try done; destruct Hk; by split).
    destruct (hasbit events FDE_READ); [|by exists ps, ts, d1].
    destruct (accept_loop_ok ts answers ps d1 (inv_ok _ _ _ H1) HI Hl) as (ps' & d' & E & ? & ? & ? & ?). exists ps', ts, d'.
    split; [exact E|]. by eapply jd_inv_frame.
  - unfold bind at 1, modify. set (d1 := upd_pairs _ d). assert (jd_ok ps ts d1) as H1 by (destruct Hk; by split).
    destruct (connection_fd_ok ps ts d1 pid H1 HI) as (r & d' & E & ? & ? & ? & ?). rewrite (bind_ok _ _ _ _ _ E).
    exists ps, ts, d'. split; [done|]. by eapply jd_inv_frame.
  - destruct (open_tracker_ok ps ts d peer H Hl) as (a & d' & E & ? & _). rewrite (bind_ok _ _ _ _ _ E). by eexists _, _, _.
  - destruct (tracker_ready_ok ps ts d a x H Hx) as (d' & -> & ? & _). by eexists _, _, _.
  - destruct (tracker_enqueue_ok ps ts d a x H Hx) as (r & d' & E & ?). rewrite (bind_ok _ _ _ _ _ E). by eexists _, _, _.
  - destruct (tracker_close_ok ps ts d a x H Hx) as (ts' & d' & -> & ? & _). by eexists _, _, _.
  - destruct (open_service_ok ps ts d peer H Hl) as (a & d' & E & ? & _). rewrite (bind_ok _ _ _ _ _ E). by eexists _, _, _.
  - destruct (service_ready_ok ps ts d a x H Hx) as (d' & -> & ?). by eexists _, _, _.
  - destruct (service_enqueue_ok ps ts d a x H Hx) as (r & d' & E & ?). rewrite (bind_ok _ _ _ _ _ E). by eexists _, _, _.
  - destruct (service_close_ok ps ts d a x H Hx) as (d' & -> & ?). by eexists _, _, _.
Qed.

Lemma run_jevents_ok : forall es ps ts d,
  jd_inv ps ts d -> jlegal_trace d es -> exists ps' ts' d', run_jevents es d = Ok (tt, d') /\ jd_inv ps' ts' d'.
Proof.
  induction es as [|e es IH]; intros ps ts d H Hl; [by eexists _, _, _|]. destruct Hl as [Hl Hr].
  destruct (run_jevent_ok ps ts d e H Hl) as (ps1 & ts1 & d1 & E & H1). rewrite E in Hr. cbn [run_jevents]. rewrite (bind_ok _ _ _ _ _ E). by eapply IH.
Qed.

(** ** Startup *)

Definition jdwp0 : jdwp := mkJdwp ∅ ∅ ∅ ∅ ∅ fd_start 2 ∅ [] [] [] [] [].

Lemma init_ok s :
  0 <= s < FD_SETSIZE -> exists d, init_jdwp (Some s) true true 1 jdwp0 = Ok (0, d) /\ jd_inv [] [] d.
Proof.
  intros Hs. destruct (create_run fd_start 1 s jdwp_control_event_p 1) as (s1 & E1 & I1 & F1 & C1); [apply fd_start_inv|done|done| |].
  { intros b. unfold fdmap. cbn. by rewrite omap_empty, lookup_empty. }
  assert (fdes s1 !! 1 = Some (created_fde s jdwp_control_event_p 1)) as L1 by (by rewrite F1, lookup_insert_eq).
  edestruct (fdevent_set_ok s1 1 _ (Z.lor (Z.land (fde_state (created_fde s jdwp_control_event_p 1)) FDE_EVENTMASK) (Z.land FDE_READ FDE_EVENTMASK)) I1 L1)
    as (s2 & E2 & I2 & F2 & _ & C2); [done|].
  assert (fdevent_add 1 FDE_READ s1 = Ok (tt, s2)) as Ea.
  { unfold fdevent_add. rewrite (bind_ok _ _ _ _ _ (fde_at_ok _ _ _ L1)). exact E2. }
  unfold init_jdwp. unfold bind at 1, modify at 1, bind at 1, modify at 1. unfold jdwp_control_init. change ((SUN_PATH <=? length JDWP_CONTROL_NAME)%nat) with false. cbn [negb]. erewrite bind_ok by (apply j_fde_ok; exact E1).
  erewrite bind_ok by (apply j_fde_ok; exact Ea). eexists. split; [reflexivity|]. split; [|done|done|done]. split; cbn; try done.
  - split; [|done]. apply list.NoDup_cons. split; [set_solver|apply NoDup_nil_2].
  - intros a. rewrite lookup_empty. split; [set_solver|by intros [? ?]].
  - split; [|done]. apply list.NoDup_cons. split; [set_solver|apply NoDup_nil_2].
  - intros a. rewrite lookup_empty. split; [set_solver|by intros [? ?]].
  - by rewrite C2, C1.
  - intros a Ha. split_and!; [done|done|]. rewrite F2, F1, !lookup_insert_ne by lia. done.
Qed.

(** C25: after the start of the service and any sequence of events (connections of
    processes, data from them in any pieces, failures of the kernel's calls, debuggers,
    trackers and requests for the list), no call fails, the lists and the event table
    are consistent, every process has at most four descriptors waiting, and every
    tracker that has been answered was last told the present list of process
    numbers. *)
Theorem jdwp_trackers_up_to_date s es d0 :
  0 <= s < FD_SETSIZE -> init_jdwp (Some s) true true 1 jdwp0 = Ok (0, d0) -> jlegal_trace d0 es ->
  exists ps ts d, run_jevents es d0 = Ok (tt, d) /\ jd_ok ps ts d /\
    forall a t, jd_trackers d !! a = Some t ->
      exists peer, jt_peer t = Some peer /\
        (jt_need_update t = false -> exists m, list.last (enqueued peer (jd_calls d)) = Some m /\ current ps d m).
Proof.
  intros Hs E Hl. destruct (init_ok s Hs) as (d1 & E1 & H1). rewrite E1 in E. injection E as <-.
  destruct (run_jevents_ok es [] [] d1 H1 Hl) as (ps & ts & d & E & [H HI _ _]). exists ps, ts, d. split_and!; [done|done|].
  intros a t Ht. destruct (ok_peers _ _ _ H _ _ Ht) as [peer Hp]. exists peer. split; [done|]. intros Hn.
  destruct (HI a t Ht peer Hp) as [G1 G2]. specialize (G1 Hn). destruct (list.last (enqueued peer (jd_calls d))) as [m|] eqn:El; [eauto|].
  by apply last_None in El.
Qed.

(** ** A debugger and its process *)

(** The number of the process [a], read completely. *)
Lemma announce_ok ps ts d a p temp pid :
  jd_ok ps ts d -> jd_procs d !! a = Some p -> j_pid p < 0 -> j_in p = [] ->
  rd_data (input (j_socket p) d) = temp -> Forall benign (rd_script (input (j_socket p) d)) -> length temp = 4%nat -> sscanf_x temp = Some pid ->
  exists d', jdwp_process_event (j_socket p) FDE_READ a d = Ok (tt, d') /\ jd_ok ps ts d' /\ informed ps d' /\
    jd_procs d' = <[a := mkProc pid (j_socket p) temp (j_out p)]> (jd_procs d) /\ jd_closed d' = jd_closed d.
Proof.
  intros H Hp Hneg Hin Hd Hb Hl Hx. destruct (ok_proc _ _ _ H _ _ Hp) as (_ & Hl4 & Ho).
  destruct (read_pid_ok (j_socket p) a (recv_fuel (j_socket p) d) d p Hp) as (r & l & i & E & G1 & G2 & G3 & G4);
    [unfold recv_fuel, pending, input; lia|done|].
  assert (r = Some true) as -> by (apply G4; [done|rewrite Hin, Hd, Hl; cbn; lia]). specialize (G2 eq_refl). rewrite Hin in *. cbn in G2.
  assert (l = temp) as ->.
  { rewrite Hd in G3. assert (length temp = length l + length (rd_data (default (mkRd [] []) (i !! j_socket p))))%nat as Hc by (rewrite G3, length_app; done).
    rewrite G3. destruct (rd_data (default (mkRd [] []) (i !! j_socket p))); [by rewrite app_nil_r|cbn in Hc; lia]. }
  set (q := mkProc pid (j_socket p) temp (j_out p)).
  destruct (list_updated_ok ps ts (edited a q i d)) as (d3 & E3 & H3 & I3 & cs & ->); [by eapply edited_ok; rewrite ?Hl|].
  eexists. split_and!; [|exact H3|exact I3|done|done].
  assert (process_readable (j_socket p) a d = Ok (GoOn, upd_calls (fun l => l ++ cs) (edited a q i d))) as Er.
  { unfold process_readable. rewrite (bind_ok _ _ _ _ _ (proc_at_ok _ _ _ Hp)). unfold bind at 1, get at 1. rewrite (proj2 (Z.ltb_lt _ _) Hneg).
    rewrite (bind_ok _ _ _ _ _ E). erewrite bind_ok by (apply proc_at_ok; cbn; apply lookup_insert_eq).
    unfold grown at 1. cbn [j_in]. rewrite Hin. cbn [app]. rewrite Hx. unfold bind at 1, set_proc at 1, modify at 1. set (d2 := upd_procs _ _).
    assert (d2 = edited a q i d) as -> by (unfold d2, q, grown, edited, upd_procs, upd_recv; cbn; by rewrite insert_insert_eq, Hin).
    by rewrite (bind_ok _ _ _ _ _ E3). }
  unfold jdwp_process_event. change (hasbit FDE_READ FDE_READ) with true. change (hasbit FDE_READ FDE_WRITE) with false.
  by rewrite (bind_ok _ _ _ _ _ Er).
Qed.

(** The first process with the number. *)
Lemma find_pid_at ps ts d a p :
  jd_ok ps ts d -> jd_procs d !! a = Some p -> (forall b q, b <> a -> jd_procs d !! b = Some q -> j_pid q <> j_pid p) ->
  find_pid ps (j_pid p) d = Ok (Some a, d).
Proof.
  intros H Hp Hu. destruct (find_pid_ok (j_pid p) d ps ltac:(intros b; by apply (ok_procs _ _ _ H))) as ([b|] & -> & Ho).
  - destruct Ho as (q & Hq & E). destruct (decide (b = a)) as [->|Hb]; [done|]. by destruct (Hu b q Hb Hq).
  - rewrite list.Forall_forall in Ho. destruct (Ho p); [|done]. unfold listed. apply list_elem_of_omap. exists a.
    split; [apply (ok_procs _ _ _ H); eauto|done].
Qed.

Lemma debugger_ok ps ts d a p fd0 fd1 l :
  jd_ok ps ts d -> informed ps d -> jd_procs d !! a = Some p -> (forall b q, b <> a -> jd_procs d !! b = Some q -> j_pid q <> j_pid p) ->
  (length (j_out p) < MAX_OUT_FDS)%nat -> jd_pairs d = Some (fd0, fd1) :: l ->
  exists d', create_jdwp_connection_fd (j_pid p) d = Ok (fd0, d') /\ jd_ok ps ts d' /\ informed ps d' /\
    jd_procs d' = <[a := mkProc (j_pid p) (j_socket p) (j_in p) (j_out p ++ [fd1])]> (jd_procs d) /\ jd_closed d' = jd_closed d.
Proof.
  intros H HI Hp Hu Hm Hl. unfold create_jdwp_connection_fd. rewrite (bind_ok _ _ _ _ _ (members_ok _ _ _ (ok_ring _ _ _ H))).
  rewrite (bind_ok _ _ _ _ _ (find_pid_at ps ts d a p H Hp Hu)). rewrite (bind_ok _ _ _ _ _ (proc_at_ok _ _ _ Hp)).
  rewrite (proj2 (Nat.leb_gt _ _) Hm). unfold bind at 1, adb_socketpair, bind at 1, get at 1. rewrite Hl. unfold bind at 1, modify at 1, ret at 1.
  assert (jd_ok ps ts (upd_pairs (fun _ => l) d)) as H1 by (destruct H; by split).
  destruct (offer_fd_ok ps ts (upd_pairs (fun _ => l) d) a p fd1 H1 HI Hp Hm) as (d' & E' & H' & I' & _ & _ & _ & C' & P').
  unfold bind at 1 in E'. unfold bind at 1. cbn [set_proc modify] in *. rewrite (bind_ok _ _ _ _ _ E'). by eexists.
Qed.

Lemma send_fd_interrupted socket fd answers d :
  Forall (eq (Some EINTR)) answers -> send_fd answers socket fd d = Ok (true, upd_calls (fun c => c ++ [PassFd socket fd]) (upd_sendmsg (fun _ => []) d)).
Proof. induction answers as [|x answers IH]; intros HF; [done|]. apply list.Forall_cons in HF as [<- HF]. cbn [send_fd]. by rewrite decide_True, IH. Qed.

(** The only descriptor that waits is passed. *)
Lemma pass_ok ps ts d a p fd :
  jd_ok ps ts d -> jd_procs d !! a = Some p -> j_out p = [fd] -> Forall (eq (Some EINTR)) (jd_sendmsg d) ->
  exists d', jdwp_process_event (j_socket p) FDE_WRITE a d = Ok (tt, d') /\
    jd_procs d' = <[a := mkProc (j_pid p) (j_socket p) (j_in p) []]> (jd_procs d) /\ jd_closed d' = jd_closed d /\
    jd_calls d' = jd_calls d ++ [PassFd (j_socket p) fd].
Proof.
  intros H Hp Ho HF. destruct (ok_proc _ _ _ H _ _ Hp) as (Hown & _ & _).
  destruct (owned_del (jd_fde d) a (j_socket p) (ok_events _ _ _ H) Hown) as (s' & Es & _).
  unfold jdwp_process_event. change (hasbit FDE_WRITE FDE_READ) with false. change (hasbit FDE_WRITE FDE_WRITE) with true.
  erewrite bind_ok by reflexivity.
  assert (exists d', process_writable a d = Ok (false, d') /\
    jd_procs d' = <[a := mkProc (j_pid p) (j_socket p) (j_in p) []]> (jd_procs d) /\ jd_closed d' = jd_closed d /\
    jd_calls d' = jd_calls d ++ [PassFd (j_socket p) fd]) as (d' & E & G); [|rewrite (bind_ok _ _ _ _ _ E); by exists d'].
  unfold process_writable. rewrite (bind_ok _ _ _ _ _ (proc_at_ok _ _ _ Hp)), Ho. unfold bind at 1, get at 1.
  rewrite (bind_ok _ _ _ _ _ (send_fd_interrupted _ _ _ _ HF)). cbn [negb]. unfold bind at 1, set_proc at 1, modify at 1.
  rewrite bool_decide_true by done. cbn [when]. erewrite bind_ok by (apply j_fde_ok; exact Es). by eexists.
Qed.

Lemma process_step_run a p events i answers d :
  jd_procs d !! a = Some p ->
  process_step a events i answers d = jdwp_process_event (j_socket p) events a (upd_sendmsg (fun _ => answers) (upd_recv <[j_socket p := i]> d)).
Proof. intros Hp. unfold process_step. by rewrite (bind_ok _ _ _ _ _ (proc_at_ok _ _ _ Hp)). Qed.

(** A process sends its number, a debugger asks for it, the process is ready for a
    message. *)
Definition debug_session (a : Z) (i : rdfd) (pid fd0 fd1 : Z) (answers : list (option errno)) : J Z :=
  process_step a FDE_READ i [] ;;
  modify (upd_pairs (fun _ => [Some (fd0, fd1)])) ;;
  fd <- create_jdwp_connection_fd pid ;;
  process_step a FDE_WRITE (mkRd [] []) answers ;;
  ret fd.

(** A process that has connected sends four characters that spell the number
    [pid], in any pieces and with interrupted calls; then a debugger that asks for
    [pid] gets one end of a pair of sockets, and the other end is passed to that
    process, when no other process has the same number.  The daemon never closes the
    end it has passed. *)
Theorem debugger_reaches_process ps ts d a p i temp pid fd0 fd1 answers :
  jd_inv ps ts d -> jd_procs d !! a = Some p -> j_pid p < 0 -> j_in p = [] -> j_out p = [] ->
  rd_data i = temp -> Forall benign (rd_script i) -> length temp = 4%nat -> sscanf_x temp = Some pid ->
  (forall b q, b <> a -> jd_procs d !! b = Some q -> j_pid q <> pid) -> Forall (eq (Some EINTR)) answers ->
  exists d', debug_session a i pid fd0 fd1 answers d = Ok (fd0, d') /\
    list.last (jd_calls d') = Some (PassFd (j_socket p) fd1) /\ jd_closed d' = jd_closed d /\
    jd_procs d' !! a = Some (mkProc pid (j_socket p) temp []).
Proof.
  intros [H HI _ _] Hp Hneg Hin Hout Hd Hb Hl Hx Hu HF. unfold debug_session.
  set (d1 := upd_sendmsg (fun _ => []) (upd_recv <[j_socket p := i]> d)). assert (jd_ok ps ts d1) as H1 by (destruct H; by split).
  assert (input (j_socket p) d1 = i) as Hi by (unfold input; cbn; by rewrite lookup_insert_eq).
  destruct (announce_ok ps ts d1 a p temp pid H1 Hp Hneg Hin) as (d2 & E2 & H2 & I2 & P2 & C2); rewrite ?Hi; [done..|].
  erewrite bind_ok by (rewrite (process_step_run a p) by done; exact E2). unfold bind at 1, modify at 1.
  set (q := mkProc pid (j_socket p) temp (j_out p)) in *. set (d3 := upd_pairs _ d2). assert (jd_ok ps ts d3) as H3 by (destruct H2; by split).
  assert (jd_procs d3 !! a = Some q) as Hq by (unfold d3; cbn; by rewrite P2, lookup_insert_eq).
  destruct (debugger_ok ps ts d3 a q fd0 fd1 [] H3 I2 Hq) as (d4 & E4 & H4 & I4 & P4 & C4); [|by cbn; rewrite Hout; unfold MAX_OUT_FDS; cbn; lia|done|].
  { intros b x Hne Hbx. unfold d3 in Hbx. cbn in Hbx. rewrite P2, lookup_insert_ne in Hbx by done. by apply (Hu b). }
  cbn [j_pid q] in E4. rewrite (bind_ok _ _ _ _ _ E4). cbn [j_out j_pid j_socket j_in q] in P4. rewrite Hout in P4. cbn [app] in P4.
  set (q4 := mkProc pid (j_socket p) temp [fd1]) in *. assert (jd_procs d4 !! a = Some q4) as Hq4 by (by rewrite P4, lookup_insert_eq).
  destruct (pass_ok ps ts (upd_sendmsg (fun _ => answers) (upd_recv <[j_socket q4 := mkRd [] []]> d4)) a q4 fd1) as (d5 & E5 & P5 & C5 & L5);
    [destruct H4; by split|done|done|done|].
  erewrite bind_ok by (rewrite (process_step_run a q4) by done; exact E5). exists d5. split_and!; [done| | |].
  - rewrite L5. apply last_snoc.
  - rewrite C5. cbn. rewrite C4. unfold d3. cbn. by rewrite C2.
  - by rewrite P5, lookup_insert_eq.
Qed.

(** ** Witnesses *)

Definition init_state : jdwp := match init_jdwp (Some 4) true true 1 jdwp0 with Ok (_, d) => d | Err _ => jdwp0 end.

Definition demo_events : list jevent :=
  [EvControl FDE_READ [inl EINTR; inr 5]; EvTrack 100; EvTrackReady 3;
   EvProcess 2 FDE_READ (mkRd (bs "01a2") [UpTo 1; IoErr EINTR]) []; EvDebugger 418 (Some (8, 9)); EvList 101; EvListReady 4;
   EvProcess 2 FDE_WRITE (mkRd [] []) [Some EINTR]; EvControl FDE_READ [inr 6]; EvProcess 5 FDE_READ (mkRd (bs "7") []) []; EvTrack 102; EvTrackReady 6; EvTrackClose 3].

Definition demo_state : jdwp := match run_jevents demo_events init_state with Ok (_, d) => d | Err _ => init_state end.

(** The conditions of a sequence, decided. *)
Definition free_fdb (d : jdwp) (fd : Z) : bool :=
  (0 <=? fd) && (fd <? FD_SETSIZE) && bool_decide (map_Forall (fun _ x => x <> fd) (fdmap (jd_fde d))).

Definition new_peerb (d : jdwp) (peer : Z) : bool :=
  bool_decide (enqueued peer (jd_calls d) = []) &&
  bool_decide (map_Forall (fun _ s => js_peer s <> Some peer) (jd_sockets d)) &&
  bool_decide (map_Forall (fun _ t => jt_peer t <> Some peer) (jd_trackers d)).

Definition jlegalb (d : jdwp) (e : jevent) : bool :=
  match e with
  | EvProcess a _ _ _ => bool_decide (is_Some (jd_procs d !! a))
  | EvControl _ answers => forallb (fun r => match r with inr s => free_fdb d s | inl _ => true end) answers
  | EvDebugger _ _ => true
  | EvTrack peer | EvList peer => new_peerb d peer
  | EvTrackReady a | EvTrackData a | EvTrackClose a => bool_decide (is_Some (jd_trackers d !! a))
  | EvListReady a | EvListData a | EvListClose a => bool_decide (is_Some (jd_sockets d !! a))
  end.

Fixpoint jlegal_traceb (d : jdwp) (es : list jevent) : bool :=
  match es with
  | [] => true
  | e :: es => jlegalb d e && match run_jevent e d with Ok (_, d') => jlegal_traceb d' es | Err _ => false end
  end.

Lemma free_fdb_ok d fd : free_fdb d fd = true -> free_fd d fd.
Proof.
  unfold free_fdb. intros [H2 H3]%andb_true_iff. apply andb_true_iff in H2 as [H1 H2]. apply bool_decide_eq_true in H3. bools.
  split; [done|]. intros b Hb. by apply (H3 b fd).
Qed.

Lemma new_peerb_ok d peer : new_peerb d peer = true -> new_peer d peer.
Proof.
  unfold new_peerb. rewrite !andb_true_iff, !bool_decide_eq_true. intros [[H1 H2] H3].
  split_and!; [done|intros a s; by apply H2|intros a t; by apply H3].
Qed.

Lemma jlegal_traceb_ok es : forall d, jlegal_traceb d es = true -> jlegal_trace d es.
Proof.
  induction es as [|e es IH]; intros d; [done|]. cbn [jlegal_traceb jlegal_trace]. intros [H1 H2]%andb_true_iff. split.
  - destruct e; cbn in *; try done; try (by apply bool_decide_eq_true in H1); try (by apply new_peerb_ok).
    apply list.Forall_forall. intros [?|s] Hs; [done|]. apply free_fdb_ok. rewrite forallb_forall in H1. apply (H1 (inr s)). by apply list_elem_of_In.
  - destruct (run_jevent e d) as [[[] d']|]; [by apply IH|done].
Qed.

Lemma jdwp_trackers_up_to_date_witness :
  (list.last (enqueued 100 (jd_calls demo_state)) = Some (bs "0004418" ++ [10]) /\ list.last (enqueued 101 (jd_calls demo_state)) = Some (bs "418" ++ [10])) /\
  exists ps ts d, run_jevents demo_events init_state = Ok (tt, d) /\ jd_ok ps ts d /\
    forall a t, jd_trackers d !! a = Some t ->
      exists peer, jt_peer t = Some peer /\
        (jt_need_update t = false -> exists m, list.last (enqueued peer (jd_calls d)) = Some m /\ current ps d m).
Proof.
  split; [by vm_compute|]. apply (jdwp_trackers_up_to_date 4 demo_events init_state); [unfold FD_SETSIZE; lia|by vm_compute|].
  apply jlegal_traceb_ok. by vm_compute.
Defined.

(** A process that has connected, and a tracker. *)
Definition one_process : jdwp :=
  match run_jevents [EvControl FDE_READ [inr 5]; EvTrack 100; EvTrackReady 3] init_state with Ok (_, d) => d | Err _ => init_state end.

Lemma one_process_inv : exists ps ts, jd_inv ps ts one_process.
Proof.
  destruct (init_ok 4) as (d & E & H); [unfold FD_SETSIZE; lia|].
  assert (d = init_state) as -> by (unfold init_state; by rewrite E).
  destruct (run_jevents_ok [EvControl FDE_READ [inr 5]; EvTrack 100; EvTrackReady 3] [] [] init_state H) as (ps & ts & d' & E' & H').
  { apply jlegal_traceb_ok. by vm_compute. }
  exists ps, ts. unfold one_process. by rewrite E'.
Qed.

Lemma debugger_reaches_process_witness :
  exists d', debug_session 2 (mkRd (bs "01a2") [UpTo 1; IoErr EINTR]) 418 8 9 [Some EINTR] one_process = Ok (8, d') /\
    list.last (jd_calls d') = Some (PassFd 5 9) /\ jd_closed d' = jd_closed one_process /\
    jd_procs d' !! 2 = Some (mkProc 418 5 (bs "01a2") []).
Proof.
  destruct one_process_inv as (ps & ts & H).
  apply (debugger_reaches_process ps ts one_process 2 (mkProc (-1) 5 [] []) (mkRd (bs "01a2") [UpTo 1; IoErr EINTR]) (bs "01a2") 418 8 9 [Some EINTR]).
  - exact H.
  - by vm_compute.
  - done.
  - done.
  - done.
  - done.
  - repeat constructor.
  - done.
  - by vm_compute.
  - assert (map_Forall (fun b q => b = 2 \/ j_pid q <> 418) (jd_procs one_process)) as Hm by (apply (bool_decide_unpack _); by vm_compute).
    intros b q Hb Hq. destruct (Hm b q Hq) as [E|E]; [by destruct (Hb E)|exact E].
  - repeat constructor.
Defined.
