(* ===== verification/RedBlack.v ===== *)
(** * Red-black trees

    The balanced trees of libinotifytools (redblack.c), as the code builds them:
    nodes in memory with left, right and up pointers, one sentinel node shared by
    all trees in place of null pointers, loops that move a pointer up and down,
    and rotations that assign pointers one by one.  The keys are pointers to the
    client's data; the comparison routine given to [rbinit] is an argument of the
    operations that call it. *)

From S2P Require Import Prelude.

(** ** Nodes and trees *)

Inductive nodecolour := BLACK | RED.

#[export] Instance nodecolour_eq_dec : EqDecision nodecolour.
Proof. solve_decision. Defined.

Record node := Node {
  n_left : Z;
  n_right : Z;
  n_up : Z;
  n_colour : nodecolour;
  n_key : Z;
}.

(** The address of the sentinel [rb_null]. *)
Definition RBNULL : Z := 1.

Definition rb_null : node := Node RBNULL RBNULL RBNULL BLACK 0.

(** Memory: the nodes, the [rb_root] of every [struct rbtree], the next address
    [malloc] gives out and the number of allocations it can still satisfy. *)
Record rbst := Rbst {
  rb_nodes : gmap Z node;
  rb_root : gmap Z Z;
  rb_next : Z;
  rb_mem : nat;
}.

Definition rb_empty (mem : nat) : rbst := Rbst {[ RBNULL := rb_null ]} ∅ 2 mem.

Definition put_nodes (m : gmap Z node) (s : rbst) : rbst :=
  Rbst m (rb_root s) (rb_next s) (rb_mem s).
Definition put_root (r v : Z) (s : rbst) : rbst :=
  Rbst (rb_nodes s) (<[r := v]> (rb_root s)) (rb_next s) (rb_mem s).

Definition rb_m := M rbst.

Definition node_at (p : Z) : rb_m node := s <- get ;; deref (rb_nodes s !! p).
Definition put_node (p : Z) (n : node) : rb_m unit :=
  modify (fun s => put_nodes (<[p := n]> (rb_nodes s)) s).
Definition root_at (r : Z) : rb_m Z := s <- get ;; deref (rb_root s !! r).
Definition set_root (r v : Z) : rb_m unit := modify (put_root r v).

Definition with_left (v : Z) (n : node) : node := Node v (n_right n) (n_up n) (n_colour n) (n_key n).
Definition with_right (v : Z) (n : node) : node := Node (n_left n) v (n_up n) (n_colour n) (n_key n).
Definition with_up (v : Z) (n : node) : node := Node (n_left n) (n_right n) v (n_colour n) (n_key n).
Definition with_colour (c : nodecolour) (n : node) : node := Node (n_left n) (n_right n) (n_up n) c (n_key n).
Definition with_key (k : Z) (n : node) : node := Node (n_left n) (n_right n) (n_up n) (n_colour n) k.

Definition upd (p : Z) (f : node -> node) : rb_m unit := n <- node_at p ;; put_node p (f n).

(** The fields of the node at [p], as the code reads them ([p->left] ...). *)
Definition left_of (p : Z) : rb_m Z := n <- node_at p ;; ret (n_left n).
Definition right_of (p : Z) : rb_m Z := n <- node_at p ;; ret (n_right n).
Definition up_of (p : Z) : rb_m Z := n <- node_at p ;; ret (n_up n).
Definition colour_of (p : Z) : rb_m nodecolour := n <- node_at p ;; ret (n_colour n).
Definition key_of (p : Z) : rb_m Z := n <- node_at p ;; ret (n_key n).

Definition is_red (c : nodecolour) : bool := match c with RED => true | BLACK => false end.

(** [malloc] of a node or of a tree; 0 is NULL. *)
Definition rb_alloc : rb_m Z :=
  fun s => match rb_mem s with
           | O => Ok (0, s)
           | S m => Ok (rb_next s, Rbst (rb_nodes s) (rb_root s) (rb_next s + 1) m)
           end.

(** [free]: what is not allocated must not be freed. *)
Definition rb_free (p : Z) : rb_m unit :=
  node_at p ;;
  modify (fun s => Rbst (delete p (rb_nodes s)) (rb_root s) (rb_next s) (S (rb_mem s))).

Definition rbinit : rb_m Z :=
  r <- rb_alloc ;;
  if r =? 0 then ret 0 else set_root r RBNULL ;; ret r.

(** ** Rotations *)

(** The pointer to [x] in its parent [u], or in the tree when [x] is the root,
    becomes a pointer to [y]. *)
Definition set_child (r u x y : Z) : rb_m unit :=
  if u =? RBNULL then set_root r y
  else
    ul <- left_of u ;;
    if x =? ul then upd u (with_left y) else upd u (with_right y).

Definition rb_left_rotate (r x : Z) : rb_m unit :=
  y <- right_of x ;;
  b <- left_of y ;;
  upd x (with_right b) ;;
  when (negb (b =? RBNULL)) (upd b (with_up x)) ;;
  u <- up_of x ;;
  upd y (with_up u) ;;
  set_child r u x y ;;
  upd y (with_left x) ;;
  upd x (with_up y).

Definition rb_right_rotate (r y : Z) : rb_m unit :=
  x <- left_of y ;;
  b <- right_of x ;;
  upd y (with_left b) ;;
  when (negb (b =? RBNULL)) (upd b (with_up y)) ;;
  u <- up_of y ;;
  upd x (with_up u) ;;
  set_child r u y x ;;
  upd x (with_right y) ;;
  upd y (with_up x).

(** ** Neighbours *)

(** [for (y = x; y->left != RBNULL; y = y->left);] and its mirror image. *)
Fixpoint leftmost (fuel : nat) (y : Z) : rb_m Z :=
  match fuel with
  | O => fail EFuel
  | S f => l <- left_of y ;; if l =? RBNULL then ret y else leftmost f l
  end.

Fixpoint rightmost (fuel : nat) (y : Z) : rb_m Z :=
  match fuel with
  | O => fail EFuel
  | S f => l <- right_of y ;; if l =? RBNULL then ret y else rightmost f l
  end.

(** [while (y != RBNULL && x == y->right) { x = y; y = y->up; }]. *)
Fixpoint climb_right (fuel : nat) (x y : Z) : rb_m Z :=
  match fuel with
  | O => fail EFuel
  | S f =>
      if y =? RBNULL then ret y
      else r <- right_of y ;;
           if x =? r then u <- up_of y ;; climb_right f y u else ret y
  end.

Fixpoint climb_left (fuel : nat) (x y : Z) : rb_m Z :=
  match fuel with
  | O => fail EFuel
  | S f =>
      if y =? RBNULL then ret y
      else l <- left_of y ;;
           if x =? l then u <- up_of y ;; climb_left f y u else ret y
  end.

Definition rb_successor (fuel : nat) (x : Z) : rb_m Z :=
  r <- right_of x ;;
  if negb (r =? RBNULL) then leftmost fuel r
  else u <- up_of x ;; climb_right fuel x u.

Definition rb_predecessor (fuel : nat) (x : Z) : rb_m Z :=
  l <- left_of x ;;
  if negb (l =? RBNULL) then rightmost fuel l
  else u <- up_of x ;; climb_left fuel x u.

(** ** Insertion *)

Section Compare.

(** [rb_cmp] with its [config] argument applied. *)
Context (rb_cmp : Z -> Z -> Z).

(** The first loop of [rb_traverse]: the final [x], its parent and [found]. *)
Fixpoint descend (fuel : nat) (key x y : Z) : rb_m (Z * Z * bool) :=
  match fuel with
  | O => fail EFuel
  | S f =>
      if x =? RBNULL then ret (x, y, false)
      else
        k <- key_of x ;;
        let cmp := rb_cmp key k in
        if cmp <? 0 then l <- left_of x ;; descend f key l x
        else if 0 <? cmp then r <- right_of x ;; descend f key r x
        else ret (x, x, true)
  end.

End Compare.

(** One turn of the second loop of [rb_traverse], which walks back up the tree:
    the node to consider next.  [p] is [x->up] and [g] is [x->up->up]; first the
    parent on the left side of the grandparent, then on the right side. *)
Definition insert_fix_left (r x p g : Z) : rb_m Z :=
  y <- right_of g ;;
  c <- colour_of y ;;
  if is_red c then
    upd p (with_colour BLACK) ;;
    upd y (with_colour BLACK) ;;
    upd g (with_colour RED) ;;
    ret g
  else
    pr <- right_of p ;;
    x <- (if x =? pr then rb_left_rotate r p ;; ret p else ret x) ;;
    p <- up_of x ;;
    upd p (with_colour BLACK) ;;
    g <- up_of p ;;
    upd g (with_colour RED) ;;
    rb_right_rotate r g ;;
    ret x.

Definition insert_fix_right (r x p g : Z) : rb_m Z :=
  y <- left_of g ;;
  c <- colour_of y ;;
  if is_red c then
    upd p (with_colour BLACK) ;;
    upd y (with_colour BLACK) ;;
    upd g (with_colour RED) ;;
    ret g
  else
    pl <- left_of p ;;
    x <- (if x =? pl then rb_right_rotate r p ;; ret p else ret x) ;;
    p <- up_of x ;;
    upd p (with_colour BLACK) ;;
    g <- up_of p ;;
    upd g (with_colour RED) ;;
    rb_left_rotate r g ;;
    ret x.

Definition insert_fix_step (r x p g : Z) : rb_m Z :=
  gl <- left_of g ;;
  if p =? gl then insert_fix_left r x p g else insert_fix_right r x p g.

Fixpoint insert_fix (fuel : nat) (r x : Z) : rb_m unit :=
  match fuel with
  | O => fail EFuel
  | S f =>
      root <- root_at r ;;
      if x =? root then ret tt
      else
        p <- up_of x ;;
        c <- colour_of p ;;
        if is_red c then
          g <- up_of p ;;
          x <- insert_fix_step r x p g ;;
          insert_fix f r x
        else ret tt
  end.

Section Operations.

Context (rb_cmp : Z -> Z -> Z).

(** A new red node below [y]. *)
Definition attach (r z key y : Z) : rb_m unit :=
  put_node z (Node 0 0 y BLACK key) ;;
  (if y =? RBNULL then set_root r z
   else
     yk <- key_of y ;;
     if rb_cmp key yk <? 0 then upd y (with_left z) else upd y (with_right z)) ;;
  upd z (with_left RBNULL) ;;
  upd z (with_right RBNULL) ;;
  upd z (with_colour RED).

Definition rb_traverse (fuel : nat) (insert : bool) (key r : Z) : rb_m Z :=
  root <- root_at r ;;
  d <- descend rb_cmp fuel key root RBNULL ;;
  let '(x, y, found) := d in
  if found || negb insert then ret x
  else
    z <- rb_alloc ;;
    if z =? 0 then ret RBNULL
    else
      attach r z key y ;;
      insert_fix fuel r z ;;
      root <- root_at r ;;
      upd root (with_colour BLACK) ;;
      ret z.

Definition rbsearch (fuel : nat) (key r : Z) : rb_m Z :=
  if r =? 0 then ret 0
  else
    x <- rb_traverse fuel true key r ;;
    if x =? RBNULL then ret 0 else key_of x.

Definition rbfind (fuel : nat) (key r : Z) : rb_m Z :=
  if r =? 0 then ret 0
  else
    root <- root_at r ;;
    if root =? RBNULL then ret 0
    else
      x <- rb_traverse fuel false key r ;;
      if x =? RBNULL then ret 0 else key_of x.

(** ** Deletion *)

(** One turn of the loop of [rb_delete_fix]; [p] is [x->up]. *)
Definition delete_fix_left (r x p : Z) : rb_m Z :=
  w <- right_of p ;;
  wc <- colour_of w ;;
  w <- (if is_red wc then
          upd w (with_colour BLACK) ;;
          upd p (with_colour RED) ;;
          rb_left_rotate r p ;;
          p <- up_of x ;;
          right_of p
        else ret w) ;;
  wl <- left_of w ;; wlc <- colour_of wl ;;
  wr <- right_of w ;; wrc <- colour_of wr ;;
  if negb (is_red wlc) && negb (is_red wrc) then
    upd w (with_colour RED) ;;
    up_of x
  else
    w <- (if negb (is_red wrc) then
            upd wl (with_colour BLACK) ;;
            upd w (with_colour RED) ;;
            rb_right_rotate r w ;;
            p <- up_of x ;;
            right_of p
          else ret w) ;;
    p <- up_of x ;;
    pc <- colour_of p ;;
    upd w (with_colour pc) ;;
    upd p (with_colour BLACK) ;;
    wr <- right_of w ;;
    upd wr (with_colour BLACK) ;;
    rb_left_rotate r p ;;
    root_at r.

Definition delete_fix_right (r x p : Z) : rb_m Z :=
  w <- left_of p ;;
  wc <- colour_of w ;;
  w <- (if is_red wc then
          upd w (with_colour BLACK) ;;
          upd p (with_colour RED) ;;
          rb_right_rotate r p ;;
          p <- up_of x ;;
          left_of p
        else ret w) ;;
  wr <- right_of w ;; wrc <- colour_of wr ;;
  wl <- left_of w ;; wlc <- colour_of wl ;;
  if negb (is_red wrc) && negb (is_red wlc) then
    upd w (with_colour RED) ;;
    up_of x
  else
    w <- (if negb (is_red wlc) then
            upd wr (with_colour BLACK) ;;
            upd w (with_colour RED) ;;
            rb_left_rotate r w ;;
            p <- up_of x ;;
            left_of p
          else ret w) ;;
    p <- up_of x ;;
    pc <- colour_of p ;;
    upd w (with_colour pc) ;;
    upd p (with_colour BLACK) ;;
    wl <- left_of w ;;
    upd wl (with_colour BLACK) ;;
    rb_right_rotate r p ;;
    root_at r.

Definition delete_fix_step (r x p : Z) : rb_m Z :=
  pl <- left_of p ;;
  if x =? pl then delete_fix_left r x p else delete_fix_right r x p.

Fixpoint delete_fix_loop (fuel : nat) (r x : Z) : rb_m Z :=
  match fuel with
  | O => fail EFuel
  | S f =>
      root <- root_at r ;;
      if x =? root then ret x
      else
        c <- colour_of x ;;
        if is_red c then ret x
        else
          p <- up_of x ;;
          x <- delete_fix_step r x p ;;
          delete_fix_loop f r x
  end.

Definition rb_delete_fix (fuel : nat) (r x : Z) : rb_m unit :=
  x <- delete_fix_loop fuel r x ;;
  upd x (with_colour BLACK).

(** Takes [y], which has at most one child, out of the tree: its child. *)
Definition splice (r y : Z) : rb_m Z :=
  yl <- left_of y ;;
  x <- (if negb (yl =? RBNULL) then ret yl else right_of y) ;;
  u <- up_of y ;;
  upd x (with_up u) ;;
  set_child r u y x ;;
  ret x.

Definition rb_delete (fuel : nat) (r z : Z) : rb_m unit :=
  zl <- left_of z ;;
  zr <- right_of z ;;
  y <- (if (zl =? RBNULL) || (zr =? RBNULL) then ret z else rb_successor fuel z) ;;
  x <- splice r y ;;
  when (negb (y =? z)) (k <- key_of y ;; upd z (with_key k)) ;;
  c <- colour_of y ;;
  when (negb (is_red c)) (rb_delete_fix fuel r x) ;;
  rb_free y.

Definition rbdelete (fuel : nat) (key r : Z) : rb_m Z :=
  if r =? 0 then ret 0
  else
    x <- rb_traverse fuel false key r ;;
    if x =? RBNULL then ret 0
    else
      y <- key_of x ;;
      rb_delete fuel r x ;;
      ret y.

End Operations.

(** ** Lookups relative to a key *)

Inductive lumode :=
| RB_LUEQUAL | RB_LUGTEQ | RB_LULTEQ | RB_LULESS | RB_LUGREAT
| RB_LUNEXT | RB_LUPREV | RB_LUFIRST | RB_LULAST.

#[export] Instance lumode_eq_dec : EqDecision lumode.
Proof. solve_decision. Defined.

(** [while (x != RBNULL) { y = x; x = x->left; }] and its mirror image. *)
Fixpoint go_left (fuel : nat) (x y : Z) : rb_m Z :=
  match fuel with
  | O => fail EFuel
  | S f => if x =? RBNULL then ret y else l <- left_of x ;; go_left f l x
  end.

Fixpoint go_right (fuel : nat) (x y : Z) : rb_m Z :=
  match fuel with
  | O => fail EFuel
  | S f => if x =? RBNULL then ret y else l <- right_of x ;; go_right f l x
  end.

(** The loop of [rb_lookup]: as [descend], with the last value of [cmp], which
    is not initialised before the loop. *)
Fixpoint descend_cmp (rb_cmp : Z -> Z -> Z) (fuel : nat) (key x y : Z) (cmp : option Z) :
    rb_m (Z * Z * bool * option Z) :=
  match fuel with
  | O => fail EFuel
  | S f =>
      if x =? RBNULL then ret (x, y, false, cmp)
      else
        k <- key_of x ;;
        let cmp := rb_cmp key k in
        if cmp <? 0 then l <- left_of x ;; descend_cmp rb_cmp f key l x (Some cmp)
        else if 0 <? cmp then r <- right_of x ;; descend_cmp rb_cmp f key r x (Some cmp)
        else ret (x, x, true, Some cmp)
  end.

Definition is_mode (m : lumode) (l : list lumode) : bool := bool_decide (m ∈ l).

Definition rb_lookup (rb_cmp : Z -> Z -> Z) (fuel : nat) (mode : lumode) (key r : Z) : rb_m Z :=
  x <- root_at r ;;
  if is_mode mode [RB_LUFIRST] then go_left fuel x RBNULL
  else if is_mode mode [RB_LULAST] then go_right fuel x RBNULL
  else
    d <- descend_cmp rb_cmp fuel key x RBNULL None ;;
    let '(x, y, found, cmp) := d in
    if found && is_mode mode [RB_LUEQUAL; RB_LUGTEQ; RB_LULTEQ] then ret x
    else if negb found && is_mode mode [RB_LUEQUAL; RB_LUNEXT; RB_LUPREV] then ret RBNULL
    else if is_mode mode [RB_LUGTEQ] || negb found && is_mode mode [RB_LUGREAT] then
      c <- deref cmp ;;
      if 0 <? c then rb_successor fuel y else ret y
    else if is_mode mode [RB_LULTEQ] || negb found && is_mode mode [RB_LULESS] then
      c <- deref cmp ;;
      if c <? 0 then rb_predecessor fuel y else ret y
    else if is_mode mode [RB_LUNEXT] || found && is_mode mode [RB_LUGREAT] then rb_successor fuel x
    else if is_mode mode [RB_LUPREV] || found && is_mode mode [RB_LULESS] then rb_predecessor fuel x
    else ret RBNULL.

(** The test [rbinfo->rb_root == NULL] never holds: an empty tree has [RBNULL]. *)
Definition rblookup (rb_cmp : Z -> Z -> Z) (fuel : nat) (mode : lumode) (key r : Z) : rb_m Z :=
  if r =? 0 then ret 0
  else
    root <- root_at r ;;
    if root =? 0 then ret 0
    else
      x <- rb_lookup rb_cmp fuel mode key r ;;
      if x =? RBNULL then ret 0 else key_of x.

(** ** Reading a tree in order *)

(** An [RBLIST] is represented by its [nextp], the next node to read; the null
    list, from which nothing can be read, by [RBNULL]. *)
Definition rbopenlist (fuel : nat) (r : Z) : rb_m Z :=
  if r =? 0 then ret RBNULL
  else
    root <- root_at r ;;
    if negb (root =? RBNULL) then leftmost fuel root else ret root.

Definition rbreadlist (fuel : nat) (nextp : Z) : rb_m (Z * Z) :=
  if negb (nextp =? RBNULL) then
    k <- key_of nextp ;;
    n <- rb_successor fuel nextp ;;
    ret (k, n)
  else ret (0, nextp).

(** ** Destroying a tree *)

Fixpoint rb_destroy (fuel : nat) (x : Z) : rb_m unit :=
  match fuel with
  | O => fail EFuel
  | S f =>
      if x =? RBNULL then ret tt
      else
        l <- left_of x ;;
        when (negb (l =? RBNULL)) (rb_destroy f l) ;;
        r <- right_of x ;;
        when (negb (r =? RBNULL)) (rb_destroy f r) ;;
        rb_free x
  end.

Definition rbdestroy (fuel : nat) (r : Z) : rb_m unit :=
  if r =? 0 then ret tt
  else
    root <- root_at r ;;
    when (negb (root =? RBNULL)) (rb_destroy fuel root) ;;
    modify (fun s => Rbst (rb_nodes s) (delete r (rb_root s)) (rb_next s) (S (rb_mem s))).

(** ** Walking a tree *)

Inductive visit := preorder | postorder | endorder | leaf.

(** [rb_walk] calls [action] on every node, between its subtrees, before and
    after them; the action belongs to the client, whose state [W] contains the
    trees. *)
Section Walk.

Context {W : Type} (on_tree : forall A, M rbst A -> M W A) (action : Z -> visit -> Z -> M W unit).

Fixpoint rb_walk (fuel : nat) (x : Z) (level : Z) : M W unit :=
  match fuel with
  | O => fail EFuel
  | S f =>
      if x =? RBNULL then ret tt
      else
        n <- on_tree _ (node_at x) ;;
        if (n_left n =? RBNULL) && (n_right n =? RBNULL) then action (n_key n) leaf level
        else
          action (n_key n) preorder level ;;
          l <- on_tree _ (left_of x) ;;
          rb_walk f l (level + 1) ;;
          k <- on_tree _ (key_of x) ;;
          action k postorder level ;;
          r <- on_tree _ (right_of x) ;;
          rb_walk f r (level + 1) ;;
          k <- on_tree _ (key_of x) ;;
          action k endorder level
  end.

Definition rbwalk (fuel : nat) (r : Z) : M W unit :=
  if r =? 0 then ret tt
  else
    root <- on_tree _ (root_at r) ;;
    rb_walk fuel root 0.

End Walk.
