(* ===== verification/RedBlackShape.v ===== *)
(** * Red-black trees in memory

    What it means that the nodes in memory form a tree, with left, right and up
    pointers that agree, and that the rotations and assignments of redblack.c
    replace one such tree by another.  A place inside a tree is a context (the
    path to the root with the subtrees left aside), so that a loop that moves a
    pointer up or down only moves the focus.  The two halves of the code that
    exchange left and right are one program with a side as argument. *)

From S2P Require Import Prelude RedBlack.

(** ** Trees and contexts *)

Inductive tree :=
| E
| T (p : Z) (c : nodecolour) (l : tree) (k : Z) (r : tree).

#[export] Instance tree_eq_dec : EqDecision tree.
Proof. solve_decision. Defined.

Definition root_of (t : tree) : Z := match t with E => RBNULL | T p _ _ _ _ => p end.

Fixpoint addrs (t : tree) : list Z :=
  match t with E => [] | T p _ l _ r => p :: addrs l ++ addrs r end.

Fixpoint inorder (t : tree) : list Z :=
  match t with E => [] | T _ _ l k r => inorder l ++ k :: inorder r end.

(** One step on the way to the root: the focus is the left child or the right
    child of the node, whose other child is the tree. *)
Inductive side := OnLeft | OnRight.

#[export] Instance side_eq_dec : EqDecision side.
Proof. solve_decision. Defined.

Record frame := Frame { f_side : side; f_p : Z; f_c : nodecolour; f_k : Z; f_t : tree }.

(** A node whose child on side [d] is [a] and whose other child is [b]. *)
Definition TT (d : side) (p : Z) (c : nodecolour) (a : tree) (k : Z) (b : tree) : tree :=
  match d with OnLeft => T p c a k b | OnRight => T p c b k a end.

Definition fill (f : frame) (t : tree) : tree := TT (f_side f) (f_p f) (f_c f) t (f_k f) (f_t f).

Fixpoint plug (z : list frame) (t : tree) : tree :=
  match z with [] => t | f :: z => plug z (fill f t) end.

Definition ctx_up (z : list frame) : Z := match z with [] => RBNULL | f :: _ => f_p f end.

Fixpoint caddrs (z : list frame) : list Z :=
  match z with [] => [] | f :: z => f_p f :: addrs (f_t f) ++ caddrs z end.

Fixpoint ctx_root (z : list frame) (q : Z) : Z :=
  match z with [] => q | f :: z => ctx_root z (f_p f) end.

(** ** Representation *)

Fixpoint rep (h : gmap Z node) (u : Z) (t : tree) : Prop :=
  match t with
  | E => True
  | T p c l k r => h !! p = Some (Node (root_of l) (root_of r) u c k) /\ rep h p l /\ rep h p r
  end.

Definition mk (d : side) (a b u : Z) (c : nodecolour) (k : Z) : node :=
  match d with OnLeft => Node a b u c k | OnRight => Node b a u c k end.

(** The node of a frame whose focus is at [q]. *)
Definition frame_node (f : frame) (q u : Z) : node := mk (f_side f) q (root_of (f_t f)) u (f_c f) (f_k f).

Fixpoint repc (h : gmap Z node) (z : list frame) (q : Z) : Prop :=
  match z with
  | [] => True
  | f :: z => h !! f_p f = Some (frame_node f q (ctx_up z)) /\ rep h (f_p f) (f_t f) /\ repc h z (f_p f)
  end.

(** The sentinel is in memory and black. *)
Definition sentinel (h : gmap Z node) : Prop := exists n, h !! RBNULL = Some n /\ n_colour n = BLACK.

(** The tree [t] is the one the [struct rbtree] at [r] points to. *)
Record in_mem (s : rbst) (r : Z) (t : tree) : Prop := InMem {
  im_sent : sentinel (rb_nodes s);
  im_rep : rep (rb_nodes s) RBNULL t;
  im_root : rb_root s !! r = Some (root_of t);
  im_nodup : NoDup (addrs t);
  im_bound : Forall (fun p => 1 < p < rb_next s) (addrs t);
}.

(** What an operation on the tree at [r] leaves alone: memory outside of [F]
    and the other trees. *)
Record same_but (F : list Z) (r : Z) (s s' : rbst) : Prop := SameBut {
  sb_nodes : forall q, q ∉ F -> rb_nodes s' !! q = rb_nodes s !! q;
  sb_root : forall r', r' <> r -> rb_root s' !! r' = rb_root s !! r';
  sb_next : rb_next s' = rb_next s;
  sb_mem : rb_mem s' = rb_mem s;
}.

Lemma same_but_refl F r s : same_but F r s s.
Proof. by constructor. Qed.

Lemma same_but_trans F r s1 s2 s3 : same_but F r s1 s2 -> same_but F r s2 s3 -> same_but F r s1 s3.
Proof.
  intros [A1 A2 A3 A4] [B1 B2 B3 B4]. constructor; [| |congruence..].
  - intros q Hq. by rewrite B1, A1.
  - intros q Hq. by rewrite B2, A2.
Qed.

Lemma same_but_perm F F' r s s' : F ≡ₚ F' -> same_but F r s s' -> same_but F' r s s'.
Proof. intros HF [A1 A2 A3 A4]. constructor; auto. intros q Hq. apply A1. by rewrite HF. Qed.

Lemma same_but_sub F F' r s s' : F ⊆ F' -> same_but F r s s' -> same_but F' r s s'.
Proof. intros HF [A1 A2 A3 A4]. constructor; auto. Qed.

(** ** Lists of addresses *)

(** Permutations between concatenations, by counting. *)
Ltac count_perm :=
  apply (Permutation_count_occ Z.eq_dec); intros ?q;
  repeat first [rewrite count_occ_app | progress cbn [addrs caddrs count_occ fill f_p f_t f_side app]];
  repeat destruct (Z.eq_dec _ _); lia.

Lemma addrs_TT d p c a k b : addrs (TT d p c a k b) ≡ₚ p :: addrs a ++ addrs b.
Proof. destruct d; cbn; count_perm. Qed.

Lemma root_TT d p c a k b : root_of (TT d p c a k b) = p.
Proof. by destruct d. Qed.

Lemma rep_TT h u d p c a k b :
  rep h u (TT d p c a k b) <-> h !! p = Some (mk d (root_of a) (root_of b) u c k) /\ rep h p a /\ rep h p b.
Proof. destruct d; cbn; tauto. Qed.

Lemma addrs_fill f t : addrs (fill f t) ≡ₚ f_p f :: addrs (f_t f) ++ addrs t.
Proof. unfold fill. rewrite addrs_TT. count_perm. Qed.

Lemma addrs_plug z t : addrs (plug z t) ≡ₚ caddrs z ++ addrs t.
Proof.
  revert t. induction z as [|f z IH]; intros t; [done|]. cbn [plug]. rewrite IH, addrs_fill. cbn. count_perm.
Qed.

Lemma plug_app z1 z2 t : plug (z1 ++ z2) t = plug z2 (plug z1 t).
Proof. revert t. induction z1 as [|f z1 IH]; intros t; cbn; [done|]. apply IH. Qed.

Lemma root_fill f t : root_of (fill f t) = f_p f.
Proof. by destruct f as [[] ?]. Qed.

Lemma root_plug z t : root_of (plug z t) = ctx_root z (root_of t).
Proof. revert t. induction z as [|f z IH]; intros t; cbn; [done|]. by rewrite IH, root_fill. Qed.

(** ** Representation and change *)

Lemma rep_ext h h' u t : (forall p, p ∈ addrs t -> h' !! p = h !! p) -> rep h u t -> rep h' u t.
Proof.
  revert u. induction t as [|p c l IHl k r IHr]; intros u Hh Ht; [done|]. cbn in *.
  destruct Ht as (Hp & Hl & Hr). rewrite Hh by set_solver. split_and!; [done| |].
  - apply IHl; [|done]. intros q Hq. apply Hh. set_solver.
  - apply IHr; [|done]. intros q Hq. apply Hh. set_solver.
Qed.

Lemma repc_ext h h' z q : (forall p, p ∈ caddrs z -> h' !! p = h !! p) -> repc h z q -> repc h' z q.
Proof.
  revert q. induction z as [|f z IH]; intros q Hh Hz; [done|]. cbn in *.
  destruct Hz as (Hp & Ht & Hz). rewrite Hh by set_solver. split_and!; [done| |].
  - apply (rep_ext h); [|done]. intros p Hq. apply Hh. set_solver.
  - apply IH; [|done]. intros p Hq. apply Hh. set_solver.
Qed.

Lemma rep_plug h z t : rep h RBNULL (plug z t) <-> repc h z (root_of t) /\ rep h (ctx_up z) t.
Proof.
  revert t. induction z as [|f z IH]; intros t; cbn; [tauto|]. rewrite IH, root_fill.
  destruct f as [[] p c k t']; cbn; tauto.
Qed.

(** A subtree under another parent. *)
Lemma rep_new_up h h' u u' t n :
  (forall p, p ∈ addrs t -> p <> root_of t -> h' !! p = h !! p) ->
  (t <> E -> h !! root_of t = Some n /\ h' !! root_of t = Some (with_up u' n)) -> NoDup (addrs t) ->
  rep h u t -> rep h' u' t.
Proof.
  destruct t as [|p c l k r]; [done|]. cbn. intros Hh Hn Hnd (Hp & Hl & Hr).
  destruct Hn as [Hn Hn']; [done|]. rewrite Hp in Hn. injection Hn as <-. rewrite Hn'.
  apply list.NoDup_cons in Hnd as [Hnd _]. split_and!; [done| |].
  - apply (rep_ext h); [|done]. intros q Hq. apply Hh; [set_solver|]. intros ->. set_solver.
  - apply (rep_ext h); [|done]. intros q Hq. apply Hh; [set_solver|]. intros ->. set_solver.
Qed.

(** ** Reading and writing a node *)

Create HintDb rb.
Create Rewrite HintDb rb.

Lemma node_at_run s p n : rb_nodes s !! p = Some n -> node_at p s = Ok (n, s).
Proof. intros H. unfold node_at, bind, get. by rewrite H. Qed.

Definition wr (p : Z) (n : node) (s : rbst) : rbst := put_nodes (<[p := n]> (rb_nodes s)) s.

Lemma upd_run s p f n : rb_nodes s !! p = Some n -> upd p f s = Ok (tt, wr p (f n) s).
Proof. intros H. unfold upd, bind. by rewrite (node_at_run _ _ _ H). Qed.

Lemma wr_eq p n s : rb_nodes (wr p n s) !! p = Some n.
Proof. apply lookup_insert_eq. Qed.

Lemma wr_ne p q n s : p <> q -> rb_nodes (wr p n s) !! q = rb_nodes s !! q.
Proof. apply lookup_insert_ne. Qed.

Lemma wr_wr p n n' s : wr p n (wr p n' s) = wr p n s.
Proof. unfold wr, put_nodes. cbn. by rewrite insert_insert_eq. Qed.

Lemma wr_comm p q n n' s : p <> q -> wr p n (wr q n' s) = wr q n' (wr p n s).
Proof. intros H. unfold wr, put_nodes. cbn. by rewrite insert_insert_ne. Qed.

Lemma upd_wr p f n s : upd p f (wr p n s) = Ok (tt, wr p (f n) s).
Proof. by rewrite (upd_run _ _ _ _ (wr_eq p n s)), wr_wr. Qed.

Lemma root_at_run s r t : in_mem s r t -> root_at r s = Ok (root_of t, s).
Proof. intros H. unfold root_at, bind, get. by rewrite (im_root _ _ _ H). Qed.

Lemma left_of_run s p n : rb_nodes s !! p = Some n -> left_of p s = Ok (n_left n, s).
Proof. intros H. unfold left_of. by rewrite (bind_ok _ _ _ _ _ (node_at_run _ _ _ H)). Qed.

Lemma right_of_run s p n : rb_nodes s !! p = Some n -> right_of p s = Ok (n_right n, s).
Proof. intros H. unfold right_of. by rewrite (bind_ok _ _ _ _ _ (node_at_run _ _ _ H)). Qed.

Lemma up_of_run s p n : rb_nodes s !! p = Some n -> up_of p s = Ok (n_up n, s).
Proof. intros H. unfold up_of. by rewrite (bind_ok _ _ _ _ _ (node_at_run _ _ _ H)). Qed.

Lemma colour_of_run s p n : rb_nodes s !! p = Some n -> colour_of p s = Ok (n_colour n, s).
Proof. intros H. unfold colour_of. by rewrite (bind_ok _ _ _ _ _ (node_at_run _ _ _ H)). Qed.

Lemma key_of_run s p n : rb_nodes s !! p = Some n -> key_of p s = Ok (n_key n, s).
Proof. intros H. unfold key_of. by rewrite (bind_ok _ _ _ _ _ (node_at_run _ _ _ H)). Qed.

(** Reading a field of a known node, and running a computation with a known
    result. *)
Ltac run H := first [rewrite (bind_ok _ _ _ _ _ H) | rewrite H]; cbn [n_left n_right n_up n_colour n_key].
Ltac read H :=
  first [run (left_of_run _ _ _ H) | run (right_of_run _ _ _ H) | run (up_of_run _ _ _ H)
        | run (colour_of_run _ _ _ H) | run (key_of_run _ _ _ H)].

(** The code that exchanges left and right, for both sides at once. *)
Definition flip (d : side) : side := match d with OnLeft => OnRight | OnRight => OnLeft end.
Definition child (d : side) (p : Z) : rb_m Z := match d with OnLeft => left_of p | OnRight => right_of p end.
Definition with_child (d : side) (v : Z) : node -> node := match d with OnLeft => with_left v | OnRight => with_right v end.

Lemma child_run s p d a b u c k : rb_nodes s !! p = Some (mk d a b u c k) -> child d p s = Ok (a, s).
Proof. intros H. destruct d; [apply (left_of_run _ _ _ H)|apply (right_of_run _ _ _ H)]. Qed.

Lemma child_flip_run s p d a b u c k : rb_nodes s !! p = Some (mk d a b u c k) -> child (flip d) p s = Ok (b, s).
Proof. intros H. destruct d; [apply (right_of_run _ _ _ H)|apply (left_of_run _ _ _ H)]. Qed.

Lemma mk_up d a b u c k : n_up (mk d a b u c k) = u.
Proof. by destruct d. Qed.
Lemma mk_colour d a b u c k : n_colour (mk d a b u c k) = c.
Proof. by destruct d. Qed.
Lemma mk_flip d a b u c k : mk (flip d) a b u c k = mk d b a u c k.
Proof. by destruct d. Qed.
Lemma with_child_mk d v a b u c k : with_child d v (mk d a b u c k) = mk d v b u c k.
Proof. by destruct d. Qed.
Lemma with_child_flip_mk d v a b u c k : with_child (flip d) v (mk d a b u c k) = mk d a v u c k.
Proof. by destruct d. Qed.
Lemma with_up_mk d v a b u c k : with_up v (mk d a b u c k) = mk d a b v c k.
Proof. by destruct d. Qed.
Lemma flip_TT d p c a k b : TT (flip d) p c a k b = TT d p c b k a.
Proof. by destruct d. Qed.
Lemma flip_flip d : flip (flip d) = d.
Proof. by destruct d. Qed.

#[export] Hint Rewrite mk_up mk_colour mk_flip with_child_mk with_child_flip_mk with_up_mk flip_TT flip_flip root_TT : rb.

Lemma focus_node s r z d p c a k b :
  in_mem s r (plug z (TT d p c a k b)) -> rb_nodes s !! p = Some (mk d (root_of a) (root_of b) (ctx_up z) c k).
Proof. intros H. by apply im_rep, rep_plug in H as [_ [H _]%rep_TT]. Qed.

Lemma frame_at s r f z t :
  in_mem s r (plug (f :: z) t) -> rb_nodes s !! f_p f = Some (frame_node f (root_of t) (ctx_up z)).
Proof. intros H. apply im_rep, rep_plug in H as [[H _] _]. done. Qed.

Lemma focus_nodup s r z t : in_mem s r (plug z t) -> NoDup (caddrs z ++ addrs t).
Proof. intros H. apply im_nodup in H. by rewrite addrs_plug in H. Qed.

Lemma bound_in s r t p : in_mem s r t -> p ∈ addrs t -> 1 < p < rb_next s.
Proof. intros H Hp. pose proof (im_bound _ _ _ H) as Hb. rewrite list.Forall_forall in Hb. by apply Hb. Qed.

Lemma null_out s r t : in_mem s r t -> RBNULL ∉ addrs t.
Proof. intros H Hp. apply (bound_in _ _ _ _ H) in Hp. unfold RBNULL in Hp. lia. Qed.

Lemma root_not_null s r z x c l k rr : in_mem s r (plug z (T x c l k rr)) -> (x =? RBNULL) = false.
Proof. intros H. apply Z.eqb_neq. intros ->. apply (null_out _ _ _ H). rewrite addrs_plug. cbn. set_solver. Qed.

(** ** Replacing a subtree *)

(** The subtree in focus is replaced; in the context only the pointer to the
    subtree changes. *)
Lemma graft s s' r z t t' :
  in_mem s r (plug z t) -> sentinel (rb_nodes s') -> rep (rb_nodes s') (ctx_up z) t' ->
  NoDup (caddrs z ++ addrs t') -> Forall (fun p => 1 < p < rb_next s') (addrs t') -> rb_next s <= rb_next s' ->
  (forall q, q ∈ caddrs z -> q <> ctx_up z -> rb_nodes s' !! q = rb_nodes s !! q) ->
  (forall f z', z = f :: z' -> rb_nodes s' !! f_p f = Some (frame_node f (root_of t') (ctx_up z'))) ->
  rb_root s' !! r = Some (ctx_root z (root_of t')) ->
  in_mem s' r (plug z t').
Proof.
  intros H Hs Hr Hnd Hb Hn Hf Hl Hrt. constructor; [done| | | |].
  - apply rep_plug. split; [|done]. pose proof (proj1 (rep_plug _ _ _) (im_rep _ _ _ H)) as [Hz _].
    destruct z as [|f z]; [done|]. cbn in Hz, Hnd, Hf |- *. destruct Hz as (_ & Ht & Hz).
    rewrite list.NoDup_cons in Hnd. destruct Hnd as (N1 & _). rewrite !not_elem_of_app in N1. destruct N1 as ((? & ?) & _).
    split_and!; [by apply Hl| |].
    + apply (rep_ext (rb_nodes s)); [|done]. intros q Hq. apply Hf; [set_solver|by intros ->].
    + apply (repc_ext (rb_nodes s)); [|done]. intros q Hq. apply Hf; [set_solver|by intros ->].
  - by rewrite root_plug.
  - by rewrite addrs_plug.
  - rewrite addrs_plug. apply Forall_app. split; [|done]. pose proof (im_bound _ _ _ H) as Hb0. rewrite addrs_plug in Hb0.
    apply Forall_app in Hb0 as [Hb0 _]. eapply Forall_impl; [|done]. cbn. lia.
Qed.

(** The subtree in focus is replaced by one on the same nodes; nothing else of
    the tree changes but the pointer to the subtree. *)
Lemma replace_focus s s' r z t t' :
  in_mem s r (plug z t) ->
  addrs t' ≡ₚ addrs t ->
  rep (rb_nodes s') (ctx_up z) t' ->
  (forall q, q ∉ addrs t -> q <> ctx_up z \/ z = [] -> rb_nodes s' !! q = rb_nodes s !! q) ->
  (forall f z', z = f :: z' -> rb_nodes s' !! f_p f = Some (frame_node f (root_of t') (ctx_up z'))) ->
  (forall r', r' <> r -> rb_root s' !! r' = rb_root s !! r') ->
  rb_root s' !! r = Some (ctx_root z (root_of t')) ->
  rb_next s' = rb_next s -> rb_mem s' = rb_mem s ->
  in_mem s' r (plug z t') /\ same_but (addrs (plug z t)) r s s'.
Proof.
  intros H Hp Hr Hf Hl Hro Hrt Hn Hm. pose proof (focus_nodup _ _ _ _ H) as Hnd.
  pose proof (im_bound _ _ _ H) as Hb. rewrite addrs_plug in Hb. apply Forall_app in Hb as [_ Hb].
  assert (forall q, q ∉ addrs (plug z t) -> rb_nodes s' !! q = rb_nodes s !! q) as Hout.
  { intros q Hq. rewrite addrs_plug in Hq. apply Hf; [set_solver|].
    destruct z as [|f z]; [by right|]. left. intros ->. cbn in Hq. set_solver. }
  split; [|by constructor]. apply (graft s s' r z t); try done.
  - destruct (im_sent _ _ _ H) as (n & Hn1 & Hn2). exists n. by rewrite Hout by apply (null_out _ _ _ H).
  - by rewrite Hp.
  - by rewrite Hp, Hn.
  - lia.
  - intros q Hq Hu. apply Hf; [|by left]. apply list.NoDup_app in Hnd as (_ & Hnd & _). by apply Hnd.
Qed.

(** Changing colour and key of the node in focus. *)
Lemma set_node s r z d p c a k b c' k' f :
  in_mem s r (plug z (TT d p c a k b)) ->
  f (mk d (root_of a) (root_of b) (ctx_up z) c k) = mk d (root_of a) (root_of b) (ctx_up z) c' k' ->
  exists s', upd p f s = Ok (tt, s') /\ in_mem s' r (plug z (TT d p c' a k' b)) /\
    same_but (addrs (plug z (TT d p c a k b))) r s s'.
Proof.
  intros H Hf. pose proof (focus_node _ _ _ _ _ _ _ _ _ H) as Hp. pose proof (focus_nodup _ _ _ _ H) as Hnd.
  rewrite (upd_run _ _ _ _ Hp), Hf. eexists. split; [done|].
  pose proof (proj1 (rep_plug _ _ _) (im_rep _ _ _ H)) as [Hz [_ [Ha Hb]]%rep_TT]. rewrite root_TT in Hz.
  rewrite addrs_TT in Hnd.
  apply list.NoDup_app in Hnd as (_ & N1 & N2). apply list.NoDup_cons in N2 as [N2 _]. rewrite not_elem_of_app in N2.
  apply replace_focus; try done.
  - by rewrite !addrs_TT.
  - apply rep_TT. split_and!; [apply wr_eq| |].
    + apply (rep_ext (rb_nodes s)); [|done]. intros q Hq. apply wr_ne. intros ->. tauto.
    + apply (rep_ext (rb_nodes s)); [|done]. intros q Hq. apply wr_ne. intros ->. tauto.
  - intros q. rewrite addrs_TT, not_elem_of_cons. intros [? _] _. by apply wr_ne.
  - intros f' z' ->. cbn in Hz. rewrite wr_ne, root_TT; [by destruct Hz|].
    intros Eq. specialize (N1 p). rewrite Eq in N1. cbn in N1. set_solver.
  - by rewrite root_TT; cbn; rewrite (im_root _ _ _ H), root_plug, root_TT.
Qed.

Lemma colour_set s r z d p c a k b c' :
  in_mem s r (plug z (TT d p c a k b)) ->
  exists s', upd p (with_colour c') s = Ok (tt, s') /\ in_mem s' r (plug z (TT d p c' a k b)) /\
    same_but (addrs (plug z (TT d p c a k b))) r s s'.
Proof. intros H. eapply set_node; [done|]. by destruct d. Qed.

(** ** Rotations *)

(** Memory after [b->up = x] for the root [b] of [t], if it has one. *)
Definition reparented (t : tree) (x : Z) (s : rbst) : rbst :=
  match t with
  | E => s
  | T b c l k r => wr b (Node (root_of l) (root_of r) x c k) s
  end.

Lemma reparent_run s u t x :
  rep (rb_nodes s) u t -> RBNULL ∉ addrs t ->
  when (negb (root_of t =? RBNULL)) (upd (root_of t) (with_up x)) s = Ok (tt, reparented t x s).
Proof.
  destruct t as [|b c l k r]; intros Ht Hn; [done|]. cbn in *.
  rewrite (proj2 (Z.eqb_neq b RBNULL)) by set_solver. cbn. by rewrite (upd_run _ _ _ _ (proj1 Ht)).
Qed.

Lemma reparented_rep s u t x :
  rep (rb_nodes s) u t -> NoDup (addrs t) -> rep (rb_nodes (reparented t x s)) x t.
Proof.
  destruct t as [|b c l k r]; intros Ht Hn; [done|]. cbn in *. destruct Ht as (Hb & Hl & Hr).
  apply list.NoDup_cons in Hn as [Hn _]. split_and!; [by rewrite lookup_insert_eq| |].
  - apply (rep_ext (rb_nodes s)); [|done]. intros q Hq. rewrite lookup_insert_ne; [done|]. intros ->. set_solver.
  - apply (rep_ext (rb_nodes s)); [|done]. intros q Hq. rewrite lookup_insert_ne; [done|]. intros ->. set_solver.
Qed.

Lemma reparented_ne s t x q : q ∉ addrs t -> rb_nodes (reparented t x s) !! q = rb_nodes s !! q.
Proof. destruct t as [|b c l k r]; intros Hq; [done|]. cbn in *. rewrite lookup_insert_ne; set_solver. Qed.

Lemma reparented_rest s t x :
  rb_root (reparented t x s) = rb_root s /\ rb_next (reparented t x s) = rb_next s /\ rb_mem (reparented t x s) = rb_mem s.
Proof. by destruct t. Qed.

(** Memory after the pointer to the focus is set to [y]. *)
Definition relinked (r : Z) (z : list frame) (y : Z) (s : rbst) : rbst :=
  match z with
  | [] => put_root r y s
  | f :: z => wr (f_p f) (frame_node f y (ctx_up z)) s
  end.

Lemma set_child_run s r z x y :
  (forall f z', z = f :: z' -> rb_nodes s !! f_p f = Some (frame_node f x (ctx_up z')) /\
     f_p f <> RBNULL /\ x <> root_of (f_t f)) ->
  set_child r (ctx_up z) x y s = Ok (tt, relinked r z y s).
Proof.
  destruct z as [|f z]; intros H; [done|]. destruct (H _ _ eq_refl) as (Hf & Hn & Hs). cbn. unfold set_child.
  rewrite (proj2 (Z.eqb_neq _ _) Hn). read Hf. destruct f as [[] p c k t]; cbn in *.
  - rewrite Z.eqb_refl. by rewrite (upd_run _ _ _ _ Hf).
  - rewrite (proj2 (Z.eqb_neq x _)) by auto. by rewrite (upd_run _ _ _ _ Hf).
Qed.

Lemma relinked_ne s r z y q : q <> ctx_up z \/ z = [] -> rb_nodes (relinked r z y s) !! q = rb_nodes s !! q.
Proof. destruct z as [|f z]; [done|]. intros [Hq|]; [|done]. cbn. by rewrite lookup_insert_ne. Qed.

Lemma relinked_eq s r f z y : rb_nodes (relinked r (f :: z) y s) !! f_p f = Some (frame_node f y (ctx_up z)).
Proof. apply lookup_insert_eq. Qed.

(** The context of the focus agrees with memory; its pointers differ from those
    of the focus. *)
Lemma ctx_facts s r z t :
  in_mem s r (plug z t) ->
  forall f z', z = f :: z' ->
    rb_nodes s !! f_p f = Some (frame_node f (root_of t) (ctx_up z')) /\ f_p f <> RBNULL /\
    (t <> E -> root_of t <> root_of (f_t f)) /\ (f_p f ∉ addrs t).
Proof.
  intros H f z' ->. pose proof (focus_nodup _ _ _ _ H) as Hnd. cbn in Hnd.
  rewrite list.NoDup_cons, list.NoDup_app in Hnd. destruct Hnd as (N1 & N2 & N3 & _).
  pose proof (null_out _ _ _ H) as Hn. rewrite addrs_plug in Hn. cbn in Hn.
  split_and!; [by apply frame_at in H|set_solver| |set_solver].
  intros Ht He. destruct t as [|p c l k rr]; [done|]. cbn in *. destruct (f_t f) as [|p' c' l' k' r']; cbn in *.
  - set_solver.
  - apply (N3 p); set_solver.
Qed.

Lemma focus_ne_up s r z t q : in_mem s r (plug z t) -> q ∈ addrs t -> q <> ctx_up z \/ z = [].
Proof.
  intros H Hq. destruct z as [|f z]; [by right|left]. cbn. intros ->.
  by destruct (ctx_facts _ _ _ _ H _ _ eq_refl) as (_ & _ & _ & Hn).
Qed.

Lemma relinked_rest s r z y t :
  in_mem s r (plug z t) ->
  rb_root (relinked r z y s) !! r = Some (ctx_root z y) /\
  forall r', r' <> r -> rb_root (relinked r z y s) !! r' = rb_root s !! r'.
Proof.
  intros H. pose proof (im_root _ _ _ H) as Hr. rewrite root_plug in Hr. destruct z as [|f z]; cbn in *; [|done].
  split; [by rewrite lookup_insert_eq|]. intros r' Hne. by rewrite lookup_insert_ne.
Qed.

Lemma reparented_wr t x s p n : p ∉ addrs t -> reparented t x (wr p n s) = wr p n (reparented t x s).
Proof. destruct t as [|b c l k r]; intros Hp; [done|]. cbn in *. apply wr_comm. set_solver. Qed.

Lemma relinked_wr r z y s p n : p <> ctx_up z \/ z = [] -> relinked r z y (wr p n s) = wr p n (relinked r z y s).
Proof. destruct z as [|f z]; intros Hp; [done|]. destruct Hp as [Hp|]; [|done]. cbn in *. apply wr_comm. congruence. Qed.

(** The rotation towards side [d] at [x]. *)
Definition rotate (d : side) (r x : Z) : rb_m unit :=
  y <- child (flip d) x ;;
  b <- child d y ;;
  upd x (with_child (flip d) b) ;;
  when (negb (b =? RBNULL)) (upd b (with_up x)) ;;
  u <- up_of x ;;
  upd y (with_up u) ;;
  set_child r u x y ;;
  upd y (with_child d x) ;;
  upd x (with_up y).

Lemma rotate_left r x : rotate OnLeft r x = rb_left_rotate r x.
Proof. done. Qed.

Lemma rotate_right r y : rotate OnRight r y = rb_right_rotate r y.
Proof. done. Qed.

(** Memory after the rotation at [x], whose child on the other side is [y]. *)
Definition rotated (d : side) (r : Z) (z : list frame) (x : Z) (nx : node) (y : Z) (ny : node) (B : tree) (s : rbst) : rbst :=
  wr x nx (wr y ny (relinked r z y (reparented B x s))).

Lemma rotate_run d s r z x c A k y c' B k' C :
  in_mem s r (plug z (TT d x c A k (TT d y c' B k' C))) ->
  rotate d r x s =
    Ok (tt, rotated d r z x (mk d (root_of A) (root_of B) y c k) y (mk d x (root_of C) (ctx_up z) c' k') B s).
Proof.
  intros H. pose proof (focus_nodup _ _ _ _ H) as Hnd. pose proof (null_out _ _ _ H) as Hnull.
  rewrite addrs_plug in Hnull. rewrite !addrs_TT in Hnull. rewrite !addrs_TT in Hnd.
  pose proof (ctx_facts _ _ _ _ H) as Hctx.
  pose proof (focus_ne_up _ _ _ _ x H ltac:(rewrite addrs_TT; set_solver)) as Ux.
  pose proof (focus_ne_up _ _ _ _ y H ltac:(rewrite !addrs_TT; set_solver)) as Uy.
  pose proof (proj1 (rep_plug _ _ _) (im_rep _ _ _ H)) as [_ (Hx & HA & (Hy & HB & HC)%rep_TT)%rep_TT].
  rewrite root_TT in Hx.
  apply list.NoDup_app in Hnd as (_ & _ & N1). apply list.NoDup_cons in N1 as [N1 N2].
  apply list.NoDup_app in N2 as (_ & _ & N3). apply list.NoDup_cons in N3 as [N3 _].
  assert (x <> y) as Hxy by (intros ->; set_solver).
  assert (x ∉ addrs B) as HxB by set_solver. assert (y ∉ addrs B) as HyB by set_solver.
  unfold rotate. run (child_flip_run _ _ _ _ _ _ _ _ Hx). run (child_run _ _ _ _ _ _ _ _ Hy).
  run (upd_run _ _ (with_child (flip d) (root_of B)) _ Hx). autorewrite with rb. set (nx := mk d (root_of A) (root_of B) (ctx_up z) c k).
  assert (rep (rb_nodes (wr x nx s)) y B) as HB1.
  { apply (rep_ext (rb_nodes s)); [|done]. intros q Hq. apply wr_ne. by intros ->. }
  run (reparent_run _ y B x HB1 ltac:(set_solver)). rewrite reparented_wr by done.
  run (up_of_run _ _ _ (wr_eq x nx (reparented B x s))).
  assert (rb_nodes (wr x nx (reparented B x s)) !! y = Some (mk d (root_of B) (root_of C) x c' k')) as Hy2
    by (rewrite wr_ne, reparented_ne; done).
  assert (n_up nx = ctx_up z) as -> by apply mk_up. run (upd_run _ _ (with_up (ctx_up z)) _ Hy2). autorewrite with rb.
  rewrite (bind_ok _ _ _ _ _ (set_child_run _ r z x y ltac:(
    intros f z' ->; destruct (Hctx _ _ eq_refl) as (F1 & F2 & F3 & F4); rewrite root_TT in F1, F3;
    rewrite !addrs_TT, not_elem_of_cons, not_elem_of_app, not_elem_of_cons, not_elem_of_app in F4;
    destruct F4 as (F4 & _ & F5 & F6 & _); rewrite (wr_ne y), (wr_ne x), reparented_ne by done;
    split_and!; [done|done|by apply F3; destruct d]))).
  rewrite !relinked_wr by done.
  rewrite (bind_ok _ _ _ _ _ (upd_wr y (with_child d x) _ _)), (wr_comm y x) by done.
  rewrite upd_wr. unfold nx. by autorewrite with rb.
Qed.

Lemma rotate_ok d s r z x c A k y c' B k' C :
  in_mem s r (plug z (TT d x c A k (TT d y c' B k' C))) ->
  exists s', rotate d r x s = Ok (tt, s') /\
    in_mem s' r (plug z (TT d y c' (TT d x c A k B) k' C)) /\
    same_but (addrs (plug z (TT d x c A k (TT d y c' B k' C)))) r s s'.
Proof.
  intros H. rewrite (rotate_run _ _ _ _ _ _ _ _ _ _ _ _ _ H). eexists. split; [done|].
  pose proof (focus_nodup _ _ _ _ H) as Hnd. pose proof (ctx_facts _ _ _ _ H) as Hctx. rewrite !addrs_TT in Hnd.
  pose proof (proj1 (rep_plug _ _ _) (im_rep _ _ _ H)) as [_ (_ & HA & (_ & HB & HC)%rep_TT)%rep_TT].
  apply list.NoDup_app in Hnd as (_ & _ & N1). apply list.NoDup_cons in N1 as [N1 N2].
  apply list.NoDup_app in N2 as (_ & NA & N3). apply list.NoDup_cons in N3 as [N3 N4].
  apply list.NoDup_app in N4 as (N5 & N6 & _).
  rewrite !not_elem_of_app, not_elem_of_cons, not_elem_of_app in N1. rewrite not_elem_of_app in N3.
  destruct N1 as (xA & xy & xB & xC). destruct N3 as (yB & yC).
  set (s' := rotated _ _ _ _ _ _ _ _ _).
  assert (forall q, q <> x -> q <> y -> q ∉ addrs B -> q <> ctx_up z \/ z = [] -> rb_nodes s' !! q = rb_nodes s !! q) as Ho.
  { intros q Q1 Q2 Q3 Q4. unfold s', rotated. by rewrite wr_ne, wr_ne, relinked_ne, reparented_ne. }
  assert (forall q, q ∈ x :: addrs A ++ y :: addrs B ++ addrs C -> q <> ctx_up z \/ z = []) as Hup.
  { intros q Hq. apply (focus_ne_up _ _ _ _ _ H). by rewrite !addrs_TT. }
  destruct (relinked_rest _ r z y _ H) as [R1 R2]. destruct (reparented_rest s B x) as (E1 & E2 & E3).
  assert (rb_root s' = rb_root (relinked r z y s)) as Hroot by (destruct z; cbn; by rewrite E1).
  apply replace_focus; [done| | | | | | | |].
  - rewrite !addrs_TT. count_perm.
  - rewrite !rep_TT, root_TT. split_and!.
    + unfold s', rotated. rewrite wr_ne by done. apply wr_eq.
    + apply wr_eq.
    + apply (rep_ext (rb_nodes s)); [|done]. intros q Hq. specialize (NA q Hq).
      rewrite not_elem_of_cons, not_elem_of_app in NA. destruct NA as (? & ? & ?).
      apply Ho; [by intros ->|done|done|]. apply Hup. set_solver.
    + apply (rep_ext (rb_nodes (reparented B x s))); [|by eapply reparented_rep]. intros q Hq.
      unfold s', rotated. rewrite wr_ne, wr_ne, relinked_ne; [done| |by intros ->..]. apply Hup. set_solver.
    + apply (rep_ext (rb_nodes s)); [|done]. intros q Hq.
      apply Ho; [by intros ->|by intros ->|intros Hq'; by apply (N6 q)|]. apply Hup. set_solver.
  - intros q. rewrite !addrs_TT, not_elem_of_cons, not_elem_of_app, not_elem_of_cons, not_elem_of_app.
    intros (? & ? & ? & ? & ?). by apply Ho.
  - intros f z' ->. destruct (Hctx _ _ eq_refl) as (_ & _ & _ & F4).
    rewrite !addrs_TT, not_elem_of_cons, not_elem_of_app, not_elem_of_cons in F4. destruct F4 as (? & ? & ? & ?).
    unfold s', rotated. rewrite !wr_ne, root_TT by done. apply relinked_eq.
  - intros r' Hr'. rewrite Hroot. by apply R2.
  - by rewrite Hroot, root_TT.
  - destruct z; cbn; by rewrite E2.
  - destruct z; cbn; by rewrite E3.
Qed.
