(* ===== verification/RedBlackInsert.v ===== *)
(** * Red-black trees: insertion

    The colour invariant of the trees, and that [rb_traverse] finds the place of
    a key, attaches a red node there and restores the invariant on the way back
    to the root, without changing the order of the keys. *)

From S2P Require Import Prelude RedBlack RedBlackShape.

(** ** The colour invariant *)

(** A tree whose root has the colour [c], with [n] black nodes on every path to a
    leaf and no two consecutive red nodes. *)
Inductive rb : nodecolour -> nat -> tree -> Prop :=
| rb_E : rb BLACK 0 E
| rb_R p l k r n : rb BLACK n l -> rb BLACK n r -> rb RED n (T p RED l k r)
| rb_B p l k r n c1 c2 : rb c1 n l -> rb c2 n r -> rb BLACK (S n) (T p BLACK l k r).

(** A context in which a tree with [n] black nodes on every path fits; [c] is the
    colour of the parent of the focus.  At the root only a black tree fits. *)
Inductive rbctx : nodecolour -> nat -> list frame -> Prop :=
| rbctx_nil n : rbctx RED n []
| rbctx_R d p k t z n : rb BLACK n t -> rbctx BLACK n z -> rbctx RED n (Frame d p RED k t :: z)
| rbctx_B d p k t z n c pc : rb c n t -> rbctx pc (S n) z -> rbctx BLACK n (Frame d p BLACK k t :: z).

Definition colour (t : tree) : nodecolour := match t with E => BLACK | T _ c _ _ _ => c end.

Definition blacken (t : tree) : tree := match t with E => E | T p _ l k r => T p BLACK l k r end.

(** Every path has the same number of black nodes, and the root is black. *)
Definition balanced (t : tree) : Prop := exists n, rb BLACK n t.

Lemma rb_colour c n t : rb c n t -> colour t = c.
Proof. by destruct 1. Qed.

Lemma rb_height c n c' m t : rb c n t -> rb c' m t -> n = m.
Proof.
  intros H. revert c' m. induction H as [|p l k r n _ IHl _ _|p l k r n c1 c2 _ IHl _ _]; intros c' m H'; inversion H'; subst; [done|..].
  - by eapply IHl.
  - f_equal. by eapply IHl.
Qed.

Lemma rb_TT_R d p a k b n : rb BLACK n a -> rb BLACK n b -> rb RED n (TT d p RED a k b).
Proof. destruct d; by constructor. Qed.

Lemma rb_TT_B d p a k b n c1 c2 : rb c1 n a -> rb c2 n b -> rb BLACK (S n) (TT d p BLACK a k b).
Proof. destruct d; econstructor; eauto. Qed.

#[export] Hint Resolve rb_TT_R rb_TT_B rbctx_R rbctx_B rb_E : rb.

Lemma rb_blacken c n t : rb c n t -> exists m, rb BLACK m (blacken t).
Proof. destruct 1; eexists; cbn; eauto using rb_B, rb_E. Qed.

Lemma rb_plug pc n z c t : rbctx pc n z -> rb c n t -> (c = RED -> pc = BLACK) -> balanced (plug z t).
Proof.
  intros Hz. revert c t. induction Hz as [n|d p k t' z n Ht' Hz IH|d p k t' z n c' pc Ht' Hz IH]; intros c t Ht Hc; cbn [plug].
  - destruct c; [by exists n|]. by discriminate Hc.
  - destruct c; [|by discriminate Hc]. eapply IH; [unfold fill; eauto with rb|done].
  - eapply IH; [unfold fill; cbn; eauto with rb|done].
Qed.

Lemma rb_TT_inv c n d p fc a k b :
  rb c n (TT d p fc a k b) ->
  (fc = RED /\ c = RED /\ rb BLACK n a /\ rb BLACK n b) \/
  (fc = BLACK /\ c = BLACK /\ exists m c1 c2, n = S m /\ rb c1 m a /\ rb c2 m b).
Proof. intros H. destruct d; inversion H; subst; eauto 12. Qed.

(** A balanced tree seen from a place inside it. *)
Lemma plug_rbctx z t :
  balanced (plug z t) -> exists n pc c, rbctx pc n z /\ rb c n t /\ (c = RED -> pc = BLACK).
Proof.
  revert t. induction z as [|[d p fc k t'] z IH]; intros t H.
  - destruct H as [n H]. exists n, RED, BLACK. split_and!; [constructor|done|done].
  - destruct (IH _ H) as (n & pc & c & Hz & Ht & Hc). unfold fill in Ht. cbn [f_side f_p f_c f_k f_t] in Ht. apply rb_TT_inv in Ht as [(-> & -> & Ha & Hb)|(-> & -> & m & c1 & c2 & -> & Ha & Hb)].
    + rewrite Hc in Hz by done. exists n, RED, BLACK. split_and!; [by constructor|done|done].
    + exists m, BLACK, c1. split_and!; [by econstructor|done|done].
Qed.

(** ** Order of the keys *)

Fixpoint before (z : list frame) : list Z :=
  match z with
  | [] => []
  | f :: z => before z ++ match f_side f with OnLeft => [] | OnRight => inorder (f_t f) ++ [f_k f] end
  end.

Fixpoint after (z : list frame) : list Z :=
  match z with
  | [] => []
  | f :: z => match f_side f with OnLeft => f_k f :: inorder (f_t f) | OnRight => [] end ++ after z
  end.

Lemma inorder_plug z t : inorder (plug z t) = before z ++ inorder t ++ after z.
Proof.
  revert t. induction z as [|[[] p c k t'] z IH]; intros t; cbn; [by rewrite app_nil_r|..].
  - rewrite IH. cbn. by rewrite app_nil_r, <- app_assoc.
  - rewrite IH. cbn. by rewrite <- !app_assoc.
Qed.

(** The nodes in order, with their keys. *)
Fixpoint cells (t : tree) : list (Z * Z) :=
  match t with E => [] | T p _ l k r => cells l ++ (p, k) :: cells r end.

Lemma cells_inorder t : (cells t).*2 = inorder t.
Proof. induction t as [|p c l IHl k r IHr]; cbn; [done|]. by rewrite fmap_app, IHl, <- IHr. Qed.

Lemma cells_congr z t t' : cells t = cells t' -> cells (plug z t) = cells (plug z t').
Proof. revert t t'. induction z as [|[[] p c k t0] z IH]; intros t t' H; cbn; [done|..]; apply IH; cbn; by rewrite H. Qed.

Lemma cells_focus z p c l k r : (p, k) ∈ cells (plug z (T p c l k r)).
Proof.
  assert (forall z t, (p, k) ∈ cells t -> (p, k) ∈ cells (plug z t)) as Hz.
  { clear. intros z. induction z as [|[[] p' c' k' t'] z IH]; intros t H; cbn; [done|..]; apply IH; cbn; set_solver. }
  apply Hz. cbn. set_solver.
Qed.

Lemma rep_cells h u t p k : rep h u t -> (p, k) ∈ cells t -> exists n, h !! p = Some n /\ n_key n = k.
Proof.
  revert u. induction t as [|q c l IHl k' r IHr]; intros u; cbn; [by intros _ ?%elem_of_nil|]. intros (Hq & Hl & Hr).
  rewrite elem_of_app, elem_of_cons. intros [Hp|[[= -> ->]|Hp]]; [by eapply IHl|eauto|by eapply IHr].
Qed.

(** Rotations keep the order. *)
Ltac order d :=
  cbn [plug]; apply cells_congr; unfold fill; destruct d; cbn;
  repeat (rewrite <- app_assoc; cbn); reflexivity.

Lemma addrs_congr z t t' : addrs t ≡ₚ addrs t' -> addrs (plug z t) ≡ₚ addrs (plug z t').
Proof. intros H. by rewrite !addrs_plug, H. Qed.

(** ** Moving the focus *)

Lemma refocus d p c k a b z : plug (Frame d p c k b :: z) a = plug (Frame (flip d) p c k a :: z) b.
Proof. cbn. unfold fill. cbn. by rewrite flip_TT. Qed.

Lemma focus_up d p c k a b z : plug (Frame d p c k b :: z) a = plug z (TT d p c a k b).
Proof. done. Qed.

(** Every tree with a node can be read towards either side. *)
Lemma T_side d p c l k r : exists a b, T p c l k r = TT d p c a k b /\ ((a = l /\ b = r) \/ (a = r /\ b = l)).
Proof. destruct d; eauto 10. Qed.

Lemma TT_side d e p c a k b :
  exists a' b', TT e p c a k b = TT d p c a' k b' /\ ((a' = a /\ b' = b) \/ (a' = b /\ b' = a)).
Proof. destruct d, e; eauto 10. Qed.

Lemma colour_run s r z t : in_mem s r (plug z t) -> colour_of (root_of t) s = Ok (colour t, s).
Proof.
  intros H. destruct t as [|p c l k rr]; cbn.
  - destruct (im_sent _ _ _ H) as (n & Hn & Hc). rewrite (colour_of_run _ _ _ Hn). by rewrite Hc.
  - pose proof (focus_node s r z OnLeft p c l k rr H) as Hn. by rewrite (colour_of_run _ _ _ Hn).
Qed.

(** ** Sequences of changes *)

(** Starting from the state [s0], the nodes [F] have been rearranged into [t];
    nothing else has changed. *)
Record held (F : list Z) (r : Z) (s0 s : rbst) (t : tree) : Prop := Held {
  he_mem : in_mem s r t;
  he_addrs : addrs t ≡ₚ F;
  he_same : same_but F r s0 s;
}.

Lemma held_start r s t : in_mem s r t -> held (addrs t) r s s t.
Proof. intros H. constructor; [done|done|apply same_but_refl]. Qed.

Lemma held_step F r s0 s s' t t' :
  held F r s0 s t -> in_mem s' r t' -> addrs t' ≡ₚ addrs t -> same_but (addrs t) r s s' -> held F r s0 s' t'.
Proof.
  intros [H1 H2 H3] H H' Hs. constructor; [done|by rewrite H'|].
  eapply same_but_trans; [done|]. by eapply same_but_perm.
Qed.

Lemma held_colour F r s0 s z d p c a k b c' :
  held F r s0 s (plug z (TT d p c a k b)) ->
  exists s', upd p (with_colour c') s = Ok (tt, s') /\ held F r s0 s' (plug z (TT d p c' a k b)).
Proof.
  intros H. destruct (colour_set _ _ _ _ _ _ _ _ _ c' (he_mem _ _ _ _ _ H)) as (s' & U & H' & B).
  exists s'. split; [done|]. eapply held_step; [done..| |done]. apply addrs_congr. by rewrite !addrs_TT.
Qed.

Lemma held_rotate F r s0 s z d x c A k y c' B k' C :
  held F r s0 s (plug z (TT d x c A k (TT d y c' B k' C))) ->
  exists s', rotate d r x s = Ok (tt, s') /\ held F r s0 s' (plug z (TT d y c' (TT d x c A k B) k' C)).
Proof.
  intros H. destruct (rotate_ok _ _ _ _ _ _ _ _ _ _ _ _ _ (he_mem _ _ _ _ _ H)) as (s' & U & H' & B').
  exists s'. split; [done|]. eapply held_step; [done..| |done]. apply addrs_congr. rewrite !addrs_TT. count_perm.
Qed.

Lemma held_node F r s0 s z d p c a k b :
  held F r s0 s (plug z (TT d p c a k b)) -> rb_nodes s !! p = Some (mk d (root_of a) (root_of b) (ctx_up z) c k).
Proof. intros H. apply (focus_node _ _ _ _ _ _ _ _ _ (he_mem _ _ _ _ _ H)). Qed.

(** [x->up] for the node [x] in focus. *)
Lemma held_up F r s0 s z d p c a k b :
  held F r s0 s (plug z (TT d p c a k b)) -> up_of p s = Ok (ctx_up z, s).
Proof. intros H. rewrite (up_of_run _ _ _ (held_node _ _ _ _ _ _ _ _ _ _ _ H)). by rewrite mk_up. Qed.

(** ** The way back to the root *)

(** The state of the second loop of [rb_traverse]: [x] is red with black
    children, and fits its context but for the colour of its parent. *)
Definition climbing (L : list (Z * Z)) (F : list Z) (r : Z) (s0 s : rbst) (x : Z) (z : list frame) (pc : nodecolour) : Prop :=
  exists d a k b n,
    held F r s0 s (plug z (TT d x RED a k b)) /\ rb BLACK n a /\ rb BLACK n b /\ rbctx pc n z /\
    cells (plug z (TT d x RED a k b)) = L.

Definition insert_fix_side (d : side) (r x p g : Z) : rb_m Z :=
  y <- child (flip d) g ;;
  c <- colour_of y ;;
  if is_red c then
    upd p (with_colour BLACK) ;;
    upd y (with_colour BLACK) ;;
    upd g (with_colour RED) ;;
    ret g
  else
    pr <- child (flip d) p ;;
    x <- (if x =? pr then rotate d r p ;; ret p else ret x) ;;
    p <- up_of x ;;
    upd p (with_colour BLACK) ;;
    g <- up_of p ;;
    upd g (with_colour RED) ;;
    rotate (flip d) r g ;;
    ret x.

Lemma insert_fix_side_left r x p g : insert_fix_side OnLeft r x p g = insert_fix_left r x p g.
Proof. done. Qed.

Lemma insert_fix_side_right r x p g : insert_fix_side OnRight r x p g = insert_fix_right r x p g.
Proof. done. Qed.

(** The uncle is red: colours move up. *)
Lemma insert_recolour F d e s0 s r z t p kp sib g kg y du ul ku ur :
  held F r s0 s (plug (Frame e p RED kp sib :: Frame d g BLACK kg (TT du y RED ul ku ur) :: z) t) ->
  exists s', (upd p (with_colour BLACK) ;; upd y (with_colour BLACK) ;; upd g (with_colour RED) ;; ret g) s = Ok (g, s') /\
    held F r s0 s' (plug z (TT d g RED (TT e p BLACK t kp sib) kg (TT du y BLACK ul ku ur))).
Proof.
  intros H. rewrite focus_up in H.
  destruct (held_colour _ _ _ _ _ _ _ _ _ _ _ BLACK H) as (s1 & U1 & H1). run U1. rewrite refocus in H1.
  destruct (held_colour _ _ _ _ _ _ _ _ _ _ _ BLACK H1) as (s2 & U2 & H2). run U2. rewrite <- refocus, focus_up in H2.
  destruct (held_colour _ _ _ _ _ _ _ _ _ _ _ RED H2) as (s3 & U3 & H3). run U3. by exists s3.
Qed.

(** The uncle is black and [x] is on the outer side: one rotation. *)
Lemma insert_straight F d e s0 s r z x a k b p kp sib g kg uncle :
  held F r s0 s (plug (Frame d p RED kp sib :: Frame d g BLACK kg uncle :: z) (TT e x RED a k b)) ->
  exists s', (p <- up_of x ;; upd p (with_colour BLACK) ;; g <- up_of p ;; upd g (with_colour RED) ;;
              rotate (flip d) r g ;; ret x) s = Ok (x, s') /\
    held F r s0 s' (plug (Frame d p BLACK kp (TT d g RED sib kg uncle) :: z) (TT e x RED a k b)).
Proof.
  intros H. run (held_up _ _ _ _ _ _ _ _ _ _ _ H). cbn [ctx_up f_p]. rewrite focus_up in H.
  destruct (held_colour _ _ _ _ _ _ _ _ _ _ _ BLACK H) as (s1 & U1 & H1). run U1.
  run (held_up _ _ _ _ _ _ _ _ _ _ _ H1). cbn [ctx_up f_p]. rewrite focus_up in H1.
  destruct (held_colour _ _ _ _ _ _ _ _ _ _ _ RED H1) as (s2 & U2 & H2). run U2.
  rewrite <- (flip_TT d g), <- (flip_TT d p) in H2.
  destruct (held_rotate _ _ _ _ _ _ _ _ _ _ _ _ _ _ _ H2) as (s3 & U3 & H3). run U3.
  exists s3. split; [done|]. rewrite !flip_TT in H3. done.
Qed.

Lemma side_cases d e : e = d \/ e = flip d.
Proof. destruct d, e; auto. Qed.

(** The child of [p] that the code compares with [x]. *)
Lemma insert_test F d e s0 s r z x a k b e' p kp sib :
  held F r s0 s (plug (Frame e p RED kp sib :: z) (TT e' x RED a k b)) ->
  exists pr, child (flip d) p s = Ok (pr, s) /\ (x =? pr) = bool_decide (e = flip d).
Proof.
  intros H.
  pose proof (frame_at _ _ _ _ _ (he_mem _ _ _ _ _ H)) as Hp. unfold frame_node in Hp. cbn in Hp. rewrite root_TT in Hp.
  destruct (side_cases d e) as [->| ->].
  - exists (root_of sib). split; [by eapply child_flip_run|].
    destruct (ctx_facts _ _ _ _ (he_mem _ _ _ _ _ H) _ _ eq_refl) as (_ & _ & Hne & _). rewrite root_TT in Hne. cbn in Hne.
    rewrite (proj2 (Z.eqb_neq _ _)) by (apply Hne; by destruct e'). symmetry. apply bool_decide_eq_false. by destruct d.
  - exists x. split; [by eapply child_run|]. by rewrite Z.eqb_refl, bool_decide_true.
Qed.

(** Both rotations, for a black uncle. *)
Lemma insert_rotate L F d e s0 s r z x p kp sib g kg uncle pc n :
  climbing L F r s0 s x (Frame e p RED kp sib :: Frame d g BLACK kg uncle :: z) RED ->
  rb BLACK n sib -> rb BLACK n uncle -> rbctx pc (S n) z ->
  exists s' x' z',
    (pr <- child (flip d) p ;;
     x <- (if x =? pr then rotate d r p ;; ret p else ret x) ;;
     p <- up_of x ;; upd p (with_colour BLACK) ;; g <- up_of p ;; upd g (with_colour RED) ;;
     rotate (flip d) r g ;; ret x) s = Ok (x', s') /\
    climbing L F r s0 s' x' z' BLACK /\ length z' = S (length z).
Proof.
  intros (e' & a & k & b & m & H & Ra & Rb & Rz & HL) Rs Ru Rz0.
  assert (m = n) as -> by (inversion Rz; subst; eapply rb_height; eauto).
  destruct (insert_test _ d _ _ _ _ _ _ _ _ _ _ _ _ _ H) as (pr & Hpr & Eq). run Hpr. rewrite Eq. clear Eq.
  destruct (side_cases d e) as [->| ->].
  - rewrite bool_decide_false by (by destruct d). rewrite (bind_ok (ret x) _ s x s eq_refl).
    destruct (insert_straight _ _ _ _ _ _ _ _ _ _ _ _ _ _ _ _ _ H) as (s' & -> & H').
    exists s', x, (Frame d p BLACK kp (TT d g RED sib kg uncle) :: z). split_and!; [done| |done].
    exists e', a, k, b, n. split_and!; [done..|eauto with rb|].
    rewrite <- HL. order d.
  - rewrite bool_decide_true by done.
    destruct (TT_side d e' x RED a k b) as (a' & b' & EX & Hab). rewrite EX in H, HL. rewrite focus_up, flip_TT in H.
    destruct (held_rotate _ _ _ _ _ _ _ _ _ _ _ _ _ _ _ H) as (s1 & U1 & H1).
    rewrite (bind_ok (rotate d r p ;; ret p) _ s p s1) by (by run U1).
    destruct (insert_straight F d d s0 s1 r z p sib kp a' x k b' g kg uncle H1) as (s' & -> & H').
    exists s', p, (Frame d x BLACK k (TT d g RED b' kg uncle) :: z). split_and!; [done| |done].
    assert (rb BLACK n a' /\ rb BLACK n b') as [Ra' Rb'] by (destruct Hab as [[-> ->]|[-> ->]]; done).
    exists d, sib, kp, a', n. split_and!; [done..|eauto with rb|].
    rewrite <- HL. order d.
Qed.

Lemma insert_fix_side_ok L F d e s0 s r z x p kp sib g kg uncle :
  climbing L F r s0 s x (Frame e p RED kp sib :: Frame d g BLACK kg uncle :: z) RED ->
  exists s' x' z' pc', insert_fix_side d r x p g s = Ok (x', s') /\ climbing L F r s0 s' x' z' pc' /\
    (length z' <= S (length z))%nat.
Proof.
  intros Hc. pose proof Hc as (e' & a & k & b & n & H & Ra & Rb & Rz & HL).
  inversion Rz as [|? ? ? ? ? ? Rs Rz'|]; subst. inversion Rz' as [| |? ? ? ? ? ? cu pc Ru Rz0]; subst.
  unfold insert_fix_side.
  pose proof H as Hg. rewrite focus_up in Hg. pose proof (frame_at _ _ _ _ _ (he_mem _ _ _ _ _ Hg)) as Ng.
  unfold frame_node in Ng. cbn [f_side f_p f_t] in Ng. run (child_flip_run _ _ _ _ _ _ _ _ Ng).
  pose proof (he_mem _ _ _ _ _ Hg) as Hu. rewrite refocus in Hu. run (colour_run _ _ _ _ Hu). clear Hu Hg.
  rewrite (rb_colour _ _ _ Ru). destruct cu; cbn [is_red].
  - destruct (insert_rotate _ _ _ _ _ _ _ _ _ _ _ _ _ _ _ _ _ Hc Rs Ru Rz0) as (s' & x' & z' & -> & Hc' & Hz).
    do 4 eexists. split_and!; [done..|lia].
  - destruct uncle as [|y cy ul ku ur]; [inversion Ru|]. inversion Ru; subst.
    destruct (insert_recolour F d e s0 s r z _ p kp sib g kg y OnLeft ul ku ur H) as (s' & U & H').
    cbn [root_of]. rewrite U. exists s', g, z, pc. split_and!; [done| |lia].
    do 5 eexists. split_and!; [exact H'|eauto using rb_B with rb|eauto using rb_B with rb|done|].
    destruct e; order d.
Qed.

Lemma insert_fix_step_side F d e s0 s r z t x p kp sib g kg uncle :
  held F r s0 s (plug (Frame e p RED kp sib :: Frame d g BLACK kg uncle :: z) t) ->
  insert_fix_step r x p g s = insert_fix_side d r x p g s.
Proof.
  intros H. rewrite focus_up in H. pose proof (frame_at _ _ _ _ _ (he_mem _ _ _ _ _ H)) as Ng.
  destruct (ctx_facts _ _ _ _ (he_mem _ _ _ _ _ H) _ _ eq_refl) as (_ & _ & Hne & _).
  unfold frame_node in Ng. cbn [f_side f_p f_t f_c f_k] in Ng, Hne. rewrite root_TT in Ng, Hne. unfold insert_fix_step.
  destruct d; cbn in Ng; read Ng; cbn.
  - by rewrite Z.eqb_refl, <- insert_fix_side_left.
  - rewrite (proj2 (Z.eqb_neq _ _)) by (apply Hne; by destruct e). by rewrite <- insert_fix_side_right.
Qed.

Lemma ctx_root_in f z q : ctx_root (f :: z) q ∈ caddrs (f :: z).
Proof. revert f q. induction z as [|f' z IH]; intros f q; cbn; [set_solver|]. specialize (IH f' (f_p f)). cbn in IH. set_solver. Qed.

(** The node in focus is the root exactly when there is no context. *)
Lemma root_test s r z d p c a k b :
  in_mem s r (plug z (TT d p c a k b)) ->
  root_at r s = Ok (ctx_root z p, s) /\ (p =? ctx_root z p) = bool_decide (z = []).
Proof.
  intros H. rewrite (root_at_run _ _ _ H), root_plug, root_TT. split; [done|].
  destruct z as [|f z]; [cbn; by rewrite Z.eqb_refl|]. rewrite bool_decide_false by done. apply Z.eqb_neq.
  intros Eq. apply focus_nodup, list.NoDup_app in H as (_ & H & _). apply (H p).
  - rewrite Eq. apply ctx_root_in.
  - rewrite addrs_TT. set_solver.
Qed.

(** What the loop establishes: the order and the nodes are kept, and the tree is
    balanced once its root is black. *)
Definition climbed (L : list (Z * Z)) (F : list Z) (r : Z) (s0 s : rbst) : Prop :=
  exists t, held F r s0 s t /\ cells t = L /\ t <> E /\ balanced (blacken t).

Lemma blacken_balanced t : balanced t -> blacken t = t.
Proof. intros [n H]. by inversion H. Qed.

Lemma plug_not_E z t : t <> E -> plug z t <> E.
Proof. revert t. induction z as [|f z IH]; intros t Ht; [done|]. cbn. apply IH. by destruct f as [[] ?]. Qed.

Lemma insert_fix_ok L F r s0 fuel s x z pc :
  climbing L F r s0 s x z pc -> (length z < fuel)%nat ->
  exists s', insert_fix fuel r x s = Ok (tt, s') /\ climbed L F r s0 s'.
Proof.
  revert s x z pc. induction fuel as [|fuel IH]; intros s x z pc Hc Hf; [lia|]. cbn [insert_fix].
  pose proof Hc as (d & a & k & b & n & H & Ra & Rb & Rz & HL).
  destruct (root_test _ _ _ _ _ _ _ _ _ (he_mem _ _ _ _ _ H)) as [R1 R2]. run R1. rewrite R2.
  destruct z as [|f z].
  - rewrite bool_decide_true by done. exists s. split; [done|]. exists (TT d x RED a k b). split_and!; [done|done|by destruct d|].
    destruct d; eapply rb_blacken; by constructor.
  - rewrite bool_decide_false by done. run (held_up _ _ _ _ _ _ _ _ _ _ _ H). cbn [ctx_up].
    pose proof (frame_at _ _ _ _ _ (he_mem _ _ _ _ _ H)) as Nf. read Nf. unfold frame_node. rewrite mk_colour.
    destruct f as [e p [] kp sib]; cbn [f_c f_p is_red].
    + exists s. split; [done|]. eexists. split_and!; [done|done|apply plug_not_E; by destruct d|].
      assert (balanced (plug (Frame e p BLACK kp sib :: z) (TT d x RED a k b))) as Hb.
      { inversion Rz; subst. eapply rb_plug; eauto with rb. }
      by rewrite blacken_balanced.
    + assert (pc = RED) as -> by (by inversion Rz). inversion Rz as [|? ? ? ? ? ? Rs Rz'|]; subst.
      inversion Rz' as [| |e' g kg uncle z0 ? cu pc' Ru Rz0]; subst.
      rewrite focus_up in H. run (held_up _ _ _ _ _ _ _ _ _ _ _ H). cbn [ctx_up f_p]. rewrite <- focus_up in H.
      destruct (insert_fix_side_ok _ _ _ _ _ _ _ _ _ _ _ _ _ _ _ Hc) as (s' & x' & z' & pc'' & U & Hc' & Hl).
      rewrite <- (insert_fix_step_side _ _ _ _ _ _ _ _ _ _ _ _ _ _ _ H) in U. run U.
      eapply IH; [done|]. cbn in Hf. lia.
Qed.
