(* ===== verification/RedBlackSearch.v ===== *)
(** * Red-black trees: searching

    Ordered lists of keys, which is what a tree stands for; that the descent from
    the root finds a key or the place where it belongs, in a number of steps
    bounded by the height of the tree; and that the height is logarithmic. *)

From stdpp Require Import sorting.
From S2P Require Import Prelude RedBlack RedBlackShape RedBlackInsert.

(** ** Comparison routines *)

(** What the trees rely on: the sign of the comparison is a total preorder. *)
Class Comparison (cmp : Z -> Z -> Z) : Prop := {
  cmp_sym a b : Z.sgn (cmp b a) = - Z.sgn (cmp a b);
  cmp_trans a b c : cmp a b <= 0 -> cmp b c <= 0 -> cmp a c <= 0;
}.

Definition increasing (cmp : Z -> Z -> Z) : list Z -> Prop := StronglySorted (fun a b => cmp a b < 0).

(** ** Ordered lists *)

Definition key_find (cmp : Z -> Z -> Z) (key : Z) (l : list Z) : option Z :=
  List.find (fun k => cmp key k =? 0) l.

Fixpoint key_insert (cmp : Z -> Z -> Z) (key : Z) (l : list Z) : list Z :=
  match l with
  | [] => [key]
  | k :: l => if cmp key k <? 0 then key :: k :: l else k :: key_insert cmp key l
  end.

Definition key_delete (cmp : Z -> Z -> Z) (key : Z) (l : list Z) : list Z :=
  List.filter (fun k => negb (cmp key k =? 0)) l.

Section Ordered.

Context (cmp : Z -> Z -> Z) `{!Comparison cmp}.

Lemma cmp_flip a b : cmp a b < 0 <-> 0 < cmp b a.
Proof. pose proof (cmp_sym a b). pose proof (Z.sgn_spec (cmp a b)). pose proof (Z.sgn_spec (cmp b a)). lia. Qed.

Lemma cmp_zero a b : cmp a b = 0 <-> cmp b a = 0.
Proof. pose proof (cmp_sym a b). pose proof (Z.sgn_spec (cmp a b)). pose proof (Z.sgn_spec (cmp b a)). lia. Qed.

Lemma cmp_lt_le a b c : cmp a b < 0 -> cmp b c <= 0 -> cmp a c < 0.
Proof.
  intros H1 H2. assert (cmp a c <= 0) by (eapply cmp_trans; [|exact H2]; lia).
  destruct (decide (cmp a c = 0)) as [E%cmp_zero|]; [|lia].
  assert (cmp b a <= 0) by (eapply cmp_trans; [exact H2|]; lia). apply cmp_flip in H1. lia.
Qed.

Lemma cmp_le_lt a b c : cmp a b <= 0 -> cmp b c < 0 -> cmp a c < 0.
Proof.
  intros H1 H2. assert (cmp a c <= 0) by (eapply cmp_trans; [exact H1|]; lia).
  destruct (decide (cmp a c = 0)) as [E%cmp_zero|]; [|lia].
  assert (cmp c b <= 0) by (eapply cmp_trans; [|exact H1]; lia). apply cmp_flip in H2. lia.
Qed.

(** The keys before and after the place of [key]. *)
Definition split_at (key : Z) (l1 l2 : list Z) : Prop :=
  Forall (fun k => 0 < cmp key k) l1 /\ Forall (fun k => cmp key k < 0) l2.

Lemma find_none key l1 l2 : split_at key l1 l2 -> key_find cmp key (l1 ++ l2) = None.
Proof.
  intros [H1 H2]. unfold key_find. induction H1 as [|k l1 Hk _ IH]; cbn.
  - induction H2 as [|k l2 Hk _ IH]; cbn; [done|]. by rewrite (proj2 (Z.eqb_neq _ _)) by lia.
  - by rewrite (proj2 (Z.eqb_neq _ _)) by lia.
Qed.

Lemma find_some key l1 k l2 :
  split_at key l1 l2 -> cmp key k = 0 -> key_find cmp key (l1 ++ k :: l2) = Some k.
Proof.
  intros [H1 _] Hk. unfold key_find. induction H1 as [|k' l1 Hk' _ IH]; cbn.
  - by rewrite (proj2 (Z.eqb_eq _ _)).
  - by rewrite (proj2 (Z.eqb_neq _ _)) by lia.
Qed.

Lemma insert_split key l1 l2 : split_at key l1 l2 -> key_insert cmp key (l1 ++ l2) = l1 ++ key :: l2.
Proof.
  intros [H1 H2]. induction H1 as [|k l1 Hk _ IH]; cbn.
  - destruct H2 as [|k l2 Hk _]; cbn; [done|]. by rewrite (proj2 (Z.ltb_lt _ _)) by lia.
  - by rewrite (proj2 (Z.ltb_ge _ _)), IH by lia.
Qed.

Lemma delete_none key l : Forall (fun k => cmp key k <> 0) l -> key_delete cmp key l = l.
Proof. induction 1 as [|k l Hk _ IH]; cbn; [done|]. rewrite (proj2 (Z.eqb_neq _ _)) by done. cbn. by f_equal. Qed.

Lemma delete_split key l1 k l2 :
  split_at key l1 l2 -> cmp key k = 0 -> key_delete cmp key (l1 ++ k :: l2) = l1 ++ l2.
Proof.
  intros [H1 H2] Hk. unfold key_delete. rewrite List.filter_app. cbn. rewrite (proj2 (Z.eqb_eq _ _)) by done. cbn.
  f_equal; apply delete_none; (eapply Forall_impl; [|done]); cbn; lia.
Qed.

Lemma split_increasing key l1 l2 : split_at key l1 l2 -> increasing cmp (l1 ++ l2) -> increasing cmp (l1 ++ key :: l2).
Proof.
  intros [H1 H2] (S1 & S2 & S3)%StronglySorted_app. rewrite list.Forall_forall in H1, H2. apply StronglySorted_app. split_and!.
  - intros a b Ha [->|Hb]%elem_of_cons; [|by apply S1]. apply cmp_flip. by apply H1.
  - done.
  - constructor; [done|]. by apply list.Forall_forall.
Qed.

(** Equal keys have the same place. *)
Lemma split_equal key l1 k l2 : increasing cmp (l1 ++ k :: l2) -> cmp key k = 0 -> split_at key l1 l2.
Proof.
  intros (S1 & _ & S2)%StronglySorted_app Hk. inversion S2 as [|? ? _ F2]; subst. rewrite list.Forall_forall in F2. split.
  - apply list.Forall_forall. intros a Ha. apply cmp_flip. apply (cmp_lt_le a k); [apply S1; set_solver|].
    apply cmp_zero in Hk. lia.
  - apply list.Forall_forall. intros a Ha. apply (cmp_le_lt key k); [lia|]. by apply F2.
Qed.

Lemma increasing_delete l1 k l2 : increasing cmp (l1 ++ k :: l2) -> increasing cmp (l1 ++ l2).
Proof.
  intros (S1 & S2 & S3)%StronglySorted_app. inversion S3; subst. apply StronglySorted_app. split_and!; [|done|done].
  intros a b Ha Hb. apply S1; set_solver.
Qed.

End Ordered.

(** ** Height *)

Fixpoint height (t : tree) : nat :=
  match t with E => O | T _ _ l _ r => S (Nat.max (height l) (height r)) end.

Lemma height_TT d p c a k b : height (TT d p c a k b) = S (Nat.max (height a) (height b)).
Proof. destruct d; cbn; lia. Qed.

Lemma height_plug z t : (length z + height t <= height (plug z t))%nat.
Proof.
  revert t. induction z as [|f z IH]; intros t; cbn; [lia|]. specialize (IH (fill f t)). unfold fill in IH at 1.
  rewrite height_TT in IH. lia.
Qed.

(** ** The descent *)

Section Descent.

Context (cmp : Z -> Z -> Z) `{!Comparison cmp} (s : rbst) (r : Z) (key : Z).

(** Where the descent in the tree [t0] ends: at a node with an equal key, or
    below a node where the key belongs. *)
Inductive arrival (t0 : tree) : Z * Z * bool -> Prop :=
| arrival_found z x c l k rr :
    t0 = plug z (T x c l k rr) -> cmp key k = 0 -> arrival t0 (x, x, true)
| arrival_place z :
    t0 = plug z E -> split_at cmp key (before z) (after z) -> arrival t0 (RBNULL, ctx_up z, false).

Lemma descend_ok fuel z t :
  in_mem s r (plug z t) -> increasing cmp (inorder (plug z t)) ->
  split_at cmp key (before z) (after z) -> (height t < fuel)%nat ->
  exists res, descend cmp fuel key (root_of t) (ctx_up z) s = Ok (res, s) /\ arrival (plug z t) res.
Proof.
  revert z t. induction fuel as [|fuel IH]; intros z t H Hs Hz Hf; [lia|]. cbn [descend].
  destruct t as [|x c l k rr]; cbn [root_of].
  { rewrite Z.eqb_refl. eexists. split; [done|]. by eapply arrival_place. }
  rewrite (root_not_null _ _ _ _ _ _ _ _ H).
  pose proof (focus_node s r z OnLeft x c l k rr H) as Nx. cbn in Nx. read Nx.
  pose proof Hs as Hs'. rewrite inorder_plug in Hs'. cbn in Hs'.
  destruct Hz as [Z1 Z2]. cbn in Hf.
  destruct (Z.ltb_spec (cmp key k) 0) as [Hlt|Hge].
  - read Nx. apply (IH (Frame OnLeft x c k rr :: z) l H Hs); [|lia]. split; cbn; [by rewrite app_nil_r|].
    constructor; [done|]. apply Forall_app. split; [|done].
    apply StronglySorted_app_1_r in Hs'. rewrite <- app_assoc in Hs'. apply StronglySorted_app_1_r in Hs'.
    inversion Hs' as [|? ? _ F]; subst. apply Forall_app in F as [F _]. eapply Forall_impl; [|exact F].
    cbn. intros k' Hk'. apply (cmp_le_lt cmp key k); [lia|done].
  - destruct (Z.ltb_spec 0 (cmp key k)) as [Hgt|Hle].
    + read Nx. apply (IH (Frame OnRight x c k l :: z) rr H Hs); [|lia]. split; cbn; [|done].
      apply Forall_app. split; [done|]. apply Forall_app. split; [|by constructor].
      apply list.Forall_forall. intros k' Hk'. apply cmp_flip; [done|].
      apply (cmp_lt_le cmp k' k); [|apply cmp_flip in Hgt; [lia|done]].
      apply StronglySorted_app_1_r in Hs'. rewrite <- app_assoc in Hs'. cbn in Hs'.
      eapply StronglySorted_app_1_elem_of in Hs'; [exact Hs'|done|set_solver].
    + eexists. split; [done|]. eapply arrival_found; [done|lia].
Qed.

End Descent.

(** ** Trees of keys *)

(** The [struct rbtree] at [r] is a balanced search tree for [cmp]. *)
Record rb_tree (cmp : Z -> Z -> Z) (s : rbst) (r : Z) (t : tree) : Prop := RbTree {
  rt_mem : in_mem s r t;
  rt_handle : r <> 0;
  rt_next : 1 < rb_next s;
  rt_balanced : balanced t;
  rt_order : increasing cmp (inorder t);
}.

Section Find.

Context (cmp : Z -> Z -> Z) `{!Comparison cmp}.

Lemma traverse_find fuel s r t key insert k :
  rb_tree cmp s r t -> (height t < fuel)%nat -> key_find cmp key (inorder t) = Some k ->
  exists z x c l rr, rb_traverse cmp fuel insert key r s = Ok (x, s) /\ t = plug z (T x c l k rr) /\
    split_at cmp key (before z ++ inorder l) (inorder rr ++ after z) /\ cmp key k = 0.
Proof.
  intros H Hf Hk. destruct (descend_ok cmp s r key fuel [] t (rt_mem _ _ _ _ H) (rt_order _ _ _ _ H)) as (res & R & A); [done|lia|].
  unfold rb_traverse. run (root_at_run _ _ _ (rt_mem _ _ _ _ H)). run R. destruct A as [z x c l k' rr Et Hc|z Et Hs]; cbn in Et; subst t.
  - pose proof (rt_order _ _ _ _ H) as Ho. rewrite inorder_plug in Ho, Hk. cbn in Ho, Hk.
    rewrite <- app_assoc in Ho, Hk. rewrite app_assoc in Ho, Hk. cbn in Ho, Hk.
    pose proof (split_equal cmp key _ _ _ Ho Hc) as Hs. rewrite (find_some cmp key _ _ _ Hs Hc) in Hk. injection Hk as <-.
    exists z, x, c, l, rr. split_and!; [by cbn [orb]|done..].
  - rewrite inorder_plug in Hk. cbn in Hk. by rewrite find_none in Hk.
Qed.

Lemma traverse_place fuel s r t key :
  rb_tree cmp s r t -> (height t < fuel)%nat -> key_find cmp key (inorder t) = None ->
  exists z, descend cmp fuel key (root_of t) RBNULL s = Ok ((RBNULL, ctx_up z, false), s) /\
    t = plug z E /\ split_at cmp key (before z) (after z).
Proof.
  intros H Hf Hk. destruct (descend_ok cmp s r key fuel [] t (rt_mem _ _ _ _ H) (rt_order _ _ _ _ H)) as (res & R & A); [done|lia|].
  cbn in R. rewrite R. destruct A as [z x c l k' rr Et Hc|z Et Hs]; cbn in Et; [|by exists z]. subst t.
  pose proof (rt_order _ _ _ _ H) as Ho. rewrite inorder_plug in Ho, Hk. cbn in Ho, Hk.
  rewrite <- app_assoc in Ho, Hk. rewrite app_assoc in Ho, Hk. cbn in Ho, Hk.
  pose proof (split_equal cmp key _ _ _ Ho Hc) as Hs. by rewrite (find_some cmp key _ _ _ Hs Hc) in Hk.
Qed.

Lemma rbfind_ok fuel s r t key :
  rb_tree cmp s r t -> (height t < fuel)%nat ->
  rbfind cmp fuel key r s = Ok (default 0 (key_find cmp key (inorder t)), s).
Proof.
  intros H Hf. pose proof (rt_mem _ _ _ _ H) as Hm. unfold rbfind. rewrite (proj2 (Z.eqb_neq _ _) (rt_handle _ _ _ _ H)).
  run (root_at_run _ _ _ Hm). destruct (root_of t =? RBNULL) eqn:Er.
  { destruct t as [|p c l k rr]; [done|]. cbn in Er. by rewrite (root_not_null s r [] p c l k rr Hm) in Er. }
  destruct (key_find cmp key (inorder t)) as [k|] eqn:Hk.
  - destruct (traverse_find fuel s r t key false k H Hf Hk) as (z & x & c & l & rr & R & -> & _). run R.
    rewrite (root_not_null _ _ _ _ _ _ _ _ Hm). pose proof (focus_node s r z OnLeft x c l k rr Hm) as Nx. by read Nx.
  - destruct (traverse_place fuel s r t key H Hf Hk) as (z & R & _). unfold rb_traverse.
    rewrite (bind_ok _ _ s RBNULL s); [done|]. run (root_at_run _ _ _ Hm). by run R.
Qed.

(** ** Attaching a node *)

Definition allocated (s : rbst) : rbst := Rbst (rb_nodes s) (rb_root s) (rb_next s + 1) (pred (rb_mem s)).

Lemma next_fresh s r z t q : in_mem s r (plug z t) -> q ∈ caddrs z -> q <> rb_next s.
Proof.
  intros H Hq ->. pose proof (bound_in _ _ _ (rb_next s) H) as Hb. rewrite addrs_plug in Hb.
  specialize (Hb ltac:(set_solver)). lia.
Qed.

Lemma next_ne_up s r z t : in_mem s r (plug z t) -> rb_next s <> ctx_up z \/ z = [].
Proof.
  intros H. destruct z as [|f z]; [by right|left]. apply not_eq_sym. apply (next_fresh _ _ _ _ _ H). cbn. set_solver.
Qed.

Lemma attach_run s r z key :
  in_mem s r (plug z E) -> split_at cmp key (before z) (after z) ->
  attach cmp r (rb_next s) key (ctx_up z) (allocated s) =
    Ok (tt, wr (rb_next s) (Node RBNULL RBNULL (ctx_up z) RED key) (relinked r z (rb_next s) (allocated s))).
Proof.
  intros H Hz. set (p := rb_next s). set (n0 := Node 0 0 (ctx_up z) BLACK key). set (s1 := wr p n0 (allocated s)).
  assert ((if ctx_up z =? RBNULL then set_root r p
           else yk <- key_of (ctx_up z) ;;
                if cmp key yk <? 0 then upd (ctx_up z) (with_left p) else upd (ctx_up z) (with_right p)) s1 =
          Ok (tt, wr p n0 (relinked r z p (allocated s)))) as U1.
  { rewrite <- relinked_wr by apply (next_ne_up _ _ _ _ H). destruct z as [|f z]; [done|]. cbn [ctx_up].
    destruct (ctx_facts _ _ _ _ H _ _ eq_refl) as (Nf & Hnull & _ & _). rewrite (proj2 (Z.eqb_neq _ _) Hnull).
    assert (rb_nodes s1 !! f_p f = Some (frame_node f RBNULL (ctx_up z))) as Nf'.
    { unfold s1. rewrite wr_ne; [done|]. apply not_eq_sym, (next_fresh _ _ _ _ _ H). cbn. set_solver. }
    read Nf'. destruct Hz as [Z1 Z2]. destruct f as [[] q c k t]; cbn in *.
    - apply list.Forall_cons_1 in Z2 as [Z2 _]. rewrite (proj2 (Z.ltb_lt _ _)) by done. by rewrite (upd_run s1 _ _ _ Nf').
    - apply Forall_app in Z1 as [_ Z1]. apply Forall_app in Z1 as [_ Z1]. apply list.Forall_cons_1 in Z1 as [Z1 _].
      rewrite (proj2 (Z.ltb_ge _ _)) by lia. by rewrite (upd_run s1 _ _ _ Nf'). }
  unfold attach. rewrite (bind_ok _ _ _ tt s1) by done. run U1. do 2 rewrite (bind_ok _ _ _ _ _ (upd_wr p _ _ _)).
  by rewrite upd_wr.
Qed.

Lemma attach_ok s r z key :
  in_mem s r (plug z E) -> 1 < rb_next s -> split_at cmp key (before z) (after z) ->
  exists s', attach cmp r (rb_next s) key (ctx_up z) (allocated s) = Ok (tt, s') /\
    held (rb_next s :: addrs (plug z E)) r (allocated s) s' (plug z (TT OnLeft (rb_next s) RED E key E)).
Proof.
  intros H Hn Hz. rewrite (attach_run _ _ _ _ H Hz). eexists. split; [done|].
  assert (in_mem (allocated s) r (plug z E)) as H1.
  { destruct H. constructor; try done. eapply Forall_impl; [|done]. cbn. lia. }
  destruct (relinked_rest _ _ _ (rb_next s) _ H1) as [R1 R2].
  assert (forall q, q <> rb_next s -> q <> ctx_up z \/ z = [] ->
    rb_nodes (wr (rb_next s) (Node RBNULL RBNULL (ctx_up z) RED key) (relinked r z (rb_next s) (allocated s))) !! q
    = rb_nodes s !! q) as Ho by (intros q Q1 Q2; by rewrite wr_ne, relinked_ne).
  constructor.
  - apply (graft (allocated s) _ r z E); cbn [root_of TT addrs app]; try done.
    + destruct (im_sent _ _ _ H) as (n & N1 & N2). exists n. rewrite Ho; [done|unfold RBNULL; lia|].
      destruct z as [|f z]; [by right|left]. by destruct (ctx_facts _ _ _ _ H _ _ eq_refl) as (_ & ? & _).
    + split_and!; [apply wr_eq|done..].
    + apply list.NoDup_app. pose proof (focus_nodup _ _ _ _ H) as Hnd. cbn in Hnd. rewrite app_nil_r in Hnd.
      split_and!; [done| |apply NoDup_singleton]. intros q Hq. apply (next_fresh _ _ _ _ _ H) in Hq. set_solver.
    + constructor; [|done]. destruct z; cbn; lia.
    + destruct z; cbn; lia.
    + intros q Hq Hu. rewrite Ho; [done| |by left]. by apply (next_fresh _ _ _ _ _ H).
    + intros f z' ->. rewrite wr_ne; [apply relinked_eq|]. apply not_eq_sym, (next_fresh _ _ _ _ _ H). cbn. set_solver.
  - rewrite !addrs_plug. cbn. rewrite app_nil_r. count_perm.
  - constructor; cbn; [|done|by destruct z..]. intros q. rewrite not_elem_of_cons, addrs_plug. cbn. rewrite app_nil_r.
    intros [Q1 Q2]. apply Ho; [done|]. destruct z as [|f z]; [by right|left]. cbn in *. set_solver.
Qed.

Lemma attach_climbing s r z key :
  in_mem s r (plug z E) -> balanced (plug z E) -> 1 < rb_next s -> split_at cmp key (before z) (after z) ->
  exists s' pc, attach cmp r (rb_next s) key (ctx_up z) (allocated s) = Ok (tt, s') /\
    climbing (cells (plug z (T (rb_next s) RED E key E))) (rb_next s :: addrs (plug z E)) r (allocated s) s' (rb_next s) z pc.
Proof.
  intros H Hb Hn Hz. destruct (attach_ok _ _ _ _ H Hn Hz) as (s' & U & H').
  destruct (plug_rbctx _ _ Hb) as (m & pc & c & Hc & HE & _). inversion HE; subst.
  exists s', pc. split; [done|]. exists OnLeft, E, key, E, 0%nat. split_and!; [done|constructor..|done|done].
Qed.

(** What [rbsearch] does to the tree when the key is new. *)
Lemma rbsearch_new fuel s r t key :
  rb_tree cmp s r t -> (height t < fuel)%nat -> key_find cmp key (inorder t) = None -> (0 < rb_mem s)%nat ->
  exists s' t', rbsearch cmp fuel key r s = Ok (key, s') /\ rb_tree cmp s' r t' /\
    inorder t' = key_insert cmp key (inorder t) /\ addrs t' ≡ₚ rb_next s :: addrs t /\
    same_but (rb_next s :: addrs t) r (allocated s) s'.
Proof.
  intros H Hf Hk Hm. destruct (traverse_place fuel s r t key H Hf Hk) as (z & R & -> & Hz).
  destruct H as [H Hr Hn Hb Ho]. destruct (attach_climbing _ _ _ _ H Hb Hn Hz) as (s1 & pc & U1 & C1).
  destruct (insert_fix_ok _ _ _ _ fuel _ _ _ _ C1) as (s2 & U2 & t2 & H2 & L2 & NE & B2).
  { pose proof (height_plug z E). lia. }
  destruct t2 as [|p c l k rr]; [done|].
  destruct (held_colour _ _ _ _ [] OnLeft p c l k rr BLACK H2) as (s3 & U3 & H3). cbn in H3, B2.
  assert (inorder (T p BLACK l k rr) = key_insert cmp key (inorder (plug z E))) as HL.
  { change (inorder (T p c l k rr) = key_insert cmp key (inorder (plug z E))).
    rewrite <- cells_inorder, L2, cells_inorder, !inorder_plug. cbn. symmetry. by apply insert_split. }
  exists s3, (T p BLACK l k rr). split_and!.
  - unfold rbsearch, rb_traverse. rewrite (proj2 (Z.eqb_neq _ _) Hr).
    rewrite (bind_ok _ _ s (rb_next s) s3).
    + rewrite (proj2 (Z.eqb_neq _ _)) by (unfold RBNULL; lia).
      destruct (rep_cells _ _ (T p BLACK l k rr) (rb_next s) key (im_rep _ _ _ (he_mem _ _ _ _ _ H3))) as (n & N1 & N2).
      { change (cells (T p BLACK l k rr)) with (cells (T p c l k rr)). rewrite L2. apply cells_focus. }
      read N1. by rewrite N2.
    + run (root_at_run _ _ _ H). run R. cbn [orb negb]. rewrite (bind_ok rb_alloc _ s (rb_next s) (allocated s)).
      * rewrite (proj2 (Z.eqb_neq _ _)) by lia. run U1. run U2. run (root_at_run _ _ _ (he_mem _ _ _ _ _ H2)). by run U3.
      * unfold rb_alloc, allocated. by destruct (rb_mem s); [lia|].
  - constructor; [apply H3|done| |done|].
    + rewrite (sb_next _ _ _ _ (he_same _ _ _ _ _ H3)). cbn. lia.
    + rewrite HL, inorder_plug. rewrite inorder_plug in Ho. cbn in *. rewrite insert_split by done. by apply split_increasing.
  - done.
  - apply H3.
  - apply H3.
Qed.

Lemma rbsearch_old fuel s r t key k :
  rb_tree cmp s r t -> (height t < fuel)%nat -> key_find cmp key (inorder t) = Some k ->
  rbsearch cmp fuel key r s = Ok (k, s).
Proof.
  intros H Hf Hk. destruct (traverse_find fuel s r t key true k H Hf Hk) as (z & x & c & l & rr & R & -> & _).
  destruct H as [H Hr _ _ _]. unfold rbsearch. rewrite (proj2 (Z.eqb_neq _ _) Hr). run R.
  rewrite (root_not_null _ _ _ _ _ _ _ _ H). pose proof (focus_node s r z OnLeft x c l k rr H) as Nx. by read Nx.
Qed.

Lemma rbsearch_nomem fuel s r t key :
  rb_tree cmp s r t -> (height t < fuel)%nat -> key_find cmp key (inorder t) = None -> rb_mem s = O ->
  rbsearch cmp fuel key r s = Ok (0, s).
Proof.
  intros H Hf Hk Hm. destruct (traverse_place fuel s r t key H Hf Hk) as (z & R & _).
  destruct H as [H Hr _ _ _]. unfold rbsearch, rb_traverse. rewrite (proj2 (Z.eqb_neq _ _) Hr).
  rewrite (bind_ok _ _ s RBNULL s); [done|]. run (root_at_run _ _ _ H). run R. cbn [orb negb].
  rewrite (bind_ok rb_alloc _ s 0 s); [done|]. unfold rb_alloc. by rewrite Hm.
Qed.

End Find.

(** ** The height is logarithmic *)

Lemma rb_height_bound c n t : rb c n t -> (height t <= 2 * n + if is_red c then 1 else 0)%nat.
Proof.
  induction 1 as [|p l k r n _ IHl _ IHr|p l k r n c1 c2 _ IHl _ IHr]; cbn in *; [lia..|].
  destruct c1, c2; cbn in *; lia.
Qed.

Lemma rb_size_bound c n t : rb c n t -> (2 ^ n <= S (length (addrs t)))%nat.
Proof.
  induction 1 as [|p l k r n _ IHl _ IHr|p l k r n c1 c2 _ IHl _ IHr]; cbn; rewrite ?length_app; cbn in *; lia.
Qed.

Lemma balanced_height t : balanced t -> (height t <= 2 * Nat.log2 (S (length (addrs t))))%nat.
Proof.
  intros [n H]. pose proof (rb_height_bound _ _ _ H) as H1. pose proof (rb_size_bound _ _ _ H) as H2. cbn in H1.
  apply Nat.log2_le_mono in H2. rewrite Nat.log2_pow2 in H2 by lia. lia.
Qed.
