(* ===== verification/RedBlackDelete.v ===== *)
(** * Red-black trees: deletion

    [rb_delete] takes a node with at most one child out of the tree, moves its
    key to the node to be deleted if that is another one, and [rb_delete_fix]
    restores the number of black nodes on the paths that lost one. *)

From stdpp Require Import sorting.
From S2P Require Import Prelude RedBlack RedBlackShape RedBlackInsert RedBlackSearch.

(** ** One turn of the loop, for both sides at once *)

Definition delete_fix_side (d : side) (r x p : Z) : rb_m Z :=
  w <- child (flip d) p ;;
  wc <- colour_of w ;;
  w <- (if is_red wc then
          upd w (with_colour BLACK) ;;
          upd p (with_colour RED) ;;
          rotate d r p ;;
          p <- up_of x ;;
          child (flip d) p
        else ret w) ;;
  wl <- child d w ;; wlc <- colour_of wl ;;
  wr <- child (flip d) w ;; wrc <- colour_of wr ;;
  if negb (is_red wlc) && negb (is_red wrc) then
    upd w (with_colour RED) ;;
    up_of x
  else
    w <- (if negb (is_red wrc) then
            upd wl (with_colour BLACK) ;;
            upd w (with_colour RED) ;;
            rotate (flip d) r w ;;
            p <- up_of x ;;
            child (flip d) p
          else ret w) ;;
    p <- up_of x ;;
    pc <- colour_of p ;;
    upd w (with_colour pc) ;;
    upd p (with_colour BLACK) ;;
    wr <- child (flip d) w ;;
    upd wr (with_colour BLACK) ;;
    rotate d r p ;;
    root_at r.

Lemma delete_fix_side_left r x p : delete_fix_side OnLeft r x p = delete_fix_left r x p.
Proof. done. Qed.

Lemma delete_fix_side_right r x p : delete_fix_side OnRight r x p = delete_fix_right r x p.
Proof. done. Qed.

Section Fix.

Context (F : list Z) (r : Z) (s0 : rbst) (L : list (Z * Z)).

(** The memory holds [t] with the cells [L]. *)
Definition kept (s : rbst) (t : tree) : Prop := held F r s0 s t /\ cells t = L.

(** The up pointer of the sentinel, where the code reads it for an empty focus. *)
Definition sent_up (u : Z) : Prop := exists n, rb_nodes s0 !! RBNULL = Some n /\ n_up n = u.

Lemma kept_up s f z t : kept s (plug (f :: z) t) -> (t = E -> sent_up (f_p f)) -> up_of (root_of t) s = Ok (f_p f, s).
Proof.
  intros [H _] Hu. destruct t as [|p c l k rr].
  - destruct (Hu eq_refl) as (n & Hn & <-). apply up_of_run. rewrite (sb_nodes _ _ _ _ (he_same _ _ _ _ _ H)); [done|].
    rewrite <- (he_addrs _ _ _ _ _ H). apply (null_out _ _ _ (he_mem _ _ _ _ _ H)).
  - apply (held_up _ _ _ _ (f :: z) OnLeft p c l k rr H).
Qed.

Lemma kept_colour s z d p c a k b c' :
  kept s (plug z (TT d p c a k b)) ->
  exists s', upd p (with_colour c') s = Ok (tt, s') /\ kept s' (plug z (TT d p c' a k b)).
Proof.
  intros [H HL]. destruct (held_colour _ _ _ _ _ _ _ _ _ _ _ c' H) as (s' & U & H'). exists s'. split; [done|].
  split; [done|]. rewrite <- HL. apply cells_congr. by destruct d.
Qed.

Lemma kept_rotate s z d x c A k y c' B k' C :
  kept s (plug z (TT d x c A k (TT d y c' B k' C))) ->
  exists s', rotate d r x s = Ok (tt, s') /\ kept s' (plug z (TT d y c' (TT d x c A k B) k' C)).
Proof.
  intros [H HL]. destruct (held_rotate _ _ _ _ _ _ _ _ _ _ _ _ _ _ _ H) as (s' & U & H'). exists s'. split; [done|].
  split; [done|]. rewrite <- HL. order d.
Qed.

(** The children of a node in focus and their colours. *)
Lemma kept_child s z d p c a k b : kept s (plug z (TT d p c a k b)) -> child d p s = Ok (root_of a, s).
Proof. intros [H _]. eapply child_run, held_node, H. Qed.

Lemma kept_other s z d p c a k b : kept s (plug z (TT d p c a k b)) -> child (flip d) p s = Ok (root_of b, s).
Proof. intros [H _]. eapply child_flip_run, held_node, H. Qed.

Lemma kept_colour_of s z t : kept s (plug z t) -> colour_of (root_of t) s = Ok (colour t, s).
Proof. intros [H _]. apply (colour_run _ _ _ _ (he_mem _ _ _ _ _ H)). Qed.

Lemma kept_root_at s t : kept s t -> root_at r s = Ok (root_of t, s).
Proof. intros [H _]. apply (root_at_run _ _ _ (he_mem _ _ _ _ _ H)). Qed.

(** ** The cases of one turn *)

Section Turn.

Context (d : side) (p kp : Z) (t : tree) (n : nat).
Context (Rt : rb BLACK n t) (Hup : t = E -> sent_up p).

Let x := root_of t.

Lemma turn_up s c w z : kept s (plug (Frame d p c kp w :: z) t) -> up_of x s = Ok (p, s).
Proof. intros H. apply (kept_up _ _ _ _ H Hup). Qed.

(** A red sibling is rotated away. *)
Lemma turn_red_sibling s z w cp :
  kept s (plug (Frame d p cp kp w :: z) t) -> rb RED (S n) w -> rbctx cp (S n) (Frame d p cp kp w :: z) ->
  exists s' w' z', (upd (root_of w) (with_colour BLACK) ;; upd p (with_colour RED) ;; rotate d r p ;;
      p <- up_of x ;; child (flip d) p) s = Ok (root_of w', s') /\
    kept s' (plug (Frame d p RED kp w' :: z') t) /\ rb BLACK (S n) w' /\ rbctx RED (S n) (Frame d p RED kp w' :: z').
Proof.
  intros H Rw Rz. destruct w as [|w c l kw rr]; [inversion Rw|]. destruct (T_side d w c l kw rr) as (a & b & Ew & Hab).
  rewrite Ew in *. apply rb_TT_inv in Rw as [(-> & _ & Ra & Rb)|(? & ? & _)]; [|done].
  inversion Rz as [|? ? ? ? ? ? Rw'|? ? ? ? ? ? ? pc Rw' Rz']; subst.
  { apply rb_TT_inv in Rw' as [(? & ? & _)|(? & _)]; done. }
  rewrite refocus in H. destruct (kept_colour _ _ _ _ _ _ _ _ BLACK H) as (s1 & U1 & H1). rewrite root_TT. run U1.
  rewrite <- refocus, focus_up in H1. destruct (kept_colour _ _ _ _ _ _ _ _ RED H1) as (s2 & U2 & H2). run U2.
  destruct (kept_rotate _ _ _ _ _ _ _ _ _ _ _ _ H2) as (s3 & U3 & H3). run U3.
  change (kept s3 (plug (Frame d p RED kp a :: Frame d w BLACK kw b :: z) t)) in H3.
  run (turn_up _ _ _ _ H3). rewrite focus_up in H3. rewrite (kept_other _ _ _ _ _ _ _ _ H3).
  exists s3, a, (Frame d w BLACK kw b :: z). split_and!; [done|done|done|]. constructor; [done|]. by econstructor.
Qed.

(** Both children of the sibling are black: it becomes red. *)
Lemma turn_black_children s z cp w a kw b ca cb :
  kept s (plug (Frame d p cp kp (TT d w BLACK a kw b) :: z) t) -> rb ca n a -> rb cb n b -> ca = BLACK -> cb = BLACK ->
  exists s', (upd w (with_colour RED) ;; up_of x) s = Ok (p, s') /\
    kept s' (plug z (TT d p cp t kp (TT d w RED a kw b))) /\ rb RED n (TT d w RED a kw b).
Proof.
  intros H Ra Rb -> ->. rewrite refocus in H. destruct (kept_colour _ _ _ _ _ _ _ _ RED H) as (s1 & U1 & H1). run U1.
  rewrite <- refocus in H1. rewrite (turn_up _ _ _ _ H1). exists s1. split_and!; [done|done|by apply rb_TT_R].
Qed.

(** A red child on the near side is moved to the far side. *)
Lemma turn_near_child s z cp w a kw b :
  kept s (plug (Frame d p cp kp (TT d w BLACK a kw b) :: z) t) -> rb RED n a -> rb BLACK n b ->
  exists s' w' a' kw' v va kv vb,
    (upd (root_of a) (with_colour BLACK) ;; upd w (with_colour RED) ;; rotate (flip d) r w ;;
      p <- up_of x ;; child (flip d) p) s = Ok (w', s') /\
    kept s' (plug (Frame d p cp kp (TT d w' BLACK a' kw' (TT d v RED va kv vb)) :: z) t) /\
    rb BLACK n a' /\ rb BLACK n va /\ rb BLACK n vb.
Proof.
  intros H Ra Rb. destruct a as [|y c l ky rr]; [inversion Ra|]. destruct (T_side d y c l ky rr) as (al & ar & Ea & _).
  rewrite Ea in *. apply rb_TT_inv in Ra as [(-> & _ & Ral & Rar)|(? & ? & _)]; [|done]. rewrite root_TT.
  rewrite refocus, <- focus_up in H. destruct (kept_colour _ _ _ _ _ _ _ _ BLACK H) as (s1 & U1 & H1). run U1.
  rewrite focus_up in H1. destruct (kept_colour _ _ _ _ _ _ _ _ RED H1) as (s2 & U2 & H2). run U2.
  rewrite <- (flip_TT d w), <- (flip_TT d y) in H2. destruct (kept_rotate _ _ _ _ _ _ _ _ _ _ _ _ H2) as (s3 & U3 & H3).
  run U3. rewrite !flip_TT in H3. rewrite <- refocus in H3. run (turn_up _ _ _ _ H3). pose proof H3 as H3'.
  rewrite focus_up in H3'. rewrite (kept_other _ _ _ _ _ _ _ _ H3'), root_TT.
  exists s3, y, al, ky, w, ar, kw, b. by split_and!.
Qed.

(** A red child on the far side: the last rotation. *)
Lemma turn_far_child s z cp w a kw ca v va kv vb :
  kept s (plug (Frame d p cp kp (TT d w BLACK a kw (TT d v RED va kv vb)) :: z) t) ->
  rb ca n a -> rb BLACK n va -> rb BLACK n vb -> rbctx cp (S n) (Frame d p cp kp (TT d w BLACK a kw (TT d v RED va kv vb)) :: z) ->
  exists s' t', (p <- up_of x ;; pc <- colour_of p ;; upd w (with_colour pc) ;; upd p (with_colour BLACK) ;;
      wr <- child (flip d) w ;; upd wr (with_colour BLACK) ;; rotate d r p ;; root_at r) s = Ok (root_of t', s') /\
    kept s' t' /\ balanced t' /\ t' <> E.
Proof.
  intros H Ra Rva Rvb Rz. run (turn_up _ _ _ _ H). rewrite focus_up in H.
  pose proof (kept_colour_of _ _ _ H) as Hc. rewrite root_TT in Hc. run Hc.
  replace (colour (TT d p cp t kp _)) with cp by (by destruct d). rewrite <- focus_up, refocus in H.
  destruct (kept_colour _ _ _ _ _ _ _ _ cp H) as (s1 & U1 & H1). run U1. rewrite <- refocus, focus_up in H1.
  destruct (kept_colour _ _ _ _ _ _ _ _ BLACK H1) as (s2 & U2 & H2). run U2. rewrite <- focus_up, refocus in H2.
  run (kept_other _ _ _ _ _ _ _ _ H2). rewrite root_TT. rewrite <- focus_up, refocus in H2.
  destruct (kept_colour _ _ _ _ _ _ _ _ BLACK H2) as (s3 & U3 & H3). run U3. rewrite <- refocus, focus_up, <- refocus, focus_up in H3.
  destruct (kept_rotate _ _ _ _ _ _ _ _ _ _ _ _ H3) as (s4 & U4 & H4). run U4.
  rewrite (kept_root_at _ _ H4). eexists s4, _. split_and!; [done|done| |apply plug_not_E; by destruct d].
  inversion Rz as [|? ? ? ? ? ? _ Rz'|? ? ? ? ? ? ? pc _ Rz']; subst.
  - eapply rb_plug; [done|eauto with rb|done].
  - eapply rb_plug; [done|eauto with rb|done].
Qed.

(** The loop is about to end: at a red node or at the root. *)
Definition settled (s : rbst) (y : Z) : Prop :=
  exists z u, y = root_of u /\ u <> E /\ kept s (plug z u) /\ balanced (plug z (blacken u)) /\ (z = [] \/ colour u = RED).

(** The turn moves the missing black node to the parent. *)
Definition moved_up (s : rbst) (y : Z) (z : list frame) : Prop :=
  exists w pc, y = p /\ kept s (plug z (TT d p BLACK t kp w)) /\
    rb BLACK (S n) (TT d p BLACK t kp w) /\ rbctx pc (S (S n)) z.

Lemma balanced_settled s u : kept s u -> balanced u -> u <> E -> settled s (root_of u).
Proof. intros H Hb Hn. exists [], u. split_and!; [done..| |by left]. cbn. by rewrite blacken_balanced. Qed.

Lemma turn_black s z cp w :
  kept s (plug (Frame d p cp kp w :: z) t) -> rb BLACK (S n) w -> rbctx cp (S n) (Frame d p cp kp w :: z) ->
  exists s' y,
    (wl <- child d (root_of w) ;; wlc <- colour_of wl ;;
     wr <- child (flip d) (root_of w) ;; wrc <- colour_of wr ;;
     if negb (is_red wlc) && negb (is_red wrc) then upd (root_of w) (with_colour RED) ;; up_of x
     else
       w <- (if negb (is_red wrc) then
               upd wl (with_colour BLACK) ;; upd (root_of w) (with_colour RED) ;; rotate (flip d) r (root_of w) ;;
               p <- up_of x ;; child (flip d) p
             else ret (root_of w)) ;;
       p <- up_of x ;; pc <- colour_of p ;; upd w (with_colour pc) ;; upd p (with_colour BLACK) ;;
       wr <- child (flip d) w ;; upd wr (with_colour BLACK) ;; rotate d r p ;; root_at r) s = Ok (y, s') /\
    ((cp = BLACK /\ moved_up s' y z) \/ settled s' y).
Proof.
  intros H Rw Rz. destruct w as [|w cw l kw rr]; [inversion Rw|]. destruct (T_side d w cw l kw rr) as (a & b & Ew & _).
  rewrite Ew in *. clear Ew l rr. rewrite root_TT.
  apply rb_TT_inv in Rw as [(_ & ? & _)|(-> & _ & m & ca & cb & [= <-] & Ra & Rb)]; [done|].
  pose proof H as Hw. rewrite refocus in Hw. run (kept_child _ _ _ _ _ _ _ _ Hw).
  pose proof Hw as Ha. rewrite <- focus_up in Ha. run (kept_colour_of _ _ _ Ha). rewrite (rb_colour _ _ _ Ra).
  run (kept_other _ _ _ _ _ _ _ _ Hw). rewrite refocus in Ha. run (kept_colour_of _ _ _ Ha). rewrite (rb_colour _ _ _ Rb).
  clear Ha Hw. destruct cb.
  - destruct ca; cbn [is_red negb andb].
    + destruct (turn_black_children _ _ _ _ _ _ _ _ _ H Ra Rb eq_refl eq_refl) as (s' & -> & H' & R'). exists s', p. split; [done|].
      inversion Rz as [|? ? ? ? ? ? _ Rz'|? ? ? ? ? ? ? pc _ Rz']; subst.
      * right. exists z, (TT d p RED t kp (TT d w RED a kw b)). rewrite root_TT. split_and!; [done|by destruct d|done| |right; by destruct d].
        replace (blacken _) with (TT d p BLACK t kp (TT d w RED a kw b)) by (by destruct d). eapply rb_plug; eauto with rb.
      * left. split; [done|]. exists (TT d w RED a kw b), pc. split_and!; [done|done|eauto with rb|done].
    + destruct (turn_near_child _ _ _ _ _ _ _ H Ra Rb) as (s1 & w' & a' & kw' & v & va & kv & vb & U & H1 & R1 & R2 & R3).
      run U. eapply turn_far_child in H1 as (s2 & t2 & U2 & H2 & B2 & N2); [|done..|].
      * exists s2, (root_of t2). split; [done|]. right. by apply balanced_settled.
      * inversion Rz; subst; econstructor; eauto with rb.
  - rewrite andb_false_r. cbn [is_red negb]. rewrite (bind_ok (ret w) _ s w s) by done.
    destruct b as [|v cv l kv rr]; [inversion Rb|]. destruct (T_side d v cv l kv rr) as (va & vb & Eb & _). rewrite Eb in *.
    apply rb_TT_inv in Rb as [(-> & _ & Rva & Rvb)|(? & ? & _)]; [|done].
    destruct (turn_far_child _ _ _ _ _ _ _ _ _ _ _ H Ra Rva Rvb Rz) as (s2 & t2 & U2 & H2 & B2 & N2).
    exists s2, (root_of t2). split; [done|]. right. by apply balanced_settled.
Qed.

Lemma turn_ok s z cp w :
  kept s (plug (Frame d p cp kp w :: z) t) -> rbctx cp (S n) (Frame d p cp kp w :: z) ->
  exists s' y, delete_fix_side d r x p s = Ok (y, s') /\ (moved_up s' y z \/ settled s' y).
Proof.
  intros H Rz. unfold delete_fix_side. pose proof H as Hp. rewrite focus_up in Hp. run (kept_other _ _ _ _ _ _ _ _ Hp).
  pose proof H as Hw. rewrite refocus in Hw. run (kept_colour_of _ _ _ Hw).
  assert (exists c, rb c (S n) w) as [[] Rw] by (inversion Rz; subst; eauto); rewrite (rb_colour _ _ _ Rw); cbn [is_red].
  - rewrite (bind_ok (ret (root_of w)) _ s (root_of w) s) by done.
    destruct (turn_black _ _ _ _ H Rw Rz) as (s' & y & U & [[_ Hy]|Hy]); eauto 10.
  - destruct (turn_red_sibling _ _ _ _ H Rw Rz) as (s1 & w1 & z1 & U1 & H1 & Rw1 & Rz1). run U1.
    destruct (turn_black _ _ _ _ H1 Rw1 Rz1) as (s' & y & U & [[? _]|Hy]); [done|eauto 10].
Qed.

End Turn.

(** ** The loop *)

(** The focus [t] has one black node less than its context expects. *)
Lemma delete_fix_step_side s d p c kp w z t x :
  kept s (plug (Frame d p c kp w :: z) t) -> x = root_of t -> (t <> E \/ w <> E) ->
  delete_fix_step r x p s = delete_fix_side d r x p s.
Proof.
  intros [H _] -> Hne. pose proof (frame_at _ _ _ _ _ (he_mem _ _ _ _ _ H)) as Np. unfold frame_node in Np. cbn in Np.
  unfold delete_fix_step. destruct d; cbn in Np; read Np.
  - by rewrite Z.eqb_refl, <- delete_fix_side_left.
  - rewrite (proj2 (Z.eqb_neq _ _)); [by rewrite <- delete_fix_side_right|].
    pose proof (he_mem _ _ _ _ _ H) as Hm. destruct t as [|q cq l k rr].
    + intros Eq. rewrite refocus in Hm. destruct (ctx_facts _ _ _ _ Hm _ _ eq_refl) as (_ & _ & Hn & _).
      destruct Hne as [|Hne]; [done|]. by apply (Hn Hne).
    + destruct (ctx_facts _ _ _ _ Hm _ _ eq_refl) as (_ & _ & Hn & _). by apply Hn.
Qed.

Lemma rb_nonempty c n t : rb c (S n) t -> t <> E.
Proof. intros H ->. inversion H. Qed.

Lemma kept_root_test s z t :
  kept s (plug z t) -> plug z t <> E ->
  root_at r s = Ok (ctx_root z (root_of t), s) /\ (root_of t =? ctx_root z (root_of t)) = bool_decide (z = []).
Proof.
  intros H Hne. rewrite (kept_root_at _ _ H), root_plug. split; [done|]. destruct t as [|p c l k rr].
  - destruct z as [|f z]; [done|]. rewrite bool_decide_false by done. apply Z.eqb_neq. intros Eq. destruct H as [H _].
    apply (null_out _ _ _ (he_mem _ _ _ _ _ H)). rewrite addrs_plug. cbn [root_of] in Eq. rewrite Eq at 1.
    apply elem_of_app. left. apply ctx_root_in.
  - destruct H as [H _]. by destruct (root_test _ _ _ OnLeft _ _ _ _ _ (he_mem _ _ _ _ _ H)) as [_ ?].
Qed.

(** The loop ends at a node whose blackening balances the tree. *)
Definition mended (s : rbst) (y : Z) : Prop :=
  exists z u, y = root_of u /\ kept s (plug z u) /\ balanced (plug z (blacken u)).

Lemma delete_loop_settled fuel s y : settled s y -> (0 < fuel)%nat -> delete_fix_loop fuel r y s = Ok (y, s) /\ mended s y.
Proof.
  intros (z & u & -> & Hne & H & Hb & Hz) Hf. destruct fuel as [|fuel]; [lia|]. cbn [delete_fix_loop]. split; [|by exists z, u].
  destruct (kept_root_test _ _ _ H (plug_not_E _ _ Hne)) as [R1 R2]. run R1. rewrite R2. destruct Hz as [->|Hc].
  - by rewrite bool_decide_true.
  - destruct (bool_decide _); [done|]. run (kept_colour_of _ _ _ H). by rewrite Hc.
Qed.

Lemma delete_loop_ok fuel s z t n pc :
  kept s (plug z t) -> rb BLACK n t -> rbctx pc (S n) z -> (t = E -> z <> [] -> sent_up (ctx_up z)) -> (length z < fuel)%nat ->
  exists s' y, delete_fix_loop fuel r (root_of t) s = Ok (y, s') /\ mended s' y.
Proof.
  revert s z t n pc. induction fuel as [|fuel IH]; intros s z t n pc H Rt Rz Hu Hf; [lia|]. cbn [delete_fix_loop].
  destruct z as [|[d p cp kp w] z].
  - run (kept_root_at _ _ H). cbn [plug]. rewrite Z.eqb_refl. exists s, (root_of t). split; [done|]. exists [], t.
    split_and!; [done..|]. cbn. rewrite blacken_balanced; by exists n.
  - assert (pc = cp) as -> by (by inversion Rz). assert (w <> E) as Hw by (inversion Rz; subst; by eapply rb_nonempty).
    destruct (kept_root_test _ _ _ H) as [R1 R2]; [cbn; apply plug_not_E; by destruct d|]. run R1. rewrite R2, bool_decide_false by done.
    run (kept_colour_of _ _ _ H). rewrite (rb_colour _ _ _ Rt). cbn [is_red].
    assert (t = E -> sent_up p) as Hu' by (intros ->; by apply Hu). run (kept_up _ _ _ _ H Hu'). cbn [f_p].
    destruct (turn_ok d p kp t n Rt Hu' s z cp w H Rz) as (s1 & y & U & Hy).
    rewrite <- (delete_fix_step_side _ _ _ _ _ _ _ _ _ H eq_refl (or_intror Hw)) in U. run U.
    destruct Hy as [(w' & pc & -> & H1 & R1' & Rz1)|Hy].
    + rewrite <- (root_TT d p BLACK t kp w'). apply (IH s1 z _ (S n) pc H1 R1' Rz1); [by destruct d|cbn in Hf; lia].
    + destruct (delete_loop_settled fuel s1 y Hy) as [U1 Hm]; [cbn in Hf; lia|]. eauto.
Qed.

(** The last assignment of [rb_delete_fix]. *)
Lemma mended_black s y :
  mended s y -> exists s' u, upd y (with_colour BLACK) s = Ok (tt, s') /\ kept s' u /\ balanced u.
Proof.
  intros (z & u & -> & H & Hb). destruct u as [|p c l k rr].
  - destruct (im_sent _ _ _ (he_mem _ _ _ _ _ (proj1 H))) as (n & N1 & N2). exists s, (plug z E). split_and!; [|done|done].
    cbn. rewrite (upd_run _ _ _ _ N1). unfold wr, with_colour. rewrite insert_id by (rewrite N1, <- N2; by destruct n).
    by destruct s.
  - destruct (kept_colour s z OnLeft p c l k rr BLACK H) as (s' & U & H'). exists s', (plug z (T p BLACK l k rr)). by split_and!.
Qed.

(** What may be missing after a black node has been taken out above [t]. *)
Definition short (z : list frame) (t : tree) : Prop :=
  (colour t = RED /\ balanced (plug z (blacken t))) \/ (exists n pc, rb BLACK n t /\ rbctx pc (S n) z).

Lemma delete_fix_ok fuel s z t :
  kept s (plug z t) -> short z t -> (t = E -> z <> [] -> sent_up (ctx_up z)) -> (length z < fuel)%nat ->
  exists s' u, rb_delete_fix fuel r (root_of t) s = Ok (tt, s') /\ kept s' u /\ balanced u.
Proof.
  intros H Hs Hu Hf. unfold rb_delete_fix.
  assert (exists s' y, delete_fix_loop fuel r (root_of t) s = Ok (y, s') /\ mended s' y) as (s1 & y & U1 & Hm).
  { destruct Hs as [[Hc Hb]|(n & pc & Rt & Rz)]; [|by eapply delete_loop_ok].
    exists s, (root_of t). apply delete_loop_settled; [|lia]. exists z, t. split_and!; [done|by intros ->|done|done|by right]. }
  run U1. by apply mended_black.
Qed.

End Fix.

(** ** Taking a node out *)

(** [x->up = u] for the root of a subtree, or for the sentinel. *)
Lemma reup_run s r z t u v :
  in_mem s r (plug z t) -> rep (rb_nodes s) v t ->
  exists s1, upd (root_of t) (with_up u) s = Ok (tt, s1) /\ rep (rb_nodes s1) u t /\ sentinel (rb_nodes s1) /\
    (t = E -> exists n, rb_nodes s1 !! RBNULL = Some n /\ n_up n = u) /\
    (forall q, q ∉ RBNULL :: addrs t -> rb_nodes s1 !! q = rb_nodes s !! q) /\
    rb_root s1 = rb_root s /\ rb_next s1 = rb_next s /\ rb_mem s1 = rb_mem s.
Proof.
  intros H Ht. destruct (im_sent _ _ _ H) as (n & N1 & N2). destruct t as [|b c l k rr].
  - exists (wr RBNULL (with_up u n) s). cbn [root_of]. rewrite (upd_run _ _ _ _ N1). split_and!; try done.
    + eexists. rewrite wr_eq. split; [done|by destruct n].
    + intros _. eexists. by rewrite wr_eq.
    + intros q. rewrite not_elem_of_cons. intros [Hq _]. by rewrite wr_ne.
  - pose proof (focus_nodup _ _ _ _ H) as Hnd. apply list.NoDup_app in Hnd as (_ & _ & Hnd).
    exists (reparented (T b c l k rr) u s). split_and!; try done.
    + cbn. destruct Ht as [Hb _]. by rewrite (upd_run _ _ _ _ Hb).
    + by apply (reparented_rep s v).
    + exists n. rewrite reparented_ne; [done|]. pose proof (null_out _ _ _ H) as Hn. rewrite addrs_plug in Hn. set_solver.
    + intros q Hq. apply reparented_ne. set_solver.
Qed.

(** The only child. *)
Lemma splice_child {A} s y d q u c k (K : Z -> rb_m A) :
  rb_nodes s !! y = Some (mk d RBNULL q u c k) ->
  (yl <- left_of y ;; x <- (if negb (yl =? RBNULL) then ret yl else right_of y) ;; K x) s = K q s.
Proof.
  intros H. destruct d; cbn in H; read H; [by read H|]. destruct (q =? RBNULL) eqn:Eq; cbn [negb]; [|done]. read H. bools. by subst.
Qed.

Lemma splice_ok s r z d y c k t :
  in_mem s r (plug z (TT d y c E k t)) ->
  exists s', splice r y s = Ok (root_of t, s') /\ in_mem s' r (plug z t) /\
    rb_nodes s' !! y = Some (mk d RBNULL (root_of t) (ctx_up z) c k) /\
    (t = E -> exists n, rb_nodes s' !! RBNULL = Some n /\ n_up n = ctx_up z) /\
    same_but (RBNULL :: addrs (plug z (TT d y c E k t))) r s s'.
Proof.
  intros H. pose proof (focus_node _ _ _ _ _ _ _ _ _ H) as Ny. pose proof (focus_nodup _ _ _ _ H) as Hnd.
  pose proof (ctx_facts _ _ _ _ H) as Hctx. pose proof (null_out _ _ _ H) as Hnull.
  pose proof (im_bound _ _ _ H) as Hb. rewrite addrs_plug, addrs_TT in Hb. apply Forall_app in Hb as [_ [_ Hb]%list.Forall_cons_1].
  rewrite addrs_plug, addrs_TT in Hnull. rewrite addrs_TT in Hnd. cbn in Hnull, Hnd, Hb.
  apply list.NoDup_app in Hnd as (N1 & N2 & N3). apply list.NoDup_cons in N3 as [N3 N4].
  assert (in_mem s r (plug (Frame (flip d) y c k E :: z) t)) as Ht by (by rewrite <- refocus).
  pose proof (proj1 (rep_plug _ _ _) (im_rep _ _ _ H)) as [_ (_ & _ & Rt)%rep_TT].
  destruct (reup_run s r _ t (ctx_up z) y Ht Rt) as (s1 & U1 & R1 & S1 & E1 & O1 & D1 & D2 & D3).
  assert (y <> RBNULL) as Hy by (intros ->; set_solver).
  assert (RBNULL <> ctx_up z \/ z = []) as Hn0.
  { destruct z as [|f z]; [by right|left]. by destruct (Hctx _ _ eq_refl) as (_ & ? & _). }
  assert (y <> ctx_up z \/ z = []) as Hy0 by (apply (focus_ne_up _ _ _ _ _ H); rewrite addrs_TT; set_solver).
  assert (forall q, q ∈ addrs t -> q <> ctx_up z \/ z = []) as Ht0.
  { intros q Hq. apply (focus_ne_up _ _ _ _ _ H). rewrite addrs_TT. set_solver. }
  assert (rb_root (relinked r z (root_of t) s1) = rb_root (relinked r z (root_of t) s)) as Hroot by (destruct z; cbn; by rewrite D1).
  destruct (relinked_rest s r z (root_of t) _ H) as [Q1 Q2].
  exists (relinked r z (root_of t) s1). split_and!.
  - unfold splice. rewrite (splice_child _ _ _ _ _ _ _ _ Ny). run (up_of_run _ _ _ Ny). rewrite mk_up. run U1.
    rewrite (bind_ok _ _ _ _ _ (set_child_run s1 r z y (root_of t) ltac:(
      intros f z' ->; destruct (Hctx _ _ eq_refl) as (F1 & F2 & F3 & F4); rewrite root_TT in F1, F3; rewrite addrs_TT in F4;
      cbn in F4; rewrite O1 by set_solver; split_and!; [done|done|apply F3; by destruct d]))). done.
  - apply (graft s _ r z (TT d y c E k t)); try done.
    + destruct S1 as (n & S1 & S2). exists n. by rewrite relinked_ne.
    + apply (rep_ext (rb_nodes s1)); [|done]. intros q Hq. apply relinked_ne. by apply Ht0.
    + apply list.NoDup_app. split_and!; [done| |done]. intros q Hq Hq'. apply (N2 q Hq). set_solver.
    + destruct z; cbn; by rewrite D2.
    + destruct z; cbn; lia.
    + intros q Hq Hu. rewrite relinked_ne by (by left). apply O1. specialize (N2 q Hq). set_solver.
    + intros f z' ->. apply relinked_eq.
    + by rewrite Hroot.
  - rewrite relinked_ne by done. rewrite O1 by set_solver. done.
  - intros Et. destruct (E1 Et) as (n & M1 & M2). exists n. by rewrite relinked_ne.
  - constructor; [| |by destruct z|by destruct z].
    + intros q. rewrite addrs_plug, addrs_TT. cbn. intros Hq. rewrite relinked_ne.
      * apply O1. set_solver.
      * destruct z as [|f z]; [by right|left]. cbn in *. set_solver.
    + intros r' Hr'. rewrite Hroot. by apply Q2.
Qed.

(** ** The node that is taken out *)

Lemma leftmost_ok fuel s r z t :
  in_mem s r (plug z t) -> t <> E -> (height t <= fuel)%nat ->
  exists zs y c k t', leftmost fuel (root_of t) s = Ok (y, s) /\ t = plug zs (T y c E k t') /\
    inorder t = k :: inorder (plug zs t').
Proof.
  revert z t. induction fuel as [|fuel IH]; intros z t H Ht Hf; destruct t as [|y c l k rr]; [done|cbn in Hf; lia|done|].
  cbn [leftmost root_of]. pose proof (focus_node s r z OnLeft y c l k rr H) as Ny. cbn in Ny. read Ny.
  destruct l as [|y' c' l' k' r'].
  - exists [], y, c, k, rr. by split_and!.
  - pose proof H as H'. change (in_mem s r (plug (Frame OnLeft y c k rr :: z) (T y' c' l' k' r'))) in H'.
    cbn [root_of]. rewrite (root_not_null _ _ _ _ _ _ _ _ H'). cbn in Hf.
    destruct (IH _ _ H' ltac:(done) ltac:(cbn; lia)) as (zs & q & c0 & k0 & t' & U & Et & Ei).
    exists (zs ++ [Frame OnLeft y c k rr]), q, c0, k0, t'. split_and!; [done| |].
    + rewrite plug_app. by rewrite <- Et.
    + rewrite plug_app. cbn [plug]. unfold fill. cbn. cbn in Ei. by rewrite Ei.
Qed.

Lemma height_congr z t t' : height t = height t' -> height (plug z t) = height (plug z t').
Proof.
  revert t t'. induction z as [|f z IH]; intros t t' H; cbn; [done|]. apply IH. unfold fill. by rewrite !height_TT, H.
Qed.

Lemma balanced_rekey z d p c a k b k' : balanced (plug z (TT d p c a k b)) -> balanced (plug z (TT d p c a k' b)).
Proof.
  intros H. destruct (plug_rbctx _ _ H) as (n & pc & c' & Hz & Ht & Hc).
  apply rb_TT_inv in Ht as [(-> & -> & Ha & Hb)|(-> & -> & m & c1 & c2 & -> & Ha & Hb)]; eapply rb_plug; eauto with rb.
Qed.

(** Taking out a red node leaves the tree balanced, a black one leaves one black
    node missing. *)
Lemma splice_balance z d y c k t :
  balanced (plug z (TT d y c E k t)) -> if is_red c then balanced (plug z t) else short z t.
Proof.
  intros H. destruct (plug_rbctx _ _ H) as (n & pc & c' & Hz & Ht & Hc).
  apply rb_TT_inv in Ht as [(-> & -> & Ha & Hb)|(-> & -> & m & c1 & c2 & -> & Ha & Hb)]; cbn.
  - rewrite Hc in Hz by done. eapply rb_plug; eauto.
  - inversion Ha; subst. destruct c2; [right; eauto|]. left. split; [by apply rb_colour in Hb|].
    inversion Hb; subst. cbn. eapply rb_plug; [done|by eapply rb_B|done].
Qed.

(** After the node [y] has been taken out: balance is restored and [y] freed. *)
Lemma delete_finish fuel s r z t y n0 :
  in_mem s r (plug z t) -> rb_nodes s !! y = Some n0 -> y ∉ RBNULL :: addrs (plug z t) ->
  (t = E -> exists n, rb_nodes s !! RBNULL = Some n /\ n_up n = ctx_up z) ->
  (if is_red (n_colour n0) then balanced (plug z t) else short z t) -> (length z < fuel)%nat ->
  exists s' u, (c <- colour_of y ;; when (negb (is_red c)) (rb_delete_fix fuel r (root_of t)) ;; rb_free y) s = Ok (tt, s') /\
    in_mem s' r u /\ balanced u /\ cells u = cells (plug z t) /\ addrs u ≡ₚ addrs (plug z t) /\ rb_nodes s' !! y = None /\
    rb_mem s' = S (rb_mem s) /\ rb_next s' = rb_next s /\
    (forall q, q ∉ y :: addrs (plug z t) -> rb_nodes s' !! q = rb_nodes s !! q) /\
    (forall r', r' <> r -> rb_root s' !! r' = rb_root s !! r').
Proof.
  intros H Ny Hy Hu Hs Hf. read Ny.
  assert (exists s1 u, when (negb (is_red (n_colour n0))) (rb_delete_fix fuel r (root_of t)) s = Ok (tt, s1) /\
    kept (addrs (plug z t)) r s (cells (plug z t)) s1 u /\ balanced u) as (s1 & u & U1 & [H1 L1] & B1).
  { assert (kept (addrs (plug z t)) r s (cells (plug z t)) s (plug z t)) as Hk by (split; [by apply held_start|done]).
    destruct (is_red (n_colour n0)); cbn [negb when]; [by eexists s, _|].
    eapply delete_fix_ok; [exact Hk|exact Hs|intros Et _; by apply Hu|done]. }
  run U1. unfold rb_free. rewrite not_elem_of_cons in Hy. destruct Hy as [Y1 Y2].
  assert (rb_nodes s1 !! y = Some n0) as Ny1 by (by rewrite (sb_nodes _ _ _ _ (he_same _ _ _ _ _ H1))).
  run (node_at_run _ _ _ Ny1). destruct H1 as [[M1 M2 M3 M4 M5] A1 [O1 O2 O3 O4]].
  do 2 eexists. split; [done|]. split_and!; cbn.
  - destruct M1 as (n & M1 & M1'). constructor; cbn; [exists n; by rewrite lookup_delete_ne| |done..].
    apply (rep_ext (rb_nodes s1)); [|done]. intros q Hq. rewrite lookup_delete_ne; [done|]. intros ->. by rewrite A1 in Hq.
  - done.
  - done.
  - done.
  - apply lookup_delete_eq.
  - by rewrite O4.
  - done.
  - intros q Hq. rewrite not_elem_of_cons in Hq. destruct Hq as [Q1 Q2]. rewrite lookup_delete_ne by done. by apply O1.
  - done.
Qed.

(** One node and its key are gone from the tree [t], which has become [u]. *)
Record removed (s : rbst) (r : Z) (t : tree) (s' : rbst) (u : tree) : Prop := Removed {
  rm_mem : in_mem s' r u;
  rm_balanced : balanced u;
  rm_freed : exists y, addrs t ≡ₚ y :: addrs u /\ rb_nodes s' !! y = None;
  rm_count : rb_mem s' = S (rb_mem s);
  rm_next : rb_next s' = rb_next s;
  rm_nodes : forall q, q ∉ RBNULL :: addrs t -> rb_nodes s' !! q = rb_nodes s !! q;
  rm_root : forall r', r' <> r -> rb_root s' !! r' = rb_root s !! r';
}.

(** The node [x] has at most one child. *)
Lemma delete_outer fuel s r z d x c k t :
  in_mem s r (plug z (TT d x c E k t)) -> balanced (plug z (TT d x c E k t)) -> (length z < fuel)%nat ->
  exists s' u, rb_delete fuel r x s = Ok (tt, s') /\ removed s r (plug z (TT d x c E k t)) s' u /\ inorder u = before z ++ inorder t ++ after z.
Proof.
  intros H Hb Hf. pose proof (focus_node _ _ _ _ _ _ _ _ _ H) as Nx. destruct (splice_ok _ _ _ _ _ _ _ _ H) as (s1 & U1 & H1 & N1 & E1 & [O1 O2 O3 O4]).
  pose proof (splice_balance _ _ _ _ _ _ Hb) as Hs. pose proof (focus_nodup _ _ _ _ H) as Hnd. rewrite addrs_TT in Hnd. cbn in Hnd.
  assert (x ∉ RBNULL :: addrs (plug z t)) as Hx.
  { pose proof (null_out _ _ _ H) as Hn. rewrite addrs_plug, addrs_TT in Hn. rewrite addrs_plug.
    apply list.NoDup_app in Hnd as (_ & D1 & D2). apply list.NoDup_cons in D2 as [D2 _]. specialize (D1 x). set_solver. }
  destruct (delete_finish fuel _ _ _ _ _ _ H1 N1 Hx E1 ltac:(by rewrite mk_colour) Hf) as (s2 & u & U2 & H2 & B2 & L2 & A2 & D2 & C2 & X2 & P2 & R2).
  exists s2, u. split_and!.
  - unfold rb_delete. read Nx. read Nx. assert ((n_left (mk d (root_of E) (root_of t) (ctx_up z) c k) =? RBNULL) ||
      (n_right (mk d (root_of E) (root_of t) (ctx_up z) c k) =? RBNULL) = true) as -> by (destruct d; cbn; [done|apply orb_true_r]).
    rewrite (bind_ok (ret x) _ s x s) by done. run U1. rewrite Z.eqb_refl. cbn [negb when]. by rewrite (bind_ok (ret tt) _ s1 tt s1).
  - constructor; [done|done| |congruence|congruence| |].
    + exists x. split; [|done]. rewrite A2, !addrs_plug, addrs_TT. cbn. count_perm.
    + intros q Hq. rewrite P2, O1; [done|done|]. rewrite addrs_plug, addrs_TT in Hq. cbn in Hq. rewrite addrs_plug. set_solver.
    + intros r' Hr'. by rewrite R2, O2.
  - by rewrite <- cells_inorder, L2, cells_inorder, inorder_plug.
Qed.

Lemma addrs_splice z d y c k t : addrs (plug z (TT d y c E k t)) ≡ₚ y :: addrs (plug z t).
Proof. rewrite !addrs_plug, addrs_TT. cbn. count_perm. Qed.

(** The node [x] has two children: its successor [y] is taken out and its key
    moved to [x]. *)
Lemma delete_inner_splice s r z x c l k zs y cy ky t :
  in_mem s r (plug z (T x c l k (plug zs (T y cy E ky t)))) ->
  exists s1 s2, splice r y s = Ok (root_of t, s1) /\ y <> x /\
    (k <- key_of y ;; upd x (with_key k)) s1 = Ok (tt, s2) /\
    in_mem s2 r (plug z (T x c l ky (plug zs t))) /\
    (exists n, rb_nodes s2 !! y = Some n /\ n_colour n = cy) /\
    (t = E -> exists n, rb_nodes s2 !! RBNULL = Some n /\ n_up n = ctx_up (zs ++ Frame OnRight x c k l :: z)) /\
    same_but (RBNULL :: addrs (plug z (T x c l k (plug zs (T y cy E ky t))))) r s s2.
Proof.
  intros H. set (Z0 := zs ++ Frame OnRight x c k l :: z).
  assert (forall v, plug Z0 v = plug z (T x c l k (plug zs v))) as EZ0 by (intros v; unfold Z0; by rewrite plug_app).
  change (T y cy E ky t) with (TT OnLeft y cy E ky t) in *. rewrite <- EZ0 in *.
  pose proof (addrs_splice Z0 OnLeft y cy ky t) as Hperm. pose proof (im_nodup _ _ _ H) as Hnd.
  rewrite Hperm in Hnd. apply list.NoDup_cons in Hnd as [Hy _]. pose proof (null_out _ _ _ H) as Hnull. rewrite Hperm in Hnull.
  destruct (splice_ok _ _ _ _ _ _ _ _ H) as (s1 & U1 & H1 & N1 & E1 & B1). rewrite EZ0 in H1, Hy, Hnull.
  destruct (set_node s1 r z OnLeft x c l k (plug zs t) c ky (with_key ky) H1 eq_refl) as (s2 & U2 & H2 & B2).
  assert (x ∈ addrs (plug z (T x c l k (plug zs t)))) as Hx by (rewrite addrs_plug; cbn; set_solver).
  exists s1, s2. split_and!; [done|by intros ->| |done| | |].
  - read N1. cbn. by rewrite U2.
  - eexists. rewrite (sb_nodes _ _ _ _ B2) by done. split; [done|done].
  - intros Et. destruct (E1 Et) as (n & M1 & M2). exists n. rewrite (sb_nodes _ _ _ _ B2) by set_solver. done.
  - eapply same_but_trans; [exact B1|]. eapply same_but_sub; [|exact B2]. rewrite Hperm, EZ0. cbn. set_solver.
Qed.

Lemma delete_inner fuel s r z x c l k rr :
  in_mem s r (plug z (T x c l k rr)) -> balanced (plug z (T x c l k rr)) -> l <> E -> rr <> E ->
  (height (plug z (T x c l k rr)) <= fuel)%nat ->
  exists s' u, rb_delete fuel r x s = Ok (tt, s') /\ removed s r (plug z (T x c l k rr)) s' u /\
    inorder u = before z ++ inorder l ++ inorder rr ++ after z.
Proof.
  intros H Hb Hl Hr Hf. pose proof (height_plug z (T x c l k rr)) as Hh. cbn in Hh.
  assert (in_mem s r (plug (Frame OnRight x c k l :: z) rr)) as Hrr by done.
  destruct (leftmost_ok fuel _ _ _ _ Hrr Hr ltac:(lia)) as (zs & y & cy & ky & t & Uy & -> & Ei). clear Hr Hrr.
  pose proof (focus_node s r z OnLeft x c l k _ H) as Nx. cbn in Nx.
  destruct (delete_inner_splice _ _ _ _ _ _ _ _ _ _ _ _ H) as (s1 & s2 & U1 & Hyx & U2 & H2 & (ny & Ny & <-) & E2 & [O1 O2 O3 O4]).
  set (Z1 := zs ++ Frame OnRight x c ky l :: z).
  assert (forall v, plug Z1 v = plug z (T x c l ky (plug zs v))) as EZ1 by (intros v; unfold Z1; by rewrite plug_app).
  assert (balanced (plug Z1 (TT OnLeft y (n_colour ny) E ky t))) as Hb1.
  { rewrite EZ1. by apply (balanced_rekey z OnLeft x c l k _ ky). }
  apply splice_balance in Hb1 as Hs. rewrite <- EZ1 in H2.
  assert (addrs (plug z (T x c l k (plug zs (T y (n_colour ny) E ky t)))) ≡ₚ y :: addrs (plug Z1 t)) as Hperm.
  { rewrite <- (addrs_splice Z1 OnLeft y (n_colour ny) ky t), EZ1. by apply addrs_congr. }
  pose proof (im_nodup _ _ _ H) as Hnd. rewrite Hperm in Hnd. apply list.NoDup_cons in Hnd as [Hy _].
  pose proof (null_out _ _ _ H) as Hnull. rewrite Hperm in Hnull.
  destruct (delete_finish fuel _ _ _ _ _ _ H2 Ny ltac:(set_solver)) as (s3 & u & U3 & H3 & B3 & L3 & A3 & D3 & C3 & X3 & P3 & R3); [|done| |].
  { intros Et. destruct (E2 Et) as (n & M1 & M2). exists n. split; [done|]. rewrite M2. unfold Z1. by destruct zs. }
  { pose proof (height_plug Z1 (T y (n_colour ny) E ky t)) as Hh1. rewrite EZ1 in Hh1. cbn in Hh1.
    assert (forall h, height (plug z (T x c l ky h)) = height (plug z (T x c l k h))) as Eh by (intros h; by apply height_congr).
    rewrite Eh in Hh1. lia. }
  exists s3, u. split_and!.
  - unfold rb_delete. read Nx. read Nx. destruct l as [|xl cl ll kl lr]; [done|]. cbn [root_of].
    rewrite (root_not_null s r (Frame OnLeft x c k (plug zs (T y (n_colour ny) E ky t)) :: z) xl cl ll kl lr H).
    destruct (plug zs (T y (n_colour ny) E ky t)) as [|xr cr rl kr rr] eqn:Err; [by apply plug_not_E in Err|].
    pose proof (root_not_null s r (Frame OnRight x c k (T xl cl ll kl lr) :: z) xr cr rl kr rr H) as Hn. cbn [root_of orb] in *. rewrite Hn.
    rewrite (bind_ok (rb_successor fuel x) _ s y s); [|unfold rb_successor; read Nx; by rewrite Hn].
    run U1. rewrite (proj2 (Z.eqb_neq _ _) Hyx). cbn [negb when]. by run U2.
  - constructor; [done|done| |congruence|congruence| |].
    + exists y. split; [|done]. by rewrite A3, Hperm.
    + intros q Hq. rewrite P3, O1; [done|done|]. rewrite Hperm in Hq. set_solver.
    + intros r' Hr'. by rewrite R3, O2.
  - rewrite <- cells_inorder, L3, cells_inorder, EZ1, inorder_plug. cbn. rewrite Ei. by rewrite <- app_assoc.
Qed.

(** ** [rbdelete] *)

Lemma T_one_child x c l k rr : l = E \/ rr = E -> exists d t, T x c l k rr = TT d x c E k t /\ inorder t = inorder l ++ inorder rr.
Proof.
  intros [->| ->].
  - by exists OnLeft, rr.
  - exists OnRight, l. split; [done|]. cbn. by rewrite app_nil_r.
Qed.

Lemma rb_delete_ok fuel s r z x c l k rr :
  in_mem s r (plug z (T x c l k rr)) -> balanced (plug z (T x c l k rr)) -> (height (plug z (T x c l k rr)) <= fuel)%nat ->
  exists s' u, rb_delete fuel r x s = Ok (tt, s') /\ removed s r (plug z (T x c l k rr)) s' u /\
    inorder u = before z ++ inorder l ++ inorder rr ++ after z.
Proof.
  intros H Hb Hf. destruct (decide (l = E \/ rr = E)) as [Ho|Hi].
  - destruct (T_one_child x c l k rr Ho) as (d & t & Et & Ei). pose proof (height_plug z (T x c l k rr)) as Hh. cbn in Hh. rewrite Et in *.
    destruct (delete_outer fuel s r z d x c k t H Hb ltac:(lia)) as (s' & u & U & Hr & Hu). exists s', u. split_and!; [done|done|].
    by rewrite Hu, Ei, <- app_assoc.
  - apply delete_inner; try done; intros ->; tauto.
Qed.

Section Delete.

Context (cmp : Z -> Z -> Z) `{!Comparison cmp}.

Lemma rbdelete_none fuel s r t key :
  rb_tree cmp s r t -> (height t < fuel)%nat -> key_find cmp key (inorder t) = None ->
  rbdelete cmp fuel key r s = Ok (0, s).
Proof.
  intros H Hf Hk. destruct (traverse_place cmp fuel s r t key H Hf Hk) as (z & R & _). destruct H as [H Hr _ _ _].
  unfold rbdelete, rb_traverse. rewrite (proj2 (Z.eqb_neq _ _) Hr). rewrite (bind_ok _ _ s RBNULL s); [done|].
  run (root_at_run _ _ _ H). by run R.
Qed.

Lemma rbdelete_some fuel s r t key k :
  rb_tree cmp s r t -> (height t < fuel)%nat -> key_find cmp key (inorder t) = Some k ->
  exists s' t', rbdelete cmp fuel key r s = Ok (k, s') /\ rb_tree cmp s' r t' /\
    inorder t' = key_delete cmp key (inorder t) /\ removed s r t s' t'.
Proof.
  intros H Hf Hk. destruct (traverse_find cmp fuel s r t key false k H Hf Hk) as (z & x & c & l & rr & R & -> & Hs & Hc).
  destruct H as [H Hr Hn Hb Ho]. destruct (rb_delete_ok fuel s r z x c l k rr H Hb ltac:(lia)) as (s' & u & U & Hm & Hu).
  assert (inorder (plug z (T x c l k rr)) = (before z ++ inorder l) ++ k :: (inorder rr ++ after z)) as Ei.
  { rewrite inorder_plug. cbn. by rewrite <- !app_assoc. }
  assert (inorder u = (before z ++ inorder l) ++ (inorder rr ++ after z)) as Eu by (by rewrite Hu, <- app_assoc).
  exists s', u. split_and!; [| | |done].
  - unfold rbdelete. rewrite (proj2 (Z.eqb_neq _ _) Hr). run R. rewrite (root_not_null _ _ _ _ _ _ _ _ H).
    pose proof (focus_node s r z OnLeft x c l k rr H) as Nx. read Nx. by run U.
  - constructor; [apply Hm|done|by rewrite (rm_next _ _ _ _ _ Hm)|apply Hm|]. rewrite Eu. rewrite Ei in Ho. by eapply increasing_delete.
  - rewrite Eu, Ei. symmetry. by apply delete_split.
Qed.

End Delete.
