(* ===== verification/RedBlackFacts.v ===== *)
(** * Red-black trees: what they promise

    A tree behaves like an ordered list of keys under any sequence of insertions,
    deletions and lookups, with loops no longer than twice the logarithm of its
    size; reading it in order gives the list; destroying it frees every node and
    nothing else. *)

From stdpp Require Import sorting.
From S2P Require Import Prelude RedBlack RedBlackShape RedBlackInsert RedBlackSearch RedBlackDelete.

(** ** Operations as an abstract data type *)

Inductive rb_op := OpFind (key : Z) | OpSearch (key : Z) | OpDelete (key : Z).

Definition run_op (cmp : Z -> Z -> Z) (fuel : nat) (r : Z) (o : rb_op) : rb_m Z :=
  match o with
  | OpFind key => rbfind cmp fuel key r
  | OpSearch key => rbsearch cmp fuel key r
  | OpDelete key => rbdelete cmp fuel key r
  end.

Fixpoint run_ops (cmp : Z -> Z -> Z) (fuel : nat) (r : Z) (os : list rb_op) : rb_m (list Z) :=
  match os with
  | [] => ret []
  | o :: os => a <- run_op cmp fuel r o ;; l <- run_ops cmp fuel r os ;; ret (a :: l)
  end.

(** The same operations on an ordered list, with the number of allocations that
    can still be made; 0 is the null pointer. *)
Definition spec_op (cmp : Z -> Z -> Z) (o : rb_op) (st : list Z * nat) : Z * (list Z * nat) :=
  let '(l, mem) := st in
  match o with
  | OpFind key => (default 0 (key_find cmp key l), st)
  | OpSearch key =>
      match key_find cmp key l, mem with
      | Some k, _ => (k, st)
      | None, O => (0, st)
      | None, S mem => (key, (key_insert cmp key l, mem))
      end
  | OpDelete key =>
      match key_find cmp key l with
      | Some k => (k, (key_delete cmp key l, S mem))
      | None => (0, st)
      end
  end.

Fixpoint spec_ops (cmp : Z -> Z -> Z) (os : list rb_op) (st : list Z * nat) : list Z * (list Z * nat) :=
  match os with
  | [] => ([], st)
  | o :: os => let '(a, st) := spec_op cmp o st in let '(l, st) := spec_ops cmp os st in (a :: l, st)
  end.

Lemma cells_addrs t : length (cells t) = length (addrs t).
Proof. induction t as [|p c l IHl k r IHr]; cbn; [done|]. rewrite !length_app. cbn. lia. Qed.

Lemma inorder_length t : length (inorder t) = length (addrs t).
Proof. by rewrite <- cells_inorder, length_fmap, cells_addrs. Qed.

Section Refinement.

Context (cmp : Z -> Z -> Z) `{!Comparison cmp} (r : Z) (total : nat).

(** Memory holds the nodes of the tree, the sentinel and no other node; [total]
    counts the nodes and the free allocations. *)
Definition owns (s : rbst) (t : tree) : Prop :=
  (forall q, q ∉ RBNULL :: addrs t -> rb_nodes s !! q = None) /\ (rb_mem s + length (addrs t))%nat = total.

(** The tree stands for the list [l]; [mem] allocations can be made. *)
Definition stands_for (s : rbst) (st : list Z * nat) : Prop :=
  exists t, rb_tree cmp s r t /\ inorder t = fst st /\ rb_mem s = snd st /\ owns s t.

Lemma owns_new s s' t t' :
  owns s t -> (0 < rb_mem s)%nat -> addrs t' ≡ₚ rb_next s :: addrs t -> same_but (rb_next s :: addrs t) r (allocated s) s' -> owns s' t'.
Proof.
  intros [H1 H2] Hm Hp [O1 _ _ O4]. split.
  - intros q. rewrite Hp, !not_elem_of_cons. intros (Q1 & Q2 & Q3). rewrite O1 by set_solver. apply H1. set_solver.
  - rewrite O4, Hp. cbn. lia.
Qed.

Lemma owns_removed s s' t t' : owns s t -> removed s r t s' t' -> owns s' t'.
Proof.
  intros [H1 H2] [_ _ (y & Hp & Hy) Hc _ Hn _]. split.
  - intros q Hq. destruct (decide (q = y)) as [->|Hne]; [done|]. rewrite Hn by (rewrite Hp; set_solver).
    apply H1. rewrite Hp. set_solver.
  - rewrite Hp in H2. cbn in H2. lia.
Qed.

Lemma rb_op_ok fuel s st o :
  stands_for s st -> (2 * Nat.log2 (S (length (fst st))) < fuel)%nat ->
  exists s', run_op cmp fuel r o s = Ok (fst (spec_op cmp o st), s') /\ stands_for s' (snd (spec_op cmp o st)).
Proof.
  destruct st as [l mem]. intros (t & H & Hl & Hm & Hown) Hf. cbn [fst snd] in *. subst l mem.
  assert (height t < fuel)%nat as Hh by (pose proof (balanced_height _ (rt_balanced _ _ _ _ H)); rewrite inorder_length in Hf; lia).
  assert (stands_for s (inorder t, rb_mem s)) as Hs by (by exists t).
  destruct o as [key|key|key]; cbn [run_op spec_op].
  - rewrite (rbfind_ok cmp fuel s r t key H Hh). eauto.
  - destruct (key_find cmp key (inorder t)) as [k|] eqn:Hk.
    + rewrite (rbsearch_old cmp fuel s r t key k H Hh Hk). eauto.
    + destruct (rb_mem s) as [|mem] eqn:Em.
      * rewrite (rbsearch_nomem cmp fuel s r t key H Hh Hk Em). eauto.
      * destruct (rbsearch_new cmp fuel s r t key H Hh Hk ltac:(lia)) as (s' & t' & -> & H' & Hi & Hp & Hb).
        exists s'. split; [done|]. exists t'. split_and!; [done|done| |].
        -- rewrite (sb_mem _ _ _ _ Hb). cbn. by rewrite Em.
        -- eapply owns_new; [done|lia|done|done].
  - destruct (key_find cmp key (inorder t)) as [k|] eqn:Hk.
    + destruct (rbdelete_some cmp fuel s r t key k H Hh Hk) as (s' & t' & -> & H' & Hi & Hm).
      exists s'. split; [done|]. exists t'. split_and!; [done|done|apply Hm|by eapply owns_removed].
    + rewrite (rbdelete_none cmp fuel s r t key H Hh Hk). eauto.
Qed.

Lemma key_insert_length key l : length (key_insert cmp key l) = S (length l).
Proof. induction l as [|k l IH]; cbn; [done|]. destruct (_ <? 0); cbn; [done|]. by rewrite IH. Qed.

Lemma spec_op_length o st : (length (fst (snd (spec_op cmp o st))) <= S (length (fst st)))%nat.
Proof.
  destruct st as [l mem], o as [key|key|key]; cbn; [lia|..]; destruct (key_find cmp key l); cbn; try lia.
  - destruct mem; cbn; [lia|]. rewrite key_insert_length. lia.
  - pose proof (List.filter_length_le (fun k => negb (cmp key k =? 0)) l). unfold key_delete. lia.
Qed.

Lemma spec_ops_length os : forall st, (length (fst (snd (spec_ops cmp os st))) <= length os + length (fst st))%nat.
Proof.
  induction os as [|o os IH]; intros st; cbn [spec_ops length]; [cbn; lia|]. pose proof (spec_op_length o st) as H.
  destruct (spec_op cmp o st) as [a st1]. specialize (IH st1). destruct (spec_ops cmp os st1) as [l st2]. cbn in *. lia.
Qed.

Lemma rb_ops_ok fuel os : forall s st,
  stands_for s st -> (2 * Nat.log2 (S (length os + length (fst st))) < fuel)%nat ->
  exists s', run_ops cmp fuel r os s = Ok (fst (spec_ops cmp os st), s') /\ stands_for s' (snd (spec_ops cmp os st)).
Proof.
  induction os as [|o os IH]; intros s st H Hf; cbn [run_ops spec_ops]; [by exists s|].
  assert (forall n, (n <= S (length os + length (fst st)))%nat -> (2 * Nat.log2 (S n) < fuel)%nat) as Hl.
  { intros n Hn. pose proof (Nat.log2_le_mono (S n) (S (length (o :: os) + length (fst st))) ltac:(cbn; lia)). lia. }
  destruct (rb_op_ok fuel s st o H) as (s1 & U1 & H1); [apply Hl; lia|]. run U1.
  pose proof (spec_op_length o st) as Hlen. destruct (spec_op cmp o st) as [a st1] eqn:E1. cbn [fst snd] in *.
  destruct (IH s1 st1 H1) as (s2 & U2 & H2); [apply Hl; lia|]. run U2.
  destruct (spec_ops cmp os st1) as [l st2]. by exists s2.
Qed.

End Refinement.

Lemma init_stands cmp mem :
  rbinit (rb_empty (S mem)) = Ok (2, Rbst {[ RBNULL := rb_null ]} {[ 2 := RBNULL ]} 3 mem) /\
  stands_for cmp 2 mem (Rbst {[ RBNULL := rb_null ]} {[ 2 := RBNULL ]} 3 mem) ([], mem).
Proof.
  split; [done|]. exists E. split_and!; [|done|done|]; [|split; [|cbn; lia]; intros q Hq; apply lookup_singleton_ne; set_solver].
  constructor; [|done|cbn; lia|by exists 0%nat; constructor|constructor].
  constructor; [|done|apply lookup_singleton_eq|constructor|constructor].
  exists rb_null. split; [apply lookup_singleton_eq|done].
Qed.

(** After any sequence of operations on a new tree. *)
Lemma ops_end cmp mem ops :
  Comparison cmp ->
  let fuel := S (2 * Nat.log2 (S (length ops))) in
  exists s t, (r <- rbinit ;; run_ops cmp fuel r ops) (rb_empty (S mem)) = Ok (fst (spec_ops cmp ops ([], mem)), s) /\
    rb_tree cmp s 2 t /\ inorder t = fst (snd (spec_ops cmp ops ([], mem))) /\ owns mem s t /\ (height t <= fuel)%nat /\
    rb_mem s = snd (snd (spec_ops cmp ops ([], mem))).
Proof.
  intros Hc fuel. destruct (init_stands cmp mem) as [Hi Hs]. run Hi.
  destruct (rb_ops_ok cmp 2 mem fuel ops _ _ Hs) as (s & U & t & Ht & Hk & Hm & Ho); [unfold fuel; cbn; rewrite Nat.add_0_r; lia|].
  exists s, t. split_and!; [done..| |done]. pose proof (balanced_height _ (rt_balanced _ _ _ _ Ht)) as Hh.
  rewrite <- inorder_length, Hk in Hh. pose proof (spec_ops_length cmp ops ([], mem)) as Hl. cbn [fst length] in Hl.
  pose proof (Nat.log2_le_mono (S (length (fst (snd (spec_ops cmp ops ([], mem)))))) (S (length ops)) ltac:(lia)). unfold fuel. lia.
Qed.

(** C14: a tree made by [rbinit] behaves, under any sequence of [rbfind],
    [rbsearch] and [rbdelete] calls and for any comparison routine that orders
    its keys, exactly as the ordered list of its keys: every call returns what the
    list operation returns (0 when a key is absent or memory has run out).  No
    call dereferences a dangling pointer, and every loop ends within twice the
    logarithm of the number of calls, so the tree stays balanced throughout. *)
Theorem rb_refines_ordered_list cmp mem ops :
  Comparison cmp ->
  let fuel := S (2 * Nat.log2 (S (length ops))) in
  exists s, (r <- rbinit ;; run_ops cmp fuel r ops) (rb_empty (S mem)) = Ok (fst (spec_ops cmp ops ([], mem)), s) /\
    stands_for cmp 2 mem s (snd (spec_ops cmp ops ([], mem))).
Proof.
  intros Hc fuel. destruct (ops_end cmp mem ops Hc) as (s & t & U & Ht & Hk & Ho & _ & Hm). exists s. split; [done|]. by exists t.
Qed.

Definition by_value (a b : Z) : Z := a - b.

Lemma by_value_comparison : Comparison by_value.
Proof. unfold by_value. split; intros; [|lia]. rewrite <- Z.sgn_opp. f_equal. lia. Qed.

Definition demo_ops : list rb_op :=
  List.map OpSearch [50; 30; 80; 10; 90; 20; 70; 60; 40; 55; 65; 75] ++
  [OpFind 65; OpSearch 30; OpDelete 50; OpDelete 90; OpDelete 33; OpFind 50; OpDelete 10; OpDelete 20; OpDelete 30; OpFind 55].

Lemma rb_refines_ordered_list_witness :
  let fuel := S (2 * Nat.log2 (S (length demo_ops))) in
  exists s, (r <- rbinit ;; run_ops by_value fuel r demo_ops) (rb_empty 21) =
      Ok ([50; 30; 80; 10; 90; 20; 70; 60; 40; 55; 65; 75; 65; 30; 50; 90; 0; 0; 10; 20; 30; 55], s) /\
    stands_for by_value 2 20 s ([40; 55; 60; 65; 70; 75; 80], 13%nat).
Proof. exact (rb_refines_ordered_list by_value 20 demo_ops by_value_comparison). Defined.

(** ** Reading in order *)

Fixpoint cafter (z : list frame) : list (Z * Z) :=
  match z with
  | [] => []
  | f :: z => match f_side f with OnLeft => (f_p f, f_k f) :: cells (f_t f) | OnRight => [] end ++ cafter z
  end.

Definition first (l : list (Z * Z)) : Z := match l with [] => RBNULL | (p, _) :: _ => p end.

Lemma cafter_app z1 z2 : cafter (z1 ++ z2) = cafter z1 ++ cafter z2.
Proof. induction z1 as [|f z1 IH]; cbn; [done|]. by rewrite IH, app_assoc. Qed.

(** A cell of the tree, as a place in it. *)
Lemma cell_place t pre x k post :
  cells t = pre ++ (x, k) :: post ->
  exists z c l rr, t = plug z (T x c l k rr) /\ post = cells rr ++ cafter z.
Proof.
  revert pre post. induction t as [|p c l IHl k' rr IHr]; intros pre post H; cbn in H; [by destruct pre|].
  apply app_eq_inv in H as [(m & Hl & Hr)|(m & Hp & Hr)].
  - destruct m as [|[x' k''] m]; cbn in Hr; injection Hr as -> -> Hr.
    + exists [], c, l, rr. split; [done|]. cbn. by rewrite app_nil_r.
    + subst post. destruct (IHl _ _ Hl) as (z & c' & l' & r' & -> & ->). exists (z ++ [Frame OnLeft p c k' rr]), c', l', r'.
      rewrite plug_app, cafter_app. split; [done|]. cbn. by rewrite app_nil_r, <- app_assoc.
  - destruct m as [|[x' k''] m]; cbn in Hr.
    + injection Hr as -> -> Hr. exists [], c, l, rr. split; [done|]. cbn. by rewrite app_nil_r.
    + injection Hr as <- <- Hr. destruct (IHr _ _ Hr) as (z & c' & l' & r' & -> & ->). exists (z ++ [Frame OnRight p c k' l]), c', l', r'.
      rewrite plug_app, cafter_app. split; [done|]. cbn. by rewrite app_nil_r.
Qed.

Lemma first_app l1 l2 : l1 <> [] -> first (l1 ++ l2) = first l1.
Proof. by destruct l1 as [|[p k] l1]. Qed.

Lemma cells_nonempty t : t <> E -> cells t <> [].
Proof. destruct t as [|p c l k r]; [done|]. intros _. cbn. by destruct (cells l). Qed.

Lemma leftmost_first fuel s r z t :
  in_mem s r (plug z t) -> t <> E -> (height t <= fuel)%nat -> leftmost fuel (root_of t) s = Ok (first (cells t), s).
Proof.
  revert z t. induction fuel as [|fuel IH]; intros z t H Ht Hf; destruct t as [|y c l k rr]; [done|cbn in Hf; lia|done|].
  cbn [leftmost root_of]. pose proof (focus_node s r z OnLeft y c l k rr H) as Ny. cbn in Ny. read Ny. cbn in Hf.
  destruct l as [|y' c' l' k' r']; [done|].
  pose proof (H : in_mem s r (plug (Frame OnLeft y c k rr :: z) (T y' c' l' k' r'))) as H'.
  cbn [root_of]. rewrite (root_not_null _ _ _ _ _ _ _ _ H'). change y' with (root_of (T y' c' l' k' r')).
  cbn [cells]. rewrite first_app by (by apply (cells_nonempty (T y' c' l' k' r'))). apply (IH _ _ H'); [done|cbn in *; lia].
Qed.

Lemma climb_right_first fuel s r z t :
  in_mem s r (plug z t) -> t <> E -> (length z < fuel)%nat ->
  climb_right fuel (root_of t) (ctx_up z) s = Ok (first (cafter z), s).
Proof.
  revert z t. induction fuel as [|fuel IH]; intros z t H Ht Hf; [lia|]. cbn [climb_right].
  destruct z as [|f z]; [done|]. cbn [ctx_up].
  destruct (ctx_facts _ _ _ _ H _ _ eq_refl) as (Nf & Hnull & Hne & _). rewrite (proj2 (Z.eqb_neq _ _) Hnull).
  specialize (Hne Ht). unfold frame_node in Nf. destruct f as [[] p c k t']; cbn in Nf, Hne; cbn [f_p cafter f_side f_k f_t app].
  - read Nf. by rewrite (proj2 (Z.eqb_neq _ _) Hne).
  - read Nf. rewrite Z.eqb_refl. read Nf. apply (IH z (T p c t' k t) H); [done|cbn in Hf; lia].
Qed.

Lemma successor_first fuel s r t pre x k post :
  in_mem s r t -> cells t = pre ++ (x, k) :: post -> (height t <= fuel)%nat -> (0 < fuel)%nat ->
  rb_successor fuel x s = Ok (first post, s).
Proof.
  intros H Hc Hf H0. destruct (cell_place _ _ _ _ _ Hc) as (z & c & l & rr & -> & ->). clear Hc.
  pose proof (height_plug z (T x c l k rr)) as Hh. cbn in Hh.
  pose proof (focus_node s r z OnLeft x c l k rr H) as Nx. cbn in Nx. unfold rb_successor. read Nx.
  destruct rr as [|y c' l' k' r'].
  - cbn [root_of]. rewrite Z.eqb_refl. cbn [negb]. read Nx. change x with (root_of (T x c l k E)). by apply (climb_right_first _ _ r); [| |lia].
  - pose proof (H : in_mem s r (plug (Frame OnRight x c k l :: z) (T y c' l' k' r'))) as H'. cbn [root_of].
    rewrite (root_not_null _ _ _ _ _ _ _ _ H'). cbn [negb]. change y with (root_of (T y c' l' k' r')).
    rewrite first_app by (by apply (cells_nonempty (T y c' l' k' r'))). apply (leftmost_first _ _ r _ _ H'); [done|cbn in *; lia].
Qed.

(** [rbopenlist] and then [n] calls of [rbreadlist]. *)
Fixpoint read_keys (fuel n : nat) (p : Z) : rb_m (list Z) :=
  match n with
  | O => ret []
  | S n => kp <- rbreadlist fuel p ;; l <- read_keys fuel n (snd kp) ;; ret (fst kp :: l)
  end.

Lemma read_keys_ok fuel s r t n : in_mem s r t -> (height t <= fuel)%nat -> forall pre post,
  cells t = pre ++ post -> read_keys fuel (length post + n) (first post) s = Ok (post.*2 ++ replicate n 0, s).
Proof.
  intros H Hf pre post. revert pre. induction post as [|[x k] post IH]; intros pre Hc; cbn [length plus first].
  - induction n as [|n IHn]; [done|]. cbn [read_keys]. unfold rbreadlist at 1. rewrite Z.eqb_refl.
    rewrite (bind_ok (ret (0, RBNULL)) _ s (0, RBNULL) s) by done. cbn [snd fst]. by run IHn.
  - cbn [read_keys]. destruct (cell_place _ _ _ _ _ Hc) as (z & c & l & rr & Et & _). pose proof H as Hm. rewrite Et in Hm.
    assert (rbreadlist fuel x s = Ok ((k, first post), s)) as U.
    { unfold rbreadlist. rewrite (root_not_null _ _ _ _ _ _ _ _ Hm). cbn [negb].
      pose proof (focus_node s r z OnLeft x c l k rr Hm) as Nx. read Nx.
      pose proof (height_plug z (T x c l k rr)) as Hh. rewrite <- Et in Hh. cbn in Hh.
      by run (successor_first fuel s r t pre x k post H Hc Hf ltac:(lia)). }
    run U. cbn [fst snd]. rewrite (cons_middle (x, k) pre post) in Hc. rewrite app_assoc in Hc. by run (IH _ Hc).
Qed.

(** Opening a tree for reading and reading its list returns its keys in the
    order of the comparison, each once, and then null pointers, whatever the
    insertions and deletions that made the tree. *)
Theorem rb_read_in_order cmp mem ops n :
  Comparison cmp ->
  let fuel := S (2 * Nat.log2 (S (length ops))) in
  let keys := fst (snd (spec_ops cmp ops ([], mem))) in
  exists s, (r <- rbinit ;; run_ops cmp fuel r ops ;; p <- rbopenlist fuel r ;; read_keys fuel (length keys + n) p)
      (rb_empty (S mem)) = Ok (keys ++ replicate n 0, s) /\ increasing cmp keys.
Proof.
  intros Hc fuel keys. destruct (ops_end cmp mem ops Hc) as (s & t & U & [Hm _ _ _ Ho] & Hk & _ & Hf & _).
  fold fuel keys in U, Hf, Hk. apply bind_inv_ok in U as (r & s1 & Ui & U). rewrite (bind_ok _ _ _ _ _ Ui). run U.
  assert (r = 2) as -> by (by injection Ui).
  assert (rbopenlist fuel 2 s = Ok (first (cells t), s)) as Up.
  { unfold rbopenlist. cbn [Z.eqb]. run (root_at_run _ _ _ Hm). destruct t as [|p c l k rr]; [done|]. cbn [root_of].
    rewrite (root_not_null s 2 [] p c l k rr Hm). cbn [negb]. by apply (leftmost_first fuel s 2 [] (T p c l k rr) Hm). }
  run Up. exists s. rewrite Hk in Ho. split; [|done]. rewrite <- Hk, <- (cells_inorder t), length_fmap.
  apply (read_keys_ok fuel s 2 t n Hm Hf [] (cells t) eq_refl).
Qed.

Lemma rb_read_in_order_witness :
  let fuel := S (2 * Nat.log2 (S (length demo_ops))) in
  exists s, (r <- rbinit ;; run_ops by_value fuel r demo_ops ;; p <- rbopenlist fuel r ;; read_keys fuel 9 p) (rb_empty 21) =
      Ok ([40; 55; 60; 65; 70; 75; 80; 0; 0], s) /\ increasing by_value [40; 55; 60; 65; 70; 75; 80].
Proof. exact (rb_read_in_order by_value 20 demo_ops 2 by_value_comparison). Defined.

(** ** Destroying *)

Lemma rb_destroy_ok fuel : forall s u t,
  rep (rb_nodes s) u t -> NoDup (addrs t) -> RBNULL ∉ addrs t -> t <> E -> (height t <= fuel)%nat ->
  exists s', rb_destroy fuel (root_of t) s = Ok (tt, s') /\
    (forall q, rb_nodes s' !! q = if decide (q ∈ addrs t) then None else rb_nodes s !! q) /\
    rb_root s' = rb_root s /\ rb_next s' = rb_next s /\ rb_mem s' = (rb_mem s + length (addrs t))%nat.
Proof.
  induction fuel as [|fuel IH]; intros s u t Ht Hnd Hnull Hne Hf; destruct t as [|p c l k rr]; [done|cbn in Hf; lia|done|].
  cbn [rb_destroy root_of]. cbn in Ht, Hnd, Hnull, Hf. destruct Ht as (Np & Hl & Hr).
  apply list.NoDup_cons in Hnd as [P1 Hnd]. apply list.NoDup_app in Hnd as (L1 & LR & R1). rewrite not_elem_of_app in P1.
  rewrite (proj2 (Z.eqb_neq p RBNULL)) by set_solver. read Np.
  assert (forall s v t, rep (rb_nodes s) v t -> NoDup (addrs t) -> RBNULL ∉ addrs t -> (height t <= fuel)%nat ->
    exists s', when (negb (root_of t =? RBNULL)) (rb_destroy fuel (root_of t)) s = Ok (tt, s') /\
    (forall q, rb_nodes s' !! q = if decide (q ∈ addrs t) then None else rb_nodes s !! q) /\
    rb_root s' = rb_root s /\ rb_next s' = rb_next s /\ rb_mem s' = (rb_mem s + length (addrs t))%nat) as IH'.
  { clear -IH. intros s v t Ht Hnd Hnull Hf. destruct t as [|p c l k rr].
    - exists s. split_and!; [done| |done|done|cbn; lia]. intros q. rewrite decide_False by (cbn; set_solver). done.
    - cbn [root_of]. rewrite (proj2 (Z.eqb_neq p RBNULL)) by (cbn in Hnull; set_solver). by apply (IH s v (T p c l k rr)). }
  destruct (IH' s p l Hl L1 ltac:(set_solver) ltac:(lia)) as (s1 & U1 & O1 & A1 & A2 & A3). run U1.
  assert (rb_nodes s1 !! p = Some (Node (root_of l) (root_of rr) u c k)) as Np1 by (rewrite O1, decide_False; tauto).
  read Np1. destruct (IH' s1 p rr) as (s2 & U2 & O2 & B1 & B2 & B3); [|done|set_solver|lia|].
  { apply (rep_ext (rb_nodes s)); [|done]. intros q Hq. rewrite O1, decide_False; [done|]. intros Hq'. by apply (LR q). }
  run U2. assert (rb_nodes s2 !! p = Some (Node (root_of l) (root_of rr) u c k)) as Np2 by (rewrite O2, decide_False; tauto).
  unfold rb_free. run (node_at_run _ _ _ Np2). eexists. split; [done|]. split_and!; cbn; [|congruence|congruence|rewrite length_app; lia].
  intros q. destruct (decide (q = p)) as [->|Hqp]; [rewrite lookup_delete_eq, decide_True by set_solver; done|].
  rewrite lookup_delete_ne, O2, O1 by done. repeat case_decide; set_solver.
Qed.

(** After any sequence of operations, destroying the tree frees every node it
    has and each only once: nothing but the sentinel is left in memory, the tree
    itself is gone, and the number of allocations that can be made is what it was
    before [rbinit]. *)
Theorem rb_destroy_frees_all cmp mem ops :
  Comparison cmp ->
  let fuel := S (2 * Nat.log2 (S (length ops))) in
  exists s, (r <- rbinit ;; run_ops cmp fuel r ops ;; rbdestroy fuel r) (rb_empty (S mem)) = Ok (tt, s) /\
    (forall q, q <> RBNULL -> rb_nodes s !! q = None) /\ rb_root s !! 2 = None /\ rb_mem s = S mem.
Proof.
  intros Hc fuel. destruct (ops_end cmp mem ops Hc) as (s & t & U & [Hm _ _ _ _] & _ & [Ho1 Ho2] & Hf & _).
  fold fuel in U, Hf. apply bind_inv_ok in U as (r & s1 & Ui & U). rewrite (bind_ok _ _ _ _ _ Ui). run U.
  assert (r = 2) as -> by (by injection Ui).
  unfold rbdestroy. cbn [Z.eqb]. run (root_at_run _ _ _ Hm). destruct t as [|p c l k rr].
  - eexists. split; [done|]. split_and!; cbn in *; [|apply lookup_delete_eq|lia]. intros q Hq. apply Ho1. set_solver.
  - cbn [root_of]. rewrite (root_not_null s 2 [] p c l k rr Hm). cbn [negb when].
    destruct (rb_destroy_ok fuel s RBNULL (T p c l k rr) (im_rep _ _ _ Hm) (im_nodup _ _ _ Hm) (null_out _ _ _ Hm) ltac:(done) Hf)
      as (s' & U' & O & _ & _ & M). cbn [root_of] in U'. run U'.
    eexists. split; [done|]. split_and!; cbn [rb_nodes rb_root rb_mem]; [|apply lookup_delete_eq|lia].
    intros q Hq. rewrite O. case_decide; [done|]. apply Ho1. set_solver.
Qed.

Lemma rb_destroy_frees_all_witness :
  let fuel := S (2 * Nat.log2 (S (length demo_ops))) in
  exists s, (r <- rbinit ;; run_ops by_value fuel r demo_ops ;; rbdestroy fuel r) (rb_empty 21) = Ok (tt, s) /\
    (forall q, q <> RBNULL -> rb_nodes s !! q = None) /\ rb_root s !! 2 = None /\ rb_mem s = 21%nat.
Proof. exact (rb_destroy_frees_all by_value 20 demo_ops by_value_comparison). Defined.
