(* ===== verification/Inotify.v ===== *)
(** * Watching files (libinotifytools/inotifytools.c)

    The library keeps a watch for every watched file: its descriptor, its name
    and counters, reachable through two red-black trees, one ordered by
    descriptor and one by name.  It sets watches on whole directory trees,
    reads events from the kernel, counts them, and converts them to text and
    back.  The kernel (inotify and the file system) is a parameter. *)

From S2P Require Import Prelude RedBlack.

(** ** Events *)

Definition IN_ACCESS : Z := 0x00000001.
Definition IN_MODIFY : Z := 0x00000002.
Definition IN_ATTRIB : Z := 0x00000004.
Definition IN_CLOSE_WRITE : Z := 0x00000008.
Definition IN_CLOSE_NOWRITE : Z := 0x00000010.
Definition IN_OPEN : Z := 0x00000020.
Definition IN_MOVED_FROM : Z := 0x00000040.
Definition IN_MOVED_TO : Z := 0x00000080.
Definition IN_CREATE : Z := 0x00000100.
Definition IN_DELETE : Z := 0x00000200.
Definition IN_DELETE_SELF : Z := 0x00000400.
Definition IN_MOVE_SELF : Z := 0x00000800.
Definition IN_UNMOUNT : Z := 0x00002000.
Definition IN_Q_OVERFLOW : Z := 0x00004000.
Definition IN_IGNORED : Z := 0x00008000.
Definition IN_CLOSE : Z := Z.lor IN_CLOSE_WRITE IN_CLOSE_NOWRITE.
Definition IN_MOVE : Z := Z.lor IN_MOVED_FROM IN_MOVED_TO.
Definition IN_ISDIR : Z := 0x40000000.
Definition IN_ONESHOT : Z := 0x80000000.
Definition IN_ALL_EVENTS : Z := 0x00000fff.

(** [mask & bit] as a condition. *)
Definition has (mask bit : Z) : bool := negb (Z.land mask bit =? 0).

(** [tolower] and [strcasecmp(a, b) == 0]. *)
Definition tolower (c : Z) : Z := if (65 <=? c) && (c <=? 90) then c + 32 else c.
Definition strcaseeq (a b : list Z) : bool := streq (map tolower a) (map tolower b).

(** The names [onestr_to_event] compares with, in its order.  Values of type
    [int] are signed. *)
Definition event_names : list (list Z * Z) :=
  [(bs "ACCESS", IN_ACCESS); (bs "MODIFY", IN_MODIFY); (bs "ATTRIB", IN_ATTRIB);
   (bs "CLOSE_WRITE", IN_CLOSE_WRITE); (bs "CLOSE_NOWRITE", IN_CLOSE_NOWRITE); (bs "OPEN", IN_OPEN);
   (bs "MOVED_FROM", IN_MOVED_FROM); (bs "MOVED_TO", IN_MOVED_TO); (bs "CREATE", IN_CREATE);
   (bs "DELETE", IN_DELETE); (bs "DELETE_SELF", IN_DELETE_SELF); (bs "UNMOUNT", IN_UNMOUNT);
   (bs "Q_OVERFLOW", IN_Q_OVERFLOW); (bs "IGNORED", IN_IGNORED); (bs "CLOSE", IN_CLOSE);
   (bs "MOVE_SELF", IN_MOVE_SELF); (bs "MOVE", IN_MOVE); (bs "ISDIR", IN_ISDIR);
   (bs "ONESHOT", IN_ONESHOT); (bs "ALL_EVENTS", IN_ALL_EVENTS)].

Fixpoint lookup_name (names : list (list Z * Z)) (event : list Z) : Z :=
  match names with
  | [] => -1
  | (n, v) :: names => if strcaseeq event n then s32 v else lookup_name names event
  end.

Definition onestr_to_event (event : list Z) : Z :=
  match event with [] => 0 | _ => lookup_name event_names event end.

(** A letter or an underscore, or the terminating NUL, which [strchr] finds too. *)
Definition bad_sep (sep : Z) : bool :=
  ((65 <=? sep) && (sep <=? 90)) || ((97 <=? sep) && (sep <=? 122)) || (sep =? 95) || (sep =? 0).

Fixpoint str_to_event_loop (fuel : nat) (sep : Z) (event1 : list Z) (acc : Z) : Z :=
  match fuel with
  | O => acc
  | S f =>
      let '(eventstr, event2) :=
        match strchr sep event1 with
        | Some (tok, rest) => (tok, Some rest)
        | None => (event1, None)
        end in
      let ret1 := onestr_to_event (take (Z.to_nat 4095) eventstr) in
      if (ret1 =? 0) || (ret1 =? -1) then ret1
      else
        let acc := Z.lor acc ret1 in
        match event2 with
        | None => acc
        | Some [] => 0
        | Some rest => str_to_event_loop f sep rest acc
        end
  end.

Definition inotifytools_str_to_event_sep (event : list Z) (sep : Z) : Z :=
  if bad_sep sep then -1
  else match event with
       | [] => 0
       | _ => str_to_event_loop (length event) sep event 0
       end.

Definition inotifytools_str_to_event (event : list Z) : Z := inotifytools_str_to_event_sep event 44.

(** The names [inotifytools_event_to_str_sep] appends, in its order. *)
Definition shown_names : list (list Z * Z) :=
  [(bs "ACCESS", IN_ACCESS); (bs "MODIFY", IN_MODIFY); (bs "ATTRIB", IN_ATTRIB);
   (bs "CLOSE_WRITE", IN_CLOSE_WRITE); (bs "CLOSE_NOWRITE", IN_CLOSE_NOWRITE); (bs "OPEN", IN_OPEN);
   (bs "MOVED_FROM", IN_MOVED_FROM); (bs "MOVED_TO", IN_MOVED_TO); (bs "CREATE", IN_CREATE);
   (bs "DELETE", IN_DELETE); (bs "DELETE_SELF", IN_DELETE_SELF); (bs "UNMOUNT", IN_UNMOUNT);
   (bs "Q_OVERFLOW", IN_Q_OVERFLOW); (bs "IGNORED", IN_IGNORED); (bs "CLOSE", IN_CLOSE);
   (bs "MOVE_SELF", IN_MOVE_SELF); (bs "ISDIR", IN_ISDIR); (bs "ONESHOT", IN_ONESHOT)].

(** The static buffer [ret]: the separator and the name of every event in the
    mask, or the separator and the number; the result starts after the first
    separator. *)
Definition event_str_buffer (events sep : Z) : list Z :=
  let ret := concat (map (fun nv => if has events (snd nv) then sep :: fst nv else []) shown_names) in
  match ret with
  | [] => sep :: bs "0x" ++ hex_pad 8 (u32 events)
  | _ => ret
  end.

Definition inotifytools_event_to_str_sep (events sep : Z) : list Z := drop 1 (event_str_buffer events sep).

Definition inotifytools_event_to_str (events : Z) : list Z := inotifytools_event_to_str_sep events 44.

(** ** Counters *)

(** The counters of a watch ([hit_*]) and of the library ([num_*]). *)
Record stats := Stats {
  n_access : Z; n_modify : Z; n_attrib : Z; n_close_write : Z; n_close_nowrite : Z; n_open : Z;
  n_moved_from : Z; n_moved_to : Z; n_create : Z; n_delete : Z; n_delete_self : Z; n_unmount : Z;
  n_move_self : Z; n_total : Z;
}.

Definition no_stats : stats := Stats 0 0 0 0 0 0 0 0 0 0 0 0 0 0.

Definition incr (c : bool) (n : Z) : Z := if c then u32 (n + 1) else n.

(** The increments [record_stats] makes to one set of counters. *)
Definition tally (mask : Z) (s : stats) : stats :=
  Stats (incr (has mask IN_ACCESS) (n_access s)) (incr (has mask IN_MODIFY) (n_modify s))
    (incr (has mask IN_ATTRIB) (n_attrib s)) (incr (has mask IN_CLOSE_WRITE) (n_close_write s))
    (incr (has mask IN_CLOSE_NOWRITE) (n_close_nowrite s)) (incr (has mask IN_OPEN) (n_open s))
    (incr (has mask IN_MOVED_FROM) (n_moved_from s)) (incr (has mask IN_MOVED_TO) (n_moved_to s))
    (incr (has mask IN_CREATE) (n_create s)) (incr (has mask IN_DELETE) (n_delete s))
    (incr (has mask IN_DELETE_SELF) (n_delete_self s)) (incr (has mask IN_UNMOUNT) (n_unmount s))
    (incr (has mask IN_MOVE_SELF) (n_move_self s)) (incr true (n_total s)).

(** The counter for one event ([stat_ptr], and the cases of
    [inotifytools_get_stat_total]); 0 is the total. *)
Definition stat_of (event : Z) (s : stats) : option Z :=
  if event =? IN_ACCESS then Some (n_access s)
  else if event =? IN_MODIFY then Some (n_modify s)
  else if event =? IN_ATTRIB then Some (n_attrib s)
  else if event =? IN_CLOSE_WRITE then Some (n_close_write s)
  else if event =? IN_CLOSE_NOWRITE then Some (n_close_nowrite s)
  else if event =? IN_OPEN then Some (n_open s)
  else if event =? IN_MOVED_FROM then Some (n_moved_from s)
  else if event =? IN_MOVED_TO then Some (n_moved_to s)
  else if event =? IN_CREATE then Some (n_create s)
  else if event =? IN_DELETE then Some (n_delete s)
  else if event =? IN_DELETE_SELF then Some (n_delete_self s)
  else if event =? IN_UNMOUNT then Some (n_unmount s)
  else if event =? IN_MOVE_SELF then Some (n_move_self s)
  else if event =? 0 then Some (n_total s)
  else None.

(** ** Watches *)

Record watch := Watch { w_filename : list Z; w_wd : Z; w_hits : stats }.

(** The static variables of the library.  Watches are found by address; a
    freed one is no longer found. *)
Record ino := Ino {
  i_watches : gmap Z watch;
  i_next : Z;
  i_rb : rbst;
  tree_wd : Z;
  tree_filename : Z;
  i_init : bool;
  i_error : Z;
  i_collect : bool;
  i_num : stats;
}.

Definition set_watches (m : gmap Z watch) (s : ino) : ino :=
  Ino m (i_next s) (i_rb s) (tree_wd s) (tree_filename s) (i_init s) (i_error s) (i_collect s) (i_num s).
Definition set_rb (b : rbst) (s : ino) : ino :=
  Ino (i_watches s) (i_next s) b (tree_wd s) (tree_filename s) (i_init s) (i_error s) (i_collect s) (i_num s).
Definition set_error (e : Z) (s : ino) : ino :=
  Ino (i_watches s) (i_next s) (i_rb s) (tree_wd s) (tree_filename s) (i_init s) e (i_collect s) (i_num s).

Definition ino_m := M ino.

(** An operation on the memory of the trees. *)
Definition on_rb (A : Type) (m : M rbst A) : ino_m A :=
  fun s => match m (i_rb s) with
           | Ok (a, b) => Ok (a, set_rb b s)
           | Err e => Err e
           end.
Arguments on_rb {A} m.

(** The loops of the tree operations are no longer than the tree has nodes. *)
Definition rb_fuel (s : ino) : nat := S (size (rb_nodes (i_rb s))).

Definition watch_at (p : Z) : ino_m watch := s <- get ;; deref (i_watches s !! p).
Definition put_watch (p : Z) (w : watch) : ino_m unit :=
  modify (fun s => set_watches (<[p := w]> (i_watches s)) s).

(** [strcmp]: negative, zero or positive. *)
Fixpoint strcmp (a b : list Z) : Z :=
  match a, b with
  | [], [] => 0
  | [], _ :: _ => -1
  | _ :: _, [] => 1
  | x :: a, y :: b => if x =? y then strcmp a b else x - y
  end.

(** The comparison routines read the watches their arguments point to. *)
Definition wd_of (ws : gmap Z watch) (p : Z) : Z := default 0 (w_wd <$> ws !! p).
Definition name_of (ws : gmap Z watch) (p : Z) : list Z := default [] (w_filename <$> ws !! p).

(** Null pointers (addresses are positive) are ordered by address. *)
Definition wd_compare (ws : gmap Z watch) (d1 d2 : Z) : Z :=
  if (d1 <=? 0) || (d2 <=? 0) then d1 - d2 else wd_of ws d1 - wd_of ws d2.
Definition filename_compare (ws : gmap Z watch) (d1 d2 : Z) : Z :=
  if (d1 <=? 0) || (d2 <=? 0) then d1 - d2 else strcmp (name_of ws d1) (name_of ws d2).

(** The address of the local variable [w] that the lookups use as a key; the
    addresses of watches are greater. *)
Definition STACK : Z := 1.

Definition watch_from_wd (wd : Z) : ino_m Z :=
  s <- get ;;
  on_rb (rbfind (wd_compare (<[STACK := Watch [] wd no_stats]> (i_watches s))) (rb_fuel s) STACK (tree_wd s)).

Definition watch_from_filename (filename : list Z) : ino_m Z :=
  s <- get ;;
  on_rb (rbfind (filename_compare (<[STACK := Watch filename 0 no_stats]> (i_watches s))) (rb_fuel s) STACK (tree_filename s)).

Definition tree_delete (cmp : gmap Z watch -> Z -> Z -> Z) (tree : ino -> Z) (w : Z) : ino_m Z :=
  s <- get ;; on_rb (rbdelete (cmp (i_watches s)) (rb_fuel s) w (tree s)).

Definition tree_search (cmp : gmap Z watch -> Z -> Z -> Z) (tree : ino -> Z) (w : Z) : ino_m Z :=
  s <- get ;; on_rb (rbsearch (cmp (i_watches s)) (rb_fuel s) w (tree s)).

(** ** The kernel *)

Record kernel := Kernel {
  (** [inotify_init]: a descriptor, or negative *)
  k_init : Z;
  (** [inotify_add_watch]: the descriptor and [errno] *)
  k_add : list Z -> Z -> Z * Z;
  (** [inotify_rm_watch] *)
  k_rm : Z -> Z;
  (** [lstat]: [errno], or the mode *)
  k_lstat : list Z -> Z + Z;
  (** [opendir] and [readdir]: [errno], or the names *)
  k_dir : list Z -> Z + list (list Z);
}.

Definition ENOENT : Z := 2.
Definition EACCES : Z := 13.
Definition ENOTDIR : Z := 20.
Definition ELOOP : Z := 40.

Definition k_isdir (m : Z) : bool := Z.land m 0xf000 =? 0x4000.

Section Calls.

Context (k : kernel).

Definition isdir (path : list Z) : bool :=
  match k_lstat k path with
  | inl _ => false
  | inr mode => k_isdir mode && negb (Z.land mode 0xf000 =? 0xa000)
  end.

Definition inotifytools_initialize : ino_m Z :=
  s <- get ;;
  if i_init s then ret 1
  else if k_init k <? 0 then modify (set_error (k_init k)) ;; ret 0
  else
    tw <- on_rb rbinit ;;
    tf <- on_rb rbinit ;;
    modify (fun s => Ino (i_watches s) (i_next s) (i_rb s) tw tf true 0 false (i_num s)) ;;
    ret 1.

Definition inotifytools_filename_from_wd (wd : Z) : ino_m (option (list Z)) :=
  w <- watch_from_wd wd ;;
  if w =? 0 then ret None else x <- watch_at w ;; ret (Some (w_filename x)).

Definition inotifytools_wd_from_filename (filename : list Z) : ino_m Z :=
  w <- watch_from_filename filename ;;
  if w =? 0 then ret (-1) else x <- watch_at w ;; ret (w_wd x).

Definition destroy_watch (w : Z) : ino_m unit :=
  watch_at w ;; modify (fun s => set_watches (delete w (i_watches s)) s).

Definition create_watch (wd : Z) (filename : list Z) : ino_m unit :=
  if wd <=? 0 then ret tt
  else
    s <- get ;;
    let w := i_next s in
    modify (fun s => Ino (<[w := Watch filename wd no_stats]> (i_watches s)) (w + 1) (i_rb s) (tree_wd s)
                      (tree_filename s) (i_init s) (i_error s) (i_collect s) (i_num s)) ;;
    tree_search wd_compare tree_wd w ;;
    tree_search filename_compare tree_filename w ;;
    ret tt.

Definition remove_inotify_watch (w : Z) : ino_m bool :=
  modify (set_error 0) ;;
  x <- watch_at w ;;
  let status := k_rm k (w_wd x) in
  if status <? 0 then modify (set_error status) ;; ret false else ret true.

(** The common part of the two removals. *)
Definition remove_watch (w : Z) : ino_m Z :=
  if w =? 0 then ret 1
  else
    ok <- remove_inotify_watch w ;;
    if negb ok then ret 0
    else
      tree_delete wd_compare tree_wd w ;;
      tree_delete filename_compare tree_filename w ;;
      destroy_watch w ;;
      ret 1.

Definition inotifytools_remove_watch_by_wd (wd : Z) : ino_m Z := w <- watch_from_wd wd ;; remove_watch w.
Definition inotifytools_remove_watch_by_filename (filename : list Z) : ino_m Z :=
  w <- watch_from_filename filename ;; remove_watch w.

(** [s[strlen(s) - 1]]: the byte before an empty string does not exist. *)
Definition last_byte (s : list Z) : ino_m Z := deref (list.last s).

Definition watch_name (filename : list Z) : ino_m (list Z) :=
  if negb (isdir filename) then ret filename
  else
    c <- last_byte filename ;;
    ret (if c =? 47 then filename else filename ++ [47]).

Fixpoint watch_files_loop (filenames : list (list Z)) (events : Z) : ino_m Z :=
  match filenames with
  | [] => ret 1
  | f :: fs =>
      let '(wd, errno) := k_add k f events in
      if wd <? 0 then
        when (wd =? -1) (modify (set_error errno)) ;; ret 0
      else
        name <- watch_name f ;;
        create_watch wd name ;;
        watch_files_loop fs events
  end.

Definition inotifytools_watch_files (filenames : list (list Z)) (events : Z) : ino_m Z :=
  modify (set_error 0) ;; watch_files_loop filenames events.

Definition inotifytools_watch_file (filename : list Z) (events : Z) : ino_m Z :=
  inotifytools_watch_files [filename] events.

(** One name of the exclude list against the path of a directory, which ends in
    a slash. *)
Definition excluded1 (next_file entry : list Z) : bool :=
  let len := if bool_decide (list.last entry = Some 47) then (length entry - 1)%nat else length entry in
  (length next_file =? len + 1)%nat && streq (take len entry) (take len next_file).

Definition excluded (exclude_list : list (list Z)) (next_file : list Z) : bool :=
  existsb (excluded1 next_file) exclude_list.

Definition is_dot_or_dotdot (name : list Z) : bool := streq name (bs ".") || streq name (bs "..").

(** The loop over the entries of a directory; [rec] is the recursive call. *)
Fixpoint watch_entries (rec : list Z -> ino_m Z) (exclude_list : list (list Z)) (my_path : list Z)
    (ents : list (list Z)) : ino_m bool :=
  match ents with
  | [] => ret true
  | d_name :: ents =>
      let continue := modify (set_error 0) ;; watch_entries rec exclude_list my_path ents in
      if is_dot_or_dotdot d_name then continue
      else
        let next_file := my_path ++ d_name in
        match k_lstat k next_file with
        | inl errno =>
            modify (set_error errno) ;;
            if negb (errno =? EACCES) then ret false else continue
        | inr mode =>
            if k_isdir mode && negb (Z.land mode 0xf000 =? 0xa000) then
              let next_file := next_file ++ [47] in
              if excluded exclude_list next_file then continue
              else
                status <- rec next_file ;;
                s <- get ;;
                if (status =? 0) && negb ((i_error s =? EACCES) || (i_error s =? ENOENT) || (i_error s =? ELOOP))
                then ret false
                else continue
            else continue
        end
  end.

(** [fuel] bounds the depth of the directory tree. *)
Fixpoint inotifytools_watch_recursively_with_exclude (fuel : nat) (path : list Z) (events : Z)
    (exclude_list : list (list Z)) : ino_m Z :=
  match fuel with
  | O => fail EFuel
  | S f =>
      modify (set_error 0) ;;
      match k_dir k path with
      | inl errno =>
          if errno =? ENOTDIR then inotifytools_watch_file path events
          else modify (set_error errno) ;; ret 0
      | inr ents =>
          c <- last_byte path ;;
          let my_path := if c =? 47 then path else path ++ [47] in
          ok <- watch_entries (fun p => inotifytools_watch_recursively_with_exclude f p events exclude_list)
                  exclude_list my_path ents ;;
          if negb ok then ret 0 else inotifytools_watch_file my_path events
      end
  end.

Definition inotifytools_watch_recursively (fuel : nat) (path : list Z) (events : Z) : ino_m Z :=
  inotifytools_watch_recursively_with_exclude fuel path events [].

End Calls.

(** ** Renaming *)

(** [inotifytools_set_filename_by_wd] and [_by_filename] replace the name in
    place. *)
Definition set_filename (w : Z) (filename : list Z) : ino_m unit :=
  if w =? 0 then ret tt
  else x <- watch_at w ;; put_watch w (Watch filename (w_wd x) (w_hits x)).

Definition inotifytools_set_filename_by_wd (wd : Z) (filename : list Z) : ino_m unit :=
  w <- watch_from_wd wd ;; set_filename w filename.
Definition inotifytools_set_filename_by_filename (oldname newname : list Z) : ino_m unit :=
  w <- watch_from_filename oldname ;; set_filename w newname.

Definition counts_visit (which : visit) : bool := match which with endorder | leaf => true | _ => false end.

(** The action [replace_filename] of a walk over the tree of names, which
    removes and inserts nodes of that same tree. *)
Definition replace_filename (old_name new_name : list Z) (w : Z) (which : visit) (_ : Z) : ino_m unit :=
  when (counts_visit which) (
    x <- watch_at w ;;
    when (prefixb old_name (w_filename x)) (
      let name := new_name ++ drop (length old_name) (w_filename x) in
      when (negb (streq (w_filename x) new_name)) (
        tree_delete filename_compare tree_filename w ;;
        put_watch w (Watch name (w_wd x) (w_hits x)) ;;
        tree_search filename_compare tree_filename w ;;
        ret tt))).

Definition inotifytools_replace_filename (oldname newname : list Z) : ino_m unit :=
  s <- get ;;
  rbwalk (@on_rb) (replace_filename oldname newname) (rb_fuel s + rb_fuel s) (tree_filename s).

(** [inotifytools_get_num_watches]: the walk adds one for every node, in a
    variable of its own. *)
Definition inotifytools_get_num_watches : ino_m Z :=
  fun s =>
    match rbwalk (fun A (m : M rbst A) (st : rbst * Z) =>
                    match m (fst st) with Ok (a, b) => Ok (a, (b, snd st)) | Err e => Err e end)
            (fun _ which _ => when (counts_visit which) (modify (fun st => (fst st, snd st + 1))))
            (rb_fuel s) (tree_filename s) (i_rb s, 0) with
    | Ok (_, (b, n)) => Ok (n, set_rb b s)
    | Err e => Err e
    end.

(** [inotifytools_cleanup] walks the tree of descriptors and frees the watches,
    then the trees. *)
Definition cleanup_tree (w : Z) (which : visit) (_ : Z) : ino_m unit := when (counts_visit which) (destroy_watch w).

Definition inotifytools_cleanup : ino_m unit :=
  s <- get ;;
  when (i_init s) (
    modify (fun s => Ino (i_watches s) (i_next s) (i_rb s) (tree_wd s) (tree_filename s) false 0 false (i_num s)) ;;
    rbwalk (@on_rb) cleanup_tree (rb_fuel s) (tree_wd s) ;;
    on_rb (rbdestroy (rb_fuel s) (tree_wd s)) ;;
    on_rb (rbdestroy (rb_fuel s) (tree_filename s)) ;;
    modify (fun s => Ino (i_watches s) (i_next s) (i_rb s) 0 0 (i_init s) (i_error s) (i_collect s) (i_num s))).

(** ** Statistics *)

Definition record_stats (wd mask : Z) : ino_m unit :=
  w <- watch_from_wd wd ;;
  if w =? 0 then ret tt
  else
    x <- watch_at w ;;
    put_watch w (Watch (w_filename x) (w_wd x) (tally mask (w_hits x))) ;;
    modify (fun s => Ino (i_watches s) (i_next s) (i_rb s) (tree_wd s) (tree_filename s) (i_init s) (i_error s)
                      (i_collect s) (tally mask (i_num s))).

Definition empty_stats (w : Z) (which : visit) (_ : Z) : ino_m unit :=
  when (counts_visit which) (x <- watch_at w ;; put_watch w (Watch (w_filename x) (w_wd x) no_stats)).

Definition inotifytools_initialize_stats : ino_m unit :=
  s <- get ;;
  when (i_collect s) (rbwalk (@on_rb) empty_stats (rb_fuel s) (tree_wd s)) ;;
  modify (fun s => Ino (i_watches s) (i_next s) (i_rb s) (tree_wd s) (tree_filename s) (i_init s) (i_error s) true no_stats).

Definition inotifytools_get_stat_by_wd (wd event : Z) : ino_m Z :=
  s <- get ;;
  if negb (i_collect s) then ret (-1)
  else
    w <- watch_from_wd wd ;;
    if w =? 0 then ret (-1)
    else x <- watch_at w ;; ret (default (-1) (s32 <$> stat_of event (w_hits x))).

Definition inotifytools_get_stat_total (event : Z) : ino_m Z :=
  s <- get ;;
  if negb (i_collect s) then ret (-1) else ret (default (-1) (s32 <$> stat_of event (i_num s))).

Definition inotifytools_get_stat_by_filename (filename : list Z) (event : Z) : ino_m Z :=
  wd <- inotifytools_wd_from_filename filename ;; inotifytools_get_stat_by_wd wd event.

(** ** Reading events *)

Record ievent := Ievent { ev_wd : Z; ev_mask : Z; ev_cookie : Z; ev_name : list Z }.

(** The size of [struct inotify_event] without its name, and of the buffer. *)
Definition HEADER : Z := 16.
Definition BUFSIZE : Z := 4096 * HEADER.

(** The static variables of [inotifytools_next_events]: the buffer [event], of
    which [bytes] bytes are filled, and the offset of the next event. *)
Record evbuf := Evbuf { eb_mem : gmap Z Z; eb_bytes : Z; eb_first : Z }.

Definition peek (m : gmap Z Z) (off : Z) (n : nat) : list Z :=
  map (fun i => default 0 (m !! (off + Z.of_nat i))) (seq 0 n).

Fixpoint poke (m : gmap Z Z) (off : Z) (l : list Z) : gmap Z Z :=
  match l with [] => m | b :: l => poke (<[off := b]> m) (off + 1) l end.

(** The event at an offset. *)
Definition event_at (m : gmap Z Z) (off : Z) : ievent :=
  let w i := of_le (peek m (off + 4 * i) 4) in
  Ievent (s32 (w 0)) (w 1) (w 2) (peek m (off + HEADER) (Z.to_nat (w 3))).

Definition event_len (e : ievent) : Z := Z.of_nat (length (ev_name e)).

(** How the wait for events ends: [select] fails or times out, [ioctl] fails,
    [read] fails, returns nothing, or returns bytes.  The loop around [ioctl]
    ends when enough bytes can be read. *)
Inductive reading :=
| SelectFailed (errno : Z) | TimedOut | IoctlFailed (errno : Z)
| ReadFailed (errno : Z) | ReadEof | ReadBytes (l : list Z).

(** The part of [inotifytools_next_events] before [RETURN], with [num_events] 1.
    The kernel's bytes are stored at [&event[0] + bytes], that is [bytes] whole
    structures into the buffer.  [inl] is [error]. *)
Definition fetch_event (b : evbuf) (r : reading) : result ((Z + option ievent) * evbuf) :=
  match r with
  | SelectFailed e | IoctlFailed e | ReadFailed e => Ok (inl e, b)
  | TimedOut | ReadEof => Ok (inr None, b)
  | ReadBytes l =>
      let off := HEADER * eb_bytes b in
      if BUFSIZE <? off + Z.of_nat (length l) then Err EUndef
      else
        let m := poke (eb_mem b) off l in
        let bytes := eb_bytes b + Z.of_nat (length l) in
        let ev := event_at m 0 in
        let first := HEADER + event_len ev in
        Ok (inr (Some ev), Evbuf m bytes (if first =? bytes then 0 else first))
  end.

(** The incomplete event at [off] is moved to the front with [memcpy], whose
    areas must not overlap. *)
Definition keep_rest (b : evbuf) (off first : Z) : result evbuf :=
  let n := eb_bytes b - off in
  if off <? n then Err EUndef
  else Ok (Evbuf (poke (eb_mem b) 0 (peek (eb_mem b) off (Z.to_nat n))) n first).

(** The part before [select]: an event that is already in the buffer ([inl]), or
    the buffer to read into.  The call to itself after an incomplete event always
    comes to the [read], since [first_byte] is then past [bytes]. *)
Definition buffered_event (b : evbuf) : result (ievent * evbuf + evbuf) :=
  if negb (eb_first b =? 0) && (eb_first b <=? eb_bytes b - HEADER) then
    let ev := event_at (eb_mem b) (eb_first b) in
    let first := eb_first b + HEADER + event_len ev in
    if first =? eb_bytes b then Ok (inl (ev, Evbuf (eb_mem b) (eb_bytes b) 0))
    else if eb_bytes b <? first then
      match keep_rest b (eb_first b) first with Ok b => Ok (inr b) | Err e => Err e end
    else Ok (inl (ev, Evbuf (eb_mem b) (eb_bytes b) first))
  else if eb_first b =? 0 then Ok (inr (Evbuf (eb_mem b) 0 0))
  else Ok (inr b).

(** One turn: the event, and the answers of the kernel that are left. *)
Definition next_event_raw (b : evbuf) (rs : list reading) : result ((Z + option ievent) * (evbuf * list reading)) :=
  match buffered_event b with
  | Err e => Err e
  | Ok (inl (ev, b)) => Ok (inr (Some ev), (b, rs))
  | Ok (inr b) =>
      match rs with
      | [] => Err EFuel
      | r :: rs => match fetch_event b r with Ok (x, b) => Ok (x, (b, rs)) | Err e => Err e end
      end
  end.

(** ** Formatting events *)

Definition MAX_STRLEN : Z := 4096.
Definition EINVAL : Z := 22.
Definition EMSGSIZE : Z := 90.

(** The output buffer: [ind], and the bytes stored below [size].  [strncpy] cuts
    at [size], but [ind] grows by the length of the whole string. *)
Definition put_str (size : Z) (st : list Z * Z) (s : list Z) : list Z * Z :=
  let '(out, ind) := st in
  (out ++ take (Z.to_nat (size - ind)) s, ind + Z.of_nat (length s)).

Definition put_char (st : list Z * Z) (c : Z) : list Z * Z := (fst st ++ [c], snd st + 1).

(** A percent sign and a character that mean nothing. *)
Definition put_plain (ch1 : Z) (st : list Z * Z) : list Z * Z :=
  let st := if snd st <? MAX_STRLEN then put_char st 37 else st in
  if snd st <? MAX_STRLEN then put_char st ch1 else st.

(** What the conversions of the format stand for. *)
Record fields := Fields {
  fl_filename : option (list Z);
  fl_name : option (list Z);
  fl_mask : Z;
  (** the time, when a format is set and [strftime] accepts it *)
  fl_time : option (option (list Z));
}.

(** How the loop ends: at the end of the format or of the buffer, or early with
    a return value and [error]. *)
Inductive formatted := FmtEnd (st : list Z * Z) | FmtReturn (ret error : Z).

Fixpoint format_loop (size : Z) (fl : fields) (fmt : list Z) (st : list Z * Z) : formatted :=
  match fmt with
  | [] => FmtEnd st
  | c :: rest =>
      if negb (snd st <? size - 1) then FmtEnd st
      else if negb (c =? 37) then format_loop size fl rest (put_char st c)
      else
        match rest with
        | [] => FmtReturn (snd st) EINVAL
        | ch1 :: rest =>
            if ch1 =? 37 then format_loop size fl rest (put_char st 37)
            else if ch1 =? 119 then
              format_loop size fl rest (match fl_filename fl with Some s => put_str size st s | None => st end)
            else if ch1 =? 102 then
              format_loop size fl rest (match fl_name fl with Some s => put_str size st s | None => st end)
            else if ch1 =? 101 then
              format_loop size fl rest (put_str size st (inotifytools_event_to_str (fl_mask fl)))
            else if ch1 =? 84 then
              match fl_time fl with
              | Some None => FmtReturn (snd st) EINVAL
              | Some (Some t) => format_loop size fl rest (put_str size st t)
              | None => format_loop size fl rest (put_str size st [])
              end
            else
              match rest with
              | [] => FmtEnd (put_plain ch1 st)
              | ch2 :: rest' =>
                  if ch2 =? 101 then
                    format_loop size fl rest' (put_str size st (inotifytools_event_to_str_sep (fl_mask fl) ch1))
                  else format_loop size fl rest (put_plain ch1 st)
              end
        end
  end.

(** [cap] is the size of the array [out] points to, at most [size + 1] for every
    caller.  The result is the return value, [error] and, when it was terminated,
    the text. *)
Definition snprintf_event (cap size : Z) (fl : fields) (fmt : list Z) : result (Z * Z * option (list Z)) :=
  if bool_decide (fmt = []) then Ok (-1, EINVAL, None)
  else if (MAX_STRLEN <? Z.of_nat (length fmt)) || (MAX_STRLEN <? size) then Ok (-1, EMSGSIZE, None)
  else
    match format_loop size fl fmt ([], 0) with
    | FmtReturn r e => Ok (r, e, None)
    | FmtEnd (out, ind) => if ind <? cap then Ok (ind - 1, 0, Some (cstr (take (Z.to_nat ind) out))) else Err EUndef
    end.

Definition inotifytools_snprintf (cap size : Z) (ev : ievent) (time : option (option (list Z))) (fmt : list Z) :
    ino_m (Z * option (list Z)) :=
  filename <- inotifytools_filename_from_wd (ev_wd ev) ;;
  let name := match ev_name ev with [] => None | l => Some (cstr l) end in
  match snprintf_event cap size (Fields filename name (ev_mask ev) time) fmt with
  | Err e => fail e
  | Ok (r, e, text) => when (negb (e =? 0)) (modify (set_error e)) ;; ret (r, text)
  end.

(** [inotifytools_sprintf] and [inotifytools_fprintf]: the text printed. *)
Definition inotifytools_fprintf (ev : ievent) (time : option (option (list Z))) (fmt : list Z) : ino_m (Z * option (list Z)) :=
  inotifytools_snprintf (MAX_STRLEN + 1) MAX_STRLEN ev time fmt.

(** ** The next event *)

(** [inotifytools_next_event]: events whose path matches the pattern given to
    [inotifytools_ignore_events_by_regex] are skipped ([longjmp]), the others are
    counted when statistics are collected.  [ignored] is [regexec], when a
    pattern is set. *)
Fixpoint inotifytools_next_event (fuel : nat) (ignored : option (list Z -> bool)) (b : evbuf) (rs : list reading) :
    ino_m (option ievent * (evbuf * list reading)) :=
  match fuel with
  | O => fail EFuel
  | S f =>
      modify (set_error 0) ;;
      match next_event_raw b rs with
      | Err e => fail e
      | Ok (inl e, st) => modify (set_error e) ;; ret (None, st)
      | Ok (inr None, st) => ret (None, st)
      | Ok (inr (Some ev), st) =>
          skip <- match ignored with
                  | None => ret false
                  | Some matches =>
                      r <- inotifytools_snprintf MAX_STRLEN MAX_STRLEN ev None (bs "%w%f") ;;
                      ret (match snd r with Some text => matches text | None => false end)
                  end ;;
          if (skip : bool) then inotifytools_next_event f ignored (fst st) (snd st)
          else
            s <- get ;;
            when (i_collect s) (record_stats (ev_wd ev) (ev_mask ev)) ;;
            ret (Some ev, st)
      end
  end.

(** ** Watches sorted by their counters *)

(** [event_compare] with the counter [sort_event]; negative for descending. *)
Definition event_compare (ws : gmap Z watch) (sort_event p1 p2 : Z) : Z :=
  if (p1 <=? 0) || (p2 <=? 0) then p1 - p2
  else
    let '(ev, asc) :=
      if sort_event =? -1 then (0, false) else if sort_event <? 0 then (- sort_event, false) else (sort_event, true) in
    let count p := s32 (default 0 (ws !! p ≫= fun w => stat_of ev (w_hits w))) in
    if count p1 - count p2 =? 0 then wd_of ws p1 - wd_of ws p2
    else if asc then count p1 - count p2 else count p2 - count p1.

Fixpoint insert_all (fuel n : nat) (cmp : Z -> Z -> Z) (r p : Z) : rb_m unit :=
  match n with
  | O => fail EFuel
  | S n =>
      kp <- rbreadlist fuel p ;;
      if fst kp =? 0 then ret tt
      else rbsearch cmp fuel (fst kp) r ;; insert_all fuel n cmp r (snd kp)
  end.

(** Two watches are compared by dereferencing [stat_ptr], null for an unknown
    counter. *)
Definition inotifytools_wd_sorted_by_event (sort_event : Z) : ino_m Z :=
  s <- get ;;
  n <- inotifytools_get_num_watches ;;
  if bool_decide (stat_of (if sort_event =? -1 then 0 else Z.abs sort_event) no_stats = None) && (1 <? n) then fail EUndef
  else
  on_rb (
    r <- rbinit ;;
    p <- rbopenlist (rb_fuel s) (tree_wd s) ;;
    insert_all (rb_fuel s) (rb_fuel s) (event_compare (i_watches s) sort_event) r p ;;
    ret r).

(** ** Before [inotifytools_initialize] *)

(** [mem] nodes and trees can be allocated. *)
Definition ino_start (mem : nat) : ino := Ino ∅ (STACK + 1) (rb_empty mem) 0 0 false 0 false no_stats.
