(* ===== verification/WatchTable.v ===== *)
(** * The table of watches

    [inotifytools.c] keeps every watch in two red-black trees that share one
    memory, ordered by descriptor and by name, through comparison routines that
    read the watches.  As long as the kernel hands out new descriptors for new
    names, the two trees are one finite map from descriptors to names. *)

From stdpp Require Import sorting.
From S2P Require Import Prelude RedBlack RedBlackShape RedBlackInsert RedBlackSearch RedBlackDelete RedBlackFacts Inotify.

(** ** Trees that share memory *)

Lemma rb_tree_frame cmp s s' r t :
  rb_tree cmp s r t -> sentinel (rb_nodes s') -> (forall q, q ∈ addrs t -> rb_nodes s' !! q = rb_nodes s !! q) ->
  rb_root s' !! r = rb_root s !! r -> rb_next s <= rb_next s' -> rb_tree cmp s' r t.
Proof.
  intros [[_ Hr Hroot Hnd Hb] Hh Hn Hbal Ho] Hs Hq Hr' Hle. constructor; [|done|lia|done|done].
  constructor; [done| |congruence|done|].
  - by apply (rep_ext (rb_nodes s)).
  - eapply Forall_impl; [|exact Hb]. cbn. lia.
Qed.

Lemma rb_tree_cmp cmp cmp' s r t :
  (forall a b, a ∈ inorder t -> b ∈ inorder t -> cmp' a b = cmp a b) -> rb_tree cmp s r t -> rb_tree cmp' s r t.
Proof.
  intros He [Hm Hh Hn Hb Ho]. constructor; [done..|]. unfold increasing in *. revert He Ho. generalize (inorder t) as l.
  induction l as [|k l IH]; intros He Ho; [constructor|]. apply StronglySorted_inv in Ho as [Ho Hk]. constructor.
  - apply IH; [|done]. intros a b Ha Hb'. apply He; set_solver.
  - rewrite list.Forall_forall in *. intros x Hx. rewrite He by set_solver. by apply Hk.
Qed.

(** The other tree after an insertion and after a deletion. *)
Lemma other_inserted cmp cmp' s s' r t r' t' t1 :
  rb_tree cmp s r t -> rb_tree cmp s' r t1 -> rb_tree cmp' s r' t' -> r' <> r -> addrs t' ## addrs t ->
  same_but (rb_next s :: addrs t) r (allocated s) s' -> rb_tree cmp' s' r' t'.
Proof.
  intros H H1 H' Hr Hd [O1 O2 O3 _]. apply (rb_tree_frame _ s); [done|apply H1| |by rewrite O2|rewrite O3; cbn; lia].
  intros q Hq. rewrite O1; [done|]. rewrite not_elem_of_cons. split; [|set_solver].
  pose proof (proj1 (list.Forall_forall _ _) (im_bound _ _ _ (rt_mem _ _ _ _ H')) q Hq). cbn in *. lia.
Qed.

Lemma other_removed cmp cmp' s s' r t u r' t' :
  rb_tree cmp s r t -> rb_tree cmp' s r' t' -> r' <> r -> addrs t' ## addrs t -> removed s r t s' u -> rb_tree cmp' s' r' t'.
Proof.
  intros H H' Hr Hd [Hm _ _ _ Hn O1 O2]. apply (rb_tree_frame _ s); [done|apply Hm| |by rewrite O2|lia].
  intros q Hq. apply O1. rewrite not_elem_of_cons. split; [|set_solver]. intros ->.
  by apply (null_out _ _ _ (rt_mem _ _ _ _ H')).
Qed.

#[export] Instance apart_proper : Proper ((≡ₚ) ==> (≡ₚ) ==> iff) (disjoint : list Z -> list Z -> Prop).
Proof. intros l1 l2 H l1' l2' H'. split; intros D q; [rewrite <- H, <- H'|rewrite H, H']; apply D. Qed.

Lemma apart_sym (l l' : list Z) : l ## l' -> l' ## l.
Proof. intros H q Hq Hq'. by apply (H q). Qed.

Lemma height_addrs t : (height t <= length (addrs t))%nat.
Proof. induction t as [|p c l IHl k r IHr]; cbn; [lia|]. rewrite length_app. lia. Qed.

Lemma rep_in_mem h u t : rep h u t -> forall q, q ∈ addrs t -> is_Some (h !! q).
Proof.
  revert u. induction t as [|p c l IHl k r IHr]; cbn; intros u H q Hq; [set_solver|]. destruct H as (Hp & Hl & Hr).
  apply elem_of_cons in Hq as [->|[Hq|Hq]%elem_of_app]; eauto.
Qed.

(** The fuel of the model is enough for every tree in memory. *)
Lemma tree_fuel cmp s r t : rb_tree cmp s r t -> (height t < S (size (rb_nodes s)))%nat.
Proof.
  intros [[_ Hr _ Hnd _] _ _ _ _]. pose proof (height_addrs t).
  assert (length (addrs t) <= size (rb_nodes s))%nat; [|lia].
  rewrite <- (size_list_to_set (C := gset Z) (addrs t)), <- (size_dom (rb_nodes s)) by done. apply subseteq_size.
  intros q Hq%elem_of_list_to_set. apply elem_of_dom. by eapply rep_in_mem.
Qed.

(** ** Keys of a tree *)

Lemma key_insert_perm cmp key l : key_insert cmp key l ≡ₚ key :: l.
Proof. induction l as [|k l IH]; cbn; [done|]. destruct (_ <? 0); [done|]. rewrite IH. constructor. Qed.

Lemma key_find_none cmp key l : (forall k, k ∈ l -> cmp key k <> 0) -> key_find cmp key l = None.
Proof.
  intros H. induction l as [|k l IH]; cbn; [done|]. rewrite (proj2 (Z.eqb_neq _ _)) by (apply H; set_solver). apply IH. set_solver.
Qed.

Section Keys.

Context (cmp : Z -> Z -> Z) `{!Comparison cmp}.

Lemma cmp_refl a : cmp a a = 0.
Proof. pose proof (cmp_sym a a). lia. Qed.

Lemma key_self l key :
  increasing cmp l -> key ∈ l -> key_find cmp key l = Some key /\ l ≡ₚ key :: key_delete cmp key l /\ key ∉ key_delete cmp key l.
Proof.
  intros Hi (l1 & l2 & ->)%list_elem_of_split. pose proof (split_equal cmp key l1 key l2 Hi (cmp_refl key)) as Hs.
  rewrite (delete_split cmp key l1 key l2 Hs (cmp_refl key)). split_and!; [apply find_some; [done|apply cmp_refl]|by rewrite Permutation_middle|].
  destruct Hs as [S1 S2]. rewrite list.Forall_forall in S1, S2. rewrite not_elem_of_app.
  split; intros Hk; [apply S1 in Hk|apply S2 in Hk]; rewrite cmp_refl in Hk; lia.
Qed.

Lemma key_find_is key l k : increasing cmp l -> k ∈ l -> cmp key k = 0 -> key_find cmp key l = Some k.
Proof.
  intros Hi (l1 & l2 & ->)%list_elem_of_split Hk. apply (find_some cmp); [|done]. by eapply split_equal.
Qed.

End Keys.

(** ** The comparison routines *)

Lemma strcmp_sgn a : forall b, Z.sgn (strcmp b a) = - Z.sgn (strcmp a b).
Proof.
  induction a as [|x a IH]; intros [|y b]; cbn; try done. destruct (Z.eqb_spec x y) as [->|Hne].
  - by rewrite Z.eqb_refl.
  - rewrite (proj2 (Z.eqb_neq _ _)) by done. rewrite <- Z.sgn_opp. f_equal. lia.
Qed.

Lemma strcmp_zero a : forall b, strcmp a b = 0 <-> a = b.
Proof.
  induction a as [|x a IH]; intros [|y b]; cbn; try done. destruct (Z.eqb_spec x y) as [->|Hne].
  - rewrite IH. split; congruence.
  - split; [lia|congruence].
Qed.

Lemma strcmp_trans a : forall b c, strcmp a b <= 0 -> strcmp b c <= 0 -> strcmp a c <= 0.
Proof.
  induction a as [|x a IH]; intros [|y b] [|z c]; cbn; try lia.
  destruct (Z.eqb_spec x y), (Z.eqb_spec y z), (Z.eqb_spec x z); subst; try lia. apply IH.
Qed.

(** A comparison of what positive addresses point to. *)
Lemma pointer_comparison (f : Z -> Z -> Z) :
  (forall a b, Z.sgn (f b a) = - Z.sgn (f a b)) -> (forall a b c, f a b <= 0 -> f b c <= 0 -> f a c <= 0) ->
  Comparison (fun a b => if (a <=? 0) || (b <=? 0) then a - b else f a b).
Proof.
  intros Hs Ht. split.
  - intros a b. destruct (Z.leb_spec a 0), (Z.leb_spec b 0); cbn; auto; rewrite <- Z.sgn_opp; f_equal; lia.
  - intros a b c. destruct (Z.leb_spec a 0), (Z.leb_spec b 0), (Z.leb_spec c 0); cbn; eauto; lia.
Qed.

#[export] Instance wd_comparison ws : Comparison (wd_compare ws).
Proof. apply (pointer_comparison (fun a b => wd_of ws a - wd_of ws b)); intros; lia. Qed.

#[export] Instance filename_comparison ws : Comparison (filename_compare ws).
Proof.
  apply (pointer_comparison (fun a b => strcmp (name_of ws a) (name_of ws b))); intros; [apply strcmp_sgn|by eapply strcmp_trans].
Qed.

(** ** The two trees as one map *)

(** No counters are kept, as after [inotifytools_initialize]. *)
Record holds (s : ino) (W : gmap Z (list Z)) (t1 t2 : tree) : Prop := Holds {
  ho_wd : rb_tree (wd_compare (i_watches s)) (i_rb s) (tree_wd s) t1;
  ho_name : rb_tree (filename_compare (i_watches s)) (i_rb s) (tree_filename s) t2;
  ho_trees : tree_wd s <> tree_filename s;
  ho_apart : addrs t1 ## addrs t2;
  ho_same : inorder t1 ≡ₚ inorder t2;
  ho_next : STACK < i_next s;
  ho_counters : i_collect s = false;
  ho_live p : p ∈ inorder t1 ->
    STACK < p < i_next s /\ exists w, i_watches s !! p = Some w /\ W !! w_wd w = Some (w_filename w);
  ho_all wd name : W !! wd = Some name ->
    exists p w, p ∈ inorder t1 /\ i_watches s !! p = Some w /\ w_wd w = wd /\ w_filename w = name;
}.

(** The watches stand for the map [W]; [n] more can be made. *)
Definition table (s : ino) (W : gmap Z (list Z)) (n : nat) : Prop :=
  exists t1 t2, holds s W t1 t2 /\ (2 * n <= rb_mem (i_rb s))%nat.

Lemma on_rb_ok A (m : M rbst A) s a b : m (i_rb s) = Ok (a, b) -> on_rb m s = Ok (a, set_rb b s).
Proof. intros H. unfold on_rb. by rewrite H. Qed.

Lemma ino_fuel cmp s r t : rb_tree cmp (i_rb s) r t -> (height t < rb_fuel s)%nat.
Proof. apply tree_fuel. Qed.

Lemma set_rb_self s : set_rb (i_rb s) s = s.
Proof. by destruct s. Qed.

Lemma wd_compare_pos ws a b : 0 < a -> 0 < b -> wd_compare ws a b = wd_of ws a - wd_of ws b.
Proof. intros. unfold wd_compare. by rewrite !(proj2 (Z.leb_gt _ _)) by done. Qed.

Lemma filename_compare_pos ws a b : 0 < a -> 0 < b -> filename_compare ws a b = strcmp (name_of ws a) (name_of ws b).
Proof. intros. unfold filename_compare. by rewrite !(proj2 (Z.leb_gt _ _)) by done. Qed.

(** Watches at other addresses do not matter to the order of the keys. *)
Lemma wd_compare_ext ws ws' a b : ws' !! a = ws !! a -> ws' !! b = ws !! b -> wd_compare ws' a b = wd_compare ws a b.
Proof. intros Ha Hb. unfold wd_compare, wd_of. by rewrite Ha, Hb. Qed.

Lemma filename_compare_ext ws ws' a b :
  ws' !! a = ws !! a -> ws' !! b = ws !! b -> filename_compare ws' a b = filename_compare ws a b.
Proof. intros Ha Hb. unfold filename_compare, name_of. by rewrite Ha, Hb. Qed.

Section Lookup.

Context (s : ino) (W : gmap Z (list Z)) (t1 t2 : tree) (H : holds s W t1 t2).

Lemma ho_live2 p : p ∈ inorder t2 ->
  STACK < p < i_next s /\ exists w, i_watches s !! p = Some w /\ W !! w_wd w = Some (w_filename w).
Proof using H. rewrite <- (ho_same _ _ _ _ H). apply H. Qed.

(** A key on the stack or a new watch, which is in no tree yet. *)
Lemma tree_wd_new q w : q ∉ inorder t1 -> rb_tree (wd_compare (<[q := w]> (i_watches s))) (i_rb s) (tree_wd s) t1.
Proof using H.
  intros Hq. apply (rb_tree_cmp (wd_compare (i_watches s))); [|apply H].
  intros a b Ha Hb. apply wd_compare_ext; apply lookup_insert_ne; congruence.
Qed.

Lemma tree_name_new q w :
  q ∉ inorder t2 -> rb_tree (filename_compare (<[q := w]> (i_watches s))) (i_rb s) (tree_filename s) t2.
Proof using H.
  intros Hq. apply (rb_tree_cmp (filename_compare (i_watches s))); [|apply H].
  intros a b Ha Hb. apply filename_compare_ext; apply lookup_insert_ne; congruence.
Qed.

Lemma fresh_key q : q = STACK \/ i_next s <= q -> (q ∉ inorder t1) /\ (q ∉ inorder t2).
Proof using H. intros Hq. split; intros Hin; [apply (ho_live _ _ _ _ H) in Hin|apply ho_live2 in Hin]; lia. Qed.

Lemma wd_key q w p :
  0 < q -> q <> p -> p ∈ inorder t1 ->
  exists x, i_watches s !! p = Some x /\ W !! w_wd x = Some (w_filename x) /\
    wd_compare (<[q := w]> (i_watches s)) q p = w_wd w - w_wd x /\
    filename_compare (<[q := w]> (i_watches s)) q p = strcmp (w_filename w) (w_filename x).
Proof using H.
  intros Hq Hne Hp. destruct (ho_live _ _ _ _ H p Hp) as ([Hs _] & x & Hx & Hw). exists x. split_and!; [done..| |].
  - rewrite wd_compare_pos by (unfold STACK in *; lia). unfold wd_of. by rewrite lookup_insert_eq, lookup_insert_ne, Hx by done.
  - rewrite filename_compare_pos by (unfold STACK in *; lia). unfold name_of. by rewrite lookup_insert_eq, lookup_insert_ne, Hx by done.
Qed.

(** Looking for a key that is in no watch of the table. *)
Lemma wd_absent q w :
  0 < q -> q ∉ inorder t1 -> W !! w_wd w = None -> key_find (wd_compare (<[q := w]> (i_watches s))) q (inorder t1) = None.
Proof using H.
  intros Hq Hn HW. apply key_find_none. intros p Hp.
  destruct (wd_key q w p Hq ltac:(congruence) Hp) as (x & Hx & Hw & -> & _). intros E.
  assert (w_wd w = w_wd x) as E' by lia. congruence.
Qed.

Lemma name_absent q w :
  0 < q -> q ∉ inorder t2 -> (forall wd, W !! wd <> Some (w_filename w)) ->
  key_find (filename_compare (<[q := w]> (i_watches s))) q (inorder t2) = None.
Proof using H.
  intros Hq Hn HW. apply key_find_none. intros p Hp. rewrite <- (ho_same _ _ _ _ H) in Hp, Hn.
  destruct (wd_key q w p Hq ltac:(congruence) Hp) as (x & Hx & Hw & _ & ->). rewrite strcmp_zero. intros E.
  rewrite <- E in Hw. by apply HW in Hw.
Qed.

Lemma wd_present q w p x :
  0 < q -> q ∉ inorder t1 -> p ∈ inorder t1 -> i_watches s !! p = Some x -> w_wd x = w_wd w ->
  key_find (wd_compare (<[q := w]> (i_watches s))) q (inorder t1) = Some p.
Proof using H.
  intros Hq Hn Hp Hx E. apply key_find_is; [apply _|exact (rt_order _ _ _ _ (tree_wd_new q w Hn))|done|].
  destruct (wd_key q w p Hq ltac:(congruence) Hp) as (x' & Hx' & _ & -> & _). simplify_eq. lia.
Qed.

Lemma name_present q w p x :
  0 < q -> q ∉ inorder t2 -> p ∈ inorder t1 -> i_watches s !! p = Some x -> w_filename x = w_filename w ->
  key_find (filename_compare (<[q := w]> (i_watches s))) q (inorder t2) = Some p.
Proof using H.
  intros Hq Hn Hp Hx E. apply key_find_is; [apply _|exact (rt_order _ _ _ _ (tree_name_new q w Hn))|by rewrite <- (ho_same _ _ _ _ H)|].
  rewrite <- (ho_same _ _ _ _ H) in Hn.
  destruct (wd_key q w p Hq ltac:(congruence) Hp) as (x' & Hx' & _ & _ & ->). simplify_eq. by apply strcmp_zero.
Qed.

Lemma watch_from_wd_none wd : W !! wd = None -> watch_from_wd wd s = Ok (0, s).
Proof using H.
  intros HW. destruct (fresh_key STACK (or_introl eq_refl)) as [F1 _]. pose proof (tree_wd_new STACK (Watch [] wd no_stats) F1) as Ht.
  unfold watch_from_wd. run (eq_refl : get s = Ok (s, s)).
  rewrite (on_rb_ok _ _ _ _ _ (rbfind_ok _ _ _ _ _ STACK Ht (ino_fuel _ _ _ _ Ht))), set_rb_self.
  by rewrite (wd_absent STACK _ ltac:(done) F1).
Qed.

Lemma watch_from_wd_some wd name : W !! wd = Some name ->
  exists p w, watch_from_wd wd s = Ok (p, s) /\ p ∈ inorder t1 /\ i_watches s !! p = Some w /\ w_wd w = wd /\ w_filename w = name.
Proof using H.
  intros (p & w & Hp & Hw & E1 & E2)%(ho_all _ _ _ _ H). exists p, w. split_and!; [|done..].
  destruct (fresh_key STACK (or_introl eq_refl)) as [F1 _]. pose proof (tree_wd_new STACK (Watch [] wd no_stats) F1) as Ht.
  unfold watch_from_wd. run (eq_refl : get s = Ok (s, s)).
  rewrite (on_rb_ok _ _ _ _ _ (rbfind_ok _ _ _ _ _ STACK Ht (ino_fuel _ _ _ _ Ht))), set_rb_self.
  by rewrite (wd_present STACK _ p w).
Qed.

Lemma watch_from_filename_none name : (forall wd, W !! wd <> Some name) -> watch_from_filename name s = Ok (0, s).
Proof using H.
  intros HW. destruct (fresh_key STACK (or_introl eq_refl)) as [_ F2]. pose proof (tree_name_new STACK (Watch name 0 no_stats) F2) as Ht.
  unfold watch_from_filename. run (eq_refl : get s = Ok (s, s)).
  rewrite (on_rb_ok _ _ _ _ _ (rbfind_ok _ _ _ _ _ STACK Ht (ino_fuel _ _ _ _ Ht))), set_rb_self.
  by rewrite (name_absent STACK).
Qed.

Lemma watch_from_filename_some wd name : W !! wd = Some name ->
  exists p w, watch_from_filename name s = Ok (p, s) /\ p ∈ inorder t1 /\ i_watches s !! p = Some w /\ w_wd w = wd /\ w_filename w = name.
Proof using H.
  intros (p & w & Hp & Hw & E1 & E2)%(ho_all _ _ _ _ H). exists p, w. split_and!; [|done..].
  destruct (fresh_key STACK (or_introl eq_refl)) as [_ F2]. pose proof (tree_name_new STACK (Watch name 0 no_stats) F2) as Ht.
  unfold watch_from_filename. run (eq_refl : get s = Ok (s, s)).
  rewrite (on_rb_ok _ _ _ _ _ (rbfind_ok _ _ _ _ _ STACK Ht (ino_fuel _ _ _ _ Ht))), set_rb_self.
  by rewrite (name_present STACK _ p w).
Qed.

End Lookup.

(** ** Adding and removing a watch *)

Lemma tree_search_run cmp tree w s t :
  Comparison (cmp (i_watches s)) -> rb_tree (cmp (i_watches s)) (i_rb s) (tree s) t ->
  key_find (cmp (i_watches s)) w (inorder t) = None -> (0 < rb_mem (i_rb s))%nat ->
  exists b t', tree_search cmp tree w s = Ok (w, set_rb b s) /\ rb_tree (cmp (i_watches s)) b (tree s) t' /\
    inorder t' ≡ₚ w :: inorder t /\ addrs t' ≡ₚ rb_next (i_rb s) :: addrs t /\
    same_but (rb_next (i_rb s) :: addrs t) (tree s) (allocated (i_rb s)) b.
Proof.
  intros Hc Ht Hf Hm. destruct (rbsearch_new _ _ _ _ _ w Ht (ino_fuel _ _ _ _ Ht) Hf Hm) as (b & t' & U & Ht' & Hi & Ha & Hs).
  exists b, t'. split_and!; [|done| |done|done].
  - unfold tree_search. run (eq_refl : get s = Ok (s, s)). by apply on_rb_ok.
  - rewrite Hi. apply key_insert_perm.
Qed.

Lemma tree_delete_run cmp tree w s t :
  Comparison (cmp (i_watches s)) -> rb_tree (cmp (i_watches s)) (i_rb s) (tree s) t -> w ∈ inorder t ->
  exists b t', tree_delete cmp tree w s = Ok (w, set_rb b s) /\ rb_tree (cmp (i_watches s)) b (tree s) t' /\
    inorder t ≡ₚ w :: inorder t' /\ (w ∉ inorder t') /\ removed (i_rb s) (tree s) t b t'.
Proof.
  intros Hc Ht Hw. destruct (key_self _ _ _ (rt_order _ _ _ _ Ht) Hw) as (Hf & Hp & Hn).
  destruct (rbdelete_some _ _ _ _ _ w w Ht (ino_fuel _ _ _ _ Ht) Hf) as (b & t' & U & Ht' & Hi & Hr).
  exists b, t'. rewrite Hi. split_and!; [|done..]. unfold tree_delete. run (eq_refl : get s = Ok (s, s)). by apply on_rb_ok.
Qed.

Lemma watch_at_run p w s : i_watches s !! p = Some w -> watch_at p s = Ok (w, s).
Proof. intros H. unfold watch_at. run (eq_refl : get s = Ok (s, s)). by rewrite H. Qed.

Lemma filename_from_wd_run s W t1 t2 wd : holds s W t1 t2 -> inotifytools_filename_from_wd wd s = Ok (W !! wd, s).
Proof.
  intros H. unfold inotifytools_filename_from_wd.
  destruct (W !! wd) as [name|] eqn:E; [|by run (watch_from_wd_none _ _ _ _ H _ E)].
  destruct (watch_from_wd_some _ _ _ _ H _ _ E) as (p & w & U & Hp & Hw & _ & <-). run U.
  destruct (ho_live _ _ _ _ H p Hp) as ([Hpos _] & _). unfold STACK in Hpos. rewrite (proj2 (Z.eqb_neq p 0)) by lia.
  by run (watch_at_run p w s Hw).
Qed.

Definition add_watch (wd : Z) (name : list Z) (s : ino) : ino :=
  Ino (<[i_next s := Watch name wd no_stats]> (i_watches s)) (i_next s + 1) (i_rb s) (tree_wd s) (tree_filename s)
    (i_init s) (i_error s) (i_collect s) (i_num s).

(** The map after a watch with a new descriptor and a new name. *)
Lemma holds_added s W t1 t2 wd name b u1 u2 :
  holds s W t1 t2 -> W !! wd = None ->
  rb_tree (wd_compare (i_watches (add_watch wd name s))) b (tree_wd s) u1 ->
  rb_tree (filename_compare (i_watches (add_watch wd name s))) b (tree_filename s) u2 ->
  addrs u1 ## addrs u2 -> inorder u1 ≡ₚ i_next s :: inorder t1 -> inorder u2 ≡ₚ i_next s :: inorder t2 ->
  holds (set_rb b (add_watch wd name s)) (<[wd := name]> W) u1 u2.
Proof.
  intros H HW R1 R2 Ha P1 P2. pose proof (ho_next _ _ _ _ H) as Hn.
  assert (i_next s ∉ inorder t1) as Hnew by (intros Hp%(ho_live _ _ _ _ H); lia).
  constructor; cbn [set_rb add_watch i_watches i_next i_rb tree_wd tree_filename]; [done|done|apply H|done| |lia|apply H|..].
  - by rewrite P1, P2, (ho_same _ _ _ _ H).
  - intros p. rewrite P1. intros [->|Hp]%elem_of_cons.
    + split; [lia|]. exists (Watch name wd no_stats). split; apply lookup_insert_eq.
    + destruct (ho_live _ _ _ _ H p Hp) as (Hb & w & Hw & E). split; [lia|]. exists w.
      rewrite lookup_insert_ne by congruence. split; [done|]. rewrite lookup_insert_ne by congruence. done.
  - intros wd' name' [(<- & <-)|(Hne & Hw)]%lookup_insert_Some.
    + exists (i_next s), (Watch name wd no_stats). rewrite lookup_insert_eq, P1. split_and!; [set_solver|done..].
    + destruct (ho_all _ _ _ _ H _ _ Hw) as (p & w & Hp & Hx & E). exists p, w. rewrite P1, lookup_insert_ne by congruence.
      split_and!; [set_solver|tauto..].
Qed.

Lemma create_watch_table s W n wd name :
  table s W (S n) -> 0 < wd -> W !! wd = None -> (forall wd', W !! wd' <> Some name) ->
  exists s', create_watch wd name s = Ok (tt, s') /\ table s' (<[wd := name]> W) n.
Proof.
  intros (t1 & t2 & H & Hmem) Hwd HW Hname. pose proof (ho_next _ _ _ _ H) as Hn. unfold STACK in Hn.
  destruct (fresh_key _ _ _ _ H (i_next s)) as [F1 F2]; [lia|]. set (w := Watch name wd no_stats). set (s1 := add_watch wd name s).
  pose proof (tree_wd_new _ _ _ _ H (i_next s) w F1) as R1. pose proof (tree_name_new _ _ _ _ H (i_next s) w F2) as R2.
  destruct (tree_search_run wd_compare tree_wd (i_next s) s1 t1 _ R1) as (b & u1 & U1 & R1' & P1 & A1 & O1);
    [apply (wd_absent _ _ _ _ H); [lia|done..]|cbn; lia|].
  pose proof (other_inserted _ _ _ _ _ _ _ _ _ R1 R1' R2 ltac:(apply not_eq_sym, H) (apart_sym _ _ (ho_apart _ _ _ _ H)) O1) as R2'.
  pose proof (sb_next _ _ _ _ O1) as Nb. pose proof (sb_mem _ _ _ _ O1) as Mb. cbn in Nb, Mb.
  destruct (tree_search_run filename_compare tree_filename (i_next s) (set_rb b s1) t2 _ R2') as (b2 & u2 & U2 & R2'' & P2 & A2 & O2);
    [apply (name_absent _ _ _ _ H); [lia|done..]|cbn; lia|].
  assert (addrs u1 ## addrs t2) as D1.
  { rewrite A1. intros q [->|Hq]%elem_of_cons Hq2; [|by apply (ho_apart _ _ _ _ H q)].
    pose proof (proj1 (list.Forall_forall _ _) (im_bound _ _ _ (rt_mem _ _ _ _ R2)) _ Hq2). cbn in *. lia. }
  pose proof (other_inserted _ _ _ _ _ _ _ _ _ R2' R2'' R1' ltac:(apply H) D1 O2) as R1''.
  exists (set_rb b2 s1). split.
  - unfold create_watch. rewrite (proj2 (Z.leb_gt _ _)) by lia. run (eq_refl : get s = Ok (s, s)).
    rewrite (bind_ok (modify _) _ s tt s1) by done. run U1. by run U2.
  - exists u1, u2. split; [|cbn; rewrite (sb_mem _ _ _ _ O2); cbn; lia].
    apply (holds_added s W t1 t2); [done..| |done|done]. rewrite A2. intros q Hq [->|Hq2]%elem_of_cons; [|by apply (D1 q)].
    pose proof (proj1 (list.Forall_forall _ _) (im_bound _ _ _ (rt_mem _ _ _ _ R1')) _ Hq). cbn in *. lia.
Qed.

(** A watch that is on the table already: both searches find it, and the new one is lost. *)
Lemma holds_lost s W t1 t2 wd name : holds s W t1 t2 -> holds (add_watch wd name s) W t1 t2.
Proof.
  intros H. destruct (fresh_key _ _ _ _ H (i_next s)) as [F1 F2]; [lia|].
  pose proof (ho_next _ _ _ _ H) as Hn.
  constructor; cbn [add_watch i_watches i_next i_rb tree_wd tree_filename i_collect];
    [by apply (tree_wd_new _ _ _ _ H)|by apply (tree_name_new _ _ _ _ H)|apply H|apply H|apply H|lia|apply H|..].
  - intros p Hp. destruct (ho_live _ _ _ _ H p Hp) as (Hb & w & Hw & E). split; [lia|]. exists w.
    by rewrite lookup_insert_ne by lia.
  - intros wd' name' Hw. destruct (ho_all _ _ _ _ H _ _ Hw) as (p & w & Hp & Hx & E). exists p, w.
    rewrite lookup_insert_ne by congruence. done.
Qed.

Lemma tree_search_old cmp tree w s t p :
  Comparison (cmp (i_watches s)) -> rb_tree (cmp (i_watches s)) (i_rb s) (tree s) t ->
  key_find (cmp (i_watches s)) w (inorder t) = Some p -> tree_search cmp tree w s = Ok (p, s).
Proof.
  intros Hc Ht Hf. unfold tree_search. run (eq_refl : get s = Ok (s, s)).
  rewrite (on_rb_ok _ _ _ _ _ (rbsearch_old _ _ _ _ _ w p Ht (ino_fuel _ _ _ _ Ht) Hf)). by rewrite set_rb_self.
Qed.

Lemma create_watch_again s W n wd name :
  table s W n -> 0 < wd -> W !! wd = Some name ->
  exists s', create_watch wd name s = Ok (tt, s') /\ table s' W n.
Proof.
  intros (t1 & t2 & H & Hmem) Hwd HW. pose proof (ho_next _ _ _ _ H) as Hn. unfold STACK in Hn.
  destruct (fresh_key _ _ _ _ H (i_next s)) as [F1 F2]; [lia|].
  set (w := Watch name wd no_stats). set (s1 := add_watch wd name s).
  destruct (ho_all _ _ _ _ H _ _ HW) as (p & x & Hp & Hx & E1 & E2).
  exists s1. split; [|exists t1, t2; by split; [apply holds_lost|]].
  unfold create_watch. rewrite (proj2 (Z.leb_gt _ _)) by lia. run (eq_refl : get s = Ok (s, s)).
  rewrite (bind_ok (modify _) _ s tt s1) by done.
  pose proof (tree_search_old wd_compare tree_wd (i_next s) s1 t1 p _ (tree_wd_new _ _ _ _ H (i_next s) w F1)
    (wd_present _ _ _ _ H (i_next s) w p x ltac:(lia) F1 Hp Hx E1)) as U1.
  pose proof (tree_search_old filename_compare tree_filename (i_next s) s1 t2 p _ (tree_name_new _ _ _ _ H (i_next s) w F2)
    (name_present _ _ _ _ H (i_next s) w p x ltac:(lia) F2 Hp Hx E2)) as U2.
  run U1. by run U2.
Qed.

(** The map without the watch at [p]. *)
Lemma holds_removed s W t1 t2 p w b u1 u2 :
  holds s W t1 t2 -> p ∈ inorder t1 -> i_watches s !! p = Some w ->
  rb_tree (wd_compare (i_watches s)) b (tree_wd s) u1 -> rb_tree (filename_compare (i_watches s)) b (tree_filename s) u2 ->
  addrs u1 ## addrs u2 -> inorder t1 ≡ₚ p :: inorder u1 -> p ∉ inorder u1 -> inorder u1 ≡ₚ inorder u2 ->
  holds (set_watches (delete p (i_watches s)) (set_rb b s)) (delete (w_wd w) W) u1 u2.
Proof.
  intros H Hp Hw R1 R2 Ha P1 Hn P2.
  assert (forall q, q ∈ inorder u1 -> q <> p /\ q ∈ inorder t1) as Hq by (intros q Hq; rewrite P1; set_solver).
  assert (forall q x, q ∈ inorder t1 -> i_watches s !! q = Some x -> w_wd x = w_wd w -> q = p) as Hu.
  { intros q x Hq1 Hx E. pose proof (tree_wd_new _ _ _ _ H STACK w (proj1 (fresh_key _ _ _ _ H STACK (or_introl eq_refl)))) as R.
    destruct (fresh_key _ _ _ _ H STACK (or_introl eq_refl)) as [F1 _].
    pose proof (wd_present _ _ _ _ H STACK w q x ltac:(done) F1 Hq1 Hx E) as E1.
    pose proof (wd_present _ _ _ _ H STACK w p w ltac:(done) F1 Hp Hw eq_refl) as E2. congruence. }
  constructor; cbn [set_rb set_watches i_watches i_next i_rb tree_wd tree_filename].
  - eapply rb_tree_cmp; [|exact R1]. intros a c Ha' Hc'. apply wd_compare_ext; apply lookup_delete_ne; apply not_eq_sym; by apply Hq.
  - eapply rb_tree_cmp; [|exact R2]. intros a c Ha' Hc'. rewrite <- P2 in Ha', Hc'.
    apply filename_compare_ext; apply lookup_delete_ne; apply not_eq_sym; by apply Hq.
  - apply H.
  - done.
  - done.
  - apply H.
  - apply H.
  - intros q [Hqp Hq1]%Hq. destruct (ho_live _ _ _ _ H q Hq1) as (Hb & x & Hx & E). split; [done|]. exists x.
    rewrite !lookup_delete_ne; [done| |done]. intros E'. by apply Hqp, (Hu q x).
  - intros wd name [Hne (q & x & Hq1 & Hx & <- & <-)%(ho_all _ _ _ _ H)]%lookup_delete_Some. exists q, x.
    assert (q <> p) as Hqp by (intros ->; congruence). rewrite lookup_delete_ne by done.
    split_and!; [|done..]. rewrite P1 in Hq1. set_solver.
Qed.

Lemma remove_watch_table k s W n t1 t2 p w :
  holds s W t1 t2 -> (2 * n <= rb_mem (i_rb s))%nat -> p ∈ inorder t1 -> i_watches s !! p = Some w -> 0 <= k_rm k (w_wd w) ->
  exists s', remove_watch k p s = Ok (1, s') /\ table s' (delete (w_wd w) W) n.
Proof.
  intros H Hmem Hp Hw Hk. destruct (ho_live _ _ _ _ H p Hp) as ([Hpos _] & _). unfold STACK in Hpos. set (s1 := set_error 0 s).
  assert (remove_inotify_watch k p s = Ok (true, s1)) as U0.
  { unfold remove_inotify_watch. rewrite (bind_ok (modify _) _ s tt s1) by done. run (watch_at_run p w s1 Hw).
    cbv zeta. by rewrite (proj2 (Z.ltb_ge _ _)). }
  destruct (tree_delete_run wd_compare tree_wd p s1 t1 _ (ho_wd _ _ _ _ H) Hp) as (b & u1 & U1 & R1 & P1 & N1 & M1).
  pose proof (other_removed _ _ _ _ _ _ _ _ _ (ho_wd _ _ _ _ H) (ho_name _ _ _ _ H) ltac:(apply not_eq_sym, H) (apart_sym _ _ (ho_apart _ _ _ _ H)) M1) as R2.
  assert (p ∈ inorder t2) as Hp2 by (by rewrite <- (ho_same _ _ _ _ H)).
  destruct (tree_delete_run filename_compare tree_filename p (set_rb b s1) t2 _ R2 Hp2) as (b2 & u2 & U2 & R2' & P2 & N2 & M2).
  assert (addrs u1 ## addrs t2) as D1.
  { destruct M1 as [_ _ (y & A1 & _) _ _ _ _]. pose proof (ho_apart _ _ _ _ H) as D. rewrite A1 in D. set_solver. }
  pose proof (other_removed _ _ _ _ _ _ _ _ _ R2 R1 ltac:(apply H) D1 M2) as R1'.
  assert (addrs u1 ## addrs u2) as D2.
  { destruct M2 as [_ _ (y & A2 & _) _ _ _ _]. rewrite A2 in D1. set_solver. }
  exists (set_watches (delete p (i_watches s)) (set_rb b2 s1)). split.
  - unfold remove_watch. rewrite (proj2 (Z.eqb_neq p 0)) by lia. run U0. cbn [negb]. run U1. run U2. unfold destroy_watch.
    rewrite (bind_ok _ _ (set_rb b2 s1) tt (set_watches (delete p (i_watches s)) (set_rb b2 s1))); [done|].
    by run (watch_at_run p w (set_rb b2 s1) Hw).
  - exists u1, u2. split; [|cbn; rewrite (rm_count _ _ _ _ _ M2); cbn; rewrite (rm_count _ _ _ _ _ M1); cbn; lia].
    apply (holds_removed s1 W t1 t2 p w b2 u1 u2); [by destruct H|done..|].
    apply (Permutation_cons_inv (a := p)). by rewrite <- P1, <- P2, (ho_same _ _ _ _ H).
Qed.

(** ** Operations as an abstract data type *)

(** Every call meets the kernel of its time. *)
Inductive watch_op :=
| OpWatch (k : kernel) (filename : list Z) (events : Z)
| OpRemoveWd (k : kernel) (wd : Z)
| OpRemoveName (k : kernel) (filename : list Z)
| OpNameOf (wd : Z)
| OpWdOf (filename : list Z).

Definition run_watch_op (o : watch_op) : ino_m (Z + option (list Z)) :=
  match o with
  | OpWatch k f ev => x <- inotifytools_watch_file k f ev ;; ret (inl x)
  | OpRemoveWd k wd => x <- inotifytools_remove_watch_by_wd k wd ;; ret (inl x)
  | OpRemoveName k f => x <- inotifytools_remove_watch_by_filename k f ;; ret (inl x)
  | OpNameOf wd => x <- inotifytools_filename_from_wd wd ;; ret (inr x)
  | OpWdOf f => x <- inotifytools_wd_from_filename f ;; ret (inl x)
  end.

Fixpoint run_watch_ops (os : list watch_op) : ino_m (list (Z + option (list Z))) :=
  match os with
  | [] => ret []
  | o :: os => a <- run_watch_op o ;; l <- run_watch_ops os ;; ret (a :: l)
  end.

(** The same operations on the map.  A directory is watched with a slash. *)
Definition name_for (k : kernel) (f : list Z) : list Z :=
  if isdir k f && bool_decide (list.last f <> Some 47) then f ++ [47] else f.

Definition wd_for (W : gmap Z (list Z)) (f : list Z) : option Z :=
  fst <$> List.find (fun e => bool_decide (snd e = f)) (map_to_list W).

Definition spec_remove (k : kernel) (wd : option Z) (W : gmap Z (list Z)) : Z * gmap Z (list Z) :=
  match wd with
  | Some wd => if k_rm k wd <? 0 then (0, W) else (1, delete wd W)
  | None => (1, W)
  end.

Definition spec_watch_op (o : watch_op) (W : gmap Z (list Z)) : (Z + option (list Z)) * gmap Z (list Z) :=
  match o with
  | OpWatch k f ev =>
      let wd := fst (k_add k f ev) in
      if wd <? 0 then (inl 0, W) else if wd =? 0 then (inl 1, W) else (inl 1, <[wd := name_for k f]> W)
  | OpRemoveWd k wd =>
      let '(x, W') := spec_remove k (match W !! wd with Some _ => Some wd | None => None end) W in (inl x, W')
  | OpRemoveName k f => let '(x, W') := spec_remove k (wd_for W f) W in (inl x, W')
  | OpNameOf wd => (inr (W !! wd), W)
  | OpWdOf f => (inl (default (-1) (wd_for W f)), W)
  end.

Fixpoint spec_watch_ops (os : list watch_op) (W : gmap Z (list Z)) : list (Z + option (list Z)) * gmap Z (list Z) :=
  match os with
  | [] => ([], W)
  | o :: os => let '(a, W) := spec_watch_op o W in let '(l, W) := spec_watch_ops os W in (a :: l, W)
  end.

(** A watch the kernel makes either has a descriptor and a name that are not on the table,
    or is the one the table has under that descriptor.  A kernel that gives two names one
    descriptor, as it does for two links to a file, or a name that was moved away a new
    one, does not keep to this. *)
Definition new_watch (o : watch_op) (W : gmap Z (list Z)) : bool :=
  match o with
  | OpWatch k f ev =>
      let wd := fst (k_add k f ev) in
      (wd <? 0) || bool_decide (f <> []) &&
      ((wd =? 0) || bool_decide (W !! wd = Some (name_for k f)) ||
       bool_decide (W !! wd = None) && bool_decide (wd_for W (name_for k f) = None))
  | _ => true
  end.

Fixpoint new_watches (os : list watch_op) (W : gmap Z (list Z)) : bool :=
  match os with
  | [] => true
  | o :: os => new_watch o W && new_watches os (snd (spec_watch_op o W))
  end.

Lemma holds_error e s W t1 t2 : holds s W t1 t2 -> holds (set_error e s) W t1 t2.
Proof. intros []. by constructor. Qed.

Lemma table_error e s W n : table s W n -> table (set_error e s) W n.
Proof. intros (t1 & t2 & H & Hm). exists t1, t2. split; [by apply holds_error|done]. Qed.

Lemma table_less s W n : table s W (S n) -> table s W n.
Proof. intros (t1 & t2 & H & Hm). exists t1, t2. split; [done|lia]. Qed.

Lemma wd_for_some W f wd : wd_for W f = Some wd -> W !! wd = Some f.
Proof.
  unfold wd_for. intros ([wd' f'] & [Hin He]%List.find_some & ->)%fmap_Some.
  apply bool_decide_eq_true in He. cbn in *. subst f'. apply elem_of_map_to_list. by apply list_elem_of_In.
Qed.

Lemma wd_for_none W f wd : wd_for W f = None -> W !! wd <> Some f.
Proof.
  unfold wd_for. intros Hf%fmap_None Hw. apply elem_of_map_to_list, list_elem_of_In in Hw.
  pose proof (List.find_none _ _ Hf _ Hw) as Hn. by apply bool_decide_eq_false in Hn.
Qed.

Lemma watch_name_run k f s : f <> [] -> watch_name k f s = Ok (name_for k f, s).
Proof.
  intros Hf. unfold watch_name, name_for. destruct (isdir k f); [|done]. cbn [negb andb].
  destruct (list.last f) as [c|] eqn:El; [|by apply last_None in El].
  unfold last_byte. rewrite (bind_ok _ _ s c s) by (by rewrite El). unfold ret.
  destruct (Z.eqb_spec c 47) as [->|Hne]; [rewrite bool_decide_false by tauto|rewrite bool_decide_true by congruence]; done.
Qed.

Lemma watch_file_table k s W n f ev :
  table s W (S n) -> new_watch (OpWatch k f ev) W = true ->
  exists s', run_watch_op (OpWatch k f ev) s = Ok (fst (spec_watch_op (OpWatch k f ev) W), s') /\
    table s' (snd (spec_watch_op (OpWatch k f ev) W)) n.
Proof.
  intros H Hok. cbn [new_watch] in Hok. cbn [run_watch_op spec_watch_op].
  unfold inotifytools_watch_file, inotifytools_watch_files. set (s1 := set_error 0 s).
  assert (table s1 W (S n)) as H1 by by apply table_error.
  cbn [watch_files_loop]. destruct (k_add k f ev) as [wd errno]. cbn [fst] in *.
  destruct (Z.ltb_spec wd 0) as [Hlt|Hge].
  { eexists. split; [|by apply table_less, (table_error (if wd =? -1 then errno else i_error s1)), H1].
    unfold bind, modify, when, ret. cbn. by destruct (wd =? -1). }
  cbn [orb] in Hok. apply andb_true_iff in Hok as [Hf%bool_decide_eq_true Hok].
  assert (exists s', create_watch wd (name_for k f) s1 = Ok (tt, s') /\
    table s' (snd (if wd =? 0 then (inl 1 : Z + option (list Z), W) else (inl 1, <[wd := name_for k f]> W))) n) as (s' & U & H').
  { destruct (Z.eqb_spec wd 0) as [->|Hne]; [exists s1; by split; [|apply table_less]|]. cbn [orb snd] in *.
    apply orb_true_iff in Hok as [HW%bool_decide_eq_true|[HW%bool_decide_eq_true Hn%bool_decide_eq_true]%andb_true_iff].
    - rewrite insert_id by done. apply create_watch_again; [by apply table_less|lia|done].
    - apply create_watch_table; [done|lia|done|]. intros wd'. by apply wd_for_none. }
  exists s'. split; [|by destruct (wd =? 0)].
  rewrite (bind_ok _ _ s 1 s'); [by destruct (wd =? 0)|]. rewrite (bind_ok (modify _) _ s tt s1) by done.
  run (watch_name_run k f s1 Hf). by run U.
Qed.

(** Removing the watch at [p], or nothing when there is none. *)
Lemma remove_table k s W n t1 t2 p w :
  holds s W t1 t2 -> (2 * n <= rb_mem (i_rb s))%nat -> p ∈ inorder t1 -> i_watches s !! p = Some w ->
  exists s', remove_watch k p s = Ok (fst (spec_remove k (Some (w_wd w)) W), s') /\ table s' (snd (spec_remove k (Some (w_wd w)) W)) n.
Proof.
  intros H Hm Hp Hw. cbn [spec_remove]. destruct (Z.ltb_spec (k_rm k (w_wd w)) 0) as [Hk|Hk].
  - exists (set_error (k_rm k (w_wd w)) s). split; [|apply table_error; by exists t1, t2].
    destruct (ho_live _ _ _ _ H p Hp) as ([Hpos _] & _). unfold STACK in Hpos.
    unfold remove_watch. rewrite (proj2 (Z.eqb_neq p 0)) by lia.
    rewrite (bind_ok _ _ s false (set_error (k_rm k (w_wd w)) s)); [done|].
    unfold remove_inotify_watch. rewrite (bind_ok (modify _) _ s tt (set_error 0 s)) by done.
    run (watch_at_run p w (set_error 0 s) Hw).
    cbv zeta. by rewrite (proj2 (Z.ltb_lt _ _) Hk).
  - by eapply remove_watch_table.
Qed.

Lemma run_watch_op_ok s W n o :
  table s W (S n) -> new_watch o W = true ->
  exists s', run_watch_op o s = Ok (fst (spec_watch_op o W), s') /\ table s' (snd (spec_watch_op o W)) n.
Proof.
  intros H Hok. pose proof (table_less _ _ _ H) as Hl. destruct o as [k f ev|k wd|k f|wd|f]; [by apply watch_file_table|..];
    destruct H as (t1 & t2 & H & Hm); cbn [run_watch_op spec_watch_op].
  - unfold inotifytools_remove_watch_by_wd. destruct (W !! wd) as [name|] eqn:E.
    + destruct (watch_from_wd_some _ _ _ _ H _ _ E) as (p & w & U & Hp & Hw & <- & _).
      destruct (remove_table k s W n t1 t2 p w H ltac:(lia) Hp Hw) as (s' & U' & H').
      exists s'. destruct (spec_remove _ _ _). split; [|done]. rewrite (bind_ok _ _ s _ s' (eq_trans (bind_ok _ _ _ _ _ U) U')). done.
    + exists s. split; [|done]. by rewrite (bind_ok _ _ s 1 s) by (by run (watch_from_wd_none _ _ _ _ H _ E)).
  - unfold inotifytools_remove_watch_by_filename. destruct (wd_for W f) as [wd|] eqn:E.
    + apply wd_for_some in E. destruct (watch_from_filename_some _ _ _ _ H _ _ E) as (p & w & U & Hp & Hw & <- & _).
      destruct (remove_table k s W n t1 t2 p w H ltac:(lia) Hp Hw) as (s' & U' & H').
      exists s'. destruct (spec_remove _ _ _). split; [|done]. rewrite (bind_ok _ _ s _ s' (eq_trans (bind_ok _ _ _ _ _ U) U')). done.
    + exists s. split; [|done].
      by rewrite (bind_ok _ _ s 1 s) by (by run (watch_from_filename_none _ _ _ _ H f (fun wd => wd_for_none W f wd E))).
  - exists s. split; [|done]. by run (filename_from_wd_run _ _ _ _ wd H).
  - exists s. split; [|done]. cbn [fst]. rewrite (bind_ok _ _ s (default (-1) (wd_for W f)) s); [done|]. unfold inotifytools_wd_from_filename.
    destruct (wd_for W f) as [wd|] eqn:E; [|by run (watch_from_filename_none _ _ _ _ H f (fun wd => wd_for_none W f wd E))].
    apply wd_for_some in E. destruct (watch_from_filename_some _ _ _ _ H _ _ E) as (p & w & U & Hp & Hw & <- & _). run U.
    destruct (ho_live _ _ _ _ H p Hp) as ([Hpos _] & _). unfold STACK in Hpos. rewrite (proj2 (Z.eqb_neq p 0)) by lia.
    by run (watch_at_run p w s Hw).
Qed.

Lemma run_watch_ops_ok os : forall s W,
  table s W (length os) -> new_watches os W = true ->
  exists s', run_watch_ops os s = Ok (fst (spec_watch_ops os W), s') /\ table s' (snd (spec_watch_ops os W)) 0.
Proof.
  induction os as [|o os IH]; intros s W H Hok; cbn [run_watch_ops spec_watch_ops]; [by exists s|].
  cbn [new_watches] in Hok. apply andb_true_iff in Hok as [H1 H2].
  destruct (run_watch_op_ok s W _ o H H1) as (s1 & U1 & T1). run U1. destruct (spec_watch_op o W) as [a W1]. cbn [fst snd] in *.
  destruct (IH s1 W1 T1 H2) as (s2 & U2 & T2). run U2. destruct (spec_watch_ops os W1) as [l W2]. by exists s2.
Qed.

Lemma initialize_table k mem :
  0 <= k_init k ->
  exists s, inotifytools_initialize k (ino_start (S (S mem))) = Ok (1, s) /\ forall n, (2 * n <= mem)%nat -> table s ∅ n.
Proof.
  intros Hk. unfold inotifytools_initialize. rewrite (bind_ok get _ _ (ino_start (S (S mem))) (ino_start (S (S mem)))) by done.
  rewrite (proj2 (Z.ltb_ge _ _) Hk). cbn [i_init ino_start]. eexists. split; [done|].
  intros n Hn. exists E, E. split; [|cbn; lia]. assert (forall cmp s r, sentinel (rb_nodes s) -> rb_root s !! r = Some RBNULL -> r <> 0 ->
    1 < rb_next s -> rb_tree cmp s r E) as He.
  { intros cmp s r Hs Hr H0 Hx. constructor; [|done|done|by exists 0%nat; constructor|constructor].
    constructor; [done|done|done|constructor|constructor]. }
  constructor; cbn [i_watches i_rb tree_wd tree_filename i_next ino_start]; [apply He..| | | | | | |]; try done.
  1, 2: by exists rb_null.
  - intros q Hq. by apply elem_of_nil in Hq.
  - intros p Hp. by apply elem_of_nil in Hp.
Qed.


(** A kernel where paths that end in a digit are directories, and a file has the
    descriptor [wd]. *)
Definition demo_kernel (wd : Z) : kernel :=
  Kernel 3 (fun _ _ => (wd, 0)) (fun wd => if wd =? 9 then -1 else 0)
    (fun p => match list.last p with Some c => inr (if (48 <=? c) && (c <? 58) then 0x41ed else 0x81a4) | None => inl ENOENT end)
    (fun _ => inl ENOTDIR).

Definition demo_watch_ops : list watch_op :=
  [OpWatch (demo_kernel 1) (bs "/a/1") 0; OpWatch (demo_kernel 2) (bs "/a/x") 0; OpWatch (demo_kernel (-1)) (bs "/z") 0;
   OpWatch (demo_kernel 9) (bs "/b/2") 0; OpNameOf 1; OpWdOf (bs "/a/x"); OpRemoveWd (demo_kernel 0) 1; OpNameOf 1;
   OpWdOf (bs "/a/1/"); OpRemoveName (demo_kernel 0) (bs "/b/2/"); OpWatch (demo_kernel 4) (bs "/a/1") 0; OpWatch (demo_kernel 4) (bs "/a/1") 0; OpWdOf (bs "/a/1/")].

