(* ===== verification/InotifyFacts.v ===== *)
(** * Watching files: what the library promises

    Names of events can be parsed back; the text made from a format is the
    expansion of the format as long as it fits; the events of the kernel come
    out one by one, in their order, without those that the caller ignores. *)

From S2P Require Import Prelude RedBlack RedBlackShape Inotify WatchTable.

(** ** Names of events *)

(** The bits that have a name, without [IN_ONESHOT], which is a flag of a
    watch. *)
Definition NAMED : Z := 0x4000efff.

Definition joined (sep : Z) (nvs : list (list Z * Z)) : list Z := concat (map (fun nv => sep :: fst nv) nvs).

Definition shown (m : Z) : list (list Z * Z) := List.filter (fun nv => has m (snd nv)) shown_names.

Lemma joined_filter m sep l :
  concat (map (fun nv => if has m (snd nv) then sep :: fst nv else []) l) = joined sep (List.filter (fun nv => has m (snd nv)) l).
Proof. unfold joined. induction l as [|nv l IH]; cbn; [done|]. destruct (has m (snd nv)); cbn; by rewrite IH. Qed.

Lemma shown_joined m sep : shown m <> [] -> inotifytools_event_to_str_sep m sep = drop 1 (joined sep (shown m)).
Proof.
  unfold shown, inotifytools_event_to_str_sep, event_str_buffer. rewrite joined_filter. generalize shown_names. intros l Hne.
  destruct (List.filter _ l); [done|reflexivity].
Qed.

(** A name that [onestr_to_event] knows and that holds no separator. *)
Definition good_name (nv : list Z * Z) : bool :=
  (onestr_to_event (take (Z.to_nat 4095) (fst nv)) =? snd nv) && (0 <? snd nv) && forallb bad_sep (fst nv) &&
  negb (bool_decide (fst nv = [])).

Lemma no_sep sep l : bad_sep sep = false -> forallb bad_sep l = true -> Forall (fun b => b <> sep) l.
Proof. intros Hs Hl. rewrite forallb_forall in Hl. apply List.Forall_forall. intros c Hc%Hl. congruence. Qed.

Lemma loop_joined sep nvs : bad_sep sep = false -> Forall (fun nv => good_name nv = true) nvs -> nvs <> [] ->
  forall fuel acc, (length (joined sep nvs) <= S fuel)%nat ->
  str_to_event_loop fuel sep (drop 1 (joined sep nvs)) acc = fold_left Z.lor (map snd nvs) acc.
Proof.
  intros Hs. induction 1 as [|[n v] nvs Hg Hgs IH]; [done|]. intros _ fuel acc Hf.
  unfold good_name in Hg. cbn [fst snd] in Hg. apply andb_true_iff in Hg as [[[H1 H2]%andb_true_iff H3]%andb_true_iff H4].
  apply negb_true_iff, bool_decide_eq_false in H4. apply Z.eqb_eq in H1. apply Z.ltb_lt in H2.
  cbn [joined map concat fst] in *. rewrite length_app in Hf. cbn [length app drop map fold_left snd] in *. fold (joined sep nvs) in *.
  try rewrite drop_0. destruct fuel as [|fuel]; [destruct n; [done|]; cbn in Hf; lia|]. cbn [str_to_event_loop].
  destruct nvs as [|[n' v'] nvs].
  - cbn [joined map concat]. rewrite app_nil_r, (proj2 (strchr_none _ _) (no_sep _ _ Hs H3)), H1.
    rewrite !(proj2 (Z.eqb_neq v _)) by lia. done.
  - assert (joined sep ((n', v') :: nvs) = sep :: drop 1 (joined sep ((n', v') :: nvs))) as Ej by done.
    rewrite Ej, (proj2 (strchr_spec sep (n ++ sep :: _) _ _) (conj eq_refl (no_sep _ _ Hs H3))), H1. rewrite !(proj2 (Z.eqb_neq v _)) by lia. cbn [orb].
    destruct (drop 1 (joined sep ((n', v') :: nvs))) as [|c r] eqn:Ed.
    + exfalso. apply Forall_inv in Hgs. cbn in Ed. rewrite drop_0 in Ed. apply app_eq_nil in Ed as [-> _].
      unfold good_name in Hgs. by rewrite andb_comm in Hgs.
    + apply IH; [done|]. destruct n; [done|]. cbn [length] in *. lia.
Qed.

Lemma lor_fold l : forall acc, fold_left Z.lor l acc = Z.lor acc (fold_left Z.lor l 0).
Proof.
  induction l as [|v l IH]; intros acc; cbn [fold_left]; [by rewrite Z.lor_0_r|].
  rewrite IH, (IH (Z.lor 0 v)), Z.lor_0_l. by rewrite Z.lor_assoc.
Qed.

Lemma lor_filter_bit m l n :
  Z.testbit (fold_left Z.lor (map snd (List.filter (fun nv : list Z * Z => has m (snd nv)) l)) 0) n =
  existsb (fun nv => has m (snd nv) && Z.testbit (snd nv) n) l.
Proof.
  induction l as [|[s v] l IH]; cbn [List.filter existsb snd]; [apply Z.testbit_0_l|].
  destruct (has m v); cbn [map fold_left snd]; [|done]. by rewrite lor_fold, Z.lor_0_l, Z.lor_spec, IH.
Qed.

Lemma land_testbit m v n : Z.land m v = 0 -> Z.testbit v n = true -> Z.testbit m n = false.
Proof. intros H Hv. pose proof (Z.land_spec m v n) as E. rewrite H, Z.testbit_0_l, Hv, andb_true_r in E. done. Qed.

(** A bit of the mask is shown when its name is. *)
Lemma has_bit m n : 0 <= n -> has m (2 ^ n) = Z.testbit m n.
Proof.
  intros Hn. unfold has. destruct (Z.eqb_spec (Z.land m (2 ^ n)) 0) as [E|E]; cbn.
  - by rewrite (land_testbit m (2 ^ n) n E (Z.pow2_bits_true n Hn)).
  - destruct (Z.testbit m n) eqn:Et; [done|]. exfalso. apply E. apply Z.bits_inj'. intros i Hi.
    rewrite Z.land_spec, Z.testbit_0_l, Z.pow2_bits_eqb by done. destruct (Z.eqb_spec n i) as [<-|]; [by rewrite Et|apply andb_false_r].
Qed.

Definition lors (nvs : list (list Z * Z)) : Z := fold_left Z.lor (map snd nvs) 0.

Lemma pow2_bit k n : 0 <= k -> Z.testbit (2 ^ k) n = (n =? k).
Proof. intros Hk. rewrite Z.pow2_bits_eqb by done. apply Z.eqb_sym. Qed.

Lemma existsb_bits m n ks :
  Forall (fun k => 0 <= k) ks ->
  existsb (fun v => has m v && Z.testbit v n) (map (Z.pow 2) ks) = Z.testbit m n && existsb (Z.eqb n) ks.
Proof.
  induction 1 as [|k ks Hk _ IH]; cbn [map existsb]; [by rewrite andb_false_r|].
  rewrite IH, has_bit, pow2_bit by done. destruct (Z.eqb_spec n k) as [->|]; cbn; [|by rewrite andb_false_r].
  destruct (Z.testbit m k); cbn; [done|]. done.
Qed.

Lemma named_bits n ks :
  Forall (fun k => 0 <= k) ks -> Z.testbit (fold_right (fun k => Z.lor (2 ^ k)) 0 ks) n = existsb (Z.eqb n) ks.
Proof.
  induction 1 as [|k ks Hk _ IH]; cbn [fold_right existsb]; [apply Z.testbit_0_l|]. by rewrite Z.lor_spec, IH, pow2_bit.
Qed.

(** The events with one bit, in the order they are shown. *)
Definition bits1 : list Z := [0; 1; 2; 3; 4; 5; 6; 7; 8; 9; 10; 13; 14; 15].
Definition bits2 : list Z := [11; 30; 31].

Lemma existsb_map {A B} (f : A -> B) p l : existsb p (map f l) = existsb (fun x => p (f x)) l.
Proof. induction l as [|x l IH]; cbn; [done|]. by rewrite IH. Qed.

Lemma bits_of_mask m : 0 <= m -> Z.land m (Z.lnot NAMED) = 0 -> lors (shown m) = Z.lor m (if has m IN_CLOSE then IN_CLOSE else 0).
Proof.
  intros H0 Hm. apply Z.bits_inj'. intros n Hn. unfold lors, shown. rewrite lor_filter_bit, Z.lor_spec.
  rewrite <- (existsb_map snd (fun v => has m v && Z.testbit v n)).
  change (map snd shown_names) with (map (Z.pow 2) bits1 ++ IN_CLOSE :: map (Z.pow 2) bits2).
  rewrite existsb_app. cbn [existsb]. rewrite !existsb_bits by (repeat constructor; lia).
  assert (Z.testbit (if has m IN_CLOSE then IN_CLOSE else 0) n = has m IN_CLOSE && Z.testbit IN_CLOSE n) as ->
    by (destruct (has m IN_CLOSE); [done|apply Z.testbit_0_l]).
  assert (Z.testbit m n = true -> existsb (Z.eqb n) bits1 || existsb (Z.eqb n) bits2 = true) as Hb.
  { intros Ht. assert (Z.testbit NAMED n = true) as HN.
    { destruct (Z.testbit NAMED n) eqn:E; [done|]. rewrite (land_testbit m (Z.lnot NAMED) n Hm) in Ht; [done|].
      by rewrite Z.lnot_spec, E. }
    change NAMED with (fold_right (fun k => Z.lor (2 ^ k)) 0 (bits1 ++ [11; 30])) in HN.
    rewrite named_bits, existsb_app in HN by (repeat constructor; lia).
    destruct (existsb (Z.eqb n) bits1); [done|]. cbn in *. destruct (n =? 11), (n =? 30); done. }
  destruct (Z.testbit m n); cbn [andb]; [|by rewrite orb_false_r].
  destruct (existsb (Z.eqb n) bits1); [done|]. specialize (Hb eq_refl). cbn [orb] in *. by rewrite Hb, orb_true_r.
Qed.

Lemma parse_joined sep nvs :
  bad_sep sep = false -> Forall (fun nv => good_name nv = true) nvs -> nvs <> [] ->
  inotifytools_str_to_event_sep (drop 1 (joined sep nvs)) sep = lors nvs.
Proof.
  intros Hs Hg Hne. unfold lors. unfold inotifytools_str_to_event_sep. rewrite Hs. destruct (drop 1 (joined sep nvs)) as [|c r] eqn:Ed.
  - exfalso. destruct nvs as [|[n v] nvs]; [done|]. apply Forall_inv in Hg. cbn in Ed. rewrite drop_0 in Ed.
    apply app_eq_nil in Ed as [-> _]. unfold good_name in Hg. by rewrite andb_comm in Hg.
  - rewrite <- Ed. apply loop_joined; [done..|]. rewrite length_drop. lia.
Qed.

Lemma names_good : Forall (fun nv => good_name nv = true \/ snd nv = 2 ^ 31) shown_names.
Proof. repeat (constructor; [by vm_compute; auto|]). constructor. Qed.

Lemma shown_good m : Z.land m (Z.lnot NAMED) = 0 -> Forall (fun nv => good_name nv = true) (shown m).
Proof.
  intros Hm. pose proof names_good as Hn. unfold shown. revert Hn. generalize shown_names. intros l Hn. rewrite List.Forall_forall in *.
  intros nv [Hin Hh]%filter_In. destruct (Hn nv Hin) as [|E]; [done|]. rewrite E, has_bit in Hh by lia.
  by rewrite (land_testbit m (Z.lnot NAMED) 31 Hm) in Hh.
Qed.

Lemma shown_some m : 0 < m -> Z.land m (Z.lnot NAMED) = 0 -> shown m <> [].
Proof.
  intros H0 Hm E. pose proof (bits_of_mask m ltac:(lia) Hm) as Hb. rewrite E in Hb.
  symmetry in Hb. apply Z.lor_eq_0_iff in Hb. lia.
Qed.

(** The text of a mask, with any separator that is not a letter or an
    underscore, is parsed back to the mask, with both kinds of closing where one
    is in it: the name CLOSE is shown next to the more precise name. *)
Theorem event_names_roundtrip m sep :
  0 < m -> Z.land m (Z.lnot NAMED) = 0 -> bad_sep sep = false ->
  inotifytools_str_to_event_sep (inotifytools_event_to_str_sep m sep) sep = Z.lor m (if has m IN_CLOSE then IN_CLOSE else 0).
Proof.
  intros H0 Hm Hs. rewrite <- bits_of_mask by (done || lia). pose proof (shown_some m H0 Hm) as Hne.
  rewrite shown_joined, parse_joined by (done || by apply shown_good). done.
Qed.

Lemma event_names_roundtrip_witness :
  inotifytools_event_to_str_sep 0x4000010a 46 = bs "MODIFY.CLOSE_WRITE.CREATE.CLOSE.ISDIR" /\
  inotifytools_str_to_event_sep (inotifytools_event_to_str_sep 0x4000010a 46) 46 = 0x4000011a.
Proof. split; [by vm_compute|]. exact (event_names_roundtrip 0x4000010a 46 ltac:(done) ltac:(by vm_compute) ltac:(done)). Defined.

(** ** Formats *)

(** What a format stands for, without a buffer: [None] for a format that ends in
    a percent sign, or when the time cannot be formatted. *)
Fixpoint expand (fl : fields) (fmt : list Z) : option (list Z) :=
  match fmt with
  | [] => Some []
  | c :: rest =>
      if negb (c =? 37) then cons c <$> expand fl rest
      else
        match rest with
        | [] => None
        | ch1 :: rest =>
            if ch1 =? 37 then cons 37 <$> expand fl rest
            else if ch1 =? 119 then app (default [] (fl_filename fl)) <$> expand fl rest
            else if ch1 =? 102 then app (default [] (fl_name fl)) <$> expand fl rest
            else if ch1 =? 101 then app (inotifytools_event_to_str (fl_mask fl)) <$> expand fl rest
            else if ch1 =? 84 then
              match fl_time fl with
              | Some None => None
              | Some (Some t) => app t <$> expand fl rest
              | None => expand fl rest
              end
            else
              match rest with
              | [] => Some [37; ch1]
              | ch2 :: rest' =>
                  if ch2 =? 101 then app (inotifytools_event_to_str_sep (fl_mask fl) ch1) <$> expand fl rest'
                  else app [37; ch1] <$> expand fl rest
              end
        end
  end.

(** The text so far and its length. *)
Definition buf (out : list Z) : list Z * Z := (out, Z.of_nat (length out)).

Lemma put_str_buf size out s : Z.of_nat (length out) + Z.of_nat (length s) <= size -> put_str size (buf out) s = buf (out ++ s).
Proof. intros H. unfold put_str, buf. rewrite take_ge by lia. f_equal. rewrite length_app. lia. Qed.

Lemma put_char_buf out c : put_char (buf out) c = buf (out ++ [c]).
Proof. unfold put_char, buf. cbn. f_equal. rewrite length_app. cbn. lia. Qed.

(** The rest of a format, after text [s] has been put. *)
Lemma format_rest size fl rest s text out (st : list Z * Z) :
  (forall out text, expand fl rest = Some text -> Z.of_nat (length out + length text) < size ->
     format_loop size fl rest (buf out) = FmtEnd (buf (out ++ text))) ->
  st = buf (out ++ s) -> app s <$> expand fl rest = Some text -> Z.of_nat (length out + length text) < size ->
  format_loop size fl rest st = FmtEnd (buf (out ++ text)).
Proof.
  intros IH -> (t & E & ->)%fmap_Some Hl. rewrite length_app in Hl. rewrite (IH (out ++ s) t E), app_assoc; [done|].
  rewrite length_app. lia.
Qed.

Lemma expand_bound fl rest s text : app s <$> expand fl rest = Some text -> (length s <= length text)%nat.
Proof. intros (t & _ & ->)%fmap_Some. rewrite length_app. lia. Qed.

Lemma format_loop_text size fl : size <= MAX_STRLEN -> forall n fmt, (length fmt <= n)%nat -> forall out text,
  expand fl fmt = Some text -> Z.of_nat (length out + length text) < size ->
  format_loop size fl fmt (buf out) = FmtEnd (buf (out ++ text)).
Proof.
  intros Hmax. induction n as [|n IH]; intros [|c rest] Hn out text He Hl; cbn [length] in Hn; try lia; cbn [expand] in He;
    [by injection He as <-; rewrite app_nil_r..|].
  cbn [format_loop]. destruct (Z.ltb_spec (snd (buf out)) (size - 1)) as [Hs|Hs]; cbn [negb].
  2: { cbn in Hs. assert (text = []) as ->; [|by rewrite app_nil_r]. destruct text; [done|]. cbn in Hl. lia. }
  assert (forall rest' s st, (length rest' <= n)%nat -> app s <$> expand fl rest' = Some text ->
    ((length s <= length text)%nat -> st = buf (out ++ s)) -> format_loop size fl rest' st = FmtEnd (buf (out ++ text))) as K.
  { intros rest' s st Hr Hx Hst. eapply format_rest; [|apply Hst; by eapply expand_bound|done|done]. intros. by apply IH. }
  destruct (c =? 37); cbn [negb] in *; [|apply (K rest [c]); [lia|done|intros _; apply put_char_buf]].
  destruct rest as [|ch1 rest]; [done|]. cbn [length] in Hn.
  destruct (ch1 =? 37); [apply (K rest [37]); [lia|done|intros _; apply put_char_buf]|].
  destruct (ch1 =? 119).
  { eapply K; [lia|exact He|]. intros Hb. destruct (fl_filename fl); cbn in *; [by apply put_str_buf; lia|by rewrite app_nil_r]. }
  destruct (ch1 =? 102).
  { eapply K; [lia|exact He|]. intros Hb. destruct (fl_name fl); cbn in *; [by apply put_str_buf; lia|by rewrite app_nil_r]. }
  destruct (ch1 =? 101); [eapply K; [lia|exact He|]; intros Hb; apply put_str_buf; lia|].
  destruct (ch1 =? 84).
  { destruct (fl_time fl) as [[t|]|]; [eapply K; [lia|exact He|]; intros Hb; apply put_str_buf; lia|done|].
    rewrite put_str_buf by (cbn in *; lia). rewrite app_nil_r. apply IH; [lia|done|done]. }
  assert ((2 <= length text)%nat -> put_plain ch1 (buf out) = buf (out ++ [37; ch1])) as P.
  { intros Hb. cbn in Hs. unfold put_plain, MAX_STRLEN in *. rewrite (proj2 (Z.ltb_lt (snd (buf out)) _)) by (cbn; lia). rewrite put_char_buf.
    rewrite (proj2 (Z.ltb_lt _ _)) by (cbn; rewrite length_app; cbn; lia). by rewrite put_char_buf, <- app_assoc. }
  destruct rest as [|ch2 rest]; [injection He as <-; by rewrite P by (cbn; lia)|]. cbn [length] in Hn.
  destruct (ch2 =? 101); [eapply K; [lia|exact He|]; intros Hb; apply put_str_buf; lia|].
  eapply K; [cbn; lia|exact He|exact P].
Qed.

(** When the expansion of a format fits into the buffer, with its terminator,
    that is the text that [inotifytools_snprintf] stores, and the value returned is
    one less than its length. *)
Lemma snprintf_text cap size fl fmt text :
  fmt <> [] -> Z.of_nat (length fmt) <= MAX_STRLEN -> size <= MAX_STRLEN -> size <= cap ->
  expand fl fmt = Some text -> Forall (fun c => c <> 0) text -> Z.of_nat (length text) < size ->
  snprintf_event cap size fl fmt = Ok (Z.of_nat (length text) - 1, 0, Some text).
Proof.
  intros Hf Hm Hs Hc He Hn Hl. unfold snprintf_event. rewrite bool_decide_false by done.
  rewrite !(proj2 (Z.ltb_ge _ _)) by done. cbn [orb].
  change ([], 0) with (buf []). rewrite (format_loop_text size fl Hs (length fmt) fmt (le_n _) [] text He) by done. cbn [buf app].
  rewrite (proj2 (Z.ltb_lt _ _)) by lia. by rewrite Nat2Z.id, firstn_all, cstr_id.
Qed.

(** [strncpy] cuts a name at the end of the buffer, but the index still moves
    by the whole length of the name, and the terminator is stored there: with the
    format of [inotifytools_next_events] for ignored events, a path that is longer
    than the buffer is written outside of it. *)
Theorem snprintf_overruns cap size filename name mask time :
  size <= MAX_STRLEN -> Z.of_nat (length filename) < size - 1 -> cap <= Z.of_nat (length filename + length name) ->
  snprintf_event cap size (Fields (Some filename) (Some name) mask time) (bs "%w%f") = Err EUndef.
Proof.
  intros Hs Hf Hc. unfold snprintf_event. rewrite bool_decide_false by done.
  rewrite (proj2 (Z.ltb_ge _ _)) by (by vm_compute). rewrite (proj2 (Z.ltb_ge _ _)) by done. cbn [orb].
  change (bs "%w%f") with [37; 119; 37; 102]. cbn [format_loop fl_filename fl_name Z.eqb Pos.eqb negb fst snd].
  rewrite (proj2 (Z.ltb_lt 0 _)) by lia. cbn [negb]. change ([], 0) with (buf []). rewrite put_str_buf by (cbn; lia).
  rewrite (proj2 (Z.ltb_lt _ _)) by (cbn; lia). cbn [negb]. unfold put_str. cbn [buf app format_loop].
  by rewrite (proj2 (Z.ltb_ge _ _)) by lia.
Qed.

Lemma snprintf_overruns_witness :
  let dir := repeat 97 4000 in let file := repeat 98 255 in
  snprintf_event MAX_STRLEN MAX_STRLEN (Fields (Some dir) (Some file) IN_MODIFY None) (bs "%w%f") = Err EUndef.
Proof.
  exact (snprintf_overruns MAX_STRLEN MAX_STRLEN (repeat 97 4000) (repeat 98 255) IN_MODIFY None
    ltac:(done) ltac:(by vm_compute) ltac:(by vm_compute)).
Defined.

(** ** Events in order *)

(** An event as the kernel writes it. *)
Definition encode (e : ievent) : list Z :=
  le32 (u32 (ev_wd e)) ++ le32 (ev_mask e) ++ le32 (ev_cookie e) ++ le32 (event_len e) ++ ev_name e.

Definition encodes (es : list ievent) : list Z := concat (map encode es).

Record event_ok (e : ievent) : Prop := EventOk {
  eo_wd : s32 (u32 (ev_wd e)) = ev_wd e;
  eo_mask : is_u32 (ev_mask e);
  eo_cookie : is_u32 (ev_cookie e);
  eo_len : is_u32 (event_len e);
}.

(** The bytes [l] are in memory from [off] on. *)
Definition stored (m : gmap Z Z) (off : Z) (l : list Z) : Prop :=
  forall i x, l !! i = Some x -> m !! (off + Z.of_nat i) = Some x.

Lemma poke_other l : forall m off q, q < off -> poke m off l !! q = m !! q.
Proof.
  induction l as [|b l IH]; intros m off q Hq; cbn [poke]; [done|]. rewrite IH by lia. apply lookup_insert_ne. lia.
Qed.

Lemma poke_stored l : forall m off, stored (poke m off l) off l.
Proof.
  induction l as [|b l IH]; intros m off i x Hi; [done|]. cbn [poke]. destruct i as [|i]; cbn in Hi.
  - injection Hi as <-. rewrite Z.add_0_r, poke_other by lia. apply lookup_insert_eq.
  - rewrite Nat2Z.inj_succ. replace (off + Z.succ (Z.of_nat i)) with (off + 1 + Z.of_nat i) by lia. by apply IH.
Qed.

Lemma stored_app m off l1 l2 : stored m off (l1 ++ l2) -> stored m off l1 /\ stored m (off + Z.of_nat (length l1)) l2.
Proof.
  intros H. split; intros i x Hi.
  - apply H. by apply lookup_app_l_Some.
  - replace (off + Z.of_nat (length l1) + Z.of_nat i) with (off + Z.of_nat (length l1 + i)) by lia. apply H.
    rewrite lookup_app_r by lia. by replace (length l1 + i - length l1)%nat with i by lia.
Qed.

Lemma stored_peek m l : forall off, stored m off l -> peek m off (length l) = l.
Proof.
  intros off H. unfold peek. apply list_eq. intros i. change (map ?f ?l) with (f <$> l). rewrite list_lookup_fmap.
  destruct (decide (i < length l)%nat) as [Hi|Hi].
  - rewrite lookup_seq_lt by done. destruct (lookup_lt_is_Some_2 l i Hi) as [x Hx]. cbn. by rewrite (H i x Hx).
  - rewrite lookup_seq_ge, lookup_ge_None_2 by lia. done.
Qed.

Lemma event_at_stored m off e : event_ok e -> stored m off (encode e) -> event_at m off = e.
Proof.
  intros [Hw Hm Hc Hl] H. unfold encode in H. unfold event_at.
  apply stored_app in H as [H1 H]. apply stored_app in H as [H2 H]. apply stored_app in H as [H3 H]. apply stored_app in H as [H4 H5].
  rewrite !le32_length in *. apply stored_peek in H1, H2, H3, H4, H5. rewrite le32_length in H1, H2, H3, H4.
  change (Z.of_nat 4) with 4 in *. replace (off + 4 * 0) with off by lia. replace (off + 4 * 1) with (off + 4) by lia.
  replace (off + 4 * 2) with (off + 4 + 4) by lia. replace (off + 4 * 3) with (off + 4 + 4 + 4) by lia.
  unfold HEADER. replace (off + 16) with (off + 4 + 4 + 4 + 4) by lia. rewrite H1, H2, H3, H4.
  rewrite !of_le_le32 by (done || apply u32_range). unfold event_len. rewrite Nat2Z.id, H5, Hw. by destruct e.
Qed.

Lemma encode_length e : Z.of_nat (length (encode e)) = HEADER + event_len e.
Proof. unfold encode, HEADER, event_len. rewrite !length_app, !le32_length. lia. Qed.

(** The buffer holds the events [es] that have not been returned. *)
Definition holding (b : evbuf) (es : list ievent) : Prop :=
  match es with
  | [] => eb_first b = 0
  | _ => 0 < eb_first b /\ eb_bytes b = eb_first b + Z.of_nat (length (encodes es)) /\ stored (eb_mem b) (eb_first b) (encodes es)
  end.

(** After the event at [off]. *)
Lemma holding_after m off bytes e es :
  event_ok e -> 0 <= off -> stored m off (encodes (e :: es)) -> bytes = off + Z.of_nat (length (encodes (e :: es))) ->
  let first := off + HEADER + event_len e in
  event_at m off = e /\ first <= bytes /\ holding (Evbuf m bytes (if first =? bytes then 0 else first)) es.
Proof.
  intros He Ho Hs Hb first. change (encodes (e :: es)) with (encode e ++ encodes es) in *.
  rewrite length_app, Nat2Z.inj_add, encode_length in Hb. apply stored_app in Hs as [H1 H2]. rewrite encode_length in H2.
  split; [by apply event_at_stored|]. unfold event_len, HEADER in *. split; [lia|]. unfold holding. destruct es as [|e' es].
  - by rewrite (proj2 (Z.eqb_eq _ _)) by (cbn in Hb; lia).
  - assert (0 < Z.of_nat (length (encodes (e' :: es)))).
    { change (encodes (e' :: es)) with (encode e' ++ encodes es). rewrite length_app, Nat2Z.inj_add, encode_length.
      unfold HEADER, event_len. lia. }
    rewrite (proj2 (Z.eqb_neq _ _)) by lia. cbn [eb_first eb_bytes eb_mem]. split_and!; [lia|lia|].
    replace first with (off + (16 + Z.of_nat (length (ev_name e)))) by lia. done.
Qed.

(** What the kernel returns from a [read]: whole events. *)
Record batch_ok (es : list ievent) : Prop := BatchOk {
  bo_some : es <> [];
  bo_events : Forall event_ok es;
  bo_fits : Z.of_nat (length (encodes es)) <= BUFSIZE;
}.

Definition answers (batches : list (list ievent)) : list reading := map (fun es => ReadBytes (encodes es)) batches.

(** How waits for events end: with events, or with a failure or a timeout. *)
Inductive wait := Events (es : list ievent) | NoEvents (r : reading).

Definition wait_ok (w : wait) : Prop :=
  match w with
  | Events es => batch_ok es
  | NoEvents r => match r with ReadBytes _ => False | _ => True end
  end.

Definition answer_of (w : wait) : reading := match w with Events es => ReadBytes (encodes es) | NoEvents r => r end.

(** What a wait gives to the caller, before the pattern: its events, or one NULL. *)
Definition items (w : wait) : list (option ievent) := match w with Events es => map Some es | NoEvents _ => [None] end.

(** [xs] are yet to come, from the buffer or from the kernel. *)
Definition pending (more : list reading) (b : evbuf) (rs : list reading) (xs : list (option ievent)) : Prop :=
  exists held ws, holding b held /\ Forall event_ok held /\ Forall wait_ok ws /\
    rs = map answer_of ws ++ more /\ xs = map Some held ++ concat (map items ws).

Lemma batches_pending more batches :
  Forall batch_ok batches -> pending more (Evbuf ∅ 0 0) (answers batches ++ more) (map Some (concat batches)).
Proof.
  intros Hb. exists [], (map Events batches). split_and!; [done|constructor| | |].
  - by apply Forall_map.
  - unfold answers. by rewrite map_map.
  - induction Hb as [|es batches _ _ IH]; [done|]. cbn. by rewrite map_app, IH.
Qed.

Lemma raw_pending more b rs e xs :
  pending more b rs (Some e :: xs) ->
  exists b' rs', next_event_raw b rs = Ok (inr (Some e), (b', rs')) /\ pending more b' rs' xs.
Proof.
  intros (held & ws & Hb & Hh & Hws & -> & E). unfold next_event_raw, buffered_event. destruct held as [|e' held]; cbn in Hb.
  - rewrite Hb. cbn [negb andb Z.eqb]. destruct Hws as [|w ws Hw Hws]; [done|]. destruct w as [es'|]; [|done].
    destruct Hw as [Hne Hev Hfit]. destruct es' as [|e' es']; [done|].
    injection E as <- ->. inversion Hev as [|? ? He Hev']; subst.
    cbn [answer_of map app fetch_event eb_bytes eb_mem]. rewrite Z.mul_0_r, !Z.add_0_l, (proj2 (Z.ltb_ge _ _)) by lia.
    destruct (holding_after (poke (eb_mem b) 0 (encodes (e :: es'))) 0 _ e es' He ltac:(done) (poke_stored _ _ _) eq_refl) as (Ea & _ & Hhold).
    rewrite Ea. eexists _, _. split; [done|]. exists es', ws. by split_and!.
  - destruct Hb as (H0 & Hlen & Hst). inversion Hh as [|? ? He Hh']; subst. injection E as <- ->.
    destruct (holding_after (eb_mem b) (eb_first b) _ e held He ltac:(lia) Hst Hlen) as (Ea & Hle & Hhold). rewrite Ea. cbv zeta in *.
    rewrite (proj2 (Z.eqb_neq (eb_first b) 0)), (proj2 (Z.leb_le (eb_first b) _)) by (unfold event_len in *; lia). cbn [negb andb].
    destruct (Z.eqb_spec (eb_first b + HEADER + event_len e) (eb_bytes b)) as [Heq|Hne].
    + eexists _, _. split; [done|]. exists held, ws. by split_and!.
    + rewrite (proj2 (Z.ltb_ge _ _)) by lia. eexists _, _. split; [done|]. exists held, ws. by split_and!.
Qed.

Lemma raw_nothing more b rs xs :
  pending more b rs (None :: xs) ->
  exists b' rs' x, next_event_raw b rs = Ok (x, (b', rs')) /\ (x = inr None \/ exists e, x = inl e) /\ pending more b' rs' xs.
Proof.
  intros (held & ws & Hb & Hh & Hws & -> & E). unfold next_event_raw, buffered_event. destruct held as [|e' held]; [|done]. cbn in Hb.
  rewrite Hb. cbn [negb andb Z.eqb]. destruct Hws as [|w ws Hw Hws]; [done|]. destruct w as [es'|r].
  { destruct Hw as [Hne _ _]. by destruct es'. }
  injection E as ->. assert (pending more (Evbuf (eb_mem b) 0 0) (map answer_of ws ++ more) (concat (map items ws))) as Hp
    by (exists [], ws; by split_and!).
  destruct r; [..|done]; eexists _, _, _; (split; [done|]); (split; [by eauto|exact Hp]).
Qed.

(** The path of an event, and whether the caller's pattern matches it. *)
Definition event_name (e : ievent) : option (list Z) := match ev_name e with [] => None | l => Some (cstr l) end.
Definition path_of (W : gmap Z (list Z)) (e : ievent) : list Z := default [] (W !! ev_wd e) ++ default [] (event_name e).
Definition skipped (W : gmap Z (list Z)) (ignored : option (list Z -> bool)) (e : ievent) : bool :=
  match ignored with Some matches => matches (path_of W e) | None => false end.

Lemma cstr_nonzero l : Forall (fun c => c <> 0) (cstr l).
Proof. induction l as [|c l IH]; cbn; [constructor|]. destruct (Z.eqb_spec c 0); constructor; done. Qed.

(** Names hold no NUL, and paths fit into the buffer they are matched in. *)
Definition paths_fit (W : gmap Z (list Z)) (xs : list (option ievent)) : Prop :=
  map_Forall (fun _ name => Forall (fun c => c <> 0) name) W /\
  Forall (fun x => forall e, x = Some e -> Z.of_nat (length (path_of W e)) < MAX_STRLEN) xs.

Lemma match_name_run s W t1 t2 e :
  holds s W t1 t2 -> map_Forall (fun _ name => Forall (fun c => c <> 0) name) W -> Z.of_nat (length (path_of W e)) < MAX_STRLEN ->
  exists r, inotifytools_snprintf MAX_STRLEN MAX_STRLEN e None (bs "%w%f") s = Ok ((r, Some (path_of W e)), s).
Proof.
  intros H HW Hl. unfold inotifytools_snprintf. run (filename_from_wd_run _ _ _ _ (ev_wd e) H). fold (event_name e).
  rewrite (snprintf_text _ _ _ _ (path_of W e)); [by eexists|done|done|done|done| | |done].
  - change (bs "%w%f") with [37; 119; 37; 102]. cbn. by rewrite app_nil_r.
  - apply Forall_app. split; [|unfold event_name; destruct (ev_name e); [constructor|apply cstr_nonzero]].
    destruct (W !! ev_wd e) as [name|] eqn:E; [by apply (HW _ _ E)|constructor].
Qed.

Section Order.

Context (W : gmap Z (list Z)) (ignored : option (list Z -> bool)) (more : list reading).

(** Whether the call returns to its caller with [x]. *)
Definition returned (x : option ievent) : bool :=
  match x with Some e => negb (skipped W ignored e) | None => true end.

(** One call: events that the pattern matches are passed over. *)
Lemma next_event_run fuel : forall s t1 t2 b rs pre x xs,
  holds s W t1 t2 -> ignored = None \/ paths_fit W (pre ++ [x]) -> Forall (fun x => returned x = false) pre ->
  returned x = true -> (length pre < fuel)%nat -> pending more b rs (pre ++ x :: xs) ->
  exists b' rs' n, inotifytools_next_event fuel ignored b rs s = Ok ((x, (b', rs')), set_error n s) /\
    (is_Some x -> n = 0) /\ pending more b' rs' xs.
Proof.
  induction fuel as [|fuel IH]; intros s t1 t2 b rs pre x xs H Hfit Hpre He Hf Hp; [lia|]. cbn [inotifytools_next_event].
  set (s1 := set_error 0 s). rewrite (bind_ok (modify _) _ s tt s1) by done. pose proof (holds_error 0 _ _ _ _ H) as H1. fold s1 in H1.
  assert (forall e, Some e ∈ pre ++ [x] ->
    match ignored with
    | None => ret false
    | Some matches =>
        r <- inotifytools_snprintf MAX_STRLEN MAX_STRLEN e None (bs "%w%f") ;;
        ret (match snd r with Some text => matches text | None => false end)
    end s1 = Ok (skipped W ignored e, s1)) as K.
  { intros e Hx. unfold skipped. destruct Hfit as [->|[HW Hfit]]; [done|]. destruct ignored as [matches|]; [|done].
    destruct (match_name_run s1 W t1 t2 e H1 HW) as [r Hr]; [by eapply (proj1 (list.Forall_forall _ _) Hfit)|by run Hr]. }
  destruct pre as [|y pre]; cbn [app] in *.
  - destruct x as [e|].
    + destruct (raw_pending _ _ _ _ _ Hp) as (b' & rs' & -> & Hp'). run (K _ (list_elem_of_here _ _)).
      cbn [returned] in He. apply negb_true_iff in He. rewrite He. rewrite (bind_ok get _ s1 s1 s1) by done.
      change (i_collect s1) with (i_collect s). rewrite (ho_counters _ _ _ _ H). by exists b', rs', 0.
    + destruct (raw_nothing _ _ _ _ Hp) as (b' & rs' & r & -> & [->|[n ->]] & Hp'); [exists b', rs', 0|exists b', rs', n];
        (split; [done|]); (split; [by intros []|done]).
  - apply list.Forall_cons_1 in Hpre as [Hsk Hpre]. destruct y as [e|]; [|done]. cbn [returned] in Hsk. apply negb_false_iff in Hsk.
    destruct (raw_pending _ _ _ _ _ Hp) as (b' & rs' & -> & Hp'). run (K _ (list_elem_of_here _ _)).
    rewrite Hsk. cbn [length fst snd] in *.
    destruct (IH s1 t1 t2 b' rs' pre x xs) as (b1 & rs1 & n & U & Hn & Hp1); [done| |done|done|lia|done|].
    { destruct Hfit as [|[HW Hfit]]; [by left|right]. split; [done|]. by apply list.Forall_cons_1 in Hfit as [_ ?]. }
    exists b1, rs1, n. rewrite U. done.
Qed.

(** [n] calls. *)
Fixpoint next_n (fuel n : nat) (b : evbuf) (rs : list reading) : ino_m (list (option ievent)) :=
  match n with
  | O => ret []
  | S n =>
      x <- inotifytools_next_event fuel ignored b rs ;;
      l <- next_n fuel n (fst (snd x)) (snd (snd x)) ;;
      ret (fst x :: l)
  end.

Definition kept (xs : list (option ievent)) : list (option ievent) := List.filter returned xs.

Lemma kept_cons xs x l :
  kept xs = x :: l -> exists pre xs', xs = pre ++ x :: xs' /\ Forall (fun x => returned x = false) pre /\
    returned x = true /\ kept xs' = l.
Proof.
  induction xs as [|y xs IH]; cbn; [done|]. destruct (returned y) eqn:Ey; cbn.
  - intros [= <- <-]. exists [], xs. by split_and!.
  - intros (pre & xs' & -> & Hpre & He & Hl)%IH. exists (y :: pre), xs'. split_and!; [done|by constructor|done|done].
Qed.

Lemma next_n_run l : forall s t1 t2 b rs xs fuel,
  holds s W t1 t2 -> ignored = None \/ paths_fit W xs -> (length xs < fuel)%nat -> pending more b rs xs -> kept xs = l ->
  exists s', next_n fuel (length l) b rs s = Ok (l, s') /\ holds s' W t1 t2.
Proof.
  induction l as [|x l IH]; intros s t1 t2 b rs xs fuel H Hfit Hf Hp Hk; cbn [next_n length]; [by exists s|].
  destruct (kept_cons _ _ _ Hk) as (pre & xs' & -> & Hpre & He & Hl). rewrite length_app in Hf. cbn in Hf.
  assert ((ignored = None \/ paths_fit W (pre ++ [x])) /\ (ignored = None \/ paths_fit W xs')) as [F1 F2].
  { destruct Hfit as [->|[HW [A1 [A2 A3]%list.Forall_cons_1]%Forall_app]]; [by split; left|]. split; right; split; [done| |done|done].
    apply Forall_app. by repeat constructor. }
  destruct (next_event_run fuel s t1 t2 b rs pre x xs') as (b' & rs' & n & U & _ & Hp'); [done|done|done|done|lia|done|].
  run U. cbn [fst snd]. destruct (IH (set_error n s) t1 t2 b' rs' xs' fuel) as (s' & U' & H'); [by apply holds_error|done|lia|done|done|].
  run U'. by exists s'.
Qed.

End Order.

Definition no_events : evbuf := Evbuf ∅ 0 0.

(** C16: with watches on the table, successive calls of [inotifytools_next_event]
    return the events of the kernel one by one and in their order, however many
    of them a single [read] returns, without exactly those whose path the pattern
    given to [inotifytools_ignore_events_by_regex] matches; for each wait that times out or
    fails, of [select], [ioctl] or [read], one call returns NULL, at that place in the order,
    and no event is lost by it.  It is assumed that
    - a [read] that succeeds returns at least one event, all of them whole, in at most the
      size of the buffer ([batch_ok]);
    - statistics are not collected, as [inotifytools_initialize] leaves it (in [holds]);
    - when there is a pattern, the paths of events are shorter than 4096 bytes and the names
      of the watches hold no NUL ([paths_fit]);
    - the fuel is more than the number of events and failures: each event passed over takes
      one turn. *)
Theorem events_in_order s W t1 t2 ignored ws more fuel :
  let xs := concat (map items ws) in
  holds s W t1 t2 -> Forall wait_ok ws -> ignored = None \/ paths_fit W xs ->
  (length xs < fuel)%nat ->
  exists s', next_n ignored fuel (length (kept W ignored xs)) no_events (map answer_of ws ++ more) s =
    Ok (kept W ignored xs, s') /\ holds s' W t1 t2.
Proof.
  intros xs H Hb Hfit Hf. eapply next_n_run; [done|exact Hfit|done| |done]. exists [], ws. by split_and!.
Qed.

Definition demo_waits : list wait :=
  [Events [Ievent 1 IN_CREATE 0 (bs "a.txt" ++ [0; 0; 0]); Ievent 1 IN_MODIFY 0 (bs "a.tmp" ++ [0; 0; 0])]; NoEvents TimedOut;
   Events [Ievent 1 IN_MODIFY 0 (bs "a.txt" ++ [0; 0; 0]); Ievent 1 IN_DELETE_SELF 0 []]].

(** The pattern [tmp$]. *)
Definition demo_pattern : option (list Z -> bool) := Some (fun path => prefixb (rev (bs "tmp")) (rev path)).

Lemma events_in_order_witness :
  exists s s',
    (inotifytools_initialize (demo_kernel 1) ;; run_watch_ops [OpWatch (demo_kernel 1) (bs "/sync/1") IN_ALL_EVENTS]) (ino_start 4) = Ok ([inl 1], s) /\
    next_n demo_pattern 6 4 no_events (map answer_of demo_waits ++ [TimedOut]) s =
    Ok ([Some (Ievent 1 IN_CREATE 0 (bs "a.txt" ++ [0; 0; 0])); None; Some (Ievent 1 IN_MODIFY 0 (bs "a.txt" ++ [0; 0; 0]));
         Some (Ievent 1 IN_DELETE_SELF 0 [])], s').
Proof.
  destruct (initialize_table (demo_kernel 1) 2 ltac:(done)) as (s0 & U0 & T0).
  destruct (run_watch_ops_ok [OpWatch (demo_kernel 1) (bs "/sync/1") IN_ALL_EVENTS] s0 ∅ (T0 1%nat ltac:(lia)) ltac:(by vm_compute))
    as (s & U & t1 & t2 & H & _).
  pose proof (eq_trans (bind_ok _ (fun _ => run_watch_ops [OpWatch (demo_kernel 1) (bs "/sync/1") IN_ALL_EVENTS]) _ _ _ U0) U) as U1.
  destruct (events_in_order s _ t1 t2 demo_pattern demo_waits [TimedOut] 6 H) as (s' & U' & _).
  - repeat constructor; by vm_compute.
  - right. split; [apply map_Forall_insert_2; [by repeat constructor|apply map_Forall_empty]|].
    cbn [demo_waits map items concat app]. repeat apply Forall_cons_2; try apply Forall_nil_2; intros e [= <-]; by vm_compute.
  - cbn. lia.
  - exists s, s'. split; [exact U1|exact U'].
Defined.

(** ** Renaming a directory *)

Definition rename_demo : ino_m (list (option (list Z))) :=
  inotifytools_initialize (demo_kernel 1) ;;
  inotifytools_watch_file (demo_kernel 1) (bs "/a/1") 0 ;;
  inotifytools_watch_file (demo_kernel 2) (bs "/a/2") 0 ;;
  inotifytools_watch_file (demo_kernel 3) (bs "/a/3") 0 ;;
  inotifytools_replace_filename (bs "/a/") (bs "/b/") ;;
  x <- inotifytools_filename_from_wd 1 ;;
  y <- inotifytools_filename_from_wd 2 ;;
  z <- inotifytools_filename_from_wd 3 ;;
  ret [x; y; z].

(** [inotifytools_replace_filename] walks the tree of names while its action
    takes nodes out of that tree and puts them back elsewhere.  The rotations move
    nodes out of the way of the walk: of three watches below a renamed directory,
    the third keeps its old name. *)
Theorem rename_misses_watch :
  exists s, rename_demo (ino_start 8) = Ok ([Some (bs "/b/1/"); Some (bs "/b/2/"); Some (bs "/a/3/")], s).
Proof. eexists. vm_compute. reflexivity. Qed.
