(* ===== verification/Watcher.v ===== *)
(** * The watcher thread (adb/watcher.c)

    [adb link] mirrors a directory of the host to the device: after the first
    synchronisation this thread watches the directory tree and, for every event,
    creates or removes the file or directory on the device.  The connections to
    the adb server are an interface; the kernel is a parameter of every turn of
    the loop, since files change between events. *)

From S2P Require Import Prelude RedBlack Inotify.

(** ** The connection to the device *)

Class Device (D : Type) := {
  (** a descriptor, or negative *)
  adb_connect : list Z -> M D Z;
  (** up to 4096 bytes, which nobody looks at *)
  adb_read : Z -> M D unit;
  adb_close : Z -> M D unit;
  (** [do_sync_push(lpath, rpath, verifyApk)] *)
  do_sync_push : list Z -> list Z -> bool -> M D Z;
}.

(** What a turn of the loop meets: the kernel, the time as text, and a bound on
    the depth of directories. *)
Record tick := Tick { tk_kernel : kernel; tk_time : list Z; tk_depth : nat }.

Definition RPATH : list Z := bs "/mnt/sdcard/Sync/".

Definition watched_events : Z :=
  Z.lor IN_CREATE (Z.lor IN_MOVED_TO (Z.lor IN_MOVED_FROM (Z.lor IN_DELETE IN_MODIFY))).

Section Watcher.

Context {D : Type} `{!Device D}.

Definition on_ino {A} (m : ino_m A) : M (ino * D) A :=
  fun s => match m (fst s) with Ok (a, i) => Ok (a, (i, snd s)) | Err e => Err e end.

Definition on_dev {A} (m : M D A) : M (ino * D) A :=
  fun s => match m (snd s) with Ok (a, d) => Ok (a, (fst s, d)) | Err e => Err e end.

(** The buffer has [strlen(dir) + strlen(RPATH)] bytes. *)
Definition fdir (dir : list Z) (len : nat) : M (ino * D) (list Z) :=
  if (length dir <? len)%nat then fail EUndef
  else
    let mydir := RPATH ++ drop len dir in
    if (length dir + length RPATH <? S (length mydir))%nat then fail EUndef else ret mydir.

(** [inotifytools_filename_from_wd(event->wd)], which must not be null for
    [printf] and [strlen], and [event->name]. *)
Definition watch_dir (ev : ievent) : M (ino * D) (list Z) :=
  dir <- on_ino (inotifytools_filename_from_wd (ev_wd ev)) ;; deref dir.
Definition name_in (ev : ievent) : M (ino * D) (list Z) :=
  match ev_name ev with [] => fail EUndef | l => ret (cstr l) end.

Definition local_path (ev : ievent) : M (ino * D) (list Z) := dir <- watch_dir ev ;; name <- name_in ev ;; ret (dir ++ name).
Definition remote_dir (ev : ievent) (plen : nat) : M (ino * D) (list Z) := dir <- watch_dir ev ;; fdir dir plen.

(** A shell command with a quoted path; [false] when the thread returns. *)
Definition shell (command : list Z) (ev : ievent) (plen : nat) : M (ino * D) bool :=
  dir <- remote_dir ev plen ;;
  name <- name_in ev ;;
  fd <- on_dev (adb_connect (snprintf (Z.to_nat 4096) (bs "shell:" ++ command ++ [32; 34] ++ dir ++ name ++ [34]))) ;;
  on_dev (adb_read fd) ;;
  if fd <? 0 then ret false else on_dev (adb_close fd) ;; ret true.

(** A new file or directory at [path]. *)
Definition send_new (k : kernel) (path : list Z) (ev : ievent) (plen : nat) : M (ino * D) bool :=
  if isdir k path then shell (bs "mkdir") ev plen
  else
    dir <- remote_dir ev plen ;;
    on_dev (do_sync_push path dir false) ;;
    ret true.

(** The body of the loop after [inotifytools_printf]: the new value of
    [moved_from], or [None] when the thread returns -1. *)
Definition watch_event (tk : tick) (plen : nat) (moved_from : option (list Z)) (ev : ievent) :
    M (ino * D) (option (option (list Z))) :=
  let k := tk_kernel tk in
  let mask := ev_mask ev in
  if has mask IN_CREATE || (bool_decide (moved_from = None) && has mask IN_MOVED_TO) then
    new_file <- local_path ev ;;
    ok <- send_new k new_file ev plen ;;
    if negb ok then ret None
    else
      when (isdir k new_file) (on_ino (inotifytools_watch_recursively k (tk_depth tk) new_file watched_events) ;; ret tt) ;;
      ret (Some moved_from)
  else if has mask IN_MOVED_FROM then
    old <- local_path ev ;;
    let moved_from := old ++ [47] in
    ok <- shell (bs "rm -r") ev plen ;;
    if negb ok then ret None
    else
      wd <- on_ino (inotifytools_wd_from_filename moved_from) ;;
      ret (Some (if wd =? -1 then None else Some moved_from))
  else if has mask IN_MOVED_TO then
    new <- local_path ev ;;
    let new_name := new ++ [47] in
    ok <- send_new k new_name ev plen ;;
    if negb ok then ret None
    else
      match moved_from with
      | Some old => on_ino (inotifytools_replace_filename old new_name) ;; ret (Some None)
      | None => ret (Some None)
      end
  else if has mask IN_MODIFY then
    new_name <- local_path ev ;;
    dir <- remote_dir ev plen ;;
    on_dev (do_sync_push new_name dir false) ;;
    ret (Some moved_from)
  else if has mask IN_DELETE then
    ok <- shell (bs "rm -r") ev plen ;;
    ret (if (ok : bool) then Some moved_from else None)
  else ret (Some moved_from).

(** The loop: a tick for every event.  The function ends without a value when
    there are no more events. *)
Fixpoint watcher_loop (plen : nat) (tks : list tick) (moved_from : option (list Z)) (b : evbuf) (rs : list reading) :
    M (ino * D) (option Z) :=
  e <- on_ino (inotifytools_next_event 1 None b rs) ;;
  match fst e, tks with
  | None, _ => ret None
  | Some ev, [] => fail EFuel
  | Some ev, tk :: tks =>
      on_ino (inotifytools_fprintf ev (Some (Some (tk_time tk))) (bs "%T %w%f %e" ++ [10])) ;;
      r <- watch_event tk plen moved_from ev ;;
      match r with
      | None => ret (Some (-1))
      | Some moved_from => watcher_loop plen tks moved_from (fst (snd e)) (snd (snd e))
      end
  end.

Definition watcher (start : tick) (path : list Z) (tks : list tick) (b : evbuf) (rs : list reading) : M (ino * D) (option Z) :=
  let k := tk_kernel start in
  ok <- on_ino (inotifytools_initialize k) ;;
  if ok =? 0 then ret (Some (-1))
  else
    ok <- on_ino (inotifytools_watch_recursively k (tk_depth start) path watched_events) ;;
    if ok =? 0 then ret (Some (-1)) else watcher_loop (length path) tks None b rs.

End Watcher.
