(* ===== verification/WatcherFacts.v ===== *)
(** * The watcher thread: what reaches the device

    Watching a directory puts every directory below it on the table of watches.
    The events the kernel then reports become, in their order, the commands that
    the device gets. *)

From S2P Require Import Prelude RedBlack RedBlackShape Inotify WatchTable InotifyFacts Watcher.

(** ** Watching a directory tree *)

(** The entries of a directory as [readdir] returns them. *)
#[warnings="-register-all"]
Inductive dtree := Plain | Dir (ents : list (list Z * dtree)).

Definition slash (path : list Z) : list Z := if bool_decide (list.last path = Some 47) then path else path ++ [47].

(** The directories below a path, in the order they are watched. *)
Fixpoint dirs (path : list Z) (t : dtree) : list (list Z) :=
  match t with
  | Plain => []
  | Dir ents =>
      concat (map (fun '(name, t') => if is_dot_or_dotdot name then [] else dirs (slash path ++ name ++ [47]) t') ents) ++ [slash path]
  end.

Fixpoint depth (t : dtree) : nat :=
  match t with
  | Plain => 0
  | Dir ents => S (fold_right (fun e n => Nat.max (depth (snd e)) n) 0%nat ents)
  end.

(** The kernel shows this tree: [opendir], [readdir] and [lstat]. *)
Fixpoint shows (k : kernel) (path : list Z) (t : dtree) : Prop :=
  match t with
  | Plain => True
  | Dir ents =>
      k_dir k path = inr (map fst ents) /\
      fold_right (fun e P =>
        (is_dot_or_dotdot (fst e) = true \/
         exists mode, k_lstat k (slash path ++ fst e) = inr mode /\
           (k_isdir mode && negb (Z.land mode 0xf000 =? 0xa000)) = (match snd e with Plain => false | Dir _ => true end) /\
           shows k (slash path ++ fst e ++ [47]) (snd e)) /\ P) True ents
  end.

(** The map with new descriptors for a list of directories. *)
Definition wd_of_path (k : kernel) (p : list Z) : Z := fst (k_add k p watched_events).
Definition add_dirs (k : kernel) (ps : list (list Z)) (W : gmap Z (list Z)) : gmap Z (list Z) :=
  fold_left (fun W p => <[wd_of_path k p := p]> W) ps W.

(** Every directory gets a descriptor of its own, and is not watched yet. *)
Definition fresh_dirs (k : kernel) (ps : list (list Z)) (W : gmap Z (list Z)) : Prop :=
  NoDup ps /\ NoDup (map (wd_of_path k) ps) /\
  Forall (fun p => 0 < wd_of_path k p /\ W !! wd_of_path k p = None /\ (forall wd, W !! wd <> Some p)) ps.

Lemma add_dirs_app k ps qs W : add_dirs k (ps ++ qs) W = add_dirs k qs (add_dirs k ps W).
Proof. apply fold_left_app. Qed.

Lemma add_dirs_lookup k ps : forall W wd name,
  add_dirs k ps W !! wd = Some name -> W !! wd = Some name \/ (name ∈ ps /\ wd = wd_of_path k name).
Proof.
  induction ps as [|p ps IH]; intros W wd name; cbn; [auto|]. intros [H|[H ->]]%IH.
  - apply lookup_insert_Some in H as [[<- <-]|[_ H]]; [|auto]. right. split; [set_solver|done].
  - right. split; [set_solver|done].
Qed.

Lemma fresh_dirs_app k ps qs W : fresh_dirs k (ps ++ qs) W -> fresh_dirs k ps W /\ fresh_dirs k qs (add_dirs k ps W).
Proof.
  intros (H1 & H2 & H3). rewrite map_app in H2. apply list.NoDup_app in H1 as (A1 & A2 & A3), H2 as (B1 & B2 & B3).
  apply Forall_app in H3 as [C1 C2]. split; [done|]. split_and!; [done..|]. rewrite list.Forall_forall in *. intros q Hq.
  destruct (C2 q Hq) as (Q1 & Q2 & Q3). split_and!; [done| |].
  - destruct (add_dirs k ps W !! wd_of_path k q) as [name|] eqn:E; [|done]. exfalso.
    apply add_dirs_lookup in E as [E|[Hp E]]; [congruence|]. apply (B2 (wd_of_path k q)); [rewrite E|]; by apply list_elem_of_fmap_2.
  - intros wd [E|[Hp _]]%add_dirs_lookup; [by apply (Q3 wd)|by apply (A2 q)].
Qed.

Lemma slash_last p : list.last (slash p) = Some 47.
Proof. unfold slash. case_bool_decide; [done|]. apply last_snoc. Qed.

Lemma slash_idem p : list.last p = Some 47 -> slash p = p.
Proof. intros H. unfold slash. by rewrite bool_decide_true. Qed.

Lemma name_for_slashed k p : list.last p = Some 47 -> name_for k p = p.
Proof. intros H. unfold name_for. rewrite bool_decide_false by (intros Hn; by apply Hn). by rewrite andb_false_r. Qed.

(** Watching one directory. *)
Lemma watch_dir_table k s W n p :
  table s W (S n) -> list.last p = Some 47 -> fresh_dirs k [p] W ->
  exists s', inotifytools_watch_file k p watched_events s = Ok (1, s') /\ table s' (add_dirs k [p] W) n.
Proof.
  intros H Hl (_ & _ & [(Hpos & HW & Hn) _]%list.Forall_cons_1).
  destruct (watch_file_table k s W n p watched_events H) as (s' & U & H').
  { cbn [new_watch]. rewrite name_for_slashed by done. apply orb_true_iff. right.
    rewrite andb_true_iff, orb_true_iff, andb_true_iff, !bool_decide_eq_true.
    split; [by intros ->|]. right. split; [done|].
    destruct (wd_for W p) as [wd|] eqn:E; [|done]. apply wd_for_some in E. by apply Hn in E. }
  cbn [run_watch_op spec_watch_op] in U, H'. rewrite name_for_slashed in H' by done. unfold wd_of_path in *.
  rewrite (proj2 (Z.ltb_ge _ _)), (proj2 (Z.eqb_neq _ _)) in U, H' by lia. cbn [fst snd] in *.
  apply bind_inv_ok in U as (x & s1 & U & Hx). injection Hx as -> ->. by exists s'.
Qed.

Definition entry_dirs (my_path : list Z) (ents : list (list Z * dtree)) : list (list Z) :=
  concat (map (fun '(name, t') => if is_dot_or_dotdot name then [] else dirs (my_path ++ name ++ [47]) t') ents).

Lemma slash_entry my_path name : slash (my_path ++ name ++ [47]) = my_path ++ name ++ [47].
Proof. apply slash_idem. by rewrite app_assoc, last_snoc. Qed.

(** The loop over the entries, when the recursive call is right. *)
Lemma watch_entries_table k rec my_path ents : 
  (forall s W n name es, (name, Dir es) ∈ ents -> shows k (my_path ++ name ++ [47]) (Dir es) ->
     fresh_dirs k (dirs (my_path ++ name ++ [47]) (Dir es)) W ->
     table s W (length (dirs (my_path ++ name ++ [47]) (Dir es)) + n) ->
     exists s', rec (my_path ++ name ++ [47]) s = Ok (1, s') /\ table s' (add_dirs k (dirs (my_path ++ name ++ [47]) (Dir es)) W) n) ->
  forall s W n,
  fold_right (fun e P =>
    (is_dot_or_dotdot (fst e) = true \/
     exists mode, k_lstat k (my_path ++ fst e) = inr mode /\
       (k_isdir mode && negb (Z.land mode 0xf000 =? 0xa000)) = (match snd e with Plain => false | Dir _ => true end) /\
       shows k (my_path ++ fst e ++ [47]) (snd e)) /\ P) True ents ->
  fresh_dirs k (entry_dirs my_path ents) W -> table s W (length (entry_dirs my_path ents) + n) ->
  exists s', watch_entries k rec [] my_path (map fst ents) s = Ok (true, s') /\ table s' (add_dirs k (entry_dirs my_path ents) W) n.
Proof.
  induction ents as [|[name t] ents IH]; intros Hrec s W n Hsh Hf Ht; [by exists s|].
  cbn [fold_right fst snd map watch_entries] in *. destruct Hsh as [He Hsh].
  assert (forall W, fresh_dirs k (entry_dirs my_path ents) W -> forall s, table s W (length (entry_dirs my_path ents) + n) ->
    exists s', (modify (set_error 0) ;; watch_entries k rec [] my_path (map fst ents)) s = Ok (true, s') /\
      table s' (add_dirs k (entry_dirs my_path ents) W) n) as K.
  { intros W' Hf' s' Ht'. rewrite (bind_ok (modify _) _ s' tt (set_error 0 s')) by done. apply IH; [|done|done|by apply table_error].
    intros. eapply Hrec; [set_solver|done|done|done]. }
  change (entry_dirs my_path ((name, t) :: ents)) with
    ((if is_dot_or_dotdot name then [] else dirs (my_path ++ name ++ [47]) t) ++ entry_dirs my_path ents) in *.
  destruct (is_dot_or_dotdot name) eqn:Ed; [by apply K|]. destruct He as [|(mode & Hl & Hm & Hsub)]; [done|]. rewrite Hl, Hm.
  destruct t as [|es]; [by apply K|]. cbn [excluded existsb]. rewrite <- app_assoc. apply fresh_dirs_app in Hf as [F1 F2].
  rewrite length_app, <- Nat.add_assoc in Ht. destruct (Hrec s W (length (entry_dirs my_path ents) + n)%nat name es) as (s1 & U & T1); [set_solver|done|done|exact Ht|].
  run U. rewrite (bind_ok get _ s1 s1 s1) by done. cbn [Z.eqb andb]. rewrite add_dirs_app. by apply K.
Qed.

Lemma depth_entry name t ents : (name, t) ∈ ents -> (depth t < depth (Dir ents))%nat.
Proof.
  cbn. intros H. apply Nat.lt_succ_r. induction ents as [|[name' t'] ents IH]; [set_solver|]. cbn.
  apply elem_of_cons in H as [[= -> ->]|H%IH]; lia.
Qed.

Lemma watch_tree_table k fuel : forall es path s W n,
  (depth (Dir es) <= fuel)%nat -> path <> [] -> shows k path (Dir es) -> fresh_dirs k (dirs path (Dir es)) W ->
  table s W (length (dirs path (Dir es)) + n) ->
  exists s', inotifytools_watch_recursively k fuel path watched_events s = Ok (1, s') /\ table s' (add_dirs k (dirs path (Dir es)) W) n.
Proof.
  unfold inotifytools_watch_recursively. induction fuel as [|fuel IH]; intros es path s W n Hd Hp Hsh Hf Ht; [cbn in Hd; lia|].
  cbn [inotifytools_watch_recursively_with_exclude]. set (s1 := set_error 0 s). rewrite (bind_ok (modify _) _ s tt s1) by done.
  cbn [shows] in Hsh. destruct Hsh as [Hdir Hents]. rewrite Hdir.
  destruct (list.last path) as [c|] eqn:El; [|by apply last_None in El].
  unfold last_byte. rewrite (bind_ok _ _ s1 c s1) by (by rewrite El).
  assert ((if c =? 47 then path else path ++ [47]) = slash path) as ->.
  { unfold slash. rewrite El. destruct (Z.eqb_spec c 47) as [->|Hc]; [by rewrite bool_decide_true|].
    by rewrite bool_decide_false by congruence. }
  change (dirs path (Dir es)) with (entry_dirs (slash path) es ++ [slash path]) in *.
  apply fresh_dirs_app in Hf as [F1 F2]. rewrite length_app, <- Nat.add_assoc in Ht.
  destruct (watch_entries_table k (fun p => inotifytools_watch_recursively_with_exclude k fuel p watched_events []) (slash path) es)
    with (s := s1) (W := W) (n := (1 + n)%nat) as (s2 & U & T2); [|done|done|by apply table_error|].
  { intros s' W' n' name es' Hin Hsh' Hf' Ht'. apply IH; [|by destruct (slash path), name|done|done|done].
    pose proof (depth_entry name (Dir es') es Hin). lia. }
  run U. cbn [negb]. rewrite add_dirs_app. apply watch_dir_table; [done|apply slash_last|done].
Qed.

(** ** Commands for the device *)

Inductive action := Shell (service : list Z) | Push (lpath rpath : list Z).

(** One event, with the kernel of its time and, for a new directory, its tree. *)
Record turn := Turn { tn_event : ievent; tn_tick : tick; tn_tree : dtree }.

Definition remote (plen : nat) (dir : list Z) : list Z := RPATH ++ drop plen dir.
Definition service (plen : nat) (command dir name : list Z) : list Z :=
  snprintf (Z.to_nat 4096) (bs "shell:" ++ command ++ [32; 34] ++ remote plen dir ++ name ++ [34]).

Definition arrives (e : ievent) : bool := has (ev_mask e) IN_CREATE || has (ev_mask e) IN_MOVED_TO.
Definition new_path (dir : list Z) (e : ievent) : list Z := dir ++ cstr (ev_name e).

(** What an event asks for: new files and modified files are pushed into the
    directory that mirrors theirs, new directories are made, files and directories
    that are gone are removed. *)
Definition mirror (plen : nat) (W : gmap Z (list Z)) (tn : turn) : list action :=
  let e := tn_event tn in
  match W !! ev_wd e with
  | None => []
  | Some dir =>
      let name := cstr (ev_name e) in
      if arrives e then
        if isdir (tk_kernel (tn_tick tn)) (new_path dir e) then [Shell (service plen (bs "mkdir") dir name)]
        else [Push (new_path dir e) (remote plen dir)]
      else if has (ev_mask e) IN_MOVED_FROM then [Shell (service plen (bs "rm -r") dir name)]
      else if has (ev_mask e) IN_MODIFY then [Push (new_path dir e) (remote plen dir)]
      else if has (ev_mask e) IN_DELETE then [Shell (service plen (bs "rm -r") dir name)]
      else []
  end.

(** The directories an event brings. *)
Definition new_dirs (W : gmap Z (list Z)) (tn : turn) : list (list Z) :=
  match W !! ev_wd (tn_event tn) with
  | Some dir =>
      if arrives (tn_event tn) && isdir (tk_kernel (tn_tick tn)) (new_path dir (tn_event tn))
      then dirs (new_path dir (tn_event tn)) (tn_tree tn) else []
  | None => []
  end.
Definition after (W : gmap Z (list Z)) (tn : turn) : gmap Z (list Z) := add_dirs (tk_kernel (tn_tick tn)) (new_dirs W tn) W.

Fixpoint mirrors (plen : nat) (W : gmap Z (list Z)) (tns : list turn) : list action :=
  match tns with [] => [] | tn :: tns => mirror plen W tn ++ mirrors plen (after W tn) tns end.

Fixpoint all_new_dirs (W : gmap Z (list Z)) (tns : list turn) : nat :=
  match tns with [] => 0 | tn :: tns => length (new_dirs W tn) + all_new_dirs (after W tn) tns end.

(** The line printed for an event. *)
Definition line (W : gmap Z (list Z)) (tn : turn) : list Z :=
  tk_time (tn_tick tn) ++ [32] ++ path_of W (tn_event tn) ++ [32] ++ inotifytools_event_to_str (ev_mask (tn_event tn)) ++ [10].

(** Does the watcher act on the event?  The kernel also reports other events, as
    that a watch is gone or that events were lost. *)
Definition asks_for_action (e : ievent) : bool :=
  arrives e || has (ev_mask e) IN_MOVED_FROM || has (ev_mask e) IN_MODIFY || has (ev_mask e) IN_DELETE.

(** The line printed for the event fits.  If the watcher acts on it, it comes from a
    watched directory of the tree and names a file; a new directory has new
    descriptors; what moves away is not a watched directory. *)
Record turn_ok (plen : nat) (W : gmap Z (list Z)) (tn : turn) : Prop := TurnOk {
  to_line : Forall (fun c => c <> 0) (line W tn) /\ Z.of_nat (length (line W tn)) < MAX_STRLEN;
  to_named : asks_for_action (tn_event tn) = true -> ev_name (tn_event tn) <> [];
  to_dir : asks_for_action (tn_event tn) = true ->
    exists dir, W !! ev_wd (tn_event tn) = Some dir /\ (plen <= length dir)%nat /\
    (arrives (tn_event tn) = true -> isdir (tk_kernel (tn_tick tn)) (new_path dir (tn_event tn)) = true ->
       exists es, tn_tree tn = Dir es /\ shows (tk_kernel (tn_tick tn)) (new_path dir (tn_event tn)) (Dir es) /\
         (depth (Dir es) <= tk_depth (tn_tick tn))%nat /\ new_path dir (tn_event tn) <> [] /\
         fresh_dirs (tk_kernel (tn_tick tn)) (new_dirs W tn) W) /\
    (has (ev_mask (tn_event tn)) IN_MOVED_FROM = true -> forall wd, W !! wd <> Some (new_path dir (tn_event tn) ++ [47]));
}.

Fixpoint turns_ok (plen : nat) (W : gmap Z (list Z)) (tns : list turn) : Prop :=
  match tns with [] => True | tn :: tns => turn_ok plen W tn /\ turns_ok plen (after W tn) tns end.

Section Mirror.

Context {D : Type} `{!Device D}.

(** The commands, until a connection fails. *)
Fixpoint perform (l : list action) : M D bool :=
  match l with
  | [] => ret true
  | Shell srv :: l =>
      fd <- adb_connect srv ;;
      adb_read fd ;;
      if fd <? 0 then ret false else adb_close fd ;; perform l
  | Push lpath rpath :: l => do_sync_push lpath rpath false ;; perform l
  end.

(** A computation that acts on the device as [m] does. *)
Definition acts {A B} (r : result (A * (ino * D))) (m : result (B * D)) (Q : A -> ino -> B -> Prop) : Prop :=
  match m with
  | Err e => r = Err e
  | Ok (b, d) => exists a s, r = Ok (a, (s, d)) /\ Q a s b
  end.

Lemma on_ino_ok {A} (m : ino_m A) s (d : D) a s' : m s = Ok (a, s') -> on_ino m (s, d) = Ok (a, (s', d)).
Proof. intros H. unfold on_ino. cbn. by rewrite H. Qed.

Lemma acts_bind {A A' B} (f : M (ino * D) A) (k : A -> M (ino * D) A') s d (m : result (B * D)) Q Q' :
  acts (f (s, d)) m Q -> (forall a s' b d', Q a s' b -> acts (k a (s', d')) (Ok (b, d')) Q') -> acts ((x <- f ;; k x) (s, d)) m Q'.
Proof.
  unfold acts, bind. destruct m as [[b d']|e]; [|by intros ->]. intros (a & s' & -> & HQ) K. by apply (K a s' b d').
Qed.

Context (plen : nat) (Hplen : (0 < plen)%nat).

Lemma fdir_run dir (s : ino) (d : D) : (plen <= length dir)%nat -> fdir dir plen (s, d) = Ok (remote plen dir, (s, d)).
Proof using Hplen.
  intros Hd. unfold fdir. rewrite (proj2 (Nat.ltb_ge _ _)) by done.
  rewrite (proj2 (Nat.ltb_ge _ _)); [done|]. rewrite length_app, length_drop. lia.
Qed.

Section Turn.

Context (s : ino) (W : gmap Z (list Z)) (t1 t2 : tree) (H : holds s W t1 t2) (e : ievent) (dir : list Z).
Context (Hdir : W !! ev_wd e = Some dir) (Hlen : (plen <= length dir)%nat) (Hname : ev_name e <> []).

Lemma watch_dir_run (d : D) : watch_dir e (s, d) = Ok (dir, (s, d)).
Proof using H Hdir. unfold watch_dir. rewrite (bind_ok _ _ _ _ _ (on_ino_ok _ s d _ _ (filename_from_wd_run _ _ _ _ _ H))). by rewrite Hdir. Qed.

Lemma name_in_run (d : D) : name_in e (s, d) = Ok (cstr (ev_name e), (s, d)).
Proof using Hname. unfold name_in. by destruct (ev_name e). Qed.

Lemma local_path_run (d : D) : local_path e (s, d) = Ok (new_path dir e, (s, d)).
Proof using H Hdir Hname. unfold local_path. run (watch_dir_run d). by run (name_in_run d). Qed.

Lemma remote_dir_run (d : D) : remote_dir e plen (s, d) = Ok (remote plen dir, (s, d)).
Proof using H Hdir Hlen Hplen. unfold remote_dir. run (watch_dir_run d). by apply fdir_run. Qed.

Lemma shell_acts command (d : D) :
  acts (shell command e plen (s, d)) (perform [Shell (service plen command dir (cstr (ev_name e)))] d) (fun a s' b => a = b /\ s' = s).
Proof using H Hdir Hlen Hname Hplen.
  unfold shell. run (remote_dir_run d). run (name_in_run d). cbn [perform]. unfold service, bind, on_dev. cbn [snd fst].
  destruct (adb_connect _ d) as [[fd d1]|]; [|done]. cbn [snd fst]. destruct (adb_read fd d1) as [[[] d2]|]; [|done].
  destruct (fd <? 0); [by exists false, s|]. cbn [snd fst]. destruct (adb_close fd d2) as [[[] d3]|]; [|done]. by exists true, s.
Qed.

Lemma push_acts path (d : D) :
  acts ((dir <- remote_dir e plen ;; on_dev (do_sync_push path dir false) ;; ret true) (s, d))
    (perform [Push path (remote plen dir)] d) (fun a s' b => a = b /\ s' = s).
Proof using H Hdir Hlen Hplen.
  run (remote_dir_run d). cbn [perform]. unfold bind, on_dev. cbn [snd fst].
  destruct (do_sync_push _ _ _ d) as [[x d1]|]; [|done]. by exists true, s.
Qed.

End Turn.

(** What is new on the table after a turn that brings no directory. *)
Lemma after_same W tn : new_dirs W tn = [] -> after W tn = W.
Proof. intros E. unfold after. by rewrite E. Qed.

Definition turn_done (W : gmap Z (list Z)) (tn : turn) (n : nat) (a : option (option (list Z))) (s : ino) (b : bool) : Prop :=
  if b then a = Some None /\ table s (after W tn) n else a = None.

Lemma send_new_acts s W t1 t2 e dir k (d : D) :
  holds s W t1 t2 -> W !! ev_wd e = Some dir -> (plen <= length dir)%nat -> ev_name e <> [] ->
  acts (send_new k (new_path dir e) e plen (s, d))
    (perform (if isdir k (new_path dir e) then [Shell (service plen (bs "mkdir") dir (cstr (ev_name e)))]
              else [Push (new_path dir e) (remote plen dir)]) d)
    (fun a s' b => a = b /\ s' = s).
Proof using Hplen.
  intros H Hdir Hlen Hname. unfold send_new. destruct (isdir k _); [by eapply shell_acts|by eapply push_acts].
Qed.

(** An event the watcher does not act on. *)
Lemma idle_acts s W tn n (d : D) :
  asks_for_action (tn_event tn) = false -> table s W (length (new_dirs W tn) + n) ->
  acts (watch_event (tn_tick tn) plen None (tn_event tn) (s, d)) (perform (mirror plen W tn) d) (turn_done W tn n).
Proof using Type.
  unfold asks_for_action. intros [[[Ha Hf]%orb_false_iff Hm]%orb_false_iff Hd]%orb_false_iff Ht.
  assert (new_dirs W tn = []) as E by (unfold new_dirs; rewrite Ha; by destruct (W !! _)). rewrite E in Ht.
  assert (mirror plen W tn = []) as -> by (unfold mirror; rewrite Ha, Hf, Hm, Hd; by destruct (W !! _)).
  exists (Some None), s. split; [|split; [done|by rewrite after_same]]. unfold watch_event. rewrite bool_decide_true by done.
  cbn [andb]. fold (arrives (tn_event tn)). rewrite Ha. apply orb_false_iff in Ha as [_ ->]. by rewrite Hf, Hm, Hd.
Qed.

Lemma turn_acts s W tn n (d : D) :
  turn_ok plen W tn -> table s W (length (new_dirs W tn) + n) ->
  acts (watch_event (tn_tick tn) plen None (tn_event tn) (s, d)) (perform (mirror plen W tn) d) (turn_done W tn n).
Proof using Hplen.
  intros [_ Hname Hto] Ht. destruct (asks_for_action (tn_event tn)) eqn:Hact; [|by apply idle_acts].
  specialize (Hname eq_refl). destruct (Hto eq_refl) as (dir & Hdir & Hlen & Hnew & Hmoved). clear Hto.
  pose proof Ht as (t1 & t2 & H & Hm).
  unfold watch_event, mirror, turn_done. rewrite Hdir. set (e := tn_event tn) in *. set (k := tk_kernel (tn_tick tn)) in *.
  rewrite bool_decide_true by done. cbn [andb]. fold (arrives e). destruct (arrives e) eqn:Ea.
  { run (local_path_run s W t1 t2 H e dir Hdir Hname d).
    eapply acts_bind; [by eapply send_new_acts|]. intros a s' b d' [-> ->]. destruct b; cbn [negb acts]; [|by exists None, s].
    destruct (isdir k (new_path dir e)) eqn:Ei.
    - destruct (Hnew eq_refl eq_refl) as (es & Et & Hsh & Hd & Hp & Hf).
      unfold after, new_dirs in Hf, Ht |- *. fold e k in Hf, Ht |- *. rewrite Hdir, Ea, Ei in Hf, Ht |- *. cbn [andb] in Hf, Ht |- *.
      rewrite Et in Hf, Ht |- *.
      destruct (watch_tree_table k (tk_depth (tn_tick tn)) es (new_path dir e) s W n Hd Hp Hsh Hf Ht) as (s' & U & T').
      exists (Some None), s'. split; [|done]. cbn [when].
      rewrite (bind_ok _ _ _ tt (s', d')); [done|]. by run (on_ino_ok _ s d' _ _ U).
    - exists (Some None), s. split; [done|]. assert (new_dirs W tn = []) as E by (unfold new_dirs; fold e k; by rewrite Hdir, Ea, Ei).
      rewrite after_same by done. by rewrite E in Ht. }
  assert (new_dirs W tn = []) as E by (unfold new_dirs; fold e; by rewrite Hdir, Ea). rewrite (after_same _ _ E). rewrite E in Ht.
  assert (has (ev_mask e) IN_MOVED_TO = false) as Hto by (unfold arrives in Ea; by apply orb_false_iff in Ea as [_ ?]). rewrite Hto.
  destruct (has (ev_mask e) IN_MOVED_FROM) eqn:Ef.
  { run (local_path_run s W t1 t2 H e dir Hdir Hname d). cbv zeta.
    eapply acts_bind; [by eapply shell_acts|]. intros a s' b d' [-> ->]. destruct b; cbn [negb acts]; [|by exists None, s].
    exists (Some None), s. split; [|done].
    assert (inotifytools_wd_from_filename (new_path dir e ++ [47]) s = Ok (-1, s)) as U.
    { unfold inotifytools_wd_from_filename. by run (watch_from_filename_none _ _ _ _ H _ (Hmoved eq_refl)). }
    by run (on_ino_ok _ s d' _ _ U). }
  destruct (has (ev_mask e) IN_MODIFY) eqn:Em.
  { run (local_path_run s W t1 t2 H e dir Hdir Hname d). run (remote_dir_run s W t1 t2 H e dir Hdir Hlen d).
    cbn [perform]. unfold bind, on_dev. cbn [snd fst]. destruct (do_sync_push _ _ _ d) as [[x d1]|]; [|done]. by exists (Some None), s. }
  destruct (has (ev_mask e) IN_DELETE) eqn:Ed; [|by exists (Some None), s].
  eapply acts_bind; [by eapply shell_acts|]. intros a s' b d' [-> ->]. by destruct b; [exists (Some None), s|exists None, s].
Qed.

Lemma perform_app l1 l2 (d : D) :
  perform (l1 ++ l2) d = match perform l1 d with Ok (true, d') => perform l2 d' | Ok (false, d') => Ok (false, d') | Err e => Err e end.
Proof using Type.
  revert d. induction l1 as [|[srv|lpath rpath] l1 IH]; intros d; cbn [app perform]; [done|..]; unfold bind.
  - destruct (adb_connect srv d) as [[fd d1]|]; [|done]. destruct (adb_read fd d1) as [[[] d2]|]; [|done].
    destruct (fd <? 0); [done|]. by destruct (adb_close fd d2) as [[[] d3]|].
  - by destruct (do_sync_push lpath rpath false d) as [[x d1]|].
Qed.

Lemma printf_run s W t1 t2 tn :
  holds s W t1 t2 -> turn_ok plen W tn ->
  exists r, inotifytools_fprintf (tn_event tn) (Some (Some (tk_time (tn_tick tn)))) (bs "%T %w%f %e" ++ [10]) s = Ok (r, s).
Proof using Type.
  intros H [[Hz Hl] _ _]. unfold inotifytools_fprintf, inotifytools_snprintf. run (filename_from_wd_run _ _ _ _ (ev_wd (tn_event tn)) H).
  fold (event_name (tn_event tn)). rewrite (snprintf_text _ _ _ _ (line W tn)); [by eexists|done|done|done|done| |done|done].
  change (bs "%T %w%f %e" ++ [10]) with [37; 84; 32; 37; 119; 37; 102; 32; 37; 101; 10]. cbn. unfold line, path_of. f_equal.
  by rewrite <- !app_assoc.
Qed.

Lemma no_more more s (d : D) b rs errno :
  pending (SelectFailed errno :: more) b rs [] ->
  exists st, inotifytools_next_event 1 None b rs s = Ok ((None, st), set_error errno s).
Proof using Type.
  intros (held & ws & Hb & _ & Hws & -> & E). symmetry in E. apply app_eq_nil in E as [E0 E]. apply map_eq_nil in E0 as ->. cbn in Hb.
  assert (ws = []) as ->.
  { destruct Hws as [|[es|] ws Hw _]; [done| |done]. destruct Hw as [Hne _ _]. by destruct es. }
  cbn [map app inotifytools_next_event]. rewrite (bind_ok (modify _) _ s tt (set_error 0 s)) by done.
  unfold next_event_raw, buffered_event. rewrite Hb. cbn. by eexists.
Qed.

Lemma loop_acts more errno tns : forall s W (d : D) b rs,
  turns_ok plen W tns -> table s W (all_new_dirs W tns) -> pending (SelectFailed errno :: more) b rs (map Some (map tn_event tns)) ->
  acts (watcher_loop plen (map tn_tick tns) None b rs (s, d)) (perform (mirrors plen W tns) d)
    (fun a _ ok => a = if ok : bool then None else Some (-1)).
Proof using Hplen.
  induction tns as [|tn tns IH]; intros s W d b rs Hok Ht Hp; cbn [map watcher_loop mirrors].
  - destruct (no_more more s d b rs errno Hp) as [st U]. run (on_ino_ok _ s d _ _ U). by exists None, (set_error errno s).
  - destruct Hok as [Hok Hoks]. pose proof Ht as (t1 & t2 & H & _).
    destruct (next_event_run W None (SelectFailed errno :: more) 1 s t1 t2 b rs [] (Some (tn_event tn)) (map Some (map tn_event tns))) as (b' & rs' & n & U & Hn & Hp');
      [done|by left|constructor|done|cbn; lia|exact Hp|].
    rewrite Hn in U by done. pose proof (table_error 0 _ _ _ Ht) as Ht'. set (s1 := set_error 0 s) in *. run (on_ino_ok _ s d _ _ U). cbn [fst snd].
    destruct (printf_run s1 W t1 t2 tn (holds_error 0 _ _ _ _ H) Hok) as [r Up]. run (on_ino_ok _ s1 d _ _ Up).
    pose proof (turn_acts s1 W tn (all_new_dirs (after W tn) tns) d Hok Ht') as Ha. rewrite perform_app. unfold bind.
    destruct (perform (mirror plen W tn) d) as [[[|] d']|err]; cbn in Ha.
    + destruct Ha as (a & s' & -> & -> & T'). by apply IH.
    + destruct Ha as (a & s' & -> & ->). by exists (Some (-1)), s'.
    + by rewrite Ha.
Qed.

End Mirror.


(** A device that keeps a log. *)
Definition log_device : Device (list action) := {|
  adb_connect srv := fun d => Ok (5, d ++ [Shell srv]);
  adb_read _ := ret tt;
  adb_close _ := ret tt;
  do_sync_push lpath rpath _ := fun d => Ok (0, d ++ [Push lpath rpath]);
|}.

(** The directory /s with a file and the directories 1 and, later, 2. *)
Definition sync_kernel : kernel :=
  Kernel 3 (fun p _ => (if streq p (bs "/s/") then 1 else if streq p (bs "/s/1/") then 2 else 3, 0)) (fun _ => 0)
    (fun p => match list.last p with Some c => inr (if (49 <=? c) && (c <? 51) then 0x41ed else 0x81a4) | None => inl ENOENT end)
    (fun p => if streq p (bs "/s") then inr [bs "."; bs "a"; bs "1"; bs ".."] else inr [bs "."; bs ".."]).

Definition sync_tick : tick := Tick sync_kernel (bs "10:00:00") 3.
Definition no_subdirs : dtree := Dir [(bs ".", Plain); (bs "..", Plain)].
Definition sync_tree : list (list Z * dtree) := [(bs ".", Plain); (bs "a", Plain); (bs "1", no_subdirs); (bs "..", Plain)].

Definition sync_turns : list turn :=
  [Turn (Ievent 2 IN_CREATE 0 (bs "x" ++ [0])) sync_tick Plain;
   Turn (Ievent 1 (Z.lor IN_CREATE IN_ISDIR) 0 (bs "2" ++ [0])) sync_tick no_subdirs;
   Turn (Ievent 3 IN_MODIFY 0 (bs "y" ++ [0])) sync_tick Plain;
   Turn (Ievent 1 IN_DELETE 0 (bs "a" ++ [0])) sync_tick Plain].

Ltac by_computing := first [by vm_compute | by apply (bool_decide_unpack _); vm_compute].

Lemma fresh_check k ps W :
  bool_decide (NoDup ps) && bool_decide (NoDup (map (wd_of_path k) ps)) &&
    forallb (fun p => (0 <? wd_of_path k p) && bool_decide (W !! wd_of_path k p = None) && bool_decide (wd_for W p = None)) ps = true ->
  fresh_dirs k ps W.
Proof.
  rewrite !andb_true_iff, !bool_decide_eq_true, forallb_forall. intros [[H1 H2] H3]. split_and!; [done..|].
  apply List.Forall_forall. intros p Hp%H3. rewrite !andb_true_iff, !bool_decide_eq_true in Hp. destruct Hp as [[P1 P2] P3].
  split_and!; [lia|done|]. intros wd. by apply wd_for_none.
Qed.

(** An event that brings no directory and takes none away. *)
Lemma plain_turn_ok plen W tn dir :
  bool_decide (Forall (fun c => c <> 0) (line W tn)) && (Z.of_nat (length (line W tn)) <? MAX_STRLEN) &&
    bool_decide (ev_name (tn_event tn) <> []) && bool_decide (W !! ev_wd (tn_event tn) = Some dir) && (plen <=? length dir)%nat &&
    negb (arrives (tn_event tn) && isdir (tk_kernel (tn_tick tn)) (new_path dir (tn_event tn))) &&
    negb (has (ev_mask (tn_event tn)) IN_MOVED_FROM) = true ->
  turn_ok plen W tn.
Proof.
  rewrite !andb_true_iff, !bool_decide_eq_true, !negb_true_iff. intros [[[[[[H1 H2] H3] H4] H5] H6] H7]. constructor; [split; [done|lia]|done|].
  exists dir. split_and!; [done|by apply Nat.leb_le| |congruence]. intros Ha Hi. rewrite Ha, Hi in H6. done.
Qed.

Lemma sync_turns_ok : turns_ok 2 (add_dirs sync_kernel (dirs (bs "/s") (Dir sync_tree)) ∅) sync_turns.
Proof.
  unfold sync_turns. cbn [turns_ok]. split_and!; [apply (plain_turn_ok _ _ _ (bs "/s/1/")); by vm_compute| |apply (plain_turn_ok _ _ _ (bs "/s/2/")); by vm_compute
    |apply (plain_turn_ok _ _ _ (bs "/s/")); by vm_compute|done].
  constructor; [split; by_computing|done|]. exists (bs "/s/"). split_and!; [by vm_compute|cbn; lia| |intros Hx; by vm_compute in Hx].
  intros _ _. exists [(bs ".", Plain); (bs "..", Plain)]. split_and!; [done| |cbn; lia|done|apply fresh_check; by vm_compute].
  split; [by vm_compute|]. cbn [fold_right fst snd]. split_and!; [by left..|done].
Qed.

Definition sync_batches : list (list ievent) := [take 3 (map tn_event sync_turns); drop 3 (map tn_event sync_turns)].

