(* ===== verification/Zip.v ===== *)
(** * Zip archives (libzipfile)

    [adb install] reads a package into memory and looks for its manifest before
    it sends it.  This file models libzipfile, which finds the central directory
    of an archive and lists its entries: centraldir.c and zipfile.c.  The archive
    is a region of memory of known size; pointers into it are offsets, and
    reading outside of it is undefined behaviour.  zlib is a parameter. *)

From S2P Require Import Prelude.

(** ** The structures (private.h) *)

(** [fileName] is null when the name is empty. *)
Record Zipentry := mkZipentry {
  fileNameLength : Z;
  fileName : option Z;
  compressionMethod : Z;
  uncompressedSize : Z;
  compressedSize : Z;
  zdata : Z;
}.

(** [entries] is the list that starts at [file->entries]. *)
Record Zipfile := mkZipfile {
  zbuf : list Z;
  bufsize : Z;
  disknum : Z;
  diskWithCentralDir : Z;
  entryCount : Z;
  totalEntryCount : Z;
  centralDirSize : Z;
  centralDirOffest : Z;
  commentLen : Z;
  zcomment : option Z;
  entries : list Zipentry;
}.

Definition CD_SIGNATURE : Z := 0x06054b50.
Definition EOCD_LEN : Z := 22.
Definition MAX_COMMENT_LEN : Z := 65535.
Definition MAX_EOCD_SEARCH : Z := MAX_COMMENT_LEN + EOCD_LEN.
Definition ENTRY_SIGNATURE : Z := 0x02014b50.
Definition ENTRY_LEN : Z := 46.
Definition LFH_SIZE : Z := 30.

(** ** Reading memory *)

(** [file->buf[p]]. *)
Definition zbyte (p : Z) : M Zipfile Z :=
  f <- get ;;
  if p <? 0 then fail EUndef else deref (zbuf f !! Z.to_nat p).

Definition read_le_int (p : Z) : M Zipfile Z :=
  a <- zbyte p ;; b <- zbyte (p + 1) ;; c <- zbyte (p + 2) ;; d <- zbyte (p + 3) ;;
  ret (u32 (Z.lor (Z.lor (Z.lor a (Z.shiftl b 8)) (Z.shiftl c 16)) (Z.shiftl d 24))).

Definition read_le_short (p : Z) : M Zipfile Z :=
  a <- zbyte p ;; b <- zbyte (p + 1) ;;
  ret (Z.lor a (Z.shiftl b 8)).

(** ** The end of the central directory *)

Definition set_eocd (a b c d e f g : Z) (z : Zipfile) : Zipfile :=
  mkZipfile (zbuf z) (bufsize z) a b c d e f g (zcomment z) (entries z).

Definition set_comment (p : Z) (z : Zipfile) : Zipfile :=
  mkZipfile (zbuf z) (bufsize z) (disknum z) (diskWithCentralDir z) (entryCount z) (totalEntryCount z)
    (centralDirSize z) (centralDirOffest z) (commentLen z) (Some p) (entries z).

Definition add_entry (e : Zipentry) (z : Zipfile) : Zipfile :=
  mkZipfile (zbuf z) (bufsize z) (disknum z) (diskWithCentralDir z) (entryCount z) (totalEntryCount z)
    (centralDirSize z) (centralDirOffest z) (commentLen z) (zcomment z) (e :: entries z).

Definition read_central_dir_values (buf len : Z) : M Zipfile Z :=
  if len <? EOCD_LEN then ret (-1)
  else
    a <- read_le_short (buf + 0x04) ;;
    b <- read_le_short (buf + 0x06) ;;
    c <- read_le_short (buf + 0x08) ;;
    d <- read_le_short (buf + 0x0a) ;;
    e <- read_le_int (buf + 0x0c) ;;
    f <- read_le_int (buf + 0x10) ;;
    g <- read_le_short (buf + 0x14) ;;
    modify (set_eocd a b c d e f g) ;;
    if 0 <? g then
      if len <? EOCD_LEN + g then ret (-1)
      else modify (set_comment (buf + EOCD_LEN)) ;; ret 0
    else ret 0.

(** ** One entry *)

(** [None] is the return of -1; otherwise the entry and the new [*buf].  The
    caller's [len] is only read.  The fields between those named here are read
    into variables that are not used; they lie between the first and the last. *)
Definition read_central_directory_entry (buf len : Z) : M Zipfile (option (Zipentry * Z)) :=
  if len <? ENTRY_LEN then ret None
  else
    sig <- read_le_int buf ;;
    if negb (sig =? ENTRY_SIGNATURE) then ret None
    else
      method <- read_le_short (buf + 0x0a) ;;
      csize <- read_le_int (buf + 0x14) ;;
      usize <- read_le_int (buf + 0x18) ;;
      nlen <- read_le_short (buf + 0x1c) ;;
      elen <- read_le_short (buf + 0x1e) ;;
      clen <- read_le_short (buf + 0x20) ;;
      rel <- read_le_int (buf + 0x2a) ;;
      let p := buf + ENTRY_LEN in
      let name := if nlen =? 0 then None else Some p in
      let p := p + nlen + elen + clen in
      elen <- read_le_short (rel + 0x1c) ;;
      let dataOffset := u32 (rel + LFH_SIZE + nlen + elen) in
      ret (Some (mkZipentry nlen name method usize csize dataOffset, p)).

(** ** The whole directory *)

(** The backward search, from [p] over [n] positions. *)
Fixpoint find_eocd (n : nat) (p : Z) : M Zipfile (option Z) :=
  match n with
  | O => ret None
  | S n' =>
      b <- zbyte p ;;
      hit <- (if b =? 0x50 then s <- read_le_int p ;; ret (s =? CD_SIGNATURE) else ret false) ;;
      if hit then ret (Some p) else find_eocd n' (p - 1)
  end.

(** The loop over the entries; [n] are left. *)
Fixpoint read_entries (n : nat) (p len : Z) : M Zipfile Z :=
  match n with
  | O => ret 0
  | S n' =>
      r <- read_central_directory_entry p len ;;
      match r with
      | None => ret (-1)
      | Some (e, p) => modify (add_entry e) ;; read_entries n' p len
      end
  end.

Definition read_central_dir : M Zipfile Z :=
  f <- get ;;
  let bufsize := bufsize f in
  if bufsize <? EOCD_LEN then ret (-1)
  else
    let start := if MAX_EOCD_SEARCH <? bufsize then bufsize - MAX_EOCD_SEARCH else 0 in
    r <- find_eocd (Z.to_nat (bufsize - 4 - start + 1)) (bufsize - 4) ;;
    match r with
    | None => ret (-1)
    | Some eocd =>
        err <- read_central_dir_values eocd (bufsize - eocd) ;;
        if negb (err =? 0) then ret (-1)
        else
          f <- get ;;
          if negb (disknum f =? 0) || negb (diskWithCentralDir f =? 0) || negb (entryCount f =? totalEntryCount f)
          then ret (-1)
          else read_entries (Z.to_nat (totalEntryCount f)) (centralDirOffest f) (bufsize - centralDirOffest f)
    end.

(** ** zipfile.c *)

(** [None] is a null result. *)
Definition init_zipfile (data : list Z) (size : Z) : result (option Zipfile) :=
  match read_central_dir (mkZipfile data size 0 0 0 0 0 0 0 None []) with
  | Ok (err, file) => Ok (if err =? 0 then Some file else None)
  | Err e => Err e
  end.

(** [memcmp(s, p, n) == 0] of a C string and a region of the archive; the string
    ends with a NUL, and reading beyond that is undefined. *)
Fixpoint memcmp_name (s : list Z) (p : Z) (n : nat) {struct n} : M Zipfile bool :=
  match n with
  | O => ret true
  | S n' =>
      b <- zbyte p ;;
      match s with
      | a :: s' => if a =? b then memcmp_name s' (p + 1) n' else ret false
      | [] => if 0 =? b then (match n' with O => ret true | S _ => fail EUndef end) else ret false
      end
  end.

(** Entries are named by their position in the list. *)
Fixpoint lookup_from (name : list Z) (i : nat) (es : list Zipentry) : M Zipfile (option nat) :=
  match es with
  | [] => ret None
  | e :: es' =>
      same <- match fileName e with
              | Some p => memcmp_name name p (Z.to_nat (fileNameLength e))
              | None => ret true
              end ;;
      if same then ret (Some i) else lookup_from name (S i) es'
  end.

Definition lookup_zipentry (name : list Z) : M Zipfile (option nat) :=
  f <- get ;; lookup_from name 0 (entries f).

(** Position after [cookie] in the list; [None] is null. *)
Definition iterate_zipfile (cookie : option nat) : M Zipfile (option nat) :=
  f <- get ;;
  let i := match cookie with None => 0%nat | Some i => S i end in
  ret (if (i <? length (entries f))%nat then Some i else None).

Definition get_zipentry_size (e : Zipentry) : Z := uncompressedSize e.

(** [memcpy(_, file->buf + p, n)]. *)
Fixpoint zcopy (p : Z) (n : nat) : M Zipfile (list Z) :=
  match n with
  | O => ret []
  | S n' => b <- zbyte p ;; r <- zcopy (p + 1) n' ;; ret (b :: r)
  end.

Definition get_zipentry_name (e : Zipentry) : M Zipfile (list Z) :=
  match fileName e with
  | Some p => zcopy p (Z.to_nat (fileNameLength e))
  | None => ret []
  end.

Definition STORED : Z := 0.
Definition DEFLATED : Z := 8.

Section Inflate.
(** [inflate] with Z_FINISH on the whole input and room for so many bytes: what
    it wrote, and whether it returned Z_STREAM_END. *)
Context (inflate : list Z -> Z -> list Z * bool).

Definition uninflate (unlen p clen : Z) : M Zipfile (Z * list Z) :=
  input <- zcopy p (Z.to_nat clen) ;;
  let '(out, ended) := inflate input unlen in
  ret (if ended then 0 else -1, out).

(** The bytes written to [buf], which has room for [bufsize]. *)
Definition decompress_zipentry (e : Zipentry) (bufsize : Z) : M Zipfile (Z * list Z) :=
  if compressionMethod e =? STORED then
    d <- zcopy (zdata e) (Z.to_nat (uncompressedSize e)) ;;
    if bufsize <? uncompressedSize e then fail EUndef else ret (0, d)
  else if compressionMethod e =? DEFLATED then uninflate bufsize (zdata e) (compressedSize e)
  else ret (-1, []).

End Inflate.

(** The check of a package in [sync_send] (file_sync_client.c). *)
Definition MANIFEST : list Z := bs "AndroidManifest.xml".

Definition verify_apk (buf : list Z) : result bool :=
  match init_zipfile buf (Z.of_nat (length buf)) with
  | Err e => Err e
  | Ok None => Ok false
  | Ok (Some zip) =>
      match lookup_zipentry MANIFEST zip with
      | Err e => Err e
      | Ok (entry, _) => Ok (bool_decide (is_Some entry))
      end
  end.
