(* ===== verification/ZipFacts.v ===== *)
(** * What libzipfile reads from an archive

    An archive as the format describes it: local headers with the data, the
    central directory, the end record.  libzipfile lists exactly its entries.
    The check of packages that [adb install] makes accepts more than it should,
    and an archive with wrong numbers makes the library read outside of it. *)

From S2P Require Import Prelude Zip.

(** ** Regions of memory *)

(** [l] is what the archive has at [p]. *)
Definition has (buf : list Z) (p : Z) (l : list Z) : Prop :=
  exists pre post, buf = pre ++ l ++ post /\ p = Z.of_nat (length pre).

Lemma has_self pre l post : has (pre ++ l ++ post) (Z.of_nat (length pre)) l.
Proof. by exists pre, post. Qed.

Lemma has_app_l buf p l k : has buf p (l ++ k) -> has buf p l.
Proof. intros (pre & post & -> & ->). exists pre, (k ++ post). by rewrite <- !app_assoc. Qed.

Lemma has_app_r buf p l k q : has buf p (l ++ k) -> q = p + Z.of_nat (length l) -> has buf q k.
Proof.
  intros (pre & post & -> & ->) ->. exists (pre ++ l), post. rewrite <- !app_assoc. split; [done|]. rewrite length_app. lia.
Qed.

Lemma has_byte z p b l : has (zbuf z) p (b :: l) -> zbyte p z = Ok (b, z).
Proof.
  intros (pre & post & E & ->). unfold zbyte, bind, get. rewrite (proj2 (Z.ltb_ge _ _)) by lia. rewrite E, Nat2Z.id.
  by rewrite lookup_app_r, Nat.sub_diag by lia.
Qed.

Lemma has_tail buf p b l : has buf p (b :: l) -> has buf (p + 1) l.
Proof. intros H. eapply (has_app_r _ _ [b]); [exact H|done]. Qed.

Definition le16 (n : Z) : list Z := le_bytes 2 n.

Lemma lor_shift a b k : 0 <= k -> 0 <= a < 2 ^ k -> Z.lor a (Z.shiftl b k) = a + b * 2 ^ k.
Proof.
  intros Hk Ha. assert (Z.land a (Z.shiftl b k) = 0) as Hl.
  { apply Z.bits_inj'. intros n Hn. rewrite Z.land_spec, Z.shiftl_spec, Z.bits_0 by done. destruct (decide (n < k)).
    - by rewrite (Z.testbit_neg_r b (n - k)), andb_false_r by lia.
    - rewrite <- (Z.mod_small a (2 ^ k)) by done. by rewrite Z.mod_pow2_bits_high by lia. }
  by rewrite <- Z.lxor_lor, <- Z.add_nocarry_lxor, Z.shiftl_mul_pow2 by done.
Qed.

(** The library's readers on little-endian numbers. *)
Lemma read_le_short_has z p n : has (zbuf z) p (le16 n) -> 0 <= n < 65536 -> read_le_short p z = Ok (n, z).
Proof.
  intros H Hn. unfold read_le_short. unfold le16 in H. cbn [le_bytes] in H.
  erewrite bind_ok by (by eapply has_byte). apply has_tail in H. erewrite bind_ok by (by eapply has_byte). unfold ret.
  rewrite lor_shift by zdiv. do 2 f_equal. change (2 ^ 8) with 256. zdiv.
Qed.

Lemma read_le_int_has z p n : has (zbuf z) p (le32 n) -> is_u32 n -> read_le_int p z = Ok (n, z).
Proof.
  intros H Hn. unfold read_le_int. unfold le32 in H. cbn [le_bytes] in H.
  erewrite bind_ok by (by eapply has_byte). apply has_tail in H. erewrite bind_ok by (by eapply has_byte).
  apply has_tail in H. rewrite <- Z.add_assoc in H. erewrite bind_ok by (by eapply has_byte).
  apply has_tail in H. rewrite <- Z.add_assoc in H. erewrite bind_ok by (by eapply has_byte). unfold ret.
  unfold is_u32, two32 in Hn. rewrite (lor_shift _ _ 8) by zdiv. change (2 ^ 8) with 256. rewrite (lor_shift _ _ 16) by zdiv. change (2 ^ 16) with 65536.
  rewrite (lor_shift _ _ 24) by zdiv. change (2 ^ 24) with 16777216.
  rewrite u32_id; [do 2 f_equal; zdiv|]. unfold is_u32, two32. zdiv.
Qed.

Lemma zcopy_has z l : forall p, has (zbuf z) p l -> zcopy p (length l) z = Ok (l, z).
Proof.
  induction l as [|b l IH]; intros p H; [done|]. cbn [length zcopy]. erewrite bind_ok by (by eapply has_byte).
  erewrite bind_ok by (eapply IH, has_tail, H). done.
Qed.

(** ** The format *)

(** An entry: its name, data and the parts that are skipped. *)
Record item := mkItem {
  it_name : list Z; it_extra : list Z; it_comment : list Z;
  it_method : Z; it_usize : Z; it_data : list Z;
  it_lname : list Z; it_lextra : list Z;
  it_lhead : list Z; it_vers : list Z; it_date : list Z; it_attr : list Z;
}.

Definition len (l : list Z) : Z := Z.of_nat (length l).

Record item_ok (i : item) : Prop := ItemOk {
  io_name : len (it_name i) < 65536; io_extra : len (it_extra i) < 65536; io_comment : len (it_comment i) < 65536;
  io_method : 0 <= it_method i < 65536; io_usize : is_u32 (it_usize i);
  io_lname : length (it_lname i) = length (it_name i); io_lextra : len (it_lextra i) < 65536;
  io_lhead : length (it_lhead i) = 28%nat; io_vers : length (it_vers i) = 6%nat;
  io_date : length (it_date i) = 8%nat; io_attr : length (it_attr i) = 8%nat;
  io_nul : Forall (fun b => b <> 0) (it_name i);
}.

Definition local (i : item) : list Z :=
  it_lhead i ++ le16 (len (it_lextra i)) ++ it_lname i ++ it_lextra i ++ it_data i.

Definition central (i : item) (off : Z) : list Z :=
  le32 ENTRY_SIGNATURE ++ it_vers i ++ le16 (it_method i) ++ it_date i ++ le32 (len (it_data i)) ++ le32 (it_usize i) ++
  le16 (len (it_name i)) ++ le16 (len (it_extra i)) ++ le16 (len (it_comment i)) ++ it_attr i ++ le32 off ++
  it_name i ++ it_extra i ++ it_comment i.

Fixpoint locals (items : list item) : list Z :=
  match items with [] => [] | i :: items' => local i ++ locals items' end.

Fixpoint centrals (off : Z) (items : list item) : list Z :=
  match items with [] => [] | i :: items' => central i off ++ centrals (off + len (local i)) items' end.

Definition eocd (n cdsize cdoff : Z) (comment : list Z) : list Z :=
  le32 CD_SIGNATURE ++ le16 0 ++ le16 0 ++ le16 n ++ le16 n ++ le32 cdsize ++ le32 cdoff ++ le16 (len comment) ++ comment.

Definition archive (items : list item) (comment : list Z) : list Z :=
  locals items ++ centrals 0 items ++
  eocd (Z.of_nat (length items)) (len (centrals 0 items)) (len (locals items)) comment.

(** ** Reading it *)

Lemma has_at buf p q l : has buf p l -> p = q -> has buf q l.
Proof. by intros H <-. Qed.

(** The fields of a structure, one after the other. *)
Ltac field H F :=
  pose proof (has_app_l _ _ _ _ H) as F; eapply has_app_r in H; [|reflexivity].

Ltac at_offset F := eapply has_at; [exact F|unfold len, le32, le16; rewrite ?le_bytes_length; lia].

Lemma le16_length n : length (le16 n) = 2%nat.
Proof. apply le_bytes_length. Qed.

Definition entry_of (i : item) (p off : Z) : Zipentry :=
  mkZipentry (len (it_name i)) (if len (it_name i) =? 0 then None else Some (p + ENTRY_LEN)) (it_method i) (it_usize i)
    (len (it_data i)) (off + LFH_SIZE + len (it_name i) + len (it_lextra i)).

Lemma len_nonneg l : 0 <= len l.
Proof. unfold len. lia. Qed.

Lemma len_app l k : len (l ++ k) = len l + len k.
Proof. unfold len. rewrite length_app. lia. Qed.

Lemma central_len i off : item_ok i -> len (central i off) = ENTRY_LEN + len (it_name i) + len (it_extra i) + len (it_comment i).
Proof.
  intros [_ _ _ _ _ _ _ _ Hv Hd Ha _]. unfold central, ENTRY_LEN. rewrite !len_app. unfold len, le32, le16. rewrite !le_bytes_length. lia.
Qed.

Lemma local_len i : item_ok i -> len (local i) = LFH_SIZE + len (it_name i) + len (it_lextra i) + len (it_data i).
Proof.
  intros [_ _ _ _ _ Hn _ Hh _ _ _ _]. unfold local, LFH_SIZE. rewrite !len_app. unfold len, le16. rewrite !le_bytes_length. lia.
Qed.

(** The fields of the directory entry; the local header is still to be read. *)
Lemma read_entry_head z i p off n :
  item_ok i -> has (zbuf z) p (central i off) -> len (it_data i) < two32 -> ENTRY_LEN <= n -> is_u32 off ->
  read_central_directory_entry p n z =
    (elen <- read_le_short (off + 0x1c) ;;
     ret (Some (mkZipentry (len (it_name i)) (if len (it_name i) =? 0 then None else Some (p + ENTRY_LEN)) (it_method i) (it_usize i)
       (len (it_data i)) (u32 (off + LFH_SIZE + len (it_name i) + elen)), p + len (central i off)))) z.
Proof.
  intros Hok Hc Hmax Hn Hoff. rewrite (central_len i off Hok).
  destruct Hok as [Hn1 Hn2 Hn3 Hm Hu Hln Hle Hlh Hv Hd Ha _]. unfold read_central_directory_entry. rewrite (proj2 (Z.ltb_ge n ENTRY_LEN)) by lia.
  pose proof (len_nonneg (it_name i)). pose proof (len_nonneg (it_extra i)). pose proof (len_nonneg (it_comment i)). pose proof (len_nonneg (it_data i)).
  unfold central in Hc. field Hc F1. field Hc F2. field Hc F3. field Hc F4. field Hc F5. field Hc F6. field Hc F7. field Hc F8. field Hc F9. field Hc F10. field Hc F11.
  erewrite bind_ok by (by apply read_le_int_has; [at_offset F1|]). rewrite Z.eqb_refl. cbn [negb].
  erewrite bind_ok by (by apply read_le_short_has; [at_offset F3|]).
  erewrite bind_ok by (apply read_le_int_has; [at_offset F5|unfold is_u32; lia]).
  erewrite bind_ok by (by apply read_le_int_has; [at_offset F6|]).
  erewrite bind_ok by (apply read_le_short_has; [at_offset F7|lia]).
  erewrite bind_ok by (apply read_le_short_has; [at_offset F8|lia]).
  erewrite bind_ok by (apply read_le_short_has; [at_offset F9|lia]).
  erewrite bind_ok by (apply read_le_int_has; [at_offset F11|done]).
  unfold bind. destruct (read_le_short (off + 0x1c) z) as [[el z']|]; [|done]. unfold ret. do 4 f_equal. lia.
Qed.

Lemma read_entry z i p off n :
  item_ok i -> has (zbuf z) p (central i off) -> has (zbuf z) off (local i) -> ENTRY_LEN <= n ->
  0 <= off -> off + len (local i) < two32 ->
  read_central_directory_entry p n z = Ok (Some (entry_of i p off, p + len (central i off)), z).
Proof.
  intros Hok Hc Hl Hn Hoff Hmax. rewrite (local_len i Hok) in Hmax. unfold LFH_SIZE in Hmax.
  pose proof (len_nonneg (it_name i)). pose proof (len_nonneg (it_lextra i)). pose proof (len_nonneg (it_data i)).
  rewrite (read_entry_head z i p off n) by (done || (unfold is_u32; lia)). destruct Hok as [_ _ _ _ _ _ Hle Hlh _ _ _ _].
  unfold local in Hl. field Hl G1. field Hl G2. erewrite bind_ok by (apply read_le_short_has; [at_offset G2|lia]).
  unfold ret, entry_of, LFH_SIZE. by rewrite u32_id by (unfold is_u32; lia).
Qed.

Fixpoint entries_of (p off : Z) (items : list item) : list Zipentry :=
  match items with
  | [] => []
  | i :: items' => entry_of i p off :: entries_of (p + len (central i off)) (off + len (local i)) items'
  end.

Definition with_entries (es : list Zipentry) (z : Zipfile) : Zipfile :=
  mkZipfile (zbuf z) (bufsize z) (disknum z) (diskWithCentralDir z) (entryCount z) (totalEntryCount z)
    (centralDirSize z) (centralDirOffest z) (commentLen z) (zcomment z) es.

Lemma read_entries_has n items : forall z p off,
  Forall item_ok items -> has (zbuf z) p (centrals off items) -> has (zbuf z) off (locals items) ->
  (items <> [] -> ENTRY_LEN <= n) -> 0 <= off -> off + len (locals items) < two32 ->
  read_entries (length items) p n z = Ok (0, with_entries (rev (entries_of p off items) ++ entries z) z).
Proof.
  induction items as [|i items IH]; intros z p off Hok Hc Hl Hn Hoff Hmax; [by destruct z|].
  apply Forall_cons_iff in Hok as [Hi Hok]. cbn [centrals locals length read_entries entries_of rev] in *. rewrite len_app in Hmax.
  pose proof (len_nonneg (local i)). pose proof (len_nonneg (locals items)).
  erewrite bind_ok by (eapply read_entry; [done|by eapply has_app_l|by eapply has_app_l|by apply Hn|lia|lia]).
  unfold bind at 1. cbn [modify]. erewrite IH; [|done|by eapply has_app_r|by eapply has_app_r|intros _; by apply Hn|lia|lia].
  rewrite <- app_assoc. by destruct z.
Qed.

(** The end record. *)
Lemma read_values_has z p n cdsize cdoff comment :
  has (zbuf z) p (eocd n cdsize cdoff comment) -> 0 <= n < 65536 -> is_u32 cdsize -> is_u32 cdoff -> len comment < 65536 ->
  exists c, read_central_dir_values p (EOCD_LEN + len comment) z =
    Ok (0, mkZipfile (zbuf z) (bufsize z) 0 0 n n cdsize cdoff (len comment) c (entries z)).
Proof.
  intros H Hn Hs Ho Hc. pose proof (len_nonneg comment). unfold read_central_dir_values.
  rewrite (proj2 (Z.ltb_ge (EOCD_LEN + len comment) EOCD_LEN)) by lia.
  unfold eocd in H. field H F1. field H F2. field H F3. field H F4. field H F5. field H F6. field H F7. field H F8.
  do 2 (erewrite bind_ok by (apply read_le_short_has; [at_offset F2 || at_offset F3|lia])).
  erewrite bind_ok by (apply read_le_short_has; [at_offset F4|lia]).
  erewrite bind_ok by (apply read_le_short_has; [at_offset F5|lia]).
  erewrite bind_ok by (apply read_le_int_has; [at_offset F6|done]).
  erewrite bind_ok by (apply read_le_int_has; [at_offset F7|done]).
  erewrite bind_ok by (apply read_le_short_has; [at_offset F8|lia]).
  unfold bind at 1. cbn [modify]. destruct (0 <? len comment); [|by eexists].
  rewrite Z.ltb_irrefl. by eexists.
Qed.

(** ** Finding the end record *)

Lemma zbyte_in z p : 0 <= p < len (zbuf z) -> exists b, zbyte p z = Ok (b, z) /\ zbuf z !! Z.to_nat p = Some b.
Proof.
  intros Hp. unfold zbyte, bind, get. rewrite (proj2 (Z.ltb_ge _ _)) by lia.
  destruct (lookup_lt_is_Some_2 (zbuf z) (Z.to_nat p)) as [b Hb]; [unfold len in Hp; lia|]. rewrite Hb. by exists b.
Qed.

(** Four bytes of the archive are the number they encode. *)
Lemma read_le_int_in z p : Forall is_byte (zbuf z) -> 0 <= p -> p + 4 <= len (zbuf z) ->
  exists n, is_u32 n /\ has (zbuf z) p (le32 n) /\ read_le_int p z = Ok (n, z).
Proof.
  intros Hb Hp Hl. set (q := Z.to_nat p). set (l := take 4 (drop q (zbuf z))).
  assert (length l = 4%nat) as Hll by (unfold l; rewrite length_take, length_drop; unfold len, q in *; lia).
  assert (Forall is_byte l) as Hlb by (by apply Forall_take, Forall_drop).
  assert (le32 (of_le l) = l) as E by (unfold le32; rewrite <- Hll; by apply le_bytes_of_le).
  assert (is_u32 (of_le l)) as Hu. { pose proof (of_le_range l Hlb) as H. by rewrite Hll in H. }
  assert (has (zbuf z) p (le32 (of_le l))) as Hh.
  { rewrite E. exists (take q (zbuf z)), (drop 4 (drop q (zbuf z))). unfold l. rewrite take_drop, take_drop. split; [done|].
    rewrite length_take. unfold len, q in *. lia. }
  exists (of_le l). split; [done|]. split; [done|]. by apply read_le_int_has.
Qed.

Lemma has_le32_inj buf p a b : has buf p (le32 a) -> has buf p (le32 b) -> is_u32 a -> is_u32 b -> a = b.
Proof.
  intros (pre & post & E & Hp) (pre' & post' & E' & Hp') Ha Hb. rewrite E in E'.
  apply app_inj_1 in E' as [-> E']; [|lia]. apply app_inj_1 in E' as [E' _]; [|by rewrite !le32_length].
  by rewrite <- (of_le_le32 a Ha), <- (of_le_le32 b Hb), E'.
Qed.

Lemma find_eocd_last z e n : Forall is_byte (zbuf z) -> has (zbuf z) e (le32 CD_SIGNATURE) ->
  forall p, e <= p -> p + 4 <= len (zbuf z) -> p - e < Z.of_nat n ->
  (forall q, e < q <= p -> ~ has (zbuf z) q (le32 CD_SIGNATURE)) ->
  find_eocd n p z = Ok (Some e, z).
Proof.
  intros Hb He. assert (0 <= e) as He0 by (destruct He as (? & ? & _ & ->); lia).
  induction n as [|n IH]; intros p Hp Hl Hn Hno; [lia|]. cbn [find_eocd].
  destruct (read_le_int_in z p Hb ltac:(lia) Hl) as (v & Hv & Hh & Hr).
  destruct (decide (p = e)) as [->|Hne].
  - rewrite (has_le32_inj _ _ _ _ Hh He Hv ltac:(done)) in *. 
    erewrite bind_ok by (eapply has_byte; exact He). change (CD_SIGNATURE mod 256 =? 0x50) with true.
    unfold bind at 1 2. rewrite Hr. rewrite Z.eqb_refl. done.
  - destruct (zbyte_in z p) as (b & Hzb & _); [lia|]. erewrite bind_ok by exact Hzb.
    assert ((v =? CD_SIGNATURE) = false) as Hs.
    { apply Z.eqb_neq. intros ->. by apply (Hno p); [lia|]. }
    assert ((if b =? 0x50 then s <- read_le_int p ;; ret (s =? CD_SIGNATURE) else ret false) z = Ok (false, z)) as Hh'.
    { destruct (b =? 0x50); [|done]. unfold bind. rewrite Hr. by rewrite Hs. }
    erewrite bind_ok by exact Hh'. apply IH; [lia..|]. intros q Hq. apply Hno. lia.
Qed.

(** ** Whole archives *)

Definition tail_of (items : list item) : Z := len (locals items) + len (centrals 0 items).

(** What a program that writes archives sees to; the signature must not occur
    again in the end record, where the search would find it first. *)
Record archive_ok (items : list item) (comment : list Z) : Prop := ArchiveOk {
  ao_items : Forall item_ok items;
  ao_count : Z.of_nat (length items) < 65536;
  ao_size : tail_of items < two32;
  ao_comment : len comment < 65536;
  ao_bytes : Forall is_byte (archive items comment);
  ao_last q : tail_of items < q -> ~ has (archive items comment) q (le32 CD_SIGNATURE);
}.

Lemma eocd_len n a b c : len (eocd n a b c) = EOCD_LEN + len c.
Proof. unfold eocd, EOCD_LEN. rewrite !len_app. unfold len, le32, le16. rewrite !le_bytes_length. lia. Qed.

Lemma centrals_len off items : Forall item_ok items -> items <> [] -> ENTRY_LEN <= len (centrals off items).
Proof.
  intros [|i items' Hi _] Hne; [done|]. cbn [centrals]. rewrite len_app, central_len by done.
  pose proof (len_nonneg (it_name i)). pose proof (len_nonneg (it_extra i)). pose proof (len_nonneg (it_comment i)).
  pose proof (len_nonneg (centrals (off + len (local i)) items')). lia.
Qed.

(** From the size of the file to the entries. *)
Lemma read_directory front cd n comment : let buf := front ++ cd ++ eocd n (len cd) (len front) comment in
  Forall is_byte buf -> 0 <= n < 65536 -> len front + len cd < two32 -> len comment < 65536 ->
  (forall q, len front + len cd < q -> ~ has buf q (le32 CD_SIGNATURE)) ->
  exists c, read_central_dir (mkZipfile buf (len buf) 0 0 0 0 0 0 0 None []) =
    read_entries (Z.to_nat n) (len front) (len buf - len front) (mkZipfile buf (len buf) 0 0 n n (len cd) (len front) (len comment) c []).
Proof.
  intros buf Hb Hn Hs Hc Hl. pose proof (len_nonneg front). pose proof (len_nonneg cd). pose proof (len_nonneg comment).
  set (e := len front + len cd) in *. set (z0 := mkZipfile buf (len buf) 0 0 0 0 0 0 0 None []).
  assert (len buf = len front + len cd + EOCD_LEN + len comment) as Hlen by (unfold buf; rewrite !len_app, eocd_len; lia).
  assert (has buf e (eocd n (len cd) (len front) comment)) as R2.
  { exists (front ++ cd), []. unfold buf. rewrite app_nil_r, <- app_assoc. split; [done|]. unfold e, len. rewrite length_app. lia. }
  destruct (read_values_has z0 e n (len cd) (len front) comment) as [c Hv]; [done|lia|unfold is_u32; lia|unfold is_u32; lia|lia|].
  exists c. unfold read_central_dir, bind at 1. cbn [get bufsize z0].
  rewrite (proj2 (Z.ltb_ge (len buf) EOCD_LEN)) by (unfold EOCD_LEN in *; lia). erewrite bind_ok.
  2: { apply (find_eocd_last z0 e); [done|by eapply has_app_l|unfold EOCD_LEN in *; lia|cbn; lia| |].
       - unfold MAX_EOCD_SEARCH, MAX_COMMENT_LEN, EOCD_LEN in *. destruct (65535 + 22 <? len buf) eqn:E; bools; lia.
       - intros q Hq. apply Hl. lia. }
  cbv beta iota. replace (len buf - e) with (EOCD_LEN + len comment) by lia.
  erewrite bind_ok by exact Hv. change (negb (0 =? 0)) with false. cbv iota. unfold bind at 1.
  cbn [get disknum diskWithCentralDir entryCount totalEntryCount centralDirOffest]. rewrite !Z.eqb_refl. cbn [negb orb]. done.
Qed.

Lemma init_archive items comment : archive_ok items comment ->
  exists z, init_zipfile (archive items comment) (len (archive items comment)) = Ok (Some z) /\
    zbuf z = archive items comment /\ entries z = rev (entries_of (len (locals items)) 0 items).
Proof.
  intros [Hi Hn Hs Hc Hb Hl]. pose proof (len_nonneg (locals items)). pose proof (len_nonneg (centrals 0 items)). pose proof (len_nonneg comment).
  destruct (read_directory (locals items) (centrals 0 items) (Z.of_nat (length items)) comment Hb) as [c Hd]; [lia|done..|].
  unfold init_zipfile. unfold archive in *. rewrite Hd, Nat2Z.id. clear Hd. erewrite read_entries_has.
  - eexists. split; [done|]. split; [done|]. apply app_nil_r.
  - done.
  - apply has_self.
  - by exists [], (centrals 0 items ++ eocd (Z.of_nat (length items)) (len (centrals 0 items)) (len (locals items)) comment).
  - intros Hne. pose proof (centrals_len 0 items Hi Hne). rewrite !len_app, eocd_len. unfold EOCD_LEN. lia.
  - lia.
  - unfold tail_of in Hs. lia.
Qed.

(** ** What the entries say *)

Lemma entries_of_spec (Q : Zipentry -> item -> Prop) buf items : forall p off,
  (forall i p off, item_ok i -> has buf p (central i off) -> has buf off (local i) -> Q (entry_of i p off) i) ->
  Forall item_ok items -> has buf p (centrals off items) -> has buf off (locals items) ->
  Forall2 Q (entries_of p off items) items.
Proof.
  induction items as [|i items IH]; intros p off HQ Hok Hc Hl; [constructor|]. apply Forall_cons_iff in Hok as [Hi Hok].
  cbn [centrals locals entries_of] in *. constructor.
  - apply HQ; [done|by eapply has_app_l|by eapply has_app_l].
  - apply IH; [done|done|by eapply has_app_r|by eapply has_app_r].
Qed.

Lemma Forall2_rev_both {A B} (Q : A -> B -> Prop) l k : Forall2 Q l k -> Forall2 Q (rev l) (rev k).
Proof. induction 1; cbn; [constructor|]. apply Forall2_app; [done|]. by repeat constructor. Qed.

(** The archive behind an open file, and its entries in the order of the list. *)
Lemma archive_entries (Q : Zipentry -> item -> Prop) items comment : archive_ok items comment ->
  (forall i p off, item_ok i -> has (archive items comment) p (central i off) -> has (archive items comment) off (local i) -> Q (entry_of i p off) i) ->
  exists z, init_zipfile (archive items comment) (len (archive items comment)) = Ok (Some z) /\
    zbuf z = archive items comment /\ Forall2 Q (entries z) (rev items).
Proof.
  intros Hok HQ. destruct (init_archive items comment Hok) as (z & Hz & Hb & He). exists z. split_and!; [done..|]. rewrite He.
  apply Forall2_rev_both. eapply entries_of_spec; [exact HQ|apply Hok|apply has_self|]. by exists [], (centrals 0 items ++ eocd (Z.of_nat (length items)) (len (centrals 0 items)) (len (locals items)) comment).
Qed.

Lemma entry_name_has buf i p off : has buf p (central i off) -> item_ok i -> has buf (p + ENTRY_LEN) (it_name i).
Proof.
  intros H [_ _ _ _ _ _ _ _ Hv Hd Ha _]. unfold central in H.
  field H F1. field H F2. field H F3. field H F4. field H F5. field H F6. field H F7. field H F8. field H F9. field H F10. field H F11. field H F12.
  unfold ENTRY_LEN. at_offset F12.
Qed.

Lemma entry_data_has buf i off : has buf off (local i) -> item_ok i ->
  has buf (off + LFH_SIZE + len (it_name i) + len (it_lextra i)) (it_data i).
Proof.
  intros H [_ _ _ _ _ Hn _ Hh _ _ _ _]. unfold local in H. field H F1. field H F2. field H F3. field H F4. unfold LFH_SIZE. at_offset H.
Qed.

(** C26: libzipfile lists an archive as it was written: it opens, its entries are
    those of the archive (the last one first), each with its name and size, and
    unpacking an entry gives its data: as stored, or as zlib unpacks it. *)
Theorem zip_reads_archive (inflate : list Z -> Z -> list Z * bool) items comment :
  archive_ok items comment ->
  exists z, init_zipfile (archive items comment) (len (archive items comment)) = Ok (Some z) /\
    Forall2 (fun e i =>
      get_zipentry_name e z = Ok (it_name i, z) /\ get_zipentry_size e = it_usize i /\
      forall room,
        (it_method i = STORED -> it_usize i = len (it_data i) -> it_usize i <= room -> decompress_zipentry inflate e room z = Ok (0, it_data i, z)) /\
        (it_method i = DEFLATED ->
         decompress_zipentry inflate e room z = Ok (if (inflate (it_data i) room).2 then 0 else -1, (inflate (it_data i) room).1, z)))
      (entries z) (rev items).
Proof.
  intros Hok. destruct (archive_entries (fun e i => exists p off, item_ok i /\ has (archive items comment) p (central i off) /\
    has (archive items comment) off (local i) /\ e = entry_of i p off) items comment Hok) as (z & Hz & Hb & Hf); [by eauto 10|].
  exists z. split; [done|]. eapply Forall2_impl; [|exact Hf]. rewrite <- Hb. intros e i (p & off & Hi & Hc & Hl & ->).
  pose proof (zcopy_has z _ _ (entry_name_has _ _ _ _ Hc Hi)) as Hn. pose proof (zcopy_has z _ _ (entry_data_has _ _ _ Hl Hi)) as Hd.
  split_and!; [|done|intros room; split].
  - unfold get_zipentry_name, entry_of. cbn [fileName fileNameLength]. destruct (len (it_name i) =? 0) eqn:E.
    + apply Z.eqb_eq in E. unfold len in E. by destruct (it_name i).
    + unfold len. by rewrite Nat2Z.id.
  - intros Hm Hu Hr. unfold decompress_zipentry, entry_of. cbn [compressionMethod uncompressedSize zdata]. rewrite Hm, Z.eqb_refl.
    rewrite Hu in *. unfold len at 3. rewrite Nat2Z.id. erewrite bind_ok by exact Hd. by rewrite (proj2 (Z.ltb_ge _ _)).
  - intros Hm. unfold decompress_zipentry, uninflate, entry_of. cbn [compressionMethod compressedSize zdata]. rewrite Hm.
    change (DEFLATED =? STORED) with false. rewrite Z.eqb_refl. unfold len at 3. rewrite Nat2Z.id. erewrite bind_ok by exact Hd.
    by destruct (inflate (it_data i) room).
Qed.

(** ** The check of packages *)

Lemma memcmp_name_has z nm : forall s p, has (zbuf z) p nm -> Forall (fun b => b <> 0) nm ->
  memcmp_name s p (length nm) z = Ok (prefixb nm s, z).
Proof.
  induction nm as [|b nm IH]; intros s p H Hn; [by destruct s|]. apply Forall_cons_iff in Hn as [Hb Hn]. cbn [length memcmp_name].
  erewrite bind_ok by (by eapply has_byte). destruct s as [|a s]; cbn [prefixb].
  - by rewrite (proj2 (Z.eqb_neq 0 b)) by lia.
  - rewrite (Z.eqb_sym b a). destruct (a =? b); [|done]. apply IH; [by eapply has_tail|done].
Qed.

Lemma lookup_from_has z s es items : Forall2 (fun e i => exists p off, item_ok i /\ has (zbuf z) p (central i off) /\ e = entry_of i p off) es items ->
  forall k, exists o, lookup_from s k es z = Ok (o, z) /\ bool_decide (is_Some o) = existsb (fun i => prefixb (it_name i) s) items.
Proof.
  induction 1 as [|e i es items (p & off & Hi & Hc & ->) _ IH]; intros k; cbn [lookup_from existsb]; [by exists None|].
  assert (match fileName (entry_of i p off) with Some p => memcmp_name s p (Z.to_nat (fileNameLength (entry_of i p off))) | None => ret true end z
    = Ok (prefixb (it_name i) s, z)) as Hm.
  { unfold entry_of. cbn [fileName fileNameLength]. destruct (len (it_name i) =? 0) eqn:E.
    - apply Z.eqb_eq in E. unfold len in E. by destruct (it_name i).
    - unfold len. rewrite Nat2Z.id. apply memcmp_name_has; [by eapply entry_name_has|apply Hi]. }
  erewrite bind_ok by exact Hm. destruct (prefixb (it_name i) s); [by exists (Some k)|]. apply IH.
Qed.

Lemma verify_archive items comment :
  archive_ok items comment ->
  verify_apk (archive items comment) = Ok (existsb (fun i => prefixb (it_name i) MANIFEST) items).
Proof.
  intros Hok. destruct (archive_entries (fun e i => exists p off, item_ok i /\ has (archive items comment) p (central i off) /\
    e = entry_of i p off) items comment Hok) as (z & Hz & Hb & Hf); [by eauto 10|].
  unfold verify_apk. fold (len (archive items comment)). rewrite Hz. unfold lookup_zipentry, bind. cbn [get].
  rewrite <- Hb in Hf. destruct (lookup_from_has z MANIFEST _ _ Hf 0) as (o & -> & Ho). f_equal. rewrite Ho.
  apply eq_true_iff_eq. rewrite !existsb_exists. setoid_rewrite <- in_rev. done.
Qed.

(** [adb install] lets a package pass if, and only if, it contains an entry
    whose name is a beginning of [AndroidManifest.xml]: the names are compared
    over the length of the entry's name only. *)
Theorem apk_check_by_prefix items comment :
  archive_ok items comment ->
  verify_apk (archive items comment) = Ok (existsb (fun i => prefixb (it_name i) MANIFEST) items).
Proof. apply verify_archive. Qed.

(** ** Concrete archives *)

Definition demo_item (name data : list Z) : item :=
  mkItem name [] [] STORED (len data) data name [7; 7] (replicate 28 1) (replicate 6 2) (replicate 8 3) (replicate 8 4).

Definition demo_archive : list item := [demo_item (bs "A") [10; 20]; demo_item (bs "res") [30]].

(** The last condition of [archive_ok], decided. *)
Definition last_check (buf : list Z) (t : Z) : bool :=
  forallb (fun p => (Z.of_nat p <=? t) || negb (bool_decide (take 4 (drop p buf) = le32 CD_SIGNATURE))) (seq 0 (length buf)).

Lemma last_check_ok buf t : last_check buf t = true -> forall q, t < q -> ~ has buf q (le32 CD_SIGNATURE).
Proof.
  unfold last_check. rewrite forallb_forall. intros Hc q Hq (pre & post & -> & ->).
  specialize (Hc (length pre)). rewrite in_seq, drop_app_length in Hc. change 4%nat with (length (le32 CD_SIGNATURE)) in Hc.
  rewrite take_app_length, bool_decide_eq_true_2, orb_false_r in Hc by done. apply Z.leb_le in Hc; [lia|].
  rewrite !length_app, le32_length. lia.
Qed.

Lemma demo_archive_ok : archive_ok demo_archive (bs "hello").
Proof.
  split.
  - repeat constructor; done.
  - done.
  - by vm_compute.
  - by vm_compute.
  - apply Forall_forall. intros b Hb. repeat (destruct Hb as [<-|Hb]; [done|]). done.
  - apply last_check_ok. by vm_compute.
Qed.

Lemma zip_reads_archive_witness :
  exists z, init_zipfile (archive demo_archive (bs "hello")) (len (archive demo_archive (bs "hello"))) = Ok (Some z) /\
    exists e, entries z !! 0%nat = Some e /\ get_zipentry_name e z = Ok (bs "res", z).
Proof.
  destruct (zip_reads_archive (fun _ _ => ([], false)) demo_archive (bs "hello") demo_archive_ok) as (z & Hz & Hf).
  exists z. split; [done|]. inversion Hf as [|e i es items (Hn & _) _ He]. exists e. split; [done|exact Hn].
Defined.

Lemma apk_check_by_prefix_witness : verify_apk (archive demo_archive (bs "hello")) = Ok true /\
  Forall (fun i => it_name i <> MANIFEST) demo_archive.
Proof. split; [exact (apk_check_by_prefix demo_archive (bs "hello") demo_archive_ok)|by repeat constructor]. Defined.

(** ** Reading outside of the archive *)

(** A central directory with one entry that claims to be at [off]. *)
Definition stray (off : Z) : list Z :=
  central (demo_item MANIFEST []) off ++ eocd 1 (len (central (demo_item MANIFEST []) off)) 0 [].

Lemma zbyte_out z p : 0 <= p -> len (zbuf z) <= p -> zbyte p z = Err EUndef.
Proof.
  intros Hp Hl. unfold zbyte, bind, get. rewrite (proj2 (Z.ltb_ge _ _)) by done.
  by rewrite lookup_ge_None_2 by (unfold len in Hl; lia).
Qed.

Lemma has_suffix pre buf q l : has (pre ++ buf) q l -> len pre <= q -> has buf (q - len pre) l.
Proof.
  intros (p & post & E & ->) Hq. exists (drop (length pre) p), post. unfold len in *. split; [|rewrite length_drop; lia].
  rewrite <- (take_drop (length pre) p), <- app_assoc in E. apply app_inj_1 in E as [_ E]; [done|]. rewrite length_take. lia.
Qed.

Lemma demo_item_ok : item_ok (demo_item MANIFEST []).
Proof. by repeat constructor. Qed.

Lemma stray_len off : len (central (demo_item MANIFEST []) off) = 65.
Proof. by rewrite (central_len _ _ demo_item_ok). Qed.

Lemma stray_bytes off : Forall is_byte (stray off).
Proof.
  unfold stray. rewrite stray_len. unfold central. repeat (apply Forall_app; split); try apply le_bytes_bytes.
  all: by repeat constructor.
Qed.

(** The offset of an entry's local header is not checked: a file that is
    nothing but a directory entry whose offset lies outside makes the check read
    there. *)
Theorem apk_check_reads_outside off : 87 <= off < two32 -> verify_apk (stray off) = Err EUndef.
Proof.
  intros Hoff. unfold verify_apk, init_zipfile. fold (len (stray off)).
  destruct (read_directory [] (central (demo_item MANIFEST []) off) 1 []) as [c Hd].
  - apply stray_bytes.
  - lia.
  - by rewrite stray_len.
  - done.
  - rewrite stray_len. change (len []) with 0. intros q Hq H. apply (has_suffix (central (demo_item MANIFEST []) off)) in H; [|rewrite stray_len; lia].
    revert H. apply (last_check_ok _ 0); [by vm_compute|]. rewrite stray_len. lia.
  - cbn [app] in Hd. change (len []) with 0 in Hd. fold (stray off) in Hd. rewrite Hd. clear Hd. change (Z.to_nat 1) with 1%nat.
    cbn [read_entries]. unfold bind at 1. rewrite (read_entry_head _ (demo_item MANIFEST []) _ off).
    + unfold read_le_short. unfold bind at 1 2. rewrite zbyte_out; [done|lia|]. cbn [zbuf].
      unfold stray. rewrite len_app, eocd_len, stray_len. unfold EOCD_LEN. change (len []) with 0. lia.
    + apply demo_item_ok.
    + exists [], (eocd 1 (len (central (demo_item MANIFEST []) off)) 0 []). done.
    + done.
    + change (len []) with 0. unfold stray. rewrite len_app, eocd_len, stray_len. done.
    + unfold is_u32; lia.
Qed.

Lemma apk_check_reads_outside_witness : verify_apk (stray 0x7fffffff) = Err EUndef.
Proof. apply (apk_check_reads_outside 0x7fffffff). by vm_compute. Defined.
