(* ===== verification/SyncBase.v ===== *)
(** * The file sync protocol: messages, files and connections

    What the sync service of the device (file_sync_service.c) and its client
    (file_sync_client.c) share: the message identifiers and layouts of
    file_sync_service.h, the calls to the file system, and the connection the
    two talk over.

    The file system is the kernel's: it is a parameter, the class
    [FileSystem], whose operations are the calls the two programs make; what
    the theorems rely on is the class [FsLaws], with an instance in
    SyncFs.v. *)

From S2P Require Import Prelude Io.

(** ** Messages *)

Definition MKID (a b c d : Z) : Z :=
  Z.lor (Z.lor a (Z.shiftl b 8)) (Z.lor (Z.shiftl c 16) (Z.shiftl d 24)).

Definition ID_STAT : Z := MKID 83 84 65 84.
Definition ID_LIST : Z := MKID 76 73 83 84.
Definition ID_SEND : Z := MKID 83 69 78 68.
Definition ID_RECV : Z := MKID 82 69 67 86.
Definition ID_DENT : Z := MKID 68 69 78 84.
Definition ID_DONE : Z := MKID 68 79 78 69.
Definition ID_DATA : Z := MKID 68 65 84 65.
Definition ID_OKAY : Z := MKID 79 75 65 89.
Definition ID_FAIL : Z := MKID 70 65 73 76.
Definition ID_QUIT : Z := MKID 81 85 73 84.

Definition SYNC_DATA_MAX : Z := 64 * 1024.

(** The layouts of the union [syncmsg], as its words; [ltohl] and [htoll] are
    the identity on the little endian targets. *)
Definition msg_req (id namelen : Z) : list Z := le32 id ++ le32 namelen.
Definition msg_data (id size : Z) : list Z := le32 id ++ le32 size.
Definition msg_status (id msglen : Z) : list Z := le32 id ++ le32 msglen.
Definition msg_stat (id mode size time : Z) : list Z :=
  le32 id ++ le32 mode ++ le32 size ++ le32 time.
Definition msg_dent (id mode size time namelen : Z) : list Z :=
  le32 id ++ le32 mode ++ le32 size ++ le32 time ++ le32 namelen.

(** The [i]-th word of a message read into memory. *)
Definition word (i : nat) (l : list Z) : Z := of_le (take 4 (drop (4 * i) l)).

(** ** Files *)

Record stat_t := mkStat { st_mode : Z; st_size : Z; st_mtime : Z }.

Definition S_IFMT : Z := 0xf000.
Definition S_ISLNK (m : Z) : bool := Z.land m S_IFMT =? 0xa000.
Definition S_ISREG (m : Z) : bool := Z.land m S_IFMT =? 0x8000.
Definition S_ISDIR (m : Z) : bool := Z.land m S_IFMT =? 0x4000.
Definition S_ISCHR (m : Z) : bool := Z.land m S_IFMT =? 0x2000.
Definition S_ISBLK (m : Z) : bool := Z.land m S_IFMT =? 0x6000.

(** A file open for writing: what it held when it was opened, what was written
    since, from its start, and the kernel's answers to come. *)
Record wfile := mkWf { wf_base : list Z; wf_wr : wrfd }.

(** What the file holds now. *)
Definition wf_contents (f : wfile) : list Z :=
  wr_out (wf_wr f) ++ drop (length (wr_out (wf_wr f))) (wf_base f).

Class FileSystem (FS : Type) := {
  fs_lstat : list Z -> FS -> option stat_t;
  fs_stat : list Z -> FS -> option stat_t;
  fs_readdir : list Z -> FS -> option (list (list Z));
  fs_readlink : list Z -> FS -> errno + list Z;
  fs_open_rd : list Z -> FS -> errno + rdfd;
  fs_lseek : list Z -> FS -> bool;                                  (* to the end of an open file and back *)
  fs_malloc : Z -> FS -> bool;                                      (* room for so many bytes *)
  fs_open_wr : list Z -> FS -> errno + wfile;                       (* O_WRONLY *)
  fs_open_excl : list Z -> Z -> FS -> (errno + wfile) * FS;        (* O_WRONLY | O_CREAT | O_EXCL *)
  fs_creat : list Z -> Z -> FS -> (errno + wfile) * FS;
  fs_store : list Z -> list Z -> FS -> FS;                          (* contents after a write *)
  fs_unlink : list Z -> FS -> FS;
  fs_mkdir : list Z -> Z -> FS -> option errno * FS;
  fs_symlink : list Z -> list Z -> FS -> option errno * FS;
  fs_utime : list Z -> Z -> FS -> FS
}.

(** [mkdir] of every proper prefix of the path that ends before a slash, from
    the one after the first byte; [pre] is what was scanned.  [true] is 0. *)
Fixpoint mkdirs_loop {FS} {fsys : FileSystem FS} (pre x : list Z) (fs : FS) : bool * FS :=
  match x with
  | [] => (true, fs)
  | b :: x' =>
      if b =? 47 then
        match fs_mkdir pre 0x1fd fs with
        | (None, fs') | (Some EEXIST, fs') => mkdirs_loop (pre ++ [b]) x' fs'
        | (Some _, fs') => (false, fs')
        end
      else mkdirs_loop (pre ++ [b]) x' fs
  end.

(** ** Connections *)

Section Conn.
Context {FS : Type} {fsys : FileSystem FS}.

(** One end of a sync connection: the descriptor's two directions, whether it
    was closed, the file system of that side, the transfer buffer of
    SYNC_DATA_MAX bytes and the client's byte counter. *)
Record conn := mkConn {
  c_in : rdfd;
  c_out : wrfd;
  c_closed : bool;
  c_fs : FS;
  c_buf : list Z;
  total_bytes : Z
}.

Definition set_in (i : rdfd) (c : conn) : conn :=
  mkConn i (c_out c) (c_closed c) (c_fs c) (c_buf c) (total_bytes c).
Definition set_out (o : wrfd) (c : conn) : conn :=
  mkConn (c_in c) o (c_closed c) (c_fs c) (c_buf c) (total_bytes c).
Definition set_fs (f : FS) (c : conn) : conn :=
  mkConn (c_in c) (c_out c) (c_closed c) f (c_buf c) (total_bytes c).
Definition set_buf (b : list Z) (c : conn) : conn :=
  mkConn (c_in c) (c_out c) (c_closed c) (c_fs c) b (total_bytes c).
Definition add_total (n : Z) (c : conn) : conn :=
  mkConn (c_in c) (c_out c) (c_closed c) (c_fs c) (c_buf c) (u32 (total_bytes c + n)).
Definition reset_total (c : conn) : conn :=
  mkConn (c_in c) (c_out c) (c_closed c) (c_fs c) (c_buf c) 0.
Definition set_closed (c : conn) : conn :=
  mkConn (c_in c) (c_out c) true (c_fs c) (c_buf c) (total_bytes c).

(** [readx] and [writex] on the connection; a closed descriptor is an error. *)
Definition c_readx (len : nat) : M conn (option (list Z)) :=
  fun c =>
  if c_closed c then Ok (None, c)
  else match readx len (c_in c) with
       | Ok (r, i) => Ok (r, set_in i c)
       | Err e => Err e
       end.

Definition c_writex (buf : list Z) : M conn bool :=
  fun c =>
  if c_closed c then Ok (false, c)
  else match writex buf (c_out c) with
       | Ok (r, o) => Ok (r, set_out o c)
       | Err e => Err e
       end.

Definition c_close : M conn unit := modify set_closed.

(** [readx] of [len] bytes into an array of [cap]: more than [cap] bytes arriving
    overrun it. *)
Definition c_readx_into (cap len : nat) : M conn (option (list Z)) :=
  if (len <=? cap)%nat then c_readx len
  else r <- c_readx (S cap) ;;
       match r with Some _ => fail EUndef | None => ret None end.

(** The same into the transfer buffer. *)
Definition c_readx_buf (len : nat) : M conn (option (list Z)) :=
  r <- c_readx_into (Z.to_nat SYNC_DATA_MAX) len ;;
  match r with
  | Some l => modify (fun c => set_buf (l ++ drop (length l) (c_buf c)) c) ;; ret (Some l)
  | None => ret None
  end.

Definition get_fs : M conn FS := c <- get ;; ret (c_fs c).

Definition with_fs {A} (f : FS -> A * FS) : M conn A :=
  fun c => let '(a, fs) := f (c_fs c) in Ok (a, set_fs fs c).

Definition unlink (path : list Z) : M conn unit := modify (fun c => set_fs (fs_unlink path (c_fs c)) c).

(** [writex] on an open file: the bytes reach the file as they are written. *)
Definition file_writex (path : list Z) (f : wfile) (buf : list Z) : M conn (bool * wfile) :=
  fun c =>
  match writex buf (wf_wr f) with
  | Ok (r, w) =>
      let f' := mkWf (wf_base f) w in
      Ok ((r, f'), set_fs (fs_store path (wf_contents f') (c_fs c)) c)
  | Err e => Err e
  end.

End Conn.

Arguments conn : clear implicits.
