(* ===== verification/SyncServer.v ===== *)
(** * The sync service of the device (file_sync_service.c)

    Each handler reads its part of the request from the connection, acts on the
    file system and writes its reply.  Results are the C return values. *)

From S2P Require Import Prelude Io SyncBase.

(** ** strtoul (bionic, 32-bit long) *)

Definition ULONG_MAX : Z := 0xffffffff.

Definition isupper (c : Z) : bool := (65 <=? c) && (c <=? 90).
Definition isalpha (c : Z) : bool := isupper c || ((97 <=? c) && (c <=? 122)).

(** The digit loop: accumulated value, [any], and whether [errno] was set. *)
Fixpoint strtoul_digits (base : Z) (s : list Z) (acc any : Z) (erange : bool) : Z * Z * bool :=
  match s with
  | [] => (acc, any, erange)
  | c :: s' =>
      let digit := if isdigit c then Some (c - 48)
                   else if isalpha c then Some (c - (if isupper c then 55 else 87))
                   else None in
      match digit with
      | None => (acc, any, erange)
      | Some d =>
          if base <=? d then (acc, any, erange)
          else if any <? 0 then strtoul_digits base s' acc any erange
          else if (ULONG_MAX / base <? acc) || ((acc =? ULONG_MAX / base) && (ULONG_MAX mod base <? d))
               then strtoul_digits base s' ULONG_MAX (-1) true
               else strtoul_digits base s' (u32 (u32 (acc * base) + d)) 1 erange
      end
  end.

(** The base a prefix selects, and the digits after it. *)
Definition strtoul_base (s : list Z) : Z * list Z :=
  match s with
  | c :: s' =>
      if c =? 48 then
        match s' with
        | x :: s'' => if (x =? 120) || (x =? 88) then (16, s'') else (8, s)
        | [] => (8, s)
        end
      else (10, s)
  | [] => (10, s)
  end.

(** [strtoul(s, NULL, 0)]: the value and whether [errno] became ERANGE. *)
Definition strtoul0 (s : list Z) : Z * bool :=
  let s := skip_space s in
  let '(neg, s) := match s with
                   | c :: s' => if c =? 45 then (true, s') else if c =? 43 then (false, s') else (false, s)
                   | [] => (false, [])
                   end in
  let '(base, s) := strtoul_base s in
  let '(acc, any, er) := strtoul_digits base s 0 0 false in
  (if neg && (0 <? any) then u32 (- acc) else acc, er).

(** ** Handlers *)

Section Server.
Context {FS : Type} {fsys : FileSystem FS}.
(** The text of an error number; [None] is whatever [errno] held. *)
Context (strerror : option errno -> list Z).

Definition mkdirs (name : list Z) (fs : FS) : bool * FS :=
  match name with
  | b :: x => if b =? 47 then mkdirs_loop [b] x fs else (false, fs)
  | [] => (false, fs)
  end.

Definition do_stat (path : list Z) : M (conn FS) Z :=
  fs <- get_fs ;;
  r <- c_writex (match fs_lstat path fs with
                 | None => msg_stat ID_STAT 0 0 0
                 | Some st => msg_stat ID_STAT (u32 (st_mode st)) (u32 (st_size st)) (u32 (st_mtime st))
                 end) ;;
  ret (if r then 0 else -1).

(** The array [tmp] of [do_list]. *)
Definition LIST_TMP : nat := 1024 + 256 + 1.

(** The [readdir] loop; [false] is the early [return -1]. *)
Fixpoint list_entries (path : list Z) (names : list (list Z)) : M (conn FS) bool :=
  match names with
  | [] => ret true
  | name :: names' =>
      if (256 <? length name)%nat then list_entries path names'
      else if (LIST_TMP <? length path + 1 + length name + 1)%nat then fail EUndef
      else
        fs <- get_fs ;;
        match fs_lstat (path ++ [47] ++ name) fs with
        | None => list_entries path names'
        | Some st =>
            r <- c_writex (msg_dent ID_DENT (u32 (st_mode st)) (u32 (st_size st)) (u32 (st_mtime st))
                             (Z.of_nat (length name))) ;;
            if negb r then ret false
            else
              r <- c_writex name ;;
              if negb r then ret false else list_entries path names'
        end
  end.

Definition do_list (path : list Z) : M (conn FS) Z :=
  if (LIST_TMP <? length path + 1)%nat then fail EUndef
  else
    fs <- get_fs ;;
    ok <- match fs_readdir path fs with
          | None => ret true
          | Some names => list_entries path names
          end ;;
    if negb ok then ret (-1)
    else
      r <- c_writex (msg_dent ID_DONE 0 0 0 0) ;;
      ret (if r then 0 else -1).

Definition fail_message (reason : list Z) : M (conn FS) Z :=
  r <- c_writex (msg_data ID_FAIL (Z.of_nat (length reason))) ;;
  if negb r then ret (-1)
  else
    r <- c_writex reason ;;
    ret (if r then 0 else -1).

Definition fail_errno (e : option errno) : M (conn FS) Z := fail_message (strerror e).

(** The three attempts to open the destination. *)
Definition open_for_send (path : list Z) (mode : Z) (fs : FS) : (errno + wfile) * FS :=
  let '(r, fs) := fs_open_excl path mode fs in
  let '(r, fs) := match r with
                  | inl ENOENT => fs_open_excl path mode (mkdirs path fs).2
                  | _ => (r, fs)
                  end in
  match r with
  | inl EEXIST => (fs_open_wr path fs, fs)
  | _ => (r, fs)
  end.

(** How the data loop ends: at ID_DONE, at the label [fail], or by a return. *)
Inductive send_exit :=
| SendDone (fd : option wfile) (timestamp : Z)
| SendFail
| SendReturn.

Fixpoint send_file_loop (fuel : nat) (path : list Z) (fd : option wfile) : M (conn FS) send_exit :=
  match fuel with
  | O => fail EFuel
  | S f =>
      r <- c_readx 8 ;;
      match r with
      | None => ret SendFail
      | Some m =>
          if negb (word 0 m =? ID_DATA) then
            if word 0 m =? ID_DONE then ret (SendDone fd (word 1 m))
            else fail_message (bs "invalid data message") ;; ret SendFail
          else
            let len := word 1 m in
            if SYNC_DATA_MAX <? len then
              fail_message (bs "oversize data message") ;; ret SendFail
            else
              d <- c_readx_buf (Z.to_nat len) ;;
              match d with
              | None => ret SendFail
              | Some data =>
                  match fd with
                  | None => send_file_loop f path None
                  | Some w =>
                      r <- file_writex path w data ;;
                      let '(ok, w') := r in
                      if ok then send_file_loop f path (Some w')
                      else
                        unlink path ;;
                        e <- fail_errno None ;;
                        if e =? 0 then send_file_loop f path None else ret SendReturn
                  end
              end
      end
  end.

Definition handle_send_file (path : list Z) (mode : Z) : M (conn FS) Z :=
  r <- with_fs (open_for_send path mode) ;;
  fd <- match r with
        | inl e => x <- fail_errno (Some e) ;; ret (if x =? 0 then Some None else None)
        | inr w => ret (Some (Some w))
        end ;;
  match fd with
  | None => ret (-1)
  | Some fd =>
      c <- get ;;
      x <- send_file_loop (S (length (rd_data (c_in c)))) path fd ;;
      match x with
      | SendDone None _ => ret 0
      | SendDone (Some _) timestamp =>
          modify (fun c => set_fs (fs_utime path timestamp (c_fs c)) c) ;;
          r <- c_writex (msg_status ID_OKAY 0) ;;
          ret (if r then 0 else -1)
      | SendFail => unlink path ;; ret (-1)
      | SendReturn => ret (-1)
      end
  end.

(** The string [buffer] holds for [symlink]. *)
Definition buffer_cstr (c : conn FS) : option (list Z) :=
  if decide (0 ∈ c_buf c) then Some (cstr (c_buf c)) else None.

Definition handle_send_link (path : list Z) : M (conn FS) Z :=
  r <- c_readx 8 ;;
  match r with
  | None => ret (-1)
  | Some m =>
      if negb (word 0 m =? ID_DATA) then
        fail_message (bs "invalid data message: expected ID_DATA") ;; ret (-1)
      else if SYNC_DATA_MAX <? word 1 m then
        fail_message (bs "oversize data message") ;; ret (-1)
      else
        d <- c_readx_buf (Z.to_nat (word 1 m)) ;;
        match d with
        | None => ret (-1)
        | Some _ =>
            c <- get ;;
            target <- deref (buffer_cstr c) ;;
            r <- with_fs (fs_symlink target path) ;;
            r <- match r with
                 | Some ENOENT => with_fs (mkdirs path) ;; with_fs (fs_symlink target path)
                 | _ => ret r
                 end ;;
            match r with
            | Some e => fail_errno (Some e) ;; ret (-1)
            | None =>
                r <- c_readx 8 ;;
                match r with
                | None => ret (-1)
                | Some m =>
                    if word 0 m =? ID_DONE then
                      r <- c_writex (msg_status ID_OKAY 0) ;;
                      ret (if r then 0 else -1)
                    else
                      fail_message (bs "invalid data message: expected ID_DONE") ;; ret (-1)
                end
            end
        end
  end.

(** Path, mode and whether a link is sent, from the request's name. *)
Definition parse_send (path : list Z) : list Z * Z * bool :=
  match strrchr 44 path with
  | None => (path, 0x1a4, false)
  | Some (p, m) =>
      let '(v, er) := strtoul0 m in
      let mode := Z.land v 0xffff in
      if er then (p, 0x1a4, false) else (p, Z.land mode 0x1ff, S_ISLNK mode)
  end.

Definition do_send (name : list Z) : M (conn FS) Z :=
  let '(path, mode, is_link) := parse_send name in
  unlink path ;;
  if is_link then handle_send_link path
  else
    let mode := Z.lor mode (Z.land (Z.shiftr mode 3) 0x38) in
    let mode := Z.lor mode (Z.land (Z.shiftr mode 3) 0x7) in
    handle_send_file path mode.

(** The loop of [do_recv] over an open file. *)
Fixpoint recv_loop (fuel : nat) (f : rdfd) : M (conn FS) Z :=
  match fuel with
  | O => fail EFuel
  | S n =>
      match adb_read (Z.to_nat SYNC_DATA_MAX) f with
      | (Got [], _) =>
          r <- c_writex (msg_data ID_DONE 0) ;;
          ret (if r then 0 else -1)
      | (Failed EINTR, f') => recv_loop n f'
      | (Failed e, _) => fail_errno (Some e)
      | (Got data, f') =>
          modify (fun c => set_buf (data ++ drop (length data) (c_buf c)) c) ;;
          r <- c_writex (msg_data ID_DATA (Z.of_nat (length data))) ;;
          if negb r then ret (-1)
          else
            r <- c_writex data ;;
            if negb r then ret (-1) else recv_loop n f'
      end
  end.

Definition do_recv (path : list Z) : M (conn FS) Z :=
  fs <- get_fs ;;
  match fs_open_rd path fs with
  | inl e => x <- fail_errno (Some e) ;; ret (if x =? 0 then 0 else -1)
  | inr f => recv_loop (S (length (rd_data f) + length (rd_script f))) f
  end.

(** The commands with a handler. *)
Definition sync_command (id : Z) (name : list Z) : option (M (conn FS) Z) :=
  if id =? ID_STAT then Some (do_stat name)
  else if id =? ID_LIST then Some (do_list name)
  else if id =? ID_SEND then Some (do_send name)
  else if id =? ID_RECV then Some (do_recv name)
  else None.

(** The command loop; it ends by closing the connection. *)
Fixpoint service_loop (fuel : nat) : M (conn FS) unit :=
  match fuel with
  | O => fail EFuel
  | S f =>
      r <- c_readx 8 ;;
      match r with
      | None => fail_message (bs "command read failure") ;; c_close
      | Some m =>
          let id := word 0 m in
          let namelen := word 1 m in
          if 1024 <? namelen then fail_message (bs "invalid namelen") ;; c_close
          else
            n <- c_readx (Z.to_nat namelen) ;;
            match n with
            | None => fail_message (bs "filename read failure") ;; c_close
            | Some name =>
                match sync_command id (cstr name) with
                | Some handler => x <- handler ;; if x =? 0 then service_loop f else c_close
                | None =>
                    if id =? ID_QUIT then c_close
                    else fail_message (bs "unknown command") ;; c_close
                end
            end
      end
  end.

Definition file_sync_service : M (conn FS) unit :=
  c <- get ;; service_loop (S (length (rd_data (c_in c)))).

End Server.
