(* ===== verification/SyncClient.v ===== *)
(** * The sync client of the host (file_sync_client.c)

    [sync_ls], [sync_send], [sync_recv] and the directory copies of
    [adb push], [adb pull], [adb sync] and [adb link].  Results are the C return
    values; messages to the terminal are not modelled. *)

From S2P Require Import Prelude Io Zip SyncBase.

(** A directory entry as [sync_ls] passes it to its callback. *)
Record dent := mkDent { de_mode : Z; de_size : Z; de_time : Z; de_name : list Z }.

Record copyinfo := mkCi {
  ci_src : list Z;
  ci_dst : list Z;
  ci_time : Z;
  ci_mode : Z;
  ci_size : Z;
  ci_flag : bool
}.

Definition PATH_MAX : nat := 4096.

(** [mkcopyinfo]: the two buffers have room for two bytes more than the path and
    the name. *)
Definition mkcopyinfo (spath dpath name : list Z) (isdir : bool) : copyinfo :=
  let tail := if isdir then name ++ [47] else name in
  mkCi (snprintf (length spath + length name + 2) (spath ++ tail))
       (snprintf (length dpath + length name + 2) (dpath ++ tail)) 0 0 0 false.

Definition set_info (time mode size : Z) (ci : copyinfo) : copyinfo :=
  mkCi (ci_src ci) (ci_dst ci) time mode size (ci_flag ci).
Definition set_flag (ci : copyinfo) : copyinfo :=
  mkCi (ci_src ci) (ci_dst ci) (ci_time ci) (ci_mode ci) (ci_size ci) true.

(** "." and "..". *)
Definition is_dots (name : list Z) : bool :=
  match name with
  | [46] | [46; 46] => true
  | _ => false
  end.

(** The decision of [copy_local_dir_remote] not to send a file, from the answer
    to its stat request. *)
Definition unchanged (ci : copyinfo) (time mode size : Z) : bool :=
  (size =? ci_size ci) &&
  ((S_ISREG (Z.land (ci_mode ci) mode) && (time =? ci_time ci)) ||
   (S_ISLNK (Z.land (ci_mode ci) mode) && (ci_time ci <=? time))).

(** The same of [copy_local_dir_remote2], which also skips what is not newer. *)
Definition unchanged2 (ci : copyinfo) (time mode size : Z) : bool :=
  unchanged ci time mode size || (ci_time ci <=? time).

(** A path with a slash at its end. *)
Definition slashed (path : list Z) : list Z :=
  match rev path with
  | b :: _ => if b =? 47 then path else path ++ [47]
  | [] => path ++ [47]
  end.

(** [localfilename]: what follows the last slash. *)
Definition basename (path : list Z) : list Z :=
  match strrchr 47 path with Some (_, n) => n | None => path end.

Section Client.
Context {FS : Type} {fsys : FileSystem FS}.

Definition BEGIN : M (conn FS) unit := modify reset_total.

Definition sync_quit : M (conn FS) unit :=
  c_writex (msg_req ID_QUIT 0) ;; ret tt.

(** Send a request with a path; [false] is an error. *)
Definition send_req (id : Z) (path : list Z) : M (conn FS) bool :=
  r <- c_writex (msg_req id (Z.of_nat (length path))) ;;
  if negb r then ret false else c_writex path.

Fixpoint ls_loop (fuel : nat) (acc : list dent) : M (conn FS) (Z * list dent) :=
  match fuel with
  | O => fail EFuel
  | S f =>
      r <- c_readx 20 ;;
      match r with
      | None => c_close ;; ret (-1, acc)
      | Some m =>
          if word 0 m =? ID_DONE then ret (0, acc)
          else if negb (word 0 m =? ID_DENT) then c_close ;; ret (-1, acc)
          else
            let len := s32 (word 4 m) in
            if 256 <? len then c_close ;; ret (-1, acc)
            else
              b <- c_readx_into 257 (Z.to_nat (u32 len)) ;;
              match b with
              | None => c_close ;; ret (-1, acc)
              | Some nb => ls_loop f (acc ++ [mkDent (word 1 m) (word 2 m) (word 3 m) (cstr nb)])
              end
      end
  end.

(** The entries are those the callback was called with, in order. *)
Definition sync_ls (path : list Z) : M (conn FS) (Z * list dent) :=
  if (1024 <? length path)%nat then c_close ;; ret (-1, [])
  else
    r <- send_req ID_LIST path ;;
    if negb r then c_close ;; ret (-1, [])
    else c <- get ;; ls_loop (S (length (rd_data (c_in c)))) [].

(** The three readers of a stat reply: time, mode and size. *)
Definition read_stat : M (conn FS) (option (Z * Z * Z)) :=
  r <- c_readx 16 ;;
  match r with
  | None => ret None
  | Some m => ret (if word 0 m =? ID_STAT then Some (word 3 m, word 1 m, word 2 m) else None)
  end.

Definition sync_readtime (path : list Z) : M (conn FS) (option Z) :=
  r <- send_req ID_STAT path ;;
  if negb r then ret None
  else s <- read_stat ;; ret ((fun '(t, _, _) => t) <$> s).

Definition sync_start_readtime (path : list Z) : M (conn FS) bool := send_req ID_STAT path.

Definition sync_finish_readtime : M (conn FS) (option (Z * Z * Z)) := read_stat.

Definition sync_readmode (path : list Z) : M (conn FS) (option Z) :=
  r <- send_req ID_STAT path ;;
  if negb r then ret None
  else s <- read_stat ;; ret ((fun '(_, m, _) => m) <$> s).

(** ** Sending *)

(** One chunk from the transfer buffer, header included. *)
Definition send_chunk (data : list Z) : M (conn FS) bool :=
  modify (fun c => set_buf (data ++ drop (length data) (c_buf c)) c) ;;
  c_writex (msg_data ID_DATA (Z.of_nat (length data)) ++ data).

Fixpoint data_file_loop (fuel : nat) (f : rdfd) : M (conn FS) Z :=
  match fuel with
  | O => fail EFuel
  | S n =>
      match adb_read (Z.to_nat SYNC_DATA_MAX) f with
      | (Got [], _) => ret 0
      | (Failed EINTR, f') => data_file_loop n f'
      | (Failed _, _) => ret 0
      | (Got data, f') =>
          r <- send_chunk data ;;
          if negb r then ret (-1)
          else modify (add_total (Z.of_nat (length data))) ;; data_file_loop n f'
      end
  end.

Definition write_data_file (path : list Z) : M (conn FS) Z :=
  fs <- get_fs ;;
  match fs_open_rd path fs with
  | inl _ => ret (-1)
  | inr f => data_file_loop (S (length (rd_data f) + length (rd_script f))) f
  end.

Fixpoint data_buffer_loop (fuel : nat) (rest : list Z) : M (conn FS) Z :=
  match rest with
  | [] => ret 0
  | _ =>
      match fuel with
      | O => fail EFuel
      | S n =>
          let data := take (Z.to_nat SYNC_DATA_MAX) rest in
          r <- send_chunk data ;;
          if negb r then ret (-1)
          else modify (add_total (Z.of_nat (length data))) ;;
               data_buffer_loop n (drop (Z.to_nat SYNC_DATA_MAX) rest)
      end
  end.

Definition write_data_buffer (file_buffer : list Z) : M (conn FS) Z :=
  data_buffer_loop (length file_buffer) file_buffer.

Definition write_data_link (path : list Z) : M (conn FS) Z :=
  fs <- get_fs ;;
  match fs_readlink path fs with
  | inl _ => ret (-1)
  | inr target =>
      let data := take (Z.to_nat SYNC_DATA_MAX - 1) target ++ [0] in
      r <- send_chunk data ;;
      if negb r then ret (-1)
      else modify (add_total (Z.of_nat (length data))) ;; ret 0
  end.

(** The whole file read for the package check: [inr] the contents, [inl] the
    return value.  [size] is an [int]; a file that is larger is not modelled. *)
Definition load_apk (lpath : list Z) : M (conn FS) (Z + list Z) :=
  fs <- get_fs ;;
  match fs_open_rd lpath fs with
  | inl _ => ret (inl (-1))
  | inr f =>
      let size := Z.of_nat (length (rd_data f)) in
      if 2147483648 <=? size then fail EUndef
      else if negb (fs_lseek lpath fs) || negb (fs_malloc size fs) then ret (inl 1)
      else
        match adb_read (Z.to_nat size) f with
        | (Got l, _) =>
            if negb (Z.of_nat (length l) =? size) then ret (inl 1)
            else match verify_apk l with
                 | Ok found => ret (if found then inr l else inl 1)
                 | Err e => fail e
                 end
        | (Failed _, _) => ret (inl 1)
        end
  end.

(** The failure label of [sync_send]. *)
Definition protocol_failure : M (conn FS) Z := c_close ;; ret (-1).

(** From the ID_DONE message on. *)
Definition send_finish (mtime : Z) : M (conn FS) Z :=
  r <- c_writex (msg_data ID_DONE mtime) ;;
  if negb r then protocol_failure
  else
    s <- c_readx 8 ;;
    match s with
    | None => ret (-1)
    | Some m =>
        if word 0 m =? ID_OKAY then ret 0
        else if word 0 m =? ID_FAIL then
          let len := s32 (word 1 m) in
          let len := if 256 <? len then 256 else len in
          c_readx_buf (Z.to_nat (u32 len)) ;; ret (-1)
        else ret (-1)
    end.

Definition sync_send (lpath rpath : list Z) (mtime mode : Z) (verifyApk : bool) : M (conn FS) Z :=
  if (1024 <? length rpath)%nat then protocol_failure
  else
    let tmp := snprintf 64 (44 :: fmt_d (s32 mode)) in
    apk <- (if verifyApk then x <- load_apk lpath ;; ret (Some x) else ret None) ;;
    match apk with
    | Some (inl code) => ret code
    | _ =>
        r <- c_writex (msg_req ID_SEND (Z.of_nat (length rpath + length tmp))) ;;
        r <- (if r then c_writex rpath else ret false) ;;
        r <- (if r then c_writex tmp else ret false) ;;
        if negb r then protocol_failure
        else
          match apk with
          | Some (inr buf) => write_data_buffer buf ;; send_finish mtime
          | _ =>
              if S_ISREG mode then write_data_file lpath ;; send_finish mtime
              else if S_ISLNK mode then write_data_link lpath ;; send_finish mtime
              else protocol_failure
          end
    end.

(** ** Receiving *)

(** The path must not be empty: the scan starts after its first byte. *)
Definition mkdirs (name : list Z) : M (conn FS) bool :=
  match name with
  | b :: x => with_fs (mkdirs_loop [b] x)
  | [] => fail EUndef
  end.

(** The label [remote_error], for a message [m]. *)
Definition recv_error (lpath : list Z) (m : list Z) : M (conn FS) Z :=
  unlink lpath ;;
  if word 0 m =? ID_FAIL then
    let len := s32 (word 1 m) in
    let len := if 256 <? len then 256 else len in
    r <- c_readx_buf (Z.to_nat (u32 len)) ;;
    ret (match r with None => -1 | Some _ => 0 end)
  else ret 0.

(** From the label [handle_data] on, with the message just read. *)
Fixpoint handle_data (fuel : nat) (lpath : list Z) (lfd : wfile) (m : list Z) : M (conn FS) Z :=
  match fuel with
  | O => fail EFuel
  | S f =>
      let len := s32 (word 1 m) in
      if word 0 m =? ID_DONE then ret 0
      else if negb (word 0 m =? ID_DATA) then recv_error lpath m
      else if SYNC_DATA_MAX <? len then ret (-1)
      else
        d <- c_readx_buf (Z.to_nat (u32 len)) ;;
        match d with
        | None => ret (-1)
        | Some data =>
            r <- file_writex lpath lfd data ;;
            let '(ok, lfd') := r in
            if negb ok then ret (-1)
            else
              modify (add_total len) ;;
              h <- c_readx 8 ;;
              match h with
              | None => ret (-1)
              | Some m' => handle_data f lpath lfd' m'
              end
        end
  end.

Definition sync_recv (rpath lpath : list Z) : M (conn FS) Z :=
  if (1024 <? length rpath)%nat then ret (-1)
  else
    r <- send_req ID_RECV rpath ;;
    if negb r then ret (-1)
    else
      h <- c_readx 8 ;;
      match h with
      | None => ret (-1)
      | Some m =>
          if (word 0 m =? ID_DATA) || (word 0 m =? ID_DONE) then
            unlink lpath ;;
            mkdirs lpath ;;
            r <- with_fs (fs_creat lpath 0x1a4) ;;
            match r with
            | inl _ => ret (-1)
            | inr lfd =>
                c <- get ;;
                handle_data (S (length (rd_data (c_in c)))) lpath lfd m
            end
          else recv_error lpath m
      end.

(** ** Directory trees *)

(** The [readdir] loop of [local_build_list]: [st] is the local variable, not
    initialised at first and kept from entry to entry; the lists grow at the
    front.  The last component is false for the return of -1. *)
Fixpoint scan_dir (lpath rpath : list Z) (names : list (list Z)) (st : option stat_t)
    (filelist dirlist : list copyinfo) : M (conn FS) (list copyinfo * list copyinfo * bool) :=
  match names with
  | [] => ret (filelist, dirlist, true)
  | name :: names' =>
      if is_dots name then scan_dir lpath rpath names' st filelist dirlist
      else if (PATH_MAX <? length lpath + length name + 1)%nat
           then scan_dir lpath rpath names' st filelist dirlist
      else
        fs <- get_fs ;;
        let st := match fs_stat (lpath ++ name) fs with Some s => Some s | None => st end in
        s <- deref st ;;
        if S_ISDIR (st_mode s) then
          scan_dir lpath rpath names' st filelist (mkcopyinfo lpath rpath name true :: dirlist)
        else
          let ci := mkcopyinfo lpath rpath name false in
          match fs_lstat (ci_src ci) fs with
          | None => ret (filelist, dirlist, false)
          | Some s =>
              if negb (S_ISREG (st_mode s)) && negb (S_ISLNK (st_mode s))
              then scan_dir lpath rpath names' (Some s) filelist dirlist
              else scan_dir lpath rpath names' (Some s)
                     (set_info (u32 (st_mtime s)) (u32 (st_mode s)) (u32 (st_size s)) ci :: filelist)
                     dirlist
          end
  end.

(** The result is the list and the return value; the results of the recursive
    calls are ignored, their files are not. *)
Fixpoint local_build_list (fuel : nat) (filelist : list copyinfo) (lpath rpath : list Z) :
    M (conn FS) (list copyinfo * bool) :=
  match fuel with
  | O => fail EFuel
  | S n =>
      fs <- get_fs ;;
      match fs_readdir lpath fs with
      | None => ret (filelist, false)
      | Some names =>
          r <- scan_dir lpath rpath names None filelist [] ;;
          let '(files, dirs, ok) := r in
          if negb ok then ret (files, false)
          else
              files <- (fix go (ds : list copyinfo) (acc : list copyinfo) : M (conn FS) (list copyinfo) :=
                          match ds with
                          | [] => ret acc
                          | d :: ds' =>
                              x <- local_build_list n acc (ci_src d) (ci_dst d) ;;
                              go ds' x.1
                          end) dirs files ;;
              ret (files, true)
      end
  end.

(** Depth enough for every tree: a path longer than PATH_MAX is not entered. *)
Definition build_list (lpath rpath : list Z) : M (conn FS) (list copyinfo * bool) :=
  local_build_list (S PATH_MAX) [] lpath rpath.

(** Stat requests for all files, then their answers, in order. *)
Fixpoint start_readtimes (l : list copyinfo) : M (conn FS) bool :=
  match l with
  | [] => ret true
  | ci :: l' =>
      r <- sync_start_readtime (ci_dst ci) ;;
      if negb r then ret false else start_readtimes l'
  end.

Fixpoint finish_readtimes (skip : copyinfo -> Z -> Z -> Z -> bool) (l : list copyinfo) :
    M (conn FS) (option (list copyinfo)) :=
  match l with
  | [] => ret (Some [])
  | ci :: l' =>
      s <- sync_finish_readtime ;;
      match s with
      | None => ret None
      | Some (time, mode, size) =>
          let ci := if skip ci time mode size then set_flag ci else ci in
          rest <- finish_readtimes skip l' ;;
          ret (cons ci <$> rest)
      end
  end.

(** [sync_send] of the files not marked; [false] is the return of 1. *)
Fixpoint push_all (l : list copyinfo) : M (conn FS) bool :=
  match l with
  | [] => ret true
  | ci :: l' =>
      if ci_flag ci then push_all l'
      else
        r <- sync_send (ci_src ci) (ci_dst ci) (ci_time ci) (ci_mode ci) false ;;
        if r =? 0 then push_all l' else ret false
  end.

Fixpoint pull_all (l : list copyinfo) : M (conn FS) bool :=
  match l with
  | [] => ret true
  | ci :: l' =>
      if ci_flag ci then pull_all l'
      else
        r <- sync_recv (ci_src ci) (ci_dst ci) ;;
        if r =? 0 then pull_all l' else ret false
  end.

(** The body of [copy_local_dir_remote] and [copy_local_dir_remote2], which
    differ in the decision to skip a file. *)
Definition copy_local_dir (skip : copyinfo -> Z -> Z -> Z -> bool) (lpath rpath : list Z)
    (checktimestamps : bool) : M (conn FS) Z :=
  if bool_decide (lpath = []) || bool_decide (rpath = []) then ret (-1)
  else
    let lpath := slashed lpath in
    let rpath := slashed rpath in
    b <- build_list lpath rpath ;;
    let '(filelist, ok) := b in
    if negb ok then ret (-1)
    else
      l <- (if checktimestamps then
              r <- start_readtimes filelist ;;
              if negb r then ret None else finish_readtimes skip filelist
            else ret (Some filelist)) ;;
      match l with
      | None => ret 1
      | Some filelist => r <- push_all filelist ;; ret (if r then 0 else 1)
      end.

Definition copy_local_dir_remote := copy_local_dir unchanged.
Definition copy_local_dir_remote2 := copy_local_dir unchanged2.

Definition do_sync_push (connected : bool) (lpath rpath : list Z) (verifyApk : bool) : M (conn FS) Z :=
  if negb connected then ret 1
  else
    fs <- get_fs ;;
    match fs_stat lpath fs with
    | None => sync_quit ;; ret 1
    | Some st =>
        if S_ISDIR (st_mode st) then
          BEGIN ;; r <- copy_local_dir_remote lpath rpath false ;;
          if r =? 0 then sync_quit ;; ret 0 else ret 1
        else
          m <- sync_readmode rpath ;;
          match m with
          | None => ret 1
          | Some mode =>
              let rpath := if negb (mode =? 0) && S_ISDIR mode
                           then rpath ++ [47] ++ basename lpath else rpath in
              BEGIN ;; r <- sync_send lpath rpath (u32 (st_mtime st)) (u32 (st_mode st)) verifyApk ;;
              if r =? 0 then sync_quit ;; ret 0 else ret 1
          end
    end.

(** The callback of the remote listing, on the two lists. *)
Definition ls_build_list_cb (rpath lpath : list Z) (d : dent) (lists : list copyinfo * list copyinfo) :
    list copyinfo * list copyinfo :=
  let '(filelist, dirlist) := lists in
  if S_ISDIR (de_mode d) then
    if is_dots (de_name d) then lists
    else (filelist, mkcopyinfo rpath lpath (de_name d) true :: dirlist)
  else if S_ISREG (de_mode d) || S_ISLNK (de_mode d) then
    (set_info (de_time d) (de_mode d) (de_size d) (mkcopyinfo rpath lpath (de_name d) false) :: filelist,
     dirlist)
  else lists.

Fixpoint remote_build_list (fuel : nat) (filelist : list copyinfo) (rpath lpath : list Z) :
    M (conn FS) (option (list copyinfo)) :=
  match fuel with
  | O => fail EFuel
  | S n =>
      r <- sync_ls rpath ;;
      let '(code, ds) := r in
      if negb (code =? 0) then ret None
      else
        let '(files, dirs) := fold_left (fun ls d => ls_build_list_cb rpath lpath d ls) ds (filelist, []) in
        (fix go (dl : list copyinfo) (acc : list copyinfo) : M (conn FS) (option (list copyinfo)) :=
           match dl with
           | [] => ret (Some acc)
           | d :: dl' =>
               x <- remote_build_list n acc (ci_src d) (ci_dst d) ;;
               match x with
               | None => ret None
               | Some acc' => go dl' acc'
               end
           end) dirs files
  end.

(** Depth enough: a path longer than 1024 bytes is not listed. *)
Definition build_remote_list (rpath lpath : list Z) : M (conn FS) (option (list copyinfo)) :=
  remote_build_list 1026 [] rpath lpath.

(** Mark the files whose local copy is not older ([copy_remote_dir_local2]). *)
Definition mark_not_newer (fs : FS) (ci : copyinfo) : copyinfo :=
  let mtime := match fs_lstat (ci_dst ci) fs with Some st => u32 (st_mtime st) | None => 0 end in
  if ci_time ci <=? mtime then set_flag ci else ci.

Definition copy_remote_dir (mark : bool) (rpath lpath : list Z) : M (conn FS) Z :=
  if bool_decide (rpath = []) || bool_decide (lpath = []) then ret (-1)
  else
    let rpath := slashed rpath in
    let lpath := slashed lpath in
    b <- build_remote_list rpath lpath ;;
    match b with
    | None => ret (-1)
    | Some filelist =>
        fs <- get_fs ;;
        let filelist := if mark then mark_not_newer fs <$> filelist else filelist in
        r <- pull_all filelist ;;
        ret (if r then 0 else 1)
    end.

(** [copy_remote_dir_local] ignores its last argument. *)
Definition copy_remote_dir_local (rpath lpath : list Z) (_ : bool) := copy_remote_dir false rpath lpath.
Definition copy_remote_dir_local2 (rpath lpath : list Z) (checktimestamps : bool) :=
  copy_remote_dir checktimestamps rpath lpath.

Definition do_sync_pull (connected : bool) (rpath lpath : list Z) : M (conn FS) Z :=
  if negb connected then ret 1
  else
    m <- sync_readmode rpath ;;
    match m with
    | None => ret 1
    | Some mode =>
        if mode =? 0 then ret 1
        else if S_ISREG mode || S_ISCHR mode || S_ISBLK mode then
          fs <- get_fs ;;
          let lpath := match fs_stat lpath fs with
                       | Some st => if S_ISDIR (st_mode st) then lpath ++ [47] ++ basename rpath else lpath
                       | None => lpath
                       end in
          BEGIN ;; r <- sync_recv rpath lpath ;;
          if r =? 0 then sync_quit ;; ret 0 else ret 1
        else if S_ISDIR mode then
          BEGIN ;; r <- copy_remote_dir_local rpath lpath false ;;
          if r =? 0 then sync_quit ;; ret 0 else ret 1
        else ret 1
    end.

Definition do_sync_sync (connected : bool) (lpath rpath : list Z) : M (conn FS) Z :=
  if negb connected then ret 1
  else
    BEGIN ;; r <- copy_local_dir_remote lpath rpath true ;;
    if r =? 0 then sync_quit ;; ret 0 else ret 1.

Definition do_sync_ls (connected : bool) (path : list Z) : M (conn FS) (Z * list dent) :=
  if negb connected then ret (1, [])
  else
    r <- sync_ls path ;;
    if r.1 =? 0 then sync_quit ;; ret (0, r.2) else ret (1, r.2).

(** ADBLink's two-way synchronisation: push what is newer here, then pull what
    is newer there. *)
Definition do_link (connected : bool) (lpath rpath : list Z) : M (conn FS) Z :=
  if negb connected then ret 1
  else
    BEGIN ;; r <- copy_local_dir_remote2 lpath rpath true ;;
    if negb (r =? 0) then ret 1
    else
      BEGIN ;; r <- copy_remote_dir_local2 rpath lpath true ;;
      if r =? 0 then sync_quit ;; ret 0 else ret 1.

End Client.
