(* ===== verification/SyncFs.v ===== *)
(** * What the sync programs rely on in the file system

    [FsLaws] states the documented behaviour of the calls of [FileSystem]:
    opening with O_EXCL or [creat] gives an empty regular file, writes determine
    the contents, [utime] sets the modification time and leaves the contents.
    [MemFs] is a file system in memory that has these properties. *)

From S2P Require Import Prelude Io SyncBase.

Definition regular {FS} {fsys : FileSystem FS} (p : list Z) (fs : FS) : Prop :=
  exists st, fs_lstat p fs = Some st /\ S_ISREG (st_mode st) = true.

(** [fs_contents]: what the file a path names contains, permissions aside;
    [apart p q]: operations on the file named [p] do not concern [q].  The law of
    [fs_utime] is that of a process that owns the file, as the service and the
    client own what they have just created: for it the call succeeds.  Neither
    program looks at the result. *)
Class FsLaws (FS : Type) {fsys : FileSystem FS} := {
  fs_contents : list Z -> FS -> option (list Z);
  apart : list Z -> list Z -> Prop;
  law_open_rd p fs r : fs_open_rd p fs = inr r -> fs_contents p fs = Some (rd_data r);
  law_open_wr p fs w : fs_open_wr p fs = inr w ->
    fs_contents p fs = Some (wf_base w) /\ wr_out (wf_wr w) = [];
  law_open_excl p m fs w fs' : fs_open_excl p m fs = (inr w, fs') ->
    fs_contents p fs' = Some [] /\ regular p fs' /\ wf_base w = [] /\ wr_out (wf_wr w) = [];
  law_creat p m fs w fs' : fs_creat p m fs = (inr w, fs') ->
    fs_contents p fs' = Some [] /\ wf_base w = [] /\ wr_out (wf_wr w) = [];
  law_store p d d' fs : fs_contents p fs = Some d -> fs_contents p (fs_store p d' fs) = Some d';
  law_store_regular p d fs : regular p fs -> regular p (fs_store p d fs);
  law_utime p t d fs : fs_contents p fs = Some d -> fs_contents p (fs_utime p t fs) = Some d;
  law_utime_time p t fs : regular p fs ->
    exists st, fs_lstat p (fs_utime p t fs) = Some st /\ st_mtime st = t;
  law_unlink_apart p q fs : apart p q -> fs_contents q (fs_unlink p fs) = fs_contents q fs;
  law_store_apart p q d fs : apart p q -> fs_contents q (fs_store p d fs) = fs_contents q fs;
  law_utime_apart p q t fs : apart p q -> fs_contents q (fs_utime p t fs) = fs_contents q fs;
  law_mkdir_contents p m q fs : fs_contents q (fs_mkdir p m fs).2 = fs_contents q fs;
  law_open_excl_apart p q m fs : apart p q ->
    fs_contents q (fs_open_excl p m fs).2 = fs_contents q fs;
  law_creat_apart p q m fs : apart p q -> fs_contents q (fs_creat p m fs).2 = fs_contents q fs;
  law_lstat_unlink p q fs : apart p q -> fs_lstat q (fs_unlink p fs) = fs_lstat q fs;
  law_lstat_open_excl p q m fs : apart p q -> fs_lstat q (fs_open_excl p m fs).2 = fs_lstat q fs;
  law_lstat_store p q d fs : apart p q -> fs_lstat q (fs_store p d fs) = fs_lstat q fs;
  law_lstat_utime p q t fs : apart p q -> fs_lstat q (fs_utime p t fs) = fs_lstat q fs;
  law_utime_regular p t fs : regular p fs -> regular p (fs_utime p t fs);
  law_lstat_mkdir p m q fs st : S_ISREG (st_mode st) = true ->
    fs_lstat q (fs_mkdir p m fs).2 = Some st <-> fs_lstat q fs = Some st;
  law_slashes p q fs : fs_lstat (p ++ [47; 47] ++ q) fs = fs_lstat (p ++ [47] ++ q) fs
}.

(** ** A file system in memory *)

Module MemFs.

Inductive node :=
| File (data : list Z) (mode mtime : Z)
| Dir (mtime : Z)
| Link (target : list Z) (mtime : Z).

(** Nodes by path, and the answers the next opened files get. *)
Record memfs := mkMem { nodes : gmap (list Z) node; answers : list io_event }.

Definition node_stat (n : node) : stat_t :=
  match n with
  | File d m t => mkStat (Z.lor 0x8000 (Z.land m 0x1ff)) (Z.of_nat (length d)) t
  | Dir t => mkStat 0x41ed 4096 t
  | Link l t => mkStat 0xa1ff (Z.of_nat (length l)) t
  end.

Definition put (p : list Z) (n : node) (fs : memfs) : memfs := mkMem (<[p := n]> (nodes fs)) (answers fs).

(** Several slashes count as one; without the slash at the end of a directory's
    name. *)
Fixpoint squeeze (p : list Z) : list Z :=
  match p with
  | [] => []
  | b :: p' =>
      match p' with
      | c :: _ => if (b =? 47) && (c =? 47) then squeeze p' else b :: squeeze p'
      | [] => [b]
      end
  end.

Definition chop (p : list Z) : list Z :=
  match rev (squeeze p) with 47 :: r => rev r | _ => squeeze p end.

Definition parent_ok (p : list Z) (fs : memfs) : bool :=
  match strrchr 47 p with
  | Some ([], _) | None => true
  | Some (d, _) => match nodes fs !! d with Some (Dir _) => true | _ => false end
  end.

(** The name of [q] inside the directory [p]. *)
Definition child (p q : list Z) : option (list Z) :=
  match strrchr 47 q with
  | Some (d, n) => if bool_decide (d = p) && negb (bool_decide (n = [])) then Some n else None
  | None => None
  end.

Definition new_file (p : list Z) (m : Z) (fs : memfs) : (errno + wfile) * memfs :=
  if parent_ok (chop p) fs then (inr (mkWf [] (mkWr [] (answers fs))), put (chop p) (File [] m 0) fs)
  else (inl ENOENT, fs).

#[export] Instance memfs_ops : FileSystem memfs := {
  fs_lstat p fs := node_stat <$> nodes fs !! chop p;
  fs_stat p fs := match nodes fs !! chop p with
                  | Some (Link t _) => node_stat <$> nodes fs !! t
                  | n => node_stat <$> n
                  end;
  fs_readdir p fs := match nodes fs !! chop p with
                     | Some (Dir _) => Some (omap (child (chop p)) (fst <$> map_to_list (nodes fs)))
                     | _ => None
                     end;
  fs_readlink p fs := match nodes fs !! chop p with Some (Link t _) => inr t | _ => inl (EOTHER 22) end;
  fs_open_rd p fs := match nodes fs !! chop p with
                     | Some (File d m _) => if Z.land m 0x100 =? 0 then inl (EOTHER 13)
                                            else inr (mkRd d (answers fs))
                     | Some _ => inl (EOTHER 21)
                     | None => inl ENOENT
                     end;
  fs_lseek _ _ := true;
  fs_malloc _ _ := true;
  fs_open_wr p fs := match nodes fs !! chop p with
                     | Some (File d _ _) => inr (mkWf d (mkWr [] (answers fs)))
                     | Some _ => inl (EOTHER 21)
                     | None => inl ENOENT
                     end;
  fs_open_excl p m fs := match nodes fs !! chop p with
                         | Some _ => (inl EEXIST, fs)
                         | None => new_file p m fs
                         end;
  fs_creat p m fs := match nodes fs !! chop p with
                     | Some (File _ m t) => (inr (mkWf [] (mkWr [] (answers fs))), put (chop p) (File [] m t) fs)
                     | Some _ => (inl (EOTHER 21), fs)
                     | None => new_file p m fs
                     end;
  fs_store p d fs := match nodes fs !! chop p with
                     | Some (File _ m t) => put (chop p) (File d m t) fs
                     | _ => fs
                     end;
  fs_unlink p fs := match nodes fs !! chop p with
                    | Some (Dir _) => fs
                    | _ => mkMem (delete (chop p) (nodes fs)) (answers fs)
                    end;
  fs_mkdir p _ fs := match nodes fs !! chop p with
                     | Some _ => (Some EEXIST, fs)
                     | None => if parent_ok (chop p) fs then (None, put (chop p) (Dir 0) fs) else (Some ENOENT, fs)
                     end;
  fs_symlink t p fs := match nodes fs !! chop p with
                       | Some _ => (Some EEXIST, fs)
                       | None => if parent_ok (chop p) fs then (None, put (chop p) (Link t 0) fs) else (Some ENOENT, fs)
                       end;
  fs_utime p t fs := match nodes fs !! chop p with
                     | Some (File d m _) => put (chop p) (File d m t) fs
                     | Some (Dir _) => put (chop p) (Dir t) fs
                     | _ => fs
                     end
}.

Definition contents (p : list Z) (fs : memfs) : option (list Z) :=
  match nodes fs !! chop p with Some (File d _ _) => Some d | _ => None end.

Lemma squeeze_slashes p q : squeeze (p ++ [47; 47] ++ q) = squeeze (p ++ [47] ++ q).
Proof.
  induction p as [|b p IH]; [done|]. destruct p as [|c p].
  - cbn. by destruct (b =? 47).
  - cbn [app squeeze] in *. by rewrite IH.
Qed.

Lemma S_ISREG_file m : S_ISREG (Z.lor 0x8000 (Z.land m 0x1ff)) = true.
Proof.
  unfold S_ISREG, S_IFMT. rewrite Z.land_lor_distr_l, <- Z.land_assoc.
  change (Z.land 0x1ff 0xf000) with 0. by rewrite Z.land_0_r.
Qed.

Lemma regular_node p fs :
  regular p fs <-> exists d m t, nodes fs !! chop p = Some (File d m t).
Proof.
  unfold regular. simpl. split.
  - intros (st & Hst & Hr). destruct (nodes fs !! chop p) as [[d m t|t|l t]|]; simplify_eq/=; eauto.
  - intros (d & m & t & ->). eexists. split; [done|]. apply S_ISREG_file.
Qed.

Lemma contents_put p q n fs :
  contents q (put (chop p) n fs) =
  if decide (chop q = chop p) then match n with File d _ _ => Some d | _ => None end
  else contents q fs.
Proof.
  unfold contents, put. simpl. destruct (decide (chop q = chop p)) as [->|Hne].
  - by rewrite lookup_insert_eq.
  - by rewrite lookup_insert_ne.
Qed.

Lemma new_file_spec p m fs :
  (exists e, new_file p m fs = (inl e, fs)) \/
  new_file p m fs = (inr (mkWf [] (mkWr [] (answers fs))), put (chop p) (File [] m 0) fs).
Proof. unfold new_file. destruct (parent_ok (chop p) fs); eauto. Qed.

(** Case analysis on the node an operation finds. *)
Ltac at_node p fs :=
  destruct (nodes fs !! chop p) as [[? ? ?|?|? ?]|] eqn:?; simplify_eq/=.

#[export] Instance memfs_laws : FsLaws memfs.
Proof.
  refine {| fs_contents := contents; apart p q := chop q <> chop p |}; simpl.
  - intros p fs r H. unfold contents. at_node p fs; try done. case_match; by simplify_eq.
  - intros p fs w H. unfold contents. at_node p fs; done.
  - intros p m fs w fs' H. at_node p fs.
    destruct (new_file_spec p m fs) as [[e He]|He]; rewrite He in H; simplify_eq.
    rewrite contents_put, decide_True by done. split_and!; try done.
    apply regular_node. simpl. rewrite lookup_insert_eq. eauto.
  - intros p m fs w fs' H. at_node p fs; [by rewrite contents_put, decide_True|].
    destruct (new_file_spec p m fs) as [[e He]|He]; rewrite He in H; simplify_eq.
    by rewrite contents_put, decide_True.
  - intros p d d' fs H. unfold contents in H. at_node p fs. by rewrite contents_put, decide_True.
  - intros p d fs (d0 & m & t & H)%regular_node. rewrite H. apply regular_node. simpl.
    rewrite lookup_insert_eq. eauto.
  - intros p t d fs H. unfold contents in H. at_node p fs. by rewrite contents_put, decide_True.
  - intros p t fs (d0 & m & t0 & H)%regular_node. rewrite H. simpl. rewrite lookup_insert_eq.
    eexists. split; [done|done].
  - intros p q fs H. unfold contents. at_node p fs; rewrite ?lookup_delete_ne by done; done.
  - intros p q d fs H. at_node p fs; rewrite ?contents_put, ?decide_False by done; done.
  - intros p q t fs H. at_node p fs; rewrite ?contents_put, ?decide_False by done; done.
  - intros p m q fs. at_node p fs; try done. destruct (parent_ok (chop p) fs); [|done]. simpl.
    rewrite contents_put. destruct (decide (chop q = chop p)) as [Heq|]; [|done].
    unfold contents. rewrite Heq. by simplify_option_eq.
  - intros p q m fs H. at_node p fs; try done.
    destruct (new_file_spec p m fs) as [[e He]|He]; rewrite He; simpl; [done|].
    by rewrite contents_put, decide_False.
  - intros p q m fs H. at_node p fs; rewrite ?contents_put, ?decide_False by done; try done.
    destruct (new_file_spec p m fs) as [[e He]|He]; rewrite He; simpl; [done|].
    by rewrite contents_put, decide_False.
  - intros p q fs H. at_node p fs; rewrite ?lookup_delete_ne by done; done.
  - intros p q m fs H. at_node p fs; try done.
    destruct (new_file_spec p m fs) as [[e He]|He]; rewrite He; simpl; [done|]. by rewrite lookup_insert_ne by done.
  - intros p q d fs H. at_node p fs; rewrite ?lookup_insert_ne by done; done.
  - intros p q t fs H. at_node p fs; rewrite ?lookup_insert_ne by done; done.
  - intros p t fs (d0 & m & t0 & H)%regular_node. rewrite H. apply regular_node. simpl. rewrite lookup_insert_eq. eauto.
  - intros p m q fs st Hr. at_node p fs; try done. destruct (parent_ok (chop p) fs); [|done]. simpl.
    destruct (decide (chop q = chop p)) as [->|Hne]; [|by rewrite lookup_insert_ne].
    rewrite lookup_insert_eq. by split; intros E; simplify_option_eq.
  - intros p q fs. unfold chop. pose proof (squeeze_slashes p q) as E. cbn in E. by rewrite E.
Defined.

End MemFs.
