(* ===== verification/SyncRun.v ===== *)
(** * Runs of the sync programs

    A calculus of runs for the two ends of a sync connection: [does m i fs a o fs']
    says that on every connection in good order whose incoming bytes start with
    [i], and with the file system [fs], the computation [m] returns [a], has
    consumed exactly [i], has written exactly [o] and leaves the file system
    [fs'].  Runs compose along [bind]. *)

From S2P Require Import Prelude Io SyncBase.

Section Runs.
Context {FS : Type} {fsys : FileSystem FS}.

(** Open, and every pending answer of the kernel a short transfer or EINTR. *)
Definition good (c : conn FS) : Prop :=
  c_closed c = false /\ Forall benign (rd_script (c_in c)) /\ Forall benign (wr_script (c_out c)).

Definition does {A} (m : M (conn FS) A) (i : list Z) (fs : FS) (a : A) (o : list Z) (fs' : FS) : Prop :=
  forall c rest, good c -> rd_data (c_in c) = i ++ rest -> c_fs c = fs ->
    exists c', m c = Ok (a, c') /\ good c' /\ rd_data (c_in c') = rest /\
      wr_out (c_out c') = wr_out (c_out c) ++ o /\ c_fs c' = fs'.

Lemma does_ret {A} (a : A) fs : does (ret a) [] fs a [] fs.
Proof. intros c rest Hg Hi Hf. exists c. by rewrite app_nil_r. Qed.

Lemma does_bind {A B} (m : M (conn FS) A) (k : A -> M (conn FS) B) i1 i2 fs a o1 fs1 b o2 fs2 :
  does m i1 fs a o1 fs1 -> does (k a) i2 fs1 b o2 fs2 ->
  does (bind m k) (i1 ++ i2) fs b (o1 ++ o2) fs2.
Proof.
  intros Hm Hk c rest Hg Hi Hf. rewrite <- app_assoc in Hi.
  destruct (Hm c (i2 ++ rest) Hg Hi Hf) as (c1 & E1 & Hg1 & Hi1 & Ho1 & Hf1).
  destruct (Hk c1 rest Hg1 Hi1 Hf1) as (c2 & E2 & Hg2 & Hi2 & Ho2 & Hf2).
  exists c2. rewrite (bind_ok _ _ _ _ _ E1). split_and!; try done.
  by rewrite Ho2, Ho1, app_assoc.
Qed.

(** Composition with a part that reads nothing, and one that writes nothing. *)
Lemma does_bind_w {A B} (m : M (conn FS) A) (k : A -> M (conn FS) B) i fs a o1 fs1 b o2 fs2 :
  does m [] fs a o1 fs1 -> does (k a) i fs1 b o2 fs2 -> does (bind m k) i fs b (o1 ++ o2) fs2.
Proof. apply (does_bind m k [] i). Qed.

Lemma does_bind_r {A B} (m : M (conn FS) A) (k : A -> M (conn FS) B) i1 i2 fs a fs1 b o fs2 :
  does m i1 fs a [] fs1 -> does (k a) i2 fs1 b o fs2 -> does (bind m k) (i1 ++ i2) fs b o fs2.
Proof. apply (does_bind m k i1 i2 fs a []). Qed.

Lemma does_bind_n {A B} (m : M (conn FS) A) (k : A -> M (conn FS) B) i fs a fs1 b o fs2 :
  does m [] fs a [] fs1 -> does (k a) i fs1 b o fs2 -> does (bind m k) i fs b o fs2.
Proof. apply (does_bind m k [] i fs a []). Qed.

(** The last step of a run, which returns a value. *)
Lemma does_then_ret {A B} (m : M (conn FS) A) (f : A -> B) i fs a o fs' b :
  does m i fs a o fs' -> f a = b -> does (x <- m ;; ret (f x)) i fs b o fs'.
Proof.
  intros Hm <-. rewrite <- (app_nil_r i), <- (app_nil_r o).
  eapply does_bind; [exact Hm|apply does_ret].
Qed.

Lemma does_writex buf fs : does (c_writex buf) [] fs true buf fs.
Proof.
  intros c rest (Hc & Hr & Hw) Hi Hf. unfold c_writex. rewrite Hc.
  destruct (writex_benign buf (c_out c) Hw) as (sc & Hsc & _ & ->).
  eexists. split; [done|]. by split_and!.
Qed.

Lemma does_readx len l fs : length l = len -> does (c_readx len) l fs (Some l) [] fs.
Proof.
  intros Hl c rest (Hc & Hr & Hw) Hi Hf. unfold c_readx. rewrite Hc.
  destruct (readx_benign len (c_in c) Hr) as (sc & Hsc & ->).
  rewrite Hi, (read_exact_app _ _ _ Hl). eexists. split; [done|].
  rewrite app_nil_r. by split_and!.
Qed.

Lemma does_readx_into cap len l fs :
  length l = len -> (len <= cap)%nat -> does (c_readx_into cap len) l fs (Some l) [] fs.
Proof.
  intros Hl Hc. unfold c_readx_into. apply Nat.leb_le in Hc as ->. by apply does_readx.
Qed.

(** A change of the connection that touches neither stream nor file system. *)
Lemma does_modify f fs :
  (forall c, c_in (f c) = c_in c /\ c_out (f c) = c_out c /\ c_closed (f c) = c_closed c /\
             c_fs (f c) = c_fs c) ->
  does (modify f) [] fs tt [] fs.
Proof.
  intros Hs c rest Hg Hi Hf. destruct (Hs c) as (H1 & H2 & H3 & H4).
  exists (f c). split; [done|]. unfold good. rewrite H1, H2, H3, H4, app_nil_r. done.
Qed.

Lemma does_readx_buf len l fs :
  length l = len -> Z.of_nat len <= SYNC_DATA_MAX ->
  does (c_readx_buf len) l fs (Some l) [] fs.
Proof.
  intros Hl Hc. unfold c_readx_buf. rewrite <- (app_nil_r l) at 1.
  eapply does_bind_r; [apply does_readx_into; [done|lia]|].
  eapply does_bind_n; [by apply does_modify|apply does_ret].
Qed.

Lemma does_get_fs fs : does get_fs [] fs fs [] fs.
Proof.
  intros c rest Hg Hi Hf. exists c. unfold get_fs, bind, get, ret. rewrite Hf, app_nil_r. by split_and!.
Qed.

Lemma does_with_fs {A} (f : FS -> A * FS) fs a fs' :
  f fs = (a, fs') -> does (with_fs f) [] fs a [] fs'.
Proof.
  intros H c rest (H1 & H2 & H3) Hi Hf. unfold with_fs. rewrite Hf, H.
  eexists. split; [done|]. rewrite app_nil_r. by split_and!.
Qed.

Lemma does_unlink path fs : does (unlink path) [] fs tt [] (fs_unlink path fs).
Proof.
  intros c rest (H1 & H2 & H3) Hi <-. eexists. split; [done|]. rewrite app_nil_r. by split_and!.
Qed.

Lemma does_utime path t fs :
  does (modify (fun c => set_fs (fs_utime path t (c_fs c)) c)) [] fs tt [] (fs_utime path t fs).
Proof.
  intros c rest (H1 & H2 & H3) Hi <-. eexists. split; [done|]. rewrite app_nil_r. by split_and!.
Qed.

(** A computation that looks at the connection to set its fuel. *)
Lemma does_fuel {A} (loop : nat -> M (conn FS) A) (i : list Z) fs a o fs' :
  (forall fuel, (length i < fuel)%nat -> does (loop fuel) i fs a o fs') ->
  does (c <- get ;; loop (S (length (rd_data (c_in c))))) i fs a o fs'.
Proof.
  intros Hl c rest Hg Hi Hf. unfold bind, get. apply Hl; try done.
  rewrite Hi, length_app. lia.
Qed.

(** Writing to a file whose kernel answers are benign. *)
Lemma does_file_writex path w buf fs :
  Forall benign (wr_script (wf_wr w)) ->
  exists sc, Forall benign sc /\
    let w' := mkWf (wf_base w) (mkWr (wr_out (wf_wr w) ++ buf) sc) in
    does (file_writex path w buf) [] fs (true, w') [] (fs_store path (wf_contents w') fs).
Proof.
  intros Hb. destruct (writex_benign buf (wf_wr w) Hb) as (sc & Hsc & _ & E).
  exists sc. split; [done|]. intros w' c rest (H1 & H2 & H3) Hi <-.
  unfold file_writex. rewrite E. eexists. split; [done|]. rewrite app_nil_r. by split_and!.
Qed.

(** A computation that ends by closing the connection. *)
Definition finishes (m : M (conn FS) unit) (i : list Z) (fs : FS) (o : list Z) (fs' : FS) : Prop :=
  forall c rest, good c -> rd_data (c_in c) = i ++ rest -> c_fs c = fs ->
    exists c', m c = Ok (tt, c') /\ c_closed c' = true /\ rd_data (c_in c') = rest /\
      wr_out (c_out c') = wr_out (c_out c) ++ o /\ c_fs c' = fs'.

Lemma finishes_close fs : finishes c_close [] fs [] fs.
Proof. intros c rest Hg Hi Hf. eexists. split; [done|]. by rewrite app_nil_r. Qed.

Lemma finishes_bind {A} (m : M (conn FS) A) k i1 i2 fs a o1 fs1 o2 fs2 :
  does m i1 fs a o1 fs1 -> finishes (k a) i2 fs1 o2 fs2 ->
  finishes (bind m k) (i1 ++ i2) fs (o1 ++ o2) fs2.
Proof.
  intros Hm Hk c rest Hg Hi Hf. rewrite <- app_assoc in Hi.
  destruct (Hm c (i2 ++ rest) Hg Hi Hf) as (c1 & E1 & Hg1 & Hi1 & Ho1 & Hf1).
  destruct (Hk c1 rest Hg1 Hi1 Hf1) as (c2 & E2 & Hg2 & Hi2 & Ho2 & Hf2).
  exists c2. rewrite (bind_ok _ _ _ _ _ E1). split_and!; try done.
  by rewrite Ho2, Ho1, app_assoc.
Qed.

Lemma finishes_bind_r {A} (m : M (conn FS) A) k i1 i2 fs a fs1 o fs2 :
  does m i1 fs a [] fs1 -> finishes (k a) i2 fs1 o fs2 -> finishes (bind m k) (i1 ++ i2) fs o fs2.
Proof. apply (finishes_bind m k i1 i2 fs a []). Qed.

Lemma finishes_fuel (loop : nat -> M (conn FS) unit) (i : list Z) fs o fs' :
  (forall fuel, (length i < fuel)%nat -> finishes (loop fuel) i fs o fs') ->
  finishes (c <- get ;; loop (S (length (rd_data (c_in c))))) i fs o fs'.
Proof.
  intros Hl c rest Hg Hi Hf. unfold bind, get. apply Hl; try done.
  rewrite Hi, length_app. lia.
Qed.

End Runs.

(** ** Words of messages *)

Lemma word_0 a l : is_u32 a -> word 0 (le32 a ++ l) = a.
Proof.
  intros Ha. change (word 0 (le32 a ++ l)) with (of_le (take 4 (le32 a ++ l))).
  rewrite take_app_exact by done. by apply of_le_le32.
Qed.

Lemma word_S i a l : word (S i) (le32 a ++ l) = word i l.
Proof.
  unfold word. replace (4 * S i)%nat with (length (le32 a) + 4 * i)%nat
    by (rewrite le32_length; lia).
  by rewrite <- drop_drop, drop_app_length.
Qed.

Lemma word_last a : is_u32 a -> word 0 (le32 a) = a.
Proof. intros. rewrite <- (app_nil_r (le32 a)). by apply word_0. Qed.

(** Evaluate [word] on a message in any of its layouts. *)
Ltac words :=
  unfold msg_req, msg_data, msg_status, msg_stat, msg_dent in *;
  rewrite ?word_S, ?word_last, ?word_0 by (done || (unfold is_u32, two32 in *; lia) || apply u32_range).

Lemma msg2_length a b : length (msg_data a b) = 8%nat.
Proof. done. Qed.
