(* ===== verification/SyncTransfer.v ===== *)
(** * Transfers between the sync client and the sync service

    The client of SyncClient.v and the service of SyncServer.v run against each
    other: the bytes one writes are the bytes the other reads.  The theorems
    give, for a push, a pull, a stat and a listing, the two byte streams and
    the effect on the two file systems. *)

From S2P Require Import Prelude Io SyncBase SyncServer SyncClient SyncRun SyncFs.

(** ** Numbers in decimal *)

Lemma strtoul_digits_dec l acc any :
  Forall dec_digit l -> 0 <= acc -> 0 <= any ->
  fold_left (fun a c => a * 10 + (c - 48)) l acc <= ULONG_MAX ->
  strtoul_digits 10 l acc any false =
    (fold_left (fun a c => a * 10 + (c - 48)) l acc, match l with [] => any | _ => 1 end, false).
Proof.
  revert acc any. induction l as [|c l IH]; intros acc any Hd Ha Hany Hv; simpl; [done|].
  apply Forall_cons_iff in Hd as [Hc Hd]. unfold dec_digit in Hc.
  unfold isdigit. rewrite (proj2 (Z.leb_le 48 c)), (proj2 (Z.leb_le c 57)) by lia. simpl.
  rewrite (proj2 (Z.leb_gt 10 (c - 48))) by lia.
  rewrite (proj2 (Z.ltb_ge any 0)) by lia.
  assert (acc * 10 + (c - 48) <= ULONG_MAX) as Hb.
  { assert (forall k a, Forall dec_digit k -> 0 <= a ->
      a <= fold_left (fun a c => a * 10 + (c - 48)) k a) as Hm.
    { induction k as [|x k IHk]; intros a Hk H0; simpl; [lia|].
      apply Forall_cons_iff in Hk as [Hx Hk]. unfold dec_digit in Hx.
      specialize (IHk (a * 10 + (x - 48)) Hk). lia. }
    simpl in Hv. specialize (Hm l (acc * 10 + (c - 48)) Hd). lia. }
  change (ULONG_MAX / 10) with 429496729. change (ULONG_MAX mod 10) with 5.
  unfold ULONG_MAX in *.
  destruct ((429496729 <? acc) || ((acc =? 429496729) && (5 <? c - 48))) eqn:E.
  { apply orb_true_iff in E as [E|E]; bools; lia. }
  rewrite IH; try done; try lia.
  - unfold u32, two32. rewrite (Z.mod_small (acc * 10)), Z.mod_small by lia.
    by destruct l.
  - unfold u32, two32. rewrite (Z.mod_small (acc * 10)), Z.mod_small by lia. lia.
  - unfold u32, two32. rewrite (Z.mod_small (acc * 10)), Z.mod_small by lia. done.
Qed.

(** [strtoul] reads back what [printf("%d")] wrote. *)
Lemma strtoul0_fmt_d n : 0 <= n < 2147483648 -> strtoul0 (fmt_d n) = (n, false).
Proof.
  intros Hn. destruct (decide (n = 0)) as [->|Hnz]; [done|].
  unfold fmt_d. rewrite (proj2 (Z.ltb_ge n 0)) by lia.
  destruct (dec_digits_spec 9 n []) as (l & -> & Hd & Hv & Hh & _ & _).
  { change (10 ^ Z.of_nat 10) with 10000000000. lia. }
  rewrite app_nil_r. destruct (Hh ltac:(lia)) as (c & l' & -> & Hc).
  pose proof Hd as [Hcd _]%Forall_cons_iff. unfold dec_digit in Hcd.
  assert (isspace c = false) as Hsp.
  { unfold isspace. rewrite (proj2 (Z.eqb_neq c 32)), (proj2 (Z.leb_gt c 13)) by lia.
    by rewrite andb_false_r. }
  unfold strtoul0. cbn [skip_space]. rewrite Hsp.
  rewrite (proj2 (Z.eqb_neq c 45)), (proj2 (Z.eqb_neq c 43)) by lia.
  unfold strtoul_base. rewrite (proj2 (Z.eqb_neq c 48)) by done.
  unfold digits_value in Hv. rewrite strtoul_digits_dec; try done.
  - by rewrite Hv.
  - rewrite Hv. unfold ULONG_MAX. lia.
Qed.

(** The suffix of the name in a send request. *)
Definition mode_suffix (mode : Z) : list Z := 44 :: fmt_d mode.

Lemma mode_suffix_snprintf mode :
  0 <= mode < 65536 -> snprintf 64 (44 :: fmt_d (s32 mode)) = mode_suffix mode.
Proof.
  intros Hm. unfold snprintf, mode_suffix.
  assert (s32 mode = mode) as ->.
  { unfold s32, two32. rewrite Z.mod_small by lia.
    by rewrite (proj2 (Z.ltb_lt mode 2147483648)) by lia. }
  destruct (fmt_d_spec mode ltac:(lia)) as [_ Hl]. rewrite take_ge; [done|]. simpl. lia.
Qed.

Lemma parse_send_suffix path mode :
  0 <= mode < 65536 ->
  parse_send (path ++ mode_suffix mode) = (path, Z.land mode 0x1ff, S_ISLNK mode).
Proof.
  intros Hm. unfold parse_send, mode_suffix. destruct (fmt_d_spec mode ltac:(lia)) as [Hd _].
  rewrite strrchr_app.
  2:{ eapply Forall_impl; [|exact Hd]. unfold dec_digit. intros c Hc. simpl in Hc. lia. }
  rewrite strtoul0_fmt_d by lia.
  change 0xffff with (Z.ones 16). rewrite Z.land_ones by lia. by rewrite Z.mod_small by lia.
Qed.

(** ** Data messages *)

(** One data message. *)
Definition chunk (d : list Z) : list Z := msg_data ID_DATA (Z.of_nat (length d)) ++ d.

Definition chunk_ok (d : list Z) : Prop := Z.of_nat (length d) <= SYNC_DATA_MAX.

Section Transfer.
Context {FS : Type} {fsys : FileSystem FS} {laws : FsLaws FS}.
Context (strerror : option errno -> list Z).
Implicit Types fs : FS.

(** The files a transfer writes: their contents so far, and kernel answers that
    only delay. *)
Definition writing (path : list Z) (w : wfile) (fs : FS) : Prop :=
  fs_contents path fs = Some (wf_contents w) /\ Forall benign (wr_script (wf_wr w)).

Lemma does_file_data path w buf fs :
  writing path w fs ->
  exists w', wf_base w' = wf_base w /\ wr_out (wf_wr w') = wr_out (wf_wr w) ++ buf /\
    writing path w' (fs_store path (wf_contents w') fs) /\
    does (file_writex path w buf) [] fs (true, w') [] (fs_store path (wf_contents w') fs).
Proof.
  intros [Hc Hb]. destruct (does_file_writex path w buf fs Hb) as (sc & Hsc & Hd).
  eexists. split_and!; [| |split| exact Hd]; try done. by eapply law_store.
Qed.

Lemma len_word d : chunk_ok d -> is_u32 (Z.of_nat (length d)).
Proof. unfold chunk_ok, is_u32, two32, SYNC_DATA_MAX. lia. Qed.

(** File systems that differ by writes to one file. *)
Definition stores (path : list Z) : FS -> FS -> Prop := rtc (fun fs fs' => exists d, fs' = fs_store path d fs).

(** The data loop of the service on a whole transfer. *)
Lemma send_file_loop_data ds : forall path w fs t,
  Forall chunk_ok ds -> writing path w fs -> is_u32 t ->
  exists w' fs', wf_base w' = wf_base w /\ wr_out (wf_wr w') = wr_out (wf_wr w) ++ concat ds /\
    writing path w' fs' /\ (regular path fs -> regular path fs') /\ stores path fs fs' /\
    forall fuel, (length ds < fuel)%nat ->
      does (send_file_loop strerror fuel path (Some w)) (concat (chunk <$> ds) ++ msg_data ID_DONE t)
        fs (SendDone (Some w') t) [] fs'.
Proof.
  induction ds as [|d ds IH]; intros path w fs t Hds Hw Ht.
  - exists w, fs. rewrite app_nil_r. split_and!; try done.
    intros [|fuel] Hf; [simpl in Hf; lia|]. cbn [concat fmap list_fmap app send_file_loop].
    rewrite <- (app_nil_r (msg_data ID_DONE t)).
    eapply does_bind_r; [by apply does_readx|]. cbv beta iota. words. cbn. apply does_ret.
  - apply Forall_cons_iff in Hds as [Hd Hds].
    destruct (does_file_data path w d fs Hw) as (w1 & Hb1 & Ho1 & Hw1 & Hrun1).
    destruct (IH path w1 (fs_store path (wf_contents w1) fs) t)
      as (w2 & fs2 & Hb2 & Ho2 & Hw2 & Hr2 & Hs2 & Hrun2); [done|done|done|].
    exists w2, fs2. split_and!; try done.
    + congruence.
    + rewrite Ho2, Ho1. cbn [concat]. by rewrite app_assoc.
    + intros Hr. by apply Hr2, law_store_regular.
    + by eapply rtc_l; [eexists|].
    + intros [|fuel] Hf; [simpl in Hf; lia|]. simpl in Hf.
      cbn [fmap list_fmap concat send_file_loop]. unfold chunk at 1. rewrite <- !app_assoc.
      eapply does_bind_r; [by apply does_readx|]. cbv beta iota.
      pose proof (len_word d Hd) as Hlen. words.
      rewrite (proj2 (Z.ltb_ge SYNC_DATA_MAX _)) by done. rewrite Z.eqb_refl. cbn [negb].
      eapply does_bind_r; [apply does_readx_buf; [lia|unfold chunk_ok in Hd; lia]|].
      eapply does_bind_n; [exact Hrun1|]. apply Hrun2. lia.
Qed.

Lemma chunks_length (ds : list (list Z)) : (length ds <= length (concat (chunk <$> ds)))%nat.
Proof.
  induction ds as [|d ds IH]; [simpl; lia|]. cbn [fmap list_fmap concat length]. rewrite length_app.
  assert (8 <= length (chunk d))%nat; [|lia]. unfold chunk. rewrite length_app, msg2_length. lia.
Qed.

Lemma open_for_send_contents path mode fs w fs1 :
  open_for_send path mode fs = (inr w, fs1) ->
  fs_contents path fs1 = Some (wf_contents w) /\ wr_out (wf_wr w) = [].
Proof.
  assert (forall fs0 fs2 v, fs_open_excl path mode fs0 = (inr v, fs2) ->
    fs_contents path fs2 = Some (wf_contents v) /\ wr_out (wf_wr v) = []) as Hx.
  { intros fs0 fs2 v H. apply law_open_excl in H as (H1 & _ & H2 & H3).
    unfold wf_contents. by rewrite H1, H2, H3. }
  assert (forall fs0 v, fs_open_wr path fs0 = inr v ->
    fs_contents path fs0 = Some (wf_contents v) /\ wr_out (wf_wr v) = []) as Hw.
  { intros fs0 v H. apply law_open_wr in H as (H1 & H2). unfold wf_contents. rewrite H1, H2. done. }
  unfold open_for_send. destruct (fs_open_excl path mode fs) as [[e|v] fs2] eqn:E1.
  - destruct e; try congruence.
    + destruct (fs_open_excl path mode (SyncServer.mkdirs path fs2).2) as [[e|v] fs3] eqn:E2.
      * destruct e; try congruence. intros [= H <-]. eauto.
      * intros [= <- <-]. eauto.
    + intros [= H <-]. eauto.
  - intros [= <- <-]. eauto.
Qed.

(** Sending a file to the service. *)
Lemma handle_send_file_data ds path mode fs w fs1 t :
  open_for_send path mode fs = (inr w, fs1) -> Forall benign (wr_script (wf_wr w)) ->
  Forall chunk_ok ds -> is_u32 t ->
  exists fs', does (handle_send_file strerror path mode) (concat (chunk <$> ds) ++ msg_data ID_DONE t)
      fs 0 (msg_status ID_OKAY 0) fs' /\
    fs_contents path fs' = Some (concat ds ++ drop (length (concat ds)) (wf_base w)) /\
    (regular path fs1 -> exists st, fs_lstat path fs' = Some st /\ st_mtime st = t) /\
    exists fs0, stores path fs1 fs0 /\ fs' = fs_utime path t fs0.
Proof.
  intros Ho Hb Hds Ht. destruct (open_for_send_contents _ _ _ _ _ Ho) as [Hc Hout].
  destruct (send_file_loop_data ds path w fs1 t)
    as (w0 & fs0 & Hb0 & Ho0 & [Hc0 _] & Hr0 & Hs0 & Hrun); [done|done|done|].
  assert (wf_contents w0 = concat ds ++ drop (length (concat ds)) (wf_base w)) as Hw0.
  { unfold wf_contents. by rewrite Ho0, Hout, Hb0. }
  exists (fs_utime path t fs0). split_and!.
  - unfold handle_send_file. eapply does_bind_n; [by apply does_with_fs|]. cbv beta iota.
    eapply does_bind_n; [apply does_ret|]. cbv beta iota.
    apply (does_fuel (fun fuel => bind (send_file_loop strerror fuel path (Some w)) _)).
    intros fuel Hf. rewrite length_app in Hf. pose proof (chunks_length ds).
    rewrite <- (app_nil_r (_ ++ msg_data ID_DONE t)).
    eapply does_bind_r; [apply Hrun; lia|]. cbv beta iota.
    eapply does_bind_n; [by apply does_utime|].
    by eapply does_then_ret; [apply does_writex|].
  - rewrite <- Hw0. by apply law_utime.
  - intros Hr. by apply law_utime_time, Hr0.
  - by exists fs0.
Qed.

(** ** Reading a file in pieces *)

(** One successful read of a file with pending data takes a prefix. *)
Lemma file_read_step f :
  Forall benign (rd_script f) ->
  (adb_read (Z.to_nat SYNC_DATA_MAX) f = (Failed EINTR, mkRd (rd_data f) (tail (rd_script f))) /\
   exists sc, rd_script f = IoErr EINTR :: sc) \/
  exists d f', adb_read (Z.to_nat SYNC_DATA_MAX) f = (Got d, f') /\ rd_data f = d ++ rd_data f' /\
    chunk_ok d /\ (rd_data f <> [] -> d <> []) /\ Forall benign (rd_script f') /\
    (length (rd_script f') <= length (rd_script f))%nat.
Proof.
  intros Hb. destruct f as [data script]. unfold adb_read. cbn [rd_data rd_script] in *.
  assert (exists m, Z.to_nat SYNC_DATA_MAX = S m /\ Z.of_nat (S m) = SYNC_DATA_MAX) as (m & -> & Hm)
    by (exists (Z.to_nat (SYNC_DATA_MAX - 1)); unfold SYNC_DATA_MAX; lia).
  unfold chunk_ok. rewrite <- Hm.
  destruct script as [|[n|e|] sc]; cbn [rd_script rd_data] in *.
  - right. eexists _, _. split; [done|]. cbn [rd_data rd_script]. rewrite take_drop, length_take.
    split_and!; try done; [lia|]. by destruct data.
  - inversion Hb; subst. right. eexists _, _. split; [done|]. cbn [rd_data rd_script].
    rewrite take_drop, length_take. split_and!; try done; [lia| |simpl; lia].
    destruct data; [done|]. by replace (Nat.min (S n) (S m)) with (S (Nat.min n m)) by lia.
  - inversion Hb as [|? ? He Hsc]; subst. simpl in He. subst e. left. eauto.
  - by inversion Hb.
Qed.

Lemma does_send_chunk d fs : does (send_chunk d) [] fs true (chunk d) fs.
Proof.
  unfold send_chunk. eapply does_bind_n; [by apply does_modify|]. apply does_writex.
Qed.

(** The client sends the whole file in data messages. *)
Lemma data_file_loop_spec fuel f fs :
  Forall benign (rd_script f) -> (length (rd_data f) + length (rd_script f) < fuel)%nat ->
  exists ds, concat ds = rd_data f /\ Forall chunk_ok ds /\
    does (data_file_loop fuel f) [] fs 0 (concat (chunk <$> ds)) fs.
Proof.
  revert f. induction fuel as [|fuel IH]; intros f Hb Hf; [lia|].
  cbn [data_file_loop].
  destruct (file_read_step f Hb) as [[-> [sc Hsc]]|(d & f' & -> & Hd & Hok & Hne & Hb' & Hl)].
  - rewrite Hsc in *. simpl tail. simpl in Hf. apply Forall_cons_iff in Hb as [_ Hb].
    destruct (IH (mkRd (rd_data f) sc)) as (ds & H1 & H2 & H3); [done|simpl; lia|]. eauto.
  - destruct d as [|b d].
    + exists []. simpl in Hd. split_and!; [|constructor|apply does_ret].
      destruct (rd_data f) eqn:E; [done|]. by destruct Hne.
    + rewrite Hd, length_app in Hf. simpl in Hf.
      destruct (IH f') as (ds & H1 & H2 & H3); [done|lia|].
      exists ((b :: d) :: ds). split_and!.
      * cbn [concat]. by rewrite H1, Hd.
      * by constructor.
      * cbn [fmap list_fmap concat].
        eapply does_bind_w; [apply does_send_chunk|]. cbn [negb].
        eapply does_bind_n; [by apply does_modify|]. exact H3.
Qed.

(** The service sends the whole file, then the end mark. *)
Lemma recv_loop_spec fuel f fs :
  Forall benign (rd_script f) -> (length (rd_data f) + length (rd_script f) < fuel)%nat ->
  exists ds, concat ds = rd_data f /\ Forall chunk_ok ds /\
    does (recv_loop strerror fuel f) [] fs 0 (concat (chunk <$> ds) ++ msg_data ID_DONE 0) fs.
Proof.
  revert f. induction fuel as [|fuel IH]; intros f Hb Hf; [lia|].
  cbn [recv_loop].
  destruct (file_read_step f Hb) as [[-> [sc Hsc]]|(d & f' & -> & Hd & Hok & Hne & Hb' & Hl)].
  - rewrite Hsc in *. simpl tail. simpl in Hf. apply Forall_cons_iff in Hb as [_ Hb].
    destruct (IH (mkRd (rd_data f) sc)) as (ds & H1 & H2 & H3); [done|simpl; lia|]. eauto.
  - destruct d as [|b d].
    + exists []. simpl in Hd. split_and!; [|constructor|].
      * destruct (rd_data f) eqn:E; [done|]. by destruct Hne.
      * by eapply does_then_ret; [apply does_writex|].
    + rewrite Hd, length_app in Hf. simpl in Hf.
      destruct (IH f') as (ds & H1 & H2 & H3); [done|lia|].
      exists ((b :: d) :: ds). split_and!.
      * cbn [concat]. by rewrite H1, Hd.
      * by constructor.
      * cbn [fmap list_fmap concat]. unfold chunk at 1. rewrite <- !app_assoc.
        eapply does_bind_n; [by apply does_modify|].
        eapply does_bind_w; [apply does_writex|]. cbn [negb].
        eapply does_bind_w; [apply does_writex|]. cbn [negb]. exact H3.
Qed.

(** ** The command loop *)

(** A request as the client writes it. *)
Definition request (id : Z) (path : list Z) : list Z := msg_req id (Z.of_nat (length path)) ++ path.

(** A path as a C string short enough for a request. *)
Definition path_ok (path : list Z) : Prop :=
  Z.of_nat (length path) <= 1024 /\ Forall (fun b => b <> 0) path.

(** The service answers a whole session of [n] commands. *)
Definition serves (n : nat) (i : list Z) fs (o : list Z) fs' : Prop :=
  forall fuel, (n < fuel)%nat -> finishes (service_loop strerror fuel) i fs o fs'.

Lemma does_send_req id path fs : does (send_req id path) [] fs true (request id path) fs.
Proof.
  unfold send_req, request. eapply does_bind_w; [apply does_writex|]. cbn [negb]. apply does_writex.
Qed.

Lemma path_len path : path_ok path -> is_u32 (Z.of_nat (length path)).
Proof. intros [H _]. unfold is_u32, two32. lia. Qed.

Lemma serves_command id path h n i1 i2 fs o1 fs1 o2 fs2 :
  sync_command strerror id path = Some h -> is_u32 id -> path_ok path ->
  does h i1 fs 0 o1 fs1 -> serves n i2 fs1 o2 fs2 ->
  serves (S n) (request id path ++ i1 ++ i2) fs (o1 ++ o2) fs2.
Proof.
  intros Hc Hid Hp Hh Hs [|fuel] Hf; [lia|]. pose proof (path_len _ Hp) as Hl.
  unfold request. rewrite <- !app_assoc. cbn [service_loop].
  eapply finishes_bind_r; [by apply does_readx|]. cbv beta iota. words.
  rewrite (proj2 (Z.ltb_ge 1024 _)) by apply Hp.
  eapply finishes_bind_r; [apply does_readx; lia|]. cbv beta iota.
  rewrite cstr_id by apply Hp. rewrite Hc.
  eapply finishes_bind; [exact Hh|]. cbn. apply Hs. lia.
Qed.

Lemma serves_quit fs : serves 0 (msg_req ID_QUIT 0) fs [] fs.
Proof.
  intros [|fuel] Hf; [lia|]. cbn [service_loop].
  rewrite <- (app_nil_r (msg_req ID_QUIT 0)).
  eapply finishes_bind_r; [by apply does_readx|]. cbv beta iota. words.
  eapply (finishes_bind_r _ _ [] []); [by apply does_readx|]. apply finishes_close.
Qed.

Lemma serves_service n i fs o fs' :
  serves n i fs o fs' -> (n <= length i)%nat -> finishes (file_sync_service strerror) i fs o fs'.
Proof. intros Hs Hn. apply finishes_fuel. intros fuel Hf. apply Hs. lia. Qed.

(** ** Stat *)

(** Time, mode and size the service reports for a path. *)
Definition stat_view (path : list Z) fs : Z * Z * Z :=
  match fs_lstat path fs with
  | None => (0, 0, 0)
  | Some st => (u32 (st_mtime st), u32 (st_mode st), u32 (st_size st))
  end.

Definition stat_reply (path : list Z) fs : list Z :=
  let '(time, mode, size) := stat_view path fs in msg_stat ID_STAT mode size time.

Lemma does_do_stat path fs : does (do_stat path) [] fs 0 (stat_reply path fs) fs.
Proof.
  unfold do_stat. eapply does_bind_n; [apply does_get_fs|].
  eapply does_then_ret with (a := true); [|done].
  unfold stat_reply, stat_view. destruct (fs_lstat path fs); apply does_writex.
Qed.

Lemma does_read_stat path fs fs' :
  does read_stat (stat_reply path fs) fs' (Some (stat_view path fs)) [] fs'.
Proof.
  assert (exists t m z, stat_view path fs = (t, m, z) /\ is_u32 t /\ is_u32 m /\ is_u32 z)
    as (t & m & z & E & Ht & Hm & Hz).
  { unfold stat_view. destruct (fs_lstat path fs) as [st|]; [|by exists 0, 0, 0].
    eexists _, _, _. split_and!; [done|apply u32_range..]. }
  unfold stat_reply. rewrite E. unfold read_stat.
  rewrite <- (app_nil_r (msg_stat ID_STAT m z t)).
  eapply does_bind_r; [by apply does_readx|]. cbv beta iota. words. apply does_ret.
Qed.

Lemma does_readmode path fs fs' :
  does (sync_readmode path) (stat_reply path fs) fs' (Some (stat_view path fs).1.2)
    (request ID_STAT path) fs'.
Proof.
  unfold sync_readmode. rewrite <- (app_nil_r (request ID_STAT path)).
  eapply does_bind_w; [apply does_send_req|]. cbn [negb].
  eapply does_then_ret; [apply does_read_stat|]. by destruct (stat_view path fs) as [[? ?] ?].
Qed.

Lemma does_sync_quit fs : does sync_quit [] fs tt (msg_req ID_QUIT 0) fs.
Proof.
  unfold sync_quit. rewrite <- (app_nil_r (msg_req ID_QUIT 0)).
  eapply does_bind_w; [apply does_writex|apply does_ret].
Qed.

Lemma serves_stat path n i fs o fs' :
  path_ok path -> serves n i fs o fs' ->
  serves (S n) (request ID_STAT path ++ i) fs (stat_reply path fs ++ o) fs'.
Proof.
  intros Hp Hs. change (request ID_STAT path ++ i) with (request ID_STAT path ++ [] ++ i).
  eapply serves_command; [done|done|done|apply does_do_stat|done].
Qed.

(** ** Sending one file *)

Lemma does_write_data_file path f fs :
  fs_open_rd path fs = inr f -> Forall benign (rd_script f) ->
  exists ds, concat ds = rd_data f /\ Forall chunk_ok ds /\
    does (write_data_file path) [] fs 0 (concat (chunk <$> ds)) fs.
Proof.
  intros Ho Hb. destruct (data_file_loop_spec (S (length (rd_data f) + length (rd_script f))) f fs)
    as (ds & H1 & H2 & H3); [done|lia|].
  exists ds. split_and!; try done. unfold write_data_file.
  eapply does_bind_n; [apply does_get_fs|]. by rewrite Ho.
Qed.

Lemma does_send_finish mtime fs :
  does (send_finish mtime) (msg_status ID_OKAY 0) fs 0 (msg_data ID_DONE mtime) fs.
Proof.
  unfold send_finish. rewrite <- (app_nil_r (msg_data ID_DONE mtime)).
  eapply does_bind_w; [apply does_writex|]. cbn [negb].
  rewrite <- (app_nil_r (msg_status ID_OKAY 0)).
  eapply does_bind_r; [by apply does_readx|]. cbv beta iota. words. apply does_ret.
Qed.

(** What the client writes for a file of contents [concat ds]. *)
Definition send_stream (rpath : list Z) (mode mtime : Z) (ds : list (list Z)) : list Z :=
  request ID_SEND (rpath ++ mode_suffix mode) ++ concat (chunk <$> ds) ++ msg_data ID_DONE mtime.

(** [sync_send] ignores the result [r] of sending the data. *)
Lemma does_sync_send lpath rpath mtime mode r ds fs :
  does (write_data_file lpath) [] fs r (concat (chunk <$> ds)) fs ->
  S_ISREG mode = true -> 0 <= mode < 65536 -> (length rpath <= 1024)%nat ->
  does (sync_send lpath rpath mtime mode false) (msg_status ID_OKAY 0)
    fs 0 (send_stream rpath mode mtime ds) fs.
Proof.
  intros Hd Hreg Hm Hl. unfold sync_send.
  rewrite (proj2 (Nat.ltb_ge 1024 _)) by done. rewrite mode_suffix_snprintf by done.
  eapply does_bind_n; [apply does_ret|]. cbv beta iota.
  unfold send_stream, request. rewrite <- !app_assoc, length_app.
  eapply does_bind_w; [apply does_writex|]. eapply does_bind_w; [apply does_writex|].
  eapply does_bind_w; [apply does_writex|]. cbn [negb]. rewrite Hreg.
  eapply does_bind_w; [exact Hd|]. apply does_send_finish.
Qed.

(** The permission bits the service gives a file sent with this mode. *)
Definition send_perm (mode : Z) : Z :=
  let m := Z.land mode 0x1ff in
  let m := Z.lor m (Z.land (Z.shiftr m 3) 0x38) in
  Z.lor m (Z.land (Z.shiftr m 3) 0x7).

Lemma does_do_send rpath mode mtime ds fs w fs1 :
  S_ISREG mode = true -> 0 <= mode < 65536 -> is_u32 mtime -> Forall chunk_ok ds ->
  open_for_send rpath (send_perm mode) (fs_unlink rpath fs) = (inr w, fs1) ->
  Forall benign (wr_script (wf_wr w)) ->
  exists fs', does (do_send strerror (rpath ++ mode_suffix mode))
      (concat (chunk <$> ds) ++ msg_data ID_DONE mtime) fs 0 (msg_status ID_OKAY 0) fs' /\
    fs_contents rpath fs' = Some (concat ds ++ drop (length (concat ds)) (wf_base w)) /\
    (regular rpath fs1 -> exists st, fs_lstat rpath fs' = Some st /\ st_mtime st = mtime) /\
    exists fs0, stores rpath fs1 fs0 /\ fs' = fs_utime rpath mtime fs0.
Proof.
  intros Hreg Hm Ht Hds Ho Hb.
  destruct (handle_send_file_data ds rpath (send_perm mode) (fs_unlink rpath fs) w fs1 mtime Ho Hb Hds Ht)
    as (fs' & Hd & Hc & Hs & Hst).
  exists fs'. split_and!; try done. unfold do_send. rewrite parse_send_suffix by done.
  assert (S_ISLNK mode = false) as ->.
  { unfold S_ISREG, S_ISLNK in *. bools. by rewrite Hreg. }
  eapply does_bind_n; [apply does_unlink|]. exact Hd.
Qed.

Lemma serves_send rpath mode mtime ds n i fs w fs1 o :
  S_ISREG mode = true -> 0 <= mode < 65536 -> is_u32 mtime -> Forall chunk_ok ds ->
  path_ok (rpath ++ mode_suffix mode) ->
  open_for_send rpath (send_perm mode) (fs_unlink rpath fs) = (inr w, fs1) ->
  Forall benign (wr_script (wf_wr w)) ->
  exists fs', fs_contents rpath fs' = Some (concat ds ++ drop (length (concat ds)) (wf_base w)) /\
    (regular rpath fs1 -> exists st, fs_lstat rpath fs' = Some st /\ st_mtime st = mtime) /\
    (exists fs0, stores rpath fs1 fs0 /\ fs' = fs_utime rpath mtime fs0) /\
    forall fs'', serves n i fs' o fs'' ->
      serves (S n) (send_stream rpath mode mtime ds ++ i) fs (msg_status ID_OKAY 0 ++ o) fs''.
Proof.
  intros Hreg Hm Ht Hds Hp Ho Hb.
  destruct (does_do_send rpath mode mtime ds fs w fs1 Hreg Hm Ht Hds Ho Hb) as (fs' & Hd & Hc & Hs & Hst).
  exists fs'. split_and!; try done. intros fs'' Hserve. unfold send_stream. rewrite <- app_assoc.
  eapply serves_command; [done|done|done|exact Hd|exact Hserve].
Qed.

(** The destination of a push: inside the remote path if that is a directory. *)
Definition push_dest (lpath rpath : list Z) fs : list Z :=
  let mode := (stat_view rpath fs).1.2 in
  if negb (mode =? 0) && S_ISDIR mode then rpath ++ [47] ++ basename lpath else rpath.

Lemma not_dir mode : S_ISREG mode = true -> S_ISDIR mode = false.
Proof. unfold S_ISREG, S_ISDIR. intros H. bools. by rewrite H. Qed.

(** A whole push in which [sync_send] sends the messages of [ds]. *)
Lemma push_session_of (cfs sfs sfs1 : FS) lpath rpath verify st ds w :
  let dest := push_dest lpath rpath sfs in
  fs_stat lpath cfs = Some st -> S_ISREG (st_mode st) = true -> 0 <= st_mode st < 65536 ->
  does (sync_send lpath dest (u32 (st_mtime st)) (st_mode st) verify) (msg_status ID_OKAY 0)
    cfs 0 (send_stream dest (st_mode st) (u32 (st_mtime st)) ds) cfs -> Forall chunk_ok ds ->
  path_ok rpath -> path_ok (dest ++ mode_suffix (st_mode st)) ->
  open_for_send dest (send_perm (st_mode st)) (fs_unlink dest sfs) = (inr w, sfs1) ->
  Forall benign (wr_script (wf_wr w)) ->
  exists cout sout sfs',
    does (do_sync_push true lpath rpath verify) sout cfs 0 cout cfs /\
    finishes (file_sync_service strerror) cout sfs sout sfs' /\
    fs_contents dest sfs' = Some (concat ds ++ drop (length (concat ds)) (wf_base w)) /\
    (regular dest sfs1 -> exists st', fs_lstat dest sfs' = Some st' /\ st_mtime st' = u32 (st_mtime st)).
Proof.
  intros dest Hst Hreg Hmode Hsend Hok Hp Hpd How Hbw.
  assert (u32 (st_mode st) = st_mode st) as Hu by (apply u32_id; unfold is_u32, two32; lia).
  destruct (serves_send dest (st_mode st) (u32 (st_mtime st)) ds 0 (msg_req ID_QUIT 0) sfs w sfs1 [])
    as (sfs' & Hc & Ht & _ & Hserve); [done|done|apply u32_range|done|done|done|done|].
  exists (request ID_STAT rpath ++ send_stream dest (st_mode st) (u32 (st_mtime st)) ds ++ msg_req ID_QUIT 0),
    (stat_reply rpath sfs ++ msg_status ID_OKAY 0), sfs'.
  split_and!; try done.
  - unfold do_sync_push. cbn [negb]. eapply does_bind_n; [apply does_get_fs|].
    rewrite Hst, (not_dir _ Hreg), Hu.
    eapply does_bind; [apply does_readmode|]. cbv beta iota.
    eapply does_bind_n; [by apply does_modify|].
    rewrite <- (app_nil_r (msg_status ID_OKAY 0)).
    eapply does_bind; [exact Hsend|]. cbn [Z.eqb].
    rewrite <- (app_nil_r (msg_req ID_QUIT 0)).
    eapply does_bind_w; [apply does_sync_quit|apply does_ret].
  - eapply (serves_service 2).
    + apply serves_stat; [done|]. rewrite <- (app_nil_r (msg_status ID_OKAY 0)).
      apply Hserve, serves_quit.
    + unfold request. rewrite !length_app. change (length (msg_req ID_STAT _)) with 8%nat. lia.
Qed.

(** A push whose data phase writes the messages of [ds]. *)
Lemma push_session (cfs sfs sfs1 : FS) lpath rpath st r ds w :
  let dest := push_dest lpath rpath sfs in
  fs_stat lpath cfs = Some st -> S_ISREG (st_mode st) = true -> 0 <= st_mode st < 65536 ->
  does (write_data_file lpath) [] cfs r (concat (chunk <$> ds)) cfs -> Forall chunk_ok ds ->
  path_ok rpath -> path_ok (dest ++ mode_suffix (st_mode st)) ->
  open_for_send dest (send_perm (st_mode st)) (fs_unlink dest sfs) = (inr w, sfs1) ->
  Forall benign (wr_script (wf_wr w)) ->
  exists cout sout sfs',
    does (do_sync_push true lpath rpath false) sout cfs 0 cout cfs /\
    finishes (file_sync_service strerror) cout sfs sout sfs' /\
    fs_contents dest sfs' = Some (concat ds ++ drop (length (concat ds)) (wf_base w)) /\
    (regular dest sfs1 -> exists st', fs_lstat dest sfs' = Some st' /\ st_mtime st' = u32 (st_mtime st)).
Proof.
  intros dest Hst Hreg Hmode Hd Hok Hp Hpd How Hbw. eapply push_session_of; try done.
  eapply does_sync_send; try done. destruct Hpd as [Hpd _]. rewrite length_app in Hpd. fold dest. lia.
Qed.

(** C2: [adb push] of a regular file, with the service at the other end: the
    client exits with 0, and when the service is done the destination (inside
    the remote path, if that is a directory) holds exactly the bytes of the
    local file and has its modification time.  Only if an old file could not be
    removed and had to be overwritten in place does what it held beyond the
    new length remain ([wf_base w] is empty for a new file).  This holds for
    every length and content of the file, however the kernel splits the reads
    and writes on both sides, for any file system with the laws of [FsLaws]. *)
Theorem push_transfers_file (cfs sfs sfs1 : FS) lpath rpath st f w :
  let dest := push_dest lpath rpath sfs in
  fs_stat lpath cfs = Some st -> S_ISREG (st_mode st) = true -> 0 <= st_mode st < 65536 ->
  fs_open_rd lpath cfs = inr f -> Forall benign (rd_script f) ->
  path_ok rpath -> path_ok (dest ++ mode_suffix (st_mode st)) ->
  open_for_send dest (send_perm (st_mode st)) (fs_unlink dest sfs) = (inr w, sfs1) ->
  Forall benign (wr_script (wf_wr w)) ->
  exists cout sout sfs',
    does (do_sync_push true lpath rpath false) sout cfs 0 cout cfs /\
    finishes (file_sync_service strerror) cout sfs sout sfs' /\
    fs_contents dest sfs' = Some (rd_data f ++ drop (length (rd_data f)) (wf_base w)) /\
    (regular dest sfs1 -> exists st', fs_lstat dest sfs' = Some st' /\ st_mtime st' = u32 (st_mtime st)).
Proof.
  intros dest Hst Hreg Hmode Ho Hb Hp Hpd How Hbw.
  destruct (does_write_data_file lpath f cfs Ho Hb) as (ds & Hds & Hok & Hd).
  rewrite <- Hds. by eapply push_session.
Qed.

(** ** Receiving one file *)

(** A transfer from the service: its first header, and the rest. *)
Definition recv_header (ds : list (list Z)) : list Z :=
  match ds with
  | [] => msg_data ID_DONE 0
  | d :: _ => msg_data ID_DATA (Z.of_nat (length d))
  end.

Definition recv_rest (ds : list (list Z)) : list Z :=
  match ds with
  | [] => []
  | d :: ds' => d ++ concat (chunk <$> ds') ++ msg_data ID_DONE 0
  end.

Lemma recv_split ds : concat (chunk <$> ds) ++ msg_data ID_DONE 0 = recv_header ds ++ recv_rest ds.
Proof.
  destruct ds; [done|]. cbn [fmap list_fmap concat recv_header recv_rest]. unfold chunk at 1.
  by rewrite <- !app_assoc.
Qed.

Lemma recv_header_length ds : length (recv_header ds) = 8%nat.
Proof. by destruct ds. Qed.

Lemma s32_small n : 0 <= n <= SYNC_DATA_MAX -> s32 n = n.
Proof.
  unfold s32, two32, SYNC_DATA_MAX. intros. rewrite Z.mod_small by lia.
  by rewrite (proj2 (Z.ltb_lt n 2147483648)) by lia.
Qed.

Lemma handle_data_spec ds : forall path w fs,
  Forall chunk_ok ds -> writing path w fs ->
  exists w' fs', wf_base w' = wf_base w /\ wr_out (wf_wr w') = wr_out (wf_wr w) ++ concat ds /\
    writing path w' fs' /\ stores path fs fs' /\
    forall fuel, (length ds < fuel)%nat ->
      does (handle_data fuel path w (recv_header ds)) (recv_rest ds) fs 0 [] fs'.
Proof.
  induction ds as [|d ds IH]; intros path w fs Hds Hw.
  - exists w, fs. rewrite app_nil_r. split_and!; try done.
    intros [|fuel] Hf; [simpl in Hf; lia|]. cbn [handle_data recv_header recv_rest].
    words. rewrite Z.eqb_refl. apply does_ret.
  - apply Forall_cons_iff in Hds as [Hd Hds].
    destruct (does_file_data path w d fs Hw) as (w1 & Hb1 & Ho1 & Hw1 & Hrun1).
    destruct (IH path w1 (fs_store path (wf_contents w1) fs))
      as (w2 & fs2 & Hb2 & Ho2 & Hw2 & Hs2 & Hrun2); [done|done|].
    exists w2, fs2. split_and!; try done.
    + congruence.
    + rewrite Ho2, Ho1. cbn [concat]. by rewrite app_assoc.
    + by eapply rtc_l; [eexists|].
    + intros [|fuel] Hf; [simpl in Hf; lia|]. simpl in Hf.
      cbn [handle_data recv_header recv_rest]. rewrite recv_split.
      pose proof (len_word d Hd) as Hlen. pose proof Hd as Hd'. unfold chunk_ok in Hd'.
      words. rewrite s32_small by lia. rewrite u32_id by done.
      change (ID_DATA =? ID_DONE) with false. rewrite Z.eqb_refl. cbn [negb].
      rewrite (proj2 (Z.ltb_ge SYNC_DATA_MAX _)) by done.
      eapply does_bind_r; [apply does_readx_buf; lia|]. cbv beta iota.
      eapply does_bind_n; [exact Hrun1|]. cbn [negb].
      eapply does_bind_n; [by apply does_modify|].
      eapply does_bind_r; [by apply does_readx, recv_header_length|]. cbv beta iota.
      apply Hrun2. lia.
Qed.

(** The client's file system when it opens the destination. *)
Definition before_creat (lpath : list Z) fs : FS :=
  match lpath with
  | b :: x => (mkdirs_loop [b] x (fs_unlink lpath fs)).2
  | [] => fs
  end.

Lemma does_sync_recv rpath lpath ds fs w fs1 :
  (length rpath <= 1024)%nat -> lpath <> [] -> Forall chunk_ok ds ->
  fs_creat lpath 0x1a4 (before_creat lpath fs) = (inr w, fs1) -> Forall benign (wr_script (wf_wr w)) ->
  exists fs', fs_contents lpath fs' = Some (concat ds) /\ stores lpath fs1 fs' /\
    does (sync_recv rpath lpath) (concat (chunk <$> ds) ++ msg_data ID_DONE 0)
      fs 0 (request ID_RECV rpath) fs'.
Proof.
  intros Hl Hne Hds Ho Hb. destruct (law_creat _ _ _ _ _ Ho) as (Hc & Hbase & Hout).
  destruct (handle_data_spec ds lpath w fs1) as (w' & fs' & Hb' & Ho' & [Hc' _] & Hs' & Hrun); [done| |].
  { split; [|done]. unfold wf_contents. by rewrite Hc, Hbase, Hout. }
  exists fs'. split_and!; [|done|].
  { rewrite Hc'. unfold wf_contents. rewrite Ho', Hout, Hb', Hbase. by rewrite drop_nil, app_nil_r. }
  unfold sync_recv. rewrite (proj2 (Nat.ltb_ge 1024 _)) by done.
  rewrite <- (app_nil_r (request ID_RECV rpath)).
  eapply does_bind_w; [apply does_send_req|]. cbn [negb]. rewrite recv_split.
  eapply does_bind_r; [apply does_readx, recv_header_length|]. cbv beta iota.
  assert ((word 0 (recv_header ds) =? ID_DATA) || (word 0 (recv_header ds) =? ID_DONE) = true) as ->.
  { destruct ds; cbn [recv_header]; words; done. }
  eapply does_bind_n; [apply does_unlink|].
  destruct lpath as [|b x]; [done|].
  eapply does_bind_n; [apply does_with_fs, surjective_pairing|].
  eapply does_bind_n; [apply does_with_fs; exact Ho|]. cbv beta iota.
  apply (does_fuel (fun fuel => handle_data fuel (b :: x) w (recv_header ds))).
  intros fuel Hf. apply Hrun. pose proof (chunks_length ds).
  assert (length (recv_header ds ++ recv_rest ds) = length (concat (chunk <$> ds) ++ msg_data ID_DONE 0))
    as Heq by by rewrite recv_split.
  rewrite !length_app, recv_header_length, msg2_length in Heq. lia.
Qed.

Lemma does_do_recv path f fs :
  fs_open_rd path fs = inr f -> Forall benign (rd_script f) ->
  exists ds, concat ds = rd_data f /\ Forall chunk_ok ds /\
    does (do_recv strerror path) [] fs 0 (concat (chunk <$> ds) ++ msg_data ID_DONE 0) fs.
Proof.
  intros Ho Hb. destruct (recv_loop_spec (S (length (rd_data f) + length (rd_script f))) f fs)
    as (ds & H1 & H2 & H3); [done|lia|].
  exists ds. split_and!; try done. unfold do_recv.
  eapply does_bind_n; [apply does_get_fs|]. by rewrite Ho.
Qed.

(** The destination of a pull: inside the local path if that is a directory. *)
Definition pull_dest (rpath lpath : list Z) fs : list Z :=
  match fs_stat lpath fs with
  | Some st => if S_ISDIR (st_mode st) then lpath ++ [47] ++ basename rpath else lpath
  | None => lpath
  end.

(** C4: [adb pull] of a regular file: the client exits with 0 and the
    destination (inside the local path, if that is a directory) holds exactly
    the bytes of the remote file, for every file and however the kernel splits
    the transfers; the service's file system is unchanged. *)
Theorem pull_transfers_file (cfs cfs1 sfs : FS) lpath rpath st f w :
  let dest := pull_dest rpath lpath cfs in
  fs_lstat rpath sfs = Some st -> S_ISREG (st_mode st) = true -> is_u32 (st_mode st) ->
  fs_open_rd rpath sfs = inr f -> Forall benign (rd_script f) ->
  path_ok rpath -> lpath <> [] ->
  fs_creat dest 0x1a4 (before_creat dest cfs) = (inr w, cfs1) -> Forall benign (wr_script (wf_wr w)) ->
  exists cout sout cfs',
    does (do_sync_pull true rpath lpath) sout cfs 0 cout cfs' /\
    finishes (file_sync_service strerror) cout sfs sout sfs /\
    fs_contents dest cfs' = Some (rd_data f).
Proof.
  intros dest Hst Hreg Hmode Ho Hb Hp Hne Hcr Hbw.
  destruct (does_do_recv rpath f sfs Ho Hb) as (ds & Hds & Hok & Hrecv).
  destruct (does_sync_recv rpath dest ds cfs w cfs1) as (cfs' & Hc & _ & Hrun);
    [destruct Hp; lia| |done|done|done|].
  { unfold dest, pull_dest. repeat case_match; try done; by destruct lpath. }
  assert ((stat_view rpath sfs).1.2 = st_mode st) as Hview.
  { unfold stat_view. rewrite Hst. simpl. by apply u32_id. }
  exists (request ID_STAT rpath ++ request ID_RECV rpath ++ msg_req ID_QUIT 0),
    (stat_reply rpath sfs ++ concat (chunk <$> ds) ++ msg_data ID_DONE 0), cfs'.
  rewrite Hds in Hc. split_and!; try done.
  - unfold do_sync_pull. cbn [negb].
    eapply does_bind; [apply does_readmode|]. cbv beta iota. rewrite Hview.
    destruct (st_mode st =? 0) eqn:E; bools; [by rewrite E in Hreg|]. rewrite Hreg. cbn [orb].
    eapply does_bind_n; [apply does_get_fs|]. eapply does_bind_n; [by apply does_modify|].
    rewrite <- (app_nil_r (_ ++ msg_data ID_DONE 0)).
    eapply does_bind; [exact Hrun|]. cbn [Z.eqb].
    rewrite <- (app_nil_r (msg_req ID_QUIT 0)).
    eapply does_bind_w; [apply does_sync_quit|apply does_ret].
  - eapply (serves_service 2).
    + apply serves_stat; [done|]. rewrite <- (app_nil_r (_ ++ msg_data ID_DONE 0)).
      change (request ID_RECV rpath ++ msg_req ID_QUIT 0)
        with (request ID_RECV rpath ++ [] ++ msg_req ID_QUIT 0).
      eapply serves_command; [done|done|done|exact Hrecv|apply serves_quit].
    + unfold request. rewrite !length_app. change (length (msg_req ID_STAT _)) with 8%nat. lia.
Qed.

(** ** Failures *)

(** A failure message on the wire. *)
Definition fail_reply (text : list Z) : list Z := msg_data ID_FAIL (Z.of_nat (length text)) ++ text.

Lemma does_fail_message text fs : does (fail_message text) [] fs 0 (fail_reply text) fs.
Proof.
  unfold fail_message, fail_reply. eapply does_bind_w; [apply does_writex|]. cbn [negb].
  by eapply does_then_ret; [apply does_writex|].
Qed.

Lemma does_recv_error lpath text fs :
  (length text <= 256)%nat ->
  does (recv_error lpath (msg_data ID_FAIL (Z.of_nat (length text)))) text fs 0 [] (fs_unlink lpath fs).
Proof.
  intros Hl. unfold recv_error. eapply does_bind_n; [apply does_unlink|].
  assert (is_u32 (Z.of_nat (length text))) as Hu by (unfold is_u32, two32; lia).
  words. rewrite Z.eqb_refl. rewrite s32_small by (unfold SYNC_DATA_MAX; lia).
  rewrite (proj2 (Z.ltb_ge 256 _)) by lia. rewrite u32_id by done.
  eapply (does_then_ret _ (fun r => match r with None => -1 | Some _ => 0 end)).
  - apply does_readx_buf; [lia|unfold SYNC_DATA_MAX; lia].
  - done.
Qed.

(** When the service cannot open the requested file, [adb pull] removes the
    local destination, which it had not touched before, and exits with 0 as if
    the copy had succeeded. *)
Theorem pull_failure_deletes_local (cfs sfs : FS) lpath rpath st e :
  let dest := pull_dest rpath lpath cfs in
  fs_lstat rpath sfs = Some st -> S_ISREG (st_mode st) = true -> is_u32 (st_mode st) ->
  fs_open_rd rpath sfs = inl e -> (length (strerror (Some e)) <= 256)%nat -> path_ok rpath ->
  exists cout sout,
    does (do_sync_pull true rpath lpath) sout cfs 0 cout (fs_unlink dest cfs) /\
    finishes (file_sync_service strerror) cout sfs sout sfs.
Proof.
  intros dest Hst Hreg Hmode Ho Hl Hp.
  assert ((stat_view rpath sfs).1.2 = st_mode st) as Hview.
  { unfold stat_view. rewrite Hst. simpl. by apply u32_id. }
  set (text := strerror (Some e)) in *.
  exists (request ID_STAT rpath ++ request ID_RECV rpath ++ msg_req ID_QUIT 0),
    (stat_reply rpath sfs ++ fail_reply text). split.
  - unfold do_sync_pull. cbn [negb].
    eapply does_bind; [apply does_readmode|]. cbv beta iota. rewrite Hview.
    destruct (st_mode st =? 0) eqn:E; bools; [by rewrite E in Hreg|]. rewrite Hreg. cbn [orb].
    eapply does_bind_n; [apply does_get_fs|]. eapply does_bind_n; [by apply does_modify|].
    rewrite <- (app_nil_r (fail_reply text)).
    eapply (does_bind _ _ _ _ _ 0 (request ID_RECV rpath)).
    + unfold sync_recv. rewrite (proj2 (Nat.ltb_ge 1024 _)) by (destruct Hp; lia).
      rewrite <- (app_nil_r (request ID_RECV rpath)).
      eapply does_bind_w; [apply does_send_req|]. cbn [negb]. unfold fail_reply.
      eapply does_bind_r; [by apply does_readx|]. cbv beta iota.
      assert (is_u32 (Z.of_nat (length text))) as Hu by (unfold is_u32, two32; lia).
      replace (word 0 (msg_data ID_FAIL (Z.of_nat (length text)))) with ID_FAIL by (by words).
      by apply does_recv_error.
    + cbn [Z.eqb]. rewrite <- (app_nil_r (msg_req ID_QUIT 0)).
      eapply does_bind_w; [apply does_sync_quit|apply does_ret].
  - eapply (serves_service 2).
    + apply serves_stat; [done|]. rewrite <- (app_nil_r (fail_reply text)).
      change (request ID_RECV rpath ++ msg_req ID_QUIT 0)
        with (request ID_RECV rpath ++ [] ++ msg_req ID_QUIT 0).
      eapply serves_command; [done|done|done| |apply serves_quit].
      unfold do_recv. eapply does_bind_n; [apply does_get_fs|]. rewrite Ho.
      by eapply (does_then_ret _ (fun x => if x =? 0 then 0 else -1)); [apply does_fail_message|].
    + unfold request. rewrite !length_app. change (length (msg_req ID_STAT _)) with 8%nat. lia.
Qed.

(** When the local file cannot be opened, [adb push] still sends the end of
    the file: the remote destination is replaced by an empty file and the
    client exits with 0. *)
Theorem push_unreadable_truncates_remote (cfs sfs sfs1 : FS) lpath rpath st e w :
  let dest := push_dest lpath rpath sfs in
  fs_stat lpath cfs = Some st -> S_ISREG (st_mode st) = true -> 0 <= st_mode st < 65536 ->
  fs_open_rd lpath cfs = inl e ->
  path_ok rpath -> path_ok (dest ++ mode_suffix (st_mode st)) ->
  open_for_send dest (send_perm (st_mode st)) (fs_unlink dest sfs) = (inr w, sfs1) ->
  wf_base w = [] -> Forall benign (wr_script (wf_wr w)) ->
  exists cout sout sfs',
    does (do_sync_push true lpath rpath false) sout cfs 0 cout cfs /\
    finishes (file_sync_service strerror) cout sfs sout sfs' /\
    fs_contents dest sfs' = Some [].
Proof.
  intros dest Hst Hreg Hmode Ho Hp Hpd How Hbase Hbw.
  destruct (push_session cfs sfs sfs1 lpath rpath st (-1) [] w) as (cout & sout & sfs' & H1 & H2 & H3 & _);
    try done.
  - unfold write_data_file. eapply does_bind_n; [apply does_get_fs|]. rewrite Ho. apply does_ret.
  - rewrite Hbase in H3. by exists cout, sout, sfs'.
Qed.

End Transfer.
