(* ===== verification/SyncApk.v ===== *)
(** * Sending packages

    [adb install] pushes a package with the check of its contents: the file is
    read as a whole, opened as an archive, and only sent if it passes. *)

From S2P Require Import Prelude Io Zip ZipFacts SyncBase SyncServer SyncClient SyncRun SyncFs SyncTransfer.

Section Apk.
Context {FS : Type} {fsys : FileSystem FS} {laws : FsLaws FS}.
Context (strerror : option errno -> list Z).
Implicit Types fs : FS.

Lemma does_data_buffer_loop fs : forall fuel buf, (length buf <= fuel)%nat ->
  exists ds, concat ds = buf /\ Forall chunk_ok ds /\ does (data_buffer_loop fuel buf) [] fs 0 (concat (chunk <$> ds)) fs.
Proof.
  induction fuel as [|fuel IH]; intros buf Hl; cbn [data_buffer_loop].
  { destruct buf; [|cbn in Hl; lia]. exists []. split_and!; [done|constructor|apply does_ret]. }
  destruct buf as [|b buf']; [exists []; split_and!; [done|constructor|apply does_ret]|]. set (buf := b :: buf') in *.
  destruct (IH (drop (Z.to_nat SYNC_DATA_MAX) buf)) as (ds & Hds & Hok & Hd).
  { rewrite length_drop. assert (0 < Z.to_nat SYNC_DATA_MAX)%nat by (unfold SYNC_DATA_MAX; lia). cbn [length buf] in *. lia. }
  exists (take (Z.to_nat SYNC_DATA_MAX) buf :: ds). split_and!.
  - cbn [concat]. by rewrite Hds, take_drop.
  - constructor; [|done]. unfold chunk_ok, SYNC_DATA_MAX. rewrite length_take. lia.
  - cbn [fmap list_fmap concat]. eapply does_bind_w; [apply does_send_chunk|]. cbn [negb].
    eapply does_bind_n; [by apply does_modify|]. exact Hd.
Qed.

(** The package can be read into memory: it is shorter than 2 GB, the calls before
    the read succeed, and one read returns it. *)
Record loads (lpath : list Z) (f : rdfd) fs : Prop := {
  ld_open : fs_open_rd lpath fs = inr f;
  ld_size : Z.of_nat (length (rd_data f)) < 2147483648;
  ld_calls : fs_lseek lpath fs = true /\ fs_malloc (Z.of_nat (length (rd_data f))) fs = true;
  ld_read : exists f', adb_read (length (rd_data f)) f = (Got (rd_data f), f')
}.

Lemma does_load_apk lpath f b fs :
  loads lpath f fs -> verify_apk (rd_data f) = Ok b ->
  does (load_apk lpath) [] fs (if b then inr (rd_data f) else inl 1) [] fs.
Proof.
  intros [Ho Hs [Hk Hm] [f' Hr]] Hv. unfold load_apk. eapply does_bind_n; [apply does_get_fs|].
  rewrite Ho, (proj2 (Z.leb_gt _ _)), Hk, Hm, Nat2Z.id, Hr, Z.eqb_refl, Hv by done. cbn [negb orb].
  destruct b; apply does_ret.
Qed.

(** A package that cannot be read is not sent. *)
Lemma does_load_apk_failed lpath f fs :
  fs_open_rd lpath fs = inr f -> Z.of_nat (length (rd_data f)) < 2147483648 ->
  fs_lseek lpath fs = false \/ fs_malloc (Z.of_nat (length (rd_data f))) fs = false ->
  does (load_apk lpath) [] fs (inl 1) [] fs.
Proof.
  intros Ho Hs Hf. unfold load_apk. eapply does_bind_n; [apply does_get_fs|].
  rewrite Ho, (proj2 (Z.leb_gt _ _)) by done. destruct Hf as [-> | ->]; [|rewrite orb_true_r]; apply does_ret.
Qed.

Lemma does_sync_send_apk lpath rpath mtime mode f fs :
  loads lpath f fs -> verify_apk (rd_data f) = Ok true -> 0 <= mode < 65536 -> (length rpath <= 1024)%nat ->
  exists ds, concat ds = rd_data f /\ Forall chunk_ok ds /\
    does (sync_send lpath rpath mtime mode true) (msg_status ID_OKAY 0) fs 0 (send_stream rpath mode mtime ds) fs.
Proof.
  intros Ho Hv Hm Hl. destruct (does_data_buffer_loop fs (length (rd_data f)) (rd_data f)) as (ds & Hds & Hok & Hd); [done|].
  exists ds. split_and!; [done..|]. unfold sync_send. rewrite (proj2 (Nat.ltb_ge 1024 _)) by done. rewrite mode_suffix_snprintf by done.
  eapply does_bind_n; [by eapply does_then_ret; [eapply (does_load_apk _ _ true)|]|]. cbv beta iota.
  unfold send_stream, request. rewrite <- !app_assoc, length_app.
  eapply does_bind_w; [apply does_writex|]. eapply does_bind_w; [apply does_writex|].
  eapply does_bind_w; [apply does_writex|]. cbn [negb].
  eapply does_bind_w; [exact Hd|]. apply does_send_finish.
Qed.

(** A package that is not loaded ends the transfer before anything is sent. *)
Lemma does_sync_send_refused lpath rpath mtime mode fs :
  does (load_apk lpath) [] fs (inl 1) [] fs -> (length rpath <= 1024)%nat ->
  does (sync_send lpath rpath mtime mode true) [] fs 1 [] fs.
Proof.
  intros Hd Hl. unfold sync_send. rewrite (proj2 (Nat.ltb_ge 1024 _)) by done.
  eapply does_bind_n; [by eapply does_then_ret; [exact Hd|]|]. apply does_ret.
Qed.

(** A computation that ends by closing the connection, when the other end hangs up
    after [i]. *)
Definition ends_at (m : M (conn FS) unit) (i : list Z) (fs : FS) (o : list Z) (fs' : FS) : Prop :=
  forall c, good c -> rd_data (c_in c) = i -> c_fs c = fs ->
    exists c', m c = Ok (tt, c') /\ c_closed c' = true /\
      wr_out (c_out c') = wr_out (c_out c) ++ o /\ c_fs c' = fs'.

Lemma ends_bind {A} (m : M (conn FS) A) k i1 i2 fs a o1 fs1 o2 fs2 :
  does m i1 fs a o1 fs1 -> ends_at (k a) i2 fs1 o2 fs2 -> ends_at (bind m k) (i1 ++ i2) fs (o1 ++ o2) fs2.
Proof.
  intros Hm Hk c Hg Hi Hf. destruct (Hm c i2 Hg Hi Hf) as (c1 & E & Hg1 & Hi1 & Ho1 & Hf1).
  destruct (Hk c1 Hg1 Hi1 Hf1) as (c2 & E2 & Hc2 & Ho2 & Hf2). exists c2. rewrite (bind_ok _ _ _ _ _ E).
  split_and!; try done. by rewrite Ho2, Ho1, app_assoc.
Qed.

Lemma loop_hangs_up fuel fs :
  ends_at (service_loop strerror (S fuel)) [] fs (fail_reply (bs "command read failure")) fs.
Proof.
  intros c Hg Hi Hf. pose proof Hg as (Hc & Hr & Hw).
  destruct (readx_benign 8 (c_in c) Hr) as (sc & Hsc & E). rewrite Hi in E. change (read_exact 8 []) with (@None (list Z), @nil Z) in E.
  assert (c_readx 8 c = Ok (None, set_in (mkRd [] sc) c)) as E1 by (unfold c_readx; by rewrite Hc, E).
  destruct (does_fail_message (bs "command read failure") fs (set_in (mkRd [] sc) c) [])
    as (c2 & E2 & Hg2 & _ & Ho2 & Hf2); [by split_and!|done|done|].
  cbn [service_loop]. rewrite (bind_ok _ _ _ _ _ E1). cbv beta iota. rewrite (bind_ok _ _ _ _ _ E2).
  eexists. split; [reflexivity|]. by split_and!.
Qed.

(** The service of a client that asks what a path is and hangs up. *)
Lemma stat_then_hang_up rpath fs :
  path_ok rpath ->
  ends_at (file_sync_service strerror) (request ID_STAT rpath) fs
    (stat_reply rpath fs ++ fail_reply (bs "command read failure")) fs.
Proof.
  intros Hp c Hg Hi Hf. pose proof (path_len _ Hp) as Hl. unfold file_sync_service. rewrite (bind_ok get _ c c c) by done.
  assert (exists f, length (rd_data (c_in c)) = S f) as [f ->].
  { rewrite Hi. unfold request. rewrite length_app. cbn [length msg_req]. destruct (_ + _)%nat eqn:E; [|eauto].
    exfalso. unfold msg_req in E. rewrite length_app in E. cbn in E. lia. }
  revert c Hg Hi Hf. rewrite <- (app_nil_r (request ID_STAT rpath)). unfold request. rewrite <- !app_assoc.
  change (ends_at (service_loop strerror (S (S f))) (msg_req ID_STAT (Z.of_nat (length rpath)) ++ rpath ++ []) fs
    (stat_reply rpath fs ++ fail_reply (bs "command read failure")) fs).
  rewrite <- (app_nil_l (stat_reply _ _ ++ _)). cbn [service_loop].
  eapply ends_bind; [by apply does_readx|]. cbv beta iota. words.
  rewrite (proj2 (Z.ltb_ge 1024 _)) by apply Hp. rewrite <- (app_nil_l (stat_reply _ _ ++ _)).
  eapply ends_bind; [apply does_readx; lia|]. cbv beta iota.
  rewrite cstr_id by apply Hp. eapply (ends_bind _ _ [] []); [apply does_do_stat|]. cbn [Z.eqb].
  apply loop_hangs_up.
Qed.

(** C8: pushing a package with the check, as [adb install] does, with the service
    at the other end.  If the check accepts what the file holds, it arrives byte by
    byte and with its time, and the client returns 0.  If the check refuses it, or
    the file cannot be read into memory, the client returns 1 after the one request
    that asks what the destination is, and the service, which answers that and then
    finds the connection closed, leaves the file system as it was.  The check of a
    well-formed archive accepts those with an entry named by a beginning of
    [AndroidManifest.xml].  Archives on which the check itself reads outside of the
    file are not covered, nor are files of 2 GB and more. *)
Theorem push_checks_package (cfs sfs sfs1 : FS) lpath rpath st f w :
  let dest := push_dest lpath rpath sfs in
  fs_stat lpath cfs = Some st -> S_ISREG (st_mode st) = true -> 0 <= st_mode st < 65536 ->
  fs_open_rd lpath cfs = inr f -> Z.of_nat (length (rd_data f)) < 2147483648 ->
  path_ok rpath -> path_ok (dest ++ mode_suffix (st_mode st)) ->
  open_for_send dest (send_perm (st_mode st)) (fs_unlink dest sfs) = (inr w, sfs1) ->
  Forall benign (wr_script (wf_wr w)) ->
  let sent :=
    exists cout sout sfs',
      does (do_sync_push true lpath rpath true) sout cfs 0 cout cfs /\
      finishes (file_sync_service strerror) cout sfs sout sfs' /\
      fs_contents dest sfs' = Some (rd_data f ++ drop (length (rd_data f)) (wf_base w)) /\
      (regular dest sfs1 -> exists st', fs_lstat dest sfs' = Some st' /\ st_mtime st' = u32 (st_mtime st)) in
  let refused :=
    exists cout sout more,
      does (do_sync_push true lpath rpath true) sout cfs 1 cout cfs /\
      ends_at (file_sync_service strerror) cout sfs (sout ++ more) sfs in
  (loads lpath f cfs -> forall b, verify_apk (rd_data f) = Ok b -> if b then sent else refused) /\
  (fs_lseek lpath cfs = false \/ fs_malloc (Z.of_nat (length (rd_data f))) cfs = false -> refused) /\
  (forall items comment, archive_ok items comment -> rd_data f = archive items comment ->
     verify_apk (rd_data f) = Ok (existsb (fun i => prefixb (it_name i) MANIFEST) items)).
Proof using laws.
  intros dest Hst Hreg Hm Ho Hsize Hp Hpd How Hbw sent refused.
  assert (length dest <= 1024)%nat as Hl by (destruct Hpd as [Hpd _]; rewrite length_app in Hpd; lia).
  assert (does (load_apk lpath) [] cfs (inl 1) [] cfs -> refused) as Hrefused.
  { intros Hd. exists (request ID_STAT rpath), (stat_reply rpath sfs), (fail_reply (bs "command read failure")).
    split; [|by apply stat_then_hang_up]. unfold do_sync_push. cbn [negb]. eapply does_bind_n; [apply does_get_fs|].
    rewrite Hst, (not_dir _ Hreg).
    rewrite <- (app_nil_r (stat_reply _ _)), <- (app_nil_r (request _ _)). eapply does_bind; [apply does_readmode|]. cbv beta iota.
    eapply does_bind_n; [by apply does_modify|]. eapply does_bind_n; [by eapply does_sync_send_refused|]. apply does_ret. }
  split_and!.
  - intros Hld [|] Hv; [|by apply Hrefused, (does_load_apk lpath f false)].
    destruct (does_sync_send_apk lpath dest (u32 (st_mtime st)) (st_mode st) f cfs Hld Hv Hm Hl) as (ds & Hds & Hc & Hs).
    unfold sent. rewrite <- Hds. by eapply push_session_of.
  - intros Hf. by apply Hrefused, (does_load_apk_failed lpath f).
  - intros items comment Hok ->. by apply verify_archive.
Qed.

End Apk.

(** ** A concrete package *)

Section Demo.
Import MemFs.

Definition apk_fs : memfs := mkMem {[bs "/p.apk" := File (archive demo_archive (bs "hello")) 0x1a4 77]} [].
Definition apk_device : memfs := mkMem {[bs "/t" := Dir 9]} [].

(** A file that is no archive. *)
Definition text_fs : memfs := mkMem {[bs "/p.apk" := File (bs "no archive") 0x1a4 77]} [].

Lemma push_checks_package_witness :
  (exists cout sout sfs',
    does (do_sync_push true (bs "/p.apk") (bs "/t") true) sout apk_fs 0 cout apk_fs /\
    finishes (file_sync_service (fun _ => [])) cout apk_device sout sfs' /\
    fs_contents (bs "/t/p.apk") sfs' = Some (archive demo_archive (bs "hello"))) /\
  exists cout sout more,
    does (do_sync_push true (bs "/p.apk") (bs "/t") true) sout text_fs 1 cout text_fs /\
    ends_at (file_sync_service (fun _ => [])) cout apk_device (sout ++ more) apk_device.
Proof.
  split.
  - destruct (push_checks_package (fun _ => []) apk_fs apk_device
      (put (bs "/t/p.apk") (File [] 0x1b6 0) apk_device) (bs "/p.apk") (bs "/t")
      (mkStat 0x81a4 (len (archive demo_archive (bs "hello"))) 77) (mkRd (archive demo_archive (bs "hello")) [])
      (mkWf [] (mkWr [] []))) as (H & _ & Ha);
      [by vm_compute|by vm_compute|by vm_compute|by vm_compute|by vm_compute| | |by vm_compute|constructor|].
    1, 2: split; [by vm_compute|repeat (constructor; [done|]); constructor].
    destruct (H ltac:(by constructor; [by vm_compute|by vm_compute|done|by eexists; vm_compute]) true) as (cout & sout & sfs' & H1 & H2 & H3 & _).
    + by vm_compute.
    + exists cout, sout, sfs'. done.
  - destruct (push_checks_package (fun _ => []) text_fs apk_device
      (put (bs "/t/p.apk") (File [] 0x1b6 0) apk_device) (bs "/p.apk") (bs "/t")
      (mkStat 0x81a4 10 77) (mkRd (bs "no archive") []) (mkWf [] (mkWr [] []))) as (H & _);
      [by vm_compute|by vm_compute|by vm_compute|by vm_compute|by vm_compute| | |by vm_compute|constructor|].
    1, 2: split; [by vm_compute|repeat (constructor; [done|]); constructor].
    apply (H ltac:(by constructor; [by vm_compute|by vm_compute|done|by eexists; vm_compute]) false). by vm_compute.
Defined.

End Demo.
