(* ===== verification/SyncSafety.v ===== *)
(** * Listings, robustness and overruns of the sync protocol

    The listing a client receives is the directory the service sees; the service
    terminates on every input; and the lengths the client takes from the other
    side as signed numbers can overrun its buffers. *)

From S2P Require Import Prelude Io SyncBase SyncServer SyncClient SyncRun SyncFs SyncTransfer.

Section Listing.
Context {FS : Type} {fsys : FileSystem FS}.
Implicit Types fs : FS.

(** The entries the service reports for the names of a directory. *)
Definition listing (path : list Z) fs (names : list (list Z)) : list dent :=
  omap (fun name =>
    if (256 <? length name)%nat then None
    else match fs_lstat (path ++ [47] ++ name) fs with
         | None => None
         | Some st => Some (mkDent (u32 (st_mode st)) (u32 (st_size st)) (u32 (st_mtime st)) name)
         end) names.

Definition dent_bytes (d : dent) : list Z :=
  msg_dent ID_DENT (de_mode d) (de_size d) (de_time d) (Z.of_nat (length (de_name d))) ++ de_name d.

Definition dent_ok (d : dent) : Prop :=
  is_u32 (de_mode d) /\ is_u32 (de_size d) /\ is_u32 (de_time d) /\
  (length (de_name d) <= 256)%nat /\ Forall (fun b => b <> 0) (de_name d).

Lemma listing_ok path fs names :
  Forall (Forall (fun b => b <> 0)) names -> Forall dent_ok (listing path fs names).
Proof.
  induction 1 as [|name names Hn _ IH]; [constructor|]. unfold listing in *. cbn [omap list_omap].
  destruct (256 <? length name)%nat eqn:E; [done|].
  destruct (fs_lstat (path ++ [47] ++ name) fs); [|done]. constructor; [|done].
  apply Nat.ltb_ge in E. split_and!; try apply u32_range; done.
Qed.

Lemma does_list_entries path names fs :
  Forall (fun n => length path + 1 + length n + 1 <= LIST_TMP \/ 256 < length n)%nat names ->
  does (list_entries path names) [] fs true (concat (dent_bytes <$> listing path fs names)) fs.
Proof.
  induction 1 as [|name names Hn _ IH]; [apply does_ret|].
  cbn [list_entries]. unfold listing. cbn [omap list_omap]. fold (listing path fs names).
  destruct (256 <? length name)%nat eqn:E; [exact IH|]. apply Nat.ltb_ge in E.
  rewrite (proj2 (Nat.ltb_ge LIST_TMP _)) by lia.
  eapply does_bind_n; [apply does_get_fs|].
  destruct (fs_lstat (path ++ [47] ++ name) fs) as [st|]; [|exact IH].
  cbn [fmap list_fmap concat]. unfold dent_bytes at 1. rewrite <- app_assoc.
  eapply does_bind_w; [apply does_writex|]. cbn [negb].
  eapply does_bind_w; [apply does_writex|]. cbn [negb]. exact IH.
Qed.

Lemma s32_le n : 0 <= n <= 256 -> s32 n = n.
Proof. intros. apply s32_small. unfold SYNC_DATA_MAX. lia. Qed.

Lemma does_ls_loop ds : forall fuel acc fs,
  Forall dent_ok ds -> (length ds < fuel)%nat ->
  does (ls_loop fuel acc) (concat (dent_bytes <$> ds) ++ msg_dent ID_DONE 0 0 0 0) fs
    (0, acc ++ ds) [] fs.
Proof.
  induction ds as [|d ds IH]; intros [|fuel] acc fs Hds Hf; simpl in Hf; try lia; cbn [ls_loop].
  - cbn [fmap list_fmap concat app]. rewrite (app_nil_r acc), <- (app_nil_r (msg_dent ID_DONE 0 0 0 0)).
    eapply does_bind_r; [by apply does_readx|]. cbv beta iota. words. apply does_ret.
  - apply Forall_cons_iff in Hds as [(Hm & Hz & Ht & Hl & Hnz) Hds].
    assert (is_u32 (Z.of_nat (length (de_name d)))) as Hu by (unfold is_u32, two32; lia).
    cbn [fmap list_fmap concat]. unfold dent_bytes at 1. rewrite <- !app_assoc.
    eapply does_bind_r; [by apply does_readx|]. cbv beta iota. words.
    change (ID_DENT =? ID_DONE) with false. rewrite Z.eqb_refl. cbn [negb].
    rewrite s32_le by lia. rewrite (proj2 (Z.ltb_ge 256 _)) by lia. rewrite u32_id by done.
    eapply does_bind_r; [apply does_readx_into; lia|]. cbv beta iota.
    rewrite cstr_id by done. replace (acc ++ d :: ds) with ((acc ++ [d]) ++ ds) by (by rewrite <- app_assoc).
    destruct d. apply IH; [done|lia].
Qed.

Lemma dents_length (ds : list dent) : (length ds <= length (concat (dent_bytes <$> ds)))%nat.
Proof.
  induction ds as [|d ds IH]; [simpl; lia|]. cbn [fmap list_fmap concat length].
  rewrite length_app. unfold dent_bytes at 1. rewrite length_app.
  change (length (msg_dent _ _ _ _ _)) with 20%nat. lia.
Qed.

(** A whole listing, at both ends. *)
Lemma does_listing (cfs sfs : FS) path names :
  (fs_readdir path sfs = Some names \/ fs_readdir path sfs = None /\ names = []) ->
  path_ok path -> Forall (Forall (fun b => b <> 0)) names ->
  Forall (fun n => length path + length n + 2 <= LIST_TMP)%nat names ->
  exists reply, does (do_list path) [] sfs 0 reply sfs /\
    does (sync_ls path) reply cfs (0, listing path sfs names) (request ID_LIST path) cfs.
Proof.
  intros Hd [Hp _] Hnz Hfit.
  exists (concat (dent_bytes <$> listing path sfs names) ++ msg_dent ID_DONE 0 0 0 0). split.
  - unfold do_list. rewrite (proj2 (Nat.ltb_ge LIST_TMP _)) by (unfold LIST_TMP; lia).
    eapply does_bind_n; [apply does_get_fs|].
    eapply (does_bind_w _ _ _ _ true).
    + destruct Hd as [->|[-> ->]]; [|apply does_ret]. apply does_list_entries.
      eapply Forall_impl; [|exact Hfit]. simpl. lia.
    + cbn [negb]. by eapply does_then_ret; [apply does_writex|].
  - unfold sync_ls. rewrite (proj2 (Nat.ltb_ge 1024 _)) by lia.
    rewrite <- (app_nil_r (request ID_LIST path)).
    eapply does_bind_w; [apply does_send_req|]. cbn [negb].
    apply (does_fuel (fun fuel => ls_loop fuel [])). intros fuel Hf.
    rewrite length_app in Hf. pose proof (dents_length (listing path sfs names)).
    apply does_ls_loop; [by apply listing_ok|lia].
Qed.

(** A directory listed over the connection is the directory: the client's
    callback sees exactly the names the service could stat, in the order of the
    directory and with their modes, sizes and times (as 32-bit words); an
    unreadable directory is listed as empty.  The names must be C strings and
    such that path and name fit the service's buffer. *)
Theorem listing_roundtrip (cfs sfs : FS) path names :
  (fs_readdir path sfs = Some names \/ fs_readdir path sfs = None /\ names = []) ->
  path_ok path -> Forall (Forall (fun b => b <> 0)) names ->
  Forall (fun n => length path + length n + 2 <= LIST_TMP)%nat names ->
  exists reply, does (do_list path) [] sfs 0 reply sfs /\
    does (sync_ls path) reply cfs (0, listing path sfs names) (request ID_LIST path) cfs.
Proof. apply does_listing. Qed.

End Listing.

(** ** Termination of the service *)

Section Termination.
Context {FS : Type} {fsys : FileSystem FS}.
Context (strerror : option errno -> list Z).

(** Bytes of the connection still to be read. *)
Definition left (c : conn FS) : nat := length (rd_data (c_in c)).

(** [m] returns with [Q], or has undefined behaviour; it does not run out of
    fuel, and it never makes unread bytes appear. *)
Definition settles {A} (m : M (conn FS) A) (Q : A -> conn FS -> Prop) (c : conn FS) : Prop :=
  match m c with
  | Ok (a, c') => Q a c' /\ (left c' <= left c)%nat
  | Err e => e = EUndef
  end.

Definition always {A} (_ : A) (_ : conn FS) : Prop := True.

Lemma settles_ret {A} (a : A) (Q : A -> conn FS -> Prop) c : Q a c -> settles (ret a) Q c.
Proof. intros H. by split. Qed.

Lemma settles_undef {A} (Q : A -> conn FS -> Prop) c : settles (fail EUndef) Q c.
Proof. done. Qed.

Lemma settles_bind {A B} (m : M (conn FS) A) (k : A -> M (conn FS) B) Q R c :
  settles m R c ->
  (forall a c', R a c' -> (left c' <= left c)%nat -> settles (k a) Q c') ->
  settles (bind m k) Q c.
Proof.
  unfold settles, bind. destruct (m c) as [[a c']|e]; [|done]. intros [HR Hl] Hk.
  specialize (Hk a c' HR Hl). destruct (k a c') as [[b c'']|e]; [|done].
  destruct Hk. split; [done|lia].
Qed.

(** The common case: nothing is needed of the first part. *)
Lemma settles_seq {A B} (m : M (conn FS) A) (k : A -> M (conn FS) B) Q c :
  settles m always c -> (forall a c', (left c' <= left c)%nat -> settles (k a) Q c') ->
  settles (bind m k) Q c.
Proof. intros Hm Hk. eapply settles_bind; [exact Hm|]. auto. Qed.

Lemma settles_weaken {A} (m : M (conn FS) A) (Q R : A -> conn FS -> Prop) c :
  settles m Q c -> (forall a c', Q a c' -> R a c') -> settles m R c.
Proof. unfold settles. destruct (m c) as [[a c']|e]; [|done]. intros [HQ Hl] H. split; auto. Qed.

Lemma settles_writex buf c : settles (c_writex buf) always c.
Proof.
  unfold settles, c_writex. destruct (c_closed c); [by split|].
  destruct (writex_returns buf (c_out c)) as (r & s' & l & -> & _). by split.
Qed.

Lemma settles_readx len c :
  settles (c_readx len) (fun r c' => r <> None -> (left c' + len <= left c)%nat) c.
Proof.
  unfold settles, c_readx, left. destruct (c_closed c); [by split|].
  destruct (readx_returns len (c_in c)) as (r & s' & l & -> & Hd & Ho). cbn [set_in c_in].
  rewrite Hd, length_app. split; [|lia]. intros Hr. destruct r as [out|]; [|done].
  destruct (Ho out eq_refl). lia.
Qed.

Lemma settles_modify f c :
  (forall c, c_in (f c) = c_in c) -> settles (modify f) always c.
Proof. intros H. unfold settles, modify, left. by rewrite H. Qed.

Lemma settles_with_fs {A} (f : FS -> A * FS) c : settles (with_fs f) always c.
Proof. unfold settles, with_fs. by destruct (f (c_fs c)). Qed.

Lemma settles_get_fs c : settles get_fs always c.
Proof. by split. Qed.

Lemma settles_readx_buf len c : settles (c_readx_buf len) always c.
Proof.
  unfold c_readx_buf, c_readx_into. eapply settles_seq.
  - destruct (len <=? Z.to_nat SYNC_DATA_MAX)%nat.
    + eapply settles_weaken; [apply settles_readx|done].
    + eapply settles_bind; [apply settles_readx|]. intros [l|] c' _ _; [apply settles_undef|by apply settles_ret].
  - intros [l|] c' _; [|by apply settles_ret].
    eapply settles_seq; [by apply settles_modify|]. intros. by apply settles_ret.
Qed.

Lemma settles_unlink path c : settles (unlink path) always c.
Proof. by apply settles_modify. Qed.

Lemma settles_file_writex path w buf c : settles (file_writex path w buf) always c.
Proof.
  unfold settles, file_writex. destruct (writex_returns buf (wf_wr w)) as (r & s' & l & -> & _). by split.
Qed.

Lemma settles_fail_message text c : settles (fail_message text) always c.
Proof.
  unfold fail_message. eapply settles_seq; [apply settles_writex|]. intros [] c' _; simpl; [|by apply settles_ret].
  eapply settles_seq; [apply settles_writex|]. intros. by apply settles_ret.
Qed.

Lemma settles_close c : settles c_close (fun _ c' => c_closed c' = true) c.
Proof. by split. Qed.

Create HintDb settles.
Hint Resolve settles_writex settles_with_fs settles_get_fs settles_readx_buf settles_unlink
  settles_file_writex settles_fail_message settles_undef : settles.

(** One step of a computation that needs nothing of its parts. *)
Ltac settle :=
  repeat match goal with
  | |- settles (bind _ _) _ _ =>
      eapply settles_seq; [solve [eauto with settles | by apply settles_modify]|intros ? ? ?]
  | |- settles (ret _) _ _ => by apply settles_ret
  | |- settles (fail EUndef) _ _ => apply settles_undef
  | |- settles (match ?x with _ => _ end) _ _ => destruct x
  | |- settles (let '(_, _) := ?x in _) _ _ => destruct x
  end; eauto with settles.

Lemma settles_do_stat path c : settles (do_stat path) always c.
Proof. unfold do_stat. settle. Qed.

Lemma settles_do_list path c : settles (do_list path) always c.
Proof.
  assert (forall names c, settles (list_entries path names) always c) as He.
  { induction names as [|n names IH]; intros c0; cbn [list_entries]; settle. }
  unfold do_list. destruct (LIST_TMP <? _)%nat; [apply settles_undef|].
  eapply settles_seq; [apply settles_get_fs|]. intros fs c1 _.
  eapply settles_seq; [destruct (fs_readdir path fs); [apply He|by apply settles_ret]|].
  intros ok c2 _. settle.
Qed.

Lemma settles_send_file_loop fuel path fd c :
  (left c < fuel)%nat -> settles (send_file_loop strerror fuel path fd) always c.
Proof.
  revert fd c. induction fuel as [|f IH]; intros fd c Hf; [lia|]. cbn [send_file_loop].
  eapply settles_bind; [apply settles_readx|]. intros [m|] c1 H1 _; [|by apply settles_ret].
  specialize (H1 ltac:(done)). destruct (negb _); [settle|].
  destruct (SYNC_DATA_MAX <? word 1 m); [settle|].
  eapply settles_seq; [apply settles_readx_buf|]. intros [d|] c2 H2; [|by apply settles_ret].
  destruct fd as [w|]; [|apply IH; lia].
  eapply settles_seq; [apply settles_file_writex|]. intros [[] w'] c3 H3; [apply IH; lia|].
  eapply settles_seq; [apply settles_unlink|]. intros _ c4 H4.
  eapply settles_seq; [apply settles_fail_message|]. intros e c5 H5.
  destruct (e =? 0); [apply IH; lia|by apply settles_ret].
Qed.

Lemma settles_handle_send_file path mode c : settles (handle_send_file strerror path mode) always c.
Proof.
  unfold handle_send_file. eapply settles_seq; [apply settles_with_fs|]. intros r c1 _.
  eapply settles_seq; [destruct r; settle|]. intros [fd|] c2 _; [|by apply settles_ret].
  change (settles (x <- send_file_loop strerror (S (left c2)) path fd ;;
    match x with
    | SendDone None _ => ret 0
    | SendDone (Some _) timestamp =>
        modify (fun c => set_fs (fs_utime path timestamp (c_fs c)) c) ;;
        r <- c_writex (msg_status ID_OKAY 0) ;; ret (if r then 0 else -1)
    | SendFail => unlink path ;; ret (-1)
    | SendReturn => ret (-1)
    end) always c2).
  eapply settles_seq; [apply settles_send_file_loop; lia|]. intros x c3 _. settle.
Qed.

Lemma settles_handle_send_link path c : settles (handle_send_link strerror path) always c.
Proof.
  unfold handle_send_link.
  eapply settles_bind; [apply settles_readx|]. intros [m|] c1 _ _; [|by apply settles_ret].
  destruct (negb _); [settle|]. destruct (SYNC_DATA_MAX <? word 1 m); [settle|].
  eapply settles_seq; [apply settles_readx_buf|]. intros [d|] c2 _; [|by apply settles_ret].
  eapply (settles_seq get); [by split|]. intros c0 c3 _.
  eapply settles_seq; [unfold deref; settle|]. intros target c4 _.
  eapply settles_seq; [apply settles_with_fs|]. intros r c5 _.
  eapply settles_seq; [destruct r as [[]|]; settle|]. intros r' c6 _.
  destruct r' as [e|]; [settle|].
  eapply settles_bind; [apply settles_readx|]. intros [m'|] c7 _ _; [|by apply settles_ret]. settle.
Qed.

Lemma settles_do_send name c : settles (do_send strerror name) always c.
Proof.
  unfold do_send. destruct (parse_send name) as [[path mode] []];
    (eapply settles_seq; [apply settles_unlink|intros _ c' _]);
    [apply settles_handle_send_link|apply settles_handle_send_file].
Qed.

Lemma settles_recv_loop fuel f c :
  (length (rd_data f) + length (rd_script f) < fuel)%nat -> settles (recv_loop strerror fuel f) always c.
Proof.
  revert f c. induction fuel as [|n IH]; intros f c Hf; [lia|]. cbn [recv_loop].
  destruct (adb_read (Z.to_nat SYNC_DATA_MAX) f) as [r f'] eqn:E.
  destruct (adb_read_data _ _ _ _ E) as (l & Hd & _ & Hr).
  destruct (adb_read_progress _ _ _ _ E) as (Hs & Hs' & Hs0).
  rewrite Hd, length_app in Hf.
  destruct r as [[|b d]|e]; [settle| |].
  - subst l. simpl in Hf. eapply settles_seq; [by apply settles_modify|]. intros _ c1 _.
    eapply settles_seq; [apply settles_writex|]. intros [] c2 _; [|by apply settles_ret]. simpl.
    eapply settles_seq; [apply settles_writex|]. intros [] c3 _; [|by apply settles_ret]. simpl.
    apply IH. lia.
  - assert (rd_script f <> []) as Hne by (intros Hn; by destruct (Hs0 Hn)).
    specialize (Hs' Hne). destruct e; try apply settles_fail_message. apply IH. lia.
Qed.

Lemma settles_do_recv path c : settles (do_recv strerror path) always c.
Proof.
  unfold do_recv. eapply settles_seq; [apply settles_get_fs|]. intros fs c1 _.
  destruct (fs_open_rd path fs) as [e|f]; [settle|]. apply settles_recv_loop. lia.
Qed.

Lemma settles_command id name h c : sync_command strerror id name = Some h -> settles h always c.
Proof.
  unfold sync_command. repeat case_match; intros; simplify_eq;
    auto using settles_do_stat, settles_do_list, settles_do_send, settles_do_recv.
Qed.

Lemma settles_then_close {A} (m : M (conn FS) A) c :
  settles m always c -> settles (m ;; c_close) (fun _ c' => c_closed c' = true) c.
Proof. intros H. eapply settles_seq; [exact H|]. intros. apply settles_close. Qed.

Lemma settles_service fuel c :
  (left c < fuel)%nat -> settles (service_loop strerror fuel) (fun _ c' => c_closed c' = true) c.
Proof.
  revert c. induction fuel as [|f IH]; intros c Hf; [lia|]. cbn [service_loop].
  eapply settles_bind; [apply settles_readx|]. intros [m|] c1 H1 _;
    [|apply settles_then_close, settles_fail_message].
  specialize (H1 ltac:(done)). destruct (1024 <? word 1 m); [apply settles_then_close, settles_fail_message|].
  eapply settles_bind; [apply settles_readx|]. intros [name|] c2 _ H2;
    [|apply settles_then_close, settles_fail_message].
  destruct (sync_command strerror (word 0 m) (cstr name)) as [h|] eqn:Eh.
  - eapply settles_seq; [by eapply settles_command|]. intros x c3 H3.
    destruct (x =? 0); [apply IH; lia|apply settles_close].
  - destruct (word 0 m =? ID_QUIT); [apply settles_close|apply settles_then_close, settles_fail_message].
Qed.

(** The service settles. *)
Lemma service_settles (c : conn FS) :
  match file_sync_service strerror c with
  | Ok (_, c') => c_closed c' = true
  | Err e => e = EUndef
  end.
Proof.
  pose proof (settles_service (S (left c)) c ltac:(lia)) as H.
  unfold settles in H. change (service_loop strerror (S (left c)) c) with (file_sync_service strerror c) in H.
  destruct (file_sync_service strerror c) as [[[] c']|e]; [by destruct H|done].
Qed.

(** C29: whatever bytes the client sends, however the kernel answers, on every
    file system, the service ends: it closes the connection, or it has hit one
    of the undefined behaviours of the code (a listing longer than the name
    buffer, a link target without a terminating NUL).  No input keeps it in a
    loop. *)
Theorem file_sync_service_ends (c : conn FS) :
  match file_sync_service strerror c with
  | Ok (_, c') => c_closed c' = true
  | Err e => e = EUndef
  end.
Proof. apply service_settles. Qed.

End Termination.

(** ** Lengths taken as signed numbers *)

Section Overrun.
Context {FS : Type} {fsys : FileSystem FS}.
Implicit Types fs : FS.

(** On a connection in good order whose incoming bytes start with [i], the
    computation runs into undefined behaviour. *)
Definition breaks {A} (m : M (conn FS) A) (i : list Z) fs : Prop :=
  forall c rest, good c -> rd_data (c_in c) = i ++ rest -> c_fs c = fs -> m c = Err EUndef.

Lemma breaks_bind {A B} (m : M (conn FS) A) (k : A -> M (conn FS) B) i1 i2 fs a o fs1 :
  does m i1 fs a o fs1 -> breaks (k a) i2 fs1 -> breaks (bind m k) (i1 ++ i2) fs.
Proof.
  intros Hm Hk c rest Hg Hi Hf. rewrite <- app_assoc in Hi.
  destruct (Hm c (i2 ++ rest) Hg Hi Hf) as (c1 & E1 & Hg1 & Hi1 & _ & Hf1).
  rewrite (bind_ok _ _ _ _ _ E1). by eapply Hk.
Qed.

Lemma breaks_bind_n {A B} (m : M (conn FS) A) (k : A -> M (conn FS) B) i fs a o fs1 :
  does m [] fs a o fs1 -> breaks (k a) i fs1 -> breaks (bind m k) i fs.
Proof. apply (breaks_bind m k []). Qed.

Lemma breaks_first {A B} (m : M (conn FS) A) (k : A -> M (conn FS) B) i fs :
  breaks m i fs -> breaks (bind m k) i fs.
Proof. intros Hm c rest Hg Hi Hf. unfold bind. by rewrite (Hm c rest Hg Hi Hf). Qed.

Lemma breaks_readx_into cap len l fs :
  (cap < len)%nat -> length l = S cap -> breaks (c_readx_into cap len) l fs.
Proof.
  intros Hc Hl. unfold c_readx_into. rewrite (proj2 (Nat.leb_gt len cap)) by done.
  rewrite <- (app_nil_r l). eapply breaks_bind; [by apply does_readx|].
  by intros c rest Hg Hi Hf.
Qed.

Lemma s32_negative n : 2147483648 <= n < two32 -> s32 n < 0 /\ u32 (s32 n) = n.
Proof.
  unfold s32, u32, two32. intros Hn. rewrite (Z.mod_small n) by lia.
  rewrite (proj2 (Z.ltb_ge n 2147483648)) by lia. split; [lia|].
  symmetry. apply (Z.mod_unique _ _ (-1)); lia.
Qed.

(** C39: a length with its top bit set passes the client's checks, because it is
    compared as a signed number, and is then used as the huge number of bytes
    to read: an entry of a listing overruns the 257 bytes for its name, and a
    data message overruns the transfer buffer, as soon as that many bytes
    arrive. *)
Theorem negative_length_overruns fs n junk path :
  2147483648 <= n < two32 -> path_ok path ->
  (length junk = 258%nat -> breaks (sync_ls path) (msg_dent ID_DENT 0 0 0 n ++ junk) fs) /\
  (forall lpath w fs1, lpath <> [] -> length junk = S (Z.to_nat SYNC_DATA_MAX) ->
     fs_creat lpath 0x1a4 (before_creat lpath fs) = (inr w, fs1) ->
     breaks (sync_recv path lpath) (msg_data ID_DATA n ++ junk) fs).
Proof.
  intros Hn Hp. destruct (s32_negative n Hn) as [Hneg Hback].
  assert (is_u32 n) as Hu by (unfold is_u32, two32 in *; lia). split.
  - intros Hj. unfold sync_ls. rewrite (proj2 (Nat.ltb_ge 1024 _)) by (destruct Hp; lia).
    eapply breaks_bind_n; [apply does_send_req|]. cbn [negb].
    intros c rest Hg Hi Hf. unfold bind at 1, get. cbn [ls_loop].
    enough (forall f, breaks (r <- c_readx 20 ;;
      match r with
      | None => c_close ;; ret (-1, [])
      | Some m =>
          if word 0 m =? ID_DONE then ret (0, [])
          else if negb (word 0 m =? ID_DENT) then c_close ;; ret (-1, [])
          else if 256 <? s32 (word 4 m) then c_close ;; ret (-1, [])
          else b <- c_readx_into 257 (Z.to_nat (u32 (s32 (word 4 m)))) ;;
               match b with
               | None => c_close ;; ret (-1, [])
               | Some nb => ls_loop f ([] ++ [mkDent (word 1 m) (word 2 m) (word 3 m) (cstr nb)])
               end
      end) (msg_dent ID_DENT 0 0 0 n ++ junk) fs) as H by (by eapply H).
    intros f. eapply breaks_bind; [by apply does_readx|]. cbv beta iota. words.
    change (ID_DENT =? ID_DONE) with false. rewrite Z.eqb_refl. cbn [negb].
    rewrite (proj2 (Z.ltb_ge 256 _)) by lia. rewrite Hback.
    apply breaks_first, breaks_readx_into; [lia|done].
  - intros lpath w fs1 Hl Hj Hcr. unfold sync_recv.
    rewrite (proj2 (Nat.ltb_ge 1024 _)) by (destruct Hp; lia).
    eapply breaks_bind_n; [apply does_send_req|]. cbn [negb].
    eapply breaks_bind; [by apply does_readx|]. cbv beta iota.
    replace (word 0 (msg_data ID_DATA n)) with ID_DATA by (by words). rewrite Z.eqb_refl. cbn [orb].
    eapply breaks_bind_n; [apply does_unlink|]. destruct lpath as [|b x]; [done|].
    eapply breaks_bind_n; [apply does_with_fs, surjective_pairing|].
    eapply breaks_bind_n; [apply does_with_fs; exact Hcr|]. cbv beta iota.
    intros c rest Hg Hi Hf. unfold bind at 1, get. cbn [handle_data].
    replace (word 0 (msg_data ID_DATA n)) with ID_DATA by (by words).
    replace (word 1 (msg_data ID_DATA n)) with n by (by words).
    change (ID_DATA =? ID_DONE) with false. rewrite Z.eqb_refl. cbn [negb].
    rewrite (proj2 (Z.ltb_ge SYNC_DATA_MAX _)) by (unfold SYNC_DATA_MAX; lia). rewrite Hback.
    unfold c_readx_buf. unfold bind at 1 2.
    rewrite (breaks_readx_into (Z.to_nat SYNC_DATA_MAX) (Z.to_nat n) junk fs1) with (rest := rest);
      try done. unfold SYNC_DATA_MAX. lia.
Qed.

End Overrun.
