(* ===== verification/Services.v ===== *)
(** * The services of the daemon that run in threads of their own

    services.c as the daemon compiles it: choosing a service by its name, starting
    its thread or process, and the services that restart, reboot or update the
    device; framebuffer_service.c, log_service.c and remount_service.c; and
    [dns_service], which only the server of the host has.  The sync service
    (SyncServer.v) runs on the same state; the JDWP services, which the daemon starts
    from here too, have a file of their own.

    A service thread owns one end of a socket pair.  Its state here has what comes
    from that socket, what was written to it, whether it is still open, how many
    other descriptors the thread has open, the files it created and the requests it
    made of the system.  Using or closing the socket after it was closed is undefined
    behaviour.  What the system answers is a record [system]. *)

From S2P Require Import Prelude Io SyncBase SyncServer.

(** ** What the system answers *)

(** The part of [struct fb_var_screeninfo] that is used. *)
Record bitfield := mkBits { bf_offset : Z; bf_length : Z }.

Record screeninfo := mkScreen {
  xres : Z; yres : Z; xoffset : Z; yoffset : Z; bits_per_pixel : Z;
  red : bitfield; green : bitfield; blue : bitfield; transp : bitfield }.

Record system := mkSys {
  sys_fb0 : option rdfd;                   (** /dev/graphics/fb0, from its start *)
  sys_vscreeninfo : option screeninfo;     (** FBIOGET_VSCREENINFO *)
  sys_mtd : Z + rdfd;                      (** /proc/mtd, or the [errno] of [open] *)
  sys_mount : list Z -> Z;                 (** [mount] of this source over /system *)
  sys_log : list Z -> option (list io_ret);(** the answers of [read] on a log so far *)
  sys_creat : list Z -> option wrfd;       (** a new file *)
  sys_strerror : list Z;                   (** [strerror(errno)] after a failure *)
  sys_getprop : list Z -> list Z;          (** properties that are not set are empty *)
  sys_getuid : Z;
  sys_fork : Z;                            (** what [fork] returns to this process *)
  sys_exec : bool;                         (** [execl] finds the program *)
  sys_reboot : Z;
  sys_ptmx : bool; sys_grantpt : bool; sys_unlockpt : bool;
  sys_ptsname : option (list Z);
  sys_pts : bool; sys_oom_adj : bool;
  sys_socketpair : bool; sys_thread : bool;
  sys_stack : list Z }.                    (** bytes of uninitialised variables *)

(** Requests to the system, in the order they are made. *)
Inductive sysact :=
| ASync
| AWait (pid : Z)
| AReboot (arg : list Z)
| AMount (source target fs : list Z)
| ASetProp (key value : list Z)
| AOomAdj (path : list Z).

(** How a function ends: it returns, the process exits, or another program runs in
    the process from here on.  Or it does not end: it waits in a [read] that has not
    been answered. *)
Inductive outcome (A : Type) :=
| Returned (a : A)
| Exited (status : Z)
| Execed (argv : list (list Z))
| Waiting.
Arguments Returned {A}. Arguments Exited {A}. Arguments Execed {A}. Arguments Waiting {A}.

Record thread := mkThread {
  t_in : rdfd;                       (** what comes from the socket *)
  t_out : wrfd;                      (** what went to it *)
  t_open : bool;                     (** the socket has not been closed *)
  t_fds : Z;                         (** other descriptors opened and not closed *)
  t_files : gmap (list Z) wrfd;      (** files created *)
  t_acts : list sysact;
  system_ro : Z }.                   (** static variable of remount_service.c *)

Definition set_in (s : rdfd) (t : thread) : thread :=
  mkThread s (t_out t) (t_open t) (t_fds t) (t_files t) (t_acts t) (system_ro t).
Definition set_out (s : wrfd) (t : thread) : thread :=
  mkThread (t_in t) s (t_open t) (t_fds t) (t_files t) (t_acts t) (system_ro t).
Definition set_open (b : bool) (t : thread) : thread :=
  mkThread (t_in t) (t_out t) b (t_fds t) (t_files t) (t_acts t) (system_ro t).
Definition add_fds (n : Z) (t : thread) : thread :=
  mkThread (t_in t) (t_out t) (t_open t) (t_fds t + n) (t_files t) (t_acts t) (system_ro t).
Definition put_file (p : list Z) (f : wrfd) (t : thread) : thread :=
  mkThread (t_in t) (t_out t) (t_open t) (t_fds t) (<[p := f]> (t_files t)) (t_acts t)
    (system_ro t).
Definition add_act (a : sysact) (t : thread) : thread :=
  mkThread (t_in t) (t_out t) (t_open t) (t_fds t) (t_files t) (t_acts t ++ [a]) (system_ro t).
Definition set_ro (r : Z) (t : thread) : thread :=
  mkThread (t_in t) (t_out t) (t_open t) (t_fds t) (t_files t) (t_acts t) r.

(** ** The socket of the thread and other descriptors *)

(** [readx(fd, ...)] on the socket. *)
Definition sock_read (len : nat) : M thread (option (list Z)) :=
  fun t =>
  if t_open t then
    match readx len (t_in t) with
    | Ok (r, s) => Ok (r, set_in s t)
    | Err e => Err e
    end
  else Err EUndef.

(** [writex(fd, ...)] on the socket. *)
Definition sock_write (buf : list Z) : M thread bool :=
  fun t =>
  if t_open t then
    match writex buf (t_out t) with
    | Ok (r, s) => Ok (r, set_out s t)
    | Err e => Err e
    end
  else Err EUndef.

Definition sock_close : M thread unit :=
  fun t => if t_open t then Ok (tt, set_open false t) else Err EUndef.

(** Operations on another descriptor, whose state the caller holds. *)
Definition on_fd {S A} (m : M S A) (s : S) : M thread (A * S) :=
  fun t => match m s with Ok r => Ok (r, t) | Err e => Err e end.

Definition opened : M thread unit := modify (add_fds 1).
Definition closed : M thread unit := modify (add_fds (-1)).

(** [snprintf(buf, 100, ...); writex(fd, buf, strlen(buf))]. *)
Definition say (text : list Z) : M thread unit :=
  sock_write (snprintf 100 text) ;; ret tt.

Definition set_property (k v : list Z) : M thread unit := modify (add_act (ASetProp k v)).

(** ** framebuffer_service.c *)

Definition DDMS_RAWIMAGE_VERSION : Z := 1.

Record fbinfo := mkFbinfo {
  fb_version : Z; fb_bpp : Z; fb_size : Z; fb_width : Z; fb_height : Z;
  red_offset : Z; red_length : Z; blue_offset : Z; blue_length : Z;
  green_offset : Z; green_length : Z; alpha_offset : Z; alpha_length : Z }.

(** The packed structure in memory. *)
Definition fbinfo_bytes (i : fbinfo) : list Z :=
  mjoin (le32 <$> [fb_version i; fb_bpp i; fb_size i; fb_width i; fb_height i;
                   red_offset i; red_length i; blue_offset i; blue_length i;
                   green_offset i; green_length i; alpha_offset i; alpha_length i]).

Definition bytespp (v : screeninfo) : Z := bits_per_pixel v / 8.

Definition fbinfo_of (v : screeninfo) : fbinfo :=
  mkFbinfo DDMS_RAWIMAGE_VERSION (bits_per_pixel v)
    (u32 (u32 (xres v * yres v) * bytespp v)) (xres v) (yres v)
    (bf_offset (red v)) (bf_length (red v)) (bf_offset (blue v)) (bf_length (blue v))
    (bf_offset (green v)) (bf_length (green v)) (bf_offset (transp v)) (bf_length (transp v)).

(** [offset], an [int] computed in unsigned arithmetic. *)
Definition fb_start (v : screeninfo) : Z :=
  s32 (u32 (u32 (xoffset v * bytespp v) + u32 (u32 (xres v * yoffset v) * bytespp v))).

(** [lseek(fb, offset, SEEK_SET)] on a descriptor at its start: a negative offset is
    refused and changes nothing. *)
Definition lseek_set (offset : Z) (fb : rdfd) : rdfd :=
  if offset <? 0 then fb else mkRd (drop (Z.to_nat offset) (rd_data fb)) (rd_script fb).

(** One [readx] from the framebuffer and one [writex]; [None] is [goto done]. *)
Definition framebuffer_piece (n : nat) (fb : rdfd) : M thread (option rdfd) :=
  r <- on_fd (readx n) fb ;;
  match r with
  | (None, _) => ret None
  | (Some x, fb') => w <- sock_write x ;; ret (if w : bool then Some fb' else None)
  end.

Fixpoint framebuffer_loop (fuel : nat) (i size : Z) (fb : rdfd) : M thread (option rdfd) :=
  if i <? size then
    match fuel with
    | O => fail EFuel
    | S f =>
        r <- framebuffer_piece 256 fb ;;
        match r with
        | None => ret None
        | Some fb' => framebuffer_loop f (u32 (i + 256)) size fb'
        end
    end
  else ret (Some fb).

(** From the header to the label [done]. *)
Definition framebuffer_copy (v : screeninfo) (fb : rdfd) : M thread unit :=
  let info := fbinfo_of v in
  w <- sock_write (fbinfo_bytes info) ;;
  if (w : bool) then
    let fb := lseek_set (fb_start v) fb in
    r <- framebuffer_loop (S (length (rd_data fb))) 0 (fb_size info) fb ;;
    match r with
    | None => ret tt
    | Some fb' => framebuffer_piece (Z.to_nat (fb_size info mod 256)) fb' ;; ret tt
    end
  else ret tt.

Definition framebuffer_service (sys : system) : M thread (outcome unit) :=
  match sys_fb0 sys with
  | None => sock_close ;; ret (Returned tt)
  | Some fb =>
      opened ;;
      match sys_vscreeninfo sys with
      | None => ret tt
      | Some v => framebuffer_copy v fb
      end ;;
      closed ;; sock_close ;; ret (Returned tt)
  end.

(** ** log_service.c *)

Definition LOGGER_ENTRY_MAX_LEN : nat := 4096.
(** [sizeof(struct logger_entry)]: two 16-bit and four 32-bit fields. *)
Definition sizeof_logger_entry : nat := 20.

Definition get_log_file_path (log_name : list Z) : list Z := bs "/dev/log/" ++ log_name.

(** [write_log_entry]: the result of [writex] is not used. *)
Definition write_log_entry (buf : list Z) : M thread unit :=
  let len := Z.to_nat (of_le (take 2 buf)) in
  sock_write (take (sizeof_logger_entry + len) buf) ;; ret tt.

(** The loop of [log_service].  [buf] is the buffer of [LOGGER_ENTRY_MAX_LEN + 1]
    bytes with what is left in it from the entries before; each answer is one call of
    [read].  [true] when the loop has ended; it waits when there are no more answers. *)
Fixpoint log_loop (answers : list io_ret) (buf : list Z) : M thread bool :=
  match answers with
  | [] => ret false
  | Failed e :: k =>
      match e with
      | EINTR | EAGAIN => log_loop k buf
      | _ => ret true
      end
  | Got [] :: k => ret true
  | Got l :: k =>
      let l := take LOGGER_ENTRY_MAX_LEN l in
      let buf := l ++ drop (length l) buf in
      let at_ := (sizeof_logger_entry + Z.to_nat (of_le (take 2 buf)))%nat in
      if (at_ <? length buf)%nat then
        let buf := <[at_ := 0]> buf in
        write_log_entry buf ;; log_loop k buf
      else fail EUndef
  end.

(** The descriptor of the log is not closed. *)
Definition log_service (sys : system) (log_filepath : list Z) : M thread (outcome unit) :=
  match sys_log sys log_filepath with
  | None => sock_close ;; ret (Returned tt)
  | Some answers =>
      opened ;;
      ended <- log_loop answers (take (S LOGGER_ENTRY_MAX_LEN)
                                  (sys_stack sys ++ replicate (S LOGGER_ENTRY_MAX_LEN) 0)) ;;
      if ended : bool then sock_close ;; ret (Returned tt) else ret Waiting
  end.

(** ** Scanning numbers as the device's C library does *)

Fixpoint span (p : Z -> bool) (s : list Z) : list Z * list Z :=
  match s with
  | c :: s' => if p c then let '(a, b) := span p s' in (c :: a, b) else ([], s)
  | [] => ([], [])
  end.

Definition sign_of (s : list Z) : Z * list Z :=
  match s with
  | c :: s' => if c =? 45 then (-1, s') else if c =? 43 then (1, s') else (1, s)
  | [] => (1, [])
  end.

Definition two63 : Z := 9223372036854775808.

(** The value of [strtoimax] on decimal digits, converted to [int]. *)
Definition int_of_digits (sign : Z) (ds : list Z) : Z :=
  s32 (u32 (Z.max (- two63) (Z.min (two63 - 1) (sign * scan_digits ds 0)))).

(** [atoi] of the device: [(int)strtoimax(s, NULL, 10)]. *)
Definition device_atoi (s : list Z) : Z :=
  let '(sign, d) := sign_of (skip_space s) in int_of_digits sign (span isdigit d).1.

(** At most so many characters make a number for [scanf]. *)
Definition SCAN_WIDTH : nat := 512.

(** Conversion [%d] after the white space: the number and the rest of the input. *)
Definition scan_d (s : list Z) : option (Z * list Z) :=
  let '(sign, d) := sign_of (take SCAN_WIDTH s) in
  match span isdigit d with
  | ([], _) => None
  | (ds, r) => Some (int_of_digits sign ds, r ++ drop SCAN_WIDTH s)
  end.

Definition isxdigit (c : Z) : bool := bool_decide (is_Some (hexval c)).

(** Conversion [%x] after the white space, whose value is not used: the rest. *)
Definition scan_x (s : list Z) : option (list Z) :=
  let d := (sign_of (take SCAN_WIDTH s)).2 in
  let digits k := match span isxdigit k with ([], _) => None | (_, r) => Some r end in
  let r := match d with
           | z :: x :: k =>
               if (z =? 48) && ((x =? 120) || (x =? 88)) then Some (default (x :: k) (digits k))
               else digits d
           | _ => digits d
           end in
  (fun r => r ++ drop SCAN_WIDTH s) <$> r.

(** [sscanf(s, "%d", &n)]. *)
Definition device_sscanf_d (s : list Z) : scanned :=
  match skip_space s with
  | [] => ScanEof
  | k => match scan_d k with Some (n, _) => ScanInt n | None => ScanNone end
  end.

(** [sscanf(token, "mtd%d: %x %x %15s", ...) == 4]: the number and the name. *)
Definition sscanf_mtd (token : list Z) : option (Z * list Z) :=
  if prefixb (bs "mtd") token then
    '(num, s) ← scan_d (skip_space (drop 3 token));
    if prefixb (bs ":") s then
      s ← scan_x (skip_space (drop 1 s));
      s ← scan_x (skip_space s);
      match (span (fun c => negb (isspace c)) (take 15 (skip_space s))).1 with
      | [] => None
      | name => Some (num, name)
      end
    else None
  else None.

(** [strtok] with the delimiter newline: all tokens of a string; [tok] holds the
    characters of the token that is being read, the last one first. *)
Fixpoint tokens_from (tok : list Z) (s : list Z) : list (list Z) :=
  let here := match tok with [] => [] | _ => [rev tok] end in
  match s with
  | [] => here
  | c :: s' => if c =? 10 then here ++ tokens_from [] s' else tokens_from (c :: tok) s'
  end.

Definition tokens (s : list Z) : list (list Z) := tokens_from [] s.

(** ** remount_service.c *)

(** The loop over the tokens. *)
Fixpoint find_token (findme : list Z) (toks : list (list Z)) : Z :=
  match toks with
  | [] => -1
  | t :: ts =>
      match sscanf_mtd t with
      | Some (num, name) => if streq name findme then num else find_token findme ts
      | None => find_token findme ts
      end
  end.

(** The buffer of 1024 bytes after [read]: what was read, then what was there before,
    and a zero at the end. *)
Definition mtd_buffer (stack got : list Z) : list Z :=
  got ++ drop (length got) (take 1023 (stack ++ replicate 1023 0)) ++ [0].

Definition find_mount (sys : system) (findme : list Z) : Z :=
  match sys_mtd sys with
  | inl e => - e
  | inr fd =>
      let got := match adb_read 1023 fd with (Got l, _) => l | (Failed _, _) => [] end in
      find_token findme (tokens (cstr (mtd_buffer (sys_stack sys) got)))
  end.

(** The name with its quotes, as the kernel prints it. *)
Definition system_name : list Z := 34 :: bs "system" ++ [34].

Definition remount_system (sys : system) : M thread Z :=
  t <- get ;;
  if system_ro t =? 0 then ret 0
  else
    let num := find_mount sys system_name in
    if num <? 0 then ret (-1)
    else
      let source := snprintf 64 (bs "/dev/block/mtdblock" ++ fmt_d num) in
      modify (add_act (AMount source (bs "/system") (bs "yaffs2"))) ;;
      modify (set_ro (sys_mount sys source)) ;;
      ret (sys_mount sys source).

Definition write_string (str : list Z) : M thread unit := sock_write str ;; ret tt.

Definition remount_service (sys : system) : M thread (outcome unit) :=
  r <- remount_system sys ;;
  (if r =? 0 then write_string (bs "remount succeeded" ++ [10])
   else write_string (snprintf 200 (bs "remount failed: " ++ sys_strerror sys ++ [10]))) ;;
  sock_close ;; ret (Returned tt).

(** ** services.c: the services *)

(** [dns_service]: [hp] is the address [gethostbyname] found. *)
Definition dns_service (gethostbyname : list Z -> option (list Z)) (hostname : list Z) :
    M thread (outcome unit) :=
  match gethostbyname hostname with
  | None => sock_write (le32 0)
  | Some h_addr => sock_write (take 4 h_addr)
  end ;;
  sock_close ;; ret (Returned tt).

Definition update_path : list Z := bs "/tmp/update".
Definition begin_path : list Z := bs "/tmp/update.begin".

(** The loop of [recover_service]; the result is what is left of [count], with the
    new file. *)
Fixpoint recover_loop (fuel : nat) (count : Z) (file : wrfd) : M thread (Z * wrfd) :=
  if 0 <? count then
    match fuel with
    | O => fail EFuel
    | S f =>
        let xfer := if 4096 <? count then 4096 else count in
        r <- sock_read (Z.to_nat xfer) ;;
        match r with
        | None => ret (count, file)
        | Some buf =>
            w <- on_fd (writex buf) file ;;
            if (w.1 : bool) then recover_loop f (count - xfer) w.2
            else ret (count, w.2)
        end
    end
  else ret (count, file).

Definition recover_service (sys : system) (count : Z) : M thread (outcome unit) :=
  match sys_creat sys update_path with
  | None => sock_close ;; ret (Returned tt)
  | Some file =>
      opened ;;
      t <- get ;;
      r <- recover_loop (S (length (rd_data (t_in t)))) count file ;;
      modify (put_file update_path r.2) ;;
      sock_write (if r.1 =? 0 then bs "OKAY" else bs "FAIL") ;;
      closed ;; sock_close ;;
      match sys_creat sys begin_path with
      | None => ret (Returned tt)
      | Some f => modify (put_file begin_path f) ;; ret (Returned tt)
      end
  end.

Definition restart_root_service (sys : system) : M thread (outcome unit) :=
  if sys_getuid sys =? 0 then
    say (bs "adbd is already running as root" ++ [10]) ;; sock_close ;; ret (Returned tt)
  else if negb (streq (sys_getprop sys (bs "ro.debuggable")) (bs "1")) then
    say (bs "adbd cannot run as root in production builds" ++ [10]) ;;
    sock_close ;; ret (Returned tt)
  else
    set_property (bs "service.adb.root") (bs "1") ;;
    say (bs "restarting adbd as root" ++ [10]) ;; sock_close ;; ret (Exited 1).

Definition PROPERTY_VALUE_MAX : nat := 92.
Definition tcp_port_property : list Z := bs "service.adb.tcp.port".

Definition restart_tcp_service (port : Z) : M thread (outcome unit) :=
  if port <=? 0 then
    say (bs "invalid port" ++ [10]) ;; sock_close ;; ret (Returned tt)
  else
    set_property tcp_port_property (snprintf PROPERTY_VALUE_MAX (fmt_d port)) ;;
    say (bs "restarting in TCP mode port: " ++ fmt_d port ++ [10]) ;;
    sock_close ;; ret (Exited 1).

Definition restart_usb_service : M thread (outcome unit) :=
  set_property tcp_port_property (bs "0") ;;
  say (bs "restarting in USB mode" ++ [10]) ;; sock_close ;; ret (Exited 1).

(** From [__reboot] on, which parent and child both reach. *)
Definition reboot_now (sys : system) (arg : list Z) : M thread (outcome unit) :=
  modify (add_act (AReboot arg)) ;;
  (if sys_reboot sys <? 0
   then say (bs "reboot failed: " ++ sys_strerror sys ++ [10]) else ret tt) ;;
  sock_close ;; ret (Returned tt).

(** The process that runs on after [fork] is the one [sys_fork] says: 0 in the child. *)
Definition reboot_service (sys : system) (storage arg : list Z) : M thread (outcome unit) :=
  modify (add_act ASync) ;;
  let pid := sys_fork sys in
  if pid =? 0 then
    if sys_exec sys then
      ret (Execed [bs "/system/bin/vdc"; bs "volume"; bs "unmount"; storage; bs "force"])
    else reboot_now sys arg
  else
    when (0 <? pid) (modify (add_act (AWait pid))) ;; reboot_now sys arg.

(** ** services.c: starting services *)

(** The services that run in a thread, with their arguments. *)
Inductive service :=
| Framebuffer | Recover (count : Z) | Log (path : list Z) | FileSync | Remount
| Reboot (arg : list Z) | Root | Tcpip (port : Z) | UsbMode.

Inductive namespace := Reserved | Abstract | Filesystem.

(** What stands behind the descriptor that [service_to_fd] returns. *)
Inductive endpoint :=
| Loopback (port : Z)
| LocalSocket (ns : namespace) (name : list Z)
| DeviceFile (path : list Z)
| JdwpSocket (pid : Z)
| Terminal (argv : list (list Z))
| Thread (s : service).

Definition SHELL_COMMAND : list Z := bs "/system/bin/sh".

(** [create_subprocess]; the result is whether there is a descriptor to return. *)
Definition create_subprocess (sys : system) (argv : list (list Z)) : M thread (outcome bool) :=
  if negb (sys_ptmx sys) then ret (Returned false)
  else
    opened ;;
    match sys_grantpt sys && sys_unlockpt sys, sys_ptsname sys with
    | true, Some devname =>
        let pid := sys_fork sys in
        if pid <? 0 then ret (Returned false)
        else if pid =? 0 then
          if negb (sys_pts sys) then ret (Exited (-1))
          else
            closed ;;
            (if sys_exec sys then ret (Execed argv) else ret (Exited (-1)))
        else
          when (sys_oom_adj sys)
            (modify (add_act (AOomAdj (snprintf 64 (bs "/proc/" ++ fmt_d pid ++ bs "/oom_adj"))))) ;;
          ret (Returned true)
    | _, _ => ret (Returned false)
    end.

(** [create_service_thread]: whether the thread runs; [t_open] is its end of the pair. *)
Definition create_service_thread (sys : system) : M thread bool :=
  if negb (sys_socketpair sys) then ret false
  else
    modify (set_open true) ;; opened ;;
    if sys_thread sys then ret true
    else closed ;; sock_close ;; ret false.

(** The chain of comparisons in [service_to_fd], as the daemon compiles it.  A port
    that [sscanf] does not set keeps the bytes of the stack. *)
Definition daemon_service_to_fd (sys : system) (recovery_mode : bool) (name : list Z) :
    option endpoint :=
  if prefixb (bs "tcp:") name then
    match strchr 58 (drop 4 name) with
    | None => Some (Loopback (device_atoi (drop 4 name)))
    | Some _ => None
    end
  else if prefixb (bs "local:") name then Some (LocalSocket Reserved (drop 6 name))
  else if prefixb (bs "localreserved:") name then Some (LocalSocket Reserved (drop 14 name))
  else if prefixb (bs "localabstract:") name then Some (LocalSocket Abstract (drop 14 name))
  else if prefixb (bs "localfilesystem:") name then
    Some (LocalSocket Filesystem (drop 16 name))
  else if prefixb (bs "dev:") name then Some (DeviceFile (drop 4 name))
  else if prefixb (bs "framebuffer:") name then Some (Thread Framebuffer)
  else if recovery_mode && prefixb (bs "recover:") name then
    Some (Thread (Recover (u32 (device_atoi (drop 8 name)))))
  else if prefixb (bs "jdwp:") name then Some (JdwpSocket (device_atoi (drop 5 name)))
  else if prefixb (bs "log:") name then Some (Thread (Log (get_log_file_path (drop 4 name))))
  else if prefixb (bs "shell:") name then
    match drop 6 name with
    | [] => Some (Terminal [SHELL_COMMAND; bs "-"])
    | cmd => Some (Terminal [SHELL_COMMAND; bs "-c"; cmd])
    end
  else if prefixb (bs "sync:") name then Some (Thread FileSync)
  else if prefixb (bs "remount:") name then Some (Thread Remount)
  else if prefixb (bs "reboot:") name then Some (Thread (Reboot (drop 7 name)))
  else if prefixb (bs "root:") name then Some (Thread Root)
  else if prefixb (bs "tcpip:") name then
    Some (Thread (Tcpip match device_sscanf_d (drop 6 name) with
                        | ScanInt n => n
                        | ScanNone => 0
                        | ScanEof => s32 (of_le (take 4 (sys_stack sys)))
                        end))
  else if prefixb (bs "usb:") name then Some (Thread UsbMode)
  else None.

(** The sync service on the socket of the thread, with the file system [fs]; [buf] is
    what the buffer of the service holds at first. *)
Section bootstrap.
Context {FS : Type} {fsys : FileSystem FS} (strerror : option errno -> list Z) (fs : FS) (buf : list Z).

Definition file_sync_thread : M thread (outcome unit) :=
  fun t =>
  match file_sync_service strerror (mkConn (t_in t) (t_out t) (negb (t_open t)) fs buf 0) with
  | Ok (_, c) => Ok (Returned tt, set_open (negb (c_closed c)) (set_out (c_out c) (set_in (c_in c) t)))
  | Err e => Err e
  end.

(** [service_bootstrap_func]: the thread's function. *)
Definition service_bootstrap_func (sys : system) (storage : list Z) (s : service) : M thread (outcome unit) :=
  match s with
  | Framebuffer => framebuffer_service sys
  | Recover count => recover_service sys count
  | Log path => log_service sys path
  | FileSync => file_sync_thread
  | Remount => remount_service sys
  | Reboot arg => reboot_service sys storage arg
  | Root => restart_root_service sys
  | Tcpip port => restart_tcp_service port
  | UsbMode => restart_usb_service
  end.

End bootstrap.
