(* ===== verification/ServicesFacts.v ===== *)
(** * What the services of the daemon do

    Every service that ends has closed its socket once, whatever the system answers; the
    framebuffer service sends the screen, the recovery service saves an update, the
    log service forwards entries, and the remount service finds the partition. *)

From S2P Require Import Prelude Io SyncBase SyncServer SyncSafety SyncFs Services.

(** ** Runs that may fail to transfer *)

(** Whatever the kernel answers, an operation on the open socket returns and changes
    nothing but that socket's streams. *)
Definition on_socket (t t' : thread) : Prop :=
  t_open t' = true /\ t_fds t' = t_fds t /\ t_acts t' = t_acts t.

Lemma wp_sock_write buf (Q : bool -> thread -> Prop) t :
  t_open t = true -> (forall r s, Q r (set_out s t)) -> wp (sock_write buf) Q t.
Proof.
  intros Ho HQ. unfold wp, sock_write. rewrite Ho.
  destruct (writex_returns buf (t_out t)) as (r & s & l & -> & _). apply HQ.
Qed.

Lemma wp_sock_read len (Q : option (list Z) -> thread -> Prop) t :
  t_open t = true ->
  (forall r s l, rd_data (t_in t) = l ++ rd_data s -> (is_Some r -> length l = len) ->
     Q r (set_in s t)) ->
  wp (sock_read len) Q t.
Proof.
  intros Ho HQ. unfold wp, sock_read. rewrite Ho.
  destruct (readx_returns len (t_in t)) as (r & s & l & -> & Hd & Hl).
  apply (HQ r s l); [done|]. intros [x ->]. by destruct (Hl x eq_refl).
Qed.

Lemma wp_fd_read n fb (Q : option (list Z) * rdfd -> thread -> Prop) t :
  (forall r s l, rd_data fb = l ++ rd_data s -> (is_Some r -> length l = n) -> Q (r, s) t) ->
  wp (on_fd (readx n) fb) Q t.
Proof.
  intros HQ. unfold wp, on_fd.
  destruct (readx_returns n fb) as (r & s & l & -> & Hd & Hl).
  apply (HQ r s l); [done|]. intros [x ->]. by destruct (Hl x eq_refl).
Qed.

Lemma wp_fd_write buf f (Q : bool * wrfd -> thread -> Prop) t :
  (forall r s, Q (r, s) t) -> wp (on_fd (writex buf) f) Q t.
Proof.
  intros HQ. unfold wp, on_fd. destruct (writex_returns buf f) as (r & s & l & -> & _). apply HQ.
Qed.

Lemma wp_sock_close (Q : unit -> thread -> Prop) t :
  t_open t = true -> Q tt (set_open false t) -> wp sock_close Q t.
Proof. intros Ho HQ. unfold wp, sock_close. by rewrite Ho. Qed.

Lemma wp_say text (Q : unit -> thread -> Prop) t :
  t_open t = true -> (forall s, Q tt (set_out s t)) -> wp (say text) Q t.
Proof. intros Ho HQ. apply wp_bind, wp_sock_write; [done|]. intros r s. apply HQ. Qed.

(** Runs a service up to the calls above; the cases left are those of its tests. *)
Ltac run :=
  repeat (intros; cbv beta;
    lazymatch goal with
    | |- wp (bind _ _) _ _ => apply wp_bind
    | |- wp (ret _) _ _ => apply wp_ret
    | |- wp (modify _) _ _ => apply wp_modify
    | |- wp opened _ _ => apply wp_modify
    | |- wp closed _ _ => apply wp_modify
    | |- wp (set_property _ _) _ _ => apply wp_modify
    | |- wp get _ _ => apply wp_get
    | |- wp (say _) _ _ => apply wp_say; [done|]
    | |- wp (sock_write _) _ _ => apply wp_sock_write; [done|]
    | |- wp sock_close _ _ => apply wp_sock_close; [done|]
    end).

(** A piece of a service that leaves the socket open and no descriptor behind. *)
Definition stays {A} (m : M thread A) : Prop :=
  forall t, t_open t = true -> wp m (fun _ t' => on_socket t t') t.

Lemma framebuffer_piece_wp n fb t :
  t_open t = true ->
  wp (framebuffer_piece n fb) (fun r t' => on_socket t t' /\
    forall fb', r = Some fb' -> exists l, rd_data fb = l ++ rd_data fb' /\ length l = n) t.
Proof.
  intros Ho. apply wp_bind, wp_fd_read. intros [x|] s l Hd Hl; [|by apply wp_ret].
  apply wp_bind, wp_sock_write; [done|]. intros [] k; apply wp_ret; (split; [done|]);
    intros fb' [=]; subst. exists l. split; [done|]. by apply Hl.
Qed.

Lemma framebuffer_loop_wp fuel i size fb t :
  (length (rd_data fb) < fuel)%nat -> t_open t = true ->
  wp (framebuffer_loop fuel i size fb) (fun _ t' => on_socket t t') t.
Proof.
  revert i fb t. induction fuel as [|f IH]; intros i fb t Hf Ho; [lia|]. cbn [framebuffer_loop].
  destruct (i <? size); [|by apply wp_ret].
  eapply wp_bind, wp_mono; [by apply framebuffer_piece_wp|].
  intros [fb'|] t' [(Ho' & Hn & Ha) Hr]; [|by apply wp_ret].
  destruct (Hr fb' eq_refl) as (l & Hd & Hl).
  eapply wp_mono; [apply IH; [|done]|].
  - apply (f_equal length) in Hd. rewrite length_app in Hd. lia.
  - intros _ t'' (? & ? & ?). split_and!; congruence.
Qed.

Lemma framebuffer_copy_stays v fb : stays (framebuffer_copy v fb).
Proof.
  intros t Ho. unfold framebuffer_copy. apply wp_bind, wp_sock_write; [done|].
  intros [] s; [|by apply wp_ret].
  eapply wp_bind, wp_mono; [apply framebuffer_loop_wp; [lia|done]|].
  intros [fb'|] t' (Ho' & Hn & Ha); [|by apply wp_ret].
  eapply wp_bind, wp_mono; [by apply framebuffer_piece_wp|].
  intros r t'' [(? & ? & ?) _]. apply wp_ret. simpl in *. split_and!; congruence.
Qed.

(** What the log driver guarantees: a read returns one whole entry. *)
Definition whole_entry (a : io_ret) : Prop :=
  match a with
  | Got l => l = [] \/ (length l <= LOGGER_ENTRY_MAX_LEN)%nat /\
      length l = (sizeof_logger_entry + Z.to_nat (of_le (take 2 l)))%nat
  | Failed _ => True
  end.

(** The buffer with one entry in it. *)
Lemma entry_buffer l buf :
  length buf = S LOGGER_ENTRY_MAX_LEN -> l <> [] -> whole_entry (Got l) ->
  let b := take LOGGER_ENTRY_MAX_LEN l ++ drop (length (take LOGGER_ENTRY_MAX_LEN l)) buf in
  (sizeof_logger_entry + Z.to_nat (of_le (take 2 b)))%nat = length l /\
  length b = S LOGGER_ENTRY_MAX_LEN /\
  (length l < length b)%nat /\
  write_log_entry (<[length l := 0]> b) = (sock_write l ;; ret tt).
Proof.
  intros Hb Hne [?|[Hmax Hlen]]; [done|]. intros b. subst b. rewrite (take_ge l) by lia.
  assert (2 <= length l)%nat by (unfold sizeof_logger_entry in *; lia).
  assert (take 2 (l ++ drop (length l) buf) = take 2 l) as Ht by (apply take_app_le; lia).
  assert (length (l ++ drop (length l) buf) = S LOGGER_ENTRY_MAX_LEN) as Hlb.
  { rewrite length_app, length_drop. lia. }
  rewrite Ht, Hlb. split_and!; [done|done|lia|].
  assert (forall n k (x : Z), (n <= length l)%nat -> take n (<[length l := x]> k) = take n k)
    as Hi by (intros; by apply take_insert_ge).
  unfold write_log_entry. rewrite (Hi 2%nat) by done. rewrite Ht, <- Hlen.
  rewrite Hi by done. by rewrite take_app_length.
Qed.

(** One round of the loop on a whole entry. *)
Lemma log_loop_entry l k buf :
  length buf = S LOGGER_ENTRY_MAX_LEN -> l <> [] -> whole_entry (Got l) ->
  exists buf', length buf' = S LOGGER_ENTRY_MAX_LEN /\
    log_loop (Got l :: k) buf = ((sock_write l ;; ret tt) ;; log_loop k buf').
Proof.
  intros Hb Hne Hl. pose proof (entry_buffer l buf Hb Hne Hl) as (Hat & Hlb & Hlt & Hw).
  destruct l as [|c l]; [done|]. cbn [log_loop].
  set (b := take _ _ ++ _) in *. rewrite Hat, (proj2 (Nat.ltb_lt _ _) Hlt), Hw.
  eexists. split; [|done]. by rewrite length_insert.
Qed.

(** The answers of [read] that end the loop. *)
Definition log_ends (a : io_ret) : bool :=
  match a with
  | Got [] => true
  | Got _ | Failed EINTR | Failed EAGAIN => false
  | Failed _ => true
  end.

(** The loop on any answers: it ends with the first answer that ends it, and only an
    entry that is not whole can make it leave its buffer. *)
Lemma log_loop_runs answers buf t :
  length buf = S LOGGER_ENTRY_MAX_LEN -> t_open t = true ->
  match log_loop answers buf t with
  | Ok (b, t') => on_socket t t' /\ b = existsb log_ends answers
  | Err e => e = EUndef /\ ~ Forall whole_entry answers
  end.
Proof.
  revert buf t. induction answers as [|a k IH]; intros buf t Hb Ho; [done|].
  assert (forall b, length b = S LOGGER_ENTRY_MAX_LEN -> forall t1, on_socket t t1 ->
    match log_loop k b t1 with
    | Ok (r, t') => on_socket t t' /\ r = existsb log_ends k
    | Err e => e = EUndef /\ ~ Forall whole_entry (a :: k)
    end) as IH'.
  { intros b Hlb t1 (Ho1 & Hn1 & Ha1). specialize (IH b t1 Hlb Ho1).
    destruct (log_loop k b t1) as [[r t']|e].
    - destruct IH as [(? & ? & ?) ->]. split; [|done]. split_and!; congruence.
    - destruct IH as [-> Hw]. split; [done|]. by intros [_ ?]%list.Forall_cons. }
  destruct a as [l|e]; [|destruct e; try done; by apply IH'].
  destruct l as [|c l]; [done|]. cbn [log_loop existsb log_ends orb].
  set (b := take _ _ ++ _). set (n := (sizeof_logger_entry + _)%nat).
  assert (length b = S LOGGER_ENTRY_MAX_LEN) as Hlb.
  { unfold b. rewrite length_app, length_drop, length_take, Hb. clear. lia. }
  destruct (n <? length b)%nat eqn:En.
  - assert (wp (write_log_entry (<[n := 0]> b)) (fun _ t1 => on_socket t t1) t) as Hw.
    { apply wp_bind, wp_sock_write; [done|]. intros r s. by apply wp_ret. }
    apply wp_ok in Hw as ([] & t1 & Hw & Hs). erewrite bind_ok by exact Hw.
    apply IH'; [|done]. by rewrite length_insert.
  - split; [done|]. intros [Hw _]%list.Forall_cons. apply Nat.ltb_ge in En.
    destruct (entry_buffer (c :: l) buf Hb ltac:(done) Hw) as (Hat & _ & Hlt & _).
    fold b in Hat, Hlt. fold n in Hat. lia.
Qed.

Lemma stack_buffer (stack : list Z) n : length (take n (stack ++ replicate n 0)) = n.
Proof. rewrite length_take, length_app, length_replicate. lia. Qed.

Lemma recover_loop_wp fuel count file t :
  (length (rd_data (t_in t)) < fuel)%nat -> t_open t = true ->
  wp (recover_loop fuel count file) (fun _ t' => on_socket t t') t.
Proof.
  revert count file t. induction fuel as [|f IH]; intros count file t Hf Ho; [lia|].
  cbn [recover_loop]. destruct (0 <? count) eqn:Ec; [|by apply wp_ret]. bools.
  set (xfer := if 4096 <? count then 4096 else count).
  assert (0 < xfer) by (unfold xfer; destruct (4096 <? count); lia).
  apply wp_bind, wp_sock_read; [done|]. intros [buf|] s l Hd Hl; [|by apply wp_ret].
  apply wp_bind, wp_fd_write. intros [] file'; [|by apply wp_ret].
  eapply wp_mono; [apply IH; [|done]|by intros _ t' (? & ? & ?)].
  simpl. rewrite Hd, length_app, Hl in Hf by done. lia.
Qed.

(** ** Every service closes its socket *)

(** The descriptor of the log stays open. *)
Definition leaked (sys : system) (s : service) : Z :=
  match s with
  | Log path => if sys_log sys path is Some _ then 1 else 0
  | _ => 0
  end.

(** A log service that none of the answers so far has ended. *)
Definition waits (sys : system) (s : service) : bool :=
  match s with
  | Log path =>
      match sys_log sys path with
      | Some answers => negb (existsb log_ends answers)
      | None => false
      end
  | _ => false
  end.

(** The requests a service may make of the system: of the properties it sets only the
    port, and the one for root only where the device can be debugged. *)
Definition allowed (sys : system) (a : sysact) : Prop :=
  match a with
  | ASetProp k v =>
      k = tcp_port_property \/
      k = bs "service.adb.root" /\ sys_getprop sys (bs "ro.debuggable") = bs "1"
  | _ => True
  end.

(** A service that was run: its requests were allowed, and the socket is closed, unless
    it belongs to the program that [reboot_service] runs in its child, or the service is
    still waiting for the log. *)
Definition finished (sys : system) (t : thread) (s : service) (o : outcome unit) (t' : thread) : Prop :=
  t_fds t' = t_fds t + leaked sys s /\
  (exists acts, t_acts t' = t_acts t ++ acts /\ Forall (allowed sys) acts) /\
  match o with
  | Execed _ => t_open t' = true /\ exists arg, s = Reboot arg
  | Waiting => t_open t' = true /\ waits sys s = true
  | Returned _ | Exited _ => t_open t' = false /\ waits sys s = false
  end.

Ltac finish :=
  unfold finished; split; [cbn [leaked]; simpl in *; lia | split];
  [ eexists; split;
    [ cbn; try match goal with H : t_acts _ = t_acts _ |- _ => rewrite H; cbn end;
      rewrite <- ?app_assoc;
      first [reflexivity | symmetry; apply app_nil_r]
    | repeat apply Forall_cons_2; try apply Forall_nil_2; simpl; auto ]
  | split; [done | first [done | eauto]] ].

Lemma remount_system_wp sys t :
  t_open t = true ->
  wp (remount_system sys) (fun _ t' => t_open t' = true /\ t_fds t' = t_fds t /\
    exists acts, t_acts t' = t_acts t ++ acts /\ Forall (allowed sys) acts) t.
Proof.
  intros Ho. unfold remount_system. run. destruct (system_ro t =? 0); [|destruct (_ <? 0)]; run.
  1, 2: split_and!; [done..|]; exists []; by rewrite app_nil_r.
  split_and!; [done..|]. eexists. split; [reflexivity|]. by repeat constructor.
Qed.

Lemma framebuffer_service_ends sys t :
  t_open t = true -> wp (framebuffer_service sys) (finished sys t Framebuffer) t.
Proof.
  intros Ho. unfold framebuffer_service. destruct (sys_fb0 sys) as [fb|]; [|run; finish].
  apply wp_bind, wp_modify, wp_bind. destruct (sys_vscreeninfo sys) as [v|]; [|run; finish].
  eapply wp_mono; [by apply framebuffer_copy_stays|]. intros _ t' (Ho' & Hn & Ha).
  apply wp_bind, wp_modify. run. finish.
Qed.

(** What makes the model of a service undefined: the sync service, whose buffers a
    client can overrun, and a log driver that returns less or more than one entry. *)
Definition overruns (sys : system) (s : service) : Prop :=
  s = FileSync \/
  exists path answers, s = Log path /\ sys_log sys path = Some answers /\ ~ Forall whole_entry answers.

(** A run of a service. *)
Definition outcome_ok (sys : system) (s : service) (t : thread) (r : result (outcome unit * thread)) : Prop :=
  match r with
  | Ok (o, t') => finished sys t s o t'
  | Err e => e = EUndef /\ overruns sys s
  end.

Lemma finished_ok sys s t m : wp m (finished sys t s) t -> outcome_ok sys s t (m t).
Proof. unfold wp, outcome_ok. by destruct (m t) as [[]|]. Qed.

Lemma log_service_runs sys path t :
  t_open t = true -> outcome_ok sys (Log path) t (log_service sys path t).
Proof.
  intros Ho. unfold log_service. destruct (sys_log sys path) as [answers|] eqn:E.
  2: { apply finished_ok. run. split; [cbn; rewrite E; lia|split].
       - exists []. by rewrite app_nil_r.
       - cbn. by rewrite E. }
  unfold bind at 1, opened, modify.
  match goal with |- context [bind (log_loop answers ?b) _ ?t1] =>
    pose proof (log_loop_runs answers b t1 (stack_buffer _ _) Ho) as H;
    set (buf := b) in * end.
  unfold bind at 1. destruct (log_loop answers buf _) as [[b t']|e].
  2: { destruct H as [-> H]. split; [done|]. right. eauto. }
  destruct H as [(Ho' & Hn & Ha) ->]. assert (exists acts, t_acts t' = t_acts t ++ acts /\ Forall (allowed sys) acts)
    by (exists []; by rewrite app_nil_r).
  destruct (existsb log_ends answers) eqn:Ee; [unfold bind, sock_close; rewrite Ho'|];
    (split; [cbn; rewrite E; exact Hn|split; [done|cbn; rewrite E, Ee; done]]).
Qed.

Lemma recover_service_ends sys count t :
  t_open t = true -> wp (recover_service sys count) (finished sys t (Recover count)) t.
Proof.
  intros Ho. unfold recover_service. destruct (sys_creat sys update_path) as [f|]; [|run; finish].
  apply wp_bind, wp_modify, wp_bind, wp_get, wp_bind.
  eapply wp_mono; [apply recover_loop_wp; [lia|done]|]. intros [n g] t' (Ho' & Hn & Ha).
  apply wp_bind, wp_modify. run. destruct (sys_creat sys begin_path); run; finish.
Qed.

Lemma remount_service_ends sys t :
  t_open t = true -> wp (remount_service sys) (finished sys t Remount) t.
Proof.
  intros Ho. unfold remount_service. apply wp_bind.
  eapply wp_mono; [by apply remount_system_wp|]. intros r t' (Ho' & Hn & Ha).
  apply wp_bind. destruct (r =? 0); unfold write_string; run;
    (split; [cbn [leaked]; simpl in *; lia|split; [exact Ha|done]]).
Qed.

Lemma reboot_service_ends sys storage arg t :
  t_open t = true -> wp (reboot_service sys storage arg) (finished sys t (Reboot arg)) t.
Proof.
  intros Ho. unfold reboot_service, reboot_now, when. run.
  destruct (sys_fork sys =? 0); [destruct (sys_exec sys)|destruct (0 <? sys_fork sys)]; run;
    try destruct (sys_reboot sys <? 0); run; finish.
Qed.

Section run.
Context {FS : Type} {fsys : FileSystem FS} (strerror : option errno -> list Z) (fs : FS) (buf : list Z).

Lemma file_sync_runs sys t :
  t_open t = true -> outcome_ok sys FileSync t (file_sync_thread strerror fs buf t).
Proof.
  intros Ho. unfold file_sync_thread.
  match goal with |- context [file_sync_service strerror ?c] =>
    pose proof (service_settles strerror c) as H;
    destruct (file_sync_service strerror c) as [[[] c']|e] end; [|by split; [|left]].
  split; [cbn; lia|split; [exists []; by rewrite app_nil_r|]]. cbn. by rewrite H.
Qed.

Lemma services_finish sys storage s t :
  t_open t = true -> outcome_ok sys s t (service_bootstrap_func strerror fs buf sys storage s t).
Proof.
  intros Ho. destruct s; cbn [service_bootstrap_func].
  3: by apply log_service_runs. 3: by apply file_sync_runs. all: apply finished_ok.
  - by apply framebuffer_service_ends.
  - by apply recover_service_ends.
  - by apply remount_service_ends.
  - by apply reboot_service_ends.
  - unfold restart_root_service. destruct (_ =? _); [|destruct (negb _) eqn:E]; run; try finish.
    apply negb_false_iff, bool_decide_eq_true in E. by right.
  - unfold restart_tcp_service. destruct (_ <=? _); run; finish.
  - unfold restart_usb_service. run. finish.
Qed.


End run.

(** A device with one log, from which an entry of one byte and a signal come before a
    read fails, and nothing else. *)
Definition demo_entry : list Z := [1; 0] ++ replicate 18 0 ++ [65].

Definition demo_system : system :=
  mkSys None None (inl 2) (fun _ => 0) (fun _ => Some [Failed EINTR; Got demo_entry; Failed ENOENT])
    (fun _ => None) [] (fun _ => []) 2000 1 false 0 false false false None false false true true [].

Definition demo_thread : thread := mkThread (mkRd [] []) (mkWr [] [UpTo 3]) true 0 ∅ [] 1.

#[local] Existing Instance MemFs.memfs_ops.

Definition demo_files : MemFs.memfs := MemFs.mkMem ∅ [].

Definition demo_stat : list Z := msg_req ID_STAT 2 ++ bs "/a" ++ msg_req ID_QUIT 0.


(** ** Transfers that succeed *)

(** The state after more bytes went to the socket. *)
Definition sent (l : list Z) (sc : list io_event) (t : thread) : thread :=
  set_out (mkWr (wr_out (t_out t) ++ l) sc) t.

Lemma sock_write_sent buf t :
  t_open t = true -> Forall benign (wr_script (t_out t)) ->
  exists sc, Forall benign sc /\ sock_write buf t = Ok (true, sent buf sc t).
Proof.
  intros Ho Hb. unfold sock_write. rewrite Ho.
  destruct (writex_benign buf (t_out t) Hb) as (sc & Hsc & _ & ->). eauto.
Qed.

Lemma sent_sent l k sc sc' t : sent k sc' (sent l sc t) = sent (l ++ k) sc' t.
Proof. unfold sent, set_out. simpl. by rewrite <- app_assoc. Qed.

Lemma readx_front l rest fb :
  Forall benign (rd_script fb) -> rd_data fb = l ++ rest ->
  exists sc, Forall benign sc /\ readx (length l) fb = Ok (Some l, mkRd rest sc).
Proof.
  intros Hb Hd. destruct (readx_benign (length l) fb Hb) as (sc & Hsc & ->).
  exists sc. rewrite Hd, read_exact_app by done. done.
Qed.

Lemma framebuffer_piece_sent l rest fb t :
  Forall benign (rd_script fb) -> rd_data fb = l ++ rest ->
  t_open t = true -> Forall benign (wr_script (t_out t)) ->
  exists sc sc', Forall benign sc /\ Forall benign sc' /\
    framebuffer_piece (length l) fb t = Ok (Some (mkRd rest sc), sent l sc' t).
Proof.
  intros Hb Hd Ho Hw. destruct (readx_front l rest fb Hb Hd) as (sc & Hsc & Hr).
  destruct (sock_write_sent l t Ho Hw) as (sc' & Hsc' & Hs).
  exists sc, sc'. split_and!; [done..|]. unfold framebuffer_piece.
  erewrite bind_ok by (unfold on_fd; by rewrite Hr). cbv beta iota.
  by erewrite bind_ok by exact Hs.
Qed.

(** [k] rounds of the loop. *)
Lemma framebuffer_loop_sent k fuel i size l rest fb t :
  (k <= fuel)%nat -> 0 <= i -> size <= two32 - 256 ->
  size - i <= 256 * Z.of_nat k -> (0 < Z.of_nat k -> 256 * Z.of_nat k - 256 < size - i) ->
  Forall benign (rd_script fb) -> rd_data fb = l ++ rest -> Z.of_nat (length l) = 256 * Z.of_nat k ->
  t_open t = true -> Forall benign (wr_script (t_out t)) ->
  exists sc sc', Forall benign sc /\ Forall benign sc' /\
    framebuffer_loop fuel i size fb t = Ok (Some (mkRd rest sc), sent l sc' t).
Proof.
  revert fuel i l fb t. induction k as [|k IH]; intros fuel i l fb t Hf Hi Hs Hu Hl Hb Hd Hlen Ho Hw.
  - destruct l; [|simpl in Hlen; lia]. exists (rd_script fb), (wr_script (t_out t)).
    split_and!; [done..|]. simpl in Hd. destruct fb as [d sc]. simpl in *. subst d.
    assert ((i <? size) = false) as E by (apply Z.ltb_ge; lia).
    assert (framebuffer_loop fuel i size (mkRd rest sc) t = Ok (Some (mkRd rest sc), t)) as ->
      by (destruct fuel; cbn [framebuffer_loop]; by rewrite E).
    unfold sent, set_out. rewrite app_nil_r. by destruct t as [? [] ? ? ? ? ?].
  - destruct fuel as [|f]; [lia|]. cbn [framebuffer_loop].
    rewrite (proj2 (Z.ltb_lt i size)) by lia.
    assert (length (take 256 l) = 256%nat) as H256 by (rewrite length_take; lia).
    rewrite <- (take_drop 256 l), <- app_assoc in Hd.
    destruct (framebuffer_piece_sent _ _ fb t Hb Hd Ho Hw) as (sc & sc' & Hsc & Hsc' & Hp).
    rewrite H256 in Hp. erewrite bind_ok by exact Hp. cbv iota beta.
    rewrite (u32_id (i + 256)) by (unfold is_u32, two32 in *; lia).
    destruct (IH f (i + 256) (drop 256 l) (mkRd (drop 256 l ++ rest) sc) (sent (take 256 l) sc' t))
      as (sc1 & sc1' & H1 & H1' & ->); try done; try lia.
    { rewrite length_drop. lia. }
    exists sc1, sc1'. by rewrite sent_sent, take_drop.
Qed.

(** ** The framebuffer *)

(** How many bytes follow the image: the loop rounds its size up to a multiple of 256,
    and the remainder is sent once more. *)
Definition overhang (size : Z) : Z := if size mod 256 =? 0 then 0 else 256.

Lemma framebuffer_copy_sent v fb image extra rest t :
  0 <= fb_start v -> fb_size (fbinfo_of v) <= two32 - 256 ->
  drop (Z.to_nat (fb_start v)) (rd_data fb) = image ++ extra ++ rest ->
  Z.of_nat (length image) = fb_size (fbinfo_of v) ->
  Z.of_nat (length extra) = overhang (fb_size (fbinfo_of v)) ->
  Forall benign (rd_script fb) -> t_open t = true -> Forall benign (wr_script (t_out t)) ->
  exists sc, framebuffer_copy v fb t =
    Ok (tt, sent (fbinfo_bytes (fbinfo_of v) ++ image ++ extra) sc t).
Proof.
  intros Hst Hsz Hd Hi He Hb Ho Hw. unfold framebuffer_copy.
  set (size := fb_size (fbinfo_of v)) in *. set (hdr := fbinfo_bytes _).
  destruct (sock_write_sent hdr t Ho Hw) as (sc0 & Hsc0 & H0).
  erewrite bind_ok by exact H0. cbv beta iota zeta.
  unfold lseek_set. rewrite (proj2 (Z.ltb_ge _ _) Hst), Hd. cbn [rd_data].
  set (k := Z.to_nat ((size + 255) / 256)).
  set (n := Z.to_nat (size mod 256)).
  assert (Z.of_nat k = (size + 255) / 256) as Hk by (unfold k; apply Z2Nat.id; zdiv).
  assert (Z.of_nat n = size mod 256) as Hn by (unfold n; apply Z2Nat.id; zdiv).
  assert (256 * Z.of_nat k + Z.of_nat n = Z.of_nat (length (image ++ extra))) as Hlen.
  { rewrite length_app, Nat2Z.inj_add, Hi, He, Hk, Hn. unfold overhang.
    destruct (size mod 256 =? 0) eqn:E; bools; zdiv. }
  set (all := image ++ extra) in *. rewrite app_assoc. fold all.
  set (m := (256 * k)%nat).
  destruct (framebuffer_loop_sent k (S (length (all ++ rest))) 0 size (take m all)
              (drop m all ++ rest) (mkRd (all ++ rest) (rd_script fb)) (sent hdr sc0 t))
    as (sc1 & sc1' & H1 & H1' & Hl); try done; try lia.
  { rewrite length_app. lia. } { rewrite Hk. zdiv. } { rewrite Hk. zdiv. }
  { cbn [rd_data]. by rewrite app_assoc, take_drop. } { rewrite length_take. lia. }
  erewrite bind_ok by exact Hl. cbv beta iota.
  destruct (framebuffer_piece_sent (drop m all) rest (mkRd (drop m all ++ rest) sc1)
              (sent (take m all) sc1' (sent hdr sc0 t))) as (sc2 & sc2' & _ & _ & H2); [done..|].
  assert (length (drop m all) = n) as Hdn by (rewrite length_drop; lia). rewrite Hdn in H2.
  erewrite bind_ok by exact H2. exists sc2'. unfold ret. rewrite !sent_sent.
  by rewrite take_drop.
Qed.

(** The framebuffer service sends a header of 52 bytes with the format of the screen
    and then the image from the visible part of the framebuffer, and closes the socket;
    if the size of the image is not a multiple of 256, the 256 bytes of memory behind the
    image follow it. *)
Theorem framebuffer_sends_screen sys fb v image extra rest t :
  sys_fb0 sys = Some fb -> sys_vscreeninfo sys = Some v ->
  0 <= fb_start v -> fb_size (fbinfo_of v) <= two32 - 256 ->
  drop (Z.to_nat (fb_start v)) (rd_data fb) = image ++ extra ++ rest ->
  Z.of_nat (length image) = fb_size (fbinfo_of v) ->
  Z.of_nat (length extra) = overhang (fb_size (fbinfo_of v)) ->
  Forall benign (rd_script fb) -> t_open t = true -> Forall benign (wr_script (t_out t)) ->
  exists t', framebuffer_service sys t = Ok (Returned tt, t') /\
    wr_out (t_out t') = wr_out (t_out t) ++ fbinfo_bytes (fbinfo_of v) ++ image ++ extra /\
    length (fbinfo_bytes (fbinfo_of v)) = 52%nat /\
    t_open t' = false /\ t_fds t' = t_fds t.
Proof.
  intros Hfb Hv Hst Hsz Hd Hi He Hb Ho Hw. unfold framebuffer_service. rewrite Hfb, Hv.
  destruct (framebuffer_copy_sent v fb image extra rest (add_fds 1 t)) as (sc & Hc); [done..|].
  eexists. split.
  - unfold opened. erewrite bind_ok by reflexivity. erewrite bind_ok by exact Hc.
    erewrite bind_ok by reflexivity.
    erewrite bind_ok by (unfold sock_close; cbn; by rewrite Ho). reflexivity.
  - cbn [t_out t_open t_fds set_open add_fds sent set_out wr_out]. split_and!; [done..|lia].
Qed.

(** ** Updates in recovery mode *)

Lemma sock_read_front l rest t :
  t_open t = true -> Forall benign (rd_script (t_in t)) -> rd_data (t_in t) = l ++ rest ->
  exists sc, Forall benign sc /\
    sock_read (length l) t = Ok (Some l, set_in (mkRd rest sc) t).
Proof.
  intros Ho Hb Hd. unfold sock_read. rewrite Ho.
  destruct (readx_front l rest (t_in t) Hb Hd) as (sc & Hsc & ->). eauto.
Qed.

Lemma fd_write_all buf f t :
  Forall benign (wr_script f) ->
  exists sc, Forall benign sc /\
    on_fd (writex buf) f t = Ok ((true, mkWr (wr_out f ++ buf) sc), t).
Proof.
  intros Hb. unfold on_fd. destruct (writex_benign buf f Hb) as (sc & Hsc & _ & ->). eauto.
Qed.

(** One round of the loop when the bytes are there. *)
Lemma recover_round fuel count l rest file t :
  0 < count -> Z.of_nat (length l) = Z.min 4096 count ->
  t_open t = true -> Forall benign (rd_script (t_in t)) -> rd_data (t_in t) = l ++ rest ->
  Forall benign (wr_script file) ->
  exists sc sc', Forall benign sc /\ Forall benign sc' /\
    recover_loop (S fuel) count file t =
    recover_loop fuel (count - Z.of_nat (length l)) (mkWr (wr_out file ++ l) sc')
      (set_in (mkRd rest sc) t).
Proof.
  intros Hc Hl Ho Hb Hd Hf. cbn [recover_loop]. rewrite (proj2 (Z.ltb_lt 0 count) Hc).
  assert ((if 4096 <? count then 4096 else count) = Z.of_nat (length l)) as ->
    by (destruct (4096 <? count) eqn:E; bools; lia).
  rewrite Nat2Z.id. destruct (sock_read_front l rest t Ho Hb Hd) as (sc & Hsc & Hr).
  destruct (fd_write_all l file (set_in (mkRd rest sc) t) Hf) as (sc' & Hsc' & Hw).
  exists sc, sc'. split_and!; [done..|].
  erewrite bind_ok by exact Hr. cbv beta iota. by erewrite bind_ok by exact Hw.
Qed.

Lemma set_in_set_in s s' t : set_in s' (set_in s t) = set_in s' t.
Proof. done. Qed.

Lemma recover_loop_saves fuel l rest file t :
  (length l < fuel)%nat -> t_open t = true ->
  Forall benign (rd_script (t_in t)) -> rd_data (t_in t) = l ++ rest ->
  Forall benign (wr_script file) ->
  exists s f, wr_out f = wr_out file ++ l /\
    recover_loop fuel (Z.of_nat (length l)) file t = Ok ((0, f), set_in s t).
Proof.
  revert l file t. induction fuel as [|fuel IH]; intros l file t Hlt Ho Hb Hd Hf; [lia|].
  destruct (decide (l = [])) as [->|Hne].
  { exists (t_in t), file. rewrite app_nil_r. split; [done|]. by destruct t. }
  assert (0 < length l)%nat by (by destruct l; simpl; [|lia]).
  rewrite <- (take_drop 4096 l), <- app_assoc in Hd.
  destruct (recover_round fuel (Z.of_nat (length l)) (take 4096 l) (drop 4096 l ++ rest) file t)
    as (sc & sc' & Hsc & Hsc' & ->); try done; [lia|rewrite length_take; lia|].
  assert (Z.of_nat (length l) - Z.of_nat (length (take 4096 l)) = Z.of_nat (length (drop 4096 l)))
    as -> by (rewrite length_take, length_drop; lia).
  destruct (IH (drop 4096 l) (mkWr (wr_out file ++ take 4096 l) sc')
              (set_in (mkRd (drop 4096 l ++ rest) sc) t)) as (s & f & Hw & ->); try done.
  { rewrite length_drop. lia. }
  exists s, f. split; [|done]. rewrite Hw. simpl. by rewrite <- app_assoc, take_drop.
Qed.

(** The connection ends before all bytes came. *)
Lemma recover_loop_short fuel count file t :
  (length (rd_data (t_in t)) < fuel)%nat -> Z.of_nat (length (rd_data (t_in t))) < count ->
  t_open t = true -> Forall benign (rd_script (t_in t)) -> Forall benign (wr_script file) ->
  exists n f s, 0 < n /\ recover_loop fuel count file t = Ok ((n, f), set_in s t).
Proof.
  revert count file t. induction fuel as [|fuel IH]; intros count file t Hlt Hc Ho Hb Hf; [lia|].
  destruct (decide (Z.min 4096 count <= Z.of_nat (length (rd_data (t_in t))))) as [Hle|Hgt].
  - set (d := rd_data (t_in t)) in *.
    assert (Z.of_nat (length (take 4096 d)) = Z.min 4096 count) as Hl by (rewrite length_take; lia).
    destruct (recover_round fuel count (take 4096 d) (drop 4096 d) file t)
      as (sc & sc' & Hsc & Hsc' & ->); try done; [lia|by rewrite take_drop|].
    destruct (IH (count - Z.of_nat (length (take 4096 d))) (mkWr (wr_out file ++ take 4096 d) sc')
                (set_in (mkRd (drop 4096 d) sc) t)) as (n & f & s & Hn & ->);
      try done; cbn [t_in set_in rd_data rd_script]; try (rewrite length_drop; lia); eauto.
  - cbn [recover_loop]. rewrite (proj2 (Z.ltb_lt 0 count)) by lia.
    set (xfer := if 4096 <? count then 4096 else count).
    assert (xfer = Z.min 4096 count) as Hx by (unfold xfer; destruct (4096 <? count) eqn:E; bools; lia).
    destruct (readx_benign (Z.to_nat xfer) (t_in t) Hb) as (sc & Hsc & Hr).
    unfold read_exact in Hr. rewrite decide_False in Hr by lia.
    exists count, file, (mkRd [] sc). split; [lia|].
    erewrite bind_ok by (unfold sock_read; rewrite Ho, Hr; reflexivity). done.
Qed.

(** The rest of [recover_service] after the loop. *)
Lemma recover_service_after sys f b r s t :
  sys_creat sys update_path = Some f -> sys_creat sys begin_path = Some b ->
  t_open t = true -> Forall benign (wr_script (t_out t)) ->
  recover_loop (S (length (rd_data (t_in t)))) r.1 f (add_fds 1 t) = Ok (r.2, set_in s (add_fds 1 t)) ->
  exists t', recover_service sys r.1 t = Ok (Returned tt, t') /\
    wr_out (t_out t') = wr_out (t_out t) ++ (if r.2.1 =? 0 then bs "OKAY" else bs "FAIL") /\
    t_files t' = <[begin_path := b]> (<[update_path := r.2.2]> (t_files t)).
Proof.
  destruct r as [count [n g]]. cbn [fst snd]. intros Hf Hb Ho Hw Hl.
  unfold recover_service. rewrite Hf, Hb. set (ans := if n =? 0 then bs "OKAY" else bs "FAIL").
  destruct (sock_write_sent ans (put_file update_path g (set_in s (add_fds 1 t))) Ho Hw)
    as (sc & _ & Hs).
  eexists. split.
  - unfold opened. erewrite bind_ok by reflexivity. erewrite bind_ok by reflexivity.
    erewrite bind_ok by exact Hl. erewrite bind_ok by reflexivity. cbv beta iota.
    erewrite bind_ok by exact Hs. erewrite bind_ok by reflexivity.
    erewrite bind_ok by (unfold sock_close; cbn; by rewrite Ho). reflexivity.
  - done.
Qed.

(** In recovery mode, an update of the announced length is saved whole and
    acknowledged; if the connection ends early the answer is a failure, but the file
    that tells the device to begin is created all the same. *)
Theorem recover_saves_update sys f b t :
  sys_creat sys update_path = Some f -> sys_creat sys begin_path = Some b ->
  wr_out f = [] -> Forall benign (wr_script f) ->
  t_open t = true -> Forall benign (rd_script (t_in t)) -> Forall benign (wr_script (t_out t)) ->
  (forall data rest, rd_data (t_in t) = data ++ rest ->
    exists t' g, recover_service sys (Z.of_nat (length data)) t = Ok (Returned tt, t') /\
      wr_out (t_out t') = wr_out (t_out t) ++ bs "OKAY" /\
      t_files t' !! update_path = Some g /\ wr_out g = data /\
      t_files t' !! begin_path = Some b) /\
  (forall count, Z.of_nat (length (rd_data (t_in t))) < count ->
    exists t', recover_service sys count t = Ok (Returned tt, t') /\
      wr_out (t_out t') = wr_out (t_out t) ++ bs "FAIL" /\
      t_files t' !! begin_path = Some b).
Proof.
  intros Hf Hb H0 Hfs Ho Hi Hw. split.
  - intros data rest Hd.
    destruct (recover_loop_saves (S (length (rd_data (t_in t)))) data rest f (add_fds 1 t))
      as (s & g & Hg & Hl); [rewrite Hd, length_app; lia|done..|].
    destruct (recover_service_after sys f b (Z.of_nat (length data), (0, g)) s t Hf Hb Ho Hw Hl)
      as (t' & Hr & Hout & Hfiles).
    exists t', g. rewrite Hfiles. split_and!; [done|done|by simplify_map_eq| |by simplify_map_eq].
    by rewrite Hg, H0.
  - intros count Hc.
    destruct (recover_loop_short (S (length (rd_data (t_in t)))) count f (add_fds 1 t))
      as (n & g & s & Hn & Hl); [simpl; lia|done..|].
    destruct (recover_service_after sys f b (count, (n, g)) s t Hf Hb Ho Hw Hl)
      as (t' & Hr & Hout & Hfiles).
    exists t'. rewrite Hfiles. split_and!; [done| |by simplify_map_eq].
    rewrite Hout. cbn [fst snd]. by rewrite (proj2 (Z.eqb_neq n 0)) by lia.
Qed.
