(* ===== verification/ServicesScan.v ===== *)
(** * Numbers and tables that the daemon's services read

    The conversions of [sscanf] read back what [printf] wrote; so the remount service
    finds the partition in the table of the kernel, and a port in a request reaches the
    property that the daemon reads when it restarts. *)

From S2P Require Import Prelude Io SyncBase Services ServicesFacts.

(** ** Conversions *)

Lemma span_front p l c rest :
  Forall (fun x => p x = true) l -> p c = false -> span p (l ++ c :: rest) = (l, c :: rest).
Proof.
  intros Hl Hc. induction Hl as [|x l Hx Hl IH]; simpl; [by rewrite Hc|]. by rewrite Hx, IH.
Qed.

Lemma span_whole p l : Forall (fun x => p x = true) l -> span p l = (l, []).
Proof. induction 1 as [|x l Hx Hl IH]; simpl; [done|]. by rewrite Hx, IH. Qed.

Lemma fmt_d_digits n :
  0 <= n < 2147483648 ->
  exists c l, fmt_d n = c :: l /\ Forall dec_digit (c :: l) /\ (length (c :: l) <= 10)%nat /\
    int_of_digits 1 (c :: l) = n.
Proof.
  intros Hn. unfold fmt_d. rewrite (proj2 (Z.ltb_ge n 0)) by lia.
  destruct (dec_digits_spec 9 n []) as (l & -> & Hd & Hv & _ & Hl & Hne).
  { change (10 ^ Z.of_nat 10) with 10000000000. lia. }
  rewrite app_nil_r. destruct l as [|c l]; [done|]. exists c, l. split_and!; try done.
  unfold int_of_digits. rewrite scan_digits_value by done. unfold digits_value in Hv. rewrite Hv.
  rewrite Z.mul_1_l, Z.min_r, Z.max_r by (unfold two63; lia).
  unfold s32. rewrite u32_id by (unfold is_u32, two32; lia).
  rewrite (Z.mod_small n) by (unfold two32; lia). by rewrite (proj2 (Z.ltb_lt n _)) by lia.
Qed.

Lemma sign_of_plain c l : c <> 45 -> c <> 43 -> sign_of (c :: l) = (1, c :: l).
Proof. intros. unfold sign_of. by rewrite !(proj2 (Z.eqb_neq _ _)) by done. Qed.

(** Both conversions take the characters up to one that does not fit. *)
Lemma take_width l (c : Z) rest :
  (length l < SCAN_WIDTH)%nat ->
  exists k, take SCAN_WIDTH (l ++ c :: rest) = l ++ c :: k /\
    k ++ drop SCAN_WIDTH (l ++ c :: rest) = rest.
Proof.
  intros Hl. exists (take (SCAN_WIDTH - S (length l)) rest).
  rewrite take_app_ge, drop_app_ge by lia.
  replace (SCAN_WIDTH - length l)%nat with (S (SCAN_WIDTH - S (length l))) by lia.
  cbn [take drop]. split; [done|apply take_drop].
Qed.

Lemma scan_d_fmt n c rest :
  0 <= n < 2147483648 -> isdigit c = false ->
  scan_d (fmt_d n ++ c :: rest) = Some (n, c :: rest).
Proof.
  intros Hn Hc. destruct (fmt_d_digits n Hn) as (d & l & -> & Hd & Hl & Hv).
  destruct (take_width (d :: l) c rest) as (k & Ht & Hk); [unfold SCAN_WIDTH; lia|].
  unfold scan_d. rewrite Ht. pose proof Hd as [H0 _]%Forall_cons_1.
  destruct (dec_digit_plain d H0) as (_ & H45 & H43).
  change ((d :: l) ++ c :: k) with (d :: (l ++ c :: k)). rewrite sign_of_plain by done.
  change (d :: (l ++ c :: k)) with ((d :: l) ++ c :: k).
  rewrite span_front; [|eapply list.Forall_impl; [done|apply dec_digit_isdigit]|done].
  rewrite Hv. rewrite <- Hk at 2. done.
Qed.

Lemma device_sscanf_d_fmt n : 0 <= n < 2147483648 -> device_sscanf_d (fmt_d n) = ScanInt n.
Proof.
  intros Hn. destruct (fmt_d_digits n Hn) as (d & l & -> & Hd & Hl & Hv).
  pose proof Hd as [H0 _]%Forall_cons_1. destruct (dec_digit_plain d H0) as (Hs & H45 & H43).
  unfold device_sscanf_d. rewrite skip_space_plain by done. unfold scan_d.
  rewrite (take_ge (d :: l)), (drop_ge (d :: l)) by (unfold SCAN_WIDTH; lia).
  rewrite sign_of_plain by done.
  rewrite (span_whole isdigit (d :: l)) by (eapply list.Forall_impl; [done|apply dec_digit_isdigit]).
  by rewrite Hv.
Qed.

Definition xdigit (c : Z) : Prop := isxdigit c = true.

Lemma hexdigit_xdigit d : 0 <= d < 16 -> xdigit (hexdigit d).
Proof.
  intros Hd. unfold xdigit, isxdigit. apply bool_decide_eq_true. unfold hexdigit, hexval, isdigit.
  destruct (d <? 10) eqn:E; bools.
  - rewrite (proj2 (Z.leb_le 48 _)), (proj2 (Z.leb_le _ 57)) by lia. by eexists.
  - rewrite (proj2 (Z.leb_gt _ 57)) by lia. rewrite andb_false_r.
    rewrite (proj2 (Z.leb_le 97 _)), (proj2 (Z.leb_le _ 102)) by lia. by eexists.
Qed.

Lemma hex_digits_xdigit f n acc :
  Forall xdigit acc ->
  Forall xdigit (hex_digits f n acc) /\ (length (hex_digits f n acc) <= f + length acc)%nat.
Proof.
  revert n acc. induction f as [|f IH]; intros n acc Ha; simpl; [split; [done|lia]|].
  assert (Forall xdigit (hexdigit (n mod 16) :: acc)) as Ha'.
  { constructor; [|done]. apply hexdigit_xdigit. zdiv. }
  destruct (n / 16 =? 0); [split; [done|simpl; lia]|].
  destruct (IH (n / 16) _ Ha') as [H1 H2]. split; [done|]. simpl in *. lia.
Qed.

Lemma hex_pad_xdigit n : Forall xdigit (hex_pad 8 n) /\ length (hex_pad 8 n) = 8%nat.
Proof.
  unfold hex_pad. destruct (hex_digits_xdigit 8 n [] ltac:(constructor)) as [H1 H2].
  generalize dependent (hex_digits 8 n []). intros d H1 H2. simpl in H2.
  split; [apply list.Forall_app; split; [by apply list.Forall_replicate|done]|].
  rewrite length_app, length_replicate. lia.
Qed.

Lemma xdigit_plain c : xdigit c -> isspace c = false /\ c <> 45 /\ c <> 43 /\ c <> 120 /\ c <> 88.
Proof.
  unfold xdigit, isxdigit, hexval, isdigit, isspace. intros H. bools.
  destruct ((48 <=? c) && (c <=? 57)) eqn:E1; [|destruct ((97 <=? c) && (c <=? 102)) eqn:E2;
    [|destruct ((65 <=? c) && (c <=? 70)) eqn:E3; [|by destruct H]]]; bools;
    (split; [|lia]); (apply orb_false_iff; split; [apply Z.eqb_neq; lia|]);
    apply andb_false_iff; right; apply Z.leb_gt; lia.
Qed.

(** A blank ends a number in hexadecimal. *)
Lemma scan_x_hex n rest : scan_x (skip_space (hex_pad 8 n ++ 32 :: rest)) = Some (32 :: rest).
Proof.
  destruct (hex_pad_xdigit n) as [Hx Hl]. generalize dependent (hex_pad 8 n). intros h Hx Hl.
  destruct (take_width h 32 rest) as (k & Ht & Hk); [unfold SCAN_WIDTH; lia|].
  destruct h as [|a [|b h]]; [done|done|].
  pose proof Hx as [Ha [Hb _]%Forall_cons_1]%Forall_cons_1.
  destruct (xdigit_plain a Ha) as (Hs & ? & ? & _). destruct (xdigit_plain b Hb) as (_ & _ & _ & H1 & H2).
  cbn [app] in *. rewrite skip_space_plain by done. unfold scan_x. rewrite Ht.
  rewrite sign_of_plain by done. cbn [snd].
  rewrite (proj2 (Z.eqb_neq b 120) H1), (proj2 (Z.eqb_neq b 88) H2), andb_false_r.
  change (a :: b :: (h ++ 32 :: k)) with ((a :: b :: h) ++ 32 :: k).
  rewrite span_front by done. cbn [fmap option_fmap option_map]. rewrite <- Hk at 2. done.
Qed.

(** ** Tables of partitions *)

(** A partition as the kernel knows it, and its line in /proc/mtd. *)
Record part := mkPart { p_size : Z; p_erase : Z; p_name : list Z }.

Definition quoted (name : list Z) : list Z := 34 :: name ++ [34].

Definition mtd_line (i : Z) (p : part) : list Z :=
  bs "mtd" ++ fmt_d i ++ 58 :: 32 :: hex_pad 8 (p_size p) ++ 32 :: hex_pad 8 (p_erase p) ++
  32 :: quoted (p_name p).

Fixpoint mtd_lines (i : Z) (ps : list part) : list Z :=
  match ps with
  | [] => []
  | p :: ps => mtd_line i p ++ 10 :: mtd_lines (i + 1) ps
  end.

Definition mtd_head : list Z := bs "dev:    size   erasesize  name".

Definition mtd_text (ps : list part) : list Z := mtd_head ++ 10 :: mtd_lines 0 ps.

(** Names are words. *)
Definition word (l : list Z) : Prop := Forall (fun c => isspace c = false /\ c <> 0) l.

Lemma sscanf_mtd_line i p :
  0 <= i < 2147483648 -> word (p_name p) ->
  sscanf_mtd (mtd_line i p) = Some (i, take 15 (quoted (p_name p))).
Proof.
  intros Hi Hw. unfold sscanf_mtd, mtd_line. rewrite prefixb_app.
  rewrite (drop_app_exact (bs "mtd")) by done.
  set (tail1 := 58 :: _). destruct (fmt_d_digits i Hi) as (d & l & Hf & Hd & _).
  assert (skip_space (fmt_d i ++ tail1) = fmt_d i ++ tail1) as ->.
  { rewrite Hf. apply skip_space_plain. by apply Forall_cons_1 in Hd as [[? _]%dec_digit_plain _]. }
  unfold tail1. rewrite scan_d_fmt by done. cbn [mbind option_bind].
  match goal with |- context [58 :: 32 :: ?x] =>
    change (58 :: 32 :: x) with (bs ":" ++ 32 :: x) end.
  rewrite prefixb_app, (drop_app_exact (bs ":")) by done.
  change (skip_space (32 :: ?x)) with (skip_space x). rewrite scan_x_hex. cbn [mbind option_bind].
  change (skip_space (32 :: ?x)) with (skip_space x). rewrite scan_x_hex. cbn [mbind option_bind].
  change (skip_space (32 :: quoted (p_name p))) with (quoted (p_name p)).
  rewrite span_whole; [done|]. apply list.Forall_take. unfold quoted. constructor; [done|].
  apply list.Forall_app. split; [|by repeat constructor].
  eapply list.Forall_impl; [done|]. by intros c [-> _].
Qed.

Definition system_word : list Z := bs "system".

(** The comparison with the quoted name decides the name, though it is cut off. *)
Lemma streq_quoted name :
  streq (take 15 (quoted name)) system_name = bool_decide (name = system_word).
Proof.
  unfold streq. apply bool_decide_ext. split.
  - intros H. pose proof (f_equal length H) as Hl. rewrite length_take in Hl.
    change (length system_name) with 8%nat in Hl.
    rewrite take_ge in H by lia. unfold quoted, system_name in H. apply (inj (cons 34)) in H.
    by apply (inj (fun l => l ++ [34])) in H.
  - by intros ->.
Qed.

Lemma tokens_from_line tok l rest :
  Forall (fun c => c <> 10) l -> rev tok ++ l <> [] ->
  tokens_from tok (l ++ 10 :: rest) = (rev tok ++ l) :: tokens rest.
Proof.
  intros Hl. revert tok. induction Hl as [|c l Hc Hl IH]; intros tok Hne.
  - rewrite app_nil_r in *. by destruct tok.
  - cbn [tokens_from app]. rewrite (proj2 (Z.eqb_neq c 10) Hc). rewrite IH.
    + simpl. by rewrite <- app_assoc.
    + simpl. rewrite <- app_assoc. by destruct (rev tok).
Qed.

Lemma tokens_line l rest :
  Forall (fun c => c <> 10) l -> l <> [] -> tokens (l ++ 10 :: rest) = l :: tokens rest.
Proof. intros. by apply (tokens_from_line []). Qed.

(** Characters of a line. *)
Definition plain (c : Z) : Prop := c <> 10 /\ c <> 0.

Lemma mtd_line_plain i p :
  0 <= i < 2147483648 -> word (p_name p) -> Forall plain (mtd_line i p).
Proof.
  intros Hi Hw. destruct (fmt_d_spec i Hi) as [Hd _].
  assert (forall n, Forall plain (hex_pad 8 n)) as Hh.
  { intros n. eapply list.Forall_impl; [apply hex_pad_xdigit|]. intros c Hc.
    split; intros ->; by vm_compute in Hc. }
  unfold mtd_line, quoted. rewrite !list.Forall_app, !list.Forall_cons, !list.Forall_app, !list.Forall_cons.
  split_and!; try (by repeat constructor); try done.
  - eapply list.Forall_impl; [done|]. unfold dec_digit, plain. intros; lia.
  - rewrite list.Forall_app. split; [apply Hh|]. constructor; [done|]. constructor; [done|].
    apply list.Forall_app. split; [|by repeat constructor].
    eapply list.Forall_impl; [done|]. intros c [Hs H0]. split; [|done]. intros ->. done.
Qed.

(** What the search should find: the number of the first partition of that name. *)
Fixpoint first_part (i : Z) (ps : list part) : option Z :=
  match ps with
  | [] => None
  | p :: ps => if decide (p_name p = system_word) then Some i else first_part (i + 1) ps
  end.

Lemma find_token_lines i ps rest :
  0 <= i -> i + Z.of_nat (length ps) <= 2147483648 -> Forall (fun p => word (p_name p)) ps ->
  find_token system_name (tokens (mtd_lines i ps ++ rest)) =
    default (find_token system_name (tokens rest)) (first_part i ps).
Proof.
  intros Hi Hlen Hw. revert i Hi Hlen. induction Hw as [|p ps Hp Hw IH]; intros i Hi Hlen; [done|].
  simpl length in Hlen. cbn [mtd_lines first_part]. rewrite <- app_assoc. cbn [app].
  rewrite tokens_line.
  - cbn [find_token]. rewrite sscanf_mtd_line, streq_quoted by (done || lia).
    destruct (decide (p_name p = system_word)).
    + by rewrite bool_decide_eq_true_2.
    + rewrite bool_decide_eq_false_2 by done. apply IH; lia.
  - eapply list.Forall_impl; [apply mtd_line_plain; [lia|done]|]. by intros c [? _].
  - done.
Qed.

Lemma first_part_range i ps j :
  first_part i ps = Some j -> i <= j < i + Z.of_nat (length ps).
Proof.
  revert i. induction ps as [|p ps IH]; intros i H; simpl in *; [done|].
  destruct (decide _); [simplify_eq; lia|]. specialize (IH _ H). lia.
Qed.

Lemma mtd_lines_length i ps : (length ps <= length (mtd_lines i ps))%nat.
Proof.
  revert i. induction ps as [|p ps IH]; intros i; [done|]. cbn [mtd_lines].
  rewrite length_app. cbn [length]. specialize (IH (i + 1)). lia.
Qed.

Lemma cstr_front a b : Forall (fun c => c <> 0) a -> cstr (a ++ b) = a ++ cstr b.
Proof.
  induction 1 as [|c a Hc Ha IH]; [done|]. cbn [app cstr].
  by rewrite (proj2 (Z.eqb_neq c 0) Hc), IH.
Qed.

Lemma mtd_lines_nonzero i ps :
  0 <= i -> i + Z.of_nat (length ps) <= 2147483648 -> Forall (fun p => word (p_name p)) ps ->
  Forall (fun c => c <> 0) (mtd_lines i ps).
Proof.
  intros Hi Hl Hw. revert i Hi Hl. induction Hw as [|p ps Hp Hw IH]; intros i Hi Hl; [constructor|].
  simpl length in Hl. cbn [mtd_lines]. apply list.Forall_app. split.
  - eapply list.Forall_impl; [apply mtd_line_plain; [lia|done]|]. by intros c [_ ?].
  - constructor; [done|]. apply IH; lia.
Qed.

(** What [find_mount] takes for lines behind the table: what the stack held before, up to
    the first NUL. *)
Definition stale (sys : system) (ps : list part) : list Z :=
  cstr (drop (length (mtd_text ps)) (take 1023 (sys_stack sys ++ replicate 1023 0)) ++ [0]).

(** The kernel prints the table of [ps], whose names are words, and one read of 1023 bytes
    gives all of it. *)
Definition table_ok (sys : system) (ps : list part) : Prop :=
  sys_mtd sys = inr (mkRd (mtd_text ps) []) /\ (length (mtd_text ps) <= 1023)%nat /\
  Forall (fun p => word (p_name p)) ps.

Lemma table_short sys ps : table_ok sys ps -> (length ps <= 1023)%nat.
Proof.
  intros (_ & Hl & _). unfold mtd_text in Hl. rewrite length_app in Hl. cbn [length] in Hl.
  pose proof (mtd_lines_length 0 ps). lia.
Qed.

Lemma find_mount_table sys ps :
  table_ok sys ps ->
  find_mount sys system_name =
    default (find_token system_name (tokens (stale sys ps))) (first_part 0 ps).
Proof.
  intros Hok. pose proof (table_short sys ps Hok) as Hs. destruct Hok as (Hm & Hl & Hw).
  unfold find_mount. rewrite Hm. unfold adb_read. cbn [rd_script rd_data].
  rewrite take_ge by done. unfold mtd_buffer.
  rewrite cstr_front.
  - fold (stale sys ps). unfold mtd_text at 1. rewrite <- app_assoc. cbn [app].
    rewrite tokens_line by (done || by repeat constructor).
    cbn [find_token]. change (sscanf_mtd mtd_head) with (@None (Z * list Z)). cbv iota.
    apply find_token_lines; [lia|lia|done].
  - unfold mtd_text. apply list.Forall_app. split; [by repeat constructor|].
    constructor; [done|]. apply mtd_lines_nonzero; [lia|lia|done].
Qed.

(** ** Remounting *)

Definition remount_reply (sys : system) (r : Z) : list Z :=
  if r =? 0 then bs "remount succeeded" ++ [10]
  else snprintf 200 (bs "remount failed: " ++ sys_strerror sys ++ [10]).

(** The service after [remount_system]. *)
Lemma remount_service_after sys r t t1 :
  remount_system sys t = Ok (r, t1) ->
  t_open t1 = true -> Forall benign (wr_script (t_out t1)) ->
  exists t', remount_service sys t = Ok (Returned tt, t') /\
    wr_out (t_out t') = wr_out (t_out t1) ++ remount_reply sys r /\
    t_acts t' = t_acts t1 /\ system_ro t' = system_ro t1.
Proof.
  intros Hr Ho Hw. unfold remount_service. erewrite bind_ok by exact Hr.
  destruct (sock_write_sent (remount_reply sys r) t1 Ho Hw) as (sc & _ & Hs).
  assert ((if r =? 0 then write_string (bs "remount succeeded" ++ [10])
           else write_string (snprintf 200 (bs "remount failed: " ++ sys_strerror sys ++ [10]))) t1
          = Ok (tt, sent (remount_reply sys r) sc t1)) as Hwr.
  { unfold remount_reply, write_string in *. destruct (r =? 0); by erewrite bind_ok by exact Hs. }
  eexists. split.
  - erewrite bind_ok by exact Hwr.
    erewrite bind_ok by (unfold sock_close; cbn; by rewrite Ho). reflexivity.
  - done.
Qed.

Definition mtdblock (i : Z) : list Z := bs "/dev/block/mtdblock" ++ fmt_d i.

Lemma mtdblock_fits i : 0 <= i < 2147483648 -> snprintf 64 (mtdblock i) = mtdblock i.
Proof.
  intros Hi. destruct (fmt_d_spec i Hi) as [_ Hl]. unfold snprintf. apply take_ge.
  unfold mtdblock. rewrite length_app. simpl length. lia.
Qed.

(** What [remount_system] does, case by case. *)
Lemma remount_system_cases sys ps t :
  table_ok sys ps -> t_open t = true ->
  exists r t1, remount_system sys t = Ok (r, t1) /\ t_open t1 = true /\ t_out t1 = t_out t /\
    if decide (system_ro t = 0) then r = 0 /\ t_acts t1 = t_acts t
    else match first_part 0 ps with
         | Some i => r = sys_mount sys (mtdblock i) /\ system_ro t1 = r /\
             t_acts t1 = t_acts t ++ [AMount (mtdblock i) (bs "/system") (bs "yaffs2")]
         | None =>
             let n := find_token system_name (tokens (stale sys ps)) in
             if n <? 0 then r = -1 /\ t_acts t1 = t_acts t /\ system_ro t1 = system_ro t
             else r = sys_mount sys (snprintf 64 (mtdblock n)) /\ system_ro t1 = r /\
               t_acts t1 = t_acts t ++ [AMount (snprintf 64 (mtdblock n)) (bs "/system") (bs "yaffs2")]
         end.
Proof.
  intros Hok Ho. pose proof (find_mount_table sys ps Hok) as Hf.
  pose proof (table_short sys ps Hok) as Hs.
  unfold remount_system. erewrite bind_ok by reflexivity. cbv beta.
    destruct (decide (system_ro t = 0)) as [->|Hro]; [eexists _, _; by split_and!|].
    rewrite (proj2 (Z.eqb_neq _ _) Hro). cbv zeta. rewrite Hf.
    destruct (first_part 0 ps) as [i|] eqn:Hi; cbv [default from_option id].
    - apply first_part_range in Hi. rewrite (proj2 (Z.ltb_ge i 0)) by lia.
      fold (mtdblock i). rewrite mtdblock_fits by lia. eexists _, _. by split_and!.
    - cbv zeta. destruct (find_token _ _ <? 0) eqn:E; eexists _, _; (split; [reflexivity|]); by split_and!.
Qed.


(** A table of two partitions, the second of which is the system's. *)
Definition demo_parts : list part :=
  [mkPart 262144 131072 (bs "misc"); mkPart 75497472 131072 (bs "system")].

Definition demo_mtd : system :=
  mkSys None None (inr (mkRd (mtd_text demo_parts) [])) (fun _ => 0) (fun _ => None)
    (fun _ => None) [] (fun _ => []) 0 1 false 0 false false false None false false true true [].

(** A table without that partition, with nothing behind it. *)
Definition demo_nomtd : system :=
  mkSys None None (inr (mkRd (mtd_text (take 1 demo_parts)) [])) (fun _ => 0) (fun _ => None)
    (fun _ => None) [] (fun _ => []) 0 1 false 0 false false false None false false true true [].


(** ** The port of the daemon *)

Lemma service_of_tcpip sys recovery_mode s :
  daemon_service_to_fd sys recovery_mode (bs "tcpip:" ++ s) =
    Some (Thread (Tcpip match device_sscanf_d s with
                        | ScanInt n => n
                        | ScanNone => 0
                        | ScanEof => s32 (of_le (take 4 (sys_stack sys)))
                        end)).
Proof. destruct recovery_mode; reflexivity. Qed.

(** A request for a port in TCP mode sets the property to that number, which the
    daemon reads back after its restart, and ends the daemon; a request with a number
    that is not positive changes nothing.  A request without a number takes whatever was
    on the stack, since [sscanf] then returns -1 and not 0. *)
Theorem tcpip_sets_port {FS} {fsys : FileSystem FS} strerror (fs : FS) buf sys recovery_mode storage n t :
  0 <= n < 2147483648 -> t_open t = true -> Forall benign (wr_script (t_out t)) ->
  daemon_service_to_fd sys recovery_mode (bs "tcpip:" ++ fmt_d n) = Some (Thread (Tcpip n)) /\
  daemon_service_to_fd sys recovery_mode (bs "tcpip:") =
    Some (Thread (Tcpip (s32 (of_le (take 4 (sys_stack sys)))))) /\
  exists o t', service_bootstrap_func strerror fs buf sys storage (Tcpip n) t = Ok (o, t') /\
    if 0 <? n then
      o = Exited 1 /\
      exists v, t_acts t' = t_acts t ++ [ASetProp tcp_port_property v] /\
        device_sscanf_d v = ScanInt n /\
        wr_out (t_out t') =
          wr_out (t_out t) ++ bs "restarting in TCP mode port: " ++ fmt_d n ++ [10]
    else
      o = Returned tt /\ t_acts t' = t_acts t /\
      wr_out (t_out t') = wr_out (t_out t) ++ bs "invalid port" ++ [10].
Proof.
  intros Hn Ho Hw. split; [by rewrite service_of_tcpip, device_sscanf_d_fmt|].
  split; [exact (service_of_tcpip sys recovery_mode [])|].
  cbn [service_bootstrap_func]. unfold restart_tcp_service.
  destruct (fmt_d_spec n Hn) as [_ Hl]. rewrite Z.leb_antisym. destruct (0 <? n) eqn:E; cbn [negb].
  - set (msg := bs "restarting in TCP mode port: " ++ fmt_d n ++ [10]).
    set (v := snprintf PROPERTY_VALUE_MAX (fmt_d n)).
    assert (v = fmt_d n) as Hv by (apply take_ge; unfold PROPERTY_VALUE_MAX; lia).
    assert (snprintf 100 msg = msg) as Hm.
    { apply take_ge. unfold msg. rewrite !length_app. simpl length. lia. }
    destruct (sock_write_sent msg (add_act (ASetProp tcp_port_property v) t) Ho Hw) as (sc & _ & Hs).
    eexists _, _. split.
    { unfold set_property. erewrite bind_ok by reflexivity. unfold say. rewrite Hm.
      erewrite bind_ok by (erewrite bind_ok by exact Hs; reflexivity).
      erewrite bind_ok by (unfold sock_close; cbn; by rewrite Ho). reflexivity. }
    split; [done|]. exists v. split_and!; [done| |done]. rewrite Hv. by apply device_sscanf_d_fmt.
  - destruct (sock_write_sent (bs "invalid port" ++ [10]) t Ho Hw) as (sc & _ & Hs).
    eexists _, _. split.
    { unfold say. erewrite bind_ok by (erewrite bind_ok by exact Hs; reflexivity).
      erewrite bind_ok by (unfold sock_close; cbn; by rewrite Ho). reflexivity. }
    done.
Qed.

(** When /proc/mtd gives nothing, [find_mount] takes what an earlier call left on the
    stack for the table. *)
Example find_mount_reads_stack :
  let sys := mkSys None None (inr (mkRd [] [])) (fun _ => 0) (fun _ => None) (fun _ => None) []
    (fun _ => []) 0 1 false 0 false false false None false false true true
    (mtd_line 9 (mkPart 1 1 (bs "system")) ++ [10]) in
  find_mount sys system_name = 9.
Proof. vm_compute. reflexivity. Qed.
