(* ===== verification/Daemon.v ===== *)
(** * The life of the daemon on the device

    The start of the daemon ([adb_main] of adb.c, as the device compiles it): reading properties, giving up root in secure mode, opening the ways in.
    Init starts the daemon as root and starts it again when it ends; in between the
    daemon runs services (Services.v), some of which set properties and end it.  The
    theorems say when the daemon runs as root. *)

From S2P Require Import Prelude Io SyncBase Services ServicesFacts ServicesScan.

(** ** The process and what the kernel answers *)

Definition AID_GRAPHICS : Z := 1003.
Definition AID_INPUT : Z := 1004.
Definition AID_LOG : Z := 1007.
Definition AID_MOUNT : Z := 1009.
Definition AID_ADB : Z := 1011.
Definition AID_SDCARD_RW : Z := 1015.
Definition AID_SHELL : Z := 2000.
Definition AID_NET_BT_ADMIN : Z := 3001.
Definition AID_NET_BT : Z := 3002.
Definition AID_INET : Z := 3003.
Definition CAP_SYS_BOOT : Z := 22.
Definition ADB_LOCAL_TRANSPORT_PORT : Z := 5555.

(** How the daemon can be reached. *)
Inductive way_in :=
| Clients                 (** clients on the device, on port 5037 *)
| Network (port : Z)
| UsbCable.

Record process := mkProc {
  p_uid : Z; p_gid : Z; p_groups : list Z;
  p_keepcaps : bool;
  p_permitted : Z; p_effective : Z;       (** capabilities as bit masks *)
  p_ways : list way_in }.

(** Whether each call succeeds. *)
Record kernel := mkKernel {
  k_prctl : bool; k_setgroups : bool; k_setgid : bool; k_setuid : bool; k_capset : bool;
  k_listener : bool; k_access : bool }.

Definition set_keepcaps (p : process) : process :=
  mkProc (p_uid p) (p_gid p) (p_groups p) true (p_permitted p) (p_effective p) (p_ways p).
Definition set_groups (l : list Z) (p : process) : process :=
  mkProc (p_uid p) (p_gid p) l (p_keepcaps p) (p_permitted p) (p_effective p) (p_ways p).
Definition set_gid (g : Z) (p : process) : process :=
  mkProc (p_uid p) g (p_groups p) (p_keepcaps p) (p_permitted p) (p_effective p) (p_ways p).

(** Leaving root clears the effective capabilities, and the permitted ones unless the
    process asked to keep them. *)
Definition set_uid (u : Z) (p : process) : process :=
  let leaves := (p_uid p =? 0) && negb (u =? 0) in
  mkProc u (p_gid p) (p_groups p) (p_keepcaps p)
    (if leaves && negb (p_keepcaps p) then 0 else p_permitted p)
    (if leaves then 0 else p_effective p) (p_ways p).
Definition set_caps (c : Z) (p : process) : process :=
  mkProc (p_uid p) (p_gid p) (p_groups p) (p_keepcaps p) c c (p_ways p).
Definition open_way (w : way_in) (p : process) : process :=
  mkProc (p_uid p) (p_gid p) (p_groups p) (p_keepcaps p) (p_permitted p) (p_effective p)
    (p_ways p ++ [w]).

(** A call that ends the daemon when it fails: [if (call != 0) exit(1);]. *)
Definition must (ok : bool) (f : process -> process) (k : M process (outcome unit)) :
    M process (outcome unit) :=
  if ok then modify f ;; k else ret (Exited 1).

(** ** Starting *)

Abbreviation properties := (gmap (list Z) (list Z)).

(** [property_get(key, value, "")]. *)
Definition property_get (ps : properties) (key : list Z) : list Z := default [] (ps !! key).

Definition is_one (ps : properties) (key : list Z) : bool := streq (property_get ps key) (bs "1").

(** The first part of [adb_main]: whether to run in secure mode. *)
Definition secure (ps : properties) : bool :=
  if negb (is_one ps (bs "ro.kernel.qemu")) then
    if is_one ps (bs "ro.secure") then
      if is_one ps (bs "ro.debuggable") then negb (is_one ps (bs "service.adb.root"))
      else true
    else false
  else false.

Definition shell_groups : list Z :=
  [AID_ADB; AID_LOG; AID_INPUT; AID_INET; AID_GRAPHICS; AID_NET_BT; AID_NET_BT_ADMIN;
   AID_SDCARD_RW; AID_MOUNT].

(** Giving up root; the result of [capset] is not looked at. *)
Definition drop_root (k : kernel) (rest : M process (outcome unit)) : M process (outcome unit) :=
  must (k_prctl k) set_keepcaps (
  must (k_setgroups k) (set_groups shell_groups) (
  must (k_setgid k) (set_gid AID_SHELL) (
  must (k_setuid k) (set_uid AID_SHELL) (
  when (k_capset k) (modify (set_caps (Z.shiftl 1 CAP_SYS_BOOT))) ;; rest)))).

(** The transport the device listens on. *)
Definition device_transport (k : kernel) (ps : properties) : M process (outcome unit) :=
  let value := match ps !! tcp_port_property with Some v => v | None => bs "0" end in
  let other := if k_access k then UsbCable else Network ADB_LOCAL_TRANSPORT_PORT in
  modify (open_way match device_sscanf_d value with
                   | ScanInt port => if 0 <? port then Network port else other
                   | _ => other
                   end) ;;
  ret (Returned tt).

(** [adb_main] up to the event loop. *)
Definition daemon_main (k : kernel) (ps : properties) : M process (outcome unit) :=
  if secure ps then drop_root k (device_transport k ps)
  else must (k_listener k) (open_way Clients) (device_transport k ps).

(** What init starts: a process of root with every capability. *)
Definition all_caps : Z := two32 - 1.
Definition from_init : process := mkProc 0 0 [] false all_caps all_caps [].

(** ** Lives *)

(** The properties of the device and the daemon, if it runs. *)
Record life := mkLife { l_props : properties; l_proc : option process }.

Definition apply_act (ps : properties) (a : sysact) : properties :=
  match a with ASetProp k v => <[k := v]> ps | _ => ps end.

(** Init starts the daemon; the daemon runs a service, the run of which is defined; any
    program sets a property that is not read-only.  With [cap], the kernel lets the daemon
    set its capabilities. *)
Inductive step (cap : bool) : life -> life -> Prop :=
| step_start k ps o p :
    (cap = true -> k_capset k = true) ->
    daemon_main k ps from_init = Ok (o, p) ->
    step cap (mkLife ps None)
         (mkLife ps match o with Returned _ => Some p | _ => None end)
| step_service FS (fsys : FileSystem FS) strerror (fs : FS) buf sys storage s t o t' ps p :
    t_open t = true -> t_acts t = [] ->
    (forall key, sys_getprop sys key = property_get ps key) -> sys_getuid sys = p_uid p ->
    service_bootstrap_func strerror fs buf sys storage s t = Ok (o, t') ->
    step cap (mkLife ps (Some p))
         (mkLife (fold_left apply_act (t_acts t') ps)
                 match o with Exited _ => None | _ => Some p end)
| step_setprop key v ps proc :
    prefixb (bs "ro.") key = false ->
    step cap (mkLife ps proc) (mkLife (<[key := v]> ps) proc).

(** A device as it is sold: secure, not an emulator and not for debugging. *)
Definition production (ps : properties) : Prop :=
  is_one ps (bs "ro.kernel.qemu") = false /\ is_one ps (bs "ro.secure") = true /\
  is_one ps (bs "ro.debuggable") = false.

(** A daemon that gave up root: user and groups of the shell, at most the capability to
    reboot in effect, and clients on the device kept out.  Where the kernel let it set its
    capabilities, it is permitted no others either, so it cannot get one back. *)
Definition confined (cap : bool) (p : process) : Prop :=
  p_uid p = AID_SHELL /\ p_gid p = AID_SHELL /\ p_groups p = shell_groups /\
  (p_effective p = 0 \/ p_effective p = Z.shiftl 1 CAP_SYS_BOOT) /\ (Clients ∉ p_ways p) /\
  (cap = true -> p_permitted p = Z.shiftl 1 CAP_SYS_BOOT).

Lemma production_secure ps : production ps -> secure ps = true.
Proof. intros (H1 & H2 & H3). unfold secure. by rewrite H1, H2, H3. Qed.

Lemma daemon_main_confines k ps :
  secure ps = true ->
  wp (daemon_main k ps) (fun o p =>
    match o with Returned _ => confined (k_capset k) p
               | _ => o = Exited 1 /\ p_ways p = [] end) from_init.
Proof.
  intros Hs. unfold daemon_main. rewrite Hs. unfold drop_root, must.
  destruct (k_prctl k); [|done]. destruct (k_setgroups k); [|done].
  destruct (k_setgid k); [|done]. destruct (k_setuid k); [|done].
  unfold device_transport. destruct (device_sscanf_d _) as [| |n]; [| |destruct (0 <? n)];
    destruct (k_access k), (k_capset k);
    (split_and!; [done|done|done|by (left + right)| |done]);
    cbn; intros [?|[]%elem_of_nil]%elem_of_cons; done.
Qed.

Lemma confined_weaken cap cap' p : (cap = true -> cap' = true) -> confined cap' p -> confined cap p.
Proof. intros H (? & ? & ? & ? & ? & ?). split_and!; auto. Qed.

Lemma is_one_insert ps key v k :
  k <> key -> is_one (<[key := v]> ps) k = is_one ps k.
Proof. intros. unfold is_one, property_get. by rewrite lookup_insert_ne. Qed.

Lemma production_insert ps key v :
  prefixb (bs "ro.") key = false -> production ps -> production (<[key := v]> ps).
Proof.
  intros Hk. unfold production. by rewrite !is_one_insert by (intros <-; done).
Qed.

Lemma production_acts sys acts ps :
  Forall (allowed sys) acts -> production ps -> production (fold_left apply_act acts ps).
Proof.
  intros Ha. revert ps. induction Ha as [|a acts Ha _ IH]; intros ps Hp; [done|].
  cbn [fold_left]. apply IH. destruct a; try done. cbn [apply_act].
  apply production_insert; [|done]. by destruct Ha as [->|[-> _]].
Qed.

(** The invariant of the lives of such a device. *)
Definition life_ok (cap : bool) (l : life) : Prop :=
  production (l_props l) /\ forall p, l_proc l = Some p -> confined cap p.

Lemma step_ok cap l l' : step cap l l' -> life_ok cap l -> life_ok cap l'.
Proof.
  intros Hs [Hp Hc].
  destruct Hs as [k ps o p Hk Hm|FS ? ? ? ? sys ? s t o t' ps p Ho Ha ? ? Hr|]; simpl in *.
  - split; [done|]. intros q Hq. pose proof (daemon_main_confines k ps (production_secure ps Hp)) as Hw.
    unfold wp in Hw. rewrite Hm in Hw. destruct o; [|done..].
    injection Hq as <-. by eapply confined_weaken.
  - pose proof (services_finish strerror fs buf sys storage s t Ho) as Hf.
    rewrite Hr in Hf. destruct Hf as (_ & (acts & Hacts & Hall) & _). split; simpl.
    + rewrite Hacts, Ha. by eapply production_acts.
    + intros q Hq. apply Hc. by destruct o.
  - split; [by apply production_insert|done].
Qed.

(** C13: On a device as it is sold, whatever services clients run (the sync and the log
    service included, as long as what they do is defined), whatever properties that are not
    read-only programs set and however often the daemon is restarted, the daemon that takes
    requests runs as the shell user with the shell's groups, has no capability in effect
    but that to reboot, and does not listen to clients on the device.  With [cap], that is
    on a kernel whose [capset] succeeds at every start, it is also permitted no capability
    but that to reboot; without it nothing is claimed of the permitted set, which the daemon
    does not check. *)
Theorem production_never_root cap ps l p :
  production ps -> rtc (step cap) (mkLife ps None) l -> l_proc l = Some p -> confined cap p.
Proof.
  intros Hp Hr. assert (life_ok cap l) as [_ H]; [|by apply H].
  assert (life_ok cap (mkLife ps None)) as H0 by done. revert Hr H0.
  induction 1 as [|a b c Hab _ IH]; [done|]. intros Ha. apply IH. by eapply step_ok.
Qed.

Definition demo_props : properties := {[bs "ro.secure" := bs "1"]}.

Definition demo_kernel : kernel := mkKernel true true true true true true true.

(** The daemon after its first start, with the property for root set by some program. *)
Lemma production_never_root_witness :
  exists l p, rtc (step true) (mkLife demo_props None) l /\ l_proc l = Some p /\ confined true p.
Proof.
  destruct (daemon_main demo_kernel demo_props from_init) as [[o p]|e] eqn:E; [|discriminate E].
  assert (o = Returned tt) as -> by (injection E as <- _; reflexivity).
  eexists (mkLife (<[bs "service.adb.root" := bs "1"]> demo_props) (Some p)), p.
  assert (rtc (step true) (mkLife demo_props None)
            (mkLife (<[bs "service.adb.root" := bs "1"]> demo_props) (Some p))) as Hr.
  { eapply rtc_l; [exact (step_start true demo_kernel _ _ _ (fun _ => eq_refl) E)|].
    eapply rtc_l; [exact (step_setprop true (bs "service.adb.root") (bs "1") _ _ eq_refl)|apply rtc_refl]. }
  split; [exact Hr|]. split; [reflexivity|].
  refine (production_never_root true demo_props _ p _ Hr eq_refl). by vm_compute.
Defined.

(** ** Becoming root on a device for debugging *)

(** On a secure device that can be debugged, a request for root to a daemon that does
    not run as root ends it after it set the property, and the daemon that init then
    starts keeps root, its capabilities and its groups. *)
Theorem root_request_gives_root {FS} {fsys : FileSystem FS} strerror (fs : FS) buf sys storage ps p t k :
  is_one ps (bs "ro.debuggable") = true -> p_uid p <> 0 -> t_open t = true -> t_acts t = [] ->
  (forall key, sys_getprop sys key = property_get ps key) -> sys_getuid sys = p_uid p ->
  k_listener k = true ->
  exists t' p', service_bootstrap_func strerror fs buf sys storage Root t = Ok (Exited 1, t') /\
    daemon_main k (fold_left apply_act (t_acts t') ps) from_init = Ok (Returned tt, p') /\
    p_uid p' = 0 /\ p_gid p' = 0 /\ p_effective p' = all_caps /\ Clients ∈ p_ways p'.
Proof.
  intros Hd Hu Ho Ha Hg Hid Hk. cbn [service_bootstrap_func].
  assert (wp (restart_root_service sys) (fun o t' => o = Exited 1 /\
    t_acts t' = [ASetProp (bs "service.adb.root") (bs "1")]) t) as Hw.
  { unfold restart_root_service. rewrite Hid, (proj2 (Z.eqb_neq _ _) Hu), Hg.
    unfold is_one in Hd. rewrite Hd. cbn [negb]. run. split; [done|]. cbn. by rewrite Ha. }
  apply wp_ok in Hw as (o & t' & Hr & -> & Hacts). exists t'. rewrite Hacts. cbn [fold_left apply_act].
  assert (secure (<[bs "service.adb.root" := bs "1"]> ps) = false) as Hs.
  { unfold secure. rewrite (is_one_insert ps _ _ (bs "ro.debuggable")), Hd by done.
    assert (is_one (<[bs "service.adb.root" := bs "1"]> ps) (bs "service.adb.root") = true) as ->
      by (unfold is_one, property_get; by rewrite lookup_insert_eq).
    destruct (negb _); [|done]. case (is_one _ (bs "ro.secure")); reflexivity. }
  unfold daemon_main. rewrite Hs. unfold must. rewrite Hk. unfold device_transport.
  eexists. split; [done|]. split; [reflexivity|]. split_and!; try done.
  cbn. apply elem_of_cons. by left.
Qed.
