(* ===== verification/SyncLink.v ===== *)
(** * Linking two directories

    [adb link] first makes a directory of the host and one of the device equal:
    it sends the files that are newer on the host, then fetches those that are
    newer on the device.  The two programs are run against each other, with one
    connection for the whole session. *)

From S2P Require Import Prelude Io SyncBase SyncServer SyncClient SyncRun SyncFs SyncTransfer SyncSafety.

Section Link.
Context {FS : Type} {fsys : FileSystem FS} {laws : FsLaws FS}.
Context (strerror : option errno -> list Z).
Implicit Types fs : FS.

(** ** What a transfer leaves alone *)

(** The file [q] has not changed. *)
Definition same_file (q : list Z) fs fs' : Prop :=
  fs_contents q fs' = fs_contents q fs /\
  forall st, S_ISREG (st_mode st) = true -> fs_lstat q fs' = Some st <-> fs_lstat q fs = Some st.

Lemma same_file_refl q fs : same_file q fs fs.
Proof. done. Qed.

Lemma same_file_trans q fs1 fs2 fs3 : same_file q fs1 fs2 -> same_file q fs2 fs3 -> same_file q fs1 fs3.
Proof. intros [A1 A2] [B1 B2]. split; [congruence|]. intros st Hst. by rewrite B2, A2. Qed.

Lemma same_file_eq q fs fs' : fs_contents q fs' = fs_contents q fs -> fs_lstat q fs' = fs_lstat q fs -> same_file q fs fs'.
Proof. intros E1 E2. split; [done|]. intros st _. by rewrite E2. Qed.

Lemma stores_frame p q fs fs' : apart p q -> stores p fs fs' -> same_file q fs fs'.
Proof.
  intros Ha. induction 1 as [fs|fs fs1 fs2 [d ->] _ IH]; [apply same_file_refl|].
  eapply same_file_trans; [|exact IH]. apply same_file_eq; [by apply law_store_apart|by apply law_lstat_store].
Qed.

Lemma stores_regular p fs fs' : stores p fs fs' -> regular p fs -> regular p fs'.
Proof. induction 1 as [fs|fs fs1 fs2 [d ->] _ IH]; [done|]. intros Hr. by apply IH, law_store_regular. Qed.

Lemma mkdirs_frame q x : forall pre fs, same_file q fs (mkdirs_loop pre x fs).2.
Proof.
  induction x as [|b x IH]; intros pre fs; cbn [mkdirs_loop]; [apply same_file_refl|]. destruct (b =? 47); [|apply IH].
  assert (same_file q fs (fs_mkdir pre 0x1fd fs).2) as H1.
  { split; [apply law_mkdir_contents|]. intros st Hst. by apply law_lstat_mkdir. }
  destruct (fs_mkdir pre 0x1fd fs) as [[e|] fs']; cbn in H1; [destruct e|]; cbn; try done; by eapply same_file_trans.
Qed.

Lemma open_excl_frame p q m fs : apart p q -> same_file q fs (fs_open_excl p m fs).2.
Proof. intros Ha. apply same_file_eq; [by apply law_open_excl_apart|by apply law_lstat_open_excl]. Qed.

Lemma open_for_send_frame p q m fs : apart p q -> same_file q fs (open_for_send p m fs).2.
Proof.
  intros Ha. unfold open_for_send. pose proof (open_excl_frame p q m fs Ha) as H1. destruct (fs_open_excl p m fs) as [r fs1]. cbn in H1.
  assert (same_file q fs (fs_open_excl p m (SyncServer.mkdirs p fs1).2).2) as H2.
  { eapply same_file_trans; [exact H1|]. eapply same_file_trans; [|by apply open_excl_frame].
    destruct p as [|b x]; cbn; [apply same_file_refl|]. destruct (b =? 47); [apply mkdirs_frame|apply same_file_refl]. }
  destruct r as [[]|w]; cbn; try done. by destruct (fs_open_excl p m (SyncServer.mkdirs p fs1).2) as [[[]|w] fs2].
Qed.

(** The service has received the file [p]. *)
Definition received (p : list Z) fs fs' : Prop :=
  exists m w fs1 fs0 t, open_for_send p m (fs_unlink p fs) = (inr w, fs1) /\ stores p fs1 fs0 /\ fs' = fs_utime p t fs0.

Lemma received_frame p q fs fs' : apart p q -> received p fs fs' -> same_file q fs fs'.
Proof.
  intros Ha (m & w & fs1 & fs0 & t & Ho & Hs & ->).
  eapply same_file_trans; [|apply same_file_eq; [by apply law_utime_apart|by apply law_lstat_utime]].
  eapply same_file_trans; [|by eapply stores_frame].
  eapply same_file_trans; [apply same_file_eq; [by apply (law_unlink_apart p)|by apply law_lstat_unlink]|].
  pose proof (open_for_send_frame p q m (fs_unlink p fs) Ha) as H. by rewrite Ho in H.
Qed.

Lemma before_creat_contents p q fs : apart p q -> fs_contents q (before_creat p fs) = fs_contents q fs.
Proof.
  intros Ha. destruct p as [|b x]; cbn [before_creat]; [done|]. destruct (mkdirs_frame q x [b] (fs_unlink (b :: x) fs)) as [-> _].
  by apply law_unlink_apart.
Qed.

(** ** Sending a list of files *)

(** A file of the list can be read here and its request fits. *)
Record can_send (cfs : FS) (ci : copyinfo) : Prop := CanSend {
  cs_read : exists f, fs_open_rd (ci_src ci) cfs = inr f /\ Forall benign (rd_script f);
  cs_reg : S_ISREG (ci_mode ci) = true;
  cs_mode : 0 <= ci_mode ci < 65536;
  cs_time : is_u32 (ci_time ci);
  cs_path : path_ok (ci_dst ci ++ mode_suffix (ci_mode ci));
}.

(** The file system of the device takes the files of [l], in all the states
    [Good] that this can lead to. *)
Record receptive (l : list copyinfo) (Good : FS -> Prop) : Prop := Receptive {
  rc_open ci fs : ci ∈ l -> Good fs ->
    exists w fs1, open_for_send (ci_dst ci) (send_perm (ci_mode ci)) (fs_unlink (ci_dst ci) fs) = (inr w, fs1) /\
      wf_base w = [] /\ regular (ci_dst ci) fs1 /\ Forall benign (wr_script (wf_wr w)) /\ Good fs1;
  rc_store ci d fs : ci ∈ l -> Good fs -> Good (fs_store (ci_dst ci) d fs);
  rc_utime ci fs : ci ∈ l -> Good fs -> Good (fs_utime (ci_dst ci) (ci_time ci) fs);
}.

Definition to_send (l : list copyinfo) : list copyinfo := List.filter (fun ci => negb (ci_flag ci)) l.

(** No two files of the list have the same destination. *)
Definition separate (l : list copyinfo) : Prop :=
  ForallOrdPairs (fun a b => apart (ci_dst a) (ci_dst b) /\ apart (ci_dst b) (ci_dst a)) l.

(** The service goes through the requests [i] with the answers [o], then does the
    rest. *)
Definition handles (i : list Z) fs (o : list Z) fs' : Prop :=
  exists n, (n <= length i)%nat /\
    forall k i' o' fs'', serves strerror k i' fs' o' fs'' -> serves strerror (n + k) (i ++ i') fs (o ++ o') fs''.

Lemma handles_nil fs : handles [] fs [] fs.
Proof. exists 0%nat. split; [done|]. by intros k i' o' fs'' H. Qed.

(** One request. *)
Lemma handles_command id path h i fs o fs' :
  sync_command strerror id path = Some h -> is_u32 id -> path_ok path -> does h i fs 0 o fs' ->
  handles (request id path ++ i) fs o fs'.
Proof.
  intros Hc Hid Hp Hd. exists 1%nat. split.
  - unfold request. rewrite !length_app. change (length (msg_req _ _)) with 8%nat. lia.
  - intros k i' o' fs'' H. rewrite <- app_assoc. by eapply serves_command.
Qed.

(** A session that ends with QUIT. *)
Lemma handles_quit i fs o fs' : handles i fs o fs' -> finishes (file_sync_service strerror) (i ++ msg_req ID_QUIT 0) fs o fs'.
Proof.
  intros (n & Hn & H). rewrite <- (app_nil_r o). eapply (serves_service _ (n + 0)); [apply H, serves_quit|]. rewrite length_app. lia.
Qed.

Lemma handles_app i1 i2 fs o1 o2 fs1 fs2 :
  handles i1 fs o1 fs1 -> handles i2 fs1 o2 fs2 -> handles (i1 ++ i2) fs (o1 ++ o2) fs2.
Proof.
  intros (n1 & L1 & H1) (n2 & L2 & H2). exists (n1 + n2)%nat. split; [rewrite length_app; lia|].
  intros k i' o' fs'' H. rewrite <- !app_assoc, <- Nat.add_assoc. apply H1. by apply H2.
Qed.

Context (files_sent : list copyinfo) (Good : FS -> Prop) (Hrc : receptive files_sent Good).

(** One file. *)
Lemma send_session cfs sfs ci :
  can_send cfs ci -> ci ∈ files_sent -> Good sfs ->
  exists f cout sout sfs', fs_open_rd (ci_src ci) cfs = inr f /\
    does (sync_send (ci_src ci) (ci_dst ci) (ci_time ci) (ci_mode ci) false) sout cfs 0 cout cfs /\
    handles cout sfs sout sfs' /\ Good sfs' /\ received (ci_dst ci) sfs sfs' /\
    fs_contents (ci_dst ci) sfs' = Some (rd_data f) /\
    exists st, fs_lstat (ci_dst ci) sfs' = Some st /\ st_mtime st = ci_time ci /\ S_ISREG (st_mode st) = true.
Proof using Hrc laws.
  intros [(f & Ho & Hb) Hreg Hm Ht Hp] HP HG.
  destruct (does_write_data_file (ci_src ci) f cfs Ho Hb) as (ds & Hds & Hok & Hd).
  destruct (rc_open _ _ Hrc _ _ HP HG) as (w & fs1 & How & Hbase & Hr & Hbw & HG1).
  destruct (does_do_send strerror (ci_dst ci) (ci_mode ci) (ci_time ci) ds sfs w fs1) as (sfs' & Hrun & Hc & Hst & (fs0 & Hs & E)); [done..|].
  exists f. do 2 eexists. exists sfs'. split; [done|]. split.
  { apply (does_sync_send _ _ _ _ 0 ds); [done..|]. destruct Hp as [Hp _]. rewrite length_app in Hp. lia. }
  split_and!.
  - by eapply handles_command.
  - subst sfs'. apply (rc_utime _ _ Hrc); [done|]. clear -Hs HG1 Hrc HP.
    induction Hs as [|fs fs2 fs3 [d ->] _ IH]; [done|]. apply IH. by apply (rc_store _ _ Hrc).
  - by exists (send_perm (ci_mode ci)), w, fs1, fs0, (ci_time ci).
  - by rewrite Hc, Hbase, Hds, drop_nil, app_nil_r.
  - destruct (Hst Hr) as (st & Hl & Ht'). exists st. split_and!; [done..|].
    destruct (stores_regular _ _ _ Hs Hr) as (st0 & H0 & R0). subst sfs'.
    destruct (law_utime_regular (ci_dst ci) (ci_time ci) fs0) as (st1 & H1 & R1); [by exists st0|]. congruence.
Qed.

(** What a file of the list holds at the other end: [data], with its time. *)
Definition delivered (cfs fs : FS) (ci : copyinfo) : Prop :=
  (exists f, fs_open_rd (ci_src ci) cfs = inr f /\ fs_contents (ci_dst ci) fs = Some (rd_data f)) /\
  exists st, fs_lstat (ci_dst ci) fs = Some st /\ st_mtime st = ci_time ci /\ S_ISREG (st_mode st) = true.

(** Everything apart from the files sent stays as it is. *)
Definition untouched (l : list copyinfo) fs fs' : Prop :=
  forall q, Forall (fun ci => apart (ci_dst ci) q) l -> same_file q fs fs'.

Lemma push_all_session cfs l : forall sfs,
  Forall (can_send cfs) (to_send l) -> Forall (.∈ files_sent) (to_send l) -> separate (to_send l) -> Good sfs ->
  exists cout sout sfs', does (push_all l) sout cfs true cout cfs /\ handles cout sfs sout sfs' /\
    Good sfs' /\ Forall (delivered cfs sfs') (to_send l) /\ untouched (to_send l) sfs sfs'.
Proof using Hrc laws.
  induction l as [|ci l IH]; intros sfs Hs HP Hsep HG.
  { exists [], [], sfs. split_and!; [apply does_ret|apply handles_nil|done|constructor|by intros q _]. }
  unfold to_send in *. cbn [List.filter push_all] in *. destruct (ci_flag ci); cbn [negb] in *; [by apply IH|].
  apply Forall_cons_iff in Hs as [Hc Hs], HP as [HPc HP]. inversion Hsep as [|? ? Ha Hsep']; subst.
  destruct (send_session cfs sfs ci Hc HPc HG) as (f & co & so & sfs1 & Hf & D1 & H1 & G1 & R1 & C1 & L1).
  destruct (IH sfs1 Hs HP Hsep' G1) as (co2 & so2 & sfs2 & D2 & H2 & G2 & V2 & U2).
  exists (co ++ co2), (so ++ so2), sfs2. split_and!; [|by eapply handles_app|done| |].
  - eapply does_bind; [exact D1|]. exact D2.
  - constructor; [|done]. destruct (U2 (ci_dst ci)) as [E1 E2]; [eapply Forall_impl; [|exact Ha]; by intros b [_ ?]|].
    unfold delivered. rewrite E1. split; [by exists f|]. destruct L1 as (st & L1 & Lt & Lr). exists st. split; [by apply E2|done].
  - intros q [Hq Hqs]%Forall_cons_iff. eapply same_file_trans; [by eapply received_frame|by apply U2].
Qed.

(** ** Comparing times *)

(** The mark of a file from what the service reports of its destination. *)
Definition marked (skip : copyinfo -> Z -> Z -> Z -> bool) (sfs : FS) (ci : copyinfo) : copyinfo :=
  let '(time, mode, size) := stat_view (ci_dst ci) sfs in
  if skip ci time mode size then set_flag ci else ci.

Lemma readtimes_session skip (cfs sfs : FS) l :
  Forall (fun ci => path_ok (ci_dst ci)) l ->
  exists cout sout, does (start_readtimes l) [] cfs true cout cfs /\
    does (finish_readtimes skip l) sout cfs (Some (marked skip sfs <$> l)) [] cfs /\ handles cout sfs sout sfs.
Proof using laws.
  induction 1 as [|ci l Hp _ (co & so & D1 & D2 & H)].
  { exists [], []. split_and!; [apply does_ret..|apply handles_nil]. }
  exists (request ID_STAT (ci_dst ci) ++ co), (stat_reply (ci_dst ci) sfs ++ so). split_and!.
  - cbn [start_readtimes]. eapply does_bind_w; [apply does_send_req|]. exact D1.
  - cbn [finish_readtimes fmap list_fmap]. eapply does_bind_r; [apply does_read_stat|]. unfold marked at 1.
    destruct (stat_view (ci_dst ci) sfs) as [[t m] z]. by eapply does_then_ret.
  - eapply handles_app; [|exact H]. rewrite <- (app_nil_r (request _ _)). eapply handles_command; [done|done|done|apply does_do_stat].
Qed.

(** ** Fetching a list of files *)

Record can_fetch (sfs : FS) (ci : copyinfo) : Prop := CanFetch {
  cf_read : exists f, fs_open_rd (ci_src ci) sfs = inr f /\ Forall benign (rd_script f);
  cf_path : path_ok (ci_src ci);
  cf_dst : ci_dst ci <> [];
}.

(** The host takes new files at the paths [ps]. *)
Record receptive_host (ps : list (list Z)) (Good : FS -> Prop) : Prop := ReceptiveHost {
  rh_creat p fs : p ∈ ps -> Good fs ->
    exists w fs1, fs_creat p 0x1a4 (before_creat p fs) = (inr w, fs1) /\ Forall benign (wr_script (wf_wr w)) /\ Good fs1;
  rh_store p d fs : p ∈ ps -> Good fs -> Good (fs_store p d fs);
}.

Definition fetched (sfs fs : FS) (ci : copyinfo) : Prop :=
  exists f, fs_open_rd (ci_src ci) sfs = inr f /\ fs_contents (ci_dst ci) fs = Some (rd_data f).

Lemma recv_session (ps : list (list Z)) (GoodH : FS -> Prop) cfs sfs ci :
  receptive_host ps GoodH -> can_fetch sfs ci -> ci_dst ci ∈ ps -> GoodH cfs ->
  exists f cout sout cfs', fs_open_rd (ci_src ci) sfs = inr f /\
    does (sync_recv (ci_src ci) (ci_dst ci)) sout cfs 0 cout cfs' /\ handles cout sfs sout sfs /\ GoodH cfs' /\
    fs_contents (ci_dst ci) cfs' = Some (rd_data f) /\
    forall q, apart (ci_dst ci) q -> fs_contents q cfs' = fs_contents q cfs.
Proof using laws.
  intros Hrh [(f & Ho & Hb) Hp Hne] HP HG. destruct (does_do_recv strerror (ci_src ci) f sfs Ho Hb) as (ds & Hds & Hok & Hd).
  destruct (rh_creat _ _ Hrh _ _ HP HG) as (w & fs1 & Hw & Hbw & HG1).
  destruct (does_sync_recv (ci_src ci) (ci_dst ci) ds cfs w fs1) as (cfs' & Hc & Hs & Hrun); [destruct Hp; lia|done..|].
  exists f. do 2 eexists. exists cfs'. split; [done|]. split; [exact Hrun|]. split_and!.
  - rewrite <- (app_nil_r (request _ _)). by eapply handles_command.
  - clear -Hs HG1 Hrh HP. induction Hs as [|fs fs2 fs3 [d ->] _ IH]; [done|]. apply IH. by apply (rh_store _ _ Hrh).
  - by rewrite Hc, Hds.
  - intros q Hq. destruct (stores_frame _ _ _ _ Hq Hs) as [-> _].
    pose proof (law_creat_apart (ci_dst ci) q 0x1a4 (before_creat (ci_dst ci) cfs) Hq) as C. rewrite Hw in C. cbn in C.
    by rewrite C, before_creat_contents.
Qed.

Lemma pull_all_session (ps : list (list Z)) (GoodH : FS -> Prop) sfs l : receptive_host ps GoodH -> forall cfs,
  Forall (can_fetch sfs) (to_send l) -> Forall (fun ci => ci_dst ci ∈ ps) (to_send l) -> separate (to_send l) -> GoodH cfs ->
  exists cout sout cfs', does (pull_all l) sout cfs true cout cfs' /\ handles cout sfs sout sfs /\
    Forall (fetched sfs cfs') (to_send l) /\
    forall q, Forall (fun ci => apart (ci_dst ci) q) (to_send l) -> fs_contents q cfs' = fs_contents q cfs.
Proof using laws.
  intros Hrh. induction l as [|ci l IH]; intros cfs Hs HP Hsep HG.
  { exists [], [], cfs. split_and!; [apply does_ret|apply handles_nil|constructor|done]. }
  unfold to_send in *. cbn [List.filter pull_all] in *. destruct (ci_flag ci); cbn [negb] in *; [by apply IH|].
  apply Forall_cons_iff in Hs as [Hc Hs], HP as [HPc HP]. inversion Hsep as [|? ? Ha Hsep']; subst.
  destruct (recv_session ps GoodH cfs sfs ci Hrh Hc HPc HG) as (f & co & so & cfs1 & Hf & D1 & H1 & G1 & C1 & F1).
  destruct (IH cfs1 Hs HP Hsep' G1) as (co2 & so2 & cfs2 & D2 & H2 & V2 & U2).
  exists (co ++ co2), (so ++ so2), cfs2. split_and!; [|by eapply handles_app| |].
  - eapply does_bind; [exact D1|]. exact D2.
  - constructor; [|done]. exists f. rewrite U2; [done|]. eapply Forall_impl; [|exact Ha]. by intros b [_ ?].
  - intros q [Hq Hqs]%Forall_cons_iff. rewrite U2 by done. by apply F1.
Qed.

(** ** Directory trees *)

(** The names of a directory, with what they name. *)
#[warnings="-register-all"]
Inductive stree := SFile | SDir (ents : list (list Z * stree)).

(** The files below a directory, by their paths from there. *)
Fixpoint files (t : stree) : list (list Z) :=
  match t with
  | SFile => []
  | SDir ents =>
      concat (map (fun e =>
        if is_dots (fst e) then []
        else match snd e with SFile => [fst e] | SDir _ => map (fun f => fst e ++ [47] ++ f) (files (snd e)) end) ents)
  end.

Definition plain (ents : list (list Z * stree)) : list (list Z) :=
  omap (fun e => if is_dots (fst e) then None else match snd e with SFile => Some (fst e) | SDir _ => None end) ents.
Definition subdirs (ents : list (list Z * stree)) : list (list Z * list (list Z * stree)) :=
  omap (fun e => if is_dots (fst e) then None else match snd e with SFile => None | SDir es => Some (fst e, es) end) ents.
Definition below (d : list Z * list (list Z * stree)) : list (list Z) := map (fun f => fst d ++ [47] ++ f) (files (SDir (snd d))).

Lemma files_split ents : files (SDir ents) ≡ₚ plain ents ++ concat (map below (subdirs ents)).
Proof.
  cbn [files]. induction ents as [|[n t] ents IH]; [done|]. cbn [map concat]. rewrite IH. unfold plain, subdirs. cbn [omap list_omap fst snd].
  destruct (is_dots n); [done|]. destruct t as [|es]; [done|]. cbn [map concat]. unfold below at 2. cbn [fst snd].
  rewrite !app_assoc. apply Permutation_app; [|done]. apply Permutation_app_comm.
Qed.

(** What the host sees of its directory. *)
Record entry_seen (cfs : FS) (lpath : list Z) (e : list Z * stree) : Prop := EntrySeen {
  es_len : (length lpath + length (fst e) + 1 <= PATH_MAX)%nat;
  es_stat : exists st, fs_stat (lpath ++ fst e) cfs = Some st /\ S_ISDIR (st_mode st) = (match snd e with SFile => false | SDir _ => true end);
  es_file : snd e = SFile -> exists st, fs_lstat (lpath ++ fst e) cfs = Some st /\ S_ISREG (st_mode st) = true;
}.

Fixpoint seen (cfs : FS) (lpath : list Z) (t : stree) : Prop :=
  match t with
  | SFile => True
  | SDir ents =>
      fs_readdir lpath cfs = Some (map fst ents) /\
      fold_right (fun e Q => (is_dots (fst e) = true \/ entry_seen cfs lpath e /\ seen cfs (lpath ++ fst e ++ [47]) (snd e)) /\ Q) True ents
  end.

(** The entry of a file in the list. *)
Definition file_info (cfs : FS) (lpath rpath f : list Z) : copyinfo :=
  match fs_lstat (lpath ++ f) cfs with
  | Some st => mkCi (lpath ++ f) (rpath ++ f) (u32 (st_mtime st)) (u32 (st_mode st)) (u32 (st_size st)) false
  | None => mkCi (lpath ++ f) (rpath ++ f) 0 0 0 false
  end.

Lemma file_info_below cfs lpath rpath n f :
  file_info cfs (lpath ++ n ++ [47]) (rpath ++ n ++ [47]) f = file_info cfs lpath rpath (n ++ [47] ++ f).
Proof. unfold file_info. by rewrite <- !app_assoc. Qed.

Definition dir_info (lpath rpath n : list Z) : copyinfo := mkCi (lpath ++ n ++ [47]) (rpath ++ n ++ [47]) 0 0 0 false.

Lemma mkcopyinfo_dir spath dpath n : mkcopyinfo spath dpath n true = dir_info spath dpath n.
Proof.
  unfold mkcopyinfo, dir_info, snprintf. by rewrite !take_ge by (rewrite !length_app; cbn; lia).
Qed.

Lemma mkcopyinfo_file spath dpath n : mkcopyinfo spath dpath n false = mkCi (spath ++ n) (dpath ++ n) 0 0 0 false.
Proof. unfold mkcopyinfo, snprintf. by rewrite !take_ge by (rewrite !length_app; lia). Qed.

Lemma scan_dir_list cfs lpath rpath ents : forall st fl dl,
  fold_right (fun e Q => (is_dots (fst e) = true \/ entry_seen cfs lpath e /\ seen cfs (lpath ++ fst e ++ [47]) (snd e)) /\ Q) True ents ->
  exists fl' ds, does (scan_dir lpath rpath (map fst ents) st fl dl) [] cfs (fl', map (fun d => dir_info lpath rpath (fst d)) ds ++ dl, true) [] cfs /\
    fl' ≡ₚ fl ++ map (file_info cfs lpath rpath) (plain ents) /\ ds ≡ₚ subdirs ents.
Proof using Type.
  induction ents as [|[n t] ents IH]; intros st fl dl Hs.
  { exists fl, []. split_and!; [apply does_ret|by rewrite app_nil_r|done]. }
  cbn [fold_right fst snd] in Hs. destruct Hs as [He Hs]. cbn [map fst scan_dir]. unfold plain, subdirs. cbn [omap list_omap fst snd].
  destruct (is_dots n) eqn:Ed; [by apply IH|]. destruct He as [|[[Hl (s & Hst & Hd) Hf] _]]; [done|]. cbn [fst snd] in *.
  rewrite (proj2 (Nat.ltb_ge _ _)) by done. 
  assert (forall fl dl, exists fl' ds, does (scan_dir lpath rpath (map fst ents) (Some s) fl dl) [] cfs (fl', map (fun d => dir_info lpath rpath (fst d)) ds ++ dl, true) [] cfs /\
    fl' ≡ₚ fl ++ map (file_info cfs lpath rpath) (plain ents) /\ ds ≡ₚ subdirs ents) as K by (intros; by apply IH).
  destruct t as [|es].
  - destruct (Hf eq_refl) as (s' & Hls & Hreg). 
    destruct (IH (Some s') (set_info (u32 (st_mtime s')) (u32 (st_mode s')) (u32 (st_size s')) (mkcopyinfo lpath rpath n false) :: fl) dl Hs)
      as (fl' & ds & D & P1 & P2).
    exists fl', ds. split_and!; [|rewrite P1|done].
    + eapply does_bind_n; [apply does_get_fs|]. rewrite Hst. eapply does_bind_n; [apply does_ret|]. rewrite Hd.
      rewrite mkcopyinfo_file in *. cbn [ci_src]. rewrite Hls, Hreg. exact D.
    + cbn [map]. rewrite mkcopyinfo_file. unfold file_info at 2. rewrite Hls. cbn [set_info ci_src ci_dst ci_flag app]. by rewrite <- Permutation_middle.
  - destruct (K fl (dir_info lpath rpath n :: dl)) as (fl' & ds & D & P1 & P2). exists fl', (ds ++ [(n, es)]). split_and!; [|done|].
    + eapply does_bind_n; [apply does_get_fs|]. rewrite Hst. eapply does_bind_n; [apply does_ret|]. rewrite Hd, mkcopyinfo_dir.
      rewrite map_app, <- app_assoc. exact D.
    + rewrite P2. by rewrite <- Permutation_cons_append.
Qed.

(** The directories of a list, one after the other. *)
Lemma seen_subdirs (seen_at : list Z -> stree -> Prop) (R : list Z * stree -> Prop) lpath ents :
  fold_right (fun e Q => (is_dots (fst e) = true \/ R e /\ seen_at (lpath ++ fst e ++ [47]) (snd e)) /\ Q) True ents ->
  Forall (fun d => R (fst d, SDir (snd d)) /\ seen_at (lpath ++ fst d ++ [47]) (SDir (snd d))) (subdirs ents).
Proof.
  induction ents as [|[n t] ents IH]; intros Hs; [constructor|]. cbn [fold_right fst snd] in Hs. destruct Hs as [He Hs].
  unfold subdirs. cbn [omap list_omap fst snd]. destruct (is_dots n); [by apply IH|]. destruct He as [|He]; [done|].
  destruct t as [|es]; [by apply IH|]. constructor; [done|by apply IH].
Qed.

Lemma below_infos cfs lpath rpath d :
  map (file_info cfs (lpath ++ fst d ++ [47]) (rpath ++ fst d ++ [47])) (files (SDir (snd d))) = map (file_info cfs lpath rpath) (below d).
Proof. unfold below. rewrite map_map. apply map_ext. intros f. apply file_info_below. Qed.

Lemma infos_of_dirs {B} (f : list Z -> B) ents ds l0 :
  ds ≡ₚ subdirs ents ->
  (l0 ++ map f (plain ents)) ++ concat (map (fun d => map f (below d)) ds) ≡ₚ l0 ++ map f (files (SDir ents)).
Proof.
  intros Hds. rewrite files_split, map_app, concat_map, map_map, <- app_assoc. do 2 apply Permutation_app_head.
  rewrite <- !flat_map_concat_map. by apply Permutation_flat_map.
Qed.

Lemma local_tree_list cfs fuel : forall ents lpath rpath acc,
  (length lpath <= PATH_MAX < fuel + length lpath)%nat -> seen cfs lpath (SDir ents) ->
  exists L, does (local_build_list fuel acc lpath rpath) [] cfs (L, true) [] cfs /\
    L ≡ₚ acc ++ map (file_info cfs lpath rpath) (files (SDir ents)).
Proof using Type.
  induction fuel as [|fuel IH]; intros ents lpath rpath acc Hd [Hr Hs]; [lia|].
  destruct (scan_dir_list cfs lpath rpath ents None acc [] Hs) as (fl & ds & D & Pf & Pd). rewrite app_nil_r in D.
  apply (seen_subdirs (seen cfs)) in Hs.
  assert (Forall (fun d => seen cfs (lpath ++ fst d ++ [47]) (SDir (snd d)) /\
    let n := length (lpath ++ fst d ++ [47]) in (n <= PATH_MAX < fuel + n)%nat) ds) as Hds.
  { rewrite Pd. eapply Forall_impl; [|exact Hs]. intros [n es] [[Hl _ _] He]. split; [done|].
    cbn [fst snd] in *. rewrite !length_app. cbn [length]. lia. }
  enough (exists L, does ((fix go (ds : list copyinfo) (acc : list copyinfo) : M (conn FS) (list copyinfo) :=
                          match ds with
                          | [] => ret acc
                          | d :: ds' =>
                              x <- local_build_list fuel acc (ci_src d) (ci_dst d) ;;
                              go ds' x.1
                          end) (map (fun d => dir_info lpath rpath (fst d)) ds) fl) [] cfs L [] cfs /\
     L ≡ₚ fl ++ concat (map (fun d => map (file_info cfs lpath rpath) (below d)) ds)) as (L & DL & PL).
  { exists L. split; [|by rewrite PL, Pf, (infos_of_dirs _ _ _ _ Pd)]. cbn [local_build_list].
    eapply does_bind_n; [apply does_get_fs|]. rewrite Hr. eapply does_bind_n; [exact D|]. cbn [negb].
    eapply does_bind_n; [exact DL|]. apply does_ret. }
  clear -IH Hds. revert fl. induction Hds as [|d ds [Hs Hd] _ IHd]; intros fl.
  { exists fl. split; [apply does_ret|]. by rewrite app_nil_r. }
  destruct (IH _ _ (rpath ++ fst d ++ [47]) fl Hd Hs) as (L1 & D1 & P1). destruct (IHd L1) as (L & D & PL).
  exists L. split; [eapply does_bind_n; [exact D1|exact D]|]. rewrite PL, P1. cbn [map concat]. by rewrite below_infos, app_assoc.
Qed.

(** What the service sees of a directory of the device. *)
Record entry_listed (sfs : FS) (rpath : list Z) (e : list Z * stree) : Prop := EntryListed {
  el_len : (length (fst e) <= 256)%nat;
  el_fits : (length rpath + length (fst e) + 2 <= LIST_TMP)%nat;
  el_name : Forall (fun b => b <> 0) (fst e);
  el_stat : exists st, fs_lstat (rpath ++ fst e) sfs = Some st /\
    match snd e with SFile => S_ISREG (st_mode st) = true | SDir _ => S_ISDIR (st_mode st) = true end;
}.

Fixpoint listed (sfs : FS) (rpath : list Z) (t : stree) : Prop :=
  match t with
  | SFile => True
  | SDir ents =>
      path_ok rpath /\ fs_readdir rpath sfs = Some (map fst ents) /\
      Forall (fun e => is_dots (fst e) = true -> forall st, fs_lstat (rpath ++ fst e) sfs = Some st -> S_ISDIR (st_mode st) = true) ents /\
      fold_right (fun e Q => (is_dots (fst e) = true \/ entry_listed sfs rpath e /\ listed sfs (rpath ++ fst e ++ [47]) (snd e)) /\ Q) True ents
  end.

Lemma u32_fmt m : Z.land (u32 m) S_IFMT = Z.land m S_IFMT.
Proof.
  unfold u32. change two32 with (2 ^ 32). rewrite <- (Z.land_ones m 32) by lia.
  by rewrite <- Z.land_assoc.
Qed.

Lemma S_ISDIR_u32 m : S_ISDIR (u32 m) = S_ISDIR m.
Proof. unfold S_ISDIR. by rewrite u32_fmt. Qed.
Lemma S_ISREG_u32 m : S_ISREG (u32 m) = S_ISREG m.
Proof. unfold S_ISREG. by rewrite u32_fmt. Qed.
Lemma S_ISREG_not_dir m : S_ISREG m = true -> S_ISDIR m = false.
Proof. unfold S_ISREG, S_ISDIR. intros ->%Z.eqb_eq. done. Qed.

Lemma is_dots_short n : is_dots n = true -> (length n <= 2)%nat /\ Forall (fun b => b <> 0) n.
Proof.
  intros H. assert (n = [46] \/ n = [46; 46]) as [-> | ->]; [|by repeat constructor..].
  unfold is_dots in H. repeat case_match; simplify_eq; auto.
Qed.

(** The names as the service and the client go through them. *)
Lemma listed_names sfs rpath ents :
  listed sfs rpath (SDir ents) ->
  Forall (Forall (fun b => b <> 0)) (map fst ents) /\ Forall (fun n => length rpath + length n + 2 <= LIST_TMP)%nat (map fst ents).
Proof.
  intros ([Hp _] & _ & _ & Hs). induction ents as [|[n t] ents IH]; [done|]. cbn [fold_right fst snd map] in *.
  destruct Hs as [He Hs]. destruct (IH Hs) as [I1 I2]. destruct He as [Hd|[[L F N _] _]]; [|by split; constructor].
  apply is_dots_short in Hd as [Hl Hn]. split; constructor; try done. unfold LIST_TMP. lia.
Qed.

(** The callback files every entry in one of the two lists. *)
Lemma build_list_cb_list sfs p lpath ents : forall fl dl, let rpath := p ++ [47] in
  Forall (fun e => is_dots (fst e) = true -> forall st, fs_lstat (rpath ++ fst e) sfs = Some st -> S_ISDIR (st_mode st) = true) ents ->
  fold_right (fun e Q => (is_dots (fst e) = true \/ entry_listed sfs rpath e /\ listed sfs (rpath ++ fst e ++ [47]) (snd e)) /\ Q) True ents ->
  exists fl' ds, fold_left (fun ls d => ls_build_list_cb rpath lpath d ls) (listing rpath sfs (map fst ents)) (fl, dl) =
      (fl', map (fun d => dir_info rpath lpath (fst d)) ds ++ dl) /\
    fl' ≡ₚ fl ++ map (file_info sfs rpath lpath) (plain ents) /\ ds ≡ₚ subdirs ents.
Proof using laws.
  induction ents as [|[n t] ents IH]; intros fl dl rpath Hdots Hs.
  { exists fl, []. split_and!; [done|by rewrite app_nil_r|done]. }
  apply Forall_cons_iff in Hdots as [Hdot Hdots]. cbn [fold_right fst snd] in *. destruct Hs as [He Hs].
  assert (fs_lstat (rpath ++ [47] ++ n) sfs = fs_lstat (rpath ++ n) sfs) as Hl.
  { unfold rpath. rewrite <- !app_assoc. apply law_slashes. }
  unfold plain, subdirs, listing. cbn [map fst snd omap list_omap]. rewrite Hl. destruct (is_dots n) eqn:Ed.
  - apply is_dots_short in Ed as Hn. rewrite (proj2 (Nat.ltb_ge _ _)) by lia.
    destruct (fs_lstat (rpath ++ n) sfs) as [st|]; [|by apply IH]. cbn [fold_left].
    unfold ls_build_list_cb at 2. cbn [de_mode de_name]. rewrite S_ISDIR_u32, Hdot, Ed by done. by apply IH.
  - destruct He as [|[[L _ _ (st & Hst & Ht)] _]]; [done|]. cbn [fst snd] in *. rewrite (proj2 (Nat.ltb_ge _ _)) by lia. rewrite Hst.
    cbn [fold_left]. unfold ls_build_list_cb at 2. cbn [de_mode de_name de_time de_size]. rewrite S_ISDIR_u32, S_ISREG_u32.
    destruct t as [|es].
    + rewrite (S_ISREG_not_dir _ Ht), Ht, mkcopyinfo_file. cbn [orb set_info ci_src ci_dst ci_flag].
      destruct (IH (file_info sfs rpath lpath n :: fl) dl Hdots Hs) as (fl' & ds & E & P1 & P2).
      exists fl', ds. unfold file_info at 1 in E. rewrite Hst in E. split_and!; [exact E| |done].
      rewrite P1. apply Permutation_middle.
    + rewrite Ht, Ed, mkcopyinfo_dir. destruct (IH fl (dir_info rpath lpath n :: dl) Hdots Hs) as (fl' & ds & E & P1 & P2).
      exists fl', (ds ++ [(n, es)]). split_and!; [|done|].
      * rewrite map_app, <- app_assoc. exact E.
      * rewrite P2. by rewrite <- Permutation_cons_append.
Qed.

Lemma remote_tree_list (cfs sfs : FS) fuel : forall ents p lpath acc, let rpath := p ++ [47] in
  (1024 < fuel + length rpath)%nat -> listed sfs rpath (SDir ents) ->
  exists cout sout L, does (remote_build_list fuel acc rpath lpath) sout cfs (Some L) cout cfs /\ handles cout sfs sout sfs /\
    L ≡ₚ acc ++ map (file_info sfs rpath lpath) (files (SDir ents)).
Proof using laws.
  induction fuel as [|fuel IH]; intros ents p lpath acc rpath Hf Hs.
  { destruct Hs as ([Hp _] & _). lia. }
  destruct (listed_names _ _ _ Hs) as [Hnz Hfit]. destruct Hs as (Hp & Hr & Hdots & Hs).
  destruct (does_listing cfs sfs rpath _ (or_introl Hr) Hp Hnz Hfit) as (reply & DS & DC).
  destruct (build_list_cb_list sfs p lpath ents acc [] Hdots Hs) as (fl & ds & E & Pf & Pd). rewrite app_nil_r in E.
  apply (seen_subdirs (listed sfs)) in Hs.
  assert (Forall (fun d => listed sfs ((rpath ++ fst d) ++ [47]) (SDir (snd d))) ds) as Hds.
  { rewrite Pd. eapply Forall_impl; [|exact Hs]. intros [n es] [_ He]. by rewrite <- app_assoc. }
  enough (exists cout sout L, does ((fix go (dl : list copyinfo) (acc : list copyinfo) : M (conn FS) (option (list copyinfo)) :=
           match dl with
           | [] => ret (Some acc)
           | d :: dl' =>
               x <- remote_build_list fuel acc (ci_src d) (ci_dst d) ;;
               match x with
               | None => ret None
               | Some acc' => go dl' acc'
               end
           end) (map (fun d => dir_info rpath lpath (fst d)) ds) fl) sout cfs (Some L) cout cfs /\ handles cout sfs sout sfs /\
     L ≡ₚ fl ++ concat (map (fun d => map (file_info sfs rpath lpath) (below d)) ds)) as (co & so & L & DL & HL & PL).
  { exists (request ID_LIST rpath ++ co), (reply ++ so), L. split_and!.
    - cbn [remote_build_list]. eapply does_bind; [exact DC|]. cbn [Z.eqb negb]. unfold rpath in *. rewrite E. exact DL.
    - eapply handles_app; [|exact HL]. rewrite <- (app_nil_r (request _ _)). by eapply handles_command.
    - rewrite PL, Pf. by apply infos_of_dirs. }
  clear -IH Hds Hf. revert fl. induction Hds as [|d ds Hs _ IHd]; intros fl.
  { exists [], [], fl. split_and!; [apply does_ret|apply handles_nil|]. by rewrite app_nil_r. }
  destruct (IH (snd d) (rpath ++ fst d) (lpath ++ fst d ++ [47]) fl) as (co1 & so1 & L1 & D1 & H1 & P1); [|done|].
  { rewrite !length_app. cbn [length]. lia. }
  destruct (IHd L1) as (co2 & so2 & L & D & H2 & PL). exists (co1 ++ co2), (so1 ++ so2), L. split_and!; [|by eapply handles_app|].
  - rewrite <- (app_assoc rpath) in D1. eapply does_bind; [exact D1|exact D].
  - rewrite PL, P1, <- !app_assoc. cbn [map concat]. by rewrite below_infos.
Qed.

Lemma does_BEGIN (fs : FS) : does BEGIN [] fs tt [] fs.
Proof. intros c rest Hg Hi Hf. eexists. split; [done|]. rewrite app_nil_r. done. Qed.

End Link.

(** ** Which files a copy moves *)

Section Moves.
Context {FS : Type} {fsys : FileSystem FS} {laws : FsLaws FS}.

(** The modification time of a file; 0 when there is none. *)
Definition time_of (p : list Z) (fs : FS) : Z :=
  match fs_lstat p fs with Some st => u32 (st_mtime st) | None => 0 end.

Lemma file_info_fields (fs : FS) A B f :
  ci_src (file_info fs A B f) = A ++ f /\ ci_dst (file_info fs A B f) = B ++ f /\
  ci_time (file_info fs A B f) = time_of (A ++ f) fs /\ ci_flag (file_info fs A B f) = false.
Proof. unfold file_info, time_of. by destruct (fs_lstat (A ++ f) fs). Qed.

(** The two copies of a link skip a file for the same reason: it is not newer. *)
Lemma marked_unchanged2 (sfs : FS) ci : marked unchanged2 sfs ci = mark_not_newer sfs ci.
Proof.
  unfold marked, stat_view, mark_not_newer, unchanged2. set (t := match fs_lstat (ci_dst ci) sfs with Some st => u32 (st_mtime st) | None => 0 end).
  assert (forall m z, unchanged ci t m z || (ci_time ci <=? t) = (ci_time ci <=? t)) as E.
  { intros m z. destruct (ci_time ci <=? t) eqn:Hle; [by rewrite orb_true_r|]. rewrite orb_false_r. unfold unchanged. rewrite Hle, andb_false_r, orb_false_r.
    apply Z.leb_gt in Hle. rewrite (proj2 (Z.eqb_neq t (ci_time ci))) by lia. by rewrite !andb_false_r. }
  unfold t in *. destruct (fs_lstat (ci_dst ci) sfs); by rewrite E.
Qed.

Lemma mark_not_newer_dst (fs : FS) ci : ci_dst (mark_not_newer fs ci) = ci_dst ci.
Proof. unfold mark_not_newer. by destruct (_ <=? _). Qed.

Lemma separate_intro l :
  NoDup (ci_dst <$> l) -> (forall a b, a ∈ l -> b ∈ l -> ci_dst a <> ci_dst b -> apart (ci_dst a) (ci_dst b)) -> separate l.
Proof.
  induction l as [|a l IH]; intros Hn Ha; [constructor|]. cbn [fmap list_fmap] in Hn. apply list.NoDup_cons in Hn as [Hn Hl].
  constructor; [|apply IH; [done|]; intros x y Hx Hy; apply Ha; set_solver].
  apply list.Forall_forall. intros b Hb. assert (ci_dst a <> ci_dst b) as Hne.
  { intros E. apply Hn. rewrite E. by apply list_elem_of_fmap_2. }
  split; apply Ha; try done; set_solver.
Qed.

Lemma to_send_dst l : NoDup (ci_dst <$> l) -> NoDup (ci_dst <$> to_send l).
Proof.
  unfold to_send. induction l as [|a l IH]; [done|]. cbn [fmap list_fmap List.filter]. intros [Hn Hl]%list.NoDup_cons.
  destruct (negb (ci_flag a)); [|by apply IH]. cbn [fmap list_fmap]. apply list.NoDup_cons. split; [|by apply IH].
  intros (b & E & Hb)%list_elem_of_fmap. apply Hn. rewrite E. apply list_elem_of_fmap_2. apply list_elem_of_In in Hb.
  apply filter_In in Hb as [Hb _]. by apply list_elem_of_In.
Qed.

Context (fs fs2 : FS) (A B : list Z) (names : list (list Z)) (l : list copyinfo).
Context (Hl : l ≡ₚ map (file_info fs A B) names).

Lemma moves_iff ci :
  ci ∈ to_send (mark_not_newer fs2 <$> l) <->
  exists f, f ∈ names /\ ci = file_info fs A B f /\ time_of (B ++ f) fs2 < time_of (A ++ f) fs.
Proof using Hl.
  unfold to_send. rewrite list_elem_of_In, filter_In, <- list_elem_of_In, list_elem_of_fmap. split.
  - intros [(ci0 & -> & Hin) Hf]. rewrite Hl in Hin. apply list_elem_of_fmap in Hin as (f & -> & Hin). exists f. split; [done|].
    destruct (file_info_fields fs A B f) as (_ & Ed & Et & _). unfold mark_not_newer in *. fold (time_of (ci_dst (file_info fs A B f)) fs2) in *.
    rewrite Ed, Et in *. destruct (time_of (A ++ f) fs <=? time_of (B ++ f) fs2) eqn:E; [done|]. apply Z.leb_gt in E. done.
  - intros (f & Hin & -> & Ht). destruct (file_info_fields fs A B f) as (_ & Ed & Et & Ef).
    assert (mark_not_newer fs2 (file_info fs A B f) = file_info fs A B f) as E.
    { unfold mark_not_newer. fold (time_of (ci_dst (file_info fs A B f)) fs2). rewrite Ed, Et. by rewrite (proj2 (Z.leb_gt _ _)) by done. }
    split; [|by rewrite Ef]. exists (file_info fs A B f). split; [done|]. rewrite Hl. by apply list_elem_of_fmap_2.
Qed.

Lemma moves_separate :
  NoDup names -> (forall f g, f ∈ names -> g ∈ names -> f <> g -> apart (B ++ f) (B ++ g)) ->
  separate (to_send (mark_not_newer fs2 <$> l)).
Proof using Hl.
  intros Hn Ha. apply separate_intro.
  - apply to_send_dst. rewrite <- list_fmap_compose, (list_fmap_ext _ ci_dst) by (intros; apply mark_not_newer_dst).
    rewrite Hl. change (map (file_info fs A B) names) with (file_info fs A B <$> names). rewrite <- list_fmap_compose.
    apply NoDup_fmap_2_strong; [|done]. intros f g _ _ E. cbn in E.
    destruct (file_info_fields fs A B f) as (_ & E1 & _), (file_info_fields fs A B g) as (_ & E2 & _).
    rewrite E1, E2 in E. by apply app_inv_head in E.
  - intros a b (f & Hf & -> & _)%moves_iff (g & Hg & -> & _)%moves_iff.
    destruct (file_info_fields fs A B f) as (_ & E1 & _), (file_info_fields fs A B g) as (_ & E2 & _).
    rewrite E1, E2. intros Hne. apply Ha; [done..|congruence].
Qed.

End Moves.

(** ** A whole link *)

Lemma slashed_end path : exists p, slashed path = p ++ [47].
Proof.
  unfold slashed. destruct (rev path) as [|b r] eqn:E; [by exists path|]. destruct (b =? 47) eqn:Hb; [|by exists path].
  exists (rev r). apply Z.eqb_eq in Hb as ->. by rewrite <- (rev_involutive path), E.
Qed.

Lemma path_ok_prefix p q : path_ok (p ++ q) -> path_ok p.
Proof. intros [Hl Hn]. rewrite length_app in Hl. apply Forall_app in Hn as [Hn _]. split; [lia|done]. Qed.

Lemma fold_right_and {A} (Q : A -> Prop) l : fold_right (fun e R => Q e /\ R) True l <-> Forall Q l.
Proof. induction l as [|a l IH]; [done|]. cbn. by rewrite IH, Forall_cons_iff. Qed.

Lemma plain_elem f ents : f ∈ plain ents -> (f, SFile) ∈ ents /\ is_dots f = false.
Proof.
  unfold plain. intros ([n t] & Hin & E)%list_elem_of_omap. cbn [fst snd] in E.
  destruct (is_dots n) eqn:Ed; [done|]. destruct t; [|done]. by simplify_eq.
Qed.

(** What is listed as a file is one. *)
Lemma listed_regular {FS} {fsys : FileSystem FS} (fs : FS) k : forall f er R,
  (length f <= k)%nat -> listed fs R (SDir er) -> f ∈ files (SDir er) -> regular (R ++ f) fs.
Proof.
  induction k as [|k IH]; intros f er R Hk (_ & _ & _ & Hs) Hf; rewrite files_split in Hf; apply elem_of_app in Hf as [Hf|Hf].
  1, 3: apply plain_elem in Hf as [Hin Hd]; rewrite fold_right_and in Hs; apply (proj1 (list.Forall_forall _ _) Hs) in Hin as [Hin|[[_ _ _ H] _]];
    [cbn in Hin; congruence|exact H].
  all: apply list_elem_of_In, in_concat in Hf as (l & Hl & Hf); apply in_map_iff in Hl as ([n es] & <- & Hd);
    unfold below in Hf; apply in_map_iff in Hf as (g & <- & Hg); cbn [fst snd] in *; rewrite !length_app in Hk; cbn [length] in Hk; try lia.
  apply (seen_subdirs (listed fs)) in Hs. apply (proj1 (List.Forall_forall _ _) Hs) in Hd as [_ Hd]. cbn [fst snd] in *.
  rewrite app_assoc, app_assoc, <- (app_assoc R). apply (IH g es); [lia|done|]. by apply list_elem_of_In.
Qed.

Section Linked.
Context {FS : Type} {fsys : FileSystem FS} {laws : FsLaws FS}.
Context (strerror : option errno -> list Z).

(** The directories [L] of the host and [R] of the device can be linked: their
    files, [U] in all, do not get in each other's way, and both sides can read
    and write them.  [el] is the directory of the host; that of the device can be
    listed in all the states [Good] the transfers lead to. *)
Record linkable (cfs sfs : FS) (L R : list Z) (U : list (list Z)) (el : list (list Z * stree)) (Good GoodH : FS -> Prop) : Prop := Linkable {
  lk_apart f g : f ∈ U -> g ∈ U -> f <> g -> apart (L ++ f) (L ++ g) /\ apart (R ++ f) (R ++ g);
  lk_len : (length L <= PATH_MAX)%nat;
  lk_seen : seen cfs L (SDir el);
  lk_nodup : NoDup (files (SDir el));
  lk_send f : f ∈ files (SDir el) -> f ∈ U /\ can_send cfs (file_info cfs L R f);
  lk_free f : f ∈ U -> f ∈ files (SDir el) \/ fs_lstat (L ++ f) cfs = None;
  lk_good : Good sfs;
  lk_device : receptive (map (file_info cfs L R) (files (SDir el))) Good;
  lk_list fs : Good fs -> exists er, listed fs R (SDir er) /\ NoDup (files (SDir er)) /\
    (forall f, f ∈ files (SDir er) -> f ∈ U /\ (time_of (L ++ f) cfs < time_of (R ++ f) fs -> can_fetch fs (file_info fs R L f))) /\
    (forall f, f ∈ U -> f ∈ files (SDir er) \/ fs_lstat (R ++ f) fs = None);
  lk_goodh : GoodH cfs;
  lk_host : receptive_host (map (app L) U) GoodH;
}.

Context (cfs sfs : FS) (lpath rpath : list Z) (U : list (list Z)) (el : list (list Z * stree)) (Good GoodH : FS -> Prop).
Context (Hne : lpath <> [] /\ rpath <> []).
Let L := slashed lpath.
Let R := slashed rpath.
Context (Hlk : linkable cfs sfs L R U el Good GoodH).

(** The first half: what is newer here goes there. *)
Lemma link_push :
  exists cout sout sfs', does (copy_local_dir_remote2 lpath rpath true) sout cfs 0 cout cfs /\
    handles strerror cout sfs sout sfs' /\ Good sfs' /\
    (forall f, f ∈ files (SDir el) -> time_of (R ++ f) sfs < time_of (L ++ f) cfs -> delivered cfs sfs' (file_info cfs L R f)) /\
    (forall q, (forall f, f ∈ files (SDir el) -> time_of (R ++ f) sfs < time_of (L ++ f) cfs -> apart (R ++ f) q) -> same_file q sfs sfs').
Proof using Hlk Hne laws.
  destruct Hlk as [Hap Hlen Hseen Hnd Hsend _ HG Hrc _ _ _]. destruct Hne as [Hl Hr].
  destruct (local_tree_list cfs (S PATH_MAX) el L R [] ltac:(lia) Hseen) as (l & DL & PL). cbn [app] in PL.
  assert (forall ci, ci ∈ l -> exists f, f ∈ files (SDir el) /\ ci = file_info cfs L R f) as Hin.
  { intros ci Hci. rewrite PL in Hci. apply list_elem_of_fmap in Hci as (f & -> & Hf). by exists f. }
  destruct (readtimes_session strerror unchanged2 cfs sfs l) as (co1 & so1 & D1 & D2 & H1).
  { apply list.Forall_forall. intros ci (f & Hf & ->)%Hin. destruct (Hsend f Hf) as [_ [_ _ _ _ Hp]]. by apply path_ok_prefix in Hp. }
  rewrite (list_fmap_ext _ (mark_not_newer sfs)) in D2 by (intros; apply marked_unchanged2).
  pose proof (moves_iff cfs sfs L R _ l PL) as Hmv.
  destruct (push_all_session strerror _ Good Hrc cfs (mark_not_newer sfs <$> l) sfs) as (co2 & so2 & sfs' & D3 & H3 & HG' & Hdel & Hunt).
  - apply list.Forall_forall. intros ci (f & Hf & -> & _)%Hmv. by apply Hsend.
  - apply list.Forall_forall. intros ci (f & Hf & -> & _)%Hmv. by apply list_elem_of_fmap_2.
  - apply (moves_separate cfs sfs L R _ l PL Hnd). intros f g Hf Hg. apply Hap; by apply Hsend.
  - done.
  - exists (co1 ++ co2), (so1 ++ so2), sfs'. split_and!; [|by eapply handles_app|done| |].
    + unfold copy_local_dir_remote2, copy_local_dir. rewrite !bool_decide_eq_false_2 by done. cbn [orb].
      eapply does_bind_n; [exact DL|]. cbn [negb]. rewrite <- (app_nil_r co1). eapply does_bind; [eapply does_bind_w; [exact D1|exact D2]|].
      cbn [negb]. by eapply does_then_ret.
    + intros f Hf Ht. apply (proj1 (list.Forall_forall _ _) Hdel). apply Hmv. by exists f.
    + intros q Hq. apply Hunt. apply list.Forall_forall. intros ci (f & Hf & -> & Ht)%Hmv.
      destruct (file_info_fields cfs L R f) as (_ & -> & _). by apply Hq.
Qed.

(** The second half: what is newer there comes here. *)
Lemma link_pull sfs' : Good sfs' ->
  exists cout sout cfs' er, does (copy_remote_dir_local2 rpath lpath true) sout cfs 0 cout cfs' /\
    handles strerror cout sfs' sout sfs' /\ (forall f, f ∈ files (SDir er) -> f ∈ U) /\
    (forall f, f ∈ U -> f ∈ files (SDir er) \/ fs_lstat (R ++ f) sfs' = None) /\
    (forall f, f ∈ files (SDir er) -> time_of (L ++ f) cfs < time_of (R ++ f) sfs' -> fetched sfs' cfs' (file_info sfs' R L f)) /\
    (forall q, (forall f, f ∈ files (SDir er) -> time_of (L ++ f) cfs < time_of (R ++ f) sfs' -> apart (L ++ f) q) ->
      fs_contents q cfs' = fs_contents q cfs).
Proof using Hlk Hne laws.
  destruct Hlk as [Hap _ _ _ _ _ _ _ Hlist HG Hrh]. destruct Hne as [Hl Hr]. intros HG'.
  destruct (Hlist sfs' HG') as (er & Hls & Hnd & Hf & Hfree). destruct (slashed_end rpath) as [p Hp]. fold R in Hp.
  destruct (remote_tree_list strerror cfs sfs' 1026 er p L []) as (co1 & so1 & l & DL & H1 & PL); [lia|by rewrite <- Hp|].
  rewrite <- Hp in DL, PL. cbn [app] in PL. pose proof (moves_iff sfs' cfs R L _ l PL) as Hmv.
  destruct (pull_all_session strerror _ _ sfs' (mark_not_newer cfs <$> l) Hrh cfs) as (co2 & so2 & cfs' & D2 & H2 & Hdel & Hunt).
  - apply list.Forall_forall. intros ci (f & Hin & -> & Ht)%Hmv. by apply (Hf f).
  - apply list.Forall_forall. intros ci (f & Hin & -> & _)%Hmv. destruct (file_info_fields sfs' R L f) as (_ & -> & _).
    apply list_elem_of_fmap_2. by apply (Hf f).
  - apply (moves_separate sfs' cfs R L _ l PL Hnd). intros f g Hin Hig. apply Hap; [by apply (Hf f)|by apply (Hf g)].
  - done.
  - exists (co1 ++ co2), (so1 ++ so2), cfs', er. split_and!; [|by eapply handles_app|intros f Hin; by apply (Hf f)|done| |].
    + unfold copy_remote_dir_local2, copy_remote_dir. rewrite !bool_decide_eq_false_2 by done. cbn [orb].
      eapply does_bind; [exact DL|]. eapply does_bind_n; [apply does_get_fs|]. by eapply does_then_ret.
    + intros f Hin Ht. apply (proj1 (list.Forall_forall _ _) Hdel). apply Hmv. by exists f.
    + intros q Hq. apply Hunt. apply list.Forall_forall. intros ci (f & Hin & -> & Ht)%Hmv.
      destruct (file_info_fields sfs' R L f) as (_ & -> & _). by apply Hq.
Qed.

(** A file that was left alone, and could have been listed before and after, has
    its time. *)
Lemma time_of_same f sfs' : f ∈ U -> Good sfs' -> same_file (R ++ f) sfs sfs' -> time_of (R ++ f) sfs' = time_of (R ++ f) sfs.
Proof using Hlk.
  intros HU HG' [_ Hs]. destruct Hlk as [_ _ _ _ _ _ HG _ Hlist _ _]. unfold time_of.
  assert (forall fs, Good fs -> fs_lstat (R ++ f) fs = None \/ regular (R ++ f) fs) as Hr.
  { intros fs Hgd. destruct (Hlist fs Hgd) as (er & Hls & _ & _ & Hfr). destruct (Hfr f HU) as [Hin|Hno]; [right|by left].
    by eapply listed_regular. }
  destruct (Hr sfs HG) as [E|(st & E & Hreg)]; [|by rewrite E, (proj2 (Hs st Hreg) E)].
  destruct (Hr sfs' HG') as [E'|(st & E' & Hreg)]; [by rewrite E, E'|]. apply (Hs st Hreg) in E'. congruence.
Qed.

(** A file of either directory after a link. *)
Definition linked (cfs' sfs' : FS) (f : list Z) : Prop :=
  let lt := time_of (L ++ f) cfs in
  let rt := time_of (R ++ f) sfs in
  fs_contents (L ++ f) cfs' = (if lt <? rt then fs_contents (R ++ f) sfs else fs_contents (L ++ f) cfs) /\
  fs_contents (R ++ f) sfs' = (if rt <? lt then fs_contents (L ++ f) cfs else fs_contents (R ++ f) sfs) /\
  time_of (R ++ f) sfs' = Z.max lt rt.

Lemma time_of_range p (fs : FS) : 0 <= time_of p fs < two32.
Proof. unfold time_of. destruct (fs_lstat p fs); [apply u32_range|unfold two32; lia]. Qed.

(** The device's copy after the first half. *)
Lemma link_push_file sfs' f :
  Good sfs' ->
  (forall f, f ∈ files (SDir el) -> time_of (R ++ f) sfs < time_of (L ++ f) cfs -> delivered cfs sfs' (file_info cfs L R f)) ->
  (forall q, (forall f, f ∈ files (SDir el) -> time_of (R ++ f) sfs < time_of (L ++ f) cfs -> apart (R ++ f) q) -> same_file q sfs sfs') ->
  f ∈ U ->
  fs_contents (R ++ f) sfs' = (if time_of (R ++ f) sfs <? time_of (L ++ f) cfs then fs_contents (L ++ f) cfs else fs_contents (R ++ f) sfs) /\
  time_of (R ++ f) sfs' = Z.max (time_of (L ++ f) cfs) (time_of (R ++ f) sfs).
Proof using Hlk.
  intros HG' Hdel Hunt HU. destruct (time_of (R ++ f) sfs <? time_of (L ++ f) cfs) eqn:E.
  - apply Z.ltb_lt in E. assert (f ∈ files (SDir el)) as Hf.
    { destruct (lk_free _ _ _ _ _ _ _ _ Hlk f HU) as [|Hno]; [done|]. pose proof (time_of_range (R ++ f) sfs). unfold time_of at 2 in E. rewrite Hno in E. lia. }
    destruct (Hdel f Hf E) as [(r & Ho & Hc) (st & Hst & Ht & _)]. destruct (file_info_fields cfs L R f) as (Es & Ed & Et & _).
    rewrite Es, Ed, Et in *. split; [by rewrite Hc, (law_open_rd _ _ _ Ho)|]. unfold time_of at 1. rewrite Hst, Ht.
    rewrite u32_id by apply time_of_range. lia.
  - apply Z.ltb_ge in E. assert (same_file (R ++ f) sfs sfs') as Hs.
    { apply Hunt. intros g Hg Ht. apply (lk_apart _ _ _ _ _ _ _ _ Hlk); [by apply (lk_send _ _ _ _ _ _ _ _ Hlk)|done|]. intros ->. lia. }
    rewrite (time_of_same f sfs') by done. split; [apply Hs|lia].
Qed.

(** The host's copy after the second half. *)
Lemma link_pull_file cfs' sfs' er f :
  (forall f, f ∈ U -> f ∈ files (SDir er) \/ fs_lstat (R ++ f) sfs' = None) ->
  (forall f, f ∈ files (SDir er) -> f ∈ U) ->
  (forall f, f ∈ files (SDir er) -> time_of (L ++ f) cfs < time_of (R ++ f) sfs' -> fetched sfs' cfs' (file_info sfs' R L f)) ->
  (forall q, (forall f, f ∈ files (SDir er) -> time_of (L ++ f) cfs < time_of (R ++ f) sfs' -> apart (L ++ f) q) ->
      fs_contents q cfs' = fs_contents q cfs) ->
  f ∈ U ->
  fs_contents (L ++ f) cfs' = (if time_of (L ++ f) cfs <? time_of (R ++ f) sfs' then fs_contents (R ++ f) sfs' else fs_contents (L ++ f) cfs).
Proof using Hlk.
  intros Hfree HerU Hfet Hkeep HU. destruct (time_of (L ++ f) cfs <? time_of (R ++ f) sfs') eqn:E.
  - apply Z.ltb_lt in E. destruct (Hfree f HU) as [Hf|Hno].
    + destruct (Hfet f Hf E) as (r & Ho & Hc). destruct (file_info_fields sfs' R L f) as (Es & Ed & _). rewrite Es, Ed in *.
      by rewrite Hc, (law_open_rd _ _ _ Ho).
    + pose proof (time_of_range (L ++ f) cfs). unfold time_of at 2 in E. rewrite Hno in E. lia.
  - apply Z.ltb_ge in E. apply Hkeep. intros g Hg Ht. apply (lk_apart _ _ _ _ _ _ _ _ Hlk); [by apply HerU|done|]. intros ->. lia.
Qed.

(** C6: a link makes the two directories agree on the newer of every pair: run
    against the device's service over one connection, [do_link] returns 0, and
    then each file that was newer on the host (or only there) has its contents
    and time on the device, each that was newer on the device has its contents
    on the host, and a file of the same age is left alone on both sides; so are
    all files outside the two directories.  In particular nothing that was just
    sent is fetched back. *)
Theorem link_newest_wins :
  exists cout sout cfs' sfs', does (do_link true lpath rpath) sout cfs 0 cout cfs' /\
    finishes (file_sync_service strerror) cout sfs sout sfs' /\
    (forall f, f ∈ U -> linked cfs' sfs' f) /\
    (forall q, (forall f, f ∈ U -> apart (L ++ f) q) -> fs_contents q cfs' = fs_contents q cfs) /\
    (forall q, (forall f, f ∈ U -> apart (R ++ f) q) -> same_file q sfs sfs').
Proof using Hlk Hne laws.
  destruct link_push as (co1 & so1 & sfs' & D1 & H1 & HG' & Hdel & Hunt).
  destruct (link_pull sfs' HG') as (co2 & so2 & cfs' & er & D2 & H2 & HerU & Hfree & Hfet & Hkeep).
  exists ((co1 ++ co2) ++ msg_req ID_QUIT 0), (so1 ++ so2), cfs', sfs'. split_and!.
  - unfold do_link. cbn [negb]. rewrite <- app_assoc. eapply does_bind_n; [apply does_BEGIN|]. eapply does_bind; [exact D1|]. cbn [Z.eqb negb].
    eapply does_bind_n; [apply does_BEGIN|]. rewrite <- (app_nil_r so2). eapply does_bind; [exact D2|]. cbn [Z.eqb].
    by eapply does_then_ret; [apply does_sync_quit|].
  - apply handles_quit. by eapply handles_app.
  - intros f HU. destruct (link_push_file sfs' f HG' Hdel Hunt HU) as [Hc Ht]. split; [|done].
    rewrite (link_pull_file cfs' sfs' er f), Hc, Ht by done. do 3 case_match; try done; lia.
  - intros q Hq. apply Hkeep. intros f Hf _. by apply Hq, HerU.
  - intros q Hq. apply Hunt. intros f Hf _. by apply Hq, (lk_send _ _ _ _ _ _ _ _ Hlk).
Qed.

End Linked.
