(* ===== verification/SyncDemo.v ===== *)
(** * Concrete sync sessions

    The theorems of SyncTransfer.v, SyncSafety.v and SyncLink.v on two small file systems in
    memory. *)

From S2P Require Import Prelude Io SyncBase SyncServer SyncClient SyncRun SyncFs SyncTransfer SyncSafety SyncLink.
Import MemFs.

Definition host_fs : memfs :=
  mkMem {[bs "/a" := File [1; 2; 3] 0x1a4 77; bs "/d" := Dir 5; bs "/secret" := File [4] 0 6]}
        [UpTo 0; IoErr EINTR].

Definition device_fs : memfs :=
  mkMem {[bs "/s" := Dir 9; bs "/s/x" := File [7; 8] 0x1a4 11; bs "/s/y" := File [] 0 12]}
        [IoErr EINTR; UpTo 1].

Definition no_text (_ : option errno) : list Z := bs "error".

Ltac path_is_ok := split; [by vm_compute|repeat (constructor; [done|]); constructor].

Lemma push_transfers_file_witness :
  exists cout sout sfs',
    does (do_sync_push true (bs "/a") (bs "/s") false) sout host_fs 0 cout host_fs /\
    finishes (file_sync_service no_text) cout device_fs sout sfs' /\
    fs_contents (bs "/s/a") sfs' = Some [1; 2; 3].
Proof.
  destruct (push_transfers_file no_text host_fs device_fs
    (put (bs "/s/a") (File [] 0x1b6 0) device_fs) (bs "/a") (bs "/s")
    (mkStat 0x81a4 3 77) (mkRd [1; 2; 3] [UpTo 0; IoErr EINTR])
    (mkWf [] (mkWr [] [IoErr EINTR; UpTo 1]))) as (cout & sout & sfs' & H1 & H2 & H3 & _);
    [by vm_compute|by vm_compute|by vm_compute|by vm_compute|repeat constructor|path_is_ok|
     path_is_ok|by vm_compute|repeat constructor|].
  exists cout, sout, sfs'. done.
Defined.

Lemma pull_transfers_file_witness :
  exists cout sout cfs',
    does (do_sync_pull true (bs "/s/x") (bs "/d")) sout host_fs 0 cout cfs' /\
    finishes (file_sync_service no_text) cout device_fs sout device_fs /\
    fs_contents (bs "/d/x") cfs' = Some [7; 8].
Proof.
  destruct (pull_transfers_file no_text host_fs (put (bs "/d/x") (File [] 0x1a4 0) host_fs) device_fs
    (bs "/d") (bs "/s/x") (mkStat 0x81a4 2 11) (mkRd [7; 8] [IoErr EINTR; UpTo 1])
    (mkWf [] (mkWr [] [UpTo 0; IoErr EINTR]))) as (cout & sout & cfs' & H1 & H2 & H3);
    [by vm_compute|by vm_compute|by vm_compute|by vm_compute|repeat constructor|path_is_ok|done|
     by vm_compute|repeat constructor|].
  exists cout, sout, cfs'. done.
Defined.

Lemma pull_failure_deletes_local_witness :
  exists cout sout,
    does (do_sync_pull true (bs "/s/y") (bs "/a")) sout host_fs 0 cout (fs_unlink (bs "/a") host_fs) /\
    finishes (file_sync_service no_text) cout device_fs sout device_fs.
Proof.
  assert (pull_dest (bs "/s/y") (bs "/a") host_fs = bs "/a") as <- by by vm_compute.
  apply (pull_failure_deletes_local no_text host_fs device_fs (bs "/a") (bs "/s/y")
    (mkStat 0x8000 0 12) (EOTHER 13)); [by vm_compute|by vm_compute|by vm_compute|by vm_compute|simpl; lia|path_is_ok].
Defined.

Lemma push_unreadable_truncates_remote_witness :
  exists cout sout sfs',
    does (do_sync_push true (bs "/secret") (bs "/s/x") false) sout host_fs 0 cout host_fs /\
    finishes (file_sync_service no_text) cout device_fs sout sfs' /\
    fs_contents (bs "/s/x") sfs' = Some [].
Proof.
  destruct (push_unreadable_truncates_remote no_text host_fs device_fs
    (put (bs "/s/x") (File [] 0 0) (fs_unlink (bs "/s/x") device_fs)) (bs "/secret") (bs "/s/x")
    (mkStat 0x8000 1 6) (EOTHER 13) (mkWf [] (mkWr [] [IoErr EINTR; UpTo 1])))
    as (cout & sout & sfs' & H1 & H2 & H3);
    [by vm_compute|by vm_compute|by vm_compute|by vm_compute|path_is_ok|path_is_ok|by vm_compute|done|
     repeat constructor|].
  assert (push_dest (bs "/secret") (bs "/s/x") device_fs = bs "/s/x") as E by by vm_compute.
  rewrite E in H3. by exists cout, sout, sfs'.
Defined.

Lemma listing_roundtrip_witness :
  exists reply, does (do_list (bs "/s")) [] device_fs 0 reply device_fs /\
    does (sync_ls (bs "/s")) reply host_fs
      (0, listing (bs "/s") device_fs [bs "y"; bs "x"]) (request ID_LIST (bs "/s")) host_fs.
Proof.
  apply (listing_roundtrip host_fs device_fs (bs "/s") [bs "y"; bs "x"]);
    [left; by vm_compute|path_is_ok|repeat constructor; done|repeat constructor; simpl; unfold LIST_TMP; lia].
Defined.

Lemma negative_length_overruns_witness :
  breaks (sync_ls (bs "/s")) (msg_dent ID_DENT 0 0 0 0xffffffff ++ replicate 258 0) host_fs.
Proof.
  apply (negative_length_overruns host_fs 0xffffffff (replicate 258 0) (bs "/s"));
    [by vm_compute|path_is_ok|done].
Defined.

(** ** Linking two flat directories *)

Definition link_names : list (list Z) := [bs "a"; bs "b"; bs "c"].

(** [a] is new here, [b] is newer there, [c] is the same. *)
Definition link_host : memfs :=
  mkMem {[bs "/h" := Dir 1; bs "/h/a" := File [1; 2] 0x1a4 5; bs "/h/b" := File [3] 0x1a4 1; bs "/h/c" := File [4] 0x1a4 3]} [].
Definition link_device : memfs :=
  mkMem {[bs "/d" := Dir 1; bs "/d/b" := File [7; 8] 0x1a4 9; bs "/d/c" := File [4] 0x1a4 3]} [].

(** The directory [dir] and readable files with these names in it, nothing else. *)
Record flat (dir : list Z) (fs : memfs) : Prop := Flat {
  fl_answers : answers fs = [];
  fl_dir : exists t, nodes fs !! dir = Some (Dir t);
  fl_files k n : nodes fs !! k = Some n -> k = dir \/
    exists f d m t, f ∈ link_names /\ k = dir ++ [47] ++ f /\ n = File d m t /\ (Z.land m 0x100 =? 0) = false;
}.

Definition link_tree : list (list Z * stree) := (fun n => (n, SFile)) <$> [bs "c"; bs "b"; bs "a"].

(** The paths of the two directories are in normal form. *)
Definition is_link_dir (dir : list Z) : Prop := dir = bs "/h" \/ dir = bs "/d".

Ltac each_name H := repeat (apply elem_of_cons in H as [->|H]); [..|by apply elem_of_nil in H].

Lemma link_path dir f : is_link_dir dir -> f ∈ link_names ->
  chop (dir ++ [47] ++ f) = dir ++ [47] ++ f /\ strrchr 47 (dir ++ [47] ++ f) = Some (dir, f).
Proof. intros [-> | ->] H; each_name H; by vm_compute. Qed.

Lemma flat_lookup dir fs f : flat dir fs -> f ∈ link_names ->
  nodes fs !! (dir ++ [47] ++ f) = None \/ exists d m t, nodes fs !! (dir ++ [47] ++ f) = Some (File d m t) /\ (Z.land m 0x100 =? 0) = false.
Proof.
  intros [_ _ Hf] Hin. destruct (nodes fs !! (dir ++ [47] ++ f)) as [n|] eqn:E; [right|by left].
  destruct (Hf _ _ E) as [Hd|(g & d & m & t & _ & _ & -> & Hm)]; [|by exists d, m, t].
  apply (f_equal length) in Hd. rewrite !length_app in Hd. cbn in Hd. lia.
Qed.

Lemma flat_put dir fs f d m t : f ∈ link_names -> (Z.land m 0x100 =? 0) = false -> flat dir fs ->
  flat dir (put (dir ++ [47] ++ f) (File d m t) fs).
Proof.
  intros Hin Hm [Ha [t0 Hd] Hf]. split; [done| |].
  - exists t0. cbn [put nodes]. rewrite lookup_insert_ne; [done|]. intros E. apply (f_equal length) in E. rewrite !length_app in E. cbn in E. lia.
  - intros k n. cbn [put nodes]. destruct (decide (k = dir ++ [47] ++ f)) as [->|Hne].
    + rewrite lookup_insert_eq. intros [= <-]. right. by exists f, d, m, t.
    + rewrite lookup_insert_ne by done. apply Hf.
Qed.

Lemma flat_unlink dir fs f : is_link_dir dir -> f ∈ link_names -> flat dir fs ->
  flat dir (fs_unlink (dir ++ [47] ++ f) fs) /\ nodes (fs_unlink (dir ++ [47] ++ f) fs) !! (dir ++ [47] ++ f) = None.
Proof.
  intros Hd Hin Hfl. destruct (link_path dir f Hd Hin) as [Hc _]. pose proof (flat_lookup dir fs f Hfl Hin) as Hl.
  assert (fs_unlink (dir ++ [47] ++ f) fs = mkMem (delete (dir ++ [47] ++ f) (nodes fs)) (answers fs)) as ->.
  { cbn [fs_unlink memfs_ops]. rewrite Hc. by destruct Hl as [->|(d & m & t & -> & _)]. }
  destruct Hfl as [Ha [t0 Ht] Hf]. split; [|by apply lookup_delete_eq]. split; [done| |].
  - exists t0. cbn [nodes]. rewrite lookup_delete_ne; [done|]. intros E. apply (f_equal length) in E. rewrite !length_app in E. cbn in E. lia.
  - intros k n H. cbn [nodes] in H. apply lookup_delete_Some in H as [_ H]. by apply Hf.
Qed.

(** Writes and times keep the directory flat. *)
Lemma flat_store dir fs f d : is_link_dir dir -> f ∈ link_names -> flat dir fs -> flat dir (fs_store (dir ++ [47] ++ f) d fs).
Proof.
  intros Hd Hin Hfl. destruct (link_path dir f Hd Hin) as [Hc _]. cbn [fs_store memfs_ops]. rewrite Hc.
  destruct (flat_lookup dir fs f Hfl Hin) as [->|(d' & m & t & -> & Hm)]; [done|]. by apply flat_put.
Qed.

Lemma flat_utime dir fs f t : is_link_dir dir -> f ∈ link_names -> flat dir fs -> flat dir (fs_utime (dir ++ [47] ++ f) t fs).
Proof.
  intros Hd Hin Hfl. destruct (link_path dir f Hd Hin) as [Hc _]. cbn [fs_utime memfs_ops]. rewrite Hc.
  destruct (flat_lookup dir fs f Hfl Hin) as [->|(d' & m & t' & -> & Hm)]; [done|]. by apply flat_put.
Qed.

(** A new file in the directory. *)
Lemma flat_new dir fs f m : is_link_dir dir -> f ∈ link_names -> flat dir fs -> (Z.land m 0x100 =? 0) = false ->
  nodes fs !! (dir ++ [47] ++ f) = None ->
  new_file (dir ++ [47] ++ f) m fs = (inr (mkWf [] (mkWr [] [])), put (dir ++ [47] ++ f) (File [] m 0) fs).
Proof.
  intros Hd Hin [Ha [t Ht] _] Hm Hno. destruct (link_path dir f Hd Hin) as [Hc Hs]. unfold new_file, parent_ok. rewrite Hc, Hs, Ha, Ht.
  by destruct Hd as [-> | ->].
Qed.

(** The directory is there already when a file is received. *)
Lemma mkdirs_loop_plain {FS} {fsys : FileSystem FS} x : forall pre (fs : FS), Forall (fun b => b <> 47) x -> (mkdirs_loop pre x fs).2 = fs.
Proof. 
  induction x as [|b x IH]; intros pre fs H; [done|]. apply Forall_cons_iff in H as [Hb H]. cbn [mkdirs_loop].
  rewrite (proj2 (Z.eqb_neq b 47)) by done. by apply IH.
Qed.

Lemma flat_mkdirs dir f fs : is_link_dir dir -> f ∈ link_names -> flat dir fs ->
  before_creat (dir ++ [47] ++ f) fs = fs_unlink (dir ++ [47] ++ f) fs.
Proof.
  intros Hd Hin Hfl. destruct (flat_unlink dir fs f Hd Hin Hfl) as [[_ [t Ht] _] _]. destruct (link_path dir f Hd Hin) as [_ Hs].
  apply strrchr_spec in Hs as [_ Hs]. set (fs' := fs_unlink _ fs) in *.
  assert (fs_mkdir dir 0x1fd fs' = (Some EEXIST, fs')) as Hm.
  { cbn [fs_mkdir memfs_ops]. assert (chop dir = dir) as -> by by destruct Hd as [-> | ->]. by rewrite Ht. }
  assert (exists b, dir = [47; b] /\ (b =? 47) = false) as (b & -> & Hb) by (destruct Hd as [-> | ->]; by eexists).
  unfold before_creat. cbn [app]. cbn [app] in fs'. fold fs'. cbn [mkdirs_loop app]. rewrite Hb. change (47 =? 47) with true. cbv iota.
  rewrite Hm. by apply mkdirs_loop_plain.
Qed.

Lemma link_info f : f ∈ link_names ->
  ci_dst (file_info link_host (bs "/h/") (bs "/d/") f) = bs "/d" ++ [47] ++ f /\ ci_mode (file_info link_host (bs "/h/") (bs "/d/") f) = 0x81a4.
Proof. intros H; each_name H; by vm_compute. Qed.

Lemma link_tree_files : files (SDir link_tree) = [bs "c"; bs "b"; bs "a"].
Proof. done. Qed.

Lemma link_receptive : receptive (map (file_info link_host (bs "/h/") (bs "/d/")) (files (SDir link_tree))) (flat (bs "/d")).
Proof.
  assert (forall ci, ci ∈ map (file_info link_host (bs "/h/") (bs "/d/")) (files (SDir link_tree)) ->
    exists f, f ∈ link_names /\ ci_dst ci = bs "/d" ++ [47] ++ f /\ ci_mode ci = 0x81a4) as Hci.
  { intros ci (f & -> & Hf)%list_elem_of_fmap. exists f. assert (f ∈ link_names) as H by (rewrite link_tree_files in Hf; unfold link_names; set_solver).
    split; [done|]. by apply link_info. }
  assert (is_link_dir (bs "/d")) as Hd by by right.
  split.
  - intros ci fs (f & Hf & -> & ->)%Hci Hfl. destruct (flat_unlink _ fs f Hd Hf Hfl) as [Hfl' Hno].
    set (fs' := fs_unlink _ fs) in *. destruct (link_path _ f Hd Hf) as [Hc _].
    pose proof (flat_new _ fs' f (send_perm 0x81a4) Hd Hf Hfl' eq_refl Hno) as Hn. do 2 eexists. split_and!.
    + unfold open_for_send. cbn [fs_open_excl memfs_ops]. rewrite Hc, Hno, Hn. done.
    + done.
    + apply regular_node. rewrite Hc. cbn [put nodes]. rewrite lookup_insert_eq. by do 3 eexists.
    + constructor.
    + by apply flat_put.
  - intros ci d fs (f & Hf & -> & _)%Hci Hfl. by apply flat_store.
  - intros ci fs (f & Hf & -> & _)%Hci Hfl. by apply flat_utime.
Qed.

Lemma link_receptive_host : receptive_host (map (app (bs "/h/")) link_names) (flat (bs "/h")).
Proof.
  assert (is_link_dir (bs "/h")) as Hd by by left. change (app (bs "/h/")) with (fun f => bs "/h" ++ [47] ++ f).
  split.
  - intros p fs (f & -> & Hf)%list_elem_of_fmap Hfl. rewrite (flat_mkdirs _ f fs) by done.
    destruct (flat_unlink _ fs f Hd Hf Hfl) as [Hfl' Hno]. set (fs' := fs_unlink _ fs) in *. destruct (link_path _ f Hd Hf) as [Hc _].
    do 2 eexists. split_and!.
    + cbn [fs_creat memfs_ops]. rewrite Hc, Hno. by apply (flat_new _ fs' f).
    + constructor.
    + by apply flat_put.
  - intros p d fs (f & -> & Hf)%list_elem_of_fmap Hfl. by apply flat_store.
Qed.

(** What a flat directory is listed as. *)
Definition names_in (dir : list Z) (fs : memfs) : list (list Z) := omap (child dir) (fst <$> map_to_list (nodes fs)).

Lemma child_path p q n : child p q = Some n -> q = p ++ [47] ++ n.
Proof.
  unfold child. destruct (strrchr 47 q) as [[d m]|] eqn:E; [|done]. case_match eqn:Hb; [|done]. intros [= <-].
  apply andb_true_iff in Hb as [->%bool_decide_eq_true _]. by apply strrchr_spec in E as [-> _].
Qed.

Lemma names_in_iff dir fs n : is_link_dir dir -> flat dir fs ->
  n ∈ names_in dir fs <-> n ∈ link_names /\ is_Some (nodes fs !! (dir ++ [47] ++ n)).
Proof.
  intros Hd [_ _ Hf]. unfold names_in. rewrite list_elem_of_omap. setoid_rewrite list_elem_of_fmap. split.
  - intros (q & ([k v] & -> & Hin) & Hc). apply elem_of_map_to_list in Hin. cbn [fst] in Hc. apply child_path in Hc as ->.
    split; [|by eexists]. destruct (Hf _ _ Hin) as [E|(f & d & m & t & Hn & E & _)].
    + apply (f_equal length) in E. rewrite !length_app in E. cbn in E. lia.
    + apply app_inv_head in E. cbn in E. by simplify_eq.
  - intros [Hn [v Hv]]. exists (dir ++ [47] ++ n). split; [exists (dir ++ [47] ++ n, v); split; [done|by apply elem_of_map_to_list]|].
    unfold child. destruct (link_path dir n Hd Hn) as [_ ->]. rewrite bool_decide_eq_true_2 by done.
    rewrite bool_decide_eq_false_2; [done|]. by each_name Hn.
Qed.

Lemma names_in_nodup dir fs : NoDup (names_in dir fs).
Proof.
  unfold names_in. pose proof (NoDup_fst_map_to_list (nodes fs)) as H. revert H. generalize ((map_to_list (nodes fs)).*1).
  induction l as [|k l IH]; cbn [omap list_omap]; [constructor|]. intros [Hk Hl]%list.NoDup_cons.
  destruct (child dir k) as [n|] eqn:E; [|by apply IH]. apply list.NoDup_cons. split; [|by apply IH].
  intros (k' & Hin & E')%list_elem_of_omap. apply child_path in E, E'. congruence.
Qed.

Lemma files_flat names : Forall (fun n => is_dots n = false) names -> files (SDir ((fun n => (n, SFile)) <$> names)) = names.
Proof. induction 1 as [|n names Hn _ IH]; [done|]. cbn in *. by rewrite Hn, IH. Qed.

Lemma link_name_ok dir n : is_link_dir dir -> n ∈ link_names ->
  is_dots n = false /\ (length n = 1)%nat /\ Forall (fun b => b <> 0) n /\ path_ok (dir ++ [47] ++ n) /\ length dir = 2%nat.
Proof. intros [-> | ->] H; each_name H; (split_and!; [done|done|by repeat constructor|path_is_ok|done]). Qed.

Lemma flat_listed fs : flat (bs "/d") fs -> exists er, listed fs (bs "/d/") (SDir er) /\ NoDup (files (SDir er)) /\
    (forall f, f ∈ files (SDir er) -> f ∈ link_names /\ can_fetch fs (file_info fs (bs "/d/") (bs "/h/") f)) /\
    (forall f, f ∈ link_names -> f ∈ files (SDir er) \/ fs_lstat (bs "/d/" ++ f) fs = None).
Proof.
  intros Hfl. assert (is_link_dir (bs "/d")) as Hd by by right. pose proof (fun n => names_in_iff _ fs n Hd Hfl) as Hn.
  assert (Forall (fun n => is_dots n = false) (names_in (bs "/d") fs)) as Hdots.
  { apply list.Forall_forall. intros n [Hin _]%Hn. by apply (link_name_ok _ n Hd). }
  exists ((fun n => (n, SFile)) <$> names_in (bs "/d") fs). rewrite files_flat by done.
  assert (forall f, f ∈ link_names -> chop (bs "/d/" ++ f) = bs "/d" ++ [47] ++ f) as Hc by (intros f Hf; by apply (link_path _ f Hd)).
  split_and!; [|by apply names_in_nodup| |].
  - destruct (fl_dir _ _ Hfl) as [t Ht]. split; [path_is_ok|]. split; [|split].
    + cbn [fs_readdir memfs_ops]. change (chop (bs "/d/")) with (bs "/d"). rewrite Ht. f_equal. change (map fst) with (fmap (M := list) (@fst (list Z) stree)). rewrite <- list_fmap_compose. symmetry. apply list_fmap_id.
    + apply Forall_fmap. eapply Forall_impl; [|exact Hdots]. cbn. congruence.
    + apply fold_right_and, Forall_fmap, list.Forall_forall. intros n Hin%Hn. right. split; [|done]. destruct Hin as [Hin [v Hv]].
      destruct (link_name_ok _ n Hd Hin) as (_ & Hl & Hz & _). split; cbn [fst snd]; [lia|unfold LIST_TMP; cbn; lia|done|].
      cbn [fs_lstat memfs_ops]. rewrite Hc by done. destruct (flat_lookup _ fs n Hfl Hin) as [E|(d & m & t' & E & _)]; [congruence|].
      rewrite E. eexists. split; [done|]. apply S_ISREG_file.
  - intros f [Hin [v Hv]]%Hn. split; [done|]. destruct (file_info_fields fs (bs "/d/") (bs "/h/") f) as (Es & Ed & _).
    destruct (flat_lookup _ fs f Hfl Hin) as [E|(d & m & t' & E & Hm)]; [congruence|]. split; rewrite ?Es, ?Ed; [|by apply (link_name_ok _ f Hd)|done].
    cbn [fs_open_rd memfs_ops]. rewrite Hc, E, Hm by done. eexists. split; [done|]. rewrite (fl_answers _ _ Hfl). constructor.
  - intros f Hin. rewrite Hn. cbn [fs_lstat memfs_ops]. rewrite Hc by done.
    destruct (nodes fs !! (bs "/d" ++ [47] ++ f)) eqn:E; [left; by eexists|by right].
Qed.

Lemma flat_start : flat (bs "/h") link_host /\ flat (bs "/d") link_device.
Proof.
  split; (split; [done|by eexists|]); intros k n; cbn [nodes link_host link_device]; rewrite !lookup_insert_Some, lookup_singleton_Some; intros H;
    repeat (destruct H as [[<- <-]|[_ H]]; [first [by left|right]|]); try (destruct H as [<- <-]; right).
  all: match goal with |- context [?k = _ ++ _ /\ File ?d ?m ?t = _ /\ _] => exists (drop 3 k), d, m, t end.
  all: split; [apply (bool_decide_unpack _); by vm_compute|by split_and!].
Qed.

Lemma link_seen : seen link_host (bs "/h/") (SDir link_tree).
Proof.
  split; [by vm_compute|]. repeat (split; [right; split; [|done]; split; cbn [fst snd];
    [vm_compute; lia|eexists; by split|intros _; eexists; by split]|]). done.
Qed.

Lemma link_can_send f : f ∈ link_names -> can_send link_host (file_info link_host (bs "/h/") (bs "/d/") f).
Proof.
  intros H; each_name H; (split; [eexists; split; [by vm_compute|constructor]|by vm_compute|by vm_compute|by vm_compute|path_is_ok]).
Qed.

Lemma link_newest_wins_witness :
  exists cout sout cfs' sfs', does (do_link true (bs "/h") (bs "/d")) sout link_host 0 cout cfs' /\
    finishes (file_sync_service no_text) cout link_device sout sfs' /\
    fs_contents (bs "/d/a") sfs' = Some [1; 2] /\ fs_contents (bs "/h/b") cfs' = Some [7; 8].
Proof.
  destruct (link_newest_wins no_text link_host link_device (bs "/h") (bs "/d") link_names link_tree (flat (bs "/d")) (flat (bs "/h")))
    as (cout & sout & cfs' & sfs' & D & F & Hl & _).
  - done.
  - change (slashed (bs "/h")) with (bs "/h/"). change (slashed (bs "/d")) with (bs "/d/").
    assert (forall f, f ∈ link_names <-> f ∈ files (SDir link_tree)) as Hf by (rewrite link_tree_files; unfold link_names; set_solver).
    split.
    + intros f g H1 H2. each_name H1; each_name H2; intros Hne; (split; by vm_compute) || done.
    + vm_compute. lia.
    + apply link_seen.
    + rewrite link_tree_files. repeat (constructor; [set_solver|]). constructor.
    + intros f H%Hf. split; [done|]. by apply link_can_send.
    + intros f H%Hf. by left.
    + apply flat_start.
    + apply link_receptive.
    + intros fs (er & H1 & H2 & H3 & H4)%flat_listed. exists er. split_and!; [done..| |done]. intros f H. split; [|intros _]; by apply H3.
    + apply flat_start.
    + apply link_receptive_host.
  - exists cout, sout, cfs', sfs'. split; [done|]. split; [done|]. split.
    + destruct (Hl (bs "a")) as (_ & Ha & _); [unfold link_names; set_solver|exact Ha].
    + destruct (Hl (bs "b")) as (Hb & _); [unfold link_names; set_solver|exact Hb].
Defined.
