(* ===== verification/World.v ===== *)
(** * The state of the adb server

    One record [world] holds what the server's objects share: the sockets
    ([asocket], sockets.c), the transports ([atransport], transport.c), the
    listeners ([alistener], adb.c), the device trackers, the descriptor events
    (FdEvent.v) and the descriptors.  Objects are found by address; a freed
    object is no longer found, and using it is undefined behaviour.  Function
    pointers are values of an enumeration of the functions the program stores
    there.  The two mutexes are flags: taking one that is held is a deadlock,
    since the code modelled here runs in one thread. *)

From S2P Require Import Prelude Io Wire FdEvent.

(** ** Data *)

Inductive enqueue_fn := local_socket_enqueue_p | remote_socket_enqueue_p
  | smart_socket_enqueue_p | device_tracker_enqueue_p.

Inductive ready_fn := local_socket_ready_p | local_socket_ready_notify_p | remote_socket_ready_p
  | smart_socket_ready_p | device_tracker_ready_p.

Inductive close_fn := local_socket_close_p | local_socket_close_notify_p | remote_socket_close_p
  | smart_socket_close_p | device_tracker_close_p.

#[export] Instance close_fn_eq_dec : EqDecision close_fn.
Proof. solve_decision. Defined.
#[export] Instance enqueue_fn_eq_dec : EqDecision enqueue_fn.
Proof. solve_decision. Defined.

(** The callbacks of descriptor events; their argument is the owner's address. *)
Inductive fd_callback := local_socket_event_func_p | transport_socket_events_p
  | listener_event_func_p | ss_listener_event_func_p | transport_registration_func_p.

(** An entry of a transport's disconnect list: the function and its argument. *)
Inductive adisconnect :=
| remote_socket_disconnect_p (s : Z)
| listener_disconnect_p (l : Z).

#[export] Instance adisconnect_eq_dec : EqDecision adisconnect.
Proof. solve_decision. Defined.

Inductive transport_type := kTransportUsb | kTransportLocal | kTransportAny | kTransportHost.

#[export] Instance transport_type_eq_dec : EqDecision transport_type.
Proof. solve_decision. Defined.

Definition CS_ANY : Z := -1.
Definition CS_OFFLINE : Z := 0.
Definition CS_BOOTLOADER : Z := 1.
Definition CS_DEVICE : Z := 2.
Definition CS_HOST : Z := 3.
Definition CS_RECOVERY : Z := 4.
Definition CS_NOPERM : Z := 5.

(** What the program asks the kernel for when it needs a descriptor. *)
Inductive open_req :=
| OpenAccept (fd : Z)
| OpenSocketpair
| OpenLoopbackClient (port : Z)
| OpenLoopbackServer (port : Z)
| OpenNetworkClient (host : list Z) (port : Z)
| OpenLocalClient (name : list Z) (namespace : Z)
| OpenLocalServer (name : list Z) (namespace : Z)
| OpenServiceThread (service : list Z).

(** The calls of the USB layer. *)
Inductive usb_call := UsbKick (h : option Z) | UsbClose (h : option Z).

(** [s_pkts] is the queue from [pkt_first]; [s_update] is the field
    [update_needed] of a device tracker, which begins with an [asocket]. *)
Record asocket := mkSock {
  s_id : Z;
  s_closing : bool;
  s_peer : option Z;
  s_fd : Z;
  s_pkts : list apacket;
  s_enqueue : enqueue_fn;
  s_ready : ready_fn;
  s_close : close_fn;
  s_transport : option Z;
  s_update : bool
}.
Definition upd_s_id (f : Z -> Z) (x : asocket) : asocket :=
  mkSock (f (s_id x)) (s_closing x) (s_peer x) (s_fd x) (s_pkts x) (s_enqueue x) (s_ready x)
    (s_close x) (s_transport x) (s_update x).
Definition upd_s_closing (f : bool -> bool) (x : asocket) : asocket :=
  mkSock (s_id x) (f (s_closing x)) (s_peer x) (s_fd x) (s_pkts x) (s_enqueue x) (s_ready x)
    (s_close x) (s_transport x) (s_update x).
Definition upd_s_peer (f : option Z -> option Z) (x : asocket) : asocket :=
  mkSock (s_id x) (s_closing x) (f (s_peer x)) (s_fd x) (s_pkts x) (s_enqueue x) (s_ready x)
    (s_close x) (s_transport x) (s_update x).
Definition upd_s_fd (f : Z -> Z) (x : asocket) : asocket :=
  mkSock (s_id x) (s_closing x) (s_peer x) (f (s_fd x)) (s_pkts x) (s_enqueue x) (s_ready x)
    (s_close x) (s_transport x) (s_update x).
Definition upd_s_pkts (f : list apacket -> list apacket) (x : asocket) : asocket :=
  mkSock (s_id x) (s_closing x) (s_peer x) (s_fd x) (f (s_pkts x)) (s_enqueue x) (s_ready x)
    (s_close x) (s_transport x) (s_update x).
Definition upd_s_enqueue (f : enqueue_fn -> enqueue_fn) (x : asocket) : asocket :=
  mkSock (s_id x) (s_closing x) (s_peer x) (s_fd x) (s_pkts x) (f (s_enqueue x)) (s_ready x)
    (s_close x) (s_transport x) (s_update x).
Definition upd_s_ready (f : ready_fn -> ready_fn) (x : asocket) : asocket :=
  mkSock (s_id x) (s_closing x) (s_peer x) (s_fd x) (s_pkts x) (s_enqueue x) (f (s_ready x))
    (s_close x) (s_transport x) (s_update x).
Definition upd_s_close (f : close_fn -> close_fn) (x : asocket) : asocket :=
  mkSock (s_id x) (s_closing x) (s_peer x) (s_fd x) (s_pkts x) (s_enqueue x) (s_ready x)
    (f (s_close x)) (s_transport x) (s_update x).
Definition upd_s_transport (f : option Z -> option Z) (x : asocket) : asocket :=
  mkSock (s_id x) (s_closing x) (s_peer x) (s_fd x) (s_pkts x) (s_enqueue x) (s_ready x)
    (s_close x) (f (s_transport x)) (s_update x).
Definition upd_s_update (f : bool -> bool) (x : asocket) : asocket :=
  mkSock (s_id x) (s_closing x) (s_peer x) (s_fd x) (s_pkts x) (s_enqueue x) (s_ready x)
    (s_close x) (s_transport x) (f (s_update x)).

(** [t_disconnects] is the list from the embedded head.  The two ends of
    [transport_socket]/[fd] carry packet addresses: [t_inbox] holds the packets
    the output thread has put there, [t_queue] those [send_packet] has, and
    [t_answers] says of each [send_packet] to come whether the write succeeds. *)
Record atransport := mkTrans {
  t_connection_state : Z;
  t_type : transport_type;
  t_serial : option (list Z);
  t_product : option (list Z);
  t_kicked : bool;
  t_ref_count : Z;
  t_sync_token : Z;
  t_transport_socket : Z;
  t_fd : Z;
  t_disconnects : list adisconnect;
  t_usb : option Z;
  t_sfd : Z;
  t_inbox : list apacket;
  t_queue : list apacket;
  t_answers : list bool
}.
Definition upd_t_connection_state (f : Z -> Z) (x : atransport) : atransport :=
  mkTrans (f (t_connection_state x)) (t_type x) (t_serial x) (t_product x) (t_kicked x)
    (t_ref_count x) (t_sync_token x) (t_transport_socket x) (t_fd x) (t_disconnects x)
    (t_usb x) (t_sfd x) (t_inbox x) (t_queue x) (t_answers x).
Definition upd_t_type (f : transport_type -> transport_type) (x : atransport) : atransport :=
  mkTrans (t_connection_state x) (f (t_type x)) (t_serial x) (t_product x) (t_kicked x)
    (t_ref_count x) (t_sync_token x) (t_transport_socket x) (t_fd x) (t_disconnects x)
    (t_usb x) (t_sfd x) (t_inbox x) (t_queue x) (t_answers x).
Definition upd_t_serial (f : option (list Z) -> option (list Z)) (x : atransport) : atransport :=
  mkTrans (t_connection_state x) (t_type x) (f (t_serial x)) (t_product x) (t_kicked x)
    (t_ref_count x) (t_sync_token x) (t_transport_socket x) (t_fd x) (t_disconnects x)
    (t_usb x) (t_sfd x) (t_inbox x) (t_queue x) (t_answers x).
Definition upd_t_product (f : option (list Z) -> option (list Z)) (x : atransport) : atransport :=
  mkTrans (t_connection_state x) (t_type x) (t_serial x) (f (t_product x)) (t_kicked x)
    (t_ref_count x) (t_sync_token x) (t_transport_socket x) (t_fd x) (t_disconnects x)
    (t_usb x) (t_sfd x) (t_inbox x) (t_queue x) (t_answers x).
Definition upd_t_kicked (f : bool -> bool) (x : atransport) : atransport :=
  mkTrans (t_connection_state x) (t_type x) (t_serial x) (t_product x) (f (t_kicked x))
    (t_ref_count x) (t_sync_token x) (t_transport_socket x) (t_fd x) (t_disconnects x)
    (t_usb x) (t_sfd x) (t_inbox x) (t_queue x) (t_answers x).
Definition upd_t_ref_count (f : Z -> Z) (x : atransport) : atransport :=
  mkTrans (t_connection_state x) (t_type x) (t_serial x) (t_product x) (t_kicked x)
    (f (t_ref_count x)) (t_sync_token x) (t_transport_socket x) (t_fd x) (t_disconnects x)
    (t_usb x) (t_sfd x) (t_inbox x) (t_queue x) (t_answers x).
Definition upd_t_sync_token (f : Z -> Z) (x : atransport) : atransport :=
  mkTrans (t_connection_state x) (t_type x) (t_serial x) (t_product x) (t_kicked x)
    (t_ref_count x) (f (t_sync_token x)) (t_transport_socket x) (t_fd x) (t_disconnects x)
    (t_usb x) (t_sfd x) (t_inbox x) (t_queue x) (t_answers x).
Definition upd_t_transport_socket (f : Z -> Z) (x : atransport) : atransport :=
  mkTrans (t_connection_state x) (t_type x) (t_serial x) (t_product x) (t_kicked x)
    (t_ref_count x) (t_sync_token x) (f (t_transport_socket x)) (t_fd x) (t_disconnects x)
    (t_usb x) (t_sfd x) (t_inbox x) (t_queue x) (t_answers x).
Definition upd_t_fd (f : Z -> Z) (x : atransport) : atransport :=
  mkTrans (t_connection_state x) (t_type x) (t_serial x) (t_product x) (t_kicked x)
    (t_ref_count x) (t_sync_token x) (t_transport_socket x) (f (t_fd x)) (t_disconnects x)
    (t_usb x) (t_sfd x) (t_inbox x) (t_queue x) (t_answers x).
Definition upd_t_disconnects (f : list adisconnect -> list adisconnect) (x : atransport) : atransport :=
  mkTrans (t_connection_state x) (t_type x) (t_serial x) (t_product x) (t_kicked x)
    (t_ref_count x) (t_sync_token x) (t_transport_socket x) (t_fd x) (f (t_disconnects x))
    (t_usb x) (t_sfd x) (t_inbox x) (t_queue x) (t_answers x).
Definition upd_t_usb (f : option Z -> option Z) (x : atransport) : atransport :=
  mkTrans (t_connection_state x) (t_type x) (t_serial x) (t_product x) (t_kicked x)
    (t_ref_count x) (t_sync_token x) (t_transport_socket x) (t_fd x) (t_disconnects x)
    (f (t_usb x)) (t_sfd x) (t_inbox x) (t_queue x) (t_answers x).
Definition upd_t_sfd (f : Z -> Z) (x : atransport) : atransport :=
  mkTrans (t_connection_state x) (t_type x) (t_serial x) (t_product x) (t_kicked x)
    (t_ref_count x) (t_sync_token x) (t_transport_socket x) (t_fd x) (t_disconnects x)
    (t_usb x) (f (t_sfd x)) (t_inbox x) (t_queue x) (t_answers x).
Definition upd_t_inbox (f : list apacket -> list apacket) (x : atransport) : atransport :=
  mkTrans (t_connection_state x) (t_type x) (t_serial x) (t_product x) (t_kicked x)
    (t_ref_count x) (t_sync_token x) (t_transport_socket x) (t_fd x) (t_disconnects x)
    (t_usb x) (t_sfd x) (f (t_inbox x)) (t_queue x) (t_answers x).
Definition upd_t_queue (f : list apacket -> list apacket) (x : atransport) : atransport :=
  mkTrans (t_connection_state x) (t_type x) (t_serial x) (t_product x) (t_kicked x)
    (t_ref_count x) (t_sync_token x) (t_transport_socket x) (t_fd x) (t_disconnects x)
    (t_usb x) (t_sfd x) (t_inbox x) (f (t_queue x)) (t_answers x).
Definition upd_t_answers (f : list bool -> list bool) (x : atransport) : atransport :=
  mkTrans (t_connection_state x) (t_type x) (t_serial x) (t_product x) (t_kicked x)
    (t_ref_count x) (t_sync_token x) (t_transport_socket x) (t_fd x) (t_disconnects x)
    (t_usb x) (t_sfd x) (t_inbox x) (t_queue x) (f (t_answers x)).

Record alistener := mkLis {
  l_fd : Z;
  l_local_name : list Z;
  l_connect_to : list Z;
  l_transport : option Z
}.
Definition upd_l_fd (f : Z -> Z) (x : alistener) : alistener :=
  mkLis (f (l_fd x)) (l_local_name x) (l_connect_to x) (l_transport x).
Definition upd_l_local_name (f : list Z -> list Z) (x : alistener) : alistener :=
  mkLis (l_fd x) (f (l_local_name x)) (l_connect_to x) (l_transport x).
Definition upd_l_connect_to (f : list Z -> list Z) (x : alistener) : alistener :=
  mkLis (l_fd x) (l_local_name x) (f (l_connect_to x)) (l_transport x).
Definition upd_l_transport (f : option Z -> option Z) (x : alistener) : alistener :=
  mkLis (l_fd x) (l_local_name x) (l_connect_to x) (f (l_transport x)).

(** [w_next] is the next unused address.  [w_local] and [w_closing] are the
    socket lists; [w_tlinks] holds the fields [next] and [prev] of the
    transports and of [transport_list]; [w_reg] is what the registration socket
    carries; [w_new_answers] becomes [t_answers] of the next transport. *)
Record world := mkWorld {
  w_next : Z;
  w_socks : gmap Z asocket;
  w_local : list Z;
  w_closing : list Z;
  w_next_id : Z;
  w_slock : bool;
  w_trans : gmap Z atransport;
  w_tlinks : gmap Z (Z * Z);
  w_tlock : bool;
  w_trackers : list Z;
  w_lis : gmap Z alistener;
  w_llist : list Z;
  w_fde : fdst fd_callback;
  w_in : gmap Z rdfd;
  w_out : gmap Z wrfd;
  w_reg : list tmsg;
  w_reg_answers : list bool;
  w_new_answers : list bool;
  w_local_transports : list (option Z);
  w_usb_log : list usb_call;
  w_opens : list open_req;
  w_fresh_fds : list Z;
  w_junk : list Z
}.
Definition upd_w_next (f : Z -> Z) (x : world) : world :=
  mkWorld (f (w_next x)) (w_socks x) (w_local x) (w_closing x) (w_next_id x) (w_slock x)
    (w_trans x) (w_tlinks x) (w_tlock x) (w_trackers x) (w_lis x) (w_llist x) (w_fde x)
    (w_in x) (w_out x) (w_reg x) (w_reg_answers x) (w_new_answers x) (w_local_transports x)
    (w_usb_log x) (w_opens x) (w_fresh_fds x) (w_junk x).
Definition upd_w_socks (f : gmap Z asocket -> gmap Z asocket) (x : world) : world :=
  mkWorld (w_next x) (f (w_socks x)) (w_local x) (w_closing x) (w_next_id x) (w_slock x)
    (w_trans x) (w_tlinks x) (w_tlock x) (w_trackers x) (w_lis x) (w_llist x) (w_fde x)
    (w_in x) (w_out x) (w_reg x) (w_reg_answers x) (w_new_answers x) (w_local_transports x)
    (w_usb_log x) (w_opens x) (w_fresh_fds x) (w_junk x).
Definition upd_w_local (f : list Z -> list Z) (x : world) : world :=
  mkWorld (w_next x) (w_socks x) (f (w_local x)) (w_closing x) (w_next_id x) (w_slock x)
    (w_trans x) (w_tlinks x) (w_tlock x) (w_trackers x) (w_lis x) (w_llist x) (w_fde x)
    (w_in x) (w_out x) (w_reg x) (w_reg_answers x) (w_new_answers x) (w_local_transports x)
    (w_usb_log x) (w_opens x) (w_fresh_fds x) (w_junk x).
Definition upd_w_closing (f : list Z -> list Z) (x : world) : world :=
  mkWorld (w_next x) (w_socks x) (w_local x) (f (w_closing x)) (w_next_id x) (w_slock x)
    (w_trans x) (w_tlinks x) (w_tlock x) (w_trackers x) (w_lis x) (w_llist x) (w_fde x)
    (w_in x) (w_out x) (w_reg x) (w_reg_answers x) (w_new_answers x) (w_local_transports x)
    (w_usb_log x) (w_opens x) (w_fresh_fds x) (w_junk x).
Definition upd_w_next_id (f : Z -> Z) (x : world) : world :=
  mkWorld (w_next x) (w_socks x) (w_local x) (w_closing x) (f (w_next_id x)) (w_slock x)
    (w_trans x) (w_tlinks x) (w_tlock x) (w_trackers x) (w_lis x) (w_llist x) (w_fde x)
    (w_in x) (w_out x) (w_reg x) (w_reg_answers x) (w_new_answers x) (w_local_transports x)
    (w_usb_log x) (w_opens x) (w_fresh_fds x) (w_junk x).
Definition upd_w_slock (f : bool -> bool) (x : world) : world :=
  mkWorld (w_next x) (w_socks x) (w_local x) (w_closing x) (w_next_id x) (f (w_slock x))
    (w_trans x) (w_tlinks x) (w_tlock x) (w_trackers x) (w_lis x) (w_llist x) (w_fde x)
    (w_in x) (w_out x) (w_reg x) (w_reg_answers x) (w_new_answers x) (w_local_transports x)
    (w_usb_log x) (w_opens x) (w_fresh_fds x) (w_junk x).
Definition upd_w_trans (f : gmap Z atransport -> gmap Z atransport) (x : world) : world :=
  mkWorld (w_next x) (w_socks x) (w_local x) (w_closing x) (w_next_id x) (w_slock x)
    (f (w_trans x)) (w_tlinks x) (w_tlock x) (w_trackers x) (w_lis x) (w_llist x) (w_fde x)
    (w_in x) (w_out x) (w_reg x) (w_reg_answers x) (w_new_answers x) (w_local_transports x)
    (w_usb_log x) (w_opens x) (w_fresh_fds x) (w_junk x).
Definition upd_w_tlinks (f : gmap Z (Z * Z) -> gmap Z (Z * Z)) (x : world) : world :=
  mkWorld (w_next x) (w_socks x) (w_local x) (w_closing x) (w_next_id x) (w_slock x)
    (w_trans x) (f (w_tlinks x)) (w_tlock x) (w_trackers x) (w_lis x) (w_llist x) (w_fde x)
    (w_in x) (w_out x) (w_reg x) (w_reg_answers x) (w_new_answers x) (w_local_transports x)
    (w_usb_log x) (w_opens x) (w_fresh_fds x) (w_junk x).
Definition upd_w_tlock (f : bool -> bool) (x : world) : world :=
  mkWorld (w_next x) (w_socks x) (w_local x) (w_closing x) (w_next_id x) (w_slock x)
    (w_trans x) (w_tlinks x) (f (w_tlock x)) (w_trackers x) (w_lis x) (w_llist x) (w_fde x)
    (w_in x) (w_out x) (w_reg x) (w_reg_answers x) (w_new_answers x) (w_local_transports x)
    (w_usb_log x) (w_opens x) (w_fresh_fds x) (w_junk x).
Definition upd_w_trackers (f : list Z -> list Z) (x : world) : world :=
  mkWorld (w_next x) (w_socks x) (w_local x) (w_closing x) (w_next_id x) (w_slock x)
    (w_trans x) (w_tlinks x) (w_tlock x) (f (w_trackers x)) (w_lis x) (w_llist x) (w_fde x)
    (w_in x) (w_out x) (w_reg x) (w_reg_answers x) (w_new_answers x) (w_local_transports x)
    (w_usb_log x) (w_opens x) (w_fresh_fds x) (w_junk x).
Definition upd_w_lis (f : gmap Z alistener -> gmap Z alistener) (x : world) : world :=
  mkWorld (w_next x) (w_socks x) (w_local x) (w_closing x) (w_next_id x) (w_slock x)
    (w_trans x) (w_tlinks x) (w_tlock x) (w_trackers x) (f (w_lis x)) (w_llist x) (w_fde x)
    (w_in x) (w_out x) (w_reg x) (w_reg_answers x) (w_new_answers x) (w_local_transports x)
    (w_usb_log x) (w_opens x) (w_fresh_fds x) (w_junk x).
Definition upd_w_llist (f : list Z -> list Z) (x : world) : world :=
  mkWorld (w_next x) (w_socks x) (w_local x) (w_closing x) (w_next_id x) (w_slock x)
    (w_trans x) (w_tlinks x) (w_tlock x) (w_trackers x) (w_lis x) (f (w_llist x)) (w_fde x)
    (w_in x) (w_out x) (w_reg x) (w_reg_answers x) (w_new_answers x) (w_local_transports x)
    (w_usb_log x) (w_opens x) (w_fresh_fds x) (w_junk x).
Definition upd_w_fde (f : fdst fd_callback -> fdst fd_callback) (x : world) : world :=
  mkWorld (w_next x) (w_socks x) (w_local x) (w_closing x) (w_next_id x) (w_slock x)
    (w_trans x) (w_tlinks x) (w_tlock x) (w_trackers x) (w_lis x) (w_llist x) (f (w_fde x))
    (w_in x) (w_out x) (w_reg x) (w_reg_answers x) (w_new_answers x) (w_local_transports x)
    (w_usb_log x) (w_opens x) (w_fresh_fds x) (w_junk x).
Definition upd_w_in (f : gmap Z rdfd -> gmap Z rdfd) (x : world) : world :=
  mkWorld (w_next x) (w_socks x) (w_local x) (w_closing x) (w_next_id x) (w_slock x)
    (w_trans x) (w_tlinks x) (w_tlock x) (w_trackers x) (w_lis x) (w_llist x) (w_fde x)
    (f (w_in x)) (w_out x) (w_reg x) (w_reg_answers x) (w_new_answers x)
    (w_local_transports x) (w_usb_log x) (w_opens x) (w_fresh_fds x) (w_junk x).
Definition upd_w_out (f : gmap Z wrfd -> gmap Z wrfd) (x : world) : world :=
  mkWorld (w_next x) (w_socks x) (w_local x) (w_closing x) (w_next_id x) (w_slock x)
    (w_trans x) (w_tlinks x) (w_tlock x) (w_trackers x) (w_lis x) (w_llist x) (w_fde x)
    (w_in x) (f (w_out x)) (w_reg x) (w_reg_answers x) (w_new_answers x)
    (w_local_transports x) (w_usb_log x) (w_opens x) (w_fresh_fds x) (w_junk x).
Definition upd_w_reg (f : list tmsg -> list tmsg) (x : world) : world :=
  mkWorld (w_next x) (w_socks x) (w_local x) (w_closing x) (w_next_id x) (w_slock x)
    (w_trans x) (w_tlinks x) (w_tlock x) (w_trackers x) (w_lis x) (w_llist x) (w_fde x)
    (w_in x) (w_out x) (f (w_reg x)) (w_reg_answers x) (w_new_answers x)
    (w_local_transports x) (w_usb_log x) (w_opens x) (w_fresh_fds x) (w_junk x).
Definition upd_w_reg_answers (f : list bool -> list bool) (x : world) : world :=
  mkWorld (w_next x) (w_socks x) (w_local x) (w_closing x) (w_next_id x) (w_slock x)
    (w_trans x) (w_tlinks x) (w_tlock x) (w_trackers x) (w_lis x) (w_llist x) (w_fde x)
    (w_in x) (w_out x) (w_reg x) (f (w_reg_answers x)) (w_new_answers x)
    (w_local_transports x) (w_usb_log x) (w_opens x) (w_fresh_fds x) (w_junk x).
Definition upd_w_new_answers (f : list bool -> list bool) (x : world) : world :=
  mkWorld (w_next x) (w_socks x) (w_local x) (w_closing x) (w_next_id x) (w_slock x)
    (w_trans x) (w_tlinks x) (w_tlock x) (w_trackers x) (w_lis x) (w_llist x) (w_fde x)
    (w_in x) (w_out x) (w_reg x) (w_reg_answers x) (f (w_new_answers x))
    (w_local_transports x) (w_usb_log x) (w_opens x) (w_fresh_fds x) (w_junk x).
Definition upd_w_local_transports (f : list (option Z) -> list (option Z)) (x : world) : world :=
  mkWorld (w_next x) (w_socks x) (w_local x) (w_closing x) (w_next_id x) (w_slock x)
    (w_trans x) (w_tlinks x) (w_tlock x) (w_trackers x) (w_lis x) (w_llist x) (w_fde x)
    (w_in x) (w_out x) (w_reg x) (w_reg_answers x) (w_new_answers x)
    (f (w_local_transports x)) (w_usb_log x) (w_opens x) (w_fresh_fds x) (w_junk x).
Definition upd_w_usb_log (f : list usb_call -> list usb_call) (x : world) : world :=
  mkWorld (w_next x) (w_socks x) (w_local x) (w_closing x) (w_next_id x) (w_slock x)
    (w_trans x) (w_tlinks x) (w_tlock x) (w_trackers x) (w_lis x) (w_llist x) (w_fde x)
    (w_in x) (w_out x) (w_reg x) (w_reg_answers x) (w_new_answers x) (w_local_transports x)
    (f (w_usb_log x)) (w_opens x) (w_fresh_fds x) (w_junk x).
Definition upd_w_opens (f : list open_req -> list open_req) (x : world) : world :=
  mkWorld (w_next x) (w_socks x) (w_local x) (w_closing x) (w_next_id x) (w_slock x)
    (w_trans x) (w_tlinks x) (w_tlock x) (w_trackers x) (w_lis x) (w_llist x) (w_fde x)
    (w_in x) (w_out x) (w_reg x) (w_reg_answers x) (w_new_answers x) (w_local_transports x)
    (w_usb_log x) (f (w_opens x)) (w_fresh_fds x) (w_junk x).
Definition upd_w_fresh_fds (f : list Z -> list Z) (x : world) : world :=
  mkWorld (w_next x) (w_socks x) (w_local x) (w_closing x) (w_next_id x) (w_slock x)
    (w_trans x) (w_tlinks x) (w_tlock x) (w_trackers x) (w_lis x) (w_llist x) (w_fde x)
    (w_in x) (w_out x) (w_reg x) (w_reg_answers x) (w_new_answers x) (w_local_transports x)
    (w_usb_log x) (w_opens x) (f (w_fresh_fds x)) (w_junk x).
Definition upd_w_junk (f : list Z -> list Z) (x : world) : world :=
  mkWorld (w_next x) (w_socks x) (w_local x) (w_closing x) (w_next_id x) (w_slock x)
    (w_trans x) (w_tlinks x) (w_tlock x) (w_trackers x) (w_lis x) (w_llist x) (w_fde x)
    (w_in x) (w_out x) (w_reg x) (w_reg_answers x) (w_new_answers x) (w_local_transports x)
    (w_usb_log x) (w_opens x) (w_fresh_fds x) (f (w_junk x)).

(** ** Access *)

Definition sock_at (a : Z) : M world asocket := w <- get ;; deref (w_socks w !! a).
Definition set_sock (a : Z) (f : asocket -> asocket) : M world unit :=
  s <- sock_at a ;; modify (upd_w_socks <[a := f s]>).

Definition trans_at (t : Z) : M world atransport := w <- get ;; deref (w_trans w !! t).
Definition set_trans (t : Z) (f : atransport -> atransport) : M world unit :=
  x <- trans_at t ;; modify (upd_w_trans <[t := f x]>).

Definition lis_at (l : Z) : M world alistener := w <- get ;; deref (w_lis w !! l).

(** An address no object has had. *)
Definition alloc : M world Z :=
  w <- get ;; modify (upd_w_next (fun a => a + 1)) ;; ret (w_next w).

(** Mutexes. *)
Definition lock_sockets : M world unit :=
  w <- get ;; if w_slock w then fail EDeadlock else modify (upd_w_slock (fun _ => true)).
Definition unlock_sockets : M world unit := modify (upd_w_slock (fun _ => false)).
Definition lock_transports : M world unit :=
  w <- get ;; if w_tlock w then fail EDeadlock else modify (upd_w_tlock (fun _ => true)).
Definition unlock_transports : M world unit := modify (upd_w_tlock (fun _ => false)).

(** A call of the event module. *)
Definition fde_call {A} (m : M (fdst fd_callback) A) : M world A :=
  fun w => match m (w_fde w) with
           | Ok (a, s) => Ok (a, upd_w_fde (fun _ => s) w)
           | Err e => Err e
           end.

(** The event embedded in a freed object goes with it. *)
Definition free_fde (a : Z) : M world unit := modify (upd_w_fde (set_fdes (delete a))).

(** Descriptors; one never used before has nothing to read and takes everything. *)
Definition no_input : rdfd := mkRd [] [].
Definition no_output : wrfd := mkWr [] [].

Definition fd_read (fd : Z) (len : nat) : M world io_ret :=
  fun w => let '(r, d) := adb_read len (default no_input (w_in w !! fd)) in
           Ok (r, upd_w_in <[fd := d]> w).

Definition fd_write (fd : Z) (buf : list Z) : M world io_ret :=
  fun w => let '(r, d) := adb_write buf (default no_output (w_out w !! fd)) in
           Ok (r, upd_w_out <[fd := d]> w).

Definition fd_out_call {A} (fd : Z) (m : M wrfd A) : M world A :=
  fun w => match m (default no_output (w_out w !! fd)) with
           | Ok (a, d) => Ok (a, upd_w_out <[fd := d]> w)
           | Err e => Err e
           end.

(** The descriptor the kernel answers with; -1 when it fails. *)
Definition open_fd (r : open_req) : M world Z :=
  w <- get ;;
  modify (upd_w_opens (fun l => l ++ [r])) ;;
  match w_fresh_fds w with
  | [] => ret (-1)
  | fd :: l => modify (upd_w_fresh_fds (fun _ => l)) ;; ret fd
  end.

Definition adb_close (fd : Z) : M world unit := modify (upd_w_fde (log_close fd)).

(** [shutdown(fd, SHUT_RDWR)]: whoever reads from the descriptor finds its end. *)
Definition adb_shutdown (fd : Z) : M world unit := modify (upd_w_in <[fd := mkRd [] []]>).

(** A packet from the allocator.  Its array holds MAX_PAYLOAD bytes, whatever
    they are. *)
Definition new_packet : M world apacket :=
  w <- get ;; ret (get_apacket (resize (Z.to_nat MAX_PAYLOAD) 0 (w_junk w))).

(** A packet with the given header and no payload. *)
Definition message (cmd a0 a1 : Z) (p : apacket) : apacket :=
  set_msg (fun m => mkMsg cmd a0 a1 (data_length m) (data_check m) (magic m)) p.
