(* ===== verification/Transports.v ===== *)
(** * Transports (transport.c, transport_local.c, transport_usb.c)

    The list of transports, how one is chosen and listed, reference counts and
    kicks, the registration messages, the disconnect lists, and the two threads
    that pump packets between a transport and the server. *)

From S2P Require Import Prelude Io Wire FdEvent World.

(** ** The transport list *)

(** The list is circular through its head, as are the other intrusive lists of
    the program. *)
Definition transport_list : Z := 0.

Definition tl_next (t : Z) : M world Z := w <- get ;; l <- deref (w_tlinks w !! t) ;; ret l.1.
Definition tl_prev (t : Z) : M world Z := w <- get ;; l <- deref (w_tlinks w !! t) ;; ret l.2.
Definition set_tl_next (t v : Z) : M world unit :=
  p <- tl_prev t ;; modify (upd_w_tlinks <[t := (v, p)]>).
Definition set_tl_prev (t v : Z) : M world unit :=
  n <- tl_next t ;; modify (upd_w_tlinks <[t := (n, v)]>).

(** [t->next->prev = t->prev; t->prev->next = t->next]. *)
Definition tl_unlink (t : Z) : M world unit :=
  n <- tl_next t ;; p <- tl_prev t ;; set_tl_prev n p ;;
  p <- tl_prev t ;; n <- tl_next t ;; set_tl_next p n.

(** [t->next = &transport_list; t->prev = transport_list.prev;
    t->next->prev = t; t->prev->next = t]. *)
Definition tl_append (t : Z) : M world unit :=
  set_tl_next t transport_list ;;
  p <- tl_prev transport_list ;; set_tl_prev t p ;;
  n <- tl_next t ;; set_tl_prev n t ;;
  p <- tl_prev t ;; set_tl_next p t.

(** The transports met by [for(t = transport_list.next; t != &transport_list;
    t = t->next)]. *)
Fixpoint tl_walk (fuel : nat) (t : Z) : M world (list (Z * atransport)) :=
  if t =? transport_list then ret []
  else match fuel with
       | O => fail EFuel
       | S f =>
           x <- trans_at t ;; n <- tl_next t ;; l <- tl_walk f n ;; ret ((t, x) :: l)
       end.

Definition transports : M world (list (Z * atransport)) :=
  t <- tl_next transport_list ;; w <- get ;; tl_walk (size (w_tlinks w)) t.

(** ** Choosing a transport *)

Definition serial_is (serial : list Z) (x : atransport) : bool :=
  match t_serial x with Some s => streq serial s | None => false end.

(** One pass of the loop of [acquire_one_transport] over the list: the result,
    the text [error_out] points to, and the flag [ambiguous]. *)
Fixpoint acquire_scan (ttype : transport_type) (serial : option (list Z))
    (ts : list (Z * atransport)) (result : option (Z * atransport)) (error_out : list Z)
    : option (Z * atransport) * list Z * bool :=
  match ts with
  | [] => (result, error_out, false)
  | (t, x) :: ts =>
      if t_connection_state x =? CS_NOPERM
      then acquire_scan ttype serial ts result (bs "insufficient permissions for device")
      else match serial with
           | Some s =>
               if serial_is s x then (Some (t, x), error_out, false)
               else acquire_scan ttype serial ts result error_out
           | None =>
               if bool_decide (ttype = kTransportUsb) && bool_decide (t_type x = kTransportUsb)
               then match result with
                    | Some _ => (None, bs "more than one device", true)
                    | None => acquire_scan ttype serial ts (Some (t, x)) error_out
                    end
               else if bool_decide (ttype = kTransportLocal)
                       && bool_decide (t_type x = kTransportLocal)
               then match result with
                    | Some _ => (None, bs "more than one emulator", true)
                    | None => acquire_scan ttype serial ts (Some (t, x)) error_out
                    end
               else if bool_decide (ttype = kTransportAny)
               then match result with
                    | Some _ => (None, bs "more than one device and emulator", true)
                    | None => acquire_scan ttype serial ts (Some (t, x)) error_out
                    end
               else acquire_scan ttype serial ts result error_out
           end
  end.

Inductive acquired := Acquired (t : Z) | NotAcquired (err : list Z) | Retry.

(** What follows the loop, up to the jump back to [retry]. *)
Definition acquire_pass (state : Z) (ttype : transport_type) (serial : option (list Z))
    (ts : list (Z * atransport)) : acquired :=
  let '(result, err, ambiguous) := acquire_scan ttype serial ts None (bs "device not found") in
  let no_result err :=
    if negb (state =? CS_ANY) && (bool_decide (is_Some serial) || negb ambiguous)
    then Retry else NotAcquired err in
  match result with
  | None => no_result err
  | Some (t, x) =>
      if t_connection_state x =? CS_OFFLINE then no_result (bs "device offline")
      else if negb (state =? CS_ANY) && negb (t_connection_state x =? state)
      then no_result (bs "invalid device state")
      else Acquired t
  end.

(** The call as the server's own thread makes it, with [CS_ANY]; there the loop
    is left after one pass. *)
Definition acquire_one_transport (state : Z) (ttype : transport_type)
    (serial : option (list Z)) : M world (Z + list Z) :=
  lock_transports ;; ts <- transports ;; unlock_transports ;;
  match acquire_pass state ttype serial ts with
  | Acquired t => ret (inl t)
  | NotAcquired err => ret (inr err)
  | Retry => fail EFuel
  end.

(** The call as [wait_for_state] makes it in a thread of its own: one list of
    transports per pass, as the other threads leave it each time. *)
Fixpoint acquire_waiting (state : Z) (ttype : transport_type) (serial : option (list Z))
    (seen : list (list (Z * atransport))) : option (Z + list Z) :=
  match seen with
  | [] => None
  | ts :: seen =>
      match acquire_pass state ttype serial ts with
      | Acquired t => Some (inl t)
      | NotAcquired err => Some (inr err)
      | Retry => acquire_waiting state ttype serial seen
      end
  end.

(** [wait_for_state]. *)
Definition wait_for_state (state : Z) (ttype : transport_type) (serial : option (list Z))
    (seen : list (list (Z * atransport))) : M wrfd (option bool) :=
  match acquire_waiting state ttype serial seen with
  | Some (inl _) => r <- writex (bs "OKAY") ;; ret (Some r)
  | Some (inr err) => r <- sendfailmsg err ;; ret (Some r)
  | None => ret None
  end.

Definition find_transport (serial : list Z) : M world (option Z) :=
  lock_transports ;; ts <- transports ;; unlock_transports ;;
  ret (fst <$> head (filter (fun tx => serial_is serial tx.2 = true) ts)).

(** ** Listing *)

Definition statename (x : atransport) : list Z :=
  let st := t_connection_state x in
  if st =? CS_OFFLINE then bs "offline"
  else if st =? CS_BOOTLOADER then bs "bootloader"
  else if st =? CS_DEVICE then bs "device"
  else if st =? CS_HOST then bs "host"
  else if st =? CS_RECOVERY then bs "recovery"
  else if st =? CS_NOPERM then bs "no permissions"
  else bs "unknown".

(** The text [snprintf] makes of one transport: ["%s\t%s\n"]. *)
Definition transport_line (x : atransport) : list Z :=
  let serial := match t_serial x with
                | Some (c :: s) => c :: s
                | _ => bs "????????????"
                end in
  serial ++ [9] ++ statename x ++ [10].

(** The loop of [list_transports]; [room] is [end - p]. *)
Fixpoint list_lines (room : Z) (ts : list (Z * atransport)) : list Z :=
  match ts with
  | [] => []
  | (_, x) :: ts =>
      let len := Z.of_nat (length (transport_line x)) in
      if room <=? len then [] else transport_line x ++ list_lines (room - len) ts
  end.

(** The text before the terminating zero; its length is the return value. *)
Definition list_transports (bufsize : Z) : M world (list Z) :=
  lock_transports ;; ts <- transports ;; unlock_transports ;; ret (list_lines bufsize ts).

Definition list_transports_msg (bufferlen : Z) : M world (list Z) :=
  text <- list_transports (bufferlen - 4) ;;
  ret (take 4 (snprintf 5 (hex4 (Z.of_nat (length text)))) ++ text).

(** ** Device trackers: creation and removal *)

Definition device_tracker_remove (tracker : Z) : M world unit :=
  lock_transports ;;
  modify (upd_w_trackers (filter (fun a => a <> tracker))) ;;
  unlock_transports.

Definition create_device_tracker : M world Z :=
  a <- alloc ;;
  modify (upd_w_socks <[a := mkSock 0 false None 0 [] device_tracker_enqueue_p
                               device_tracker_ready_p device_tracker_close_p None true]>) ;;
  modify (upd_w_trackers (cons a)) ;;
  ret a.

(** ** Packets to a transport *)

(** [t_answers] says whether the kernel takes the packet. *)
Definition send_packet (p : apacket) (t : option Z) : M world unit :=
  p <- deref (send_packet_fill p) ;;
  match t with
  | None => fail EFatal
  | Some t =>
      x <- trans_at t ;;
      match t_answers x with
      | false :: _ => fail EFatal
      | _ => set_trans t (fun x => upd_t_queue (fun q => q ++ [p]) (upd_t_answers tail x))
      end
  end.

(** ** Disconnect lists *)

Definition add_transport_disconnect (t : Z) (d : adisconnect) : M world unit :=
  lock_transports ;; set_trans t (upd_t_disconnects (fun l => l ++ [d])) ;; unlock_transports.

(** An entry that is on no list is linked to itself, and stays so. *)
Definition remove_transport_disconnect (t : option Z) (d : adisconnect) : M world unit :=
  t <- deref t ;; set_trans t (upd_t_disconnects (filter (fun e => e <> d))).

(** ** Registration messages, kicks and references *)

Definition transport_message (t action : Z) : M world unit :=
  w <- get ;;
  match w_reg_answers w with
  | false :: _ => fail EFatal
  | _ => modify (upd_w_reg_answers tail) ;; modify (upd_w_reg (fun q => q ++ [mkTmsg t action]))
  end.

Definition register_transport (t : Z) : M world unit := transport_message t 1.
Definition remove_transport (t : Z) : M world unit := transport_message t 0.

Module LocalTransport.

Definition ADB_LOCAL_TRANSPORT_MAX : Z := 16.
Definition ADB_LOCAL_TRANSPORT_PORT : Z := 5555.

(** The first slot that holds [t] is cleared. *)
Fixpoint clear_slot (t : Z) (l : list (option Z)) : list (option Z) :=
  match l with
  | [] => []
  | x :: l => if bool_decide (x = Some t) then None :: l else x :: clear_slot t l
  end.

Definition remote_kick (t : Z) : M world unit :=
  x <- trans_at t ;;
  let fd := t_sfd x in
  set_trans t (upd_t_sfd (fun _ => -1)) ;;
  adb_shutdown fd ;;
  adb_close fd ;;
  modify (upd_w_local_transports (clear_slot t)).

Definition remote_close (t : Z) : M world unit := x <- trans_at t ;; adb_close (t_fd x).

(** [true] is the return value 0. *)
Definition init_socket_transport (t s port : Z) (is_local : bool) : M world bool :=
  set_trans t (fun x => upd_t_sfd (fun _ => s) (upd_t_sync_token (fun _ => 1)
    (upd_t_connection_state (fun _ => CS_OFFLINE) (upd_t_type (fun _ => kTransportLocal) x)))) ;;
  if is_local then
    let index := Z.quot (port - ADB_LOCAL_TRANSPORT_PORT) 2 in
    if (Z.land port 1 =? 0) || (index <? 0) || (ADB_LOCAL_TRANSPORT_MAX <=? index)
    then ret false
    else
      w <- get ;;
      slot <- deref (w_local_transports w !! Z.to_nat index) ;;
      match slot with
      | Some _ => ret false
      | None =>
          modify (upd_w_local_transports <[Z.to_nat index := Some t]>) ;; ret true
      end
  else ret true.

End LocalTransport.

Module UsbTransport.

Definition remote_kick (t : Z) : M world unit :=
  x <- trans_at t ;; modify (upd_w_usb_log (fun l => l ++ [UsbKick (t_usb x)])).

Definition remote_close (t : Z) : M world unit :=
  x <- trans_at t ;;
  modify (upd_w_usb_log (fun l => l ++ [UsbClose (t_usb x)])) ;;
  set_trans t (upd_t_usb (fun _ => None)).

Definition init_usb_transport (t h state : Z) : M world unit :=
  set_trans t (fun x => upd_t_sync_token (fun _ => 1) (upd_t_connection_state (fun _ => state)
    (upd_t_type (fun _ => kTransportUsb) (upd_t_usb (fun _ => Some h) x)))).

End UsbTransport.

(** [t->kick] and [t->close] are set with [t->type], by the two functions
    above. *)
Definition transport_kick (t : Z) : M world unit :=
  x <- trans_at t ;;
  match t_type x with
  | kTransportUsb => UsbTransport.remote_kick t
  | kTransportLocal => LocalTransport.remote_kick t
  | _ => fail EUndef
  end.

Definition transport_close (t : Z) : M world unit :=
  x <- trans_at t ;;
  match t_type x with
  | kTransportUsb => UsbTransport.remote_close t
  | kTransportLocal => LocalTransport.remote_close t
  | _ => fail EUndef
  end.

Definition kick_transport (t : Z) : M world unit :=
  x <- trans_at t ;;
  when (negb (t_kicked x)) (
    lock_transports ;;
    x <- trans_at t ;;
    let kicked := t_kicked x in
    when (negb kicked) (set_trans t (upd_t_kicked (fun _ => true))) ;;
    unlock_transports ;;
    when (negb kicked) (transport_kick t)).

Definition transport_unref (t : Z) : M world unit :=
  lock_transports ;;
  set_trans t (upd_t_ref_count (fun n => n - 1)) ;;
  x <- trans_at t ;;
  when (t_ref_count x =? 0) (
    when (negb (t_kicked x)) (set_trans t (upd_t_kicked (fun _ => true)) ;; transport_kick t) ;;
    transport_close t ;;
    remove_transport t) ;;
  unlock_transports.

(** ** Creating and dropping transports *)

Definition calloc_transport : M world Z :=
  w <- get ;;
  t <- alloc ;;
  modify (upd_w_trans <[t := mkTrans 0 kTransportUsb None None false 0 0 0 0 [] None 0 [] []
                               (w_new_answers w)]>) ;;
  modify (upd_w_tlinks <[t := (0, 0)]>) ;;
  ret t.

Definition free_transport (t : Z) : M world unit :=
  modify (upd_w_trans (delete t)) ;; modify (upd_w_tlinks (delete t)).

Definition register_socket_transport (s : Z) (serial : option (list Z)) (port : Z)
    (is_local : bool) : M world unit :=
  t <- calloc_transport ;;
  ok <- LocalTransport.init_socket_transport t s port is_local ;;
  if (ok : bool) then
    when (bool_decide (is_Some serial)) (set_trans t (upd_t_serial (fun _ => serial))) ;;
    register_transport t
  else adb_close s ;; free_transport t.

Definition unregister_transport (t : Z) : M world unit :=
  lock_transports ;; tl_unlink t ;; unlock_transports ;;
  kick_transport t ;;
  transport_unref t.

Definition register_usb_transport (usb : Z) (serial : option (list Z)) (writeable : bool)
    : M world unit :=
  t <- calloc_transport ;;
  UsbTransport.init_usb_transport t usb (if writeable then CS_OFFLINE else CS_NOPERM) ;;
  when (bool_decide (is_Some serial)) (set_trans t (upd_t_serial (fun _ => serial))) ;;
  register_transport t.

Definition unregister_usb_transport (usb : Z) : M world unit :=
  lock_transports ;;
  ts <- transports ;;
  match head (filter (fun tx => t_usb tx.2 = Some usb /\ t_connection_state tx.2 = CS_NOPERM) ts) with
  | Some (t, _) => tl_unlink t
  | None => ret tt
  end ;;
  unlock_transports.

Fixpoint kick_all (ts : list (Z * atransport)) : M world unit :=
  match ts with
  | [] => ret tt
  | (t, _) :: ts =>
      x <- trans_at t ;;
      when (negb (t_kicked x)) (set_trans t (upd_t_kicked (fun _ => true)) ;; transport_kick t) ;;
      kick_all ts
  end.

Definition close_usb_devices : M world unit :=
  lock_transports ;; ts <- transports ;; kick_all ts ;; unlock_transports.

(** [local_connect]: [adbhost] is the environment variable ADBHOST. *)
Definition local_connect (adbhost : option (list Z)) (port : Z) : M world bool :=
  fd <- match adbhost with
        | Some host => open_fd (OpenNetworkClient host port)
        | None => ret (-1)
        end ;;
  fd <- (if fd <? 0 then open_fd (OpenLoopbackClient port) else ret fd) ;;
  if 0 <=? fd then
    let buf := snprintf 64 (bs "emulator-" ++ fmt_d (port - 1)) in
    register_socket_transport fd (Some buf) port true ;;
    ret true
  else ret false.

(** The host side of [client_socket_thread]: ports 5555, 5557, ... *)
Fixpoint connect_emulators (adbhost : option (list Z)) (count : nat) (port : Z) : M world unit :=
  match count with
  | O => ret tt
  | S c => local_connect adbhost port ;; connect_emulators adbhost c (port + 2)
  end.

Definition client_socket_thread (adbhost : option (list Z)) : M world unit :=
  connect_emulators adbhost (Z.to_nat LocalTransport.ADB_LOCAL_TRANSPORT_MAX)
    LocalTransport.ADB_LOCAL_TRANSPORT_PORT.

(** ** The packet pumps *)

(** One packet the input thread takes from the socket pair: [None] leaves the
    loop, [Some (active', o)] goes on, with [o] written to the remote. *)
Definition input_thread_step (sync_token : Z) (active : bool) (p : apacket)
    : option (bool * option apacket) :=
  if command (msg p) =? A_SYNC then
    if arg0 (msg p) =? 0 then None
    else if arg1 (msg p) =? u32 sync_token then Some (true, None)
    else Some (active, None)
  else if active then Some (active, Some p)
  else Some (active, None).

(** The input thread's loop over what it reads from the socket pair, [None] where
    the read fails: what it writes to the remote, and whether it has left the
    loop. *)
Fixpoint input_thread (sync_token : Z) (active : bool) (q : list (option apacket))
    : list apacket * bool :=
  match q with
  | [] => ([], false)
  | None :: _ => ([], true)
  | Some p :: q =>
      match input_thread_step sync_token active p with
      | None => ([], true)
      | Some (active, o) =>
          let '(l, stop) := input_thread sync_token active q in
          (match o with Some p => p :: l | None => l end, stop)
      end
  end.

(** SYNC(arg0, arg1), with the magic the pump fills in itself. *)
Definition sync_packet (junk : list Z) (a0 a1 : Z) : apacket :=
  mkPkt 0 0 (mkMsg A_SYNC a0 a1 0 0 (Z.lxor A_SYNC 0xffffffff)) junk.

Section output.
Context (read_from_remote : apacket -> M rdfd (option apacket)) (junk : list Z).

(** Whether the next write to the socket pair succeeds; the script says yes when
    it has ended. *)
Definition writes_ok (writes : list bool) : bool := match writes with b :: _ => b | [] => true end.

(** The loop of the output thread: the packets it queues, and the rest of the
    script when a read failed, [None] after a failed write. *)
Fixpoint output_loop (fuel : nat) (writes : list bool) : M rdfd (list apacket * option (list bool)) :=
  match fuel with
  | O => fail EFuel
  | S f =>
      r <- read_from_remote (get_apacket junk) ;;
      match r with
      | Some p =>
          if writes_ok writes
          then lw <- output_loop f (tail writes) ;; ret (p :: lw.1, lw.2)
          else ret ([], None)
      | None => ret ([], Some writes)
      end
  end.

(** The packets the output thread queues for the server, from SYNC(1, token) to
    SYNC(0, 0), and the new token. *)
Definition output_thread (fuel : nat) (writes : list bool) (sync_token : Z)
    : M rdfd (list apacket * Z) :=
  let sync_token := sync_token + 1 in
  if writes_ok writes then
    lw <- output_loop fuel (tail writes) ;;
    let '(l, o) := lw in
    let off := match o with
               | Some writes => if writes_ok writes then [sync_packet junk 0 0] else []
               | None => []
               end in
    ret (sync_packet junk 1 (u32 sync_token) :: l ++ off, sync_token)
  else ret ([], sync_token).

End output.
