(* ===== verification/Listeners.v ===== *)
(** * Listeners (adb.c)

    A listener waits for connections on a local port and forwards each to a
    service of a transport, or to a smart socket. *)

From S2P Require Import Prelude Io Wire FdEvent World Transports.

(** The embedded entry [l->disconnect] of a listener. *)
Definition listener_entry (l : Z) : adisconnect := listener_disconnect_p l.

Definition free_listener (l : Z) : M world unit :=
  x <- lis_at l ;;
  modify (upd_w_llist (filter (fun a => a <> l))) ;;
  fde_call (fdevent_remove l) ;;
  match l_transport x with
  | Some t => remove_transport_disconnect (Some t) (listener_entry l)
  | None => ret tt
  end ;;
  modify (upd_w_lis (delete l)) ;;
  free_fde l.

Definition listener_disconnect (l : Z) : M world unit := free_listener l.

(** The name spaces of local sockets. *)
Definition ANDROID_SOCKET_NAMESPACE_ABSTRACT : Z := 0.
Definition ANDROID_SOCKET_NAMESPACE_RESERVED : Z := 1.
Definition ANDROID_SOCKET_NAMESPACE_FILESYSTEM : Z := 2.

Definition local_name_to_fd (name : list Z) : M world Z :=
  if prefixb (bs "tcp:") name then open_fd (OpenLoopbackServer (atoi (drop 4 name)))
  else if prefixb (bs "local:") name
  then open_fd (OpenLocalServer (drop 6 name) ANDROID_SOCKET_NAMESPACE_ABSTRACT)
  else if prefixb (bs "localabstract:") name
  then open_fd (OpenLocalServer (drop 14 name) ANDROID_SOCKET_NAMESPACE_ABSTRACT)
  else if prefixb (bs "localfilesystem:") name
  then open_fd (OpenLocalServer (drop 16 name) ANDROID_SOCKET_NAMESPACE_FILESYSTEM)
  else ret (-1).

(** The first listener of the list whose fields satisfy [ok]. *)
Fixpoint find_listener (ok : alistener -> bool) (ls : list Z) : M world (option Z) :=
  match ls with
  | [] => ret None
  | l :: ls => x <- lis_at l ;; if ok x then ret (Some l) else find_listener ok ls
  end.

Definition is_forward (local_name connect_to : list Z) (transport : Z) (x : alistener) : bool :=
  streq local_name (l_local_name x) && streq connect_to (l_connect_to x)
  && bool_decide (l_transport x = Some transport).

Definition remove_listener (local_name connect_to : list Z) (transport : Z) : M world Z :=
  w <- get ;;
  o <- find_listener (is_forward local_name connect_to transport) (w_llist w) ;;
  match o with
  | Some l => listener_disconnect l ;; ret 0
  | None => ret (-1)
  end.

(** Binding an existing listener to another destination. *)
Definition rebind_listener (l : Z) (connect_to : list Z) (transport : option Z) : M world Z :=
  x <- lis_at l ;;
  match l_connect_to x with
  | 42 :: _ => ret (-1)
  | _ =>
      modify (upd_w_lis <[l := upd_l_connect_to (fun _ => connect_to) x]>) ;;
      when (negb (bool_decide (l_transport x = transport))) (
        remove_transport_disconnect (l_transport x) (listener_entry l) ;;
        x <- lis_at l ;;
        modify (upd_w_lis <[l := upd_l_transport (fun _ => transport) x]>) ;;
        t <- deref transport ;;
        add_transport_disconnect t (listener_entry l)) ;;
      ret 0
  end.

Definition install_listener (local_name connect_to : list Z) (transport : option Z) : M world Z :=
  w <- get ;;
  o <- find_listener (fun x => streq local_name (l_local_name x)) (w_llist w) ;;
  match o with
  | Some l => rebind_listener l connect_to transport
  | None =>
      l <- alloc ;;
      fd <- local_name_to_fd local_name ;;
      if fd <? 0 then ret (-2)
      else
        fde_call (fdevent_install l fd
                    (if streq connect_to (bs "*smartsocket*") then ss_listener_event_func_p
                     else listener_event_func_p) l) ;;
        fde_call (fdevent_set l FDE_READ) ;;
        modify (upd_w_lis <[l := mkLis fd local_name connect_to transport]>) ;;
        modify (upd_w_llist (fun ls => ls ++ [l])) ;;
        match transport with
        | Some t => add_transport_disconnect t (listener_entry l)
        | None => ret tt
        end ;;
        ret 0
  end.
