(* ===== verification/HostRequest.v ===== *)
(** * Requests to the adb server (adb.c)

    [handle_host_request] answers the services a client names with the prefix
    "host:" and its variants. *)

From S2P Require Import Prelude Io Wire FdEvent World Transports Listeners.

Definition ADB_SERVER_VERSION : Z := 26.

Definition connection_state_name (x : option atransport) : list Z :=
  match x with
  | None => bs "unknown"
  | Some x =>
      let st := t_connection_state x in
      if st =? CS_BOOTLOADER then bs "bootloader"
      else if st =? CS_DEVICE then bs "device"
      else if st =? CS_OFFLINE then bs "offline"
      else bs "unknown"
  end.

(** ["OKAY%04x%s"] into a buffer of 4096 bytes, written up to the zero. *)
Definition okay_message (text : list Z) : list Z :=
  snprintf 4096 (bs "OKAY" ++ hex4 (Z.of_nat (length text)) ++ text).

Definition reply (fd : Z) (text : list Z) : M world unit :=
  _ <- fd_out_call fd (writex (okay_message text)) ;; ret tt.

Definition reply_fail (fd : Z) (reason : list Z) : M world unit :=
  _ <- fd_out_call fd (sendfailmsg reason) ;; ret tt.

(** The type and the serial number a "transport" service asks for. *)
Definition transport_request (service : list Z) (serial : option (list Z))
    : transport_type * option (list Z) :=
  if prefixb (bs "transport-usb") service then (kTransportUsb, serial)
  else if prefixb (bs "transport-local") service then (kTransportLocal, serial)
  else if prefixb (bs "transport-any") service then (kTransportAny, serial)
  else if prefixb (bs "transport:") service then (kTransportAny, Some (drop 10 service))
  else (kTransportAny, serial).

(** "connect:": the text of the reply. *)
Definition host_connect (host : list Z) : M world (list Z) :=
  match strchr 58 host with
  | None => ret (snprintf 4096 (bs "unable to parse " ++ host ++ bs " as <host>:<port>"))
  | Some (name, portstr) =>
      known <- find_transport host ;;
      if (bool_decide (is_Some known) : bool)
      then ret (snprintf 4096 (bs "Already connected to " ++ host))
      else
        match sscanf_d portstr with
        | ScanEof => fail EUndef
        | ScanNone => ret (snprintf 4096 (bs "bad port number " ++ portstr))
        | ScanInt port =>
            fd <- open_fd (OpenNetworkClient name port) ;;
            if fd <? 0
            then ret (snprintf 4096 (bs "unable to connect to " ++ name ++ bs ":" ++ fmt_d port))
            else
              let serial := snprintf 4096 (name ++ bs ":" ++ fmt_d port) in
              register_socket_transport fd (Some serial) port false ;;
              ret (snprintf 4096 (bs "connected to " ++ name ++ bs ":" ++ fmt_d port))
        end
  end.

(** "disconnect:": the text of the reply. *)
Definition host_disconnect (serial : list Z) : M world (list Z) :=
  o <- find_transport serial ;;
  match o with
  | Some t => unregister_transport t ;; ret []
  | None => ret (snprintf 4096 (bs "No such device " ++ serial))
  end.

(** "forward:" and "killforward:". *)
Definition host_forward (create : bool) (spec : list Z) (ttype : transport_type)
    (serial : option (list Z)) (reply_fd : Z) : M world unit :=
  match strchr 59 spec with
  | None => reply_fail reply_fd (bs "malformed forward spec")
  | Some (local_name, remote) =>
      if bool_decide (local_name = []) || bool_decide (remote = [])
         || bool_decide (head remote = Some 42)
      then reply_fail reply_fd (bs "malformed forward spec")
      else
        a <- acquire_one_transport CS_ANY ttype serial ;;
        match a with
        | inr err => reply_fail reply_fd err
        | inl t =>
            r <- (if create then install_listener local_name remote (Some t)
                  else remove_listener local_name remote t) ;;
            if r =? 0 then _ <- fd_out_call reply_fd (writex (bs "OKAYOKAY")) ;; ret tt
            else reply_fail reply_fd
                   (if create then
                      if r =? -1 then bs "cannot rebind smartsocket" else bs "cannot bind socket"
                    else bs "cannot remove listener")
        end
  end.

(** The return value: 0 or 1 when the request is handled, -1 when it is none of
    these.  [s] is the smart socket, [adbhost] the variable ADBHOST. *)
Definition handle_host_request (adbhost : option (list Z)) (service : list Z)
    (ttype : transport_type) (serial : option (list Z)) (reply_fd : Z) (s : Z) : M world Z :=
  if streq service (bs "kill") then _ <- fd_write reply_fd (bs "OKAY") ;; fail EFatal
  else if prefixb (bs "transport") service then
    let '(type, serial) := transport_request service serial in
    a <- acquire_one_transport CS_ANY type serial ;;
    match a with
    | inl t =>
        set_sock s (upd_s_transport (fun _ => Some t)) ;;
        _ <- fd_write reply_fd (bs "OKAY") ;; ret 1
    | inr err => reply_fail reply_fd err ;; ret 1
    end
  else if streq service (bs "devices") then
    text <- list_transports 4096 ;; reply reply_fd text ;; ret 0
  else if prefixb (bs "connect:") service then
    text <- host_connect (drop 8 service) ;; reply reply_fd text ;; ret 0
  else if prefixb (bs "disconnect:") service then
    text <- host_disconnect (drop 11 service) ;; reply reply_fd text ;; ret 0
  else if streq service (bs "version") then
    reply reply_fd (snprintf 12 (hex4 ADB_SERVER_VERSION)) ;; ret 0
  else if prefixb (bs "get-serialno") service then
    a <- acquire_one_transport CS_ANY ttype serial ;;
    out <- match a with
           | inl t => x <- trans_at t ;; ret (default (bs "unknown") (t_serial x))
           | inr _ => ret (bs "unknown")
           end ;;
    reply reply_fd out ;; ret 0
  else if prefixb (bs "emulator:") service then
    local_connect adbhost (atoi (drop 9 service)) ;; ret 0
  else if prefixb (bs "forward:") service then
    host_forward true (drop 8 service) ttype serial reply_fd ;; ret 0
  else if prefixb (bs "killforward:") service then
    host_forward false (drop 12 service) ttype serial reply_fd ;; ret 0
  else if prefixb (bs "get-state") service then
    a <- acquire_one_transport CS_ANY ttype serial ;;
    x <- match a with inl t => x <- trans_at t ;; ret (Some x) | inr _ => ret None end ;;
    reply reply_fd (connection_state_name x) ;; ret 0
  else ret (-1).
