(* ===== verification/Sockets.v ===== *)
(** * Sockets (sockets.c, and the socket side of the device trackers)

    A local socket stands for a descriptor, a remote socket for the far end of
    a stream over a transport, a smart socket reads a request from its peer.
    Sockets come in pairs of peers that pass packets to each other through the
    functions stored in them. *)

From S2P Require Import Prelude Io Wire FdEvent World Transports Listeners HostRequest.

(** ** The socket lists *)

Fixpoint find_in (id : Z) (l : list Z) : M world (option Z) :=
  match l with
  | [] => ret None
  | a :: l => s <- sock_at a ;; if s_id s =? id then ret (Some a) else find_in id l
  end.

Definition find_local_socket (id : Z) : M world (option Z) :=
  lock_sockets ;; w <- get ;; r <- find_in id (w_local w) ;; unlock_sockets ;; ret r.

(** [insert_local_socket] with each of the two list heads. *)
Definition insert_local_socket (s : Z) : M world unit := modify (upd_w_local (fun l => l ++ [s])).
Definition insert_closing_socket (s : Z) : M world unit :=
  modify (upd_w_closing (fun l => l ++ [s])).

Definition install_local_socket (s : Z) : M world unit :=
  lock_sockets ;;
  w <- get ;;
  set_sock s (upd_s_id (fun _ => w_next_id w)) ;;
  modify (upd_w_next_id (fun n => u32 (n + 1))) ;;
  insert_local_socket s ;;
  unlock_sockets.

Definition on_list (s : Z) (w : world) : bool :=
  bool_decide (s ∈ w_local w) || bool_decide (s ∈ w_closing w).

Definition remove_socket (s : Z) : M world unit :=
  w <- get ;;
  when (on_list s w) (
    modify (upd_w_local (filter (fun a => a <> s))) ;;
    modify (upd_w_closing (filter (fun a => a <> s))) ;;
    set_sock s (upd_s_id (fun _ => 0))).

Definition free_sock (s : Z) : M world unit := modify (upd_w_socks (delete s)) ;; free_fde s.

(** ** Closing *)

Definition local_socket_destroy (s : Z) : M world unit :=
  fde_call (fdevent_remove s) ;; remove_socket s ;; free_sock s.

(** [p->peer = 0]. *)
Definition clear_peer (p : Z) : M world unit := set_sock p (upd_s_peer (fun _ => None)).

(** The end of [local_socket_close_locked], once the peer is dealt with: the
    socket is destroyed, or kept until its packets are written. *)
Definition local_socket_finish (s : Z) : M world unit :=
  x <- sock_at s ;;
  if s_closing x || bool_decide (s_pkts x = []) then local_socket_destroy s
  else
    set_sock s (upd_s_closing (fun _ => true)) ;;
    fde_call (fdevent_del s FDE_READ) ;;
    remove_socket s ;;
    insert_closing_socket s.

Section close_functions.
(** [close p] is [p->close(p)], [close_locked p] is [local_socket_close_locked(p)]. *)
Context (close close_locked : Z -> M world unit).

Definition local_socket_close_locked (s : Z) : M world unit :=
  x <- sock_at s ;;
  match s_peer x with
  | Some p =>
      clear_peer p ;;
      y <- sock_at p ;;
      if bool_decide (s_close y = local_socket_close_p) then close_locked p else close p
  | None => ret tt
  end ;;
  local_socket_finish s.

Definition local_socket_close (s : Z) : M world unit :=
  lock_sockets ;; close_locked s ;; unlock_sockets.

Definition local_socket_close_notify (s : Z) : M world unit :=
  set_sock s (fun x => upd_s_ready (fun _ => local_socket_ready_p)
                         (upd_s_close (fun _ => local_socket_close_p) x)) ;;
  x <- sock_at s ;;
  _ <- fd_out_call (s_fd x) (sendfailmsg (bs "closed")) ;;
  close s.

Definition remote_socket_close (s : Z) : M world unit :=
  p <- new_packet ;;
  x <- sock_at s ;;
  id <- match s_peer x with
        | Some q => y <- sock_at q ;; clear_peer q ;; close q ;; ret (s_id y)
        | None => ret 0
        end ;;
  x <- sock_at s ;;
  send_packet (message A_CLSE id (s_id x) p) (s_transport x) ;;
  remove_transport_disconnect (s_transport x) (remote_socket_disconnect_p s) ;;
  free_sock s.

Definition remote_socket_disconnect (s : Z) : M world unit :=
  x <- sock_at s ;;
  match s_peer x with
  | Some q => clear_peer q ;; close q
  | None => ret tt
  end ;;
  x <- sock_at s ;;
  remove_transport_disconnect (s_transport x) (remote_socket_disconnect_p s) ;;
  free_sock s.

Definition smart_socket_close (s : Z) : M world unit :=
  x <- sock_at s ;;
  match s_peer x with
  | Some q => clear_peer q ;; close q
  | None => ret tt
  end ;;
  free_sock s.

Definition device_tracker_close (s : Z) : M world unit :=
  x <- sock_at s ;;
  match s_peer x with
  | Some q => clear_peer q ;; close q
  | None => ret tt
  end ;;
  device_tracker_remove s ;;
  free_sock s.

(** [s->close(s)]. *)
Definition call_close (s : Z) : M world unit :=
  x <- sock_at s ;;
  match s_close x with
  | local_socket_close_p => local_socket_close s
  | local_socket_close_notify_p => local_socket_close_notify s
  | remote_socket_close_p => remote_socket_close s
  | smart_socket_close_p => smart_socket_close s
  | device_tracker_close_p => device_tracker_close s
  end.

End close_functions.

(** The functions tied together: [sock_close b] is [s->close(s)], or
    [local_socket_close_locked(s)] when [b] holds. *)
Fixpoint sock_close_n (n : nat) (locked : bool) (s : Z) : M world unit :=
  match n with
  | O => fail EFuel
  | S n =>
      (if locked then local_socket_close_locked else call_close)
        (sock_close_n n false) (sock_close_n n true) s
  end.

(** Closing calls itself for the peer, whose own peer is gone by then; a local
    socket takes one more call for the lock, and one for the failure message.
    Eight levels are more than any such chain has. *)
Definition sock_close (s : Z) : M world unit := sock_close_n 8 false s.
Definition close_locked (s : Z) : M world unit := sock_close_n 8 true s.

(** [close_all_sockets]: closing changes the list, so the search starts anew. *)
Fixpoint find_using (t : Z) (l : list Z) : M world (option Z) :=
  match l with
  | [] => ret None
  | a :: l =>
      x <- sock_at a ;;
      hit <- (if bool_decide (s_transport x = Some t) then ret true
              else match s_peer x with
                   | Some q => y <- sock_at q ;; ret (bool_decide (s_transport y = Some t))
                   | None => ret false
                   end) ;;
      if (hit : bool) then ret (Some a) else find_using t l
  end.

Fixpoint close_using (fuel : nat) (t : Z) : M world unit :=
  w <- get ;;
  o <- find_using t (w_local w) ;;
  match o with
  | None => ret tt
  | Some s =>
      match fuel with
      | O => fail EFuel
      | S f => close_locked s ;; close_using f t
      end
  end.

Definition close_all_sockets (t : Z) : M world unit :=
  lock_sockets ;; w <- get ;; close_using (length (w_local w)) t ;; unlock_sockets.

(** ** Writing packets to a descriptor *)

(** [p->len] bytes at [p->ptr]; reading outside [p->data] is undefined. *)
Definition pkt_bytes (p : apacket) : option (list Z) :=
  if (0 <=? pk_off p) && (pk_off p + pk_len p <=? Z.of_nat (length (pk_data p)))
  then Some (take (Z.to_nat (pk_len p)) (drop (Z.to_nat (pk_off p)) (pk_data p)))
  else None.

(** [p->len -= r; p->ptr += r]. *)
Definition advance (r : nat) (p : apacket) : apacket :=
  mkPkt (pk_len p - Z.of_nat r) (pk_off p + Z.of_nat r) (msg p) (pk_data p).

(** How a loop of writes ends: everything written, [EAGAIN], or end of file and
    other errors. *)
Inductive wrote := WDone | WBlock | WClosed.

(** The loop [while(p->len > 0)] of [local_socket_enqueue] ([eintr] false) and of
    [local_socket_event_func] ([eintr] true: it goes on after [EINTR]). *)
Fixpoint write_loop (fuel : nat) (eintr : bool) (fd : Z) (p : apacket) : M world (apacket * wrote) :=
  if 0 <? pk_len p then
    match fuel with
    | O => fail EFuel
    | S f =>
        buf <- deref (pkt_bytes p) ;;
        r <- fd_write fd buf ;;
        match r with
        | Got (b :: l) => write_loop f eintr fd (advance (length (b :: l)) p)
        | Failed EAGAIN => ret (p, WBlock)
        | Failed EINTR => if eintr then write_loop f eintr fd p else ret (p, WClosed)
        | _ => ret (p, WClosed)
        end
    end
  else ret (p, WDone).

(** Each write uses one answer of the descriptor, and one that has none left
    takes everything. *)
Definition write_packet_to (eintr : bool) (fd : Z) (p : apacket) : M world (apacket * wrote) :=
  w <- get ;;
  write_loop (S (length (wr_script (default no_output (w_out w !! fd))))) eintr fd p.

(** [p->ptr = p->data]. *)
Definition rewind (p : apacket) : apacket := mkPkt (pk_len p) 0 (msg p) (pk_data p).

(** Adding to the tail of the queue, and asking to be told when to drain it. *)
Definition queue_packet (s : Z) (p : apacket) : M world Z :=
  set_sock s (upd_s_pkts (fun q => q ++ [p])) ;;
  fde_call (fdevent_add s FDE_WRITE) ;;
  ret 1.

Definition local_socket_enqueue (s : Z) (p : apacket) : M world Z :=
  let p := rewind p in
  x <- sock_at s ;;
  match s_pkts x with
  | _ :: _ => queue_packet s p
  | [] =>
      r <- write_packet_to false (s_fd x) p ;;
      let '(p, res) := r in
      match res with
      | WClosed => sock_close s ;; ret 1
      | _ => if pk_len p =? 0 then ret 0 else queue_packet s p
      end
  end.

Definition local_socket_ready (s : Z) : M world unit :=
  _ <- sock_at s ;; fde_call (fdevent_add s FDE_READ).

Definition local_socket_ready_notify (s : Z) : M world unit :=
  set_sock s (fun x => upd_s_ready (fun _ => local_socket_ready_p)
                         (upd_s_close (fun _ => local_socket_close_p) x)) ;;
  x <- sock_at s ;;
  _ <- fd_write (s_fd x) (bs "OKAY") ;;
  local_socket_ready s.

(** ** Creation *)

Definition create_local_socket (fd : Z) : M world Z :=
  s <- alloc ;;
  modify (upd_w_socks <[s := mkSock 0 false None fd [] local_socket_enqueue_p
                               local_socket_ready_p local_socket_close_p None false]>) ;;
  install_local_socket s ;;
  fde_call (fdevent_install s fd local_socket_event_func_p s) ;;
  ret s.

Definition create_remote_socket (id : Z) (t : Z) : M world Z :=
  s <- alloc ;;
  modify (upd_w_socks <[s := mkSock id false None 0 [] remote_socket_enqueue_p
                               remote_socket_ready_p remote_socket_close_p (Some t) false]>) ;;
  add_transport_disconnect t (remote_socket_disconnect_p s) ;;
  ret s.

Definition create_smart_socket : M world Z :=
  s <- alloc ;;
  modify (upd_w_socks <[s := mkSock 0 false None 0 [] smart_socket_enqueue_p
                               smart_socket_ready_p smart_socket_close_p None false]>) ;;
  ret s.

(** Making two sockets each other's peers. *)
Definition set_peer (s : Z) (p : option Z) : M world unit := set_sock s (upd_s_peer (fun _ => p)).

Definition connect_to_remote (s : Z) (destination : list Z) : M world unit :=
  p <- new_packet ;;
  let len := Z.of_nat (length destination) + 1 in
  if MAX_PAYLOAD - 1 <? len then fail EFatal
  else
    x <- sock_at s ;;
    p <- put_data (destination ++ [0]) p ;;
    send_packet (set_msg (fun m => mkMsg A_OPEN (s_id x) (arg1 m) len (data_check m) (magic m)) p)
      (s_transport x).

(** ** Services *)

(** The host side of [service_to_fd]. *)
Definition service_to_fd (name : list Z) : M world Z :=
  if prefixb (bs "tcp:") name then
    let port := atoi (drop 4 name) in
    match strchr 58 (drop 4 name) with
    | None => open_fd (OpenLoopbackClient port)
    | Some (_, host) => open_fd (OpenNetworkClient host port)
    end
  else if prefixb (bs "local:") name
  then open_fd (OpenLocalClient (drop 6 name) ANDROID_SOCKET_NAMESPACE_RESERVED)
  else if prefixb (bs "localreserved:") name
  then open_fd (OpenLocalClient (drop 14 name) ANDROID_SOCKET_NAMESPACE_RESERVED)
  else if prefixb (bs "localabstract:") name
  then open_fd (OpenLocalClient (drop 14 name) ANDROID_SOCKET_NAMESPACE_ABSTRACT)
  else if prefixb (bs "localfilesystem:") name
  then open_fd (OpenLocalClient (drop 16 name) ANDROID_SOCKET_NAMESPACE_FILESYSTEM)
  else if prefixb (bs "dns:") name then open_fd (OpenServiceThread name)
  else ret (-1).

Definition create_local_service_socket (name : list Z) : M world (option Z) :=
  fd <- service_to_fd name ;;
  if fd <? 0 then ret None else s <- create_local_socket fd ;; ret (Some s).

(** The thread of a "wait-for-" service answers on the descriptor.  A failed
    [create_service_thread] returns -1, which is not tested. *)
Definition host_service_to_socket (name : list Z) : M world (option Z) :=
  if streq name (bs "track-devices") then s <- create_device_tracker ;; ret (Some s)
  else if prefixb (bs "wait-for-") name then
    let kind := drop 9 name in
    if prefixb (bs "local") kind || prefixb (bs "usb") kind || prefixb (bs "any") kind then
      fd <- open_fd (OpenServiceThread name) ;;
      s <- create_local_socket fd ;; ret (Some s)
    else ret None
  else ret None.

(** ** Sockets of a transport *)

Definition remote_socket_enqueue (s : Z) (p : apacket) : M world Z :=
  x <- sock_at s ;;
  peer <- deref (s_peer x) ;;
  y <- sock_at peer ;;
  send_packet (set_msg (fun m => mkMsg A_WRTE (s_id y) (s_id x) (u32 (pk_len p)) (data_check m)
                                   (magic m)) p) (s_transport x) ;;
  ret 1.

Definition remote_socket_ready (s : Z) : M world unit :=
  p <- new_packet ;;
  x <- sock_at s ;;
  peer <- deref (s_peer x) ;;
  y <- sock_at peer ;;
  send_packet (message A_OKAY (s_id y) (s_id x) p) (s_transport x).

(** ** Requests *)

Fixpoint unhex_loop (s : list Z) (len : nat) (n : Z) : option Z :=
  match len with
  | O => Some n
  | S l =>
      match s with
      | [] => None
      | c :: s =>
          if (48 <=? c) && (c <=? 57) then unhex_loop s l (u32 (Z.lor (Z.shiftl n 4) (c - 48)))
          else if (97 <=? c) && (c <=? 102)
          then unhex_loop s l (u32 (Z.lor (Z.shiftl n 4) (c - 97 + 10)))
          else if (65 <=? c) && (c <=? 70)
          then unhex_loop s l (u32 (Z.lor (Z.shiftl n 4) (c - 65 + 10)))
          else Some 0xffffffff
      end
  end.

(** [None] when [len] bytes are not there to read. *)
Definition unhex (s : list Z) (len : nat) : option Z := unhex_loop s len 0.

(** [p->data + p->len] receives the bytes of [q]. *)
Definition append_data (p q : apacket) : apacket :=
  let a := Z.to_nat (pk_len p) in
  let b := take (Z.to_nat (pk_len q)) (pk_data q) in
  mkPkt (pk_len p + pk_len q) (pk_off p) (msg p)
    (take a (pk_data p) ++ b ++ drop (a + length b) (pk_data p)).

(** What the bytes received so far amount to. *)
Inductive request := NeedMore | BadSize | Service (name : list Z).

Definition parse_request (p : apacket) : option request :=
  if pk_len p <? 4 then Some NeedMore
  else
    match unhex (pk_data p) 4 with
    | None => None
    | Some len =>
        if (len <? 1) || (1024 <? len) then Some BadSize
        else if pk_len p <? u32 (len + 4) then Some NeedMore
        else Some (Service (cstr (take (Z.to_nat len) (drop 4 (pk_data p)))))
    end.

(** The "host" prefixes: the service, the kind of transport and the serial. *)
Definition host_prefix (service : list Z)
    : option (list Z * transport_type * option (list Z)) :=
  if prefixb (bs "host-serial:") service then
    match strchr 58 (drop 12 service) with
    | Some (serial, rest) => Some (rest, kTransportAny, Some serial)
    | None => Some (drop 12 service, kTransportAny, None)
    end
  else if prefixb (bs "host-usb:") service then Some (drop 9 service, kTransportUsb, None)
  else if prefixb (bs "host-local:") service then Some (drop 11 service, kTransportLocal, None)
  else if prefixb (bs "host:") service then Some (drop 5 service, kTransportAny, None)
  else None.

(** Storing what has arrived in [s->pkt_first]: [None] when it is too much. *)
Definition gather (s : Z) (p : apacket) : M world (option apacket) :=
  x <- sock_at s ;;
  match s_pkts x with
  | [] => set_sock s (upd_s_pkts (fun _ => [p])) ;; ret (Some p)
  | q :: _ =>
      if MAX_PAYLOAD <? pk_len q + pk_len p then ret None
      else
        let q := append_data q p in
        set_sock s (upd_s_pkts (fun l => q :: tail l)) ;; ret (Some q)
  end.

(** [fail:] *)
Definition smart_fail (s : Z) : M world Z := sock_close s ;; ret (-1).

Section enqueue_functions.
(** [enqueue s p] is [s->enqueue(s, p)]; [adbhost] is the variable ADBHOST. *)
Context (enqueue : Z -> apacket -> M world Z) (adbhost : option (list Z)).

Definition device_tracker_send (tracker : Z) (buffer : list Z) : M world Z :=
  p <- new_packet ;;
  x <- sock_at tracker ;;
  peer <- deref (s_peer x) ;;
  p <- put_data buffer p ;;
  enqueue peer (mkPkt (Z.of_nat (length buffer)) (pk_off p) (msg p) (pk_data p)).

Definition device_tracker_ready (s : Z) : M world unit :=
  x <- sock_at s ;;
  when (s_update x) (
    set_sock s (upd_s_update (fun _ => false)) ;;
    buffer <- list_transports_msg 1024 ;;
    _ <- device_tracker_send s buffer ;; ret tt).

(** [s->ready(s)]. *)
Definition call_ready (s : Z) : M world unit :=
  x <- sock_at s ;;
  match s_ready x with
  | local_socket_ready_p => local_socket_ready s
  | local_socket_ready_notify_p => local_socket_ready_notify s
  | remote_socket_ready_p => remote_socket_ready s
  | smart_socket_ready_p => ret tt
  | device_tracker_ready_p => device_tracker_ready s
  end.

(** A service of the server itself: the peer becomes an ordinary local socket
    bound to the socket of the service. *)
Definition smart_bind (s peer : Z) (s2 : Z) : M world Z :=
  y <- sock_at peer ;;
  _ <- fd_write (s_fd y) (bs "OKAY") ;;
  set_sock peer (fun y => upd_s_ready (fun _ => local_socket_ready_p)
                            (upd_s_close (fun _ => local_socket_close_p) y)) ;;
  set_peer peer (Some s2) ;;
  set_peer s2 (Some peer) ;;
  set_peer s None ;;
  sock_close s ;;
  call_ready s2 ;;
  ret 0.

Definition smart_host_service (s : Z) (service : list Z) (ttype : transport_type)
    (serial : option (list Z)) : M world Z :=
  x <- sock_at s ;;
  peer <- deref (s_peer x) ;;
  y <- sock_at peer ;;
  r <- handle_host_request adbhost service ttype serial (s_fd y) s ;;
  if r =? 0 then smart_fail s
  else if prefixb (bs "transport") service then
    set_sock s (upd_s_pkts (fun q => match q with
                                     | p :: q => mkPkt 0 (pk_off p) (msg p) (pk_data p) :: q
                                     | [] => []
                                     end)) ;;
    ret 0
  else
    s2 <- host_service_to_socket service ;;
    match s2 with
    | None => reply_fail (s_fd y) (bs "unknown host service") ;; smart_fail s
    | Some s2 => smart_bind s peer s2
    end.

(** A service of the device: the peer is rigged to pass on success or failure,
    and takes over the transport. *)
Definition smart_open (s : Z) (name : list Z) : M world Z :=
  x <- sock_at s ;;
  peer <- deref (s_peer x) ;;
  y <- sock_at peer ;;
  offline <- match s_transport x with
             | None => ret true
             | Some t => tr <- trans_at t ;; ret (t_connection_state tr =? CS_OFFLINE)
             end ;;
  if (offline : bool) then reply_fail (s_fd y) (bs "device offline (x)") ;; smart_fail s
  else
    set_sock peer (fun y => upd_s_ready (fun _ => local_socket_ready_notify_p)
      (upd_s_close (fun _ => local_socket_close_notify_p)
        (upd_s_peer (fun _ => None) (upd_s_transport (fun _ => s_transport x) y)))) ;;
    connect_to_remote peer name ;;
    set_peer s None ;;
    sock_close s ;;
    ret 1.

(** A complete request: a service of the server or one of the device. *)
Definition smart_service (s : Z) (name : list Z) : M world Z :=
  match host_prefix name with
  | Some (service, ttype, serial) => smart_host_service s service ttype serial
  | None => smart_open s name
  end.

Definition smart_socket_enqueue (s : Z) (p : apacket) : M world Z :=
  o <- gather s p ;;
  match o with
  | None => smart_fail s
  | Some p =>
      r <- deref (parse_request p) ;;
      match r with
      | NeedMore => ret 0
      | BadSize => smart_fail s
      | Service name => smart_service s name
      end
  end.

(** Nothing can be sent to a device tracker. *)
Definition device_tracker_enqueue (s : Z) (p : apacket) : M world Z := sock_close s ;; ret (-1).

(** [s->enqueue(s, p)]. *)
Definition call_enqueue (s : Z) (p : apacket) : M world Z :=
  x <- sock_at s ;;
  match s_enqueue x with
  | local_socket_enqueue_p => local_socket_enqueue s p
  | remote_socket_enqueue_p => remote_socket_enqueue s p
  | smart_socket_enqueue_p => smart_socket_enqueue s p
  | device_tracker_enqueue_p => device_tracker_enqueue s p
  end.

End enqueue_functions.

(** A request can bind a tracker, which sends the list of devices at once to
    the client's socket: two levels below the first call. *)
Fixpoint sock_enqueue_n (n : nat) (adbhost : option (list Z)) (s : Z) (p : apacket) : M world Z :=
  match n with
  | O => fail EFuel
  | S n => call_enqueue (sock_enqueue_n n adbhost) adbhost s p
  end.

Section running.
Context (adbhost : option (list Z)).

Definition sock_enqueue (s : Z) (p : apacket) : M world Z := sock_enqueue_n 4 adbhost s p.
Definition sock_ready (s : Z) : M world unit := call_ready sock_enqueue s.

Definition connect_to_smartsocket (s : Z) : M world unit :=
  ss <- create_smart_socket ;;
  set_peer s (Some ss) ;; set_peer ss (Some s) ;;
  sock_ready s.

(** ** Events on a local socket's descriptor *)

(** [while((p = s->pkt_first) != 0)]: [false] when the function returns. *)
Fixpoint drain (fuel : nat) (s fd : Z) : M world bool :=
  x <- sock_at s ;;
  match s_pkts x with
  | [] => ret true
  | p :: q =>
      match fuel with
      | O => fail EFuel
      | S f =>
          r <- write_packet_to true fd p ;;
          let '(p, res) := r in
          set_sock s (upd_s_pkts (fun _ => p :: q)) ;;
          match res with
          | WBlock => ret false
          | WClosed => sock_close s ;; ret false
          | WDone =>
              when (pk_len p =? 0) (set_sock s (upd_s_pkts (fun _ => q))) ;;
              drain f s fd
          end
      end
  end.

(** The FDE_WRITE part: [false] when the function returns. *)
Definition local_socket_write_event (s fd : Z) : M world bool :=
  x <- sock_at s ;;
  more <- drain (length (s_pkts x)) s fd ;;
  if (more : bool) then
    x <- sock_at s ;;
    if s_closing x then sock_close s ;; ret false
    else
      fde_call (fdevent_del s FDE_WRITE) ;;
      peer <- deref (s_peer x) ;;
      sock_ready peer ;;
      ret true
  else ret false.

(** [while(avail > 0)]: the bytes read and [is_eof]. *)
Fixpoint read_loop (fuel : nat) (fd : Z) (avail : nat) : M world (list Z * bool) :=
  if (0 <? avail)%nat then
    match fuel with
    | O => fail EFuel
    | S f =>
        r <- fd_read fd avail ;;
        match r with
        | Got (b :: l) =>
            r <- read_loop f fd (avail - length (b :: l)) ;;
            ret (b :: l ++ r.1, r.2)
        | Failed EAGAIN => ret ([], false)
        | Failed EINTR => read_loop f fd avail
        | _ => ret ([], true)
        end
    end
  else ret ([], false).

Definition read_available (fd : Z) : M world (list Z * bool) :=
  w <- get ;;
  read_loop (2 + length (rd_script (default no_input (w_in w !! fd)))) fd (Z.to_nat MAX_PAYLOAD).

(** The FDE_READ part. *)
Definition local_socket_read_event (s fd : Z) : M world unit :=
  p <- new_packet ;;
  r <- read_available fd ;;
  let '(bytes, is_eof) := r in
  x <- sock_at s ;;
  go <- match bytes, s_peer x with
        | _ :: _, Some peer =>
            p <- put_data bytes p ;;
            r <- sock_enqueue peer (mkPkt (Z.of_nat (length bytes)) (pk_off p) (msg p) (pk_data p)) ;;
            if r <? 0 then ret false
            else
              when (0 <? r) (_ <- sock_at s ;; fde_call (fdevent_del s FDE_READ)) ;;
              ret true
        | _, _ => ret true
        end ;;
  when (go && is_eof) (sock_close s).

Definition local_socket_event_func (fd ev s : Z) : M world unit :=
  go <- (if hasbit ev FDE_WRITE then local_socket_write_event s fd else ret true) ;;
  when (go && hasbit ev FDE_READ) (local_socket_read_event s fd).

End running.
