(* ===== verification/Server.v ===== *)
(** * The server (adb.c, transport.c)

    Packets from a transport, registration of transports, connections to the
    listeners, and the dispatch of descriptor events to all of them. *)

From S2P Require Import Prelude Io Wire FdEvent World Transports Listeners HostRequest Sockets.

Section server.
(** The environment variable ADBHOST. *)
Context (adbhost : option (list Z)).

(** ** Device trackers *)

(** The loop of [update_transports]: the link to the next tracker is read before
    the message is sent, since that can free the tracker. *)
Fixpoint after (a : Z) (l : list Z) : option (option Z) :=
  match l with
  | [] => None
  | b :: l => if b =? a then Some (head l) else after a l
  end.

Fixpoint update_loop (fuel : nat) (tracker : option Z) (buffer : list Z) : M world unit :=
  match tracker with
  | None => ret tt
  | Some a =>
      match fuel with
      | O => fail EFuel
      | S f =>
          w <- get ;;
          next <- deref (after a (w_trackers w)) ;;
          _ <- device_tracker_send (sock_enqueue adbhost) a buffer ;;
          update_loop f next buffer
      end
  end.

Definition update_transports : M world unit :=
  buffer <- list_transports_msg 1024 ;;
  w <- get ;;
  update_loop (length (w_trackers w)) (head (w_trackers w)) buffer.

(** ** Disconnection *)

Definition run_disconnect (d : adisconnect) : M world unit :=
  match d with
  | remote_socket_disconnect_p s => remote_socket_disconnect sock_close s
  | listener_disconnect_p l => listener_disconnect l
  end.

(** The entry that follows [d]; [d] itself is embedded in an object that must
    still be there. *)
Fixpoint entry_after (d : adisconnect) (l : list adisconnect) : option (option adisconnect) :=
  match l with
  | [] => None
  | e :: l => if bool_decide (e = d) then Some (head l) else entry_after d l
  end.

Fixpoint disconnect_loop (fuel : nat) (t : Z) (dis : option adisconnect) : M world unit :=
  match dis with
  | None => ret tt
  | Some d =>
      match fuel with
      | O => fail EFuel
      | S f =>
          x <- trans_at t ;;
          next <- deref (entry_after d (t_disconnects x)) ;;
          run_disconnect d ;;
          disconnect_loop f t next
      end
  end.

Definition run_transport_disconnects (t : Z) : M world unit :=
  x <- trans_at t ;;
  disconnect_loop (length (t_disconnects x)) t (head (t_disconnects x)).

Definition handle_offline (t : Z) : M world unit := run_transport_disconnects t.

(** ** Packets *)

Definition send_ready (local_id remote_id t : Z) : M world unit :=
  p <- new_packet ;; send_packet (message A_OKAY local_id remote_id p) (Some t).

Definition send_close (local_id remote_id t : Z) : M world unit :=
  p <- new_packet ;; send_packet (message A_CLSE local_id remote_id p) (Some t).

(** The host side: the banner is "host::". *)
Definition send_connect (t : Z) : M world unit :=
  p <- new_packet ;;
  let banner := bs "host::" in
  p <- put_data (banner ++ [0]) p ;;
  send_packet (set_msg (fun m => mkMsg A_CNXN A_VERSION MAX_PAYLOAD
                                   (Z.of_nat (length banner) + 1) (data_check m) (magic m)) p)
    (Some t).

(** A string in the payload; without a zero it runs past the array. *)
Definition payload_string (p : apacket) : option (list Z) :=
  if bool_decide (0 ∈ pk_data p) then Some (cstr (pk_data p)) else None.

(** The two fields of a banner: the type before the first colon, the product
    between the first and the second. *)
Definition banner_fields (banner : list Z) : list Z * list Z :=
  match strchr 58 banner with
  | None => (banner, [])
  | Some (type, rest) =>
      (type, match strchr 58 rest with Some (product, _) => product | None => rest end)
  end.

Definition parse_banner (banner : list Z) (t : Z) : M world unit :=
  let '(type, product) := banner_fields banner in
  set_trans t (upd_t_product (fun _ => Some product)) ;;
  if streq type (bs "bootloader") then
    set_trans t (upd_t_connection_state (fun _ => CS_BOOTLOADER)) ;; update_transports
  else if streq type (bs "device") then
    set_trans t (upd_t_connection_state (fun _ => CS_DEVICE)) ;; update_transports
  else if streq type (bs "recovery") then
    set_trans t (upd_t_connection_state (fun _ => CS_RECOVERY)) ;; update_transports
  else set_trans t (upd_t_connection_state (fun _ => CS_HOST)).

(** [t->connection_state != CS_OFFLINE]. *)
Definition online (t : Z) : M world bool :=
  x <- trans_at t ;; ret (negb (t_connection_state x =? CS_OFFLINE)).

(** The name after [name[data_length > 0 ? data_length - 1 : 0] = 0]; a write
    outside the array is undefined. *)
Definition open_name (p : apacket) : option (list Z) :=
  let n := Z.to_nat (data_length (msg p) - 1) in
  if bool_decide (n < length (pk_data p))%nat then Some (cstr (take n (pk_data p))) else None.

(** [s->peer = create_remote_socket(id, t); s->peer->peer = s]. *)
Definition bind_remote (s id t : Z) : M world Z :=
  r <- create_remote_socket id t ;;
  set_peer s (Some r) ;;
  set_peer r (Some s) ;;
  ret r.

(** The socket the service gets, bound to the remote end. *)
Definition handle_open (p : apacket) (t : Z) : M world unit :=
  name <- deref (open_name p) ;;
  s <- create_local_service_socket name ;;
  match s with
  | None => send_close 0 (arg0 (msg p)) t
  | Some s =>
      r <- bind_remote s (arg0 (msg p)) t ;;
      x <- sock_at s ;;
      y <- sock_at r ;;
      send_ready (s_id x) (s_id y) t ;;
      sock_ready adbhost s
  end.

Definition handle_okay (p : apacket) (t : Z) : M world unit :=
  o <- find_local_socket (arg1 (msg p)) ;;
  match o with
  | None => ret tt
  | Some s =>
      x <- sock_at s ;;
      when (bool_decide (s_peer x = None)) (_ <- bind_remote s (arg0 (msg p)) t ;; ret tt) ;;
      sock_ready adbhost s
  end.

Definition handle_close (p : apacket) : M world unit :=
  o <- find_local_socket (arg1 (msg p)) ;;
  match o with None => ret tt | Some s => sock_close s end.

Definition handle_write (p : apacket) (t : Z) : M world unit :=
  o <- find_local_socket (arg1 (msg p)) ;;
  match o with
  | None => ret tt
  | Some s =>
      let rid := arg0 (msg p) in
      r <- sock_enqueue adbhost s
             (mkPkt (s32 (data_length (msg p))) (pk_off p) (msg p) (pk_data p)) ;;
      when (r =? 0) (x <- sock_at s ;; send_ready (s_id x) rid t)
  end.

Definition handle_sync (p : apacket) (t : Z) : M world unit :=
  if negb (arg0 (msg p) =? 0) then send_packet p (Some t) ;; send_connect t
  else
    set_trans t (upd_t_connection_state (fun _ => CS_OFFLINE)) ;;
    handle_offline t ;;
    send_packet p (Some t).

Definition handle_connect (p : apacket) (t : Z) : M world unit :=
  on <- online t ;;
  when on (set_trans t (upd_t_connection_state (fun _ => CS_OFFLINE)) ;; handle_offline t) ;;
  banner <- deref (payload_string p) ;;
  parse_banner banner t.

(** The dispatch on the command, for the host ([HOST] is 1). *)
Definition handle_packet (p : apacket) (t : Z) : M world unit :=
  let cmd := command (msg p) in
  if cmd =? A_SYNC then handle_sync p t
  else if cmd =? A_CNXN then handle_connect p t
  else if cmd =? A_OPEN then on <- online t ;; when on (handle_open p t)
  else if cmd =? A_OKAY then on <- online t ;; when on (handle_okay p t)
  else if cmd =? A_CLSE then on <- online t ;; when on (handle_close p)
  else if cmd =? A_WRTE then on <- online t ;; when on (handle_write p t)
  else ret tt.

(** [read_packet] takes a packet off the socket pair; a failure is ignored. *)
Definition transport_socket_events (events t : Z) : M world unit :=
  when (hasbit events FDE_READ) (
    x <- trans_at t ;;
    match t_inbox x with
    | [] => ret tt
    | p :: q => set_trans t (upd_t_inbox (fun _ => q)) ;; handle_packet p t
    end).

(** ** Registration *)

Definition transport_gone (t : Z) : M world unit :=
  fde_call (fdevent_remove t) ;;
  x <- trans_at t ;;
  adb_close (t_fd x) ;;
  lock_transports ;; tl_unlink t ;; unlock_transports ;;
  run_transport_disconnects t ;;
  free_transport t ;;
  free_fde t ;;
  update_transports.

Definition transport_arrived (t : Z) : M world unit :=
  x <- trans_at t ;;
  when (negb (t_connection_state x =? CS_NOPERM)) (
    set_trans t (upd_t_ref_count (fun _ => 2)) ;;
    s0 <- open_fd OpenSocketpair ;;
    s1 <- open_fd OpenSocketpair ;;
    (if (s0 <? 0) || (s1 <? 0) then fail EFatal else ret tt) ;;
    set_trans t (fun x => upd_t_transport_socket (fun _ => s0) (upd_t_fd (fun _ => s1) x)) ;;
    fde_call (fdevent_install t s0 transport_socket_events_p t) ;;
    fde_call (fdevent_set t FDE_READ)) ;;
  lock_transports ;; tl_append t ;; unlock_transports ;;
  set_trans t (upd_t_disconnects (fun _ => [])) ;;
  update_transports.

Definition transport_registration_func (ev : Z) : M world unit :=
  when (hasbit ev FDE_READ) (
    w <- get ;;
    match w_reg w with
    | [] => fail EFatal
    | m :: q =>
        modify (upd_w_reg (fun _ => q)) ;;
        if tm_action m =? 0 then transport_gone (tm_transport m)
        else transport_arrived (tm_transport m)
    end).

(** ** Connections *)

Definition ss_listener_event_func (_fd ev : Z) : M world unit :=
  when (hasbit ev FDE_READ) (
    fd <- open_fd (OpenAccept _fd) ;;
    when (negb (fd <? 0)) (s <- create_local_socket fd ;; connect_to_smartsocket adbhost s)).

Definition listener_event_func (_fd ev l : Z) : M world unit :=
  when (hasbit ev FDE_READ) (
    x <- lis_at l ;;
    fd <- open_fd (OpenAccept _fd) ;;
    when (negb (fd <? 0)) (
      s <- create_local_socket fd ;;
      set_sock s (upd_s_transport (fun _ => l_transport x)) ;;
      connect_to_remote s (l_connect_to x))).

(** ** The event loop *)

(** [fde->func(fde->fd, events, fde->arg)]. *)
Definition run_callback (c : fd_callback * Z * Z * Z) : M world unit :=
  let '(func, fd, ev, arg) := c in
  match func with
  | local_socket_event_func_p => local_socket_event_func adbhost fd ev arg
  | transport_socket_events_p => transport_socket_events ev arg
  | listener_event_func_p => listener_event_func fd ev arg
  | ss_listener_event_func_p => ss_listener_event_func fd ev
  | transport_registration_func_p => transport_registration_func ev
  end.

(** The inner loop of [fdevent_loop]: pending events are taken off the list and
    their functions called. *)
Fixpoint run_pending (fuel : nat) : M world unit :=
  c <- fde_call next_callback ;;
  match c with
  | None => ret tt
  | Some c =>
      match fuel with
      | O => fail EFuel
      | S f => run_callback c ;; run_pending f
      end
  end.

(** One turn of [fdevent_loop]. *)
Definition loop_turn (r : select_ret) : M world unit :=
  fde_call (fdevent_process r) ;;
  w <- get ;;
  run_pending (length (list_pending (w_fde w))).

End server.

(** The exits of the two threads of a transport. *)
Definition output_thread_exit (t : Z) : M world unit := kick_transport t ;; transport_unref t.
Definition input_thread_exit (t : Z) : M world unit :=
  close_all_sockets t ;; kick_transport t ;; transport_unref t.
