(* ===== verification/Startup.v ===== *)
(** * Starting the server (adb.c, transport.c, transport_local.c, usb_linux.c)

    [adb_main] up to the event loop, as the adb server runs it.  The threads it
    starts look for devices; what they do later reaches the server through
    [register_usb_transport] and [local_connect].  [true] for a thread says that
    it could be created. *)

From S2P Require Import Prelude Io Wire FdEvent World Transports Listeners.

(** The process before [adb_main]: no objects, an empty transport list, and the
    descriptors the kernel is going to hand out. *)
Definition boot (fds : list Z) (junk : list Z) : world :=
  mkWorld 1 ∅ [] [] 1 false ∅ {[transport_list := (transport_list, transport_list)]} false [] ∅ []
    fd_start ∅ ∅ [] [] [] (replicate 16 None) [] [] fds junk.

(** The event of the registration socket has an address of its own. *)
Definition init_transport_registration : M world unit :=
  s0 <- open_fd OpenSocketpair ;;
  s1 <- open_fd OpenSocketpair ;;
  (if (s0 <? 0) || (s1 <? 0) then fail EFatal else ret tt) ;;
  fde <- alloc ;;
  fde_call (fdevent_install fde s1 transport_registration_func_p 0) ;;
  fde_call (fdevent_set fde FDE_READ).

Definition usb_init (thread : bool) : M world unit := if thread then ret tt else fail EFatal.
Definition local_init (thread : bool) : M world unit := if thread then ret tt else fail EFatal.

Definition adb_main (usb_thread local_thread : bool) : M world unit :=
  init_transport_registration ;;
  usb_init usb_thread ;;
  local_init local_thread ;;
  r <- install_listener (bs "tcp:5037") (bs "*smartsocket*") None ;;
  if r =? 0 then ret tt else fail EFatal.
