(* ===== verification/ServerInv.v ===== *)
(** * The invariant of the server's objects

    [shape] relates the tables of the server: sockets, the lists they are on,
    transports with their disconnect lists, trackers, listeners, and the live
    descriptor events.  A set [X] of sockets is exempt from the condition that
    peers point at each other, which does not hold while a pair is being closed
    or created. *)

From S2P Require Import Prelude Io Wire FdEvent EventMap World Transports Listeners HostRequest.
From S2P Require Import Sockets Server.

(** ** Runs without undefined behaviour *)

(** The run returns, with [Q], or ends the process; it has no undefined
    behaviour, does not block, and the fuel of its loops suffices. *)
Definition safe {W A} (m : M W A) (w : W) (Q : A -> W -> Prop) : Prop :=
  match m w with Ok (a, w') => Q a w' | Err e => e = EFatal end.

Section safe.
Context {W A B : Type}.
Implicit Types (m : M W A) (k : A -> M W B) (w : W).

Lemma safe_ret (a : A) w (Q : A -> W -> Prop) : Q a w -> safe (ret a) w Q.
Proof. done. Qed.

Lemma safe_fatal w (Q : A -> W -> Prop) : safe (fail EFatal) w Q.
Proof. done. Qed.

Lemma safe_bind m k w Q : safe m w (fun a w' => safe (k a) w' Q) -> safe (bind m k) w Q.
Proof. unfold safe, bind. by destruct (m w) as [[a w']|e]. Qed.

Lemma safe_mono m w (P Q : A -> W -> Prop) :
  safe m w P -> (forall a w', P a w' -> Q a w') -> safe m w Q.
Proof. unfold safe. destruct (m w) as [[a w']|e]; eauto. Qed.

Lemma safe_ok m w a w' (Q : A -> W -> Prop) : m w = Ok (a, w') -> Q a w' -> safe m w Q.
Proof. unfold safe. by intros ->. Qed.

Lemma safe_run m w (Q : A -> W -> Prop) :
  safe m w Q -> match m w with Ok (a, w') => Q a w' | Err e => e = EFatal end.
Proof. done. Qed.

Lemma safe_deref_some (a : A) w (Q : A -> W -> Prop) : Q a w -> safe (deref (Some a)) w Q.
Proof. done. Qed.

End safe.

Lemma safe_assoc {W A B C} (m : M W A) (k : A -> M W B) (h : B -> M W C) w Q :
  safe (bind (bind m k) h) w Q -> safe (bind m (fun a => bind (k a) h)) w Q.
Proof. unfold safe, bind. by destruct (m w) as [[a w']|e]. Qed.

Lemma safe_get {W} (w : W) (Q : W -> W -> Prop) : Q w w -> safe get w Q.
Proof. done. Qed.

Lemma safe_modify {W} f (w : W) (Q : unit -> W -> Prop) : Q tt (f w) -> safe (modify f) w Q.
Proof. done. Qed.

(** Runs a bind whose first part is known to be safe. *)
Ltac step_with H := eapply safe_bind, safe_mono; [eapply H|cbv beta].

(** ** Conditions on single objects *)

Definition is_local (x : asocket) : Prop := s_enqueue x = local_socket_enqueue_p.

(** The three functions of a socket belong together. *)
Definition tags_ok (x : asocket) : Prop :=
  match s_enqueue x with
  | local_socket_enqueue_p =>
      (s_close x = local_socket_close_p /\ s_ready x = local_socket_ready_p) \/
      (s_close x = local_socket_close_notify_p /\ s_ready x = local_socket_ready_notify_p)
  | remote_socket_enqueue_p => s_close x = remote_socket_close_p /\ s_ready x = remote_socket_ready_p
  | smart_socket_enqueue_p => s_close x = smart_socket_close_p /\ s_ready x = smart_socket_ready_p
  | device_tracker_enqueue_p =>
      s_close x = device_tracker_close_p /\ s_ready x = device_tracker_ready_p
  end.

(** A packet on the queue of a local socket: what is left of it lies in its
    array. *)
Definition queued_ok (p : apacket) : Prop :=
  0 <= pk_len p /\ 0 <= pk_off p /\ pk_off p + pk_len p <= Z.of_nat (length (pk_data p)).

(** What a smart socket has gathered of a request, in an array of full size. *)
Definition gather_ok (p : apacket) : Prop :=
  0 <= pk_len p <= MAX_PAYLOAD /\ Z.of_nat (length (pk_data p)) = MAX_PAYLOAD.

Definition pkts_ok (x : asocket) : Prop :=
  match s_enqueue x with
  | local_socket_enqueue_p => Forall queued_ok (s_pkts x)
  | smart_socket_enqueue_p => Forall gather_ok (s_pkts x)
  | _ => True
  end.

(** ** Conditions between objects *)

(** The tables of the server; [tb_fds] has the descriptor of each live event. *)
Record tables := Tables {
  tb_socks : gmap Z asocket;
  tb_local : list Z;
  tb_closing : list Z;
  tb_trans : gmap Z atransport;
  tb_trackers : list Z;
  tb_lis : gmap Z alistener;
  tb_llist : list Z;
  tb_fds : gmap Z Z;
  tb_next : Z
}.

Section shape.
Context (X : gset Z) (b : tables).

Definition sock_ok (a : Z) (x : asocket) : Prop :=
  match s_enqueue x with
  | local_socket_enqueue_p =>
      tb_fds b !! a = Some (s_fd x) /\
      a ∈ (if s_closing x then tb_closing b else tb_local b) /\ Forall queued_ok (s_pkts x)
  | remote_socket_enqueue_p =>
      s_closing x = false /\ tb_fds b !! a = None /\
      exists t tr, s_transport x = Some t /\ tb_trans b !! t = Some tr /\
        remote_socket_disconnect_p a ∈ t_disconnects tr
  | smart_socket_enqueue_p =>
      s_closing x = false /\ tb_fds b !! a = None /\ Forall gather_ok (s_pkts x)
  | device_tracker_enqueue_p => s_closing x = false /\ tb_fds b !! a = None /\ a ∈ tb_trackers b
  end.

(** Peers point at each other, and one of the two is a local socket; only a local
    socket can be without a peer. *)
Definition peer_ok (a : Z) (x : asocket) : Prop :=
  match s_peer x with
  | None => is_local x
  | Some q =>
      q <> a /\ (q ∉ X) /\ s_close x <> local_socket_close_notify_p /\
      exists y, tb_socks b !! q = Some y /\ s_closing y = false /\ s_peer y = Some a /\
        (is_local x \/ is_local y)
  end.

Definition entry_ok (t : Z) (d : adisconnect) : Prop :=
  match d with
  | remote_socket_disconnect_p s =>
      exists x, tb_socks b !! s = Some x /\ s_enqueue x = remote_socket_enqueue_p /\
        s_transport x = Some t
  | listener_disconnect_p l => exists y, tb_lis b !! l = Some y /\ l_transport y = Some t
  end.

Definition lis_ok (l : Z) (y : alistener) : Prop :=
  l ∈ tb_llist b /\ tb_fds b !! l = Some (l_fd y) /\
  forall t, l_transport y = Some t ->
    exists tr, tb_trans b !! t = Some tr /\ listener_disconnect_p l ∈ t_disconnects tr.

Record shape : Prop := {
  sh_fresh : forall a, tb_next b <= a ->
    tb_socks b !! a = None /\ tb_trans b !! a = None /\ tb_lis b !! a = None /\ tb_fds b !! a = None;
  sh_tags : forall a x, tb_socks b !! a = Some x -> tags_ok x;
  sh_sock : forall a x, tb_socks b !! a = Some x -> sock_ok a x;
  sh_peer : forall a x, tb_socks b !! a = Some x -> a ∉ X -> s_closing x = false -> peer_ok a x;
  sh_nodup : NoDup (tb_local b) /\ NoDup (tb_closing b) /\ NoDup (tb_trackers b) /\
    NoDup (tb_llist b);
  sh_local : forall a, a ∈ tb_local b ->
    exists x, tb_socks b !! a = Some x /\ is_local x /\ s_closing x = false;
  sh_closing : forall a, a ∈ tb_closing b ->
    exists x, tb_socks b !! a = Some x /\ is_local x /\ s_closing x = true;
  sh_trackers : forall a, a ∈ tb_trackers b ->
    exists x, tb_socks b !! a = Some x /\ s_enqueue x = device_tracker_enqueue_p;
  sh_disc : forall t tr, tb_trans b !! t = Some tr -> NoDup (t_disconnects tr);
  sh_entry : forall t tr d, tb_trans b !! t = Some tr -> d ∈ t_disconnects tr -> entry_ok t d;
  sh_lis : forall l y, tb_lis b !! l = Some y -> lis_ok l y;
  sh_llist : forall l, l ∈ tb_llist b -> is_Some (tb_lis b !! l);
  sh_sep : forall a x, tb_socks b !! a = Some x -> tb_lis b !! a = None;
  sh_tsep : forall t tr, tb_trans b !! t = Some tr -> tb_socks b !! t = None /\ tb_lis b !! t = None;
  sh_pos : 0 < tb_next b
}.
End shape.

(** ** Replacing one object *)

(** Does this entry belong to the object at [a]? *)
Definition entry_of (a : Z) (d : adisconnect) : Prop :=
  d = remote_socket_disconnect_p a \/ d = listener_disconnect_p a.

(** The tables differ in the object at [a] only; transports keep their entries
    but for those of [a]. *)
Record same_but (a : Z) (b b' : tables) : Prop := {
  sb_socks : forall c, c <> a -> tb_socks b' !! c = tb_socks b !! c;
  sb_lis : forall c, c <> a -> tb_lis b' !! c = tb_lis b !! c;
  sb_fds : forall c, c <> a -> tb_fds b' !! c = tb_fds b !! c;
  sb_local : forall c, c <> a -> c ∈ tb_local b' <-> c ∈ tb_local b;
  sb_closing : forall c, c <> a -> c ∈ tb_closing b' <-> c ∈ tb_closing b;
  sb_trackers : forall c, c <> a -> c ∈ tb_trackers b' <-> c ∈ tb_trackers b;
  sb_llist : forall c, c <> a -> c ∈ tb_llist b' <-> c ∈ tb_llist b;
  sb_trans : forall t tr, tb_trans b !! t = Some tr ->
    exists tr', tb_trans b' !! t = Some tr' /\
      forall d, ~ entry_of a d -> d ∈ t_disconnects tr' <-> d ∈ t_disconnects tr;
  sb_trans' : forall t, tb_trans b !! t = None -> tb_trans b' !! t = None;
  sb_next : tb_next b <= tb_next b'
}.

(** What the object at [a] has to satisfy in the new tables. *)
Record object_ok (X : gset Z) (b : tables) (a : Z) : Prop := {
  ob_next : a < tb_next b;
  ob_tags : forall x, tb_socks b !! a = Some x -> tags_ok x;
  ob_sock : forall x, tb_socks b !! a = Some x -> sock_ok b a x;
  ob_peer : forall x, tb_socks b !! a = Some x -> a ∉ X -> s_closing x = false -> peer_ok X b a x;
  ob_nodup : NoDup (tb_local b) /\ NoDup (tb_closing b) /\ NoDup (tb_trackers b) /\
    NoDup (tb_llist b);
  ob_disc : forall t tr, tb_trans b !! t = Some tr -> NoDup (t_disconnects tr);
  ob_local : a ∈ tb_local b ->
    exists x, tb_socks b !! a = Some x /\ is_local x /\ s_closing x = false;
  ob_closing : a ∈ tb_closing b ->
    exists x, tb_socks b !! a = Some x /\ is_local x /\ s_closing x = true;
  ob_trackers : a ∈ tb_trackers b ->
    exists x, tb_socks b !! a = Some x /\ s_enqueue x = device_tracker_enqueue_p;
  ob_entry : forall t tr d, tb_trans b !! t = Some tr -> d ∈ t_disconnects tr -> entry_of a d ->
    entry_ok b t d;
  ob_lis : forall y, tb_lis b !! a = Some y -> lis_ok b a y;
  ob_llist : a ∈ tb_llist b -> is_Some (tb_lis b !! a);
  ob_sep : forall x, tb_socks b !! a = Some x -> tb_lis b !! a = None;
  ob_tsep : forall tr, tb_trans b !! a = Some tr -> tb_socks b !! a = None /\ tb_lis b !! a = None
}.

(** No other socket's peer condition depends on what changes at [a]. *)
Definition unwatched (X X' : gset Z) (b b' : tables) (a : Z) : Prop :=
  a ∈ X \/ tb_socks b !! a = None \/
  (a ∉ X') /\ exists x x', tb_socks b !! a = Some x /\ tb_socks b' !! a = Some x' /\
    s_closing x' = s_closing x /\ s_peer x' = s_peer x /\ s_enqueue x' = s_enqueue x.

Section replace.
Context (X X' : gset Z) (b b' : tables) (a : Z).
Context (Hs : shape X b) (Hb : same_but a b b') (HX : forall c, c <> a -> c ∈ X' <-> c ∈ X).

Lemma trans_back t tr' : tb_trans b' !! t = Some tr' ->
  exists tr, tb_trans b !! t = Some tr /\
    forall d, ~ entry_of a d -> d ∈ t_disconnects tr' <-> d ∈ t_disconnects tr.
Proof.
  intros Ht. destruct (tb_trans b !! t) as [tr|] eqn:Htr.
  - destruct (sb_trans _ _ _ Hb _ _ Htr) as (tr1 & H1 & H2). simplify_eq. eauto.
  - rewrite (sb_trans' _ _ _ Hb _ Htr) in Ht. done.
Qed.

Lemma sock_ok_off c x : c <> a -> sock_ok b c x -> sock_ok b' c x.
Proof.
  intros Hc. unfold sock_ok. rewrite (sb_fds _ _ _ Hb) by done.
  destruct (s_enqueue x); try done.
  - intros (H1 & H2 & H3). split_and!; [done| |done].
    destruct (s_closing x); by first [apply (sb_closing _ _ _ Hb)|apply (sb_local _ _ _ Hb)].
  - intros (H1 & H0 & t & tr & H2 & H3 & H4). split; [done|]. split; [done|].
    destruct (sb_trans _ _ _ Hb _ _ H3) as (tr' & H5 & H6). exists t, tr'. split_and!; [done..|].
    apply H6; [|done]. unfold entry_of. naive_solver.
  - intros (H1 & H0 & H2). split_and!; [done..|]. by apply (sb_trackers _ _ _ Hb).
Qed.

Lemma lis_ok_off c y : c <> a -> lis_ok b c y -> lis_ok b' c y.
Proof.
  intros Hc (H1 & H2 & H3). unfold lis_ok. rewrite (sb_fds _ _ _ Hb) by done.
  split_and!; [by apply (sb_llist _ _ _ Hb)|done|].
  intros t Ht. destruct (H3 t Ht) as (tr & H4 & H5).
  destruct (sb_trans _ _ _ Hb _ _ H4) as (tr' & H6 & H7). exists tr'. split; [done|].
  apply H7; [|done]. unfold entry_of. naive_solver.
Qed.

Lemma peer_ok_off c x :
  unwatched X X' b b' a -> c <> a -> peer_ok X b c x -> peer_ok X' b' c x.
Proof.
  intros Hu Hc. unfold peer_ok. destruct (s_peer x) as [q|]; [|done].
  intros (H1 & H2 & H3 & y & Hy & H4 & H5 & H6). destruct (decide (q = a)) as [->|Hne].
  - destruct Hu as [?|[?|(Ha & z & z' & Hz & Hz' & E1 & E2 & E3)]]; [done|congruence|].
    simplify_eq. split_and!; try done. exists z'. unfold is_local in *.
    rewrite E1, E2, E3. done.
  - split_and!; [done|by rewrite HX|done|]. exists y. by rewrite (sb_socks _ _ _ Hb).
Qed.

Lemma entry_ok_off t d : ~ entry_of a d -> entry_ok b t d -> entry_ok b' t d.
Proof.
  intros Hd. destruct d as [c|c]; intros (x & H1 & H2).
  - exists x. rewrite (sb_socks _ _ _ Hb); [done|]. intros ->. apply Hd. by left.
  - exists x. rewrite (sb_lis _ _ _ Hb); [done|]. intros ->. apply Hd. by right.
Qed.

Lemma entry_of_dec d : entry_of a d \/ ~ entry_of a d.
Proof.
  unfold entry_of. destruct (decide (d = remote_socket_disconnect_p a)); [tauto|].
  destruct (decide (d = listener_disconnect_p a)); tauto.
Qed.

Lemma shape_replace : unwatched X X' b b' a -> object_ok X' b' a -> shape X' b'.
Proof.
  intros Hu Ho.
  constructor; try apply Ho.
  - intros c Hc. assert (c <> a) by (pose proof (ob_next _ _ _ Ho); lia).
    destruct (sh_fresh _ _ Hs c) as (H1 & H2 & H3 & H4); [pose proof (sb_next _ _ _ Hb); lia|].
    rewrite (sb_socks _ _ _ Hb), (sb_lis _ _ _ Hb), (sb_fds _ _ _ Hb) by done.
    split_and!; [done| |done..]. by apply (sb_trans' _ _ _ Hb).
  - intros c x Hc. destruct (decide (c = a)) as [->|Hne]; [by apply (ob_tags _ _ _ Ho)|].
    rewrite (sb_socks _ _ _ Hb) in Hc by done. by apply (sh_tags _ _ Hs c).
  - intros c x Hc. destruct (decide (c = a)) as [->|Hne]; [by apply (ob_sock _ _ _ Ho)|].
    rewrite (sb_socks _ _ _ Hb) in Hc by done. by apply sock_ok_off, (sh_sock _ _ Hs).
  - intros c x Hc HcX Hcl. destruct (decide (c = a)) as [->|Hne]; [by apply (ob_peer _ _ _ Ho)|].
    rewrite (sb_socks _ _ _ Hb) in Hc by done. rewrite HX in HcX by done.
    by apply peer_ok_off, (sh_peer _ _ Hs).
  - intros c Hc. destruct (decide (c = a)) as [->|Hne]; [by apply (ob_local _ _ _ Ho)|].
    rewrite (sb_socks _ _ _ Hb) by done. by apply (sh_local _ _ Hs), (sb_local _ _ _ Hb).
  - intros c Hc. destruct (decide (c = a)) as [->|Hne]; [by apply (ob_closing _ _ _ Ho)|].
    rewrite (sb_socks _ _ _ Hb) by done. by apply (sh_closing _ _ Hs), (sb_closing _ _ _ Hb).
  - intros c Hc. destruct (decide (c = a)) as [->|Hne]; [by apply (ob_trackers _ _ _ Ho)|].
    rewrite (sb_socks _ _ _ Hb) by done. by apply (sh_trackers _ _ Hs), (sb_trackers _ _ _ Hb).
  - intros t tr d Ht Hd. destruct (entry_of_dec d) as [Hof|Hof]; [by eapply (ob_entry _ _ _ Ho)|].
    destruct (trans_back t tr Ht) as (tr1 & H1 & H2).
    apply entry_ok_off; [done|]. eapply (sh_entry _ _ Hs); [done|]. by apply H2.
  - intros c y Hc. destruct (decide (c = a)) as [->|Hne]; [by apply (ob_lis _ _ _ Ho)|].
    rewrite (sb_lis _ _ _ Hb) in Hc by done. by apply lis_ok_off, (sh_lis _ _ Hs).
  - intros c Hc. destruct (decide (c = a)) as [->|Hne]; [by apply (ob_llist _ _ _ Ho)|].
    rewrite (sb_lis _ _ _ Hb) by done. by apply (sh_llist _ _ Hs), (sb_llist _ _ _ Hb).
  - intros c x Hc. destruct (decide (c = a)) as [->|Hne]; [by apply (ob_sep _ _ _ Ho x)|].
    rewrite (sb_socks _ _ _ Hb) in Hc by done. rewrite (sb_lis _ _ _ Hb) by done.
    by apply (sh_sep _ _ Hs c x).
  - intros t tr Ht. destruct (decide (t = a)) as [->|Hne]; [by apply (ob_tsep _ _ _ Ho tr)|].
    rewrite (sb_socks _ _ _ Hb), (sb_lis _ _ _ Hb) by done.
    destruct (trans_back t tr Ht) as (tr1 & H1 & _). by apply (sh_tsep _ _ Hs t tr1).
  - pose proof (sh_pos _ _ Hs). pose proof (sb_next _ _ _ Hb). lia.
Qed.
End replace.

(** ** Exemptions *)

Lemma shape_exempt X X' b :
  shape X b ->
  (forall a x, tb_socks b !! a = Some x -> a ∉ X' -> s_closing x = false -> peer_ok X' b a x) ->
  shape X' b.
Proof. intros [] Hp. by constructor. Qed.

(** A pair of peers, about to be taken apart. *)
Lemma shape_open_pair X b a x q :
  shape X b -> tb_socks b !! a = Some x -> a ∉ X -> s_closing x = false -> s_peer x = Some q ->
  shape ({[a; q]} ∪ X) b.
Proof.
  intros Hs Ha HaX Hcl Hp. apply (shape_exempt X); [done|].
  intros c z Hc HcX Hz. pose proof (sh_peer _ _ Hs _ _ Ha HaX Hcl) as Hpa.
  pose proof (sh_peer _ _ Hs _ _ Hc ltac:(set_solver) Hz) as Hpc. unfold peer_ok in *.
  rewrite Hp in Hpa. destruct Hpa as (_ & _ & _ & y & Hy & _ & Hyp & _).
  destruct (s_peer z) as [r|] eqn:Hr; [|done].
  destruct Hpc as (H1 & H2 & H3 & y' & Hy' & H4 & H5 & H6). split_and!; try done.
  - assert (r <> a) by (intros ->; simplify_eq; set_solver).
    assert (r <> q) by (intros ->; simplify_eq; set_solver). set_solver.
  - eauto.
Qed.

(** A socket without a peer. *)
Lemma shape_open X b a x :
  shape X b -> tb_socks b !! a = Some x -> s_peer x = None -> shape ({[a]} ∪ X) b.
Proof.
  intros Hs Ha Hp. apply (shape_exempt X); [done|].
  intros c z Hc HcX Hz. pose proof (sh_peer _ _ Hs _ _ Hc ltac:(set_solver) Hz) as Hpc.
  unfold peer_ok in *. destruct (s_peer z) as [r|] eqn:Hr; [|done].
  destruct Hpc as (H1 & H2 & H3 & y' & Hy' & H4 & H5 & H6). split_and!; try done; [|eauto].
  assert (r <> a) by (intros ->; simplify_eq). set_solver.
Qed.

(** Two exempt sockets that point at each other. *)
Lemma shape_join X b a x q y :
  shape X b -> tb_socks b !! a = Some x -> tb_socks b !! q = Some y -> q <> a -> a ∈ X -> q ∈ X ->
  s_peer x = Some q -> s_peer y = Some a -> s_closing x = false -> s_closing y = false ->
  s_close x <> local_socket_close_notify_p -> s_close y <> local_socket_close_notify_p ->
  is_local x \/ is_local y -> shape (X ∖ {[a; q]}) b.
Proof.
  intros Hs Ha Hq Hne HaX HqX Hpx Hpy Hcx Hcy Hnx Hny Hk. apply (shape_exempt X); [done|].
  intros c z Hc HcX Hz. unfold peer_ok.
  destruct (decide (c = a)) as [->|Hca]; [|destruct (decide (c = q)) as [->|Hcq]].
  - simplify_eq. rewrite Hpx. split_and!; [done|set_solver|done|]. eauto.
  - simplify_eq. rewrite Hpy. split_and!; [done|set_solver|done|]. exists x. naive_solver.
  - pose proof (sh_peer _ _ Hs _ _ Hc ltac:(set_solver) Hz) as Hpc. unfold peer_ok in Hpc.
    destruct (s_peer z) as [r|] eqn:Hr; [|done].
    destruct Hpc as (H1 & H2 & H3 & y' & Hy' & H4 & H5 & H6). split_and!; try done; [|eauto].
    set_solver.
Qed.

(** A transport changes, but not its disconnect list. *)
Lemma shape_trans X b t tr tr' :
  shape X b -> tb_trans b !! t = Some tr -> t_disconnects tr' = t_disconnects tr ->
  shape X (Tables (tb_socks b) (tb_local b) (tb_closing b) (<[t := tr']> (tb_trans b))
             (tb_trackers b) (tb_lis b) (tb_llist b) (tb_fds b) (tb_next b)).
Proof.
  intros Hs Ht Hd.
  assert (forall u x, tb_trans b !! u = Some x ->
            exists x', <[t := tr']> (tb_trans b) !! u = Some x' /\ t_disconnects x' = t_disconnects x)
    as Hfwd by (intros u x Hu; destruct (decide (u = t)) as [->|]; simplify_map_eq; eauto).
  assert (forall u x', <[t := tr']> (tb_trans b) !! u = Some x' ->
            exists x, tb_trans b !! u = Some x /\ t_disconnects x' = t_disconnects x)
    as Hbwd by (intros u x Hu; destruct (decide (u = t)) as [->|]; simplify_map_eq; eauto).
  destruct Hs as [F1 F2 F3 F4 F5 F6 F7 F8 F9 F10 F11 F12 F13 F14 F15]. constructor; cbn; try done.
  - intros a Ha. destruct (F1 a Ha) as (? & ? & ? & ?). split_and!; try done.
    rewrite lookup_insert_ne; [done|]. intros ->. congruence.
  - intros a x Ha. pose proof (F3 a x Ha) as Hok. unfold sock_ok in *. cbn.
    destruct (s_enqueue x); try done. destruct Hok as (H1 & H0 & u & y & H2 & H3 & H4).
    destruct (Hfwd u y H3) as (y' & H5 & H6). split; [done|]. split; [done|]. exists u, y'. by rewrite H6.
  - intros u x (y & Hy & ->)%Hbwd. eauto.
  - intros u x d (y & Hy & ->)%Hbwd Hin. by eapply F10.
  - intros l y Hl. destruct (F11 l y Hl) as (H1 & H2 & H3). split_and!; try done.
    intros u Hu. destruct (H3 u Hu) as (z & H4 & H5). cbn.
    destruct (Hfwd u z H4) as (z' & H6 & H7). exists z'. by rewrite H7.
  - intros u x (y & Hy & _)%Hbwd. by eapply F14.
Qed.

(** ** The changes the operations make *)

(** [same_but] for a change at [a] of tables and lists. *)
Ltac same_tables :=
  constructor; cbn; intros;
  try first [done | lia | by simplify_map_eq | by rewrite list_elem_of_filter; tauto
            | by eexists; split; [done|tauto]].

Lemma nodup_filters a b X :
  shape X b ->
  NoDup (filter (fun c => c <> a) (tb_local b)) /\ NoDup (filter (fun c => c <> a) (tb_closing b)) /\
  NoDup (filter (fun c => c <> a) (tb_trackers b)) /\ NoDup (filter (fun c => c <> a) (tb_llist b)).
Proof.
  intros Hs. destruct (sh_nodup _ _ Hs) as (? & ? & ? & ?). by split_and!; apply list.NoDup_filter.
Qed.

Lemma addr_below X b a x : shape X b -> tb_socks b !! a = Some x -> a < tb_next b.
Proof.
  intros Hs Ha. destruct (Z.lt_ge_cases a (tb_next b)) as [|Hge]; [done|].
  destruct (sh_fresh _ _ Hs a Hge) as [? _]. congruence.
Qed.

(** A socket is no transport. *)
Lemma sock_no_trans X b a x : shape X b -> tb_socks b !! a = Some x -> tb_trans b !! a = None.
Proof.
  intros Hs Ha. destruct (tb_trans b !! a) as [tr|] eqn:Ht; [|done].
  destruct (sh_tsep _ _ Hs _ _ Ht). congruence.
Qed.

(** The entries of a socket or a listener are where it says. *)
Lemma entry_remote X b t tr a x :
  shape X b -> tb_trans b !! t = Some tr -> remote_socket_disconnect_p a ∈ t_disconnects tr ->
  tb_socks b !! a = Some x -> s_enqueue x = remote_socket_enqueue_p /\ s_transport x = Some t.
Proof.
  intros Hs Ht Hin Ha. destruct (sh_entry _ _ Hs _ _ _ Ht Hin) as (y & Hy & ?). simplify_eq. done.
Qed.

Lemma entry_listener X b t tr a x :
  shape X b -> tb_trans b !! t = Some tr -> listener_disconnect_p a ∈ t_disconnects tr ->
  tb_socks b !! a = Some x -> False.
Proof.
  intros Hs Ht Hin Ha. destruct (sh_entry _ _ Hs _ _ _ Ht Hin) as (y & Hy & ?).
  pose proof (sh_sep _ _ Hs _ _ Ha). cbn in *. congruence.
Qed.

Lemma local_no_entry X b t tr a x d :
  shape X b -> tb_trans b !! t = Some tr -> d ∈ t_disconnects tr ->
  tb_socks b !! a = Some x -> s_enqueue x <> remote_socket_enqueue_p -> ~ entry_of a d.
Proof.
  intros Hs Ht Hin Ha He [->| ->].
  - by destruct (entry_remote _ _ _ _ _ _ Hs Ht Hin Ha).
  - by eapply entry_listener.
Qed.

(** A socket changes in fields the other tables do not depend on. *)
Lemma shape_update X b a x x' :
  shape X b -> tb_socks b !! a = Some x ->
  s_enqueue x' = s_enqueue x -> s_fd x' = s_fd x -> s_closing x' = s_closing x ->
  (s_enqueue x = remote_socket_enqueue_p -> s_transport x' = s_transport x) ->
  tags_ok x' -> pkts_ok x' ->
  a ∈ X \/ s_peer x' = s_peer x /\
    (s_closing x = false -> s_close x' = local_socket_close_notify_p -> s_peer x = None) ->
  shape X (Tables (<[a := x']> (tb_socks b)) (tb_local b) (tb_closing b) (tb_trans b)
             (tb_trackers b) (tb_lis b) (tb_llist b) (tb_fds b) (tb_next b)).
Proof.
  intros Hs Ha He Hf Hc Ht Htag Hq Hp.
  apply (shape_replace X X b _ a); [done|same_tables|done| |].
  - destruct (decide (a ∈ X)) as [|HX]; [by left|]. right; right. split; [done|].
    exists x, x'. cbn. rewrite lookup_insert_eq. destruct Hp as [?|[? _]]; [done|]. done.
  - constructor; cbn; rewrite ?lookup_insert_eq.
    + by eapply addr_below.
    + by intros z [= <-].
    + intros z [= <-]. pose proof (sh_sock _ _ Hs _ _ Ha) as Hok. unfold sock_ok in *. cbn.
      unfold pkts_ok in Hq. rewrite He in Hq.
      rewrite He, Hc, Hf. destruct (s_enqueue x); rewrite ?Ht by done; tauto.
    + intros z [= <-] HX Hcl. destruct Hp as [?|[Hp Hn]]; [done|].
      pose proof (sh_peer _ _ Hs _ _ Ha HX ltac:(congruence)) as Hok.
      unfold peer_ok, is_local in *. cbn. rewrite Hp, He.
      destruct (s_peer x) as [q|]; [|done]. destruct Hok as (H1 & H2 & H3 & y & Hy & H4).
      split_and!; [done..|intros Hnot; by specialize (Hn ltac:(congruence) Hnot)|].
      exists y. by rewrite lookup_insert_ne.
    + apply (sh_nodup _ _ Hs).
    + apply (sh_disc _ _ Hs).
    + intros (z & Hz & Hzl & Hzc)%(sh_local _ _ Hs). simplify_eq. exists x'.
      unfold is_local in *. split_and!; congruence.
    + intros (z & Hz & Hzl & Hzc)%(sh_closing _ _ Hs). simplify_eq. exists x'.
      unfold is_local in *. split_and!; congruence.
    + intros (z & Hz & Hzl)%(sh_trackers _ _ Hs). simplify_eq. exists x'. split; congruence.
    + intros t tr d Htr Hd Hof. destruct Hof as [->| ->].
      * destruct (entry_remote _ _ _ _ _ _ Hs Htr Hd Ha) as [E1 E2]. exists x'. cbn.
        rewrite lookup_insert_eq, He, Ht by done. done.
      * by edestruct entry_listener.
    + intros y Hy. pose proof (sh_sep _ _ Hs _ _ Ha). congruence.
    + apply (sh_llist _ _ Hs).
    + intros _ _. by apply (sh_sep _ _ Hs a x).
    + rewrite (sock_no_trans _ _ _ _ Hs Ha). done.
Qed.

(** The transports once the entry of [a] is gone. *)
Definition drops_entry (a : Z) (T T' : gmap Z atransport) : Prop :=
  (forall t, T !! t = None -> T' !! t = None) /\
  (forall t tr, T !! t = Some tr -> exists tr', T' !! t = Some tr' /\
     (forall d, entry_of a d -> d ∉ t_disconnects tr') /\ NoDup (t_disconnects tr') /\
     forall d, ~ entry_of a d -> d ∈ t_disconnects tr' <-> d ∈ t_disconnects tr).

Lemma drops_entry_none X b a x :
  shape X b -> tb_socks b !! a = Some x -> s_enqueue x <> remote_socket_enqueue_p ->
  drops_entry a (tb_trans b) (tb_trans b).
Proof.
  intros Hs Ha He. split; [done|]. intros t tr Ht. exists tr. split; [done|].
  split; [|split; [by eapply sh_disc|done]].
  intros d Hof Hin. by eapply local_no_entry.
Qed.

Lemma drops_entry_filter X b a x t tr tr' :
  shape X b -> tb_socks b !! a = Some x -> s_transport x = Some t -> tb_trans b !! t = Some tr ->
  t_disconnects tr' = filter (fun e => e <> remote_socket_disconnect_p a) (t_disconnects tr) ->
  drops_entry a (tb_trans b) (<[t := tr']> (tb_trans b)).
Proof.
  intros Hs Ha Hxt Ht Hd. split.
  - intros u Hu. rewrite lookup_insert_ne; [done|]. intros ->. congruence.
  - intros u tru Hu. destruct (decide (u = t)) as [->|Hne].
    + simplify_map_eq. exists tr'. rewrite Hd. split; [done|]. split_and!.
      * intros d [->| ->]; rewrite list_elem_of_filter; [tauto|].
        intros [_ Hin]. by eapply entry_listener.
      * apply list.NoDup_filter. by eapply sh_disc.
      * intros d Hof. rewrite list_elem_of_filter. unfold entry_of in Hof. tauto.
    + exists tru. rewrite lookup_insert_ne by done. split; [done|].
      split_and!; [|by eapply sh_disc|done]. intros d [->| ->] Hin.
      * destruct (entry_remote _ _ _ _ _ _ Hs Hu Hin Ha). congruence.
      * by eapply entry_listener.
Qed.

Lemma drops_entry_listener X b l y t tr tr' :
  shape X b -> tb_lis b !! l = Some y -> l_transport y = Some t -> tb_trans b !! t = Some tr ->
  t_disconnects tr' = filter (fun e => e <> listener_disconnect_p l) (t_disconnects tr) ->
  drops_entry l (tb_trans b) (<[t := tr']> (tb_trans b)).
Proof.
  intros Hs Hl Hyt Ht Hd.
  assert (forall u tru, tb_trans b !! u = Some tru -> remote_socket_disconnect_p l ∉ t_disconnects tru)
    as Hno.
  { intros u tru Hu Hin. destruct (sh_entry _ _ Hs _ _ _ Hu Hin) as (x & Hx & _).
    pose proof (sh_sep _ _ Hs _ _ Hx). congruence. }
  split.
  - intros u Hu. rewrite lookup_insert_ne; [done|]. intros ->. congruence.
  - intros u tru Hu. destruct (decide (u = t)) as [->|Hne].
    + simplify_map_eq. exists tr'. rewrite Hd. split; [done|]. split_and!.
      * intros d [->| ->]; rewrite list_elem_of_filter; [|tauto]. intros [_ Hin]. by eapply Hno.
      * apply list.NoDup_filter. by eapply sh_disc.
      * intros d Hof. rewrite list_elem_of_filter. unfold entry_of in Hof. tauto.
    + exists tru. rewrite lookup_insert_ne by done. split; [done|].
      split_and!; [|by eapply sh_disc|done]. intros d [->| ->] Hin; [by eapply Hno|].
      destruct (sh_entry _ _ Hs _ _ _ Hu Hin) as (y' & Hy' & Hyt'). simplify_eq.
Qed.

(** An exempt socket is freed. *)
Lemma shape_drop X b a x T :
  shape X b -> tb_socks b !! a = Some x -> a ∈ X -> drops_entry a (tb_trans b) T ->
  shape (X ∖ {[a]}) (Tables (delete a (tb_socks b)) (filter (fun c => c <> a) (tb_local b))
    (filter (fun c => c <> a) (tb_closing b)) T (filter (fun c => c <> a) (tb_trackers b))
    (tb_lis b) (tb_llist b) (delete a (tb_fds b)) (tb_next b)).
Proof.
  intros Hs Ha HaX [HT1 HT2].
  apply (shape_replace X _ b _ a); [done| |set_solver|by left|].
  - same_tables; [|by apply HT1].
    destruct (HT2 t tr) as (tr' & H1 & _ & _ & H2); eauto.
  - constructor; cbn; rewrite ?lookup_delete_eq; try done.
    + by eapply addr_below.
    + destruct (nodup_filters a b X Hs) as (? & ? & ? & ?). split_and!; try done. apply (sh_nodup _ _ Hs).
    + intros t tr' Ht. destruct (tb_trans b !! t) as [tr|] eqn:Htr; [|by rewrite HT1 in Ht].
      destruct (HT2 t tr Htr) as (? & ? & _ & ? & _). by simplify_eq.
    + rewrite list_elem_of_filter. tauto.
    + rewrite list_elem_of_filter. tauto.
    + rewrite list_elem_of_filter. tauto.
    + intros t tr' d Ht Hin Hof. destruct (tb_trans b !! t) as [tr|] eqn:Htr; [|by rewrite HT1 in Ht].
      destruct (HT2 t tr Htr) as (? & ? & Hno & _). simplify_eq. by edestruct Hno.
    + intros y Hy. pose proof (sh_sep _ _ Hs _ _ Ha). congruence.
    + apply (sh_llist _ _ Hs).
    + rewrite (HT1 a (sock_no_trans _ _ _ _ Hs Ha)). done.
Qed.

(** An exempt local socket with unsent packets is put on the closing list. *)
Lemma shape_to_closing X b a x x' :
  shape X b -> tb_socks b !! a = Some x -> a ∈ X -> is_local x -> is_local x' ->
  s_fd x' = s_fd x -> s_closing x' = true -> tags_ok x' -> s_pkts x' = s_pkts x ->
  shape (X ∖ {[a]}) (Tables (<[a := x']> (tb_socks b)) (filter (fun c => c <> a) (tb_local b))
    (filter (fun c => c <> a) (tb_closing b) ++ [a]) (tb_trans b) (tb_trackers b)
    (tb_lis b) (tb_llist b) (tb_fds b) (tb_next b)).
Proof.
  intros Hs Ha HaX Hl Hl' Hfd Hc Htag Hpk.
  apply (shape_replace X _ b _ a); [done| |set_solver|by left|].
  - same_tables. rewrite elem_of_app, list_elem_of_filter, list_elem_of_singleton. tauto.
  - constructor; cbn; rewrite ?lookup_insert_eq.
    + by eapply addr_below.
    + by intros z [= <-].
    + intros z [= <-]. pose proof (sh_sock _ _ Hs _ _ Ha) as Hok. unfold sock_ok in *.
      rewrite Hl' , Hl in *. cbn. rewrite Hc, Hpk, Hfd. destruct Hok as (? & _ & ?).
      split_and!; [done| |done]. apply elem_of_app. right. by apply list_elem_of_singleton.
    + intros z [= <-]. congruence.
    + destruct (nodup_filters a b X Hs) as (? & ? & ? & ?). destruct (sh_nodup _ _ Hs) as (? & ? & ? & ?).
      split_and!; try done. apply list.NoDup_app. split_and!; [done| |by apply list.NoDup_singleton].
      intros c [Hc1 _]%list_elem_of_filter. by rewrite list_elem_of_singleton.
    + apply (sh_disc _ _ Hs).
    + rewrite list_elem_of_filter. tauto.
    + intros _. eauto.
    + intros (z & Hz & Hzl)%(sh_trackers _ _ Hs). unfold is_local in *. congruence.
    + intros t tr d Htr Hd Hof. exfalso. eapply (local_no_entry X b t tr a x d); eauto.
      unfold is_local in *. congruence.
    + intros y Hy. pose proof (sh_sep _ _ Hs _ _ Ha). congruence.
    + apply (sh_llist _ _ Hs).
    + intros _ _. by apply (sh_sep _ _ Hs a x).
    + rewrite (sock_no_trans _ _ _ _ Hs Ha). done.
Qed.

(** No table or list knows an address that is not in use yet. *)
Lemma fresh_unlisted X b :
  shape X b -> let a := tb_next b in
  (a ∉ tb_local b) /\ (a ∉ tb_closing b) /\ (a ∉ tb_trackers b) /\ (a ∉ tb_llist b) /\
  forall t tr d, tb_trans b !! t = Some tr -> d ∈ t_disconnects tr -> ~ entry_of a d.
Proof.
  intros Hs a. destruct (sh_fresh _ _ Hs a ltac:(lia)) as (H1 & _ & H3 & _).
  split_and!.
  - intros (x & ? & _)%(sh_local _ _ Hs). congruence.
  - intros (x & ? & _)%(sh_closing _ _ Hs). congruence.
  - intros (x & ? & _)%(sh_trackers _ _ Hs). congruence.
  - intros [y ?]%(sh_llist _ _ Hs). congruence.
  - intros t tr d Ht Hd [->| ->]; destruct (sh_entry _ _ Hs _ _ _ Ht Hd) as (x & ? & _); congruence.
Qed.

Lemma nodup_snoc (l : list Z) a : NoDup l -> a ∉ l -> NoDup (l ++ [a]).
Proof.
  intros Hl Ha. apply list.NoDup_app. split_and!; [done| |by apply list.NoDup_singleton].
  intros c Hc. rewrite list_elem_of_singleton. by intros ->.
Qed.

Lemma shape_new_local X b x :
  shape X b -> is_local x -> tags_ok x -> s_closing x = false -> s_peer x = None -> s_pkts x = [] ->
  shape X (Tables (<[tb_next b := x]> (tb_socks b)) (tb_local b ++ [tb_next b]) (tb_closing b)
    (tb_trans b) (tb_trackers b) (tb_lis b) (tb_llist b) (<[tb_next b := s_fd x]> (tb_fds b))
    (tb_next b + 1)).
Proof.
  intros Hs Hl Htag Hc Hp Hq. set (a := tb_next b).
  destruct (fresh_unlisted X b Hs) as (U1 & U2 & U3 & U4 & U5).
  destruct (sh_fresh _ _ Hs a ltac:(lia)) as (G1 & G2 & G3 & G4).
  destruct (sh_nodup _ _ Hs) as (D1 & D2 & D3 & D4).
  apply (shape_replace X _ b _ a); [done| |done|by right; left|].
  - same_tables. rewrite elem_of_app, list_elem_of_singleton. naive_solver.
  - constructor; cbn; rewrite ?lookup_insert_eq; try done; try (by intros ? [= <-]).
    + lia.
    + intros z [= <-]. unfold sock_ok. rewrite Hl. cbn. rewrite lookup_insert_eq, Hc, Hq.
      split_and!; [done| |done]. apply elem_of_app. right. by apply list_elem_of_singleton.
    + intros z [= <-] _ _. unfold peer_ok. by rewrite Hp.
    + split_and!; try done. by apply nodup_snoc.
    + apply (sh_disc _ _ Hs).
    + eauto.
    + intros t tr d Ht Hd Hof. by edestruct U5.
    + congruence.
    + rewrite G2. done.
Qed.

Lemma shape_new_remote X b x t tr tr' :
  shape X b -> s_enqueue x = remote_socket_enqueue_p -> tags_ok x -> s_closing x = false ->
  s_transport x = Some t -> tb_trans b !! t = Some tr ->
  t_disconnects tr' = t_disconnects tr ++ [remote_socket_disconnect_p (tb_next b)] ->
  shape ({[tb_next b]} ∪ X) (Tables (<[tb_next b := x]> (tb_socks b)) (tb_local b) (tb_closing b)
    (<[t := tr']> (tb_trans b)) (tb_trackers b) (tb_lis b) (tb_llist b) (tb_fds b)
    (tb_next b + 1)).
Proof.
  intros Hs He Htag Hc Hxt Ht Hd. set (a := tb_next b) in *.
  destruct (fresh_unlisted X b Hs) as (U1 & U2 & U3 & U4 & U5).
  destruct (sh_fresh _ _ Hs a ltac:(lia)) as (G1 & G2 & G3 & G4).
  assert (forall d, d ∈ t_disconnects tr' <-> d ∈ t_disconnects tr \/ d = remote_socket_disconnect_p a)
    as Hdd by (intros d; by rewrite Hd, elem_of_app, list_elem_of_singleton).
  apply (shape_replace X _ b _ a); [done| |set_solver|by right; left|].
  - same_tables. destruct (decide (t0 = t)) as [->|Hne]; simplify_map_eq; [|eauto].
    exists tr'. split; [done|]. intros d Hof. rewrite Hdd. unfold entry_of in Hof. naive_solver.
  - constructor; cbn; rewrite ?lookup_insert_eq; try done; try (by intros ? [= <-]).
    + lia.
    + intros z [= <-]. unfold sock_ok. rewrite He. cbn. split; [done|]. split; [done|].
      exists t, tr'. rewrite lookup_insert_eq. split_and!; [done..|]. apply Hdd. by right.
    + intros z _. set_solver.
    + apply (sh_nodup _ _ Hs).
    + intros u tru Hu. destruct (decide (u = t)) as [->|Hne]; simplify_map_eq; [|by eapply sh_disc].
      rewrite Hd. apply list.NoDup_app. split_and!; [by eapply sh_disc| |by apply list.NoDup_singleton].
      intros d Hin. rewrite list_elem_of_singleton. intros ->. eapply U5; eauto. by left.
    + intros u tru d Hu Hin Hof. destruct (decide (u = t)) as [->|Hne]; simplify_map_eq.
      * apply Hdd in Hin as [Hin| ->]; [by edestruct U5|]. exists x. cbn. by rewrite lookup_insert_eq.
      * by edestruct U5.
    + congruence.
    + rewrite lookup_insert_ne, G2 by congruence. done.
Qed.

(** A listener is freed. *)
Lemma shape_drop_listener X b l y T :
  shape X b -> tb_lis b !! l = Some y -> drops_entry l (tb_trans b) T ->
  shape X (Tables (tb_socks b) (tb_local b) (tb_closing b) T (tb_trackers b)
    (delete l (tb_lis b)) (filter (fun c => c <> l) (tb_llist b)) (delete l (tb_fds b)) (tb_next b)).
Proof.
  intros Hs Hl [HT1 HT2].
  assert (tb_socks b !! l = None) as Hns.
  { destruct (tb_socks b !! l) as [x|] eqn:Hx; [|done]. pose proof (sh_sep _ _ Hs _ _ Hx). congruence. }
  apply (shape_replace X _ b _ l); [done| |done|by right; left|].
  - same_tables; [|by apply HT1]. destruct (HT2 t tr) as (tr' & H1 & _ & _ & H2); eauto.
  - constructor; cbn; rewrite ?lookup_delete_eq, ?Hns; try done.
    + destruct (Z.lt_ge_cases l (tb_next b)) as [|Hge]; [done|].
      destruct (sh_fresh _ _ Hs l Hge) as (_ & _ & ? & _). congruence.
    + destruct (nodup_filters l b X Hs) as (? & ? & ? & ?). destruct (sh_nodup _ _ Hs) as (? & ? & ? & ?).
      by split_and!.
    + intros t tr' Ht. destruct (tb_trans b !! t) as [tr|] eqn:Htr; [|by rewrite HT1 in Ht].
      destruct (HT2 t tr Htr) as (? & ? & _ & ? & _). by simplify_eq.
    + intros (x & ? & _)%(sh_local _ _ Hs). congruence.
    + intros (x & ? & _)%(sh_closing _ _ Hs). congruence.
    + intros (x & ? & _)%(sh_trackers _ _ Hs). congruence.
    + intros t tr' d Ht Hin Hof. destruct (tb_trans b !! t) as [tr|] eqn:Htr; [|by rewrite HT1 in Ht].
      destruct (HT2 t tr Htr) as (? & ? & Hno & _). simplify_eq. by edestruct Hno.
    + rewrite list_elem_of_filter. tauto.
Qed.

(** A socket that is neither on a list nor on a transport: a smart socket. *)
Lemma shape_new_smart X b x :
  shape X b -> s_enqueue x = smart_socket_enqueue_p -> tags_ok x -> s_closing x = false ->
  s_pkts x = [] ->
  shape ({[tb_next b]} ∪ X) (Tables (<[tb_next b := x]> (tb_socks b)) (tb_local b) (tb_closing b)
    (tb_trans b) (tb_trackers b) (tb_lis b) (tb_llist b) (tb_fds b) (tb_next b + 1)).
Proof.
  intros Hs He Htag Hc Hpk. set (a := tb_next b) in *.
  destruct (fresh_unlisted X b Hs) as (U1 & U2 & U3 & U4 & U5).
  destruct (sh_fresh _ _ Hs a ltac:(lia)) as (G1 & G2 & G3 & G4).
  apply (shape_replace X _ b _ a); [done|same_tables|set_solver|by right; left|].
  constructor; cbn; rewrite ?lookup_insert_eq, ?G2; try done; try (by intros ? [= <-]).
  - lia.
  - intros z [= <-]. unfold sock_ok. rewrite He, Hpk. split_and!; [done|done|constructor].
  - intros z _. set_solver.
  - apply (sh_nodup _ _ Hs).
  - apply (sh_disc _ _ Hs).
  - intros t tr d Ht Hd Hof. by edestruct U5.
  - congruence.
Qed.

(** A new transport. *)
Lemma shape_new_trans X b tr :
  shape X b -> t_disconnects tr = [] ->
  shape X (Tables (tb_socks b) (tb_local b) (tb_closing b) (<[tb_next b := tr]> (tb_trans b))
    (tb_trackers b) (tb_lis b) (tb_llist b) (tb_fds b) (tb_next b + 1)).
Proof.
  intros Hs Hd. set (t := tb_next b).
  destruct (sh_fresh _ _ Hs t ltac:(lia)) as (G1 & G2 & G3 & G4).
  assert (forall u x, tb_trans b !! u = Some x -> <[t := tr]> (tb_trans b) !! u = Some x) as Hfwd.
  { intros u x Hu. rewrite lookup_insert_ne; [done|]. congruence. }
  destruct Hs as [F1 F2 F3 F4 F5 F6 F7 F8 F9 F10 F11 F12 F13 F14 F15]. constructor; cbn; try done.
  - intros a Ha. destruct (F1 a ltac:(lia)) as (? & ? & ? & ?). split_and!; try done.
    rewrite lookup_insert_ne; [done|lia].
  - intros a x Ha. pose proof (F3 a x Ha) as Hok. unfold sock_ok in *. cbn.
    destruct (s_enqueue x); try done. destruct Hok as (H1 & H0 & u & y & H2 & H3 & H4). eauto 10.
  - intros u x Hu. destruct (decide (u = t)) as [->|Hne]; simplify_map_eq; [rewrite Hd; constructor|eauto].
  - intros u x d Hu Hin. destruct (decide (u = t)) as [->|Hne]; simplify_map_eq.
    + rewrite Hd in Hin. by apply elem_of_nil in Hin.
    + by eapply F10.
  - intros l y Hl. destruct (F11 l y Hl) as (H1 & H2 & H3). split_and!; try done.
    intros u Hu. destruct (H3 u Hu) as (z & H4 & H5). cbn. eauto.
  - intros u x Hu. destruct (decide (u = t)) as [->|Hne]; simplify_map_eq; eauto.
  - lia.
Qed.

(** The event of a transport is installed. *)
Lemma shape_trans_fd X b t tr fd :
  shape X b -> tb_trans b !! t = Some tr ->
  shape X (Tables (tb_socks b) (tb_local b) (tb_closing b) (tb_trans b) (tb_trackers b) (tb_lis b)
    (tb_llist b) (<[t := fd]> (tb_fds b)) (tb_next b)).
Proof.
  intros Hs Ht. destruct (sh_tsep _ _ Hs t tr Ht) as [Hns Hnl].
  apply (shape_replace X _ b _ t); [done|same_tables|done|by right; left|].
  constructor; cbn; rewrite ?Hns, ?Hnl; try done; try apply Hs.
  - destruct (Z.lt_ge_cases t (tb_next b)) as [|Hge]; [done|].
    destruct (sh_fresh _ _ Hs t Hge) as (_ & ? & _). congruence.
  - intros (x & ? & _)%(sh_local _ _ Hs). congruence.
  - intros (x & ? & _)%(sh_closing _ _ Hs). congruence.
  - intros (x & ? & _)%(sh_trackers _ _ Hs). congruence.
  - intros u x d Hu Hd _. exact (sh_entry _ _ Hs u x d Hu Hd).
  - intros [y ?]%(sh_llist _ _ Hs). congruence.
Qed.

(** A new listener without a transport. *)
Lemma shape_new_listener X b y :
  shape X b -> l_transport y = None ->
  shape X (Tables (tb_socks b) (tb_local b) (tb_closing b) (tb_trans b) (tb_trackers b)
    (<[tb_next b := y]> (tb_lis b)) (tb_llist b ++ [tb_next b]) (<[tb_next b := l_fd y]> (tb_fds b))
    (tb_next b + 1)).
Proof.
  intros Hs Hy. set (l := tb_next b).
  destruct (fresh_unlisted X b Hs) as (U1 & U2 & U3 & U4 & U5).
  destruct (sh_fresh _ _ Hs l ltac:(lia)) as (G1 & G2 & G3 & G4).
  destruct (sh_nodup _ _ Hs) as (D1 & D2 & D3 & D4).
  apply (shape_replace X _ b _ l); [done| |done|by right; left|].
  - same_tables. rewrite elem_of_app, list_elem_of_singleton. naive_solver.
  - constructor; cbn; rewrite ?lookup_insert_eq, ?G1, ?G2; try done; try (by intros ? [= <-]).
    + lia.
    + split_and!; try done. by apply nodup_snoc.
    + apply (sh_disc _ _ Hs).
    + intros t tr d Ht Hd Hof. by edestruct U5.
    + intros z [= <-]. split_and!; cbn; [|by rewrite lookup_insert_eq|by rewrite Hy].
      apply elem_of_app. right. by apply list_elem_of_singleton.
Qed.
