(* ===== verification/TransportList.v ===== *)
(** * The transport list

    The list of transports is doubly linked through its elements, like the other
    lists of the program.  Adding at the end and unlinking, as the code does them
    with four and two assignments, are the operations on lists they stand for,
    as long as nothing is unlinked twice. *)

From S2P Require Import Prelude Ring Io Wire FdEvent World Transports.

(** The list holds [l]. *)
Definition dll (k : gmap Z (Z * Z)) (l : list Z) : Prop := ring k transport_list l.

(** ** Appending *)

(** [t->next = &transport_list; t->prev = transport_list.prev;
    t->next->prev = t; t->prev->next = t]. *)
Definition appended (t p : Z) (k : gmap Z (Z * Z)) : gmap Z (Z * Z) := inserted t p transport_list k.

Lemma dll_appended k l t p :
  dll k l -> t ∉ transport_list :: l -> is_Some (k !! t) -> prv k transport_list = Some p ->
  dll (appended t p k) (l ++ [t]).
Proof.
  intros Hl Ht St Hp. pose proof Hl as [_ Hs]. destruct (seg_last _ _ _ _ Hs) as (p' & _ & P2 & P3).
  assert (p' = p) as -> by congruence. apply ring_inserted; rewrite ?app_nil_r; try done.
  destruct P3 as [[-> ->]|(l' & -> & _)]; [done|]. by rewrite app_comm_cons, last_snoc.
Qed.

(** ** The operations of the code *)

Section run.
Context (w : world).

Lemma tl_next_run t n : nxt (w_tlinks w) t = Some n -> tl_next t w = Ok (n, w).
Proof.
  unfold nxt, tl_next, bind, get, deref. destruct (w_tlinks w !! t) as [[]|]; [|done]. cbn. by intros [= ->].
Qed.

Lemma tl_prev_run t p : prv (w_tlinks w) t = Some p -> tl_prev t w = Ok (p, w).
Proof.
  unfold prv, tl_prev, bind, get, deref. destruct (w_tlinks w !! t) as [[]|]; [|done]. cbn. by intros [= ->].
Qed.

Lemma set_tl_next_run t v :
  is_Some (w_tlinks w !! t) -> set_tl_next t v w = Ok (tt, upd_w_tlinks (put_next t v) w).
Proof.
  intros [[n p] Ht]. unfold set_tl_next. erewrite bind_ok by (apply tl_prev_run; unfold prv; by rewrite Ht).
  unfold modify, put_next, prv. unfold upd_w_tlinks. by rewrite Ht.
Qed.

Lemma set_tl_prev_run t v :
  is_Some (w_tlinks w !! t) -> set_tl_prev t v w = Ok (tt, upd_w_tlinks (put_prev t v) w).
Proof.
  intros [[n p] Ht]. unfold set_tl_prev. erewrite bind_ok by (apply tl_next_run; unfold nxt; by rewrite Ht).
  unfold modify, put_prev, nxt. unfold upd_w_tlinks. by rewrite Ht.
Qed.

End run.

Lemma tl_unlink_run w t n p :
  nxt (w_tlinks w) t = Some n -> prv (w_tlinks w) t = Some p -> n <> t ->
  is_Some (w_tlinks w !! n) -> is_Some (w_tlinks w !! p) ->
  tl_unlink t w = Ok (tt, upd_w_tlinks (unlinked n p) w).
Proof.
  intros Hn Hp Hne Sn Sp. unfold tl_unlink.
  rewrite (bind_ok _ _ _ _ _ (tl_next_run w t n Hn)), (bind_ok _ _ _ _ _ (tl_prev_run w t p Hp)).
  rewrite (bind_ok _ _ _ _ _ (set_tl_prev_run w n p Sn)).
  set (w1 := upd_w_tlinks (put_prev n p) w).
  assert (nxt (w_tlinks w1) t = Some n) as Hn1 by (cbn; by rewrite nxt_put_prev).
  assert (prv (w_tlinks w1) t = Some p) as Hp1 by (cbn; rewrite prv_put_prev by done; by rewrite decide_False).
  rewrite (bind_ok _ _ _ _ _ (tl_prev_run w1 t p Hp1)), (bind_ok _ _ _ _ _ (tl_next_run w1 t n Hn1)).
  rewrite set_tl_next_run by (cbn; by apply put_prev_some). done.
Qed.

Lemma tl_append_run w t p :
  prv (w_tlinks w) transport_list = Some p -> t <> transport_list -> p <> t ->
  is_Some (w_tlinks w !! t) -> is_Some (w_tlinks w !! p) ->
  tl_append t w = Ok (tt, upd_w_tlinks (appended t p) w).
Proof.
  intros Hp Hne Hpt St Sp. pose proof (prv_some _ _ _ Hp) as Sh. unfold tl_append.
  rewrite (bind_ok _ _ _ _ _ (set_tl_next_run w t transport_list St)).
  set (w1 := upd_w_tlinks (put_next t transport_list) w).
  assert (prv (w_tlinks w1) transport_list = Some p) as Hp1 by (cbn; by rewrite prv_put_next).
  assert (forall a, is_Some (w_tlinks w !! a) -> is_Some (w_tlinks w1 !! a)) as S1
    by (intros; by apply put_next_some).
  rewrite (bind_ok _ _ _ _ _ (tl_prev_run w1 _ p Hp1)), (bind_ok _ _ _ _ _ (set_tl_prev_run w1 t p (S1 _ St))).
  set (w2 := upd_w_tlinks (put_prev t p) w1).
  assert (forall a, is_Some (w_tlinks w !! a) -> is_Some (w_tlinks w2 !! a)) as S2
    by (intros; apply put_prev_some; auto).
  assert (nxt (w_tlinks w2) t = Some transport_list) as Hn2.
  { cbn. rewrite nxt_put_prev, nxt_put_next by auto. by rewrite decide_True. }
  rewrite (bind_ok _ _ _ _ _ (tl_next_run w2 t _ Hn2)), (bind_ok _ _ _ _ _ (set_tl_prev_run w2 _ t (S2 _ Sh))).
  set (w3 := upd_w_tlinks (put_prev transport_list t) w2).
  assert (prv (w_tlinks w3) t = Some p) as Hp3.
  { change (prv (put_prev transport_list t (put_prev t p (w_tlinks w1))) t = Some p).
    rewrite prv_put_prev by (apply S2; done). rewrite decide_False by done.
    rewrite prv_put_prev by (apply S1; done). by rewrite decide_True. }
  rewrite (bind_ok _ _ _ _ _ (tl_prev_run w3 t p Hp3)).
  rewrite set_tl_next_run by (cbn; apply put_prev_some; apply S2; done). done.
Qed.

(** What appending leaves alone. *)
Lemma appended_else k x p t : t <> x -> t <> p -> t <> transport_list -> appended x p k !! t = k !! t.
Proof. intros. unfold appended, inserted, put_next, put_prev. by rewrite !lookup_insert_ne by done. Qed.

Lemma appended_ends k x p :
  x <> transport_list -> p <> x ->
  nxt (appended x p k) x = Some transport_list /\ prv (appended x p k) x = Some p.
Proof.
  intros Hx Hp. unfold appended, inserted, put_next, put_prev, nxt, prv.
  rewrite (lookup_insert_ne _ p x), (lookup_insert_ne _ transport_list x), !lookup_insert_eq by congruence. done.
Qed.

(** The two operations on a well linked list. *)
Lemma tl_unlink_ok w l1 t l2 :
  dll (w_tlinks w) (l1 ++ t :: l2) ->
  exists k, tl_unlink t w = Ok (tt, upd_w_tlinks (fun _ => k) w) /\ dll k (l1 ++ l2).
Proof.
  intros Hl. destruct (ring_member _ _ _ _ _ Hl) as (n & p & Hn & Hp & Hne & _ & Sn & Sp).
  eexists. split; [by apply (tl_unlink_run w t n p)|]. by eapply ring_unlinked.
Qed.

Lemma tl_append_ok w l t :
  dll (w_tlinks w) l -> t ∉ transport_list :: l -> is_Some (w_tlinks w !! t) ->
  exists k, tl_append t w = Ok (tt, upd_w_tlinks (fun _ => k) w) /\ dll k (l ++ [t]).
Proof.
  intros Hl Ht St. pose proof Hl as [_ Hs]. destruct (seg_last _ _ _ _ Hs) as (p & P1 & P2 & P3).
  assert (p <> t) as Hpt by (destruct P3 as [[_ ->]|(l' & -> & _)]; set_solver).
  eexists. split; [apply (tl_append_run w t p); try done; [set_solver|by eapply nxt_some]|].
  by apply dll_appended.
Qed.

(** The transport list behaves as a list.  On a well linked list, the
    assignments of the code that remove a transport yield the well linked list of
    the others in the same order, and those that add one put it at the end. *)
Theorem transport_list_ops w l :
  dll (w_tlinks w) l ->
  (forall l1 t l2, l = l1 ++ t :: l2 ->
     exists k, tl_unlink t w = Ok (tt, upd_w_tlinks (fun _ => k) w) /\ dll k (l1 ++ l2)) /\
  (forall t, t ∉ transport_list :: l -> is_Some (w_tlinks w !! t) ->
     exists k, tl_append t w = Ok (tt, upd_w_tlinks (fun _ => k) w) /\ dll k (l ++ [t])).
Proof.
  intros Hl. split.
  - intros l1 t l2 ->. by apply tl_unlink_ok.
  - intros t. by apply tl_append_ok.
Qed.

(** A transport that is unlinked twice takes another one with it.
    [unregister_transport] unlinks a transport, and [transport_registration_func]
    unlinks it again when its threads are gone.  When it was the last of the list
    and another transport has been registered in between, the second removal
    drops the new transport from the list. *)
Theorem double_unlink_drops_new_transport w l t x :
  dll (w_tlinks w) (l ++ [t]) -> x ∉ transport_list :: l ++ [t] -> is_Some (w_tlinks w !! x) ->
  exists k, (tl_unlink t ;; tl_append x ;; tl_unlink t) w = Ok (tt, upd_w_tlinks (fun _ => k) w) /\ dll k l.
Proof.
  intros Hl Hx Sx. destruct (ring_member _ _ l t [] Hl) as (n & p & Hn & Hp & Hne & Hpt & Sn & Sp).
  pose proof Hl as [Hnd Hs]. apply seg_app in Hs as [H1 [H2 H3]].
  assert (n = transport_list) as -> by congruence.
  rewrite (bind_ok _ _ _ _ _ (tl_unlink_run w t _ p Hn Hp Hne Sn Sp)).
  pose proof (ring_unlinked _ _ l t [] _ p Hl Hn Hp) as Hl1. rewrite app_nil_r in Hl1.
  destruct (unlinked_join (w_tlinks w) transport_list p Sn Sp) as [_ J].
  pose proof (unlinked_some (w_tlinks w) transport_list p p Sn Sp Sp) as Sp1.
  pose proof (unlinked_some (w_tlinks w) transport_list p x Sn Sp Sx) as Sx1.
  pose proof (unlinked_else (w_tlinks w) transport_list p t ltac:(done) ltac:(done)) as E1.
  assert ((x ∉ transport_list :: l) /\ x <> t) as [Hx1 Hxt] by set_solver.
  pose proof (ring_last _ _ _ _ _ Hl1 J Hx1) as Hpx. assert (x <> transport_list) as Hxh by set_solver.
  set (w1 := upd_w_tlinks (unlinked transport_list p) w).
  change (unlinked transport_list p (w_tlinks w)) with (w_tlinks w1) in Hl1, J, Sp1, Sx1, E1.
  rewrite (bind_ok _ _ _ _ _ (tl_append_run w1 x p J Hxh Hpx Sx1 Sp1)).
  pose proof (dll_appended (w_tlinks w1) l x p Hl1 Hx1 Sx1 J) as Hl2.
  destruct (appended_ends (w_tlinks w1) x p Hxh Hpx) as [E2 E3].
  pose proof (appended_else (w_tlinks w1) x p t ltac:(done) ltac:(done) ltac:(done)) as E4.
  destruct (ring_member _ _ l x [] Hl2) as (n2 & p2 & Hn2 & Hp2 & _ & _ & Sn2 & Sp2).
  assert (n2 = transport_list) as -> by congruence. assert (p2 = p) as -> by congruence.
  set (w2 := upd_w_tlinks (appended x p) w1).
  change (appended x p (w_tlinks w1)) with (w_tlinks w2) in *.
  eexists. split.
  - rewrite (tl_unlink_run w2 t transport_list p); [reflexivity| | |done..];
      unfold nxt, prv; rewrite E4, E1; done.
  - pose proof (ring_unlinked _ _ l x [] _ p Hl2 Hn2 Hp2) as R. by rewrite app_nil_r in R.
Qed.
