(* ===== verification/SocketsSafe.v ===== *)
(** * Closing and writing to sockets is safe

    On a world of the right shape the functions of sockets.c keep the shape and
    have no undefined behaviour. *)

From S2P Require Import Prelude Io Wire FdEvent EventMap World Transports Listeners HostRequest.
From S2P Require Import Sockets Server ServerInv TransportList.

(** ** The invariant of a world *)

Definition tables_of (w : world) : tables :=
  Tables (w_socks w) (w_local w) (w_closing w) (w_trans w) (w_trackers w) (w_lis w) (w_llist w)
    (fdmap (w_fde w)) (w_next w).

(** The transport list holds [l], all of them transports in use. *)
Definition tlist (w : world) (l : list Z) : Prop :=
  dll (w_tlinks w) l /\ forall t, t ∈ l -> is_Some (w_trans w !! t).

Record wf (X : gset Z) (w : world) : Prop := {
  wf_shape : shape X (tables_of w);
  wf_fd : fd_inv (w_fde w);
  wf_tlist : exists l, tlist w l;
  wf_tlock : w_tlock w = false
}.

(** ** Execution *)

Section run.
Implicit Types (w : world).

Lemma safe_sock_at a x w Q : w_socks w !! a = Some x -> Q x w -> safe (sock_at a) w Q.
Proof. intros Ha HQ. unfold safe, sock_at, bind, get, deref. by rewrite Ha. Qed.

Lemma safe_set_sock a x f w (Q : unit -> world -> Prop) :
  w_socks w !! a = Some x -> Q tt (upd_w_socks <[a := f x]> w) -> safe (set_sock a f) w Q.
Proof. intros Ha HQ. apply safe_bind. by eapply safe_sock_at. Qed.

Lemma safe_trans_at t x w Q : w_trans w !! t = Some x -> Q x w -> safe (trans_at t) w Q.
Proof. intros Ha HQ. unfold safe, trans_at, bind, get, deref. by rewrite Ha. Qed.

Lemma safe_set_trans t x f w (Q : unit -> world -> Prop) :
  w_trans w !! t = Some x -> Q tt (upd_w_trans <[t := f x]> w) -> safe (set_trans t f) w Q.
Proof. intros Ha HQ. apply safe_bind. by eapply safe_trans_at. Qed.

Lemma safe_lis_at l x w Q : w_lis w !! l = Some x -> Q x w -> safe (lis_at l) w Q.
Proof. intros Ha HQ. unfold safe, lis_at, bind, get, deref. by rewrite Ha. Qed.

Lemma safe_fde_call {A} (m : M (fdst fd_callback) A) w r s (Q : A -> world -> Prop) :
  m (w_fde w) = Ok (r, s) -> Q r (upd_w_fde (fun _ => s) w) -> safe (fde_call m) w Q.
Proof. intros Hm HQ. unfold safe, fde_call. by rewrite Hm. Qed.

Lemma safe_when (b : bool) m w (Q : unit -> world -> Prop) :
  (b = true -> safe m w Q) -> (b = false -> Q tt w) -> safe (when b m) w Q.
Proof. destruct b; cbn; auto. Qed.

Lemma safe_lock_sockets w (Q : unit -> world -> Prop) :
  w_slock w = false -> Q tt (upd_w_slock (fun _ => true) w) -> safe lock_sockets w Q.
Proof. intros Hl HQ. unfold safe, lock_sockets, bind, get. by rewrite Hl. Qed.

Lemma safe_lock_transports w (Q : unit -> world -> Prop) :
  w_tlock w = false -> Q tt (upd_w_tlock (fun _ => true) w) -> safe lock_transports w Q.
Proof. intros Hl HQ. unfold safe, lock_transports, bind, get. by rewrite Hl. Qed.

End run.

Lemma filter_absent (a : Z) (l : list Z) : a ∉ l -> filter (fun c => c <> a) l = l.
Proof.
  induction l as [|c l IH]; [done|]. rewrite elem_of_cons. intros Hn.
  rewrite filter_cons_True by naive_solver. rewrite IH by naive_solver. done.
Qed.

(** What closing and writing leave alone. *)
Record kept (w w' : world) : Prop := {
  kept_next : w_next w' = w_next w;
  kept_links : w_tlinks w' = w_tlinks w;
  kept_fresh : w_fresh_fds w' = w_fresh_fds w;
  kept_junk : w_junk w' = w_junk w;
  kept_slock : w_slock w' = w_slock w;
  kept_fds : fdmap (w_fde w') ⊆ fdmap (w_fde w);
  kept_trans : forall t x, w_trans w !! t = Some x ->
    exists x', w_trans w' !! t = Some x' /\ t_connection_state x' = t_connection_state x
}.

Lemma kept_refl w : kept w w.
Proof. constructor; eauto. Qed.

Lemma kept_then w1 w2 w3 : kept w1 w2 -> kept w2 w3 -> kept w1 w3.
Proof.
  intros [] [? ? ? ? ? ? Ht]. constructor; try congruence; [by etrans|].
  intros t x Hx. destruct (kept_trans0 t x Hx) as (y & Hy & Hs). destruct (Ht t y Hy) as (z & Hz & ?).
  exists z. split; [done|congruence].
Qed.

(** With unsent packets the socket stays, marked as closing, and keeps its
    queue and its peer field. *)
Definition left_closing (a : Z) (w w' : world) : Prop :=
  forall x, w_socks w !! a = Some x -> s_pkts x <> [] ->
    exists x', w_socks w' !! a = Some x' /\ s_closing x' = true /\ s_peer x' = s_peer x /\
      s_pkts x' = s_pkts x /\ s_fd x' = s_fd x /\ s_enqueue x' = s_enqueue x /\ s_close x' = s_close x.

(** One local socket is gone or waits on the closing list. *)
Record closed_local (a : Z) (w w' : world) : Prop := {
  cl_kept : kept w w';
  cl_trans : w_trans w' = w_trans w;
  cl_trackers : w_trackers w' = w_trackers w;
  cl_socks : forall c, c <> a -> w_socks w' !! c = w_socks w !! c;
  cl_gone : a ∉ w_local w';
  cl_left : left_closing a w w'
}.

Lemma wf_local_fd X w a x :
  wf X w -> w_socks w !! a = Some x -> is_local x -> fdmap (w_fde w) !! a = Some (s_fd x).
Proof.
  intros Hw Ha Hl. pose proof (sh_sock _ _ (wf_shape _ _ Hw) _ _ Ha) as Hok.
  unfold sock_ok in Hok. rewrite Hl in Hok. apply Hok.
Qed.

Lemma wf_local_listed X w a x :
  wf X w -> w_socks w !! a = Some x -> is_local x -> s_closing x = false -> a ∈ w_local w.
Proof.
  intros Hw Ha Hl Hc. pose proof (sh_sock _ _ (wf_shape _ _ Hw) _ _ Ha) as Hok.
  unfold sock_ok in Hok. rewrite Hl, Hc in Hok. apply Hok.
Qed.

Lemma wf_not_tracker X w a x :
  wf X w -> w_socks w !! a = Some x -> s_enqueue x <> device_tracker_enqueue_p -> a ∉ w_trackers w.
Proof.
  intros Hw Ha He (y & Hy & ?)%(sh_trackers _ _ (wf_shape _ _ Hw)). cbn in Hy. congruence.
Qed.

Lemma wf_not_listed X w a x :
  wf X w -> w_socks w !! a = Some x -> ~ is_local x -> (a ∉ w_local w) /\ a ∉ w_closing w.
Proof.
  intros Hw Ha Hl. pose proof (wf_shape _ _ Hw) as Hs.
  split; [intros (y & Hy & ? & _)%(sh_local _ _ Hs)|intros (y & Hy & ? & _)%(sh_closing _ _ Hs)];
    cbn in Hy; congruence.
Qed.

Lemma on_list_true a w : a ∈ w_local w \/ a ∈ w_closing w -> on_list a w = true.
Proof. intros H. unfold on_list. apply orb_true_iff. by rewrite !bool_decide_eq_true. Qed.

Lemma destroy_ok X w a x :
  wf X w -> a ∈ X -> w_socks w !! a = Some x -> is_local x -> s_closing x = false -> s_pkts x = [] ->
  safe (local_socket_destroy a) w (fun _ w' => wf (X ∖ {[a]}) w' /\ closed_local a w w').
Proof.
  intros Hw HaX Ha Hl Hc Hpk. pose proof (wf_shape _ _ Hw) as Hs.
  destruct (event_remove _ _ _ (wf_fd _ _ Hw) (wf_local_fd _ _ _ _ Hw Ha Hl)) as (s1 & Hr & Hi1 & Hm1).
  pose proof (wf_local_listed _ _ _ _ Hw Ha Hl Hc) as HL.
  destruct (event_free s1 a Hi1) as [Hi2 Hm2]; [by rewrite Hm1, lookup_delete_eq|].
  apply safe_bind. eapply safe_fde_call; [done|]. apply safe_bind, safe_bind, safe_get.
  rewrite on_list_true by (left; done). cbn [when].
  apply safe_bind, safe_modify, safe_bind, safe_modify. eapply safe_set_sock; [done|].
  apply safe_bind, safe_modify, safe_modify. split.
  - constructor; [|exact Hi2|apply Hw|apply Hw]. unfold tables_of. cbn.
    rewrite Hm2, Hm1, delete_insert_eq.
    rewrite <- (filter_absent a (w_trackers w)) by (eapply wf_not_tracker; [done..|by rewrite Hl]).
    eapply (shape_drop X (tables_of w)); [done..|]. eapply drops_entry_none; [done..|by rewrite Hl].
  - constructor; try done.
    + constructor; try done; [|eauto]. cbn. rewrite Hm2, Hm1. apply delete_subseteq.
    + intros c Hne. cbn. by rewrite lookup_delete_ne, lookup_insert_ne.
    + cbn. rewrite list_elem_of_filter. tauto.
    + intros x' Hx' Hne. simplify_eq.
Qed.

Lemma finish_ok X w a x :
  wf X w -> a ∈ X -> w_socks w !! a = Some x -> is_local x -> s_closing x = false ->
  safe (local_socket_finish a) w (fun _ w' => wf (X ∖ {[a]}) w' /\ closed_local a w w').
Proof.
  intros Hw HaX Ha Hl Hc. pose proof (wf_shape _ _ Hw) as Hs.
  pose proof (wf_local_listed _ _ _ _ Hw Ha Hl Hc) as HL.
  apply safe_bind. eapply safe_sock_at; [done|]. rewrite Hc. cbn [orb].
  case_bool_decide; [by eapply destroy_ok|].
  apply safe_bind. eapply safe_set_sock; [done|].
  destruct (event_del _ _ _ FDE_READ (wf_fd _ _ Hw) (wf_local_fd _ _ _ _ Hw Ha Hl))
    as (s1 & Hr & Hi1 & Hm1).
  apply safe_bind. eapply safe_fde_call; [done|]. apply safe_bind, safe_bind, safe_get.
  rewrite on_list_true by (left; done). cbn [when].
  apply safe_bind, safe_modify, safe_bind, safe_modify.
  eapply safe_set_sock; [by cbn; rewrite lookup_insert_eq|]. apply safe_modify. split.
  - constructor; [|exact Hi1|apply Hw|apply Hw]. unfold tables_of. cbn. rewrite Hm1, insert_insert_eq.
    eapply (shape_to_closing X (tables_of w)); try done. by apply (sh_tags _ _ Hs a x).
  - constructor; try done.
    + constructor; try done; [|eauto]. cbn. by rewrite Hm1.
    + intros c Hne. cbn. by rewrite !lookup_insert_ne.
    + cbn. rewrite list_elem_of_filter. tauto.
    + intros x' Hx' Hne. simplify_eq. eexists. cbn. rewrite lookup_insert_eq. done.
Qed.

(** ** Sending *)

Definition fits (p : apacket) : Prop := (Z.to_nat (data_length (msg p)) <= length (pk_data p))%nat.

Lemma fill_fits p : fits p -> exists q, send_packet_fill p = Some q.
Proof.
  intros Hp. unfold send_packet_fill. rewrite sum_bytes_spec; [eauto|unfold is_u32, two32; lia|done].
Qed.

Lemma message_fits cmd a0 a1 junk : fits (message cmd a0 a1 (get_apacket junk)).
Proof. unfold fits. cbn. lia. Qed.

(** A new packet has room for MAX_PAYLOAD bytes. *)
Lemma safe_put_data l junk (w : world) Q :
  Z.of_nat (length l) <= MAX_PAYLOAD ->
  (forall p, p = fill_data l (get_apacket (resize (Z.to_nat MAX_PAYLOAD) 0 junk)) ->
     Z.of_nat (length (pk_data p)) = MAX_PAYLOAD -> Q p w) ->
  safe (put_data l (get_apacket (resize (Z.to_nat MAX_PAYLOAD) 0 junk))) w Q.
Proof.
  intros Hl HQ.
  assert ((length l <= length (resize (Z.to_nat MAX_PAYLOAD) 0%Z junk))%nat) as Hfit
    by (rewrite length_resize; unfold MAX_PAYLOAD in *; lia).
  eapply safe_ok; [by apply put_data_fits|]. apply HQ; [done|].
  rewrite fill_data_length by done. cbn [pk_data get_apacket].
  rewrite length_resize. unfold MAX_PAYLOAD. lia.
Qed.

(** The transport [t] changed, but not its disconnect list and its state. *)
Definition sent (t : Z) (w w' : world) : Prop :=
  exists tr tr', w_trans w !! t = Some tr /\ w' = upd_w_trans <[t := tr']> w /\
    t_disconnects tr' = t_disconnects tr /\ t_connection_state tr' = t_connection_state tr.

Lemma tlist_trans w t tr tr' l :
  tlist w l -> w_trans w !! t = Some tr -> tlist (upd_w_trans <[t := tr']> w) l.
Proof.
  intros (H1 & H2) Ht. split; [done|]. intros u Hu. cbn.
  destruct (decide (u = t)) as [->|Hne]; [rewrite lookup_insert_eq; eauto|].
  rewrite lookup_insert_ne by done. by apply H2.
Qed.

Lemma wf_trans X w t tr tr' :
  wf X w -> w_trans w !! t = Some tr -> t_disconnects tr' = t_disconnects tr ->
  wf X (upd_w_trans <[t := tr']> w).
Proof.
  intros [H1 H2 [l H3] H4] Ht Hd. constructor; try done.
  - by apply (shape_trans X (tables_of w) t tr tr').
  - exists l. by eapply tlist_trans.
Qed.

Lemma kept_upd_trans w t tr tr' :
  w_trans w !! t = Some tr -> t_connection_state tr' = t_connection_state tr ->
  kept w (upd_w_trans <[t := tr']> w).
Proof.
  intros Ht Hs. constructor; try done. intros u x Hu. cbn.
  destruct (decide (u = t)) as [->|Hne]; [rewrite lookup_insert_eq; simplify_eq; eauto|].
  rewrite lookup_insert_ne by done. eauto.
Qed.

Lemma sent_kept t w w' : sent t w w' -> kept w w'.
Proof. intros (tr & tr' & Ht & -> & _ & Hs). by eapply kept_upd_trans. Qed.

Lemma sent_wf X t w w' : wf X w -> sent t w w' -> wf X w'.
Proof. intros Hw (tr & tr' & Ht & -> & Hd & _). by eapply wf_trans. Qed.

Lemma send_ok w p t tr (Q : unit -> world -> Prop) :
  w_trans w !! t = Some tr -> fits p -> (forall w', sent t w w' -> Q tt w') ->
  safe (send_packet p (Some t)) w Q.
Proof.
  intros Ht Hp HQ. destruct (fill_fits p Hp) as [q Hq]. unfold send_packet. rewrite Hq.
  apply safe_bind, safe_deref_some, safe_bind. eapply safe_trans_at; [done|].
  assert (safe (set_trans t (fun x => upd_t_queue (fun l => l ++ [q]) (upd_t_answers tail x))) w Q)
    as Hset.
  { eapply safe_set_trans; [done|]. apply HQ. eexists tr, _. split_and!; [done|done|done|done]. }
  destruct (t_answers tr) as [|[] ?]; [done|done|apply safe_fatal].
Qed.

Lemma remove_disconnect_ok w t tr d (Q : unit -> world -> Prop) :
  w_trans w !! t = Some tr ->
  Q tt (upd_w_trans <[t := upd_t_disconnects (filter (fun e => e <> d)) tr]> w) ->
  safe (remove_transport_disconnect (Some t) d) w Q.
Proof. intros Ht HQ. apply safe_bind, safe_deref_some. by eapply safe_set_trans. Qed.

(** ** Closing the far end *)

(** The socket [a], not a local one, is gone. *)
Record dropped (a : Z) (w w' : world) : Prop := {
  dr_kept : kept w w';
  dr_socks : w_socks w' = delete a (w_socks w);
  dr_local : w_local w' = w_local w;
  dr_trackers : w_trackers w' = filter (fun c => c <> a) (w_trackers w)
}.

Lemma wf_nonlocal_fd X w a x :
  wf X w -> w_socks w !! a = Some x -> ~ is_local x -> fdmap (w_fde w) !! a = None.
Proof.
  intros Hw Ha Hl. pose proof (sh_sock _ _ (wf_shape _ _ Hw) _ _ Ha) as Hok.
  unfold sock_ok, is_local in *. destruct (s_enqueue x); tauto.
Qed.

(** Freeing the socket, when its entry is gone. *)
Lemma free_nonlocal_ok X w a x T l :
  wf X w -> a ∈ X -> w_socks w !! a = Some x -> ~ is_local x -> drops_entry a (w_trans w) T ->
  (s_enqueue x = device_tracker_enqueue_p -> l = filter (fun c => c <> a) (w_trackers w)) ->
  (s_enqueue x <> device_tracker_enqueue_p -> l = w_trackers w) ->
  (forall t tr, w_trans w !! t = Some tr ->
     exists tr', T !! t = Some tr' /\ t_connection_state tr' = t_connection_state tr) ->
  safe (free_sock a) (upd_w_trackers (fun _ => l) (upd_w_trans (fun _ => T) w))
    (fun _ w' => wf (X ∖ {[a]}) w' /\ dropped a w w' /\ w_trans w' = T).
Proof.
  intros Hw HaX Ha Hl HT Htr Hnt Hst. pose proof (wf_nonlocal_fd _ _ _ _ Hw Ha Hl) as Hfd.
  assert (l = filter (fun c => c <> a) (w_trackers w)) as ->.
  { destruct (decide (s_enqueue x = device_tracker_enqueue_p)); [auto|].
    rewrite filter_absent by (by eapply wf_not_tracker). auto. }
  destruct (event_free (w_fde w) a (wf_fd _ _ Hw) Hfd) as [Hi Hm].
  destruct (wf_not_listed _ _ _ _ Hw Ha Hl) as [HL HC].
  apply safe_bind, safe_modify, safe_modify. split_and!; [| |done].
  - constructor; [|exact Hi| |apply Hw].
    + unfold tables_of. cbn. rewrite Hm, <- (delete_id _ _ Hfd).
      rewrite <- (filter_absent a (w_local w)), <- (filter_absent a (w_closing w)) by done.
      apply (shape_drop X (tables_of w) a x T); try done. apply Hw.
    + destruct (wf_tlist _ _ Hw) as (ts & H1 & H2). exists ts. split; [done|].
      intros t [tr Ht]%H2. destruct (Hst t tr Ht) as (tr' & ? & _). by exists tr'.
  - constructor; try done. constructor; try done. cbn. by rewrite Hm.
Qed.

Lemma wf_remote X w a x :
  wf X w -> w_socks w !! a = Some x -> s_enqueue x = remote_socket_enqueue_p ->
  exists t tr, s_transport x = Some t /\ w_trans w !! t = Some tr.
Proof.
  intros Hw Ha He. pose proof (sh_sock _ _ (wf_shape _ _ Hw) _ _ Ha) as Hok.
  unfold sock_ok in Hok. rewrite He in Hok. destruct Hok as (_ & _ & t & tr & ? & ? & _). eauto.
Qed.

(** The end of [remote_socket_close] and [remote_socket_disconnect]. *)
Lemma forget_remote_ok X w a x t tr :
  wf X w -> a ∈ X -> w_socks w !! a = Some x -> s_enqueue x = remote_socket_enqueue_p ->
  s_transport x = Some t -> w_trans w !! t = Some tr ->
  safe (remove_transport_disconnect (s_transport x) (remote_socket_disconnect_p a) ;; free_sock a) w
    (fun _ w' => wf (X ∖ {[a]}) w' /\ dropped a w w' /\
       w_trans w' = <[t := upd_t_disconnects
                             (filter (fun e => e <> remote_socket_disconnect_p a)) tr]> (w_trans w)).
Proof.
  intros Hw HaX Ha He Hxt Ht. rewrite Hxt. apply safe_bind. eapply remove_disconnect_ok; [done|].
  eapply (free_nonlocal_ok X w a x (<[t := _]> (w_trans w)) (w_trackers w)); try done.
  - unfold is_local. by rewrite He.
  - by eapply (drops_entry_filter X (tables_of w)); try apply Hw.
  - by rewrite He.
  - intros u x' Hu. destruct (decide (u = t)) as [->|Hne]; [rewrite lookup_insert_eq|].
    + simplify_eq. by eexists.
    + rewrite lookup_insert_ne by done. eauto.
Qed.

Section lone.
Context (close close_locked : Z -> M world unit) (X : gset Z) (w : world) (a : Z) (x : asocket).
Context (Hw : wf X w) (HaX : a ∈ X) (Ha : w_socks w !! a = Some x) (Hp : s_peer x = None).

Lemma dropped_sent t w1 w' : sent t w w1 -> dropped a w1 w' -> dropped a w w'.
Proof.
  intros Hs [H1 H2 H3 H4]. pose proof Hs as (tr & tr' & _ & -> & _). constructor; try done.
  eapply kept_then; [by eapply sent_kept|done].
Qed.

Lemma remote_close_lone :
  s_enqueue x = remote_socket_enqueue_p ->
  safe (remote_socket_close close a) w (fun _ w' => wf (X ∖ {[a]}) w' /\ dropped a w w').
Proof.
  intros He. destruct (wf_remote _ _ _ _ Hw Ha He) as (t & tr & Hxt & Ht).
  unfold remote_socket_close, new_packet.
  apply safe_bind, safe_bind, safe_get, safe_ret, safe_bind. eapply safe_sock_at; [done|].
  rewrite Hp. apply safe_bind, safe_ret, safe_bind. eapply safe_sock_at; [done|].
  apply safe_bind. rewrite Hxt at 1. eapply send_ok; [done|apply message_fits|].
  intros w1 Hsent. pose proof (sent_wf _ _ _ _ Hw Hsent) as Hw1.
  pose proof Hsent as (tr0 & tr1 & _ & Heq & _).
  eapply safe_mono; [eapply (forget_remote_ok X w1 a x t tr1); try done|].
  - by rewrite Heq.
  - rewrite Heq. cbn. apply lookup_insert_eq.
  - intros _ w' (H1 & H2 & _). split; [done|]. by eapply dropped_sent.
Qed.

Lemma smart_close_lone :
  s_enqueue x = smart_socket_enqueue_p ->
  safe (smart_socket_close close a) w (fun _ w' => wf (X ∖ {[a]}) w' /\ dropped a w w').
Proof.
  intros He. apply safe_bind. eapply safe_sock_at; [done|]. rewrite Hp. apply safe_bind, safe_ret.
  eapply safe_mono; [eapply (free_nonlocal_ok X w a x (w_trans w) (w_trackers w))|]; try done.
  - unfold is_local. by rewrite He.
  - eapply (drops_entry_none X (tables_of w)); [apply Hw|done|]. by rewrite He.
  - by rewrite He.
  - eauto.
  - by intros _ w' (? & ? & _).
Qed.

Lemma tracker_close_lone :
  s_enqueue x = device_tracker_enqueue_p ->
  safe (device_tracker_close close a) w (fun _ w' => wf (X ∖ {[a]}) w' /\ dropped a w w').
Proof.
  intros He. apply safe_bind. eapply safe_sock_at; [done|]. rewrite Hp. apply safe_bind, safe_ret.
  apply safe_bind, safe_bind, safe_lock_transports; [apply Hw|]. apply safe_bind, safe_modify, safe_modify.
  eapply safe_mono; [eapply (free_nonlocal_ok X (upd_w_tlock (fun _ => false) w) a x (w_trans w)
    (filter (fun c => c <> a) (w_trackers w)))|]; try done.
  - constructor; try apply Hw. done.
  - unfold is_local. by rewrite He.
  - eapply (drops_entry_none X (tables_of w)); [apply Hw|done|]. by rewrite He.
  - eauto.
  - intros _ w' (H1 & [K1 K2 K3 K4] & _). split; [done|]. constructor; try done.
    destruct K1. by constructor.
Qed.

End lone.

(** [s->close(s)] for a socket that is not local and has lost its peer. *)
Lemma close_lone_ok X w n a x :
  wf X w -> a ∈ X -> w_socks w !! a = Some x -> s_peer x = None -> ~ is_local x ->
  safe (sock_close_n (S n) false a) w (fun _ w' => wf (X ∖ {[a]}) w' /\ dropped a w w').
Proof.
  intros Hw HaX Ha Hp Hl. pose proof (sh_tags _ _ (wf_shape _ _ Hw) _ _ Ha) as Htag.
  unfold tags_ok, is_local in *. cbn [sock_close_n]. apply safe_bind. eapply safe_sock_at; [done|].
  destruct (s_enqueue x) eqn:He; [done|..]; destruct Htag as [-> _].
  - by eapply remote_close_lone.
  - by eapply smart_close_lone.
  - by eapply tracker_close_lone.
Qed.

(** ** Closing a local socket *)

Lemma wf_same_set X Y w : wf X w -> X ≡ Y -> wf Y w.
Proof. intros Hw HXY. apply leibniz_equiv in HXY. by subst. Qed.

Lemma close_local_lone X w n a x :
  wf X w -> a ∈ X -> w_socks w !! a = Some x -> is_local x -> s_closing x = false ->
  s_peer x = None ->
  safe (sock_close_n (S n) true a) w (fun _ w' => wf (X ∖ {[a]}) w' /\ closed_local a w w').
Proof.
  intros Hw HaX Ha Hl Hc Hp. cbn [sock_close_n]. apply safe_bind. eapply safe_sock_at; [done|].
  rewrite Hp. apply safe_bind, safe_ret. by eapply finish_ok.
Qed.

(** The packets of a socket. *)
Lemma wf_pkts X w a x : wf X w -> w_socks w !! a = Some x -> pkts_ok x.
Proof.
  intros Hw Ha. pose proof (sh_sock _ _ (wf_shape _ _ Hw) _ _ Ha) as Hok.
  unfold sock_ok, pkts_ok in *. destruct (s_enqueue x); tauto.
Qed.

(** [p->peer = 0] for an exempt socket. *)
Lemma clear_peer_ok X w a x (Q : unit -> world -> Prop) :
  wf X w -> a ∈ X -> w_socks w !! a = Some x ->
  (forall w', w' = upd_w_socks <[a := upd_s_peer (fun _ => None) x]> w -> wf X w' -> Q tt w') ->
  safe (clear_peer a) w Q.
Proof.
  intros Hw HaX Ha HQ. eapply safe_set_sock; [done|]. apply HQ; [done|].
  pose proof (wf_shape _ _ Hw) as Hs. constructor; try apply Hw.
  eapply (shape_update X (tables_of w)); try done.
  - apply (sh_tags _ _ Hs a x Ha).
  - exact (wf_pkts X w a x Hw Ha).
  - by left.
Qed.

Lemma wf_peer X w a x q :
  wf X w -> w_socks w !! a = Some x -> a ∉ X -> s_closing x = false -> s_peer x = Some q ->
  q <> a /\ s_close x <> local_socket_close_notify_p /\
  exists y, w_socks w !! q = Some y /\ s_closing y = false /\ s_peer y = Some a /\
    (is_local x \/ is_local y) /\ s_close y <> local_socket_close_notify_p.
Proof.
  intros Hw Ha HX Hc Hp. pose proof (wf_shape _ _ Hw) as Hs.
  pose proof (sh_peer _ _ Hs _ _ Ha HX Hc) as Hok. unfold peer_ok in Hok. rewrite Hp in Hok.
  destruct Hok as (H1 & H2 & H3 & y & Hy & H4 & H5 & H6). split_and!; try done.
  exists y. split_and!; try done.
  pose proof (sh_peer _ _ Hs _ _ Hy H2 H4) as Hok. unfold peer_ok in Hok. rewrite H5 in Hok.
  tauto.
Qed.

Definition without_peer (x : asocket) (l : list Z) : list Z :=
  match s_peer x with Some p => filter (fun c => c <> p) l | None => l end.

(** The local socket [a] with record [x], and its peer, are closed. *)
Record closed_pair (a : Z) (x : asocket) (w w' : world) : Prop := {
  cp_kept : kept w w';
  cp_trackers : w_trackers w' = without_peer x (w_trackers w);
  cp_socks : forall c, c <> a -> s_peer x <> Some c -> w_socks w' !! c = w_socks w !! c;
  cp_gone : a ∉ w_local w';
  cp_peer : forall q y, s_peer x = Some q -> w_socks w !! q = Some y -> ~ is_local y ->
    w_socks w' !! q = None;
  cp_left : s_close x = local_socket_close_p -> left_closing a w w'
}.

Lemma kept_socks f w : kept w (upd_w_socks f w).
Proof. constructor; eauto. Qed.

Lemma local_tags x : tags_ok x -> s_close x <> local_socket_close_notify_p ->
  s_close x = local_socket_close_p <-> is_local x.
Proof.
  unfold tags_ok, is_local. destruct (s_enqueue x); intuition congruence.
Qed.

(** The peer, detached, is closed by either function. *)
Lemma close_peer_ok w n a q y :
  wf {[a; q]} w -> q <> a -> w_socks w !! q = Some y -> s_peer y = None -> s_closing y = false ->
  s_close y <> local_socket_close_notify_p ->
  safe (if bool_decide (s_close y = local_socket_close_p) then sock_close_n (S n) true q
        else sock_close_n (S n) false q) w
    (fun _ w' => wf {[a]} w' /\ kept w w' /\ w_trackers w' = filter (fun c => c <> q) (w_trackers w) /\
       (forall c, c <> q -> w_socks w' !! c = w_socks w !! c) /\
       (~ is_local y -> w_socks w' !! q = None)).
Proof.
  intros Hw Hne Hq Hp Hc Hn. pose proof (sh_tags _ _ (wf_shape _ _ Hw) _ _ Hq) as Htag.
  assert (({[a; q]} : gset Z) ∖ {[q]} ≡ {[a]}) as HX by set_solver.
  case_bool_decide as Hcl.
  - apply (local_tags y Htag Hn) in Hcl as Hl.
    eapply safe_mono; [eapply (close_local_lone {[a; q]} w n q y); try done; set_solver|].
    intros _ w' (H1 & H2). split_and!; [by eapply wf_same_set|apply H2| |apply H2|done].
    rewrite (cl_trackers _ _ _ H2), filter_absent; [done|].
    eapply wf_not_tracker; [done..|]. by rewrite Hl.
  - assert (~ is_local y) as Hl by (by rewrite <- local_tags).
    eapply safe_mono; [eapply (close_lone_ok {[a; q]} w n q y); try done; set_solver|].
    intros _ w' (H1 & H2). split_and!; [by eapply wf_same_set|apply H2|apply H2|..];
      rewrite (dr_socks _ _ _ H2).
    + intros c Hcq. by rewrite lookup_delete_ne.
    + intros _. apply lookup_delete_eq.
Qed.

Lemma close_locked_ok w n a x :
  wf ∅ w -> w_socks w !! a = Some x -> is_local x -> s_closing x = false ->
  safe (sock_close_n (S (S n)) true a) w (fun _ w' => wf ∅ w' /\ closed_pair a x w w').
Proof.
  intros Hw Ha Hl Hc. destruct (s_peer x) as [q|] eqn:Hp.
  - destruct (wf_peer _ _ _ _ _ Hw Ha ltac:(set_solver) Hc Hp)
      as (Hne & Hn & y & Hy & Hyc & Hyp & _ & Hyn).
    assert (wf {[a; q]} w) as Hw2.
    { eapply (wf_same_set ({[a; q]} ∪ ∅)); [|set_solver]. constructor; try apply Hw.
      eapply shape_open_pair; [apply Hw|done|set_solver|done..]. }
    change (sock_close_n (S (S n)) true a)
      with (local_socket_close_locked (sock_close_n (S n) false) (sock_close_n (S n) true) a).
    apply safe_bind. eapply safe_sock_at; [done|]. rewrite Hp.
    apply safe_bind, safe_bind. eapply (clear_peer_ok _ w q); [exact Hw2|set_solver|exact Hy|].
    intros w1 -> Hw1. apply safe_bind. eapply safe_sock_at; [cbn; apply lookup_insert_eq|].
    eapply safe_mono; [by eapply close_peer_ok; try done; apply lookup_insert_eq|].
    intros _ w2 (Hw3 & K1 & K2 & K3 & K4). cbn in K2, K3.
    assert (w_socks w2 !! a = Some x) as Ha2 by (by rewrite K3, lookup_insert_ne).
    eapply safe_mono; [eapply (finish_ok {[a]} w2 a x); try done; set_solver|].
    intros _ w' (H1 & H2). split; [eapply wf_same_set; [done|set_solver]|].
    constructor.
    + eapply kept_then; [apply kept_socks|]. eapply kept_then; [done|apply H2].
    + unfold without_peer. by rewrite Hp, (cl_trackers _ _ _ H2), K2.
    + intros c Hca Hcq. rewrite (cl_socks _ _ _ H2), K3, lookup_insert_ne by naive_solver. done.
    + apply H2.
    + intros q' y' Hq' Hy' Hyl. simplify_eq. rewrite (cl_socks _ _ _ H2) by done. by apply K4.
    + intros _ x' Hx' Hpk. simplify_eq. by apply (cl_left _ _ _ H2).
  - assert (wf {[a]} w) as Hw2.
    { eapply (wf_same_set ({[a]} ∪ ∅)); [|set_solver]. constructor; try apply Hw.
      eapply shape_open; [apply Hw|done..]. }
    eapply safe_mono; [eapply (close_local_lone {[a]} w _ a x); try done; set_solver|].
    intros _ w' (H1 & H2). split; [eapply wf_same_set; [done|set_solver]|].
    constructor; try apply H2.
    + unfold without_peer. by rewrite Hp, (cl_trackers _ _ _ H2).
    + intros c Hca _. by apply H2.
    + congruence.
    + intros _. apply H2.
Qed.

Lemma wf_slock X f w : wf X w -> wf X (upd_w_slock f w).
Proof. by intros []. Qed.

Lemma wf_out X f w : wf X w -> wf X (upd_w_out f w).
Proof. by intros []. Qed.

Lemma wf_in X f w : wf X w -> wf X (upd_w_in f w).
Proof. by intros []. Qed.

(** Changes of the lock and of the descriptors' data around a close. *)
Lemma closed_pair_around a x w w1 w2 w' :
  closed_pair a x w1 w2 -> w_socks w1 = w_socks w -> w_trackers w1 = w_trackers w ->
  kept w w' -> w_socks w' = w_socks w2 -> w_trackers w' = w_trackers w2 -> w_local w' = w_local w2 ->
  closed_pair a x w w'.
Proof.
  intros [H1 H2 H3 H4 H5 H6] E1 E2 Hk E3 E4 E5. unfold left_closing in H6. rewrite <- E3, E1 in H6.
  constructor; [done|by rewrite E4, H2, E2| |by rewrite E5| |done].
  - intros c Hca Hcp. rewrite E3, H3, E1; done.
  - intros q y Hq Hy Hl. rewrite E3. apply (H5 q y); [done|congruence|done].
Qed.

Lemma local_close_ok w n a x :
  wf ∅ w -> w_slock w = false -> w_socks w !! a = Some x -> is_local x -> s_closing x = false ->
  safe (local_socket_close (sock_close_n (S (S n)) true) a) w
    (fun _ w' => wf ∅ w' /\ closed_pair a x w w').
Proof.
  intros Hw Hsl Ha Hl Hc. apply safe_bind, safe_lock_sockets; [done|].
  apply safe_bind. eapply safe_mono; [eapply close_locked_ok; [by apply wf_slock|done..]|].
  intros _ w2 (H1 & H2). apply safe_modify. split; [by apply wf_slock|].
  eapply (closed_pair_around a x w _ w2); try done.
  destruct (cp_kept _ _ _ _ H2). constructor; try done.
Qed.

Lemma sendfailmsg_returns reason s : exists r s', sendfailmsg reason s = Ok (r, s').
Proof.
  unfold sendfailmsg, bind. generalize (Nat.min (length reason) (Z.to_nat 65535)). intros len.
  destruct (writex_returns (take 8 (snprintf 9 (bs "FAIL" ++ hex4 (Z.of_nat len)))) s)
    as (r & s1 & l & H & _).
  rewrite H. destruct r; [|by exists false, s1].
  destruct (writex_returns (take len reason) s1) as (r2 & s2 & l2 & H2 & _). rewrite H2.
  by exists r2, s2.
Qed.

Lemma safe_out_call {A} fd (m : M wrfd A) w (Q : A -> world -> Prop) :
  (forall s, exists r s', m s = Ok (r, s')) ->
  (forall r d, Q r (upd_w_out <[fd := d]> w)) -> safe (fd_out_call fd m) w Q.
Proof.
  intros Hm HQ. unfold safe, fd_out_call.
  destruct (Hm (default no_output (w_out w !! fd))) as (r & d & ->). apply HQ.
Qed.

Lemma safe_fd_write fd buf w (Q : io_ret -> world -> Prop) :
  (forall r d, Q r (upd_w_out <[fd := d]> w)) -> safe (fd_write fd buf) w Q.
Proof. intros HQ. unfold safe, fd_write. destruct (adb_write _ _) as [r d]. apply HQ. Qed.

(** Making a rigged socket an ordinary one again. *)
Definition plain (x : asocket) : asocket :=
  upd_s_ready (fun _ => local_socket_ready_p) (upd_s_close (fun _ => local_socket_close_p) x).

Lemma plain_ok X w a x :
  wf X w -> w_socks w !! a = Some x -> is_local x -> wf X (upd_w_socks <[a := plain x]> w).
Proof.
  intros Hw Ha Hl. pose proof (wf_shape _ _ Hw) as Hs. constructor; try apply Hw.
  eapply (shape_update X (tables_of w)); try done.
  - unfold tags_ok. cbn. rewrite Hl. by left.
  - exact (wf_pkts X w a x Hw Ha).
  - by right.
Qed.

Lemma call_close_n n a :
  sock_close_n (S n) false a = call_close (sock_close_n n false) (sock_close_n n true) a.
Proof. done. Qed.

Lemma sock_close_n_ok w n a x :
  wf ∅ w -> w_slock w = false -> w_socks w !! a = Some x -> is_local x -> s_closing x = false ->
  safe (sock_close_n (S (S (S (S n)))) false a) w (fun _ w' => wf ∅ w' /\ closed_pair a x w w').
Proof.
  intros Hw Hsl Ha Hl Hc. pose proof (sh_tags _ _ (wf_shape _ _ Hw) _ _ Ha) as Htag.
  unfold tags_ok in Htag. rewrite Hl in Htag. rewrite call_close_n.
  apply safe_bind. eapply safe_sock_at; [done|].
  destruct Htag as [[Hcl _]|[Hcl _]]; rewrite Hcl; [by apply local_close_ok|].
  apply safe_bind. eapply safe_set_sock; [done|]. apply safe_bind.
  eapply safe_sock_at; [cbn; apply lookup_insert_eq|]. apply safe_bind, safe_out_call.
  { apply sendfailmsg_returns. }
  intros r d. rewrite call_close_n. apply safe_bind.
  eapply safe_sock_at; [cbn; apply lookup_insert_eq|].
  eapply safe_mono; [eapply (local_close_ok _ n a (plain x)); try done|].
  - apply wf_out. by apply plain_ok.
  - cbn. apply lookup_insert_eq.
  - intros _ w' (H1 & [K1 K2 K3 K4 K5 _]). split; [done|]. constructor; [|done| |done| |].
    + destruct K1. by constructor.
    + intros c Hca Hcp. rewrite K3 by done. cbn. by rewrite lookup_insert_ne.
    + intros q y Hq Hy Hyl. apply (K5 q y); [done| |done]. cbn. rewrite lookup_insert_ne; [done|].
      intros ->. simplify_eq. by apply Hyl.
    + congruence.
Qed.

Lemma sock_close_ok w a x :
  wf ∅ w -> w_slock w = false -> w_socks w !! a = Some x -> is_local x -> s_closing x = false ->
  safe (sock_close a) w (fun _ w' => wf ∅ w' /\ closed_pair a x w w').
Proof. apply sock_close_n_ok. Qed.

(** ** Writing to a local socket *)

Definition out_of (w : world) (fd : Z) : wrfd := default no_output (w_out w !! fd).

(** The bytes of a packet that are still to be written. *)
Definition pkt_text (p : apacket) : list Z :=
  take (Z.to_nat (pk_len p)) (drop (Z.to_nat (pk_off p)) (pk_data p)).

Lemma pkt_bytes_text p : queued_ok p -> pkt_bytes p = Some (pkt_text p).
Proof.
  intros (H1 & H2 & H3). unfold pkt_bytes. apply Z.leb_le in H2 as ->. apply Z.leb_le in H3 as ->.
  done.
Qed.

Lemma pkt_text_length p : queued_ok p -> length (pkt_text p) = Z.to_nat (pk_len p).
Proof.
  intros (H1 & H2 & H3). unfold pkt_text. rewrite length_take, length_drop. lia.
Qed.

Lemma advance_text p l :
  queued_ok p -> l `prefix_of` pkt_text p ->
  queued_ok (advance (length l) p) /\ pkt_text p = l ++ pkt_text (advance (length l) p).
Proof.
  intros Hp [k Hk]. pose proof (pkt_text_length p Hp) as Hlen. rewrite Hk, length_app in Hlen.
  destruct Hp as (H1 & H2 & H3). unfold queued_ok. cbn. split; [lia|]. rewrite Hk. f_equal.
  unfold pkt_text in *. cbn.
  replace (Z.to_nat (pk_len p - Z.of_nat (length l))) with (Z.to_nat (pk_len p) - length l)%nat by lia.
  replace (Z.to_nat (pk_off p + Z.of_nat (length l))) with (Z.to_nat (pk_off p) + length l)%nat by lia.
  rewrite <- drop_drop, <- skipn_firstn_comm, Hk. by rewrite drop_app_length.
Qed.

(** How a loop of writes can leave the packet, the descriptor and the world. *)
Record wrote_ok (fd : Z) (p p' : apacket) (res : wrote) (w w' : world) : Prop := {
  wo_world : w' = upd_w_out (fun _ => w_out w') w;
  wo_other : forall fd', fd' <> fd -> w_out w' !! fd' = w_out w !! fd';
  wo_text : exists l, wr_out (out_of w' fd) = wr_out (out_of w fd) ++ l /\
    pkt_text p = l ++ pkt_text p';
  wo_bounds : queued_ok p';
  wo_data : pk_data p' = pk_data p;
  wo_done : res = WDone -> pk_len p' = 0;
  wo_block : res = WBlock -> 0 < pk_len p'
}.

Lemma wrote_ok_same fd p res w :
  queued_ok p -> (res = WDone -> pk_len p = 0) -> (res = WBlock -> 0 < pk_len p) ->
  wrote_ok fd p p res w w.
Proof. intros. constructor; try done; [by destruct w|]. exists []. by rewrite app_nil_r. Qed.

Lemma wrote_ok_step fd p p1 p' res w w1 w' l :
  w1 = upd_w_out (fun _ => w_out w1) w ->
  (forall fd', fd' <> fd -> w_out w1 !! fd' = w_out w !! fd') ->
  wr_out (out_of w1 fd) = wr_out (out_of w fd) ++ l -> pkt_text p = l ++ pkt_text p1 ->
  pk_data p1 = pk_data p -> wrote_ok fd p1 p' res w1 w' -> wrote_ok fd p p' res w w'.
Proof.
  intros E1 E2 E3 E4 E5 [F1 F2 (k & F3 & F4) F5 F6 F7 F8]. constructor; try done.
  - rewrite F1. cbn. rewrite E1. done.
  - intros fd' Hne. by rewrite F2, E2.
  - exists (l ++ k). rewrite F3, E3, E4, F4. by rewrite !app_assoc.
  - congruence.
Qed.

Lemma fd_write_ok fd buf w :
  exists r w1 l, fd_write fd buf w = Ok (r, w1) /\
    w1 = upd_w_out (fun _ => w_out w1) w /\
    (forall fd', fd' <> fd -> w_out w1 !! fd' = w_out w !! fd') /\
    wr_out (out_of w1 fd) = wr_out (out_of w fd) ++ l /\ l `prefix_of` buf /\
    (forall k, r = Got k -> k = l) /\ (forall e, r = Failed e -> l = []) /\
    (length (wr_script (out_of w1 fd)) <= length (wr_script (out_of w fd)))%nat /\
    (wr_script (out_of w fd) <> [] ->
       (length (wr_script (out_of w1 fd)) < length (wr_script (out_of w fd)))%nat) /\
    (wr_script (out_of w fd) = [] -> r = Got buf).
Proof.
  unfold fd_write. fold (out_of w fd). destruct (adb_write buf (out_of w fd)) as [r d] eqn:Hr.
  exists r, (upd_w_out <[fd := d]> w).
  destruct (adb_write_out _ _ _ _ Hr) as (l & Hl & Hg). exists l.
  destruct (adb_write_progress _ _ _ _ Hr) as (P1 & P2 & P3).
  assert (out_of (upd_w_out <[fd := d]> w) fd = d) as Hd.
  { unfold out_of. cbn. by rewrite lookup_insert_eq. }
  rewrite Hd. split_and!; try done.
  - intros fd' Hne. cbn. by rewrite lookup_insert_ne.
  - destruct r; [by destruct Hg|]. subst. apply prefix_nil.
  - intros k ->. by destruct Hg.
  - by intros e ->.
  - intros Hs. unfold adb_write in Hr. rewrite Hs in Hr. congruence.
Qed.

Lemma write_loop_ok fuel eintr fd p w :
  queued_ok p -> (length (wr_script (out_of w fd)) < fuel)%nat ->
  exists p' res w', write_loop fuel eintr fd p w = Ok ((p', res), w') /\ wrote_ok fd p p' res w w'.
Proof.
  revert p w. induction fuel as [|f IH]; intros p w Hp Hf; [lia|]. cbn [write_loop].
  destruct (Z.ltb_spec 0 (pk_len p)) as [Hpos|Hneg].
  2: { exists p, WDone, w. split; [done|]. destruct Hp as (? & ?).
       apply wrote_ok_same; try done. intros _. lia. }
  rewrite (pkt_bytes_text p Hp). unfold bind at 1, deref, ret at 1.
  destruct (fd_write_ok fd (pkt_text p) w)
    as (r & w1 & l & Hr & E1 & E2 & E3 & E4 & E5 & E9 & E6 & E7 & E8).
  unfold bind at 1. rewrite Hr.
  assert (forall p1, pkt_text p = l ++ pkt_text p1 -> pk_data p1 = pk_data p -> queued_ok p1 ->
            wr_script (out_of w fd) <> [] \/ pk_len p1 = 0 ->
            exists p' res w', write_loop f eintr fd p1 w1 = Ok ((p', res), w') /\
              wrote_ok fd p p' res w w') as Hgo.
  { intros p1 Ht Hd Hp1 Hs. destruct Hs as [Hs|H0].
    - destruct (IH p1 w1 Hp1) as (p' & res & w' & H1 & H2); [specialize (E7 Hs); lia|].
      exists p', res, w'. split; [done|]. by eapply wrote_ok_step.
    - exists p1, WDone, w1. split; [destruct f; cbn [write_loop]; by rewrite H0|].
      eapply (wrote_ok_step fd p p1); try done. by apply wrote_ok_same. }
  assert (forall res, l = [] -> (res = WBlock -> 0 < pk_len p) -> res <> WDone ->
            wrote_ok fd p p res w w1) as Hstop.
  { intros res -> Hres Hnd. eapply (wrote_ok_step fd p p); try done. by apply wrote_ok_same. }
  assert (wr_script (out_of w fd) = [] -> l = pkt_text p) as Hall.
  { intros Hs. symmetry. apply E5. by rewrite E8. }
  pose proof (pkt_text_length p Hp) as Hlen.
  assert (l = [] -> wr_script (out_of w fd) <> []) as Hne.
  { intros -> Hs. rewrite <- (Hall Hs) in Hlen. cbn in Hlen. lia. }
  destruct r as [[|b k]|e].
  - eexists p, WClosed, w1. split; [done|]. apply Hstop; try done. symmetry. by apply E5.
  - pose proof (E5 _ eq_refl) as Hk. rewrite Hk.
    destruct (advance_text p l Hp E4) as [Ha1 Ha2]. apply Hgo; try done.
    destruct (decide (wr_script (out_of w fd) = [])) as [Hs|Hs]; [right|by left].
    cbn. rewrite (Hall Hs), Hlen. destruct Hp as (? & _). lia.
  - pose proof (E9 _ eq_refl) as Hl0.
    destruct e; [|eexists p, WBlock, w1; split; [done|]; by apply Hstop|
      eexists p, WClosed, w1; split; [done|]; by apply Hstop ..].
    destruct eintr; [|eexists p, WClosed, w1; split; [done|]; by apply Hstop].
    apply Hgo; try done; [by subst|left; by apply Hne].
Qed.

Lemma write_packet_to_ok eintr fd p w :
  queued_ok p ->
  exists p' res w', write_packet_to eintr fd p w = Ok ((p', res), w') /\ wrote_ok fd p p' res w w'.
Proof. intros Hp. apply write_loop_ok; [done|]. fold (out_of w fd). lia. Qed.

Lemma queued_all X w a x :
  wf X w -> w_socks w !! a = Some x -> is_local x -> Forall queued_ok (s_pkts x).
Proof.
  intros Hw Ha Hl. pose proof (sh_sock _ _ (wf_shape _ _ Hw) _ _ Ha) as Hok.
  unfold sock_ok in Hok. rewrite Hl in Hok. apply Hok.
Qed.

Lemma set_pkts_ok X w a x q :
  wf X w -> w_socks w !! a = Some x -> is_local x -> Forall queued_ok q ->
  wf X (upd_w_socks <[a := upd_s_pkts (fun _ => q) x]> w).
Proof.
  intros Hw Ha Hl Hq. pose proof (wf_shape _ _ Hw) as Hs. constructor; try apply Hw.
  eapply (shape_update X (tables_of w)); try done.
  - apply (sh_tags _ _ Hs a x Ha).
  - unfold pkts_ok. cbn. by rewrite Hl.
  - destruct (decide (a ∈ X)) as [|HX]; [by left|]. right. split; [done|]. cbn. intros Hc Hn.
    pose proof (sh_peer _ _ Hs _ _ Ha HX Hc) as Hok. unfold peer_ok in Hok.
    destruct (s_peer x); [|done]. tauto.
Qed.

(** The queue of [a] is all that changes among the objects. *)
Record requeued (a : Z) (x : asocket) (w w' : world) : Prop := {
  rq_kept : kept w w';
  rq_trackers : w_trackers w' = w_trackers w;
  rq_trans : w_trans w' = w_trans w;
  rq_socks : exists q, w_socks w' = <[a := upd_s_pkts (fun _ => q) x]> (w_socks w)
}.

Lemma wrote_wf X fd p p' res w w' : wf X w -> wrote_ok fd p p' res w w' -> wf X w'.
Proof. intros Hw H. rewrite (wo_world _ _ _ _ _ _ H). by apply wf_out. Qed.

Lemma wrote_kept fd p p' res w w' : wrote_ok fd p p' res w w' -> kept w w'.
Proof. intros H. rewrite (wo_world _ _ _ _ _ _ H). constructor; eauto. Qed.

Lemma queue_packet_ok X w a x p :
  wf X w -> w_socks w !! a = Some x -> is_local x -> queued_ok p ->
  safe (queue_packet a p) w (fun r w' => r = 1 /\ wf X w' /\ requeued a x w w').
Proof.
  intros Hw Ha Hl Hp. apply safe_bind. eapply safe_set_sock; [done|].
  set (x' := upd_s_pkts (fun q => q ++ [p]) x).
  assert (wf X (upd_w_socks <[a := x']> w)) as Hw1.
  { apply (set_pkts_ok X w a x (s_pkts x ++ [p])); try done.
    apply Forall_app. split; [by eapply queued_all|by apply Forall_singleton]. }
  destruct (event_add _ a _ FDE_WRITE (wf_fd _ _ Hw1)
              (wf_local_fd _ _ a x' Hw1 ltac:(cbn; apply lookup_insert_eq) Hl)) as (s1 & Hr & Hi1 & Hm1).
  apply safe_bind. eapply safe_fde_call; [exact Hr|]. apply safe_ret. split; [done|]. split.
  - constructor; [|exact Hi1|apply Hw|apply Hw]. unfold tables_of. cbn. rewrite Hm1. apply Hw1.
  - constructor; try done; [|by eexists]. constructor; try done; [|eauto]. cbn. by rewrite Hm1.
Qed.

(** Writing to a socket keeps it, or closes it and its peer. *)
Lemma local_enqueue_ok w a x p :
  wf ∅ w -> w_slock w = false -> w_socks w !! a = Some x -> is_local x -> s_closing x = false ->
  0 <= pk_len p <= Z.of_nat (length (pk_data p)) ->
  safe (local_socket_enqueue a p) w
    (fun r w' => wf ∅ w' /\ ((r = 0 \/ r = 1) /\ requeued a x w w' \/ r = 1 /\ closed_pair a x w w')).
Proof.
  intros Hw Hsl Ha Hl Hc Hp. assert (queued_ok (rewind p)) as Hb by (unfold queued_ok; cbn; lia).
  apply safe_bind. eapply safe_sock_at; [done|].
  destruct (s_pkts x) as [|p0 q0] eqn:Hq.
  2: { eapply safe_mono; [by eapply queue_packet_ok|]. intros r w' (-> & ? & ?). auto. }
  destruct (write_packet_to_ok false (s_fd x) (rewind p) w Hb) as (p' & res & w1 & Hr & Hwr).
  apply safe_bind. eapply safe_ok; [exact Hr|]. cbv beta.
  pose proof (wrote_wf _ _ _ _ _ _ _ Hw Hwr) as Hw1. pose proof (wrote_kept _ _ _ _ _ _ Hwr) as Hk1.
  pose proof (wo_world _ _ _ _ _ _ Hwr) as Heq.
  assert (w_socks w1 !! a = Some x) as Ha1 by (by rewrite Heq).
  assert (safe (if pk_len p' =? 0 then ret 0 else queue_packet a p') w1 (fun r w' => wf ∅ w' /\
    ((r = 0 \/ r = 1) /\ requeued a x w w' \/ r = 1 /\ closed_pair a x w w'))) as Hkeep.
  { destruct (pk_len p' =? 0).
    - apply safe_ret. split; [done|]. left. split; [by left|]. constructor; try done.
      + by rewrite Heq.
      + by rewrite Heq.
      + exists (s_pkts x). rewrite Heq. cbn. rewrite insert_id; [done|]. by destruct x.
    - eapply safe_mono; [eapply queue_packet_ok; try done; apply Hwr|].
      intros r w' (-> & H1 & [K1 K2 K3 K4]). split; [done|]. left. split; [by right|].
      rewrite Heq in K2, K3, K4. constructor; try done. by eapply kept_then. }
  destruct res; try exact Hkeep. apply safe_bind.
  eapply safe_mono; [eapply sock_close_ok; try done; by rewrite (kept_slock _ _ Hk1)|].
  intros _ w' (H1 & [K1 K2 K3 K4 K5 K6]). apply safe_ret. split; [done|]. right. split; [done|].
  unfold left_closing in K6. rewrite Heq in K2, K3, K5, K6. constructor; try done. by eapply kept_then.
Qed.
