(* ===== verification/ServerSafe.v ===== *)
(** * The server handles every packet safely

    [handle_packet] keeps the invariant of the server whatever a device sends. *)

From S2P Require Import Prelude Ring Io Wire FdEvent EventMap World Transports Listeners HostRequest.
From S2P Require Import Sockets Server ServerInv TransportList SocketsSafe.

(** ** The transport list *)

Lemma tl_walk_ok w l fuel a :
  seg (w_tlinks w) a l transport_list -> transport_list ∉ l ->
  (forall u, u ∈ l -> is_Some (w_trans w !! u)) -> (length l <= fuel)%nat ->
  exists n ts, tl_next a w = Ok (n, w) /\ tl_walk fuel n w = Ok (ts, w) /\ ts.*1 = l /\
    Forall (fun tx => w_trans w !! tx.1 = Some tx.2) ts.
Proof.
  revert fuel a. induction l as [|u l IH]; intros fuel a Hs Hh Hl Hf.
  - destruct Hs as [Hn _]. exists transport_list, []. rewrite (tl_next_run w a _ Hn). by destruct fuel.
  - destruct Hs as (Hn & _ & Hs). destruct fuel as [|f]; cbn in Hf; [lia|].
    rewrite elem_of_cons in Hh. destruct (Hl u ltac:(left)) as [x Hx].
    destruct (IH f u Hs) as (n & ts & Hnx & Hts & <- & Hall); [naive_solver|by intros v Hv; apply Hl; right|lia|].
    exists u, ((u, x) :: ts). split; [by apply tl_next_run|]. cbn [tl_walk].
    destruct (Z.eqb_spec u transport_list); [naive_solver|].
    unfold trans_at, bind, get, deref. rewrite Hx. unfold ret. rewrite Hnx, Hts.
    split_and!; [done..|]. by constructor.
Qed.

(** A walk over the list meets its transports in order. *)
Lemma transports_ok w l :
  tlist w l ->
  exists ts, transports w = Ok (ts, w) /\ ts.*1 = l /\
    Forall (fun tx => w_trans w !! tx.1 = Some tx.2) ts.
Proof.
  intros ([Hnd Hs] & Hl). apply list.NoDup_cons in Hnd as [Hh Hnd].
  destruct (tl_walk_ok w l (size (w_tlinks w)) transport_list) as (n & ts & Hn & Hts & H); [done..| |].
  - rewrite <- size_dom, <- (size_list_to_set (C := gset Z) l Hnd). apply subseteq_size.
    intros u Hu%elem_of_list_to_set. apply elem_of_dom. by eapply seg_member.
  - exists ts. unfold transports. rewrite (bind_ok _ _ _ _ _ Hn). unfold bind, get. done.
Qed.

Lemma tlist_tlock f w l : tlist w l -> tlist (upd_w_tlock f w) l.
Proof. done. Qed.

Lemma upd_tlock_id w : w_tlock w = false -> upd_w_tlock (fun _ => false) (upd_w_tlock (fun _ => true) w) = w.
Proof. destruct w. cbn. by intros ->. Qed.

Lemma list_lines_bound room ts : 0 < room -> Z.of_nat (length (list_lines room ts)) < room.
Proof.
  revert room. induction ts as [|[t x] ts IH]; intros room Hroom; cbn [list_lines]; [done|].
  destruct (Z.leb_spec room (Z.of_nat (length (transport_line x)))); [done|].
  rewrite length_app. specialize (IH (room - Z.of_nat (length (transport_line x))) ltac:(lia)). lia.
Qed.

Lemma list_transports_ok X w bufsize :
  wf X w -> 0 < bufsize ->
  exists text, list_transports bufsize w = Ok (text, w) /\ Z.of_nat (length text) < bufsize.
Proof.
  intros Hw Hb. destruct (wf_tlist _ _ Hw) as [l Hl].
  destruct (transports_ok _ _ (tlist_tlock (fun _ => true) w l Hl)) as (ts & Hts & _).
  exists (list_lines bufsize ts). split; [|by apply list_lines_bound]. unfold list_transports, lock_transports, bind, get, modify.
  rewrite (wf_tlock _ _ Hw), Hts. unfold unlock_transports, modify, ret.
  by rewrite (upd_tlock_id w (wf_tlock _ _ Hw)).
Qed.

(** ** Device trackers *)

Lemma sock_enqueue_local n adbhost w a x p :
  w_socks w !! a = Some x -> is_local x ->
  sock_enqueue_n (S n) adbhost a p w = local_socket_enqueue a p w.
Proof.
  intros Ha Hl. cbn [sock_enqueue_n]. unfold call_enqueue, sock_at, bind, get, deref.
  rewrite Ha. cbn [ret]. unfold ret. by rewrite Hl.
Qed.

Lemma tracker_send_ok n adbhost w a x buffer :
  Z.of_nat (length buffer) <= MAX_PAYLOAD -> wf ∅ w -> w_slock w = false -> w_socks w !! a = Some x -> s_enqueue x = device_tracker_enqueue_p ->
  safe (device_tracker_send (sock_enqueue_n (S n) adbhost) a buffer) w
    (fun _ w' => wf ∅ w' /\ kept w w' /\
       (w_trackers w' = w_trackers w \/ w_trackers w' = filter (fun c => c <> a) (w_trackers w))).
Proof.
  intros Hbuf Hw Hsl Ha He. pose proof (wf_shape _ _ Hw) as Hs.
  pose proof (sh_sock _ _ Hs _ _ Ha) as Hok. unfold sock_ok in Hok. rewrite He in Hok.
  destruct Hok as (Hc & _). pose proof (sh_peer _ _ Hs _ _ Ha ltac:(set_solver) Hc) as Hpo.
  destruct (s_peer x) as [q|] eqn:Hp; [|unfold peer_ok, is_local in Hpo; rewrite Hp in Hpo; congruence].
  destruct (wf_peer _ _ _ _ _ Hw Ha ltac:(set_solver) Hc Hp)
    as (Hne & _ & y & Hy & Hyc & Hyp & Hk & Hyn).
  assert (is_local y) as Hl by (unfold is_local in *; destruct Hk; congruence).
  unfold device_tracker_send, new_packet. apply safe_bind, safe_bind, safe_get, safe_ret, safe_bind.
  eapply safe_sock_at; [done|]. rewrite Hp. apply safe_bind, safe_deref_some.
  apply safe_bind, safe_put_data; [done|]. intros p _ Hp'.
  unfold safe. rewrite (sock_enqueue_local _ _ _ _ _ _ Hy Hl).
  eapply (safe_mono (local_socket_enqueue q _)); [eapply local_enqueue_ok; try done|].
  - cbn [pk_len pk_data]. unfold MAX_PAYLOAD in *. lia.
  - intros r w' (H1 & [(_ & [K1 K2 _])|(_ & [K1 K2 _ _ _ _])]); split_and!; try done; [by left|right].
    rewrite K2. unfold without_peer. by rewrite Hyp.
Qed.

Lemma after_app a pre rest : a ∉ pre -> after a (pre ++ a :: rest) = Some (head rest).
Proof.
  induction pre as [|b pre IH]; cbn; [by rewrite Z.eqb_refl|]. rewrite elem_of_cons. intros Hn.
  destruct (Z.eqb_spec b a); [naive_solver|]. apply IH. naive_solver.
Qed.

Lemma filter_out (a : Z) (pre rest : list Z) :
  NoDup (pre ++ a :: rest) -> filter (fun c => c <> a) (pre ++ a :: rest) = pre ++ rest.
Proof.
  intros Hnd. apply list.NoDup_app in Hnd as (_ & Hd & Hnd). apply list.NoDup_cons in Hnd as [Hn _].
  rewrite list.filter_app, filter_cons_False by tauto.
  rewrite !filter_absent; [done|done|]. intros Hin. apply (Hd a Hin). left.
Qed.

Lemma update_loop_ok adbhost buffer rest pre fuel w :
  Z.of_nat (length buffer) <= MAX_PAYLOAD -> wf ∅ w -> w_slock w = false -> w_trackers w = pre ++ rest -> (length rest <= fuel)%nat ->
  safe (update_loop adbhost fuel (head rest) buffer) w (fun _ w' => wf ∅ w' /\ kept w w').
Proof.
  revert pre fuel w. induction rest as [|a rest IH]; intros pre fuel w Hb Hw Hsl HK Hf.
  { cbn. destruct fuel; (apply safe_ret; split; [done|apply kept_refl]). }
  destruct fuel as [|f]; cbn in Hf; [lia|]. cbn [head hd_error update_loop].
  destruct (sh_nodup _ _ (wf_shape _ _ Hw)) as (_ & _ & Hnd & _). cbn in Hnd. rewrite HK in Hnd.
  assert (a ∉ pre) as Ha.
  { apply list.NoDup_app in Hnd as (_ & Hd & _). intros Hin. apply (Hd a Hin). left. }
  destruct (sh_trackers _ _ (wf_shape _ _ Hw) a) as (x & Hx & Hxe).
  { cbn. rewrite HK. apply elem_of_app. right. left. }
  apply safe_bind, safe_get. rewrite HK, after_app by done. apply safe_bind, safe_deref_some, safe_bind.
  eapply safe_mono; [by eapply (tracker_send_ok 3)|].
  intros _ w1 (Hw1 & Hk1 & HK1).
  assert (exists pre1, w_trackers w1 = pre1 ++ rest) as [pre1 Hpre1].
  { destruct HK1 as [->| ->]; rewrite HK.
    - exists (pre ++ [a]). by rewrite <- app_assoc.
    - exists pre. by apply filter_out. }
  eapply safe_mono; [eapply (IH pre1); try done; [by rewrite (kept_slock _ _ Hk1)|lia]|].
  intros _ w' [H1 H2]. split; [done|]. by eapply kept_then.
Qed.

Lemma update_transports_ok adbhost w :
  wf ∅ w -> w_slock w = false ->
  safe (update_transports adbhost) w (fun _ w' => wf ∅ w' /\ kept w w').
Proof.
  intros Hw Hsl. destruct (list_transports_ok ∅ w (1024 - 4) Hw) as (text & Ht & Hl); [done|].
  apply safe_bind, safe_bind. eapply safe_ok; [exact Ht|]. apply safe_ret, safe_bind, safe_get.
  apply (update_loop_ok _ _ (w_trackers w) []); try done.
  rewrite length_app, length_take. unfold MAX_PAYLOAD. lia.
Qed.

(** ** Disconnection *)

Lemma local_close_lone X w n a x :
  wf X w -> w_slock w = false -> a ∈ X -> w_socks w !! a = Some x -> is_local x ->
  s_closing x = false -> s_peer x = None -> s_close x <> local_socket_close_notify_p ->
  safe (sock_close_n (S (S n)) false a) w (fun _ w' => wf (X ∖ {[a]}) w' /\ closed_local a w w').
Proof.
  intros Hw Hsl HaX Ha Hl Hc Hp Hn. pose proof (sh_tags _ _ (wf_shape _ _ Hw) _ _ Ha) as Htag.
  apply (local_tags x Htag Hn) in Hl as Hcl. rewrite call_close_n.
  apply safe_bind. eapply safe_sock_at; [done|]. rewrite Hcl.
  apply safe_bind, safe_lock_sockets; [done|]. apply safe_bind.
  eapply safe_mono; [eapply close_local_lone; [by apply wf_slock|done..]|].
  intros _ w2 (H1 & [K1 K2 K3 K4 K5 K6]). apply safe_modify. split; [by apply wf_slock|].
  constructor; try done. destruct K1. by constructor.
Qed.

Lemma without_nil (a q : Z) : ({[a; q]} : gset Z) ∖ {[q]} ∖ {[a]} ≡ ∅.
Proof. set_solver. Qed.

(** The state after the entry [d] of [t] has been dealt with. *)
Definition disconnected (t : Z) (tr : atransport) (d : adisconnect) (w w' : world) : Prop :=
  wf ∅ w' /\ kept w w' /\
  exists tr', w_trans w' !! t = Some tr' /\
    t_disconnects tr' = filter (fun e => e <> d) (t_disconnects tr).

Lemma remote_disconnect_ok w a x t tr :
  wf ∅ w -> w_slock w = false -> w_socks w !! a = Some x -> s_enqueue x = remote_socket_enqueue_p ->
  s_transport x = Some t -> w_trans w !! t = Some tr ->
  safe (remote_socket_disconnect sock_close a) w
    (fun _ w' => disconnected t tr (remote_socket_disconnect_p a) w w').
Proof.
  intros Hw Hsl Ha He Hxt Ht. pose proof (wf_shape _ _ Hw) as Hs.
  pose proof (sh_sock _ _ Hs _ _ Ha) as Hok. unfold sock_ok in Hok. rewrite He in Hok.
  destruct Hok as (Hc & _). pose proof (sh_peer _ _ Hs _ _ Ha ltac:(set_solver) Hc) as Hpo.
  destruct (s_peer x) as [q|] eqn:Hp; [|unfold peer_ok, is_local in Hpo; rewrite Hp in Hpo; congruence].
  destruct (wf_peer _ _ _ _ _ Hw Ha ltac:(set_solver) Hc Hp)
    as (Hne & _ & y & Hy & Hyc & Hyp & Hk & Hyn).
  assert (is_local y) as Hl by (unfold is_local in *; destruct Hk; congruence).
  assert (wf {[a; q]} w) as Hw2.
  { eapply (wf_same_set ({[a; q]} ∪ ∅)); [|set_solver]. constructor; try apply Hw.
    eapply shape_open_pair; [apply Hw|done|set_solver|done..]. }
  apply safe_bind. eapply safe_sock_at; [done|]. rewrite Hp. apply safe_bind, safe_bind.
  eapply (clear_peer_ok _ w q); [exact Hw2|set_solver|exact Hy|]. intros w1 -> Hw1.
  eapply safe_mono; [eapply (local_close_lone {[a; q]} _ 6 q (upd_s_peer (fun _ => None) y));
    try done; [set_solver|cbn; apply lookup_insert_eq]|].
  intros _ w2 (Hw3 & [K1 K2 _ K4 _ _]). cbn in K2.
  assert (w_socks w2 !! a = Some x) as Ha2 by (rewrite K4 by done; cbn; by rewrite lookup_insert_ne).
  apply safe_bind. eapply safe_sock_at; [done|].
  eapply safe_mono; [eapply (forget_remote_ok _ w2 a x t tr Hw3); try done; [set_solver|congruence]|].
  intros _ w' (H1 & H2 & H3). split; [eapply wf_same_set; [done|apply without_nil]|]. split.
  - eapply kept_then; [apply kept_socks|]. eapply kept_then; [done|apply H2].
  - eexists. rewrite H3, lookup_insert_eq. done.
Qed.

Lemma free_listener_ok w l y t tr :
  wf ∅ w -> w_lis w !! l = Some y -> l_transport y = Some t -> w_trans w !! t = Some tr ->
  safe (free_listener l) w (fun _ w' => disconnected t tr (listener_disconnect_p l) w w').
Proof.
  intros Hw Hl Hyt Ht. pose proof (wf_shape _ _ Hw) as Hs.
  destruct (sh_lis _ _ Hs _ _ Hl) as (_ & Hfd & _). cbn in Hfd.
  destruct (event_remove _ _ _ (wf_fd _ _ Hw) Hfd) as (s1 & Hr & Hi1 & Hm1).
  destruct (event_free s1 l Hi1) as [Hi2 Hm2]; [by rewrite Hm1, lookup_delete_eq|].
  apply safe_bind. eapply safe_lis_at; [done|]. apply safe_bind, safe_modify, safe_bind.
  eapply safe_fde_call; [exact Hr|]. rewrite Hyt. apply safe_bind.
  eapply remove_disconnect_ok; [done|]. apply safe_bind, safe_modify, safe_modify.
  assert (drops_entry l (w_trans w)
    (<[t := upd_t_disconnects (filter (fun e => e <> listener_disconnect_p l)) tr]> (w_trans w))) as HT.
  { by apply (drops_entry_listener ∅ (tables_of w) l y t tr _ Hs Hl Hyt Ht). }
  split_and!.
  - constructor; [|exact Hi2| |apply Hw].
    + unfold tables_of. cbn. rewrite Hm2, Hm1. by apply (shape_drop_listener ∅ (tables_of w) l y _ Hs Hl HT).
    + destruct (wf_tlist _ _ Hw) as [ts Hts]. exists ts.
      exact (tlist_trans w t tr _ ts Hts Ht).
  - constructor; try done; cbn; [rewrite Hm2, Hm1; apply delete_subseteq|].
    refine (kept_trans _ _ (kept_upd_trans w t tr (upd_t_disconnects _ tr) Ht _)). done.
  - eexists. cbn. by rewrite lookup_insert_eq.
Qed.

Lemma run_disconnect_ok w t tr d rest :
  wf ∅ w -> w_slock w = false -> w_trans w !! t = Some tr -> t_disconnects tr = d :: rest ->
  safe (run_disconnect d) w (fun _ w' => wf ∅ w' /\ kept w w' /\
    exists tr', w_trans w' !! t = Some tr' /\ t_disconnects tr' = rest).
Proof.
  intros Hw Hsl Ht Hd. pose proof (wf_shape _ _ Hw) as Hs.
  assert (d ∈ t_disconnects tr) as Hin by (rewrite Hd; left).
  assert (filter (fun e => e <> d) (t_disconnects tr) = rest) as Hrest.
  { pose proof (sh_disc _ _ Hs _ _ Ht) as Hnd. rewrite Hd in Hnd |- *.
    apply list.NoDup_cons in Hnd as [Hn _]. rewrite filter_cons_False by tauto. clear -Hn.
    induction rest as [|e rest IH]; [done|]. rewrite elem_of_cons in Hn.
    rewrite filter_cons_True by naive_solver. rewrite IH; naive_solver. }
  pose proof (sh_entry _ _ Hs _ _ _ Ht Hin) as He. rewrite <- Hrest.
  destruct d as [a|l]; destruct He as (y & H1 & H2); cbn in H1.
  - destruct H2 as [H2 H3].
    eapply safe_mono; [by eapply remote_disconnect_ok|]. by intros _ w' (? & ? & ?).
  - eapply safe_mono; [by eapply free_listener_ok|]. by intros _ w' (? & ? & ?).
Qed.

Lemma disconnect_loop_ok fuel w t tr :
  wf ∅ w -> w_slock w = false -> w_trans w !! t = Some tr -> (length (t_disconnects tr) <= fuel)%nat ->
  safe (disconnect_loop fuel t (head (t_disconnects tr))) w (fun _ w' => wf ∅ w' /\ kept w w' /\
    exists tr', w_trans w' !! t = Some tr' /\ t_disconnects tr' = []).
Proof.
  revert w tr. induction fuel as [|f IH]; intros w tr Hw Hsl Ht Hf;
    destruct (t_disconnects tr) as [|d rest] eqn:Hd; cbn in Hf; try lia.
  - apply safe_ret. split_and!; [done|apply kept_refl|eauto].
  - apply safe_ret. split_and!; [done|apply kept_refl|eauto].
  - cbn [head hd_error disconnect_loop]. apply safe_bind. eapply safe_trans_at; [done|].
    rewrite Hd. cbn [entry_after]. rewrite bool_decide_true by done.
    apply safe_bind, safe_deref_some, safe_bind.
    eapply safe_mono; [by eapply run_disconnect_ok|].
    intros _ w1 (H1 & H2 & tr' & H3 & <-).
    eapply safe_mono; [eapply IH; try done; [by rewrite (kept_slock _ _ H2)|lia]|].
    intros _ w' (H4 & H5 & H6). split_and!; [done|by eapply kept_then|done].
Qed.

(** Afterwards nothing is left on the list. *)
Lemma run_disconnects_ok w t tr :
  wf ∅ w -> w_slock w = false -> w_trans w !! t = Some tr ->
  safe (run_transport_disconnects t) w (fun _ w' => wf ∅ w' /\ kept w w' /\
    exists tr', w_trans w' !! t = Some tr' /\ t_disconnects tr' = []).
Proof.
  intros Hw Hsl Ht. apply safe_bind. eapply safe_trans_at; [done|]. by apply disconnect_loop_ok.
Qed.

Lemma handle_offline_ok w t tr :
  wf ∅ w -> w_slock w = false -> w_trans w !! t = Some tr ->
  safe (handle_offline t) w (fun _ w' => wf ∅ w' /\ kept w w').
Proof.
  intros Hw Hsl Ht. eapply safe_mono; [by eapply run_disconnects_ok|]. by intros _ w' (? & ? & _).
Qed.

(** ** Finding and creating sockets *)

Lemma find_in_ok X w id l :
  wf X w -> (forall a, a ∈ l -> a ∈ w_local w) ->
  exists r, find_in id l w = Ok (r, w) /\
    forall a, r = Some a -> a ∈ l /\ exists x, w_socks w !! a = Some x /\ s_id x = id.
Proof.
  intros Hw. induction l as [|a l IH]; intros Hl; [by exists None|].
  destruct (sh_local _ _ (wf_shape _ _ Hw) a (Hl a ltac:(left))) as (x & Hx & _).
  cbn [find_in]. unfold sock_at, bind, get, deref. cbn in Hx. rewrite Hx. unfold ret at 1.
  destruct (Z.eqb_spec (s_id x) id) as [Hid|Hid].
  - exists (Some a). split; [done|]. intros b [= <-]. split; [left|]. eauto.
  - destruct IH as (r & Hr & Hs); [by intros b Hb; apply Hl; right|]. rewrite Hr.
    exists r. split; [done|]. intros b Hb. destruct (Hs b Hb). split; [by right|done].
Qed.

Lemma upd_slock_id w : w_slock w = false -> upd_w_slock (fun _ => false) (upd_w_slock (fun _ => true) w) = w.
Proof. destruct w. cbn. by intros ->. Qed.

Lemma find_local_ok X w id :
  wf X w -> w_slock w = false ->
  exists r, find_local_socket id w = Ok (r, w) /\
    forall a, r = Some a -> exists x, w_socks w !! a = Some x /\ is_local x /\ s_closing x = false /\
      s_id x = id.
Proof.
  intros Hw Hsl.
  destruct (find_in_ok X (upd_w_slock (fun _ => true) w) id (w_local w)) as (r & Hr & Hs).
  { by apply wf_slock. } { done. }
  exists r. split.
  - unfold find_local_socket, lock_sockets, bind, get, modify. rewrite Hsl. cbn [w_local upd_w_slock].
    rewrite Hr. unfold unlock_sockets, modify, ret. by rewrite upd_slock_id.
  - intros a Ha. destruct (Hs a Ha) as (Hin & x & Hx & Hid). cbn in Hx.
    destruct (sh_local _ _ (wf_shape _ _ Hw) a Hin) as (y & Hy & ? & ?). cbn in Hy. simplify_eq. eauto.
Qed.

(** The record of a new local socket. *)
Record new_local (fd : Z) (x : asocket) : Prop := {
  nl_local : is_local x;
  nl_close : s_close x = local_socket_close_p;
  nl_ready : s_ready x = local_socket_ready_p;
  nl_closing : s_closing x = false;
  nl_peer : s_peer x = None;
  nl_fd : s_fd x = fd
}.

(** The descriptor can be used. *)
Definition usable_fd (w : world) (fd : Z) : Prop :=
  0 <= fd < FD_SETSIZE /\ forall b, fdmap (w_fde w) !! b <> Some fd.

Lemma create_local_ok X w fd :
  wf X w -> w_slock w = false -> usable_fd w fd ->
  safe (create_local_socket fd) w (fun a w' => wf X w' /\ a = w_next w /\
    (exists x, new_local fd x /\ w_socks w' = <[a := x]> (w_socks w)) /\
    w_trans w' = w_trans w /\ w_slock w' = false /\ w_local w' = w_local w ++ [a]).
Proof.
  intros Hw Hsl [Hfd Hfree]. set (a := w_next w).
  destruct (sh_fresh _ _ (wf_shape _ _ Hw) a ltac:(cbn; lia)) as (_ & _ & _ & Hno). cbn in Hno.
  destruct (event_install (w_fde w) a fd local_socket_event_func_p a (wf_fd _ _ Hw) Hno Hfd Hfree)
    as (s1 & Hr & Hi1 & Hm1).
  apply safe_bind, safe_bind, safe_get, safe_bind, safe_modify, safe_ret, safe_bind, safe_modify.
  apply safe_bind, safe_bind, safe_lock_sockets; [done|].
  apply safe_bind, safe_get, safe_bind. eapply safe_set_sock; [cbn; apply lookup_insert_eq|].
  apply safe_bind, safe_modify, safe_bind, safe_modify, safe_modify, safe_bind.
  eapply safe_fde_call; [exact Hr|]. apply safe_ret.
  split_and!; [|done| |done..].
  - constructor; [|exact Hi1|apply Hw|apply Hw]. unfold tables_of. cbn. rewrite Hm1, insert_insert_eq.
    apply (shape_new_local X (tables_of w)); try done; [apply Hw|by left].
  - eexists. split; [|cbn; by rewrite insert_insert_eq]. done.
Qed.

Lemma create_remote_ok X w id t tr :
  wf X w -> w_trans w !! t = Some tr ->
  safe (create_remote_socket id t) w (fun a w' => wf ({[a]} ∪ X) w' /\ a = w_next w /\
    (exists y, w_socks w' = <[a := y]> (w_socks w) /\ s_enqueue y = remote_socket_enqueue_p /\
       s_close y = remote_socket_close_p /\ s_ready y = remote_socket_ready_p /\
       s_closing y = false /\ s_transport y = Some t /\ s_id y = id) /\
    w_slock w' = w_slock w /\ w_out w' = w_out w /\
    exists tr', w_trans w' = <[t := tr']> (w_trans w) /\
      t_connection_state tr' = t_connection_state tr).
Proof.
  intros Hw Ht. set (a := w_next w).
  apply safe_bind, safe_bind, safe_get, safe_bind, safe_modify, safe_ret, safe_bind, safe_modify.
  apply safe_bind, safe_bind, safe_lock_transports; [apply Hw|]. apply safe_bind.
  eapply safe_set_trans; [done|]. apply safe_modify, safe_ret.
  split_and!; [|done|eexists; by split_and!|done|done|eexists; by split].
  constructor; [|apply Hw| |done].
  - by apply (shape_new_remote X (tables_of w) _ t tr); try done; apply Hw.
  - destruct (wf_tlist _ _ Hw) as [ts Hts]. exists ts. exact (tlist_trans w t tr _ ts Hts Ht).
Qed.

Lemma set_peer_ok X w a x p :
  wf X w -> a ∈ X -> w_socks w !! a = Some x ->
  wf X (upd_w_socks <[a := upd_s_peer (fun _ => p) x]> w).
Proof.
  intros Hw HaX Ha. pose proof (wf_shape _ _ Hw) as Hs. constructor; try apply Hw.
  eapply (shape_update X (tables_of w)); try done.
  - apply (sh_tags _ _ Hs a x Ha).
  - exact (wf_pkts X w a x Hw Ha).
  - by left.
Qed.

(** What the calls below leave of the world around the sockets. *)
Definition same_around (w w' : world) : Prop :=
  w_slock w' = w_slock w /\ w_trans w' = w_trans w.

Lemma local_ready_ok X w a x :
  wf X w -> w_socks w !! a = Some x -> is_local x ->
  safe (local_socket_ready a) w
    (fun _ w' => wf X w' /\ w_socks w' = w_socks w /\ same_around w w').
Proof.
  intros Hw Ha Hl. destruct (event_add _ _ _ FDE_READ (wf_fd _ _ Hw) (wf_local_fd _ _ _ _ Hw Ha Hl))
    as (s1 & Hr & Hi1 & Hm1).
  apply safe_bind. eapply safe_sock_at; [done|]. eapply safe_fde_call; [exact Hr|].
  split_and!; [|done..]. constructor; [|exact Hi1|apply Hw|apply Hw].
  unfold tables_of. cbn. rewrite Hm1. apply Hw.
Qed.

Lemma plain_id x : tags_ok x -> is_local x -> s_close x = local_socket_close_p -> plain x = x.
Proof.
  unfold tags_ok, is_local. intros Ht Hl Hc. rewrite Hl in Ht.
  destruct Ht as [[_ Hr]|[? _]]; [|congruence]. unfold plain. destruct x. cbn in *. by subst.
Qed.

Lemma sock_ready_local_ok adbhost X w a x :
  wf X w -> w_socks w !! a = Some x -> is_local x ->
  safe (sock_ready adbhost a) w
    (fun _ w' => wf X w' /\ w_socks w' = <[a := plain x]> (w_socks w) /\ same_around w w').
Proof.
  intros Hw Ha Hl. pose proof (sh_tags _ _ (wf_shape _ _ Hw) _ _ Ha) as Htag.
  pose proof Htag as Htag2. unfold tags_ok in Htag2. rewrite Hl in Htag2.
  apply safe_bind. eapply safe_sock_at; [done|]. destruct Htag2 as [[Hc ->]|[_ ->]].
  - eapply safe_mono; [by eapply local_ready_ok|]. intros _ w' (H1 & H2 & H3).
    rewrite (plain_id x), insert_id; done.
  - apply safe_bind. eapply safe_set_sock; [done|]. apply safe_bind.
    eapply safe_sock_at; [cbn; apply lookup_insert_eq|]. apply safe_bind, safe_fd_write. intros r d.
    eapply safe_mono; [eapply (local_ready_ok X _ a (plain x)); [|cbn; apply lookup_insert_eq|done]|].
    + apply wf_out. by apply plain_ok.
    + intros _ w' (H1 & H2 & H3). done.
Qed.

(** A local socket without a peer gets a remote one.  The pair stays exempt: the
    local socket may still be rigged to report the outcome of the connection. *)
Lemma bind_remote_ok w s x t tr id :
  wf ∅ w -> w_socks w !! s = Some x -> s_closing x = false -> s_peer x = None ->
  w_trans w !! t = Some tr ->
  safe (bind_remote s id t) w (fun r w' => wf {[s; r]} w' /\ s <> r /\
    w_socks w' !! s = Some (upd_s_peer (fun _ => Some r) x) /\
    (exists y, w_socks w' !! r = Some y /\ s_enqueue y = remote_socket_enqueue_p /\
       s_close y = remote_socket_close_p /\ s_closing y = false /\ s_peer y = Some s /\
       s_id y = id /\ s_transport y = Some t) /\
    w_slock w' = w_slock w /\ w_out w' = w_out w /\ is_Some (w_trans w' !! t)).
Proof.
  intros Hw Hs Hc Hp Ht.
  assert (wf {[s]} w) as Hw1.
  { eapply (wf_same_set ({[s]} ∪ ∅)); [|set_solver]. constructor; try apply Hw.
    eapply shape_open; [apply Hw|done..]. }
  apply safe_bind. eapply safe_mono; [by eapply create_remote_ok|].
  intros r w1 (Hw2 & Hr & (y & Hy & Y1 & Y2 & Y3 & Y4 & Y5 & Y6) & Hsl & Hout & tr' & Htr & _).
  assert (s <> r) as Hne.
  { intros ->. destruct (sh_fresh _ _ (wf_shape _ _ Hw) r) as [? _]; [cbn; lia|]. cbn in *. congruence. }
  assert (w_socks w1 !! s = Some x) as Hs1 by (by rewrite Hy, lookup_insert_ne).
  assert (w_socks w1 !! r = Some y) as Hr1 by (by rewrite Hy, lookup_insert_eq).
  apply safe_bind. eapply safe_set_sock; [done|].
  apply safe_bind. eapply safe_set_sock; [cbn; by rewrite lookup_insert_ne|]. apply safe_ret.
  split_and!; [|done|..|done|done|].
  - eapply (wf_same_set ({[r]} ∪ {[s]})); [|set_solver].
    apply set_peer_ok; [|set_solver|cbn; by rewrite lookup_insert_ne].
    apply set_peer_ok; [done|set_solver|done].
  - cbn. by rewrite lookup_insert_ne, lookup_insert_eq.
  - eexists. cbn. rewrite lookup_insert_eq. done.
  - cbn. rewrite Htr, lookup_insert_eq. done.
Qed.

(** A bound pair of ordinary sockets satisfies the invariant. *)
Lemma wf_join w s x r y :
  wf {[s; r]} w -> s <> r -> w_socks w !! s = Some x -> is_local x ->
  s_close x = local_socket_close_p -> s_closing x = false -> s_peer x = Some r ->
  w_socks w !! r = Some y -> s_close y = remote_socket_close_p -> s_closing y = false ->
  s_peer y = Some s -> wf ∅ w.
Proof.
  intros Hw Hne Hs Hl Hcl Hc Hp Hr Hyc Hy Hyp.
  eapply (wf_same_set ({[s; r]} ∖ {[s; r]})); [|set_solver]. constructor; try apply Hw.
  eapply (shape_join _ _ s x r y); try done; try set_solver; first [apply Hw|congruence|by left].
Qed.

(** ** The packets *)

(** The state of the server between two events: the invariant, and no lock held. *)
Definition quiet (w : world) : Prop := wf ∅ w /\ w_slock w = false.

Section packets.
Context (adbhost : option (list Z)) (w : world) (p : apacket) (t : Z) (tr : atransport).
Context (Hw : wf ∅ w) (Hsl : w_slock w = false) (Ht : w_trans w !! t = Some tr).
Context (Hlen : 0 <= data_length (msg p) <= MAX_PAYLOAD)
  (Hdata : Z.of_nat (length (pk_data p)) = MAX_PAYLOAD).

Lemma packet_fits : fits p.
Proof. unfold fits, MAX_PAYLOAD in *. lia. Qed.

Lemma handle_okay_ok : safe (handle_okay adbhost p t) w (fun _ w' => quiet w').
Proof.
  destruct (find_local_ok ∅ w (arg1 (msg p)) Hw Hsl) as (o & Hf & Ho).
  apply safe_bind. eapply safe_ok; [exact Hf|]. destruct o as [s|]; [|done].
  destruct (Ho s eq_refl) as (x & Hx & Hl & Hc & _).
  apply safe_bind. eapply safe_sock_at; [done|]. case_bool_decide as Hp; cbn [when].
  - apply safe_bind, safe_bind. eapply safe_mono; [by eapply bind_remote_ok|].
    intros r w1 (Hw1 & Hne & Hs1 & (y & Hy & _ & Y2 & Y3 & Y4 & _) & Hsl1 & _). apply safe_ret.
    eapply safe_mono; [by eapply sock_ready_local_ok|].
    intros _ w2 (Hw2 & Hsocks & Hsl2 & _). split; [|congruence].
    apply (wf_join w2 s (plain (upd_s_peer (fun _ => Some r) x)) r y); try done; rewrite Hsocks.
    + apply lookup_insert_eq.
    + by rewrite lookup_insert_ne.
  - apply safe_bind, safe_ret. eapply safe_mono; [by eapply sock_ready_local_ok|].
    intros _ w2 (Hw2 & _ & Hsl2 & _). split; [done|congruence].
Qed.

Lemma handle_close_ok : safe (handle_close p) w (fun _ w' => quiet w').
Proof.
  destruct (find_local_ok ∅ w (arg1 (msg p)) Hw Hsl) as (o & Hf & Ho).
  apply safe_bind. eapply safe_ok; [exact Hf|]. destruct o as [s|]; [|done].
  destruct (Ho s eq_refl) as (x & Hx & Hl & Hc & _).
  eapply safe_mono; [by eapply sock_close_ok|]. intros _ w' [H1 H2]. split; [done|].
  by rewrite (kept_slock _ _ (cp_kept _ _ _ _ H2)).
Qed.

Lemma handle_write_ok : safe (handle_write adbhost p t) w (fun _ w' => quiet w').
Proof.
  destruct (find_local_ok ∅ w (arg1 (msg p)) Hw Hsl) as (o & Hf & Ho).
  apply safe_bind. eapply safe_ok; [exact Hf|]. destruct o as [s|]; [|done].
  destruct (Ho s eq_refl) as (x & Hx & Hl & Hc & _).
  apply safe_bind. unfold safe at 1, sock_enqueue. rewrite (sock_enqueue_local _ _ _ _ _ _ Hx Hl).
  eapply (safe_mono (local_socket_enqueue s _)); [eapply local_enqueue_ok; try done|].
  { cbn. unfold s32, two32, MAX_PAYLOAD in *. rewrite Z.mod_small by lia.
    destruct (Z.ltb_spec (data_length (msg p)) 2147483648); lia. }
  intros r w1 (Hw1 & Hres).
  assert (kept w w1) as Hk by (destruct Hres as [(_ & [])|(_ & [])]; done).
  pose proof (kept_slock _ _ Hk) as Hsl1. rewrite Hsl in Hsl1.
  apply safe_when; [|done]. intros Hr%Z.eqb_eq. subst r.
  destruct Hres as [(_ & [_ _ _ (q & Hq)])|(Hz & _)]; [|lia].
  apply safe_bind. eapply safe_sock_at; [rewrite Hq; apply lookup_insert_eq|].
  destruct (kept_trans _ _ Hk _ _ Ht) as (tr1 & Ht1 & _).
  apply safe_bind, safe_bind, safe_get, safe_ret.
  eapply send_ok; [done|apply message_fits|]. intros w2 Hsent. split; [by eapply sent_wf|].
  by rewrite (kept_slock _ _ (sent_kept _ _ _ Hsent)).
Qed.

Lemma send_control_ok w1 cmd a0 a1 :
  quiet w1 -> is_Some (w_trans w1 !! t) ->
  safe (q <- new_packet ;; send_packet (message cmd a0 a1 q) (Some t)) w1
    (fun _ w' => quiet w' /\ w_socks w' = w_socks w1).
Proof.
  intros [Hw1 Hsl1] [tr1 Ht1]. apply safe_bind, safe_bind, safe_get, safe_ret.
  eapply send_ok; [done|apply message_fits|]. intros w2 Hsent. split; [split|].
  - by eapply sent_wf.
  - by rewrite (kept_slock _ _ (sent_kept _ _ _ Hsent)).
  - by destruct Hsent as (? & ? & _ & -> & _).
Qed.

Lemma service_to_fd_ok name :
  (forall fd l, w_fresh_fds w = fd :: l -> 0 <= fd -> usable_fd w fd) ->
  safe (service_to_fd name) w (fun fd w' => quiet w' /\ w_trans w' = w_trans w /\
    (0 <= fd -> usable_fd w' fd)).
Proof.
  intros Hfresh.
  assert (forall r, safe (open_fd r) w (fun fd w' => quiet w' /\ w_trans w' = w_trans w /\
            (0 <= fd -> usable_fd w' fd))) as Hopen.
  { intros r. apply safe_bind, safe_get, safe_bind, safe_modify.
    assert (forall l, wf ∅ (upd_w_fresh_fds (fun _ => l) (upd_w_opens (fun l0 => l0 ++ [r]) w))) as Hwf
      by (intros l; constructor; apply Hw).
    destruct (w_fresh_fds w) as [|fd l] eqn:Hfr.
    - apply safe_ret. split_and!; [split; [constructor; apply Hw|done]|done|lia].
    - apply safe_bind, safe_modify, safe_ret. split_and!; [split; done|done|].
      intros H0. by apply (Hfresh fd l). }
  unfold service_to_fd. repeat case_match; try apply Hopen.
  apply safe_ret. split_and!; [done|done|lia].
Qed.

Lemma handle_open_ok :
  (forall fd l, w_fresh_fds w = fd :: l -> 0 <= fd -> usable_fd w fd) ->
  safe (handle_open adbhost p t) w (fun _ w' => quiet w').
Proof.
  intros Hfresh. unfold handle_open, open_name.
  rewrite bool_decide_true by (unfold MAX_PAYLOAD in *; lia).
  apply safe_bind, safe_deref_some, safe_bind, safe_bind.
  eapply safe_mono; [by apply service_to_fd_ok|]. intros fd w1 ([Hw1 Hsl1] & Ht1 & Hu).
  destruct (Z.ltb_spec fd 0) as [Hneg|Hpos].
  - apply safe_ret. eapply safe_mono; [apply send_control_ok; [done|by rewrite Ht1; eexists]|].
    by intros _ w' [? _].
  - apply safe_bind. eapply safe_mono; [by apply create_local_ok; auto|].
    intros s w2 (Hw2 & _ & (x & [X1 X2 X3 X4 X5 X6] & Hx) & Ht2 & Hsl2 & _). apply safe_ret.
    apply safe_bind. eapply safe_mono; [eapply (bind_remote_ok w2 s x t tr); try done|].
    { by rewrite Hx, lookup_insert_eq. } { congruence. }
    intros r w3 (Hw3 & Hne & Hs3 & (y & Hy & _ & Y2 & Y3 & Y4 & _) & Hsl3 & _ & Ht3).
    apply safe_bind. eapply safe_sock_at; [done|]. apply safe_bind. eapply safe_sock_at; [done|].
    assert (wf ∅ w3) as Hw3' by (by eapply (wf_join w3 s _ r y)).
    apply safe_bind. eapply safe_mono; [apply send_control_ok; [split; [done|congruence]|done]|].
    intros _ w4 ([Hw4 Hsl4] & Hs4).
    eapply safe_mono; [eapply sock_ready_local_ok; [done|rewrite Hs4; exact Hs3|done]|].
    intros _ w' (H1 & _ & H3 & _). split; [done|congruence].
Qed.

Lemma send_connect_ok w1 :
  quiet w1 -> is_Some (w_trans w1 !! t) -> safe (send_connect t) w1 (fun _ w' => quiet w').
Proof.
  intros [Hw1 Hsl1] [tr1 Ht1]. apply safe_bind, safe_bind, safe_get, safe_ret.
  apply safe_bind, safe_put_data; [by vm_compute|]. intros q _ Hq.
  eapply send_ok; [done| |].
  - unfold fits. cbn [msg set_msg data_length pk_data]. unfold MAX_PAYLOAD in *. cbn. lia.
  - intros w2 Hsent. split; [by eapply sent_wf|]. by rewrite (kept_slock _ _ (sent_kept _ _ _ Hsent)).
Qed.

(** [t->connection_state = CS_OFFLINE; handle_offline(t)]. *)
Lemma go_offline_ok :
  safe (set_trans t (upd_t_connection_state (fun _ => CS_OFFLINE)) ;; handle_offline t) w
    (fun _ w' => quiet w' /\ is_Some (w_trans w' !! t)).
Proof.
  apply safe_bind. eapply safe_set_trans; [done|].
  eapply safe_mono; [eapply handle_offline_ok; [by eapply wf_trans|done|cbn; apply lookup_insert_eq]|].
  intros _ w' [H1 H2]. split; [split; [done|]|].
  - by rewrite (kept_slock _ _ H2).
  - edestruct (kept_trans _ _ H2 t) as (x & Hx & _); [cbn; apply lookup_insert_eq|]. by exists x.
Qed.

Lemma handle_sync_ok : safe (handle_sync p t) w (fun _ w' => quiet w').
Proof.
  unfold handle_sync. destruct (negb _).
  - apply safe_bind. eapply send_ok; [done|apply packet_fits|]. intros w1 Hsent.
    apply send_connect_ok.
    + split; [by eapply sent_wf|]. by rewrite (kept_slock _ _ (sent_kept _ _ _ Hsent)).
    + destruct (kept_trans _ _ (sent_kept _ _ _ Hsent) _ _ Ht) as (x & Hx & _). by exists x.
  - apply safe_assoc, safe_bind. eapply safe_mono; [apply go_offline_ok|].
    intros _ w1 ([Hw1 Hsl1] & [tr1 Ht1]). eapply send_ok; [done|apply packet_fits|]. intros w2 Hsent.
    split; [by eapply sent_wf|]. by rewrite (kept_slock _ _ (sent_kept _ _ _ Hsent)).
Qed.

(** The end of [parse_banner]. *)
Lemma set_state_ok w1 st :
  quiet w1 -> is_Some (w_trans w1 !! t) ->
  safe (set_trans t (upd_t_connection_state (fun _ => st)) ;; update_transports adbhost) w1
    (fun _ w' => quiet w').
Proof.
  intros [Hw1 Hsl1] [tr1 Ht1]. apply safe_bind. eapply safe_set_trans; [done|].
  eapply safe_mono; [apply update_transports_ok; [by eapply wf_trans|done]|].
  intros _ w' [H1 H2]. split; [done|]. by rewrite (kept_slock _ _ H2).
Qed.

Lemma parse_banner_ok w1 banner :
  quiet w1 -> is_Some (w_trans w1 !! t) ->
  safe (parse_banner adbhost banner t) w1 (fun _ w' => quiet w').
Proof.
  intros [Hw1 Hsl1] [tr1 Ht1]. unfold parse_banner. destruct (banner_fields banner) as [type product].
  apply safe_bind. eapply safe_set_trans; [done|].
  assert (quiet (upd_w_trans <[t := upd_t_product (fun _ => Some product) tr1]> w1)) as Hq
    by (split; [by eapply wf_trans|done]).
  assert (is_Some (w_trans (upd_w_trans <[t := upd_t_product (fun _ => Some product) tr1]> w1) !! t))
    as Hs by (cbn; rewrite lookup_insert_eq; eauto).
  repeat case_match; try by apply set_state_ok.
  destruct Hs as [tr2 Ht2]. eapply safe_set_trans; [done|]. split; [eapply wf_trans; [apply Hq|done..]|done].
Qed.

Lemma handle_connect_ok :
  0 ∈ pk_data p -> safe (handle_connect adbhost p t) w (fun _ w' => quiet w').
Proof.
  intros H0. unfold handle_connect, payload_string. rewrite bool_decide_true by done.
  apply safe_bind, safe_bind. eapply safe_trans_at; [done|]. apply safe_ret, safe_bind.
  eapply (safe_mono _ _ (fun _ w' => quiet w' /\ is_Some (w_trans w' !! t))).
  - apply safe_when; intros _; [apply go_offline_ok|]. by split; [split|eexists].
  - intros _ w1 [Hq Hs]. apply safe_bind, safe_deref_some. by apply parse_banner_ok.
Qed.

(** Without a zero in the payload the banner is read past its end, if the process
    gets that far. *)
Lemma handle_connect_unterminated :
  0 ∉ pk_data p -> exists e, handle_connect adbhost p t w = Err e /\ (e = EFatal \/ e = EUndef).
Proof.
  intros H0. unfold handle_connect, payload_string. rewrite bool_decide_false by done.
  assert (safe (on <- online t ;;
      when on (set_trans t (upd_t_connection_state (fun _ => CS_OFFLINE)) ;; handle_offline t)) w
      (fun _ _ => True)) as Hs.
  { apply safe_bind, safe_bind. eapply safe_trans_at; [done|]. apply safe_ret, safe_when; [|done].
    intros _. eapply safe_mono; [apply go_offline_ok|done]. }
  unfold safe, bind in Hs. unfold bind. destruct (online t w) as [[on w1]|e]; [|eauto].
  destruct (when on _ w1) as [[[] w2]|e]; [|eauto]. exists EUndef. auto.
Qed.

Lemma when_online_ok m :
  safe m w (fun _ w' => quiet w') -> safe (on <- online t ;; when on m) w (fun _ w' => quiet w').
Proof.
  intros Hm. apply safe_bind, safe_bind. eapply safe_trans_at; [done|]. apply safe_ret.
  by apply safe_when.
Qed.

End packets.

(** The packet with which the server reads past the end of the payload. *)
Definition unterminated_banner (p : apacket) : Prop :=
  command (msg p) = A_CNXN /\ 0 ∉ pk_data p.

Lemma handle_packet_ok adbhost w p t :
  quiet w -> is_Some (w_trans w !! t) -> received_ok p -> ~ unterminated_banner p ->
  (forall fd l, w_fresh_fds w = fd :: l -> 0 <= fd -> usable_fd w fd) ->
  safe (handle_packet adbhost p t) w (fun _ w' => quiet w').
Proof.
  intros [Hw Hsl] [tr Ht] (_ & _ & Hlen & Hdata & _) Hcnxn Hfresh. unfold handle_packet.
  destruct (Z.eqb_spec (command (msg p)) A_SYNC); [by eapply handle_sync_ok|].
  destruct (Z.eqb_spec (command (msg p)) A_CNXN) as [He|].
  { eapply handle_connect_ok; eauto. destruct (decide (0 ∈ pk_data p)); [done|]. by destruct Hcnxn. }
  repeat case_match; try by apply safe_ret.
  - eapply when_online_ok, handle_open_ok; eauto.
  - eapply when_online_ok, handle_okay_ok; eauto.
  - eapply when_online_ok, handle_close_ok; eauto.
  - eapply when_online_ok, handle_write_ok; eauto.
Qed.

Lemma handle_unterminated adbhost w p t :
  quiet w -> is_Some (w_trans w !! t) -> unterminated_banner p ->
  exists e, handle_packet adbhost p t w = Err e /\ (e = EFatal \/ e = EUndef).
Proof.
  intros [Hw Hsl] [tr Ht] [He H0]. unfold handle_packet. rewrite He. cbn.
  by eapply handle_connect_unterminated.
Qed.

