(* ===== verification/Streams.v ===== *)
(** * Bytes through a local socket

    A local socket writes the packets it is given to its descriptor in order,
    and queues what the descriptor does not take: no byte is lost, repeated or
    moved while the socket is open. *)

From S2P Require Import Prelude Io Wire FdEvent EventMap World Transports Listeners HostRequest.
From S2P Require Import Sockets Server ServerInv SocketsSafe ServerSafe.

(** What the descriptor has taken, followed by what is queued. *)
Definition stream (w : world) (x : asocket) : list Z :=
  wr_out (out_of w (s_fd x)) ++ concat (pkt_text <$> s_pkts x).

(** The socket [a] has the record [x'], which differs from [x] in the queue. *)
Definition only_queue (x x' : asocket) : Prop := exists q, x' = upd_s_pkts (fun _ => q) x.

Lemma fde_add_ok X w a x ev :
  wf X w -> w_socks w !! a = Some x -> is_local x ->
  exists s, fde_call (fdevent_add a ev) w = Ok (tt, upd_w_fde (fun _ => s) w) /\
    wf X (upd_w_fde (fun _ => s) w).
Proof.
  intros Hw Ha Hl.
  destruct (event_add _ _ _ ev (wf_fd _ _ Hw) (wf_local_fd _ _ _ _ Hw Ha Hl)) as (s & Hr & Hi & Hm).
  exists s. unfold fde_call. rewrite Hr. split; [done|]. constructor; [|exact Hi|apply Hw|apply Hw].
  unfold tables_of. cbn. rewrite Hm. apply Hw.
Qed.

Lemma queue_packet_run X w a x p :
  wf X w -> w_socks w !! a = Some x -> is_local x -> queued_ok p ->
  exists w', queue_packet a p w = Ok (1, w') /\ wf X w' /\ w_out w' = w_out w /\
    w_slock w' = w_slock w /\
    w_socks w' = <[a := upd_s_pkts (fun q => q ++ [p]) x]> (w_socks w) /\ w_local w' = w_local w.
Proof.
  intros Hw Ha Hl Hp. pose proof (set_pkts_ok X w a x (s_pkts x ++ [p]) Hw Ha Hl) as Hw1.
  specialize (Hw1 ltac:(apply Forall_app; split; [by eapply queued_all|by apply Forall_singleton])).
  destruct (fde_add_ok X _ a _ FDE_WRITE Hw1 ltac:(cbn; apply lookup_insert_eq) Hl) as (s & Hr & Hw2).
  eexists. split; [|split; [exact Hw2|done]].
  unfold queue_packet, set_sock, sock_at, bind, get, deref, modify. rewrite Ha.
  unfold ret at 1. cbn [bind]. change (upd_s_pkts (fun q => q ++ [p]) x)
    with (upd_s_pkts (fun _ => s_pkts x ++ [p]) x). rewrite Hr. done.
Qed.

Lemma concat_snoc_text q p : concat (pkt_text <$> (q ++ [p])) = concat (pkt_text <$> q) ++ pkt_text p.
Proof. rewrite fmap_app, concat_app. cbn. by rewrite app_nil_r. Qed.

Lemma rewind_text p : pkt_text (rewind p) = take (Z.to_nat (pk_len p)) (pk_data p).
Proof. done. Qed.

(** C5: data enqueued on an open local socket goes to the end of its stream.
    When [local_socket_enqueue] leaves the socket open, the bytes written to the
    descriptor so far followed by the bytes queued are the same as before with the
    packet's bytes added, and it returns 0 exactly when nothing is queued. *)
Theorem enqueue_keeps_stream w a x p :
  quiet w -> w_socks w !! a = Some x -> is_local x -> s_closing x = false ->
  0 <= pk_len p <= Z.of_nat (length (pk_data p)) ->
  match local_socket_enqueue a p w with
  | Ok (r, w') =>
      a ∈ w_local w' ->
      exists x', w_socks w' !! a = Some x' /\ only_queue x x' /\
        stream w' x' = stream w x ++ take (Z.to_nat (pk_len p)) (pk_data p) /\
        (r = 0 <-> s_pkts x' = [])
  | Err e => e = EFatal
  end.
Proof.
  intros [Hw Hsl] Ha Hl Hc Hp.
  assert (queued_ok (rewind p)) as Hb by (unfold queued_ok; cbn; lia).
  unfold local_socket_enqueue, bind at 1, sock_at, bind at 1, get, deref. rewrite Ha. unfold ret at 1.
  rewrite <- rewind_text.
  destruct (s_pkts x) as [|p0 q0] eqn:Hq.
  2: { destruct (queue_packet_run ∅ w a x (rewind p)) as (w' & -> & _ & Ho & _ & Hs & _); try done.
       intros _. eexists. rewrite Hs, lookup_insert_eq. split; [done|]. split; [by eexists|].
       unfold stream. unfold out_of. cbn [upd_s_pkts s_fd s_pkts]. rewrite Ho, concat_snoc_text, app_assoc.
       split; [done|]. rewrite Hq. done. }
  destruct (write_packet_to_ok false (s_fd x) (rewind p) w Hb) as (p' & res & w1 & Hr & Hwr).
  unfold bind at 1. rewrite Hr. pose proof (wrote_wf _ _ _ _ _ _ _ Hw Hwr) as Hw1.
  pose proof (wrote_kept _ _ _ _ _ _ Hwr) as Hk1.
  destruct Hwr as [Heq _ (l & Hl1 & Hl2) Hb' _ _ _].
  assert (w_socks w1 !! a = Some x) as Ha1 by (by rewrite Heq).
  assert (match (if pk_len p' =? 0 then ret 0 else queue_packet a p') w1 with
    | Ok (r, w') => a ∈ w_local w' -> exists x', w_socks w' !! a = Some x' /\ only_queue x x' /\
        stream w' x' = stream w x ++ pkt_text (rewind p) /\ (r = 0 <-> s_pkts x' = [])
    | Err e => e = EFatal end) as Hkeep.
  { destruct (Z.eqb_spec (pk_len p') 0) as [H0|H0].
    - intros _. exists x. split_and!; [done|exists (s_pkts x); by destruct x| |by rewrite Hq].
      unfold stream. rewrite Hq. cbn. rewrite !app_nil_r, Hl1, Hl2. f_equal. unfold pkt_text at 1.
      rewrite H0. cbn. by rewrite app_nil_r.
    - destruct (queue_packet_run ∅ w1 a x p') as (w' & -> & _ & Ho & _ & Hs & _); try done.
      intros _. eexists. rewrite Hs, lookup_insert_eq. split; [done|]. split; [by eexists|].
      unfold stream. unfold out_of in *. cbn [upd_s_pkts s_fd s_pkts]. rewrite Ho, Hq, Hl1, Hl2. cbn.
      rewrite !app_nil_r, <- app_assoc. done. }
  destruct res; try exact Hkeep.
  pose proof (sock_close_ok w1 a x Hw1 ltac:(by rewrite (kept_slock _ _ Hk1)) Ha1 Hl Hc) as Hclose.
  unfold safe in Hclose. unfold bind. destruct (sock_close a w1) as [[[] w']|e]; [|done].
  destruct Hclose as [_ Hcp]. intros Hin. by destruct (cp_gone _ _ _ _ Hcp).
Qed.

(** The world once the packet at the head of the queue is [p'], or gone. *)
Lemma stream_head w w1 x p p' q l :
  s_pkts x = p :: q -> wr_out (out_of w1 (s_fd x)) = wr_out (out_of w (s_fd x)) ++ l ->
  pkt_text p = l ++ pkt_text p' ->
  stream w1 (upd_s_pkts (fun _ => p' :: q) x) = stream w x /\
  (pk_len p' = 0 -> stream w1 (upd_s_pkts (fun _ => q) x) = stream w x).
Proof.
  intros Hq Hl1 Hl2. unfold stream. cbn [s_fd s_pkts upd_s_pkts]. rewrite Hq, Hl1. cbn.
  rewrite Hl2, <- !app_assoc. split; [done|]. intros H0. unfold pkt_text at 2. rewrite H0. done.
Qed.

Lemma drain_ok n a x w :
  quiet w -> w_socks w !! a = Some x -> is_local x -> s_closing x = false ->
  (length (s_pkts x) <= n)%nat ->
  safe (drain n a (s_fd x)) w (fun b w' => quiet w' /\ (b = true -> a ∈ w_local w') /\
    (a ∈ w_local w' -> (forall c, c <> a -> w_socks w' !! c = w_socks w !! c) /\ exists x', w_socks w' !! a = Some x' /\ only_queue x x' /\
       stream w' x' = stream w x /\ (b = true -> s_pkts x' = []))).
Proof.
  revert x w. induction n as [|n IH]; intros x w [Hw Hsl] Ha Hl Hc Hn;
    cbn [drain]; apply safe_bind; (eapply safe_sock_at; [done|]);
    destruct (s_pkts x) as [|p q] eqn:Hq; cbn in Hn; try lia.
  1, 2: apply safe_ret; split_and!; [done|intros _; by eapply wf_local_listed|];
    intros _; split; [done|]; exists x; split_and!; try done; exists (s_pkts x); by destruct x.
  pose proof (queued_all _ _ _ _ Hw Ha Hl) as Hall. rewrite Hq in Hall.
  apply Forall_cons_iff in Hall as [Hp Hrest].
  destruct (write_packet_to_ok true (s_fd x) p w Hp) as (p' & res & w1 & Hr & Hwr).
  apply safe_bind. eapply safe_ok; [exact Hr|]. cbv beta.
  pose proof (wrote_wf _ _ _ _ _ _ _ Hw Hwr) as Hw1.
  pose proof (wrote_kept _ _ _ _ _ _ Hwr) as Hk1. pose proof (kept_slock _ _ Hk1) as Hsl1.
  destruct Hwr as [Heq _ (l & Hl1 & Hl2) Hp' _ Hdone _].
  assert (w_socks w1 !! a = Some x) as Ha1 by (by rewrite Heq).
  destruct (stream_head w w1 x p p' q l Hq Hl1 Hl2) as [Hst1 Hst2].
  set (x1 := upd_s_pkts (fun _ => p' :: q) x).
  assert (wf ∅ (upd_w_socks <[a := x1]> w1)) as Hw2 by (apply set_pkts_ok; [done..|by constructor]).
  apply safe_bind. eapply safe_set_sock; [done|]. fold x1. destruct res.
  - rewrite (Hdone eq_refl). cbn [when Z.eqb]. apply safe_bind.
    eapply safe_set_sock; [cbn; apply lookup_insert_eq|].
    eapply safe_mono; [eapply (IH (upd_s_pkts (fun _ => q) x1))|].
    + split; [|cbn; congruence]. apply (set_pkts_ok ∅ _ a x1 q); try done. cbn. apply lookup_insert_eq.
    + cbn. apply lookup_insert_eq.
    + done.
    + done.
    + cbn. lia.
    + intros b w' (H1 & H2 & H3). split_and!; [done..|]. intros Hin.
      destruct (H3 Hin) as (G0 & x' & G1 & [q' ->] & G3 & G4). split.
      * intros c Hne. rewrite (G0 c Hne). cbn. by rewrite !lookup_insert_ne, Heq by done.
      * eexists. split_and!; [done|by eexists| |done]. rewrite G3. apply Hst2. by apply Hdone.
  - apply safe_ret. split_and!; [split; [done|cbn; congruence]|done|]. intros _. split.
    { intros c Hne. cbn. by rewrite lookup_insert_ne, Heq by done. }
    exists x1. cbn. rewrite lookup_insert_eq. split_and!; [done|by eexists|done|done].
  - apply safe_bind. eapply safe_mono; [eapply (sock_close_ok _ a x1); try done|].
    + cbn. congruence.
    + cbn. apply lookup_insert_eq.
    + intros _ w' [H1 H2]. apply safe_ret. split_and!; [|done|].
      * split; [done|]. rewrite (kept_slock _ _ (cp_kept _ _ _ _ H2)). cbn. congruence.
      * intros Hin. by destruct (cp_gone _ _ _ _ H2).
Qed.

(** C11: writing out the queue keeps the stream.  When the descriptor of an open
    local socket is writable, [local_socket_event_func] writes queued packets in
    order; what it has written followed by what is left is the stream as it was,
    and when it reaches the end of the queue everything has been written. *)
Theorem drain_keeps_stream w a x :
  quiet w -> w_socks w !! a = Some x -> is_local x -> s_closing x = false ->
  match drain (length (s_pkts x)) a (s_fd x) w with
  | Ok (all, w') =>
      quiet w' /\ (all = true -> wr_out (out_of w' (s_fd x)) = stream w x) /\
      (a ∈ w_local w' -> exists x', w_socks w' !! a = Some x' /\ only_queue x x' /\
         stream w' x' = stream w x)
  | Err e => e = EFatal
  end.
Proof.
  intros Hq Ha Hl Hc. pose proof (drain_ok (length (s_pkts x)) a x w Hq Ha Hl Hc ltac:(lia)) as H.
  unfold safe in H. destruct (drain _ _ _ w) as [[all w']|e]; [|done].
  destruct H as (H1 & H2 & H3). split_and!; [done| |].
  - intros Hall. destruct (H3 (H2 Hall)) as (_ & x' & G1 & [q ->] & G3 & G4). rewrite <- G3.
    unfold stream. rewrite (G4 Hall). cbn. by rewrite app_nil_r.
  - intros Hin. destruct (H3 Hin) as (_ & x' & G1 & G2 & G3 & _). eauto.
Qed.

(** ** Reading *)

Definition in_of (w : world) (fd : Z) : rdfd := default no_input (w_in w !! fd).

Definition reads_left (d : rdfd) : nat :=
  length (rd_script d) + match rd_data d with [] => 1 | _ => 2 end.

Lemma fd_read_ok fd len w :
  exists r w1 l, fd_read fd len w = Ok (r, w1) /\ w1 = upd_w_in (fun _ => w_in w1) w /\
    rd_data (in_of w fd) = l ++ rd_data (in_of w1 fd) /\ (length l <= len)%nat /\
    match r with Got k => k = l | Failed _ => l = [] end /\
    ((0 < len)%nat -> r <> Got [] -> (reads_left (in_of w1 fd) < reads_left (in_of w fd))%nat \/
       length l = len).
Proof.
  unfold fd_read. fold (in_of w fd). destruct (adb_read len (in_of w fd)) as [r d] eqn:Hr.
  assert (in_of (upd_w_in <[fd := d]> w) fd = d) as Hd.
  { unfold in_of. cbn. by rewrite lookup_insert_eq. }
  destruct (adb_read_data _ _ _ _ Hr) as (l & Hl & Hlen & Hg).
  exists r, (upd_w_in <[fd := d]> w), l. rewrite Hd. split_and!; try done.
  intros Hpos Hne. destruct (adb_read_progress _ _ _ _ Hr) as (_ & P2 & _). unfold reads_left.
  destruct (rd_script (in_of w fd)) eqn:Hs.
  - unfold adb_read in Hr. rewrite Hs in Hr. injection Hr as <- <-. subst l. cbn [rd_data rd_script].
    rewrite length_take. destruct (decide (len <= length (rd_data (in_of w fd)))%nat); [right; lia|left].
    rewrite drop_ge by lia. destruct (rd_data (in_of w fd)); [|cbn; lia]. by rewrite take_nil in Hne.
  - left. specialize (P2 ltac:(done)). destruct (rd_data d), (rd_data (in_of w fd)) eqn:E; cbn in *; try lia.
    destruct l; done.
Qed.

(** Reading ends, and takes the bytes off the front of what the descriptor has. *)
Lemma read_loop_ok fuel fd avail w :
  (reads_left (in_of w fd) <= fuel)%nat ->
  exists bytes eof w', read_loop fuel fd avail w = Ok ((bytes, eof), w') /\
    w' = upd_w_in (fun _ => w_in w') w /\ (length bytes <= avail)%nat /\
    rd_data (in_of w fd) = bytes ++ rd_data (in_of w' fd).
Proof.
  revert avail w. induction fuel as [|f IH]; intros avail w Hf; cbn [read_loop];
    (destruct (Nat.ltb_spec 0 avail) as [Hpos|];
       [|exists [], false, w; split_and!; [done|by destruct w|cbn; lia|done]]).
  { unfold reads_left in Hf. destruct (rd_data _); lia. }
  destruct (fd_read_ok fd avail w) as (r & w1 & l & Hr & Hw1 & Hl & Hlen & Hg & Hprog).
  unfold bind at 1. rewrite Hr.
  assert (l = [] -> forall eof, exists bytes e w', (ret ([], eof) : M world (list Z * bool)) w1 = Ok ((bytes, e), w') /\
    w' = upd_w_in (fun _ => w_in w') w /\ (length bytes <= avail)%nat /\
    rd_data (in_of w fd) = bytes ++ rd_data (in_of w' fd)) as Hstop.
  { intros -> eof. exists [], eof, w1. split_and!; [done|done|cbn; lia|done]. }
  assert (forall k, l = k -> r <> Got [] -> exists bytes e w',
    read_loop f fd (avail - length k) w1 = Ok ((bytes, e), w') /\
    w' = upd_w_in (fun _ => w_in w') w /\ (length (k ++ bytes) <= avail)%nat /\
    rd_data (in_of w fd) = (k ++ bytes) ++ rd_data (in_of w' fd)) as Hgo.
  { intros k <- Hne. destruct (Hprog Hpos Hne) as [Hlt|Hfull].
    - destruct (IH (avail - length l)%nat w1 ltac:(lia)) as (bytes & e & w' & G1 & G2 & G3 & G4).
      exists bytes, e, w'. split_and!; [done|rewrite G2; cbn; by rewrite Hw1|rewrite length_app; lia|].
      by rewrite Hl, G4, app_assoc.
    - exists [], false, w1. rewrite app_nil_r. split_and!; try done.
      rewrite Hfull, Nat.sub_diag. by destruct f. }
  destruct r as [[|b k]|e].
  - by apply Hstop.
  - destruct (Hgo _ (eq_sym Hg) ltac:(done)) as (bytes & eof & w' & G1 & G2 & G3 & G4).
    unfold bind. rewrite G1. eexists _, _, _. split; [done|]. done.
  - destruct e; try (by apply Hstop).
    destruct (Hgo [] Hg ltac:(done)) as (bytes & eof & w' & G1 & G2 & G3 & G4).
    cbn in G1. rewrite Nat.sub_0_r in G1. eauto 10.
Qed.

Lemma read_available_ok fd w :
  exists bytes eof w', read_available fd w = Ok ((bytes, eof), w') /\
    w' = upd_w_in (fun _ => w_in w') w /\ Z.of_nat (length bytes) <= MAX_PAYLOAD /\
    rd_data (in_of w fd) = bytes ++ rd_data (in_of w' fd).
Proof.
  destruct (read_loop_ok (2 + length (rd_script (in_of w fd))) fd (Z.to_nat MAX_PAYLOAD) w)
    as (bytes & eof & w' & H1 & H2 & H3 & H4).
  - unfold reads_left. destruct (rd_data _); lia.
  - exists bytes, eof, w'. split_and!; try done. unfold MAX_PAYLOAD in *. lia.
Qed.

Lemma sock_at_run w a x : w_socks w !! a = Some x -> sock_at a w = Ok (x, w).
Proof. intros Ha. unfold sock_at, bind, get, deref. by rewrite Ha. Qed.

(** The events the object at [a] waits for. *)
Definition waits_for (w : world) (a ev : Z) : Prop :=
  exists e, fdes (w_fde w) !! a = Some e /\ active e /\ hasbit (fde_state e) ev = true.

Lemma del_read_ok X w a x :
  wf X w -> w_socks w !! a = Some x -> is_local x ->
  exists s, fde_call (fdevent_del a FDE_READ) w = Ok (tt, upd_w_fde (fun _ => s) w) /\
    ~ waits_for (upd_w_fde (fun _ => s) w) a FDE_READ.
Proof.
  intros Hw Ha Hl. pose proof (wf_local_fd _ _ _ _ Hw Ha Hl) as (e & He & Ae & _)%fdmap_some.
  unfold fde_call, fdevent_del. rewrite (bind_ok _ _ _ _ _ (fde_at_ok _ _ _ He)).
  edestruct (fdevent_set_ok (w_fde w) a e) as (s & -> & _ & Hf & _); [apply Hw|done..|].
  exists s. split; [done|]. intros (e' & He' & _ & Hb). cbn in He'. rewrite Hf, lookup_insert_eq in He'.
  injection He' as <-. change FDE_READ with (2 ^ 0) in Hb. rewrite hasbit_testbit in Hb by lia.
  rewrite <- eventmask_low in Hb by lia. fold (wanted (set_result
    (Z.land (Z.land (fde_state e) FDE_EVENTMASK) (Z.lnot (Z.land (2 ^ 0) FDE_EVENTMASK))) e)) in Hb.
  rewrite set_result_wanted, eventmask_low, Z.land_spec, Z.lnot_spec in Hb by lia.
  by rewrite andb_false_r in Hb.
Qed.

Lemma send_run w p t tr q :
  w_trans w !! t = Some tr -> send_packet_fill p = Some q -> hd true (t_answers tr) = true ->
  exists tr', send_packet p (Some t) w = Ok (tt, upd_w_trans <[t := tr']> w) /\
    t_queue tr' = t_queue tr ++ [q] /\ t_disconnects tr' = t_disconnects tr.
Proof.
  intros Ht Hq Hans. exists (upd_t_queue (fun l => l ++ [q]) (upd_t_answers tail tr)).
  split; [|done]. unfold send_packet, set_trans, trans_at, bind, get, deref, modify, ret.
  rewrite Hq, Ht. destruct (t_answers tr) as [|[] l]; [| |done]; by rewrite Ht.
Qed.

(** What a non-blocking descriptor delivers: chunks of bytes, with interrupted
    calls ([None]) between them, and the answers of the kernel that deliver them. *)
Definition delivered (cs : list (option (list Z))) : list Z := concat (default [] <$> cs).

Definition delivering (c : option (list Z)) : io_event :=
  match c with Some l => UpTo (pred (length l)) | None => IoErr EINTR end.

Definition chunk_ok (c : option (list Z)) : Prop := c <> Some [].

Lemma adb_read_chunk len l rest sc b k :
  l = b :: k ->
  adb_read len (mkRd (l ++ rest) (UpTo (pred (length l)) :: sc)) =
    (Got (take len l), mkRd (drop len l ++ rest) sc).
Proof.
  intros ->. unfold adb_read. cbn [rd_script rd_data length pred].
  destruct (decide (len <= S (length k))%nat).
  - rewrite Nat.min_r by done. rewrite take_app_le, drop_app_le by done. done.
  - rewrite Nat.min_l by lia. rewrite (take_ge (b :: k)), (drop_ge (b :: k)) by (cbn; lia).
    change (S (length k)) with (length (b :: k)). by rewrite take_app_length, drop_app_length.
Qed.

(** The loop gathers the chunks until the buffer is full or nothing is left. *)
Lemma read_loop_delivers cs rest sc fuel fd avail w :
  Forall chunk_ok cs -> (length cs < fuel)%nat ->
  in_of w fd = mkRd (delivered cs ++ rest) ((delivering <$> cs) ++ IoErr EAGAIN :: sc) ->
  exists w', read_loop fuel fd avail w = Ok ((take avail (delivered cs), false), w') /\
    w' = upd_w_in (fun _ => w_in w') w /\
    rd_data (in_of w' fd) = drop avail (delivered cs) ++ rest.
Proof.
  intros Hcs. revert fuel avail w. induction Hcs as [|c cs Hc _ IH]; intros fuel avail w Hf Hin;
    (destruct fuel as [|f]; [cbn in Hf; lia|]); cbn [read_loop];
    (destruct avail as [|n]; [exists w; rewrite Hin; by destruct w|]); cbn [Nat.ltb Nat.leb].
  - eexists. unfold bind at 1, fd_read. fold (in_of w fd). rewrite Hin. cbn. split; [done|].
    split; [done|]. unfold in_of. cbn. by rewrite lookup_insert_eq.
  - destruct c as [[|b l]|]; [done| |].
    + change (delivered (Some (b :: l) :: cs)) with ((b :: l) ++ delivered cs) in *.
      unfold bind at 1, fd_read. fold (in_of w fd). rewrite Hin, <- app_assoc.
      cbn [fmap list_fmap app delivering]. 
      rewrite (adb_read_chunk (S n) (b :: l) (delivered cs ++ rest) _ b l eq_refl).
      cbn [take drop]. set (w1 := upd_w_in _ w).
      assert (in_of w1 fd = mkRd (drop n l ++ delivered cs ++ rest)
                ((delivering <$> cs) ++ IoErr EAGAIN :: sc)) as Hin1
        by (unfold in_of, w1; cbn; by rewrite lookup_insert_eq).
      destruct (decide (length l <= n)%nat) as [Hle|Hgt].
      * rewrite (take_ge l), (drop_ge l) in * by done. 
        destruct (IH f (S n - S (length l))%nat w1) as (w' & H1 & H2 & H3);
          [cbn in Hf; lia|exact Hin1|].
        exists w'. cbn [length]. rewrite (bind_ok _ _ _ _ _ H1). cbn [app take drop fst snd].
        rewrite (take_app_ge l), (drop_app_ge l) by done. rewrite H3.
        cbn [Nat.sub]. split; [done|]. split; [by rewrite H2|done].
      * exists w1. cbn [length]. rewrite length_take.
        replace (S n - S (Nat.min n (length l)))%nat with 0%nat by lia.
        assert (forall g, read_loop g fd 0 w1 = Ok (([], false), w1)) as H0 by (by intros []).
        rewrite (bind_ok _ _ _ _ _ (H0 f)). cbn [app take drop fst snd]. rewrite app_nil_r.
        rewrite (take_app_le l), (drop_app_le l), Hin1 by lia. cbn [rd_data].
        by rewrite <- app_assoc.
    + change (delivered (None :: cs)) with (delivered cs) in *.
      unfold bind at 1, fd_read. fold (in_of w fd). rewrite Hin. cbn [fmap list_fmap app delivering].
      cbn [adb_read rd_script rd_data].
      destruct (IH f (S n) (upd_w_in <[fd := mkRd (delivered cs ++ rest)
        ((delivering <$> cs) ++ IoErr EAGAIN :: sc)]> w)) as (w' & H1 & H2 & H3);
        [cbn in Hf; lia|unfold in_of; cbn; by rewrite lookup_insert_eq|].
      exists w'. split; [exact H1|]. split; [by rewrite H2|exact H3].
Qed.

Lemma read_available_delivers cs rest sc fd w :
  Forall chunk_ok cs ->
  in_of w fd = mkRd (delivered cs ++ rest) ((delivering <$> cs) ++ IoErr EAGAIN :: sc) ->
  exists w', read_available fd w = Ok ((take (Z.to_nat MAX_PAYLOAD) (delivered cs), false), w') /\
    w' = upd_w_in (fun _ => w_in w') w /\
    rd_data (in_of w' fd) = drop (Z.to_nat MAX_PAYLOAD) (delivered cs) ++ rest.
Proof.
  intros Hcs Hin. unfold read_available, bind, get. fold (in_of w fd).
  apply (read_loop_delivers cs rest sc); [done| |done].
  rewrite Hin. cbn [rd_script]. rewrite length_app, length_fmap. lia.
Qed.

(** The packet [remote_socket_enqueue] makes of bytes in the data of a packet. *)
Definition wrte (x y : asocket) (bytes junk : list Z) : apacket :=
  let p := fill_data bytes (get_apacket junk) in
  set_msg (fun m => mkMsg A_WRTE (s_id x) (s_id y) (u32 (Z.of_nat (length bytes)))
                      (data_check m) (magic m))
    (mkPkt (Z.of_nat (length bytes)) (pk_off p) (msg p) (pk_data p)).

Lemma wrte_sendable x y bytes junk :
  Z.of_nat (length junk) = MAX_PAYLOAD -> Z.of_nat (length bytes) <= MAX_PAYLOAD ->
  Forall is_byte junk -> Forall is_byte bytes -> is_u32 (s_id x) -> is_u32 (s_id y) ->
  exists q, send_packet_fill (wrte x y bytes junk) = Some q /\ sendable q /\
    command (msg q) = A_WRTE /\ arg0 (msg q) = s_id x /\ arg1 (msg q) = s_id y /\ payload q = bytes.
Proof.
  intros Hj Hl Hbj Hb Hx Hy. set (p := fill_data bytes (get_apacket junk)).
  assert (u32 (Z.of_nat (length bytes)) = Z.of_nat (length bytes)) as Hu
    by (apply u32_id; unfold is_u32, two32, MAX_PAYLOAD in *; lia).
  assert (length (pk_data p) = length junk) as Hlen
    by (apply fill_data_length; cbn; unfold MAX_PAYLOAD in *; lia).
  destruct (send_packet_fill_sendable (wrte x y bytes junk)) as (q & Hq & Q1 & Q2 & Q3 & Q4 & Q5 & _).
  - unfold pkt_ok, wrte. fold p. cbn [msg set_msg pk_data]. rewrite Hlen. split; [|split; [done|]].
    + unfold msg_ok. cbn [command arg0 arg1 data_length data_check magic].
      split_and!; first [done|apply u32_range|by split; vm_compute].
    + apply Forall_app. split; [done|]. by apply Forall_drop.
  - unfold wrte. cbn [msg set_msg data_length]. by rewrite Hu.
  - exists q. split_and!; try done. rewrite Q2. unfold payload, wrte.
    cbn [msg set_msg data_length pk_data]. rewrite Hu, Nat2Z.id. apply take_app_length.
Qed.

Lemma remote_enqueue_run adbhost w a x r y t p q tr :
  w_socks w !! a = Some x -> w_socks w !! r = Some y -> s_enqueue y = remote_socket_enqueue_p ->
  s_peer y = Some a -> s_transport y = Some t -> w_trans w !! t = Some tr ->
  hd true (t_answers tr) = true ->
  send_packet_fill (set_msg (fun m => mkMsg A_WRTE (s_id x) (s_id y) (u32 (pk_len p))
                                        (data_check m) (magic m)) p) = Some q ->
  exists tr', sock_enqueue adbhost r p w = Ok (1, upd_w_trans <[t := tr']> w) /\
    t_queue tr' = t_queue tr ++ [q] /\ t_disconnects tr' = t_disconnects tr.
Proof.
  intros Ha Hr Hre Hrp Hyt Ht Hans Hq.
  destruct (send_run w _ t tr q Ht Hq Hans) as (tr' & Hsend & Htq & Htd).
  exists tr'. split; [|done]. unfold sock_enqueue. cbn [sock_enqueue_n]. unfold call_enqueue.
  rewrite (bind_ok _ _ _ _ _ (sock_at_run _ _ _ Hr)), Hre. unfold remote_socket_enqueue.
  rewrite (bind_ok _ _ _ _ _ (sock_at_run _ _ _ Hr)), Hrp. unfold bind at 1, deref, ret at 1.
  rewrite (bind_ok _ _ _ _ _ (sock_at_run _ _ _ Ha)), Hyt.
  by rewrite (bind_ok _ _ _ _ _ Hsend).
Qed.

