(* ===== verification/Requests.v ===== *)
(** * Requests to the server

    A client sends the length of the name of a service as four hexadecimal
    digits, and the name.  The smart socket understands exactly that, however
    the bytes are split into packets. *)

From S2P Require Import Prelude Io Wire FdEvent EventMap World Transports Listeners HostRequest.
From S2P Require Import Sockets Server ServerInv SocketsSafe ServerSafe Streams.

(** What a client writes to ask for a service. *)
Definition request_frame (service : list Z) : list Z :=
  hex4 (Z.of_nat (length service)) ++ service.

(** ** Hexadecimal *)

Lemma unhex_loop_app s rest len n :
  (len <= length s)%nat -> unhex_loop (s ++ rest) len n = unhex_loop s len n.
Proof.
  revert s n. induction len as [|len IH]; intros s n Hl; [by destruct s, rest|].
  destruct s as [|c s]; cbn in Hl; [lia|]. cbn.
  repeat case_match; try done; apply IH; lia.
Qed.

Definition hex4_ok (n : nat) : bool :=
  bool_decide (length (hex4 (Z.of_nat n)) = 4%nat) &&
  bool_decide (unhex (hex4 (Z.of_nat n)) 4 = Some (Z.of_nat n)).

Lemma hex4_small : forallb hex4_ok (seq 0 1025) = true.
Proof. vm_compute. reflexivity. Qed.

Lemma hex4_spec n :
  (n <= 1024)%nat ->
  length (hex4 (Z.of_nat n)) = 4%nat /\ unhex (hex4 (Z.of_nat n)) 4 = Some (Z.of_nat n).
Proof.
  intros Hn. pose proof hex4_small as H. rewrite forallb_forall in H.
  specialize (H n). rewrite in_seq in H. specialize (H ltac:(lia)).
  unfold hex4_ok in H. apply andb_true_iff in H as [H1 H2]. by rewrite !bool_decide_eq_true in *.
Qed.

(** ** One request *)

(** The bytes a packet of a smart socket has gathered. *)
Definition gathered (p : apacket) : list Z := take (Z.to_nat (pk_len p)) (pk_data p).

Lemma gathered_length p : gather_ok p -> Z.of_nat (length (gathered p)) = pk_len p.
Proof. intros [H1 H2]. unfold gathered. rewrite length_take. lia. Qed.

Lemma append_gathered p q :
  gather_ok p -> gather_ok q -> pk_len p + pk_len q <= MAX_PAYLOAD ->
  gather_ok (append_data p q) /\ gathered (append_data p q) = gathered p ++ gathered q.
Proof.
  intros Hp Hq Hsum. pose proof (gathered_length p Hp) as Lp. pose proof (gathered_length q Hq) as Lq.
  destruct Hp as [Hp1 Hp2], Hq as [Hq1 Hq2]. unfold append_data. fold (gathered p) (gathered q). split.
  - split; cbn; [lia|]. rewrite !length_app, length_drop. unfold MAX_PAYLOAD in *. lia.
  - unfold gathered at 1. cbn [pk_len pk_data]. rewrite app_assoc, take_app_le.
    + apply take_ge. rewrite length_app. lia.
    + rewrite length_app. lia.
Qed.

(** When the bytes gathered are a beginning of a request for a service with a name
    of 1 to 1024 bytes, more are needed until the request is complete; then the
    name of the service is found. *)
Lemma parse_gathered p service rest pre post :
  gather_ok p -> (1 <= length service <= 1024)%nat -> Forall (fun b => b <> 0) service ->
  gathered p = pre -> pre ++ post = request_frame service ++ rest ->
  parse_request p = Some (if (length pre <? length (request_frame service))%nat then NeedMore
                          else Service service).
Proof.
  intros Hp Hlen Hnul Hpre Happ. pose proof (gathered_length p Hp) as Lp. rewrite Hpre in Lp.
  destruct (hex4_spec (length service) ltac:(lia)) as [Hx1 Hx2].
  assert (length (request_frame service) = (4 + length service)%nat) as Hfl.
  { unfold request_frame. rewrite length_app. lia. }
  unfold parse_request. destruct (Z.ltb_spec (pk_len p) 4) as [Hshort|Hlong].
  { destruct (Nat.ltb_spec (length pre) (length (request_frame service))); [done|lia]. }
  assert (exists body, pk_data p = hex4 (Z.of_nat (length service)) ++ body /\
            pre = hex4 (Z.of_nat (length service)) ++ take (Z.to_nat (pk_len p) - 4) body /\
            take (Z.to_nat (pk_len p) - 4) body ++ post = service ++ rest) as (body & Hd & Hpre' & Hbody).
  { unfold request_frame in Happ. rewrite <- app_assoc in Happ.
    assert (take 4 pre = hex4 (Z.of_nat (length service))) as Ht4.
    { apply (f_equal (take 4)) in Happ. rewrite take_app_le in Happ by lia.
      by rewrite <- Hx1, take_app_length, Hx1 in Happ. }
    assert (take 4 (pk_data p) = hex4 (Z.of_nat (length service))) as Ht4'.
    { rewrite <- Ht4, <- Hpre. unfold gathered. rewrite take_take. f_equal. lia. }
    exists (drop 4 (pk_data p)). rewrite <- Ht4', take_drop. split; [done|].
    assert (pre = take 4 (pk_data p) ++ take (Z.to_nat (pk_len p) - 4) (drop 4 (pk_data p))) as Hp4.
    { rewrite <- Hpre. unfold gathered. rewrite take_drop_commute. 
      replace (4 + (Z.to_nat (pk_len p) - 4))%nat with (Z.to_nat (pk_len p)) by lia.
      rewrite <- (take_drop 4 (take (Z.to_nat (pk_len p)) (pk_data p))) at 1. f_equal.
      rewrite take_take. f_equal. lia. }
    split; [done|]. rewrite Hp4, Ht4', <- app_assoc in Happ. by apply app_inv_head in Happ. }
  rewrite Hd. unfold unhex. rewrite unhex_loop_app by lia. fold (unhex (hex4 (Z.of_nat (length service))) 4).
  rewrite Hx2. rewrite (proj2 (Z.ltb_ge (Z.of_nat (length service)) 1)) by lia.
  rewrite (proj2 (Z.ltb_ge 1024 (Z.of_nat (length service)))) by lia. cbn [orb].
  rewrite u32_id by (unfold is_u32, two32; lia).
  destruct (Z.ltb_spec (pk_len p) (Z.of_nat (length service) + 4)) as [Hmore|Hfull];
    destruct (Nat.ltb_spec (length pre) (length (request_frame service))); try lia; [done|].
  f_equal. f_equal. rewrite <- Hx1, drop_app_length, Nat2Z.id.
  assert (take (length service) body = service) as ->; [|by apply cstr_id].
  apply (f_equal (take (length service))) in Hbody. rewrite take_app_length in Hbody.
  apply (f_equal length) in Hd. rewrite length_app in Hd. destruct Hp as [Hp1 Hp2].
  rewrite take_app_le, take_take in Hbody by (rewrite length_take; lia).
  by rewrite Nat.min_l in Hbody by lia.
Qed.

(** ** A request in several packets *)

(** What a smart socket holds in [pkt_first]. *)
Definition has_gathered (pkts : list apacket) (l : list Z) : Prop :=
  pkts = [] /\ l = [] \/ exists q, pkts = [q] /\ gather_ok q /\ gathered q = l.

Definition arrived (ps : list apacket) : list Z := concat (gathered <$> ps).

(** The same state of the server, but for the packet of the socket [s]. *)
Definition holding (w : world) (s : Z) (x : asocket) (pkts : list apacket) : world :=
  upd_w_socks <[s := upd_s_pkts (fun _ => pkts) x]> w.

Lemma holding_own w s x : w_socks w !! s = Some x -> holding w s x (s_pkts x) = w.
Proof.
  intros Hs. assert (upd_s_pkts (fun _ => s_pkts x) x = x) as Hx by (by destruct x).
  unfold holding, upd_w_socks. rewrite Hx, insert_id by done. by destruct w.
Qed.

Lemma gather_run w s x pkts l p :
  has_gathered pkts l -> gather_ok p -> Z.of_nat (length (l ++ gathered p)) <= MAX_PAYLOAD ->
  exists q, gather s p (holding w s x pkts) = Ok (Some q, holding w s x [q]) /\
    gather_ok q /\ gathered q = l ++ gathered p.
Proof.
  intros Hg Hp Hl. rewrite length_app in Hl. pose proof (gathered_length p Hp) as Lp.
  assert (forall y, sock_at s (upd_w_socks <[s := y]> w) = Ok (y, upd_w_socks <[s := y]> w)) as Hat
    by (intros y; apply sock_at_run; cbn; apply lookup_insert_eq).
  unfold gather, holding, set_sock. rewrite (bind_ok _ _ _ _ _ (Hat _)). cbn [s_pkts upd_s_pkts].
  destruct Hg as [[-> ->]|(q & -> & Hq & <-)].
  - exists p. split; [|done]. unfold bind at 1. rewrite (bind_ok _ _ _ _ _ (Hat _)).
    unfold modify, upd_w_socks. cbn. rewrite insert_insert_eq. done.
  - pose proof (gathered_length q Hq) as Lq.
    destruct (append_gathered q p Hq Hp ltac:(lia)) as [Ha1 Ha2].
    exists (append_data q p). split; [|done].
    rewrite (proj2 (Z.ltb_ge MAX_PAYLOAD (pk_len q + pk_len p))) by lia.
    unfold bind at 1. rewrite (bind_ok _ _ _ _ _ (Hat _)).
    unfold modify, upd_w_socks. cbn. rewrite insert_insert_eq. done.
Qed.

Section enqueue.
(** [enqueue s p] is [s->enqueue(s, p)]; [adbhost] is the variable ADBHOST. *)
Context (enqueue : Z -> apacket -> M world Z) (adbhost : option (list Z)).

(** The packets of a client handed to the smart socket one after the other, with
    what each call returns. *)
Fixpoint enqueue_packets (s : Z) (ps : list apacket) : M world (list Z) :=
  match ps with
  | [] => ret []
  | p :: ps =>
      r <- smart_socket_enqueue enqueue adbhost s p ;;
      rs <- enqueue_packets s ps ;;
      ret (r :: rs)
  end.

Lemma smart_enqueue_run w s x pkts l p service rest post :
  (1 <= length service <= 1024)%nat -> Forall (fun b => b <> 0) service ->
  has_gathered pkts l -> gather_ok p -> Z.of_nat (length (l ++ gathered p)) <= MAX_PAYLOAD ->
  (l ++ gathered p) ++ post = request_frame service ++ rest ->
  exists q, gather_ok q /\ gathered q = l ++ gathered p /\
    smart_socket_enqueue enqueue adbhost s p (holding w s x pkts) =
      if (length (l ++ gathered p) <? length (request_frame service))%nat
      then Ok (0, holding w s x [q])
      else smart_service enqueue adbhost s service (holding w s x [q]).
Proof.
  intros Hlen Hnul Hg Hp Hmax Happ. destruct (gather_run w s x pkts l p Hg Hp Hmax) as (q & E & Hq & Hqg).
  exists q. split_and!; try done. unfold smart_socket_enqueue. rewrite (bind_ok _ _ _ _ _ E).
  rewrite (parse_gathered q service rest (l ++ gathered p) post) by done.
  unfold bind, deref, ret. by destruct (_ <? _)%nat.
Qed.

Lemma enqueue_packets_wait w s x front pkts l service rest post :
  (1 <= length service <= 1024)%nat -> Forall (fun b => b <> 0) service ->
  has_gathered pkts l -> Forall gather_ok front ->
  (l ++ arrived front) ++ post = request_frame service ++ rest ->
  (length (l ++ arrived front) < length (request_frame service))%nat ->
  exists pkts', has_gathered pkts' (l ++ arrived front) /\
    enqueue_packets s front (holding w s x pkts) =
      Ok (replicate (length front) 0, holding w s x pkts').
Proof.
  intros Hlen Hnul Hg Hf. revert pkts l Hg. induction Hf as [|p front Hp _ IH]; intros pkts l Hg Happ Hshort.
  - exists pkts. unfold arrived. cbn. by rewrite app_nil_r.
  - unfold arrived in *. cbn [fmap list_fmap concat] in *. rewrite app_assoc in *.
    destruct (hex4_spec (length service) ltac:(lia)) as [Hx1 _].
    assert (length (request_frame service) = (4 + length service)%nat) as Hfl
      by (unfold request_frame; rewrite length_app; lia).
    rewrite (length_app (l ++ gathered p)) in Hshort.
    destruct (smart_enqueue_run w s x pkts l p service rest (concat (gathered <$> front) ++ post))
      as (q & Hq & Hqg & E); try done; [unfold MAX_PAYLOAD; lia|by rewrite app_assoc|].
    rewrite (proj2 (Nat.ltb_lt _ _)) in E by lia.
    destruct (IH [q] (l ++ gathered p)) as (pkts' & H1 & H2); [right; eauto|done|rewrite length_app; lia|].
    exists pkts'. split; [done|]. cbn [enqueue_packets].
    by rewrite (bind_ok _ _ _ _ _ E), (bind_ok _ _ _ _ _ H2).
Qed.

Lemma request_run w s x front last service rest :
  w_socks w !! s = Some x -> has_gathered (s_pkts x) [] ->
  Forall gather_ok (front ++ [last]) ->
  (1 <= length service <= 1024)%nat -> Forall (fun b => b <> 0) service ->
  arrived (front ++ [last]) = request_frame service ++ rest ->
  (length (arrived front) < length (request_frame service))%nat ->
  Z.of_nat (length (request_frame service ++ rest)) <= MAX_PAYLOAD ->
  exists pkts q,
    enqueue_packets s front w = Ok (replicate (length front) 0, holding w s x pkts) /\
    smart_socket_enqueue enqueue adbhost s last (holding w s x pkts) =
      smart_service enqueue adbhost s service (holding w s x [q]) /\
    gather_ok q /\ gathered q = request_frame service ++ rest.
Proof.
  intros Hs Hg Hps Hlen Hnul Harr Hshort Hmax. apply Forall_app in Hps as [Hf Hl].
  apply list.Forall_cons_1 in Hl as [Hl _].
  assert (arrived front ++ gathered last = request_frame service ++ rest) as Harr'
    by (rewrite <- Harr; unfold arrived; rewrite fmap_app, concat_app; cbn; by rewrite app_nil_r).
  destruct (enqueue_packets_wait w s x front (s_pkts x) [] service rest (gathered last))
    as (pkts & Hg1 & E1); try done.
  rewrite holding_own in E1 by done. cbn [app] in Hg1.
  destruct (smart_enqueue_run w s x pkts (arrived front) last service rest [])
    as (q & Hq & Hqg & E2); rewrite ?app_nil_r, ?Harr'; try done.
  rewrite Harr' in E2, Hqg. rewrite (proj2 (Nat.ltb_ge _ _)) in E2 by (rewrite length_app; lia).
  by exists pkts, q.
Qed.

(** C20: requests are understood however they are split.  A client's request for a
    service with a name of 1 to 1024 bytes without zeros, possibly with more bytes
    after it, arrives in any number of packets, [last] being the one that
    completes it, and all of them together fit one packet.  Then
    [smart_socket_enqueue], on a smart socket that holds nothing yet (or the
    emptied packet of an earlier request), returns 0 for each earlier packet,
    having done nothing but keep the bytes, and at [last] does what
    [smart_service] does for exactly the name that was sent. *)
Theorem request_is_parsed w s x front last service rest :
  w_socks w !! s = Some x -> has_gathered (s_pkts x) [] ->
  Forall gather_ok (front ++ [last]) ->
  (1 <= length service <= 1024)%nat -> Forall (fun b => b <> 0) service ->
  arrived (front ++ [last]) = request_frame service ++ rest ->
  (length (arrived front) < length (request_frame service))%nat ->
  Z.of_nat (length (request_frame service ++ rest)) <= MAX_PAYLOAD ->
  exists w1 q,
    enqueue_packets s front w = Ok (replicate (length front) 0, w1) /\
    smart_socket_enqueue enqueue adbhost s last w1 =
      smart_service enqueue adbhost s service (holding w s x [q]) /\
    gather_ok q /\ gathered q = request_frame service ++ rest.
Proof.
  intros Hs Hg Hps Hlen Hnul Harr Hshort Hmax.
  edestruct request_run as (pkts & q & H1 & H2 & H3 & H4); try done. eauto 10.
Qed.

End enqueue.
