(* ===== verification/ServerEvents.v ===== *)
(** * Events of established connections

    Data on the descriptor of a local socket that talks to a device, forwarded
    ports that come and go, and transports whose threads end and which are
    removed: on a server that satisfies the invariant none of them uses a freed
    object, and the invariant holds again afterwards. *)

From S2P Require Import Prelude Ring Io Wire FdEvent EventMap World Transports Listeners HostRequest.
From S2P Require Import Sockets Server ServerInv TransportList SocketsSafe ServerSafe Streams.

(** ** Opening a descriptor *)

(** The kernel hands out descriptors that are not in use. *)
Definition fresh_ok (w : world) : Prop :=
  forall fd l, w_fresh_fds w = fd :: l -> 0 <= fd -> usable_fd w fd.

Lemma open_fd_ok w r :
  quiet w ->
  safe (open_fd r) w (fun fd w' => quiet w' /\ w_socks w' = w_socks w /\ w_trans w' = w_trans w /\
    w_lis w' = w_lis w /\ w_tlinks w' = w_tlinks w /\ w_fde w' = w_fde w /\
    (fresh_ok w -> 0 <= fd -> usable_fd w' fd)).
Proof.
  intros [Hw Hl]. apply safe_bind, safe_get, safe_bind, safe_modify.
  assert (forall l, wf ∅ (upd_w_fresh_fds (fun _ => l) (upd_w_opens (fun q => q ++ [r]) w))) as Hwf
    by (intros l; constructor; apply Hw).
  destruct (w_fresh_fds w) as [|fd l] eqn:Hfr.
  - apply safe_ret. split_and!; try done. split; [constructor; apply Hw|done].
  - apply safe_bind, safe_modify, safe_ret. split_and!; try done. intros Hf H0. by apply (Hf fd l).
Qed.

(** ** Data for a device *)

(** A local socket that is open and whose peer stands for a stream of a device. *)
Definition device_stream (w : world) (a : Z) (x : asocket) (q : Z) (y : asocket) : Prop :=
  w_socks w !! a = Some x /\ is_local x /\ s_closing x = false /\ s_peer x = Some q /\
  w_socks w !! q = Some y /\ s_enqueue y = remote_socket_enqueue_p.

Lemma stream_peer w a x q y :
  quiet w -> device_stream w a x q y ->
  s_peer y = Some a /\ q <> a /\ exists t tr, s_transport y = Some t /\ w_trans w !! t = Some tr.
Proof.
  intros [Hw _] (Ha & Hl & Hc & Hp & Hq & He).
  destruct (wf_peer _ _ _ _ _ Hw Ha ltac:(set_solver) Hc Hp) as (Hne & _ & y' & Hy & _ & Hyp & _).
  simplify_eq. split_and!; [done|done|]. by eapply wf_remote.
Qed.

(** Dropping an interest in events. *)
Lemma fde_del_ok w a x ev (Q : unit -> world -> Prop) :
  quiet w -> w_socks w !! a = Some x -> is_local x ->
  (forall w', quiet w' -> w_socks w' = w_socks w -> w_trans w' = w_trans w -> Q tt w') ->
  safe (fde_call (fdevent_del a ev)) w Q.
Proof.
  intros [Hw Hsl] Ha Hl HQ.
  destruct (event_del _ _ _ ev (wf_fd _ _ Hw) (wf_local_fd _ _ _ _ Hw Ha Hl)) as (s & Hr & Hi & Hm).
  eapply safe_fde_call; [exact Hr|]. apply HQ; [|done..]. split; [|done].
  constructor; [|exact Hi|apply Hw|apply Hw]. unfold tables_of. cbn. rewrite Hm. apply Hw.
Qed.

Lemma send_quiet w p t tr (Q : unit -> world -> Prop) :
  quiet w -> w_trans w !! t = Some tr -> fits p ->
  (forall w', quiet w' -> w_socks w' = w_socks w -> Q tt w') -> safe (send_packet p (Some t)) w Q.
Proof.
  intros [Hw Hsl] Ht Hp HQ. eapply send_ok; [done|done|]. intros w' Hsent. apply HQ.
  - split; [by eapply sent_wf|]. by rewrite (kept_slock _ _ (sent_kept _ _ _ Hsent)).
  - by destruct Hsent as (? & ? & _ & -> & _).
Qed.

(** The peer is told that the socket can take more. *)
Lemma remote_ready_ok adbhost w a x q y :
  quiet w -> device_stream w a x q y ->
  safe (sock_ready adbhost q) w (fun _ w' => quiet w' /\ w_socks w' = w_socks w).
Proof.
  intros Hq Hs. destruct (stream_peer _ _ _ _ _ Hq Hs) as (Hyp & _ & t & tr & Hyt & Ht).
  destruct Hs as (Ha & _ & _ & _ & Hy & He).
  pose proof (sh_tags _ _ (wf_shape _ _ (proj1 Hq)) _ _ Hy) as Htag. unfold tags_ok in Htag.
  rewrite He in Htag. destruct Htag as [_ Hrd].
  apply safe_bind. eapply safe_sock_at; [done|]. rewrite Hrd.
  apply safe_bind, safe_bind, safe_get, safe_ret, safe_bind. eapply safe_sock_at; [done|].
  rewrite Hyp. apply safe_bind, safe_deref_some, safe_bind. eapply safe_sock_at; [done|].
  rewrite Hyt. eapply send_quiet; [done|done|apply message_fits|done].
Qed.

(** Data is passed to the peer. *)
Lemma remote_enqueue_ok adbhost w a x q y p :
  quiet w -> device_stream w a x q y -> 0 <= pk_len p <= MAX_PAYLOAD ->
  Z.of_nat (length (pk_data p)) = MAX_PAYLOAD ->
  safe (sock_enqueue adbhost q p) w (fun r w' => r = 1 /\ quiet w' /\ w_socks w' = w_socks w).
Proof.
  intros Hq Hs Hlen Hdata. destruct (stream_peer _ _ _ _ _ Hq Hs) as (Hyp & _ & t & tr & Hyt & Ht).
  destruct Hs as (Ha & _ & _ & _ & Hy & He).
  unfold sock_enqueue. cbn [sock_enqueue_n]. apply safe_bind. eapply safe_sock_at; [done|]. rewrite He.
  apply safe_bind. eapply safe_sock_at; [done|]. rewrite Hyp. apply safe_bind, safe_deref_some, safe_bind.
  eapply safe_sock_at; [done|]. rewrite Hyt. apply safe_bind.
  eapply send_quiet; [done|done| |by intros w' ? ?; apply safe_ret].
  unfold fits. cbn [msg set_msg data_length pk_data].
  rewrite u32_id by (unfold is_u32, two32, MAX_PAYLOAD in *; lia). unfold MAX_PAYLOAD in *. lia.
Qed.

(** Closing an open local socket. *)
Lemma close_quiet w a x :
  quiet w -> w_socks w !! a = Some x -> is_local x -> s_closing x = false ->
  safe (sock_close a) w (fun _ w' => quiet w').
Proof.
  intros [Hw Hsl] Ha Hl Hc. eapply safe_mono; [by eapply sock_close_ok|]. intros _ w' [H1 H2].
  split; [done|]. by rewrite (kept_slock _ _ (cp_kept _ _ _ _ H2)).
Qed.

(** Writing what is queued for an open socket, when its peer can be told. *)
Lemma write_event_ok adbhost w a x q y :
  quiet w -> w_socks w !! a = Some x -> is_local x -> s_closing x = false -> s_peer x = Some q ->
  q <> a -> w_socks w !! q = Some y ->
  (forall w2 x2, quiet w2 -> w_socks w2 !! a = Some x2 -> only_queue x x2 -> w_socks w2 !! q = Some y ->
     safe (sock_ready adbhost q) w2 (fun _ w' => quiet w' /\ w_socks w' = w_socks w2)) ->
  safe (local_socket_write_event adbhost a (s_fd x)) w
    (fun b w' => quiet w' /\ (b = true -> w_socks w' !! q = Some y /\
       exists x', w_socks w' !! a = Some x' /\ only_queue x x')).
Proof.
  intros Hq Ha Hl Hc Hp Hne Hy Hready.
  apply safe_bind. eapply safe_sock_at; [done|]. apply safe_bind.
  eapply safe_mono; [apply (drain_ok (length (s_pkts x)) a x); done|].
  intros b w1 (Hq1 & Hin & Hkeep). destruct b; [|by apply safe_ret].
  destruct (Hkeep (Hin eq_refl)) as (Hothers & x1 & Ha1 & [pk ->] & _).
  set (x1 := upd_s_pkts (fun _ => pk) x) in *.
  assert (w_socks w1 !! q = Some y) as Hy1 by (by rewrite Hothers).
  apply safe_bind. eapply safe_sock_at; [done|]. change (s_closing x1) with (s_closing x). rewrite Hc.
  apply safe_bind. eapply fde_del_ok; [done|done|done|]. intros w2 Hq2 Hk2 _.
  apply safe_bind. change (s_peer x1) with (s_peer x). rewrite Hp. apply safe_deref_some, safe_bind.
  assert (only_queue x x1) as Hx1 by (by exists pk).
  eapply safe_mono; [apply (Hready w2 x1); [done|by rewrite Hk2|done|by rewrite Hk2]|].
  intros _ w3 [Hq3 Hk3]. apply safe_ret. split; [done|]. intros _. rewrite Hk3, Hk2. eauto.
Qed.

Lemma read_event_ok adbhost w a x q y :
  quiet w -> device_stream w a x q y ->
  safe (local_socket_read_event adbhost a (s_fd x)) w (fun _ w' => quiet w').
Proof.
  intros Hq Hs. apply safe_bind, safe_bind, safe_get, safe_ret, safe_bind.
  destruct (read_available_ok (s_fd x) w) as (bytes & eof & w1 & Hr & Hw1 & Hlen & _).
  eapply safe_ok; [exact Hr|].
  assert (quiet w1) as Hq1 by (rewrite Hw1; destruct Hq; split; [by apply wf_in|done]).
  assert (device_stream w1 a x q y) as Hs1 by (by rewrite Hw1).
  pose proof Hs1 as (Ha & Hl & Hc & Hp & Hy & He). clear Hr Hw1.
  apply safe_bind. eapply safe_sock_at; [done|]. rewrite Hp.
  assert (forall w2 (go : bool), quiet w2 -> w_socks w2 = w_socks w1 ->
    safe (when (go && eof) (sock_close a)) w2 (fun _ w' => quiet w')) as Hend.
  { intros w2 go Hq2 Hk2. apply safe_when; [|done]. intros _.
    eapply close_quiet; [done|by rewrite Hk2|done|done]. }
  apply safe_bind. destruct bytes as [|b bytes]; [apply safe_ret; by apply Hend|].
  apply safe_bind, safe_put_data; [done|]. intros p _ Hpl. apply safe_bind.
  eapply safe_mono; [eapply (remote_enqueue_ok adbhost w1 a x q y); try done; cbn [pk_len]; lia|].
  intros r w2 (-> & Hq2 & Hk2). cbn [Z.ltb Z.compare when]. apply safe_bind, safe_bind.
  eapply safe_sock_at; [by rewrite Hk2|].
  eapply fde_del_ok; [done|by rewrite Hk2|done|]. intros w3 Hq3 Hk3 _. apply safe_ret.
  apply Hend; [done|congruence].
Qed.

(** Whatever happens on the descriptor of such a socket. *)
Lemma data_event_ok adbhost w a x q y ev :
  quiet w -> device_stream w a x q y ->
  safe (local_socket_event_func adbhost (s_fd x) ev a) w (fun _ w' => quiet w').
Proof.
  intros Hq Hs. apply safe_bind.
  eapply (safe_mono _ _ (fun b w' => quiet w' /\
    (b = true -> exists x', device_stream w' a x' q y /\ s_fd x' = s_fd x))).
  - destruct (hasbit ev FDE_WRITE); [|apply safe_ret; eauto].
    destruct (stream_peer _ _ _ _ _ Hq Hs) as (_ & Hne & _). pose proof Hs as (Ha & Hl & Hc & Hp & Hy & He).
    eapply safe_mono; [eapply (write_event_ok adbhost w a x q y); try done|].
    + intros w2 x2 Hq2 Ha2 [pk ->] Hy2. by apply (remote_ready_ok adbhost w2 a (upd_s_pkts (fun _ => pk) x) q y).
    + intros b w1 [Hq1 Hb]. split; [done|]. intros Ht. destruct (Hb Ht) as (Hy1 & x1 & Ha1 & [pk ->]).
      eexists. by split_and!.
  - intros go w1 [Hq1 Hgo]. apply safe_when; [|done]. intros [-> _]%andb_true_iff.
    destruct (Hgo eq_refl) as (x1 & Hs1 & <-). by eapply read_event_ok.
Qed.

(** ** New transports *)

Lemma calloc_transport_ok w :
  quiet w -> safe calloc_transport w (fun t w' => quiet w' /\ is_Some (w_trans w' !! t)).
Proof.
  intros [Hw Hl]. pose proof (wf_shape _ _ Hw) as Hs.
  apply safe_bind, safe_get, safe_bind, safe_bind, safe_get, safe_bind, safe_modify, safe_ret.
  apply safe_bind, safe_modify, safe_bind, safe_modify, safe_ret.
  destruct (sh_fresh _ _ Hs (w_next w) ltac:(cbn; lia)) as (_ & Hno & _). cbn in Hno.
  split; [split; [|done]|cbn; rewrite lookup_insert_eq; eauto].
  constructor; [by apply (shape_new_trans ∅ (tables_of w)); [apply Hw|]|apply Hw| |apply Hw].
  destruct (wf_tlist _ _ Hw) as (l & Hd & Hlive). exists l. split.
  - apply ring_insert_else; [|done]. rewrite elem_of_cons. pose proof (sh_pos _ _ Hs) as Hpos. cbn in Hpos.
    intros [?|[x ?]%Hlive]; [unfold transport_list in *; lia|congruence].
  - intros u Hu. destruct (Hlive u Hu) as [x Hx]. cbn. rewrite lookup_insert_ne; [by exists x|congruence].
Qed.

(** A change of a transport that keeps its disconnect list. *)
Lemma set_trans_ok w t f :
  quiet w -> is_Some (w_trans w !! t) -> (forall x, t_disconnects (f x) = t_disconnects x) ->
  safe (set_trans t f) w (fun _ w' => quiet w' /\ is_Some (w_trans w' !! t)).
Proof.
  intros [Hw Hl] [x Hx] Hf. eapply safe_set_trans; [done|]. split; [split; [by eapply wf_trans|done]|].
  cbn. rewrite lookup_insert_eq. eauto.
Qed.

Lemma transport_message_ok w t a : quiet w -> safe (transport_message t a) w (fun _ w' => quiet w').
Proof.
  intros [Hw Hl]. apply safe_bind, safe_get.
  assert (safe (modify (upd_w_reg_answers tail) ;; modify (upd_w_reg (fun q => q ++ [mkTmsg t a]))) w
            (fun _ w' => quiet w')) as Hgo.
  { apply safe_bind, safe_modify, safe_modify. split; [constructor; apply Hw|done]. }
  destruct (w_reg_answers w) as [|[] ?]; done.
Qed.

Lemma serial_message_ok w t serial :
  quiet w -> is_Some (w_trans w !! t) ->
  safe (when (bool_decide (is_Some serial)) (set_trans t (upd_t_serial (fun _ => serial))) ;;
        register_transport t) w (fun _ w' => quiet w').
Proof.
  intros Hq Ht. apply safe_bind. eapply (safe_mono _ _ (fun _ w' => quiet w')).
  - apply safe_when; [|done]. intros _. eapply safe_mono; [by apply set_trans_ok|]. by intros _ w' [? _].
  - intros _ w' Hq'. by apply transport_message_ok.
Qed.

Lemma register_usb_ok w usb serial writeable :
  quiet w -> safe (register_usb_transport usb serial writeable) w (fun _ w' => quiet w').
Proof.
  intros Hq. apply safe_bind. eapply safe_mono; [by apply calloc_transport_ok|]. intros t w1 [Hq1 Ht1].
  apply safe_bind. eapply safe_mono; [by apply set_trans_ok|]. intros _ w2 [Hq2 Ht2].
  by apply serial_message_ok.
Qed.

Lemma register_tcp_ok w s serial port :
  quiet w -> safe (register_socket_transport s serial port false) w (fun _ w' => quiet w').
Proof.
  intros Hq. apply safe_bind. eapply safe_mono; [by apply calloc_transport_ok|]. intros t w1 [Hq1 Ht1].
  apply safe_bind, safe_bind. eapply safe_mono; [by apply set_trans_ok|]. intros _ w2 [Hq2 Ht2].
  apply safe_ret. by apply serial_message_ok.
Qed.

(** ** Asking a device for a service *)

Lemma connect_remote_ok X w a x name :
  wf X w -> w_socks w !! a = Some x -> (forall t, s_transport x = Some t -> is_Some (w_trans w !! t)) ->
  safe (connect_to_remote a name) w
    (fun _ w' => wf X w' /\ w_slock w' = w_slock w /\ w_socks w' = w_socks w).
Proof.
  intros Hw Ha Ht. unfold connect_to_remote. apply safe_bind, safe_bind, safe_get, safe_ret.
  case_match eqn:Hlen; [done|]. apply safe_bind. eapply safe_sock_at; [exact Ha|].
  apply safe_bind, safe_put_data; [rewrite length_app; cbn [length]; lia|]. intros q0 _ Hq0.
  match goal with |- safe (send_packet ?q _) _ _ => assert (fits q) as Hfits end.
  { unfold fits. cbn [msg data_length set_msg pk_data]. unfold MAX_PAYLOAD in *. lia. }
  destruct (s_transport x) as [t|].
  - destruct (Ht t eq_refl) as [tr Htr]. eapply (send_ok _ _ t tr); [done|exact Hfits|].
    intros w4 Hsent. split_and!; [by eapply sent_wf|by rewrite (kept_slock _ _ (sent_kept _ _ _ Hsent))|].
    by destruct Hsent as (? & ? & _ & -> & _).
  - destruct (fill_fits _ Hfits) as [q Hfill]. unfold send_packet. rewrite Hfill. done.
Qed.

(** ** Forwarded ports *)

(** A new listener, entered in the disconnect list of its transport. *)
Lemma shape_new_forward X b y t tr tr' :
  shape X b -> l_transport y = Some t -> tb_trans b !! t = Some tr ->
  t_disconnects tr' = t_disconnects tr ++ [listener_disconnect_p (tb_next b)] ->
  shape X (Tables (tb_socks b) (tb_local b) (tb_closing b) (<[t := tr']> (tb_trans b)) (tb_trackers b)
    (<[tb_next b := y]> (tb_lis b)) (tb_llist b ++ [tb_next b]) (<[tb_next b := l_fd y]> (tb_fds b))
    (tb_next b + 1)).
Proof.
  intros Hs Hyt Ht Hd. set (l := tb_next b) in *.
  destruct (fresh_unlisted X b Hs) as (U1 & U2 & U3 & U4 & U5).
  destruct (sh_fresh _ _ Hs l ltac:(lia)) as (G1 & G2 & G3 & G4).
  destruct (sh_nodup _ _ Hs) as (D1 & D2 & D3 & D4).
  assert (forall d, d ∈ t_disconnects tr' <-> d ∈ t_disconnects tr \/ d = listener_disconnect_p l)
    as Hdd by (intros d; by rewrite Hd, elem_of_app, list_elem_of_singleton).
  assert (l <> t) as Hlt by congruence.
  apply (shape_replace X _ b _ l); [done| |done|by right; left|].
  - same_tables; [by rewrite elem_of_app, list_elem_of_singleton; naive_solver|].
    destruct (decide (t0 = t)) as [->|Hne]; simplify_map_eq; [|eauto].
    exists tr'. split; [done|]. intros d Hof. rewrite Hdd. unfold entry_of in Hof. naive_solver.
  - constructor; cbn; rewrite ?lookup_insert_eq, ?G1; try done; try (by intros ? [= <-]).
    + lia.
    + split_and!; try done. by apply nodup_snoc.
    + intros u tru Hu. destruct (decide (u = t)) as [->|Hne]; simplify_map_eq; [|by eapply sh_disc].
      rewrite Hd. apply list.NoDup_app. split_and!; [by eapply sh_disc| |by apply list.NoDup_singleton].
      intros d Hin. rewrite list_elem_of_singleton. intros ->. eapply U5; eauto. by right.
    + intros u tru d Hu Hin Hof. destruct (decide (u = t)) as [->|Hne]; simplify_map_eq.
      * apply Hdd in Hin as [Hin| ->]; [by edestruct U5|]. exists y. cbn. by rewrite lookup_insert_eq.
      * by edestruct U5.
    + intros z [= <-]. split_and!; cbn; [|by rewrite lookup_insert_eq|].
      * apply elem_of_app. right. by apply list_elem_of_singleton.
      * intros u Hu. rewrite Hyt in Hu. injection Hu as <-. exists tr'. rewrite lookup_insert_eq.
        split; [done|]. apply Hdd. by right.
    + intros u. rewrite lookup_insert_ne, G2 by done. done.
Qed.

(** An address is taken and not used. *)
Lemma shape_skip X b :
  shape X b ->
  shape X (Tables (tb_socks b) (tb_local b) (tb_closing b) (tb_trans b) (tb_trackers b) (tb_lis b)
    (tb_llist b) (tb_fds b) (tb_next b + 1)).
Proof.
  intros Hs. destruct Hs as [F1 F2 F3 F4 F5 F6 F7 F8 F9 F10 F11 F12 F13 F14 F15].
  constructor; cbn; try done; [|lia]. intros a Ha. apply F1. lia.
Qed.

(** The search in the list of listeners. *)
Lemma find_listener_ok w ok ls :
  (forall l, l ∈ ls -> is_Some (w_lis w !! l)) ->
  exists o, find_listener ok ls w = Ok (o, w) /\
    match o with
    | Some l => l ∈ ls /\ exists y, w_lis w !! l = Some y /\ ok y = true
    | None => forall l y, l ∈ ls -> w_lis w !! l = Some y -> ok y = false
    end.
Proof.
  induction ls as [|l ls IH]; intros Hls; cbn [find_listener].
  { exists None. split; [done|]. intros l y H. by apply elem_of_nil in H. }
  destruct (Hls l) as [y Hy]; [left|]. unfold lis_at, bind, get, deref. rewrite Hy. unfold ret.
  destruct (ok y) eqn:Hok; [exists (Some l); split; [done|]; split; [left|eauto]|].
  destruct IH as (o & Ho & Hc); [by intros l' H; apply Hls; right|]. exists o. split; [done|].
  destruct o as [l'|]; [destruct Hc as [H1 H2]; split; [by right|done]|].
  intros l' y' [->|H]%elem_of_cons H'; [by simplify_eq|by eapply Hc].
Qed.

Lemma local_name_cases name (P : M world Z -> Prop) :
  (forall r, P (open_fd r)) -> P (ret (-1)) -> P (local_name_to_fd name).
Proof. intros H1 H2. unfold local_name_to_fd. repeat case_match; auto. Qed.

(** The end of [install_listener], at an address that was just taken. *)
Lemma listen_ok w local_name connect_to t tr fd :
  quiet w -> w_trans w !! t = Some tr -> usable_fd w fd -> forall func,
  safe (fde_call (fdevent_install (w_next w) fd func (w_next w)) ;;
        fde_call (fdevent_set (w_next w) FDE_READ) ;;
        modify (upd_w_lis <[w_next w := mkLis fd local_name connect_to (Some t)]>) ;;
        modify (upd_w_llist (fun ls => ls ++ [w_next w])) ;;
        add_transport_disconnect t (listener_entry (w_next w)) ;; ret 0)
    (upd_w_next (fun n => n + 1) w) (fun _ w' => quiet w').
Proof.
  intros [Hw Hsl] Ht [Hr Hn] func. pose proof (wf_shape _ _ Hw) as Hs.
  destruct (sh_fresh _ _ Hs (w_next w) ltac:(cbn; lia)) as (_ & _ & _ & Hno). cbn in Hno.
  destruct (event_install (w_fde w) (w_next w) fd func (w_next w) (wf_fd _ _ Hw) Hno Hr Hn)
    as (f1 & E1 & I1 & M1).
  destruct (event_set f1 (w_next w) fd FDE_READ I1) as (f2 & E2 & I2 & M2); [rewrite M1; apply lookup_insert_eq|].
  apply safe_bind. eapply safe_fde_call; [exact E1|]. apply safe_bind. eapply safe_fde_call; [exact E2|].
  apply safe_bind, safe_modify, safe_bind, safe_modify, safe_bind, safe_bind, safe_lock_transports; [apply Hw|].
  apply safe_bind. eapply safe_set_trans; [done|]. apply safe_modify, safe_ret. split; [|exact Hsl].
  set (tr' := upd_t_disconnects _ tr).
  constructor; [|exact I2| |done].
  - unfold tables_of. cbn. rewrite M2, M1.
    exact (shape_new_forward ∅ (tables_of w) (mkLis fd local_name connect_to (Some t)) t tr tr' Hs eq_refl Ht eq_refl).
  - destruct (wf_tlist _ _ Hw) as [ts Hts]. exists ts. exact (tlist_trans w t tr _ ts Hts Ht).
Qed.

(** "forward:" for a local name that is not in use yet. *)
Lemma install_forward_ok w local_name connect_to t :
  quiet w -> fresh_ok w -> is_Some (w_trans w !! t) ->
  (forall l y, w_lis w !! l = Some y -> l_local_name y <> local_name) ->
  safe (install_listener local_name connect_to (Some t)) w (fun _ w' => quiet w').
Proof.
  intros Hq Hf [tr Ht] Hnew. pose proof Hq as [Hw Hsl]. pose proof (wf_shape _ _ Hw) as Hs.
  apply safe_bind, safe_get, safe_bind.
  destruct (find_listener_ok w (fun x => streq local_name (l_local_name x)) (w_llist w)) as (o & Ho & Hc);
    [exact (sh_llist _ _ Hs)|].
  eapply safe_ok; [exact Ho|]. destruct o as [l|].
  { destruct Hc as (_ & y & Hy & Hname). apply bool_decide_eq_true in Hname. by destruct (Hnew l y Hy). }
  apply safe_bind, safe_bind, safe_get, safe_bind, safe_modify, safe_ret.
  assert (quiet (upd_w_next (fun n => n + 1) w)) as Hq1.
  { split; [|done]. constructor; [|apply Hw..]. exact (shape_skip ∅ (tables_of w) Hs). }
  match goal with |- safe (bind _ ?k) _ _ =>
    apply (local_name_cases local_name (fun m => safe (bind m k) (upd_w_next (fun n => n + 1) w)
      (fun _ w' => quiet w'))) end; [|apply safe_bind, safe_ret, safe_ret; exact Hq1].
  intros r. apply safe_bind, safe_bind, safe_get, safe_bind, safe_modify. cbn [w_fresh_fds upd_w_next].
  destruct Hq1 as [Hw1 _].
  destruct (w_fresh_fds w) as [|fd fds] eqn:Hfr.
  { apply safe_ret, safe_ret. split; [constructor; apply Hw1|done]. }
  apply safe_bind, safe_modify, safe_ret. destruct (Z.ltb_spec fd 0) as [|H0].
  { apply safe_ret. split; [constructor; apply Hw1|done]. }
  set (w2 := upd_w_fresh_fds (fun _ => fds) (upd_w_opens (fun q => q ++ [r]) w)).
  apply (listen_ok w2 local_name connect_to t tr fd); [|done|by apply (Hf fd fds)].
  split; [constructor; apply Hw|done].
Qed.

(** "killforward:" *)
Lemma remove_forward_ok w local_name connect_to t :
  quiet w -> safe (remove_listener local_name connect_to t) w (fun _ w' => quiet w').
Proof.
  intros [Hw Hsl]. pose proof (wf_shape _ _ Hw) as Hs. apply safe_bind, safe_get, safe_bind.
  destruct (find_listener_ok w (is_forward local_name connect_to t) (w_llist w)) as (o & Ho & Hc);
    [exact (sh_llist _ _ Hs)|].
  eapply safe_ok; [exact Ho|]. destruct o as [l|]; [|by apply safe_ret].
  destruct Hc as (_ & y & Hy & Hok). unfold is_forward in Hok.
  apply andb_true_iff in Hok as [_ Hyt%bool_decide_eq_true].
  destruct (sh_lis _ _ Hs l y Hy) as (_ & _ & Hlt). destruct (Hlt t Hyt) as (tr & Htr & _).
  apply safe_bind. eapply safe_mono; [by eapply free_listener_ok|]. intros _ w' (H1 & H2 & _).
  apply safe_ret. split; [done|]. by rewrite (kept_slock _ _ H2).
Qed.

(** ** Transports that end *)

(** The invariant without the condition on the lock of the transports. *)
Record settled (w : world) : Prop := {
  se_shape : shape ∅ (tables_of w);
  se_fd : fd_inv (w_fde w);
  se_tlist : exists l, tlist w l;
  se_slock : w_slock w = false
}.

Lemma quiet_settled w : quiet w <-> settled w /\ w_tlock w = false.
Proof.
  split.
  - intros [[] ?]. split; [by constructor|done].
  - intros [[] ?]. split; [by constructor|done].
Qed.

Lemma settled_trans w t x x' :
  settled w -> w_trans w !! t = Some x -> t_disconnects x' = t_disconnects x ->
  settled (upd_w_trans <[t := x']> w).
Proof.
  intros [H1 H2 [l H3] H4] Ht Hd. constructor; [|done| |done].
  - exact (shape_trans ∅ (tables_of w) t x x' H1 Ht Hd).
  - exists l. exact (tlist_trans w t x x' l H3 Ht).
Qed.

Lemma settled_close w fd : settled w -> settled (upd_w_fde (log_close fd) w).
Proof. intros [H1 H2 H3 H4]. constructor; [done| |done|done].
  constructor; try apply H2. intros a e He. by destruct (inv_fde _ H2 a e He).
Qed.

(** A transport of one of the two kinds, whose other fields may change. *)
Definition transport_is (w : world) (t : Z) (ty : transport_type) : Prop :=
  exists x, w_trans w !! t = Some x /\ t_type x = ty.

(** A step on the transport [t] that leaves locks and lists alone. *)
Definition steady (t : Z) (ty : transport_type) (w w' : world) : Prop :=
  settled w' /\ w_tlock w' = w_tlock w /\ transport_is w' t ty.

Lemma safe_set_steady w t ty f (Q : unit -> world -> Prop) :
  settled w -> transport_is w t ty ->
  (forall x, t_disconnects (f x) = t_disconnects x /\ t_type (f x) = t_type x) ->
  (forall w', steady t ty w w' -> Q tt w') -> safe (set_trans t f) w Q.
Proof.
  intros Hs (x & Hx & Hty) Hf HQ. destruct (Hf x) as [Hd Ht]. eapply safe_set_trans; [done|].
  apply HQ. split_and!; [by eapply settled_trans|done|]. exists (f x). cbn.
  rewrite lookup_insert_eq. split; [done|congruence].
Qed.

Lemma transport_kick_ok w t ty :
  settled w -> transport_is w t ty -> ty = kTransportUsb \/ ty = kTransportLocal ->
  safe (transport_kick t) w (fun _ w' => steady t ty w w').
Proof.
  intros Hs Ht Hty. pose proof Ht as (x & Hx & Hxt). apply safe_bind. eapply safe_trans_at; [done|].
  rewrite Hxt. destruct Hty as [->| ->].
  - apply safe_bind. eapply safe_trans_at; [done|]. apply safe_modify. split_and!; [|done|done].
    destruct Hs. by constructor.
  - apply safe_bind. eapply safe_trans_at; [done|]. apply safe_bind.
    eapply safe_set_steady; [done|done|done|]. intros w1 (Hs1 & Hl1 & Ht1).
    apply safe_bind, safe_modify, safe_bind, safe_modify, safe_modify. split_and!; [|done|done].
    destruct (settled_close _ (t_sfd x) Hs1). by constructor.
Qed.

Lemma transport_close_ok w t ty :
  settled w -> transport_is w t ty -> ty = kTransportUsb \/ ty = kTransportLocal ->
  safe (transport_close t) w (fun _ w' => steady t ty w w').
Proof.
  intros Hs Ht Hty. pose proof Ht as (x & Hx & Hxt). apply safe_bind. eapply safe_trans_at; [done|].
  rewrite Hxt. destruct Hty as [->| ->]; apply safe_bind; (eapply safe_trans_at; [done|]).
  - apply safe_bind, safe_modify. eapply (safe_set_steady _ t kTransportUsb); [|done|done|by intros w' [? ?]].
    destruct Hs. by constructor.
  - apply safe_modify. split_and!; [by apply settled_close|done|done].
Qed.

Lemma steady_then t ty w1 w2 w3 : steady t ty w1 w2 -> steady t ty w2 w3 -> steady t ty w1 w3.
Proof. intros (_ & H1 & _) (H2 & H3 & H4). split_and!; [done|congruence|done]. Qed.

Lemma steady_refl t ty w : settled w -> transport_is w t ty -> steady t ty w w.
Proof. done. Qed.

(** The step that kicks a transport, unless [b] says it is kicked already. *)
Lemma kick_once_ok w t ty (b : bool) :
  settled w -> transport_is w t ty -> ty = kTransportUsb \/ ty = kTransportLocal ->
  safe (when b (set_trans t (upd_t_kicked (fun _ => true)) ;; transport_kick t)) w
    (fun _ w' => steady t ty w w').
Proof.
  intros Hs Ht Hty. apply safe_when; [|done]. intros _. apply safe_bind.
  eapply (safe_set_steady w t ty); [done|done|done|]. intros w1 Hst. pose proof Hst as (Hs1 & _ & Ht1).
  eapply safe_mono; [by apply (transport_kick_ok w1 t ty)|]. intros [] w2 Hst2. by eapply steady_then.
Qed.

Lemma kick_transport_ok w t ty :
  quiet w -> transport_is w t ty -> ty = kTransportUsb \/ ty = kTransportLocal ->
  safe (kick_transport t) w (fun _ w' => quiet w' /\ transport_is w' t ty).
Proof.
  intros [Hs Hl]%quiet_settled Ht Hty. pose proof Ht as (x & Hx & _). apply safe_bind.
  eapply safe_trans_at; [done|]. apply safe_when; [|by rewrite quiet_settled]. intros _.
  apply safe_bind, safe_lock_transports; [done|]. apply safe_bind. eapply safe_trans_at; [done|].
  set (w1 := upd_w_tlock (fun _ => true) w).
  assert (settled w1) as Hs1 by (destruct Hs; by constructor).
  assert (forall w2 (b : bool), settled w2 -> transport_is w2 t ty ->
    safe (unlock_transports ;; when b (transport_kick t)) w2
      (fun _ w' => quiet w' /\ transport_is w' t ty)) as Hend.
  { intros w2 b Hs2 Ht2. apply safe_bind, safe_modify. set (w3 := upd_w_tlock _ w2).
    assert (settled w3) as Hs3 by (destruct Hs2; by constructor).
    apply safe_when; [intros _|by rewrite quiet_settled].
    eapply safe_mono; [by apply (transport_kick_ok w3 t ty)|].
    intros _ w' (H1 & H2 & H3). by rewrite quiet_settled. }
  apply safe_bind. destruct (negb (t_kicked x)); cbn [when]; [|exact (Hend w1 false Hs1 Ht)].
  eapply (safe_set_steady w1 t ty); [done|done|done|]. intros w2 (Hs2 & _ & Ht2).
  exact (Hend w2 true Hs2 Ht2).
Qed.

Lemma message_settled w t ty a :
  settled w -> transport_is w t ty -> safe (transport_message t a) w (fun _ w' => steady t ty w w').
Proof.
  intros Hs Ht. apply safe_bind, safe_get.
  assert (safe (modify (upd_w_reg_answers tail) ;; modify (upd_w_reg (fun q => q ++ [mkTmsg t a]))) w
            (fun _ w' => steady t ty w w')) as Hgo.
  { apply safe_bind, safe_modify, safe_modify. split_and!; [destruct Hs; by constructor|done|done]. }
  destruct (w_reg_answers w) as [|[] ?]; done.
Qed.

Lemma transport_unref_ok w t ty :
  quiet w -> transport_is w t ty -> ty = kTransportUsb \/ ty = kTransportLocal ->
  safe (transport_unref t) w (fun _ w' => quiet w').
Proof.
  intros [Hs Hl]%quiet_settled Ht Hty. apply safe_bind, safe_lock_transports; [done|].
  set (w1 := upd_w_tlock (fun _ => true) w).
  assert (settled w1) as Hs1 by (destruct Hs; by constructor).
  apply safe_bind. eapply (safe_set_steady w1 t ty); [done|done|done|]. intros w2 (Hs2 & _ & Ht2).
  pose proof Ht2 as (x & Hx & _). apply safe_bind. eapply safe_trans_at; [done|]. apply safe_bind.
  assert (forall w', settled w' -> safe unlock_transports w' (fun _ w'' => quiet w'')) as Hend.
  { intros w' Hs'. apply safe_modify. rewrite quiet_settled. split; [destruct Hs'; by constructor|done]. }
  apply safe_when; [intros _|by intros _; apply Hend]. apply safe_bind.
  eapply safe_mono; [by apply (kick_once_ok w2 t ty)|]. intros _ w3 (Hs3 & _ & Ht3). apply safe_bind.
  eapply safe_mono; [by apply (transport_close_ok w3 t ty)|]. intros _ w4 (Hs4 & _ & Ht4).
  eapply safe_mono; [by apply (message_settled w4 t ty)|]. intros _ w5 (Hs5 & _ & Ht5). by apply Hend.
Qed.

(** The end of the thread that reads from the device. *)
Lemma output_exit_ok w t ty :
  quiet w -> transport_is w t ty -> ty = kTransportUsb \/ ty = kTransportLocal ->
  safe (output_thread_exit t) w (fun _ w' => quiet w').
Proof.
  intros Hq Ht Hty. apply safe_bind. eapply safe_mono; [by apply (kick_transport_ok w t ty)|].
  intros _ w1 [Hq1 Ht1]. by apply (transport_unref_ok w1 t ty).
Qed.

(** ** The sockets of a transport that ends *)

Lemma find_using_ok w t l :
  wf ∅ w -> (forall a, a ∈ l -> a ∈ w_local w) ->
  exists o, find_using t l w = Ok (o, w) /\ forall a, o = Some a -> a ∈ l.
Proof.
  intros Hw. pose proof (wf_shape _ _ Hw) as Hs. induction l as [|a l IH]; intros Hl; cbn [find_using].
  { by exists None. }
  destruct (sh_local _ _ Hs a) as (x & Hx & Hxl & Hxc); [apply Hl; left|]. cbn in Hx.
  rewrite (bind_ok _ _ _ _ _ (sock_at_run _ _ _ Hx)).
  assert (forall hit : bool, exists o,
    (if hit then ret (Some a) else find_using t l) w = Ok (o, w) /\ forall c, o = Some c -> c ∈ a :: l) as Hgo.
  { intros [|]; [exists (Some a); split; [done|]; intros c [= <-]; left|].
    destruct IH as (o & Ho & Hin); [by intros c Hc; apply Hl; right|]. exists o. split; [done|].
    intros c Hc. right. auto. }
  case_bool_decide; [unfold bind, ret at 1; apply (Hgo true)|].
  destruct (s_peer x) as [q|] eqn:Hp; [|unfold bind, ret at 1; apply (Hgo false)].
  destruct (wf_peer _ _ _ _ _ Hw Hx ltac:(set_solver) Hxc Hp) as (_ & _ & y & Hy & _).
  unfold bind at 1. rewrite (bind_ok _ _ _ _ _ (sock_at_run _ _ _ Hy)). unfold ret at 1. apply Hgo.
Qed.

(** Closing takes the socket off the list of open ones and adds none. *)
Lemma closed_pair_shorter w w' a x :
  wf ∅ w -> wf ∅ w' -> closed_pair a x w w' -> a ∈ w_local w -> w_socks w !! a = Some x ->
  s_closing x = false -> (length (w_local w') < length (w_local w))%nat.
Proof.
  intros Hw Hw' Hcp Ha Hx Hc. destruct (sh_nodup _ _ (wf_shape _ _ Hw')) as (Hnd & _).
  destruct (sh_nodup _ _ (wf_shape _ _ Hw)) as (Hnd0 & _). cbn in Hnd, Hnd0.
  assert (forall c, c ∈ w_local w' -> c ∈ filter (fun c => c <> a) (w_local w)) as Hsub.
  { intros c Hin. rewrite list_elem_of_filter. assert (c <> a) as Hne by (intros ->; by apply (cp_gone _ _ _ _ Hcp)).
    split; [done|]. destruct (sh_local _ _ (wf_shape _ _ Hw') c Hin) as (z & Hz & Hzl & Hzc). cbn in Hz.
    destruct (decide (s_peer x = Some c)) as [Hp|Hp].
    - destruct (wf_peer _ _ _ _ _ Hw Hx ltac:(set_solver) Hc Hp) as (_ & _ & y & Hy & Hyc & _).
      destruct (decide (s_enqueue y = local_socket_enqueue_p)) as [Hyl|Hyl].
      + by eapply wf_local_listed.
      + rewrite (cp_peer _ _ _ _ Hcp c y Hp Hy Hyl) in Hz. done.
    - rewrite (cp_socks _ _ _ _ Hcp) in Hz by done. by eapply wf_local_listed. }
  assert (filter (fun c => c <> a) (w_local w) ++ [a] ≡ₚ w_local w) as Hperm.
  { apply list.NoDup_Permutation; [|done|].
    - apply nodup_snoc; [by apply list.NoDup_filter|]. rewrite list_elem_of_filter. tauto.
    - intros c. rewrite elem_of_app, list_elem_of_filter, list_elem_of_singleton.
      destruct (decide (c = a)) as [->|]; tauto. }
  rewrite <- Hperm, length_app. cbn.
  assert (length (w_local w') <= length (filter (fun c => c <> a) (w_local w)))%nat; [|lia].
  apply list.submseteq_length, list.NoDup_submseteq; [done|exact Hsub].
Qed.

Lemma close_using_ok fuel w t :
  wf ∅ w -> (length (w_local w) <= fuel)%nat ->
  safe (close_using fuel t) w (fun _ w' => wf ∅ w' /\ kept w w').
Proof.
  revert w. induction fuel as [|f IH]; intros w Hw Hf; cbn [close_using];
    apply safe_bind, safe_get, safe_bind;
    (destruct (find_using_ok w t (w_local w) Hw ltac:(done)) as (o & Ho & Hin));
    (eapply safe_ok; [exact Ho|]); (destruct o as [a|]; [|by apply safe_ret; split; [|apply kept_refl]]).
  { specialize (Hin a eq_refl). destruct (w_local w); [by apply elem_of_nil in Hin|cbn in Hf; lia]. }
  destruct (sh_local _ _ (wf_shape _ _ Hw) a (Hin a eq_refl)) as (x & Hx & Hxl & Hxc). cbn in Hx.
  apply safe_bind. eapply safe_mono; [apply (close_locked_ok w 6 a x); done|].
  intros _ w1 [Hw1 Hcp]. pose proof (closed_pair_shorter w w1 a x Hw Hw1 Hcp (Hin a eq_refl) Hx Hxc).
  eapply safe_mono; [apply IH; [done|lia]|]. intros _ w' [H1 H2]. split; [done|].
  eapply kept_then; [apply Hcp|done].
Qed.

Lemma close_all_sockets_ok w t : quiet w -> safe (close_all_sockets t) w (fun _ w' => quiet w').
Proof.
  intros [Hw Hsl]. apply safe_bind, safe_lock_sockets; [done|]. apply safe_bind, safe_get, safe_bind.
  eapply safe_mono; [apply close_using_ok; [by apply wf_slock|done]|].
  intros _ w1 [Hw1 Hk1]. apply safe_modify. split; [by apply wf_slock|done].
Qed.

(** ** Removing a transport *)

(** The event of a transport is gone. *)
Lemma shape_drop_fd X b t tr :
  shape X b -> tb_trans b !! t = Some tr ->
  shape X (Tables (tb_socks b) (tb_local b) (tb_closing b) (tb_trans b) (tb_trackers b) (tb_lis b)
    (tb_llist b) (delete t (tb_fds b)) (tb_next b)).
Proof.
  intros Hs Ht. destruct (sh_tsep _ _ Hs t tr Ht) as [Hns Hnl].
  assert (forall a, a <> t -> delete t (tb_fds b) !! a = tb_fds b !! a) as Hd
    by (intros; by apply lookup_delete_ne).
  assert (forall a x, tb_socks b !! a = Some x -> a <> t) as Hsne by congruence.
  assert (forall l y, tb_lis b !! l = Some y -> l <> t) as Hlne by congruence.
  destruct Hs as [F1 F2 F3 F4 F5 F6 F7 F8 F9 F10 F11 F12 F13 F14 F15]. constructor; cbn; try done.
  - intros a Ha. destruct (F1 a Ha) as (? & ? & ? & ?). split_and!; try done.
    destruct (decide (a = t)) as [->|]; [apply lookup_delete_eq|by rewrite Hd].
  - intros a x Ha. pose proof (F3 a x Ha) as Hok. unfold sock_ok in *. cbn.
    rewrite Hd by (by eapply Hsne). done.
  - intros l y Hl. destruct (F11 l y Hl) as (H1 & H2 & H3). split_and!; try done. cbn.
    by rewrite Hd by (by eapply Hlne).
Qed.

(** A transport without entries is freed. *)
Lemma shape_drop_trans X b t tr :
  shape X b -> tb_trans b !! t = Some tr -> t_disconnects tr = [] ->
  shape X (Tables (tb_socks b) (tb_local b) (tb_closing b) (delete t (tb_trans b)) (tb_trackers b)
    (tb_lis b) (tb_llist b) (tb_fds b) (tb_next b)).
Proof.
  intros Hs Ht Hd.
  assert (forall u x d, tb_trans b !! u = Some x -> d ∈ t_disconnects x -> delete t (tb_trans b) !! u = Some x)
    as Hfwd.
  { intros u x d Hu Hin. rewrite lookup_delete_ne; [done|]. intros <-. simplify_eq.
    rewrite Hd in Hin. by apply elem_of_nil in Hin. }
  destruct Hs as [F1 F2 F3 F4 F5 F6 F7 F8 F9 F10 F11 F12 F13 F14 F15]. constructor; cbn; try done.
  - intros a Ha. destruct (F1 a Ha) as (? & ? & ? & ?). split_and!; try done.
    rewrite lookup_delete_None. by right.
  - intros a x Ha. pose proof (F3 a x Ha) as Hok. unfold sock_ok in *. cbn.
    destruct (s_enqueue x); try done. destruct Hok as (H1 & H0 & u & y & H2 & H3 & H4). eauto 10.
  - intros u x [_ Hu]%lookup_delete_Some. eauto.
  - intros u x d [_ Hu]%lookup_delete_Some Hin. by eapply F10.
  - intros l y Hl. destruct (F11 l y Hl) as (H1 & H2 & H3). split_and!; try done.
    intros u Hu. destruct (H3 u Hu) as (z & H4 & H5). cbn. eauto.
  - intros u x [_ Hu]%lookup_delete_Some. eauto.
Qed.

(** The fields of a transport that is being removed: it is on the list, and its
    event is installed. *)
Definition removable (w : world) (t : Z) : Prop :=
  (exists l1 l2, tlist w (l1 ++ t :: l2)) /\ is_Some (fdmap (w_fde w) !! t).

(** Up to the point where the transport is off the list. *)
Lemma unlist_ok w t x :
  quiet w -> removable w t -> w_trans w !! t = Some x ->
  safe (fde_call (fdevent_remove t) ;; x <- trans_at t ;; adb_close (t_fd x) ;;
        lock_transports ;; tl_unlink t ;; unlock_transports) w
    (fun _ w' => quiet w' /\ (exists l, tlist w' l /\ t ∉ transport_list :: l) /\ fdmap (w_fde w') !! t = None /\
       w_trans w' = w_trans w).
Proof.
  intros [Hw Hsl] [(l1 & l2 & Hdll & Hlive) [fd Hfd]] Hx.
  destruct (event_remove _ _ _ (wf_fd _ _ Hw) Hfd) as (s1 & E1 & I1 & M1).
  apply safe_bind. eapply safe_fde_call; [exact E1|]. apply safe_bind. eapply safe_trans_at; [done|].
  apply safe_bind, safe_modify, safe_bind, safe_lock_transports; [apply Hw|]. apply safe_bind.
  match goal with |- safe _ ?v _ => destruct (tl_unlink_ok v l1 t l2 Hdll) as (k & Ek & Hk) end.
  eapply safe_ok; [exact Ek|]. apply safe_modify.
  assert (t ∉ transport_list :: l1 ++ l2) as Hnot.
  { destruct Hdll as [Hnd _]. apply list.NoDup_cons in Hnd as [Hh Hnd].
    apply list.NoDup_app in Hnd as (_ & Hd & Hnd). apply list.NoDup_cons in Hnd as [Hn _].
    rewrite elem_of_cons, elem_of_app. intros [->|[H|H]]; [set_solver|apply (Hd t H); left|done]. }
  assert (fdmap (log_close (t_fd x) s1) = delete t (fdmap (w_fde w))) as Hm by (rewrite <- M1; done).
  split_and!; [split; [|exact Hsl]| | |done].
  - constructor; [| | |done].
    + unfold tables_of. cbn [w_socks w_local w_closing w_trans w_trackers w_lis w_llist w_fde w_next
        upd_w_tlock upd_w_tlinks upd_w_fde]. rewrite Hm.
      exact (shape_drop_fd ∅ (tables_of w) t x (wf_shape _ _ Hw) Hx).
    + constructor; try apply I1. intros a e He. by destruct (inv_fde _ I1 a e He).
    + exists (l1 ++ l2). split; [exact Hk|]. intros u Hu. apply Hlive. set_solver.
  - exists (l1 ++ l2). split; [|done]. split; [exact Hk|]. intros u Hu. apply Hlive. set_solver.
  - cbn [w_fde upd_w_tlock upd_w_tlinks upd_w_fde]. rewrite Hm. apply lookup_delete_eq.
Qed.

Lemma gone_ok adbhost w t :
  quiet w -> removable w t -> is_Some (w_trans w !! t) ->
  safe (transport_gone adbhost t) w (fun _ w' => quiet w').
Proof.
  intros Hq Hr [x Hx]. pose proof (unlist_ok w t x Hq Hr Hx) as Hun.
  assert (transport_gone adbhost t w =
    ((fde_call (fdevent_remove t) ;; x <- trans_at t ;; adb_close (t_fd x) ;;
      lock_transports ;; tl_unlink t ;; unlock_transports) ;;
     run_transport_disconnects t ;; free_transport t ;; free_fde t ;; update_transports adbhost) w) as Heq.
  { unfold transport_gone, bind. repeat case_match; congruence. }
  unfold safe at 1. rewrite Heq. apply safe_run, safe_bind. eapply safe_mono; [exact Hun|].
  intros _ w1 ([Hw1 Hsl1] & (l & Hl & Hnot) & Hfd1 & Ht1). apply safe_bind.
  eapply safe_mono; [apply (run_disconnects_ok w1 t x); [done|done|congruence]|].
  intros _ w2 (Hw2 & Hk & x2 & Hx2 & Hd2).
  assert (fdmap (w_fde w2) !! t = None) as Hfd2.
  { destruct (fdmap (w_fde w2) !! t) as [fd|] eqn:E; [|done].
    pose proof (lookup_weaken _ _ _ _ E (kept_fds _ _ Hk)). congruence. }
  destruct (event_free (w_fde w2) t (wf_fd _ _ Hw2) Hfd2) as [Hi Hm].
  apply safe_bind, safe_bind, safe_modify, safe_modify, safe_bind, safe_modify.
  eapply safe_mono; [apply update_transports_ok|].
  - constructor; [|exact Hi| |apply Hw2].
    + unfold tables_of. cbn [w_socks w_local w_closing w_trans w_trackers w_lis w_llist w_fde w_next
        upd_w_trans upd_w_tlinks upd_w_fde]. rewrite Hm.
      exact (shape_drop_trans ∅ (tables_of w2) t x2 (wf_shape _ _ Hw2) Hx2 Hd2).
    + exists l. destruct Hl as [[Hnd Hseg] Hlive]. split; [split; [done|]|].
      * cbn. rewrite (kept_links _ _ Hk). apply seg_delete_else; [set_solver|done].
      * intros u Hu. destruct (Hlive u Hu) as [y Hy]. destruct (kept_trans _ _ Hk u y Hy) as (y' & Hy' & _).
        exists y'. cbn. rewrite lookup_delete_ne; [done|]. intros ->. set_solver.
  - cbn. by rewrite (kept_slock _ _ Hk).
  - intros _ w' [H1 H2]. split; [done|]. rewrite (kept_slock _ _ H2). cbn. by rewrite (kept_slock _ _ Hk).
Qed.
