(* ===== verification/ServerRequests.v ===== *)
(** * Requests of clients are safe

    When a client's request is complete, the smart socket answers it itself,
    binds the client to a service of the server, or asks the device for the
    service.  On a server that satisfies the invariant this uses no freed object
    and the invariant holds again afterwards. *)

From S2P Require Import Prelude Ring Io Wire FdEvent EventMap World Transports Listeners HostRequest.
From S2P Require Import Sockets Server ServerInv TransportList SocketsSafe ServerSafe Streams Requests ServerEvents.

#[local] Opaque snprintf.

(** ** Steps that leave the sockets alone *)

Definition keeps_socks {A} (m : M world A) : Prop :=
  forall w a w', m w = Ok (a, w') -> w_socks w' = w_socks w.

Create HintDb keeps.

Lemma ks_ret {A} (a : A) : keeps_socks (ret a).
Proof. intros w b w' [= <- <-]. done. Qed.

Lemma ks_fail {A} e : keeps_socks (fail e : M world A).
Proof. done. Qed.

Lemma ks_get : keeps_socks get.
Proof. intros w a w' [= <- <-]. done. Qed.

Lemma ks_deref {A} (o : option A) : keeps_socks (deref o).
Proof. destruct o; [apply ks_ret|done]. Qed.

Lemma ks_bind {A B} (m : M world A) (k : A -> M world B) :
  keeps_socks m -> (forall a, keeps_socks (k a)) -> keeps_socks (bind m k).
Proof.
  intros Hm Hk w b w'. unfold bind. destruct (m w) as [[a w1]|] eqn:E; [|done]. intros E2.
  rewrite (Hk a _ _ _ E2). by apply (Hm w a).
Qed.

Lemma ks_modify f : (forall w, w_socks (f w) = w_socks w) -> keeps_socks (modify f).
Proof. intros Hf w a w' [= _ <-]. apply Hf. Qed.

Lemma ks_when (b : bool) m : keeps_socks m -> keeps_socks (when b m).
Proof. intros Hm. destruct b; [done|apply ks_ret]. Qed.

Lemma ks_fde {A} (m : M (fdst fd_callback) A) : keeps_socks (fde_call m).
Proof. intros w a w'. unfold fde_call. destruct (m (w_fde w)) as [[]|]; [|done]. by intros [= _ <-]. Qed.

Lemma ks_out {A} fd (m : M wrfd A) : keeps_socks (fd_out_call fd m).
Proof. intros w a w'. unfold fd_out_call. destruct (m _) as [[]|]; [|done]. by intros [= _ <-]. Qed.

Lemma ks_write fd buf : keeps_socks (fd_write fd buf).
Proof. intros w a w'. unfold fd_write. destruct (adb_write _ _). by intros [= _ <-]. Qed.

#[export] Hint Resolve @ks_ret @ks_fail ks_get @ks_deref @ks_fde @ks_out ks_write : keeps.

(** Takes a step apart down to those known to keep the sockets. *)
Ltac keeps :=
  lazymatch goal with
  | |- keeps_socks (bind _ _) => apply ks_bind; [keeps|intros ?; keeps]
  | |- keeps_socks (modify _) => apply ks_modify; done
  | |- keeps_socks (when _ _) => apply ks_when; keeps
  | |- keeps_socks (match ?x with _ => _ end) => destruct x; keeps
  | |- _ => solve [eauto with keeps]
  end.

Lemma ks_trans_at t : keeps_socks (trans_at t).
Proof. unfold trans_at. keeps. Qed.
Lemma ks_lis_at l : keeps_socks (lis_at l).
Proof. unfold lis_at. keeps. Qed.
Lemma ks_lock : keeps_socks lock_transports.
Proof. unfold lock_transports. keeps. Qed.
Lemma ks_unlock : keeps_socks unlock_transports.
Proof. unfold unlock_transports. keeps. Qed.
Lemma ks_open r : keeps_socks (open_fd r).
Proof. unfold open_fd. keeps. Qed.
#[export] Hint Resolve ks_trans_at ks_lis_at ks_lock ks_unlock ks_open : keeps.

Lemma ks_set_trans t f : keeps_socks (set_trans t f).
Proof. unfold set_trans. keeps. Qed.
Lemma ks_transports : keeps_socks transports.
Proof.
  assert (forall t, keeps_socks (tl_next t)) as Hn by (intros; unfold tl_next; keeps).
  assert (forall f t, keeps_socks (tl_walk f t)) as Hw.
  { induction f as [|f IH]; intros t; cbn [tl_walk]; keeps. }
  unfold transports. keeps.
Qed.
#[export] Hint Resolve ks_set_trans ks_transports : keeps.

Lemma ks_acquire st ty ser : keeps_socks (acquire_one_transport st ty ser).
Proof. unfold acquire_one_transport. keeps. Qed.
Lemma ks_list n : keeps_socks (list_transports n).
Proof. unfold list_transports. keeps. Qed.
Lemma ks_find s : keeps_socks (find_transport s).
Proof. unfold find_transport. keeps. Qed.
Lemma ks_reply fd text : keeps_socks (reply fd text).
Proof. unfold reply. keeps. Qed.
Lemma ks_reply_fail fd text : keeps_socks (reply_fail fd text).
Proof. unfold reply_fail. keeps. Qed.
Lemma ks_register s ser port : keeps_socks (register_socket_transport s ser port false).
Proof.
  assert (forall t a, keeps_socks (transport_message t a)) as Hm by (intros; unfold transport_message; keeps).
  unfold register_socket_transport, LocalTransport.init_socket_transport, calloc_transport, alloc,
    register_transport, free_transport, adb_close. keeps.
Qed.
#[export] Hint Resolve ks_acquire ks_list ks_find ks_reply ks_reply_fail ks_register : keeps.

Lemma ks_install local_name connect_to t : keeps_socks (install_listener local_name connect_to t).
Proof.
  assert (forall ok ls, keeps_socks (find_listener ok ls)) as Hf.
  { intros ok. induction ls as [|l ls IH]; cbn [find_listener]; keeps. }
  unfold install_listener, rebind_listener, local_name_to_fd, add_transport_disconnect,
    remove_transport_disconnect, alloc. keeps.
Qed.

Lemma ks_remove local_name connect_to t : keeps_socks (remove_listener local_name connect_to t).
Proof.
  assert (forall ok ls, keeps_socks (find_listener ok ls)) as Hf.
  { intros ok. induction ls as [|l ls IH]; cbn [find_listener]; keeps. }
  unfold remove_listener, listener_disconnect, free_listener, remove_transport_disconnect, free_fde. keeps.
Qed.
#[export] Hint Resolve ks_install ks_remove : keeps.

(** A safe step that keeps the sockets. *)
Lemma safe_keeps {A} (m : M world A) w (Q : A -> world -> Prop) :
  keeps_socks m -> safe m w Q -> safe m w (fun a w' => Q a w' /\ w_socks w' = w_socks w).
Proof. intros Hk. unfold safe. destruct (m w) as [[a w']|] eqn:E; [|done]. intros HQ. split; [done|]. by apply (Hk w a). Qed.

(** ** The request and the client *)

(** A smart socket and the local socket of the client it serves. *)
Definition asks (w : world) (s : Z) (x : asocket) (a : Z) (y : asocket) : Prop :=
  w_socks w !! s = Some x /\ s_enqueue x = smart_socket_enqueue_p /\ s_peer x = Some a /\
  w_socks w !! a = Some y.

Lemma asks_facts w s x a y :
  quiet w -> asks w s x a y ->
  s_closing x = false /\ s_closing y = false /\ s_peer y = Some s /\ is_local y /\ a <> s /\
  s_close y = local_socket_close_p.
Proof.
  intros [Hw _] (Hs & He & Hp & Ha). pose proof (wf_shape _ _ Hw) as Hsh.
  pose proof (sh_sock _ _ Hsh _ _ Hs) as Hok. unfold sock_ok in Hok. rewrite He in Hok.
  destruct Hok as (Hc & _).
  destruct (wf_peer _ _ _ _ _ Hw Hs ltac:(set_solver) Hc Hp) as (Hne & _ & y' & Hy & Hyc & Hyp & Hk & Hyn).
  simplify_eq. assert (is_local y) as Hl by (unfold is_local in *; destruct Hk; congruence).
  split_and!; try done. apply local_tags; [apply (sh_tags _ _ Hsh _ _ Ha)|done|done].
Qed.

(** The pair, about to be taken apart. *)
Lemma asks_open w s x a y : quiet w -> asks w s x a y -> wf {[s; a]} w.
Proof.
  intros Hq Hs. destruct (asks_facts _ _ _ _ _ Hq Hs) as (Hc & _). destruct Hq as [Hw _].
  destruct Hs as (Hs & _ & Hp & _). eapply (wf_same_set ({[s; a]} ∪ ∅)); [|set_solver].
  constructor; try apply Hw. eapply shape_open_pair; [apply Hw|done|set_solver|done..].
Qed.

(** Closing the smart socket closes the client's socket as well. *)
Lemma smart_close_ok w s x a y :
  quiet w -> asks w s x a y -> safe (sock_close s) w (fun _ w' => quiet w').
Proof.
  intros Hq Hs. pose proof (asks_open _ _ _ _ _ Hq Hs) as Hw2.
  destruct (asks_facts _ _ _ _ _ Hq Hs) as (Hc & Hyc & Hyp & Hl & Hne & Hyn).
  destruct Hq as [Hw Hsl]. destruct Hs as (Hs & He & Hp & Ha).
  pose proof (sh_tags _ _ (wf_shape _ _ Hw) _ _ Hs) as Htag. unfold tags_ok in Htag. rewrite He in Htag.
  destruct Htag as [Hcl _]. unfold sock_close. rewrite call_close_n. apply safe_bind.
  eapply safe_sock_at; [done|]. rewrite Hcl. apply safe_bind. eapply safe_sock_at; [done|]. rewrite Hp.
  apply safe_bind, safe_bind. eapply (clear_peer_ok _ w a); [exact Hw2|set_solver|exact Ha|]. intros w1 -> Hw1.
  eapply safe_mono; [eapply (local_close_lone {[s; a]} _ 5 a (upd_s_peer (fun _ => None) y));
    try done; [set_solver|cbn; apply lookup_insert_eq|cbn; congruence]|].
  intros _ w2 (Hw3 & [K1 K2 K3 K4 _ _]).
  assert (w_socks w2 !! s = Some x) as Hs2 by (rewrite K4 by done; cbn; by rewrite lookup_insert_ne).
  eapply safe_mono; [eapply (free_nonlocal_ok _ w2 s x (w_trans w2) (w_trackers w2) Hw3); try done|].
  - set_solver.
  - unfold is_local. by rewrite He.
  - eapply (drops_entry_none _ (tables_of w2)); [apply Hw3|done|]. by rewrite He.
  - by rewrite He.
  - eauto.
  - intros _ w' (H1 & H2 & _). split; [eapply wf_same_set; [done|apply without_nil]|].
    rewrite (kept_slock _ _ (dr_kept _ _ _ H2)), (kept_slock _ _ K1). done.
Qed.

Definition alive (w : world) (a : Z) : Prop :=
  exists x, w_socks w !! a = Some x /\ is_local x /\ s_closing x = false.

(** The client's socket after its request was dealt with.  It may be gone when the
    result is negative, and also when it is zero but for the requests [P]. *)
Definition dealt (a : Z) (P : Prop) (r : Z) (w' : world) : Prop :=
  quiet w' /\ (0 <= r -> P \/ r <> 0 -> alive w' a).

Lemma smart_fail_ok w s x a y P :
  quiet w -> asks w s x a y -> safe (smart_fail s) w (dealt a P).
Proof.
  intros Hq Hs. apply safe_bind. eapply safe_mono; [by eapply smart_close_ok|].
  intros [] w' Hq'. apply safe_ret. by split.
Qed.

(** ** Choosing a transport *)

Lemma scan_member ttype serial ts result err t x :
  (acquire_scan ttype serial ts result err).1.1 = Some (t, x) ->
  result = Some (t, x) \/ (t, x) ∈ ts.
Proof.
  revert result err. induction ts as [|[u z] ts IH]; intros result err; cbn [acquire_scan]; [by left|].
  repeat case_match; cbn; intros Hres; simplify_eq;
    try (destruct (IH _ _ Hres) as [Hr|Hr]; [|by right; right]);
    first [by left | right; by left | by simplify_eq; right; left].
Qed.

Lemma acquire_ok w ttype serial :
  quiet w -> exists r, acquire_one_transport CS_ANY ttype serial w = Ok (r, w) /\
    forall t, r = inl t -> is_Some (w_trans w !! t).
Proof.
  intros [Hw _]. destruct (wf_tlist _ _ Hw) as [l Hl].
  destruct (transports_ok _ _ (tlist_tlock (fun _ => true) w l Hl)) as (ts & Hts & _ & Hall).
  unfold acquire_one_transport, lock_transports, bind, get, modify. rewrite (wf_tlock _ _ Hw), Hts.
  unfold unlock_transports, modify, ret. rewrite (upd_tlock_id w (wf_tlock _ _ Hw)).
  destruct (acquire_pass CS_ANY ttype serial ts) as [t|err|] eqn:Ha; [|by exists (inr err)|].
  - exists (inl t). split; [done|]. intros u [= <-]. unfold acquire_pass in Ha.
    pose proof (scan_member ttype serial ts None (bs "device not found")) as Hm.
    destruct (acquire_scan ttype serial ts None (bs "device not found")) as [[o err] amb].
    destruct o as [[u x]|]; cbn in Ha; repeat case_match; simplify_eq.
    destruct (Hm t x eq_refl) as [?|Hin]; [done|]. rewrite list.Forall_forall in Hall.
    exists x. exact (Hall _ Hin).
  - unfold acquire_pass in Ha. destruct (acquire_scan _ _ _ _ _) as [[o err] amb].
    destruct o as [[u x]|]; cbn in Ha; repeat case_match; simplify_eq.
Qed.

(** ** Requests the server answers itself *)

(** What a request is not.  "disconnect:" unlinks a transport that is unlinked
    again later, "emulator:" uses a table of its own; a port that is missing in
    "connect:", a second forward of a local name and a "wait-for-" service whose
    thread cannot be started are undefined. *)
Definition answerable (w : world) (service : list Z) : Prop :=
  prefixb (bs "disconnect:") service = false /\ prefixb (bs "emulator:") service = false /\
  (forall host portstr, prefixb (bs "connect:") service = true ->
     strchr 58 (drop 8 service) = Some (host, portstr) -> sscanf_d portstr <> ScanEof) /\
  (forall local_name remote, prefixb (bs "forward:") service = true ->
     strchr 59 (drop 8 service) = Some (local_name, remote) ->
     forall l y, w_lis w !! l = Some y -> l_local_name y <> local_name) /\
  (prefixb (bs "wait-for-") service = true -> exists fd l, w_fresh_fds w = fd :: l /\ 0 <= fd).

Lemma reply_ok w fd text (Q : unit -> world -> Prop) :
  quiet w -> (forall w', quiet w' -> Q tt w') -> safe (reply fd text) w Q.
Proof.
  intros [Hw Hsl] HQ. apply safe_bind, safe_out_call.
  - intros d. destruct (writex_returns (okay_message text) d) as (r & d' & _ & E & _). eauto.
  - intros r d. apply safe_ret, HQ. split; [by apply wf_out|done].
Qed.

Lemma reply_fail_ok w fd text (Q : unit -> world -> Prop) :
  quiet w -> (forall w', quiet w' -> Q tt w') -> safe (reply_fail fd text) w Q.
Proof.
  intros [Hw Hsl] HQ. apply safe_bind, safe_out_call; [apply sendfailmsg_returns|].
  intros r d. apply safe_ret, HQ. split; [by apply wf_out|done].
Qed.

Lemma fd_write_quiet w fd buf (Q : io_ret -> world -> Prop) :
  quiet w -> (forall r w', quiet w' -> w_socks w' = w_socks w -> Q r w') -> safe (fd_write fd buf) w Q.
Proof.
  intros [Hw Hsl] HQ. apply safe_fd_write. intros r d. apply HQ; [|done]. split; [by apply wf_out|done].
Qed.

Lemma find_transport_ok w serial : quiet w -> exists o, find_transport serial w = Ok (o, w).
Proof.
  intros [Hw _]. destruct (wf_tlist _ _ Hw) as [l Hl].
  destruct (transports_ok _ _ (tlist_tlock (fun _ => true) w l Hl)) as (ts & Hts & _).
  unfold find_transport, lock_transports, bind, get, modify. rewrite (wf_tlock _ _ Hw), Hts.
  unfold unlock_transports, modify, ret. rewrite (upd_tlock_id w (wf_tlock _ _ Hw)). eauto.
Qed.

Lemma host_connect_ok w host :
  quiet w -> (forall name portstr, strchr 58 host = Some (name, portstr) -> sscanf_d portstr <> ScanEof) ->
  safe (host_connect host) w (fun _ w' => quiet w').
Proof.
  intros Hq Hport. unfold host_connect. generalize 4096%nat; intros room. destruct (strchr 58 host) as [[name portstr]|] eqn:E; [|by apply safe_ret].
  destruct (find_transport_ok w host Hq) as [o Ho]. apply safe_bind. eapply safe_ok; [exact Ho|].
  case_bool_decide; [by apply safe_ret|]. specialize (Hport name portstr eq_refl).
  destruct (sscanf_d portstr) as [| |port]; [done|by apply safe_ret|].
  apply safe_bind. eapply safe_mono; [by apply open_fd_ok|]. intros fd w1 (Hq1 & _).
  destruct (fd <? 0); [by apply safe_ret|]. apply safe_bind.
  eapply safe_mono; [by apply register_tcp_ok|]. intros [] w2 Hq2. by apply safe_ret.
Qed.

Lemma host_forward_ok create w spec ttype serial fd :
  quiet w -> fresh_ok w ->
  (create = true -> forall local_name remote, strchr 59 spec = Some (local_name, remote) ->
     forall l y, w_lis w !! l = Some y -> l_local_name y <> local_name) ->
  safe (host_forward create spec ttype serial fd) w (fun _ w' => quiet w').
Proof.
  intros Hq Hf Hnew. unfold host_forward. destruct (strchr 59 spec) as [[local_name remote]|];
    [|by apply reply_fail_ok].
  destruct (_ || _); [by apply reply_fail_ok|].
  destruct (acquire_ok w ttype serial Hq) as (r & Hr & Hlive). apply safe_bind. eapply safe_ok; [exact Hr|].
  destruct r as [t|err]; [|by apply reply_fail_ok]. specialize (Hlive t eq_refl).
  apply safe_bind. eapply (safe_mono _ _ (fun _ w' => quiet w')).
  - destruct create; [|by apply remove_forward_ok]. apply install_forward_ok; [done..|]. by eapply Hnew.
  - intros r w1 Hq1. destruct (r =? 0); [|by apply reply_fail_ok]. apply safe_bind, safe_out_call.
    + intros d. destruct (writex_returns (bs "OKAYOKAY") d) as (r' & d' & _ & E & _). eauto.
    + intros r' d. apply safe_ret. destruct Hq1. split; [by apply wf_out|done].
Qed.

(** A smart socket is changed: its peer is not. *)
Lemma smart_update w s x x' :
  wf ∅ w -> w_socks w !! s = Some x -> s_enqueue x = smart_socket_enqueue_p ->
  s_enqueue x' = s_enqueue x -> s_fd x' = s_fd x -> s_closing x' = s_closing x ->
  s_peer x' = s_peer x -> s_close x' = s_close x -> s_ready x' = s_ready x ->
  Forall gather_ok (s_pkts x') ->
  wf ∅ (upd_w_socks <[s := x']> w).
Proof.
  intros Hw Hs He E1 E2 E3 E4 E5 E6 Hpk.
  pose proof (sh_tags _ _ (wf_shape _ _ Hw) s x Hs) as Htag. constructor; [|apply Hw..].
  eapply (shape_update ∅ (tables_of w) s x); try done; [apply Hw|by rewrite He| | |].
  - unfold tags_ok in *. by rewrite E1, E5, E6.
  - unfold pkts_ok. by rewrite E1, He.
  - right. split; [done|]. intros _ Hn. unfold tags_ok in Htag. rewrite He in Htag. destruct Htag. congruence.
Qed.

Lemma smart_pkts w s x :
  quiet w -> w_socks w !! s = Some x -> s_enqueue x = smart_socket_enqueue_p -> Forall gather_ok (s_pkts x).
Proof.
  intros [Hw _] Hs He. pose proof (wf_pkts _ _ _ _ Hw Hs) as Hp. unfold pkts_ok in Hp. by rewrite He in Hp.
Qed.

(** The pair is as it was, but for the transport the smart socket remembers. *)
Definition still_asks (w' : world) (s : Z) (x : asocket) (a : Z) (y : asocket) : Prop :=
  exists t, asks w' s (upd_s_transport (fun _ => t) x) a y.

Lemma still_same w w' s x a y :
  asks w s x a y -> w_socks w' = w_socks w -> still_asks w' s x a y.
Proof.
  intros Hs Heq. exists (s_transport x). unfold asks in *. rewrite Heq. by destruct x.
Qed.

Lemma select_ok w service serial fd s x a y :
  quiet w -> asks w s x a y ->
  safe (let '(type, serial) := transport_request service serial in
        r <- acquire_one_transport CS_ANY type serial ;;
        match r with
        | inl t =>
            set_sock s (upd_s_transport (fun _ => Some t)) ;;
            _ <- fd_write fd (bs "OKAY") ;; ret 1
        | inr err => reply_fail fd err ;; ret 1
        end) w (fun r w' => quiet w' /\ still_asks w' s x a y /\ r <> -1).
Proof.
  intros Hq Hs. destruct (transport_request service serial) as [ty ser]. pose proof Hs as (Hs1 & He & Hp & Ha).
  destruct (asks_facts _ _ _ _ _ Hq Hs) as (_ & _ & _ & _ & Hne & _).
  destruct (acquire_ok w ty ser Hq) as (r & Hr & _). apply safe_bind. eapply safe_ok; [exact Hr|].
  destruct r as [t|err].
  - apply safe_bind. eapply safe_set_sock; [done|]. apply safe_bind, fd_write_quiet.
    + pose proof (smart_pkts _ _ _ Hq Hs1 He). destruct Hq as [Hw Hsl]. split; [by eapply smart_update|done].
    + intros r w' Hq' Hk. apply safe_ret. split_and!; [done| |lia]. exists (Some t). unfold asks. rewrite Hk.
      cbn. rewrite lookup_insert_eq, lookup_insert_ne by done. done.
  - apply safe_bind.
    eapply safe_mono; [apply (safe_keeps _ w (fun _ w' => quiet w')); [apply ks_reply_fail|by apply reply_fail_ok]|].
    intros [] w' [Hq' Hk]. apply safe_ret. split_and!; [done|by eapply still_same|lia].
Qed.

(** A step that keeps the sockets, followed by an answer and the return value 0. *)
Lemma answer_ok {A} w (m : M world A) (text : A -> list Z) fd s x a y :
  asks w s x a y -> keeps_socks m -> safe m w (fun _ w' => quiet w') ->
  safe (r <- m ;; reply fd (text r) ;; ret 0) w (fun r w' => quiet w' /\ still_asks w' s x a y /\ r = 0).
Proof.
  intros Hs Hk Hm. apply safe_bind. eapply safe_mono; [by apply safe_keeps|]. intros r w1 [Hq1 Hk1].
  apply safe_bind.
  eapply safe_mono; [apply (safe_keeps _ w1 (fun _ w' => quiet w')); [apply ks_reply|by apply reply_ok]|].
  intros [] w' [Hq' Hk']. apply safe_ret. split_and!; [done| |done]. eapply still_same; [done|congruence].
Qed.

Lemma acquired_text_ok {A} w ttype serial (f : option atransport -> A) :
  quiet w ->
  safe (r <- acquire_one_transport CS_ANY ttype serial ;;
        match r with inl t => z <- trans_at t ;; ret (f (Some z)) | inr _ => ret (f None) end) w
    (fun _ w' => quiet w').
Proof.
  intros Hq. destruct (acquire_ok w ttype serial Hq) as (r & Hr & Hlive). apply safe_bind.
  eapply safe_ok; [exact Hr|]. destruct r as [t|]; [|by apply safe_ret].
  destruct (Hlive t eq_refl) as [z Hz]. apply safe_bind. eapply safe_trans_at; [done|]. by apply safe_ret.
Qed.

(** Requests of the "host:" kind. *)
Lemma host_request_ok adbhost w service ttype serial fd s x a y :
  quiet w -> fresh_ok w -> asks w s x a y -> answerable w service ->
  safe (handle_host_request adbhost service ttype serial fd s) w
    (fun r w' => quiet w' /\ still_asks w' s x a y /\
       (r = 0 \/ prefixb (bs "transport") service = true \/ w' = w)).
Proof.
  intros Hq Hf Hs (Hdis & Hemu & Hcon & Hfwd & _). unfold handle_host_request.
  assert (forall m, safe m w (fun r w' => quiet w' /\ still_asks w' s x a y /\ r = 0) ->
    safe m w (fun r w' => quiet w' /\ still_asks w' s x a y /\
       (r = 0 \/ prefixb (bs "transport") service = true \/ w' = w))) as Hzero.
  { intros m Hm. eapply safe_mono; [exact Hm|]. intros r w' (? & ? & ?). eauto. }
  destruct (streq service (bs "kill")).
  { apply safe_bind, safe_fd_write. done. }
  destruct (prefixb (bs "transport") service) eqn:Htr.
  { eapply safe_mono; [by eapply select_ok|]. intros r w' (? & ? & ?). eauto. }
  destruct (streq service (bs "devices")).
  { apply Hzero. apply (answer_ok w (list_transports 4096) (fun t => t)); [done|apply ks_list|].
    destruct Hq as [Hw Hsl]. destruct (list_transports_ok ∅ w 4096 Hw) as (text & Ht & _); [lia|]. by eapply safe_ok. }
  destruct (prefixb (bs "connect:") service).
  { apply Hzero. apply (answer_ok w (host_connect (drop 8 service)) (fun t => t)); [done| |].
    - unfold host_connect. generalize 4096%nat; intros room. keeps.
    - apply host_connect_ok; [done|]. intros host port. by apply (Hcon host port). }
  rewrite Hdis. destruct (streq service (bs "version")).
  { apply Hzero. apply (answer_ok w (ret tt) (fun _ => snprintf 12 (hex4 ADB_SERVER_VERSION))); [done|apply ks_ret|done]. }
  destruct (prefixb (bs "get-serialno") service).
  { apply Hzero. apply safe_assoc. apply (answer_ok w _ (fun t => t)); [done|keeps|].
    by apply (acquired_text_ok w ttype serial
                (fun o => match o with Some z => default (bs "unknown") (t_serial z) | None => bs "unknown" end)). }
  rewrite Hemu. destruct (prefixb (bs "forward:") service).
  { apply Hzero. apply safe_bind.
    eapply safe_mono; [apply (safe_keeps _ w (fun _ w' => quiet w')); [unfold host_forward; keeps|]|].
    - apply host_forward_ok; [done..|]. intros _ name remote. by apply (Hfwd name remote).
    - intros [] w' [Hq' Hk]. apply safe_ret. split_and!; [done|by eapply still_same|done]. }
  destruct (prefixb (bs "killforward:") service).
  { apply Hzero. apply safe_bind.
    eapply safe_mono; [apply (safe_keeps _ w (fun _ w' => quiet w')); [unfold host_forward; keeps|]|].
    - by apply host_forward_ok.
    - intros [] w' [Hq' Hk]. apply safe_ret. split_and!; [done|by eapply still_same|done]. }
  destruct (prefixb (bs "get-state") service).
  { apply Hzero. apply safe_assoc. apply (answer_ok w _ connection_state_name); [done|keeps|].
    by apply (acquired_text_ok w ttype serial (fun o => o)). }
  apply safe_ret. split_and!; [done|by eapply still_same|by right; right].
Qed.

(** ** Binding the client to a service of the server *)

(** A new device tracker. *)
Lemma shape_new_tracker X b x :
  shape X b -> s_enqueue x = device_tracker_enqueue_p -> tags_ok x -> s_closing x = false ->
  shape ({[tb_next b]} ∪ X) (Tables (<[tb_next b := x]> (tb_socks b)) (tb_local b) (tb_closing b)
    (tb_trans b) (tb_next b :: tb_trackers b) (tb_lis b) (tb_llist b) (tb_fds b) (tb_next b + 1)).
Proof.
  intros Hs He Htag Hc. set (a := tb_next b) in *.
  destruct (fresh_unlisted X b Hs) as (U1 & U2 & U3 & U4 & U5).
  destruct (sh_fresh _ _ Hs a ltac:(lia)) as (G1 & G2 & G3 & G4).
  destruct (sh_nodup _ _ Hs) as (D1 & D2 & D3 & D4).
  apply (shape_replace X _ b _ a); [done| |set_solver|by right; left|].
  - same_tables. rewrite elem_of_cons. naive_solver.
  - constructor; cbn; rewrite ?lookup_insert_eq, ?G2; try done; try (by intros ? [= <-]).
    + lia.
    + intros z [= <-]. unfold sock_ok. rewrite He. split_and!; try done. by left.
    + intros z _. set_solver.
    + split_and!; try done. by constructor.
    + apply (sh_disc _ _ Hs).
    + eauto.
    + intros t tr d Ht Hd Hof. by edestruct U5.
    + congruence.
Qed.

(** The socket of a service: new, and without a peer. *)
Definition service_socket (w : world) (s2 : Z) (z : asocket) (w' : world) : Prop :=
  wf {[s2]} w' /\ w_slock w' = false /\ s2 = w_next w /\ w_socks w' = <[s2 := z]> (w_socks w) /\
  s_closing z = false /\
  (s_enqueue z = device_tracker_enqueue_p \/ is_local z /\ s_close z = local_socket_close_p).

Lemma wf_open w a x : wf ∅ w -> w_socks w !! a = Some x -> s_peer x = None -> wf {[a]} w.
Proof.
  intros Hw Ha Hp. eapply (wf_same_set ({[a]} ∪ ∅)); [|set_solver]. constructor; try apply Hw.
  eapply shape_open; [apply Hw|done..].
Qed.

Lemma service_socket_ok w service :
  quiet w -> fresh_ok w -> 
  (prefixb (bs "wait-for-") service = true -> exists fd l, w_fresh_fds w = fd :: l /\ 0 <= fd) ->
  safe (host_service_to_socket service) w (fun o w' =>
    match o with
    | Some s2 => exists z, service_socket w s2 z w' /\ (service <> bs "track-devices" -> is_local z)
    | None => w' = w
    end).
Proof.
  intros Hq Hf Hopen. unfold host_service_to_socket. pose proof Hq as [Hw Hsl].
  unfold streq. case_bool_decide as Htrack.
  - apply safe_bind, safe_bind, safe_bind, safe_get, safe_bind, safe_modify, safe_ret.
    apply safe_bind, safe_modify, safe_bind, safe_modify, safe_ret, safe_ret.
    eexists. split; [|done]. split_and!; try done; [|by left].
    eapply (wf_same_set ({[w_next w]} ∪ ∅)); [|set_solver]. constructor; [|apply Hw..].
    by apply (shape_new_tracker ∅ (tables_of w)); try done; apply Hw.
  - destruct (prefixb (bs "wait-for-") service) eqn:Hwait; [|by apply safe_ret].
    destruct (_ || _); [|by apply safe_ret]. destruct (Hopen eq_refl) as (fd & l & Hfr & Hpos).
    apply safe_bind. eapply safe_ok; [unfold open_fd, bind, get, modify; cbn; rewrite Hfr; reflexivity|].
    apply safe_bind. eapply safe_mono; [eapply (create_local_ok ∅)|].
    + constructor; apply Hw.
    + done.
    + exact (Hf fd l Hfr Hpos).
    + intros s2 w2 (Hw2 & Hs2 & (z & [X1 X2 X3 X4 X5 X6] & Hz) & _ & Hsl2 & _). apply safe_ret. exists z.
      split; [|done]. split_and!; try done; [|by right].
      eapply wf_open; [done|by rewrite Hz, lookup_insert_eq|done].
Qed.

(** The service's socket is told to start. *)
Lemma call_ready_ok n adbhost w s2 z :
  quiet w -> w_socks w !! s2 = Some z ->
  (s_enqueue z = device_tracker_enqueue_p \/ is_local z /\ s_close z = local_socket_close_p) ->
  safe (call_ready (sock_enqueue_n (S n) adbhost) s2) w
    (fun _ w' => quiet w' /\ (is_local z -> w_socks w' = w_socks w)).
Proof.
  intros [Hw Hsl] Hz Hk. pose proof (sh_tags _ _ (wf_shape _ _ Hw) _ _ Hz) as Htag. unfold tags_ok in Htag.
  apply safe_bind. eapply safe_sock_at; [done|]. destruct Hk as [He|[Hl Hcl]].
  - rewrite He in Htag. destruct Htag as [Htc ->]. apply safe_bind. eapply safe_sock_at; [done|].
    apply safe_when; [|by split; [split|]]. intros _. apply safe_bind. eapply safe_set_sock; [done|].
    set (w1 := upd_w_socks _ w).
    assert (wf ∅ w1) as Hw1.
    { constructor; [|apply Hw..]. eapply (shape_update ∅ (tables_of w) s2 z); try done; [apply Hw| | |].
      - exact (sh_tags _ _ (wf_shape _ _ Hw) _ _ Hz).
      - unfold pkts_ok. cbn. by rewrite He.
      - right. split; [done|]. cbn. rewrite Htc. done. }
    destruct (list_transports_ok ∅ w1 (1024 - 4) Hw1 ltac:(lia)) as (text & Ht & Hlen).
    unfold list_transports_msg. apply safe_bind, safe_bind. eapply safe_ok; [exact Ht|]. apply safe_ret, safe_bind.
    eapply safe_mono; [eapply (tracker_send_ok n adbhost w1 s2 (upd_s_update (fun _ => false) z)); try done|].
    + rewrite length_app, length_take. unfold MAX_PAYLOAD. lia.
    + cbn. apply lookup_insert_eq.
    + intros r w' (H1 & H2 & _). apply safe_ret. split; [|unfold is_local; congruence].
      split; [done|]. by rewrite (kept_slock _ _ H2).
  - unfold is_local in Hl. rewrite Hl in Htag. destruct Htag as [[_ ->]|[? _]]; [|congruence].
    eapply safe_mono; [by eapply local_ready_ok|]. intros _ w' (H1 & Hk & H2 & _). split; [split; [done|congruence]|done].
Qed.

(** The smart socket, alone, is closed. *)
Lemma close_smart_ok X w s x :
  wf X w -> s ∈ X -> w_socks w !! s = Some x -> s_enqueue x = smart_socket_enqueue_p ->
  safe (set_peer s None ;; sock_close s) w
    (fun _ w' => wf (X ∖ {[s]}) w' /\ w_slock w' = w_slock w /\
       forall c, c <> s -> w_socks w' !! c = w_socks w !! c).
Proof.
  intros Hw HsX Hs He. apply safe_bind. eapply safe_set_sock; [done|].
  eapply safe_mono; [eapply (close_lone_ok X _ 7 s (upd_s_peer (fun _ => None) x))|].
  - by apply set_peer_ok.
  - done.
  - cbn. apply lookup_insert_eq.
  - done.
  - unfold is_local. cbn. congruence.
  - intros _ w' [H1 [K1 K2 _ _]]. split_and!; [done|by rewrite (kept_slock _ _ K1)|].
    intros c Hc. rewrite K2. cbn. by rewrite lookup_delete_ne, lookup_insert_ne.
Qed.

(** Two sockets become peers; the local one is made an ordinary one first. *)
Lemma rig_ok X w a y s2 z :
  wf X w -> a ∈ X -> s2 ∈ X -> s2 <> a -> w_socks w !! a = Some y -> w_socks w !! s2 = Some z -> is_local y ->
  forall (m : M world Z) (Q : Z -> world -> Prop),
  (forall w', wf X w' -> w_slock w' = w_slock w ->
     w_socks w' = <[s2 := upd_s_peer (fun _ => Some a) z]>
                    (<[a := upd_s_peer (fun _ => Some s2) (plain y)]> (w_socks w)) -> safe m w' Q) ->
  safe (set_sock a (fun y => upd_s_ready (fun _ => local_socket_ready_p)
                               (upd_s_close (fun _ => local_socket_close_p) y)) ;;
        set_peer a (Some s2) ;; set_peer s2 (Some a) ;; m) w Q.
Proof.
  intros Hw HaX HsX Hne Ha Hz Hl m Q Hm.
  apply safe_bind. eapply safe_set_sock; [exact Ha|].
  apply safe_bind. eapply safe_set_sock; [cbn; apply lookup_insert_eq|].
  apply safe_bind. eapply safe_set_sock; [cbn; by rewrite !lookup_insert_ne|].
  apply Hm; [|done|cbn; by rewrite insert_insert_eq].
  apply set_peer_ok; [|done|cbn; by rewrite !lookup_insert_ne].
  apply set_peer_ok; [by apply plain_ok|done|cbn; apply lookup_insert_eq].
Qed.

Lemma smart_bind_ok n adbhost w s x a y s2 z w1 :
  quiet w -> asks w s x a y -> service_socket w s2 z w1 ->
  safe (smart_bind (sock_enqueue_n (S n) adbhost) s a s2) w1 (dealt a (is_local z)).
Proof.
  intros Hq Hs (Hw1 & Hsl1 & Hs2 & Hsock & Hzc & Hk).
  destruct (asks_facts _ _ _ _ _ Hq Hs) as (Hc & Hyc & _ & Hl & Hne & _).
  destruct Hs as (Hs & He & Hp & Ha).
  destruct (sh_fresh _ _ (wf_shape _ _ (proj1 Hq)) s2) as (Hno & _); [cbn; lia|]. cbn in Hno.
  assert (s2 <> s /\ s2 <> a) as [Hn1 Hn2] by (split; congruence).
  assert (w_socks w1 !! s = Some x) as Hs1 by (by rewrite Hsock, lookup_insert_ne).
  assert (w_socks w1 !! a = Some y) as Ha1 by (by rewrite Hsock, lookup_insert_ne).
  assert (w_socks w1 !! s2 = Some z) as Hz1 by (by rewrite Hsock, lookup_insert_eq).
  assert (wf {[s; a; s2]} w1) as Hw2.
  { eapply (wf_same_set ({[s; a]} ∪ {[s2]})); [|set_solver]. constructor; try apply Hw1.
    eapply shape_open_pair; [apply Hw1|exact Hs1|set_solver|done..]. }
  apply safe_bind. eapply safe_sock_at; [done|]. apply safe_bind, safe_fd_write. intros r d.
  eapply (rig_ok {[s; a; s2]} _ a y s2 z); [by apply wf_out|set_solver|set_solver|done|done|done|done|].
  intros w3 Hw3 Hsl3 Hk3. cbn in Hsl3, Hk3.
  apply safe_assoc, safe_bind. eapply safe_mono; [eapply (close_smart_ok _ w3 s x Hw3); [set_solver| |done]|].
  { rewrite Hk3, !lookup_insert_ne by done. done. }
  intros [] w4 (Hw4 & Hsl4 & Hk4). apply safe_bind.
  assert (w_socks w4 !! a = Some (upd_s_peer (fun _ => Some s2) (plain y))) as Ha4
    by (rewrite Hk4, Hk3, lookup_insert_ne, lookup_insert_eq by done; done).
  assert (w_socks w4 !! s2 = Some (upd_s_peer (fun _ => Some a) z)) as Hz4
    by (rewrite Hk4, Hk3, lookup_insert_eq by done; done).
  eapply safe_mono; [eapply (call_ready_ok n adbhost w4 s2); [|exact Hz4|done]|].
  2: { intros [] w' [Hq' Hk']. apply safe_ret. split; [done|]. intros _ [Hzl|?]; [|done]. eexists. by rewrite Hk'. }
  split; [|congruence].
  eapply (wf_same_set ({[s; a; s2]} ∖ {[s]} ∖ {[a; s2]})); [|set_solver]. constructor; [|apply Hw4..].
  eapply (shape_join _ _ a _ s2 _); [apply Hw4|exact Ha4|exact Hz4|done|set_solver|set_solver|..]; try done.
  - pose proof (sh_tags _ _ (wf_shape _ _ Hw4) _ _ Hz4) as Htag. unfold tags_ok in Htag. cbn in *.
    destruct Hk as [Hk|[Hk ?]]; [rewrite Hk in Htag; destruct Htag|]; congruence.
  - by left.
Qed.

(** A service of the server, whatever it is. *)
Lemma host_service_ok n adbhost w s x a y service ttype serial :
  quiet w -> fresh_ok w -> asks w s x a y -> answerable w service ->
  safe (smart_host_service (sock_enqueue_n (S n) adbhost) adbhost s service ttype serial) w
    (dealt a (service <> bs "track-devices")).
Proof.
  intros Hq Hf Hs Hans. pose proof Hs as (Hs1 & He & Hp & Ha).
  apply safe_bind. eapply safe_sock_at; [done|]. rewrite Hp. apply safe_bind, safe_deref_some, safe_bind.
  eapply safe_sock_at; [done|]. apply safe_bind. eapply safe_mono; [by eapply host_request_ok|].
  intros r w1 (Hq1 & (t & Hs2) & Hkeep). destruct (Z.eqb_spec r 0) as [->|Hr]; [by eapply smart_fail_ok|].
  destruct (prefixb (bs "transport") service) eqn:Htr.
  - destruct (asks_facts _ _ _ _ _ Hq1 Hs2) as (_ & Hyc & _ & Hl & Hne & _).
    destruct Hs2 as (Hs2 & He2 & _ & Ha2). apply safe_bind. eapply safe_set_sock; [done|]. apply safe_ret.
    split; [|intros _ _; exists y; cbn; by rewrite lookup_insert_ne].
    pose proof (smart_pkts _ _ _ Hq1 Hs2 He2) as Hpk. destruct Hq1 as [Hw1 Hsl1]. split; [|done].
    eapply smart_update; try done. cbn in *. destruct (s_pkts x); [done|].
    apply list.Forall_cons_1 in Hpk as [[_ ?] ?]. constructor; [|done]. split; [cbn; unfold MAX_PAYLOAD; lia|done].
  - destruct Hkeep as [?|[?| ->]]; [done..|]. apply safe_bind.
    eapply safe_mono; [apply service_socket_ok; [done|done|apply Hans]|]. intros [s2|] w2.
    + intros (z & Hz & Hzl). eapply safe_mono; [by eapply smart_bind_ok|]. intros r' w' [? Hal]. split; [done|]. intros H0 [?|?]; auto.
    + intros ->. apply safe_bind.
      eapply safe_mono; [apply (safe_keeps _ w (fun _ w' => quiet w')); [apply ks_reply_fail|by apply reply_fail_ok]|].
      intros [] w3 [Hq3 Hk3]. eapply (smart_fail_ok w3 s x a y); [done|]. unfold asks. by rewrite Hk3.
Qed.

(** ** Asking a device *)

(** An exempt local socket without a peer. *)
Lemma wf_shut w a x : wf {[a]} w -> w_socks w !! a = Some x -> is_local x -> s_peer x = None -> wf ∅ w.
Proof.
  intros Hw Ha Hl Hp. constructor; try apply Hw. pose proof (wf_shape _ _ Hw) as Hs.
  apply (shape_exempt {[a]}); [done|]. intros c z Hc _ Hz. unfold peer_ok.
  destruct (decide (c = a)) as [->|Hne]; [cbn in Hc; simplify_eq; by rewrite Hp|].
  pose proof (sh_peer _ _ Hs c z Hc ltac:(set_solver) Hz) as Hpc. unfold peer_ok in Hpc.
  destruct (s_peer z); [|done]. destruct Hpc as (H1 & _ & H3). split_and!; [done|set_solver|apply H3..].
Qed.

Lemma smart_open_ok w s x a y name :
  quiet w -> asks w s x a y -> (forall t, s_transport x = Some t -> is_Some (w_trans w !! t)) ->
  safe (smart_open s name) w (dealt a True).
Proof.
  intros Hq Hs Ht. pose proof (asks_open _ _ _ _ _ Hq Hs) as Hw2.
  destruct (asks_facts _ _ _ _ _ Hq Hs) as (Hc & Hyc & Hyp & Hl & Hne & _).
  pose proof Hs as (Hs1 & He & Hp & Ha).
  apply safe_bind. eapply safe_sock_at; [done|]. rewrite Hp. apply safe_bind, safe_deref_some, safe_bind.
  eapply safe_sock_at; [done|]. apply safe_bind. eapply (safe_mono _ _ (fun _ w' => w' = w)).
  { destruct (s_transport x) as [t|]; [|by apply safe_ret]. destruct (Ht t eq_refl) as [tr Htr].
    apply safe_bind. eapply safe_trans_at; [done|]. by apply safe_ret. }
  intros [] w0 ->.
  { apply safe_bind.
    eapply safe_mono; [apply (safe_keeps _ w (fun _ w' => quiet w')); [apply ks_reply_fail|by apply reply_fail_ok]|].
    intros [] w3 [Hq3 Hk3]. eapply (smart_fail_ok w3 s x a y); [done|]. unfold asks. by rewrite Hk3. }
  apply safe_bind. eapply safe_set_sock; [done|]. set (y' := upd_s_ready _ _). set (w1 := upd_w_socks _ w).
  assert (wf {[s; a]} w1) as Hw1.
  { constructor; [|apply Hw2..]. eapply (shape_update {[s; a]} (tables_of w) a y); try done; [apply Hw2| | | |].
    - unfold is_local in Hl. congruence.
    - unfold tags_ok, is_local in *. cbn. rewrite Hl. by right.
    - exact (wf_pkts {[s; a]} w a y Hw2 Ha).
    - left. set_solver. }
  apply safe_bind. eapply safe_mono; [eapply (connect_remote_ok _ w1 a y' name Hw1); [apply lookup_insert_eq|done]|].
  intros [] w3 (Hw3 & Hsl3 & Hk3). apply safe_assoc, safe_bind.
  eapply safe_mono; [eapply (close_smart_ok _ w3 s x Hw3); [set_solver| |done]|].
  { rewrite Hk3. cbn. by rewrite lookup_insert_ne. }
  intros [] w4 (Hw4 & Hsl4 & Hk4). apply safe_ret.
  assert (w_socks w4 !! a = Some y') as Ha4 by (rewrite Hk4, Hk3 by done; apply lookup_insert_eq).
  split; [|intros _ _; by exists y']. split; [|rewrite Hsl4, Hsl3; apply Hq].
  eapply (wf_shut w4 a y'); [|done..].
  eapply wf_same_set; [exact Hw4|set_solver].
Qed.

(** ** A complete request *)

(** What a request may be in a state.  A service of a device is asked for over
    the transport the client has chosen, which must still be there. *)
Definition request_ok (w : world) (x : asocket) (name : list Z) : Prop :=
  match host_prefix name with
  | Some (service, _, _) => answerable w service
  | None => forall t, s_transport x = Some t -> is_Some (w_trans w !! t)
  end.

(** The request for the list of devices, which is sent at once. *)
Definition tracks (name : list Z) : Prop :=
  exists ttype serial, host_prefix name = Some (bs "track-devices", ttype, serial).

Lemma service_ok n adbhost w s x a y name :
  quiet w -> fresh_ok w -> asks w s x a y -> request_ok w x name ->
  safe (smart_service (sock_enqueue_n (S n) adbhost) adbhost s name) w (dealt a (~ tracks name)).
Proof.
  intros Hq Hf Hs Hr. unfold smart_service, request_ok, tracks in *.
  destruct (host_prefix name) as [[[service ttype] serial]|].
  - eapply safe_mono; [by eapply host_service_ok|]. intros r w' [? Hal]. split; [done|].
    intros H0 [Hn|?]; apply Hal; auto. left. naive_solver.
  - eapply safe_mono; [by eapply smart_open_ok|]. intros r w' [? Hal]. split; auto.
Qed.
