(* ===== verification/ServerClients.v ===== *)
(** * Data from clients is safe

    What a client sends arrives at its local socket and is passed to the smart
    socket, which gathers the request and deals with it when it is complete, or to
    a device tracker, which takes no data. *)

From S2P Require Import Prelude Ring Io Wire FdEvent EventMap World Transports Listeners HostRequest.
From S2P Require Import Sockets Server ServerInv TransportList SocketsSafe ServerSafe Streams Requests.
From S2P Require Import ServerEvents ServerRequests.

(** ** Gathering a request *)

(** The request that a packet completes, if it does. *)
Definition completes (s : Z) (p : apacket) : M world (option (list Z)) :=
  o <- gather s p ;;
  match o with
  | Some q => match parse_request q with Some (Service name) => ret (Some name) | _ => ret None end
  | None => ret None
  end.

Lemma unhex_some l n : (n <= length l)%nat -> is_Some (unhex l n).
Proof.
  unfold unhex. generalize 0. revert l. induction n as [|n IH]; intros l k Hn; [destruct l; by exists k|].
  destruct l as [|c l]; cbn in Hn; [lia|]. cbn [unhex_loop]. repeat case_match; try (apply IH; lia). eauto.
Qed.

Lemma parse_some p : gather_ok p -> is_Some (parse_request p).
Proof.
  intros [_ Hp]. unfold parse_request. destruct (pk_len p <? 4); [eauto|].
  destruct (unhex_some (pk_data p) 4) as [len ->]; [unfold MAX_PAYLOAD in *; lia|]. repeat case_match; eauto.
Qed.

(** What the socket has gathered is still in order. *)
Lemma gather_safe w s x a y p :
  quiet w -> asks w s x a y -> gather_ok p ->
  exists o w', gather s p w = Ok (o, w') /\ quiet w' /\ (exists x', asks w' s x' a y) /\
    forall q, o = Some q -> gather_ok q.
Proof.
  intros Hq Hs Hp. pose proof Hs as (Hs1 & He & Hpe & Ha).
  pose proof (smart_pkts _ _ _ Hq Hs1 He) as Hpk. destruct (asks_facts _ _ _ _ _ Hq Hs) as (_ & _ & _ & _ & Hne & _).
  assert (forall l, Forall gather_ok l -> quiet (upd_w_socks <[s := upd_s_pkts (fun _ => l) x]> w) /\
    exists x', asks (upd_w_socks <[s := upd_s_pkts (fun _ => l) x]> w) s x' a y) as Hset.
  { intros l Hl. destruct Hq as [Hw Hsl]. split; [split; [by eapply smart_update|done]|].
    exists (upd_s_pkts (fun _ => l) x). unfold asks. cbn. by rewrite lookup_insert_eq, lookup_insert_ne. }
  unfold gather, set_sock. rewrite (bind_ok _ _ _ _ _ (sock_at_run _ _ _ Hs1)).
  destruct (s_pkts x) as [|q l] eqn:El.
  - unfold bind. rewrite (sock_at_run _ _ _ Hs1). destruct (Hset [p]) as [H1 H2]; [by constructor|].
    eexists _, _. split_and!; [reflexivity|exact H1|exact H2|]. by intros q [= <-].
  - apply list.Forall_cons_1 in Hpk as [Hq0 Hl]. destruct (Z.ltb_spec MAX_PAYLOAD (pk_len q + pk_len p)).
    { eexists _, _. split_and!; [reflexivity|done|by exists x|done]. }
    destruct (append_gathered q p) as [Hqp _]; [done|done|lia|].
    unfold bind. rewrite (sock_at_run _ _ _ Hs1). destruct (Hset (append_data q p :: l)) as [H1 H2]; [by constructor|].
    assert (upd_s_pkts (fun l => append_data q p :: tail l) x = upd_s_pkts (fun _ => append_data q p :: l) x) as Hx
      by (unfold upd_s_pkts; cbn; by rewrite El).
    eexists _, _. split_and!; [reflexivity|by rewrite Hx|by rewrite Hx|]. by intros q' [= <-].
Qed.

(** The state in which a completed request is dealt with allows it. *)
Definition allowed (s : Z) (r : result (option (list Z) * world)) : Prop :=
  match r with
  | Ok (Some name, w') => fresh_ok w' /\ forall x, w_socks w' !! s = Some x -> request_ok w' x name
  | _ => True
  end.

Lemma smart_enqueue_ok n adbhost w s x a y p :
  quiet w -> asks w s x a y -> gather_ok p -> allowed s (completes s p w) ->
  safe (smart_socket_enqueue (sock_enqueue_n (S n) adbhost) adbhost s p) w
    (dealt a (forall name w', completes s p w = Ok (Some name, w') -> ~ tracks name)).
Proof.
  intros Hq Hs Hp Hal. destruct (gather_safe w s x a y p Hq Hs Hp) as (o & w1 & Hg & Hq1 & (x1 & Hs1) & Ho).
  unfold completes in *. rewrite (bind_ok _ _ _ _ _ Hg) in *. cbv beta iota in *.
  apply safe_bind. eapply safe_ok; [exact Hg|]. destruct o as [q|]; [|by eapply smart_fail_ok].
  destruct (parse_some q (Ho q eq_refl)) as [r Hr]. rewrite Hr in *. apply safe_bind, safe_deref_some.
  destruct r as [| |name].
  - apply safe_ret. split; [done|]. intros _ _. destruct (asks_facts _ _ _ _ _ Hq1 Hs1) as (_ & Hyc & _ & Hl & _).
    exists y. split_and!; try done. apply Hs1.
  - by eapply smart_fail_ok.
  - destruct Hal as [Hf Hreq]. eapply safe_mono.
    + eapply (service_ok n adbhost w1 s x1 a y name); try done. apply Hreq, Hs1.
    + intros r w' [? Hd]. split; [done|]. intros H0 [Hn|?]; apply Hd; auto. left. by apply (Hn name w1).
Qed.

(** ** Reading from a client *)

(** The request that the data of an event completes, and whether the client has
    closed its end. *)
Definition take_request (fd s : Z) : M world (option (list Z * bool)) :=
  p <- new_packet ;;
  r <- read_available fd ;;
  match r.1 with
  | [] => ret None
  | _ =>
      p <- put_data r.1 p ;;
      o <- completes s (mkPkt (Z.of_nat (length r.1)) (pk_off p) (msg p) (pk_data p)) ;;
      ret ((fun name => (name, r.2)) <$> o)
  end.

(** ... is one that the state allows; and the list of devices is not asked for by
    a client that has closed its end. *)
Definition taken_ok (s : Z) (r : result (option (list Z * bool) * world)) : Prop :=
  match r with
  | Ok (Some (name, is_eof), w') =>
      fresh_ok w' /\ (forall x, w_socks w' !! s = Some x -> request_ok w' x name) /\
      (is_eof = true -> ~ tracks name)
  | _ => True
  end.

Lemma alive_close w a : quiet w -> alive w a -> safe (sock_close a) w (fun _ w' => quiet w').
Proof. intros Hq (x & ? & ? & ?). by eapply close_quiet. Qed.

Lemma client_read_ok adbhost w s x a y :
  quiet w -> asks w s x a y -> taken_ok s (take_request (s_fd y) s w) ->
  safe (local_socket_read_event adbhost a (s_fd y)) w (fun _ w' => quiet w').
Proof.
  intros Hq Hs Htake. apply safe_bind, safe_bind, safe_get, safe_ret, safe_bind.
  destruct (read_available_ok (s_fd y) w) as (bytes & eof & w1 & Hr & Hw1 & Hlen & _).
  eapply safe_ok; [exact Hr|].
  assert (quiet w1) as Hq1 by (rewrite Hw1; destruct Hq; split; [by apply wf_in|done]).
  assert (asks w1 s x a y) as Hs1 by (by rewrite Hw1).
  destruct (asks_facts _ _ _ _ _ Hq1 Hs1) as (_ & Hyc & Hyp & Hl & _).
  assert (alive w1 a) as Hal1 by (exists y; split_and!; [apply Hs1|done..]).
  unfold take_request, new_packet in Htake. unfold bind at 1, bind at 1, get, ret in Htake.
  rewrite (bind_ok _ _ _ _ _ Hr) in Htake. cbv beta iota in Htake. cbn [fst snd] in Htake. clear Hr.
  apply safe_bind. eapply safe_sock_at; [apply Hs1|]. rewrite Hyp. apply safe_bind.
  destruct bytes as [|b bytes]; [apply safe_ret; apply safe_when; [intros _; by apply alive_close|done]|].
  set (l := b :: bytes) in *.
  set (p0 := get_apacket _) in *.
  assert ((length l <= length (pk_data p0))%nat) as Hfit.
  { unfold p0. cbn [pk_data get_apacket]. rewrite length_resize. unfold MAX_PAYLOAD in *. lia. }
  pose proof (put_data_fits l p0 w1 Hfit) as Hput.
  rewrite (bind_ok _ _ _ _ _ Hput) in Htake. cbv beta iota in Htake.
  apply safe_bind. eapply safe_ok; [exact Hput|]. apply safe_bind.
  set (p := mkPkt _ _ _ _) in *.
  assert (gather_ok p) as Hp.
  { split; [cbn [pk_len p]; lia|]. unfold p. cbn [pk_data]. rewrite fill_data_length by done.
    unfold p0. cbn [pk_data get_apacket]. rewrite length_resize. unfold MAX_PAYLOAD. lia. }
  assert (allowed s (completes s p w1)) as Hall.
  { unfold bind in Htake. destruct (completes s p w1) as [[[name|] w2]|]; try done. by destruct Htake as (? & ? & _). }
  assert (eof = true -> forall name w', completes s p w1 = Ok (Some name, w') -> ~ tracks name) as Hnot.
  { intros -> name w' E. unfold bind in Htake. rewrite E in Htake. by destruct Htake as (_ & _ & ?); auto. }
  unfold sock_enqueue. cbn [sock_enqueue_n]. apply safe_bind. eapply safe_sock_at; [apply Hs1|].
  rewrite (proj1 (proj2 Hs1)). eapply safe_mono; [by apply (smart_enqueue_ok 2 adbhost w1 s x a y p)|].
  intros r w2 [Hq2 Hal2]. destruct (Z.ltb_spec r 0) as [|Hr]; [by apply safe_ret|].
  apply safe_bind. eapply (safe_mono _ _ (fun _ w3 => quiet w3 /\ (r <> 0 \/ eof = true -> alive w3 a))).
  { apply safe_when; [|intros _; split; [done|]; intros [?|He]; (apply Hal2; [done|]); [by right|left; by apply Hnot]]. intros H0%Z.ltb_lt.
    destruct Hal2 as (x2 & Hx2 & Hl2 & Hc2); [lia|right; lia|]. apply safe_bind. eapply safe_sock_at; [done|].
    eapply fde_del_ok; [done|done|done|]. intros w3 Hq3 Hk3 _. split; [done|]. intros _. exists x2. by rewrite Hk3. }
  intros [] w3 [Hq3 Hal3]. apply safe_ret. apply safe_when; [|done]. intros [_ ->]%andb_true_iff.
  apply alive_close; auto.
Qed.

(** The request that an event on the client's descriptor completes: what is queued
    for the client is written before. *)
Definition event_request (adbhost : option (list Z)) (fd ev a s : Z) : M world (option (list Z * bool)) :=
  go <- (if hasbit ev FDE_WRITE then local_socket_write_event adbhost a fd else ret true) ;;
  if go && hasbit ev FDE_READ then take_request fd s else ret None.

Lemma safe_eq {A} (m : M world A) w Q : safe m w Q -> safe m w (fun a w' => Q a w' /\ m w = Ok (a, w')).
Proof. unfold safe. by destruct (m w) as [[]|]. Qed.

(** Whatever happens on the descriptor of a client that is asking. *)
Lemma client_event_ok adbhost w s x a y ev :
  quiet w -> asks w s x a y -> taken_ok s (event_request adbhost (s_fd y) ev a s w) ->
  safe (local_socket_event_func adbhost (s_fd y) ev a) w (fun _ w' => quiet w').
Proof.
  intros Hq Hs Ht. unfold event_request in Ht.
  set (m := if hasbit ev FDE_WRITE then local_socket_write_event adbhost a (s_fd y) else ret true) in *.
  apply safe_bind. eapply safe_mono; [apply (safe_eq m w (fun b w' => quiet w' /\
    (b = true -> exists y', asks w' s x a y' /\ s_fd y' = s_fd y)))|].
  - subst m. destruct (hasbit ev FDE_WRITE); [|apply safe_ret; eauto].
    destruct (asks_facts _ _ _ _ _ Hq Hs) as (_ & Hyc & Hyp & Hl & Hne & _).
    pose proof Hs as (Hs1 & He & Hp & Ha).
    eapply safe_mono; [eapply (write_event_ok adbhost w a y s x); try done|].
    + intros w2 y2 Hq2 _ _ Hs2. pose proof (sh_tags _ _ (wf_shape _ _ (proj1 Hq2)) _ _ Hs2) as Htag.
      unfold tags_ok in Htag. rewrite He in Htag. destruct Htag as [_ Hr].
      apply safe_bind. eapply safe_sock_at; [done|]. rewrite Hr. by apply safe_ret.
    + intros b w1 [Hq1 Hb]. split; [done|]. intros Hbt. destruct (Hb Hbt) as (Hs2 & y1 & Ha1 & [pk ->]).
      eexists. by split_and!.
  - intros go w1 [[Hq1 Hgo] Hm]. apply safe_when; [|done]. intros [-> Hrd]%andb_true_iff.
    destruct (Hgo eq_refl) as (y1 & Hs1 & Hfd). rewrite (bind_ok _ _ _ _ _ Hm), Hrd in Ht. cbv beta iota in Ht.
    rewrite <- Hfd in *. by eapply client_read_ok.
Qed.

(** ** Data for a device tracker *)

(** The client of a tracker that has sent the list of devices. *)
Definition tracked (w : world) (a : Z) (y : asocket) (s : Z) (x : asocket) : Prop :=
  w_socks w !! a = Some y /\ is_local y /\ s_closing y = false /\ s_peer y = Some s /\
  w_socks w !! s = Some x /\ s_enqueue x = device_tracker_enqueue_p /\ s_update x = false.

Lemma tracked_facts w a y s x :
  quiet w -> tracked w a y s x ->
  s_closing x = false /\ s_peer x = Some a /\ s <> a /\ s_close x = device_tracker_close_p /\
  s_ready x = device_tracker_ready_p /\ s_close y = local_socket_close_p.
Proof.
  intros [Hw _] (Ha & Hl & Hc & Hp & Hs & He & _). pose proof (wf_shape _ _ Hw) as Hsh.
  destruct (wf_peer _ _ _ _ _ Hw Ha ltac:(set_solver) Hc Hp) as (Hne & _ & x' & Hx & Hxc & Hxp & _).
  pose proof (sh_peer _ _ Hsh _ _ Ha ltac:(set_solver) Hc) as Hpo. unfold peer_ok in Hpo. rewrite Hp in Hpo.
  simplify_eq. pose proof (sh_tags _ _ Hsh _ _ Hs) as Htag. unfold tags_ok in Htag. rewrite He in Htag.
  destruct Htag. split_and!; try done. apply local_tags; [apply (sh_tags _ _ Hsh _ _ Ha)|apply Hpo|done].
Qed.

(** Closing the tracker closes the client's socket as well. *)
Lemma tracked_close_ok w a y s x :
  quiet w -> tracked w a y s x -> safe (sock_close s) w (fun _ w' => quiet w').
Proof.
  intros Hq Hs. destruct (tracked_facts _ _ _ _ _ Hq Hs) as (Hxc & Hxp & Hne & Hcl & _ & Hyc).
  destruct Hq as [Hw Hsl]. destruct Hs as (Ha & Hl & Hc & Hp & Hs & He & _).
  assert (wf {[a; s]} w) as Hw2.
  { eapply (wf_same_set ({[a; s]} ∪ ∅)); [|set_solver].
    constructor; try apply Hw. eapply shape_open_pair; [apply Hw|done|set_solver|done..]. }
  unfold sock_close. rewrite call_close_n. apply safe_bind.
  eapply safe_sock_at; [done|]. rewrite Hcl. apply safe_bind. eapply safe_sock_at; [done|]. rewrite Hxp.
  apply safe_bind, safe_bind. eapply (clear_peer_ok _ w a); [exact Hw2|set_solver|exact Ha|]. intros w1 -> Hw1.
  eapply safe_mono; [eapply (local_close_lone {[a; s]} _ 5 a (upd_s_peer (fun _ => None) y));
    try done; [set_solver|cbn; apply lookup_insert_eq|cbn; congruence]|].
  intros [] w2 (Hw3 & [K1 K2 K3 K4 _ _]).
  assert (w_socks w2 !! s = Some x) as Hs2 by (rewrite K4 by done; cbn; by rewrite lookup_insert_ne).
  apply safe_bind, safe_bind, safe_lock_transports; [apply Hw3|]. apply safe_bind, safe_modify, safe_modify.
  eapply safe_mono; [eapply (free_nonlocal_ok ({[a; s]} ∖ {[a]}) (upd_w_tlock (fun _ => false) w2) s x (w_trans w2)
    (filter (fun c => c <> s) (w_trackers w2)))|]; try done.
  - constructor; try apply Hw3. done.
  - set_solver.
  - unfold is_local. by rewrite He.
  - eapply (drops_entry_none _ (tables_of w2)); [apply Hw3|done|]. by rewrite He.
  - eauto.
  - intros [] w' (H1 & [K5 _ _ _] & _). split; [eapply wf_same_set; [exact H1|set_solver]|].
    rewrite (kept_slock _ _ K5). cbn. rewrite (kept_slock _ _ K1). done.
Qed.

(** Whatever happens on the descriptor of the client of a tracker. *)
Lemma tracker_read_ok adbhost w a y s x :
  quiet w -> tracked w a y s x ->
  safe (local_socket_read_event adbhost a (s_fd y)) w (fun _ w' => quiet w').
Proof.
  intros Hq Hs. apply safe_bind, safe_bind, safe_get, safe_ret, safe_bind.
  destruct (read_available_ok (s_fd y) w) as (bytes & eof & w1 & Hr & Hw1 & Hlen & _).
  eapply safe_ok; [exact Hr|].
  assert (quiet w1) as Hq1 by (rewrite Hw1; destruct Hq; split; [by apply wf_in|done]).
  assert (tracked w1 a y s x) as Hs1 by (by rewrite Hw1).
  pose proof Hs1 as (Ha & Hl & Hc & Hp & Hx & He & _). clear Hr Hw1.
  apply safe_bind. eapply safe_sock_at; [done|]. rewrite Hp. apply safe_bind.
  destruct bytes as [|b bytes]; [apply safe_ret; apply safe_when; [intros _; by eapply close_quiet|done]|].
  apply safe_bind, safe_put_data; [done|]. intros p _ _. apply safe_bind.
  unfold sock_enqueue. cbn [sock_enqueue_n]. apply safe_bind. eapply safe_sock_at; [done|]. rewrite He.
  apply safe_bind. eapply safe_mono; [by eapply tracked_close_ok|]. intros [] w2 Hq2. by apply safe_ret, safe_ret.
Qed.

Lemma tracker_event_ok adbhost w a y s x ev :
  quiet w -> tracked w a y s x ->
  safe (local_socket_event_func adbhost (s_fd y) ev a) w (fun _ w' => quiet w').
Proof.
  intros Hq Hs. apply safe_bind.
  eapply (safe_mono _ _ (fun b w' => quiet w' /\
    (b = true -> exists y', tracked w' a y' s x /\ s_fd y' = s_fd y))).
  - destruct (hasbit ev FDE_WRITE); [|apply safe_ret; eauto].
    destruct (tracked_facts _ _ _ _ _ Hq Hs) as (_ & _ & Hne & _ & Hr & _).
    pose proof Hs as (Ha & Hl & Hc & Hp & Hx & He & Hu).
    eapply safe_mono; [eapply (write_event_ok adbhost w a y s x); try done|].
    + intros w2 y2 Hq2 _ _ Hx2. apply safe_bind. eapply safe_sock_at; [done|]. rewrite Hr.
      apply safe_bind. eapply safe_sock_at; [done|]. by rewrite Hu.
    + intros b w1 [Hq1 Hb]. split; [done|]. intros Hbt. destruct (Hb Hbt) as (Hx1 & y1 & Ha1 & [pk ->]).
      eexists. by split_and!.
  - intros go w1 [Hq1 Hgo]. apply safe_when; [|done]. intros [-> _]%andb_true_iff.
    destruct (Hgo eq_refl) as (y1 & Hs1 & <-). by eapply tracker_read_ok.
Qed.
