(* ===== verification/ServerTrace.v ===== *)
(** * Every state the server reaches satisfies the invariant

    [adb_main] establishes the invariant, and it is kept by whatever happens
    next: clients connect and send requests, ports are forwarded and used, data
    goes to the devices, packets arrive, and devices appear, are registered, end
    and are removed. *)

From S2P Require Import Prelude Ring Io Wire FdEvent EventMap World Transports Listeners HostRequest.
From S2P Require Import Sockets Server Startup ServerInv TransportList SocketsSafe ServerSafe Streams Requests.
From S2P Require Import ServerEvents ServerRequests ServerClients.

(** ** Events *)

(** The first two are not the server's doing: from now on the kernel has this data
    on the descriptors, takes these writes and messages and hands out these
    descriptors; and it answers like this to packets for a transport.  Then
    connections and data on descriptors, packets of a device, new transports,
    messages on the registration socket, and the ends of the two threads of a
    transport: [input_thread] closes the sockets of the transport first. *)
Inductive server_event :=
| EvKernel (ins : gmap Z rdfd) (outs : gmap Z wrfd) (messages : list bool) (fds : list Z)
| EvAnswers (t : Z) (answers : list bool)
| EvAccept (fd ev : Z)
| EvForward (fd ev l : Z)
| EvData (fd ev a : Z)
| EvPacket (p : apacket) (t : Z)
| EvUsb (usb : Z) (serial : option (list Z)) (writeable : bool)
| EvTcp (s : Z) (serial : option (list Z)) (port : Z)
| EvRegister (ev : Z)
| EvCloseSockets (t : Z)
| EvThreadExit (t : Z).

Definition run_event (adbhost : option (list Z)) (e : server_event) : M world unit :=
  match e with
  | EvKernel ins outs messages fds =>
      modify (fun w => upd_w_in (fun _ => ins) (upd_w_out (fun _ => outs)
        (upd_w_reg_answers (fun _ => messages) (upd_w_fresh_fds (fun _ => fds) w))))
  | EvAnswers t answers => set_trans t (upd_t_answers (fun _ => answers))
  | EvAccept fd ev => ss_listener_event_func adbhost fd ev
  | EvForward fd ev l => listener_event_func fd ev l
  | EvData fd ev a => local_socket_event_func adbhost fd ev a
  | EvPacket p t => handle_packet adbhost p t
  | EvUsb usb serial writeable => register_usb_transport usb serial writeable
  | EvTcp s serial port => register_socket_transport s serial port false
  | EvRegister ev => transport_registration_func adbhost ev
  | EvCloseSockets t => close_all_sockets t
  | EvThreadExit t => output_thread_exit t
  end.

Fixpoint run_events (adbhost : option (list Z)) (es : list server_event) : M world unit :=
  match es with
  | [] => ret tt
  | e :: es => run_event adbhost e ;; run_events adbhost es
  end.

(** The message at the head of the registration socket announces a transport
    that is not registered yet... *)
Definition announces (w : world) (t : Z) : Prop :=
  (exists q, w_reg w = mkTmsg t 1 :: q) /\
  (exists x, w_trans w !! t = Some x /\ t_disconnects x = []) /\
  (exists l, tlist w l /\ t ∉ transport_list :: l) /\
  is_Some (w_tlinks w !! t) /\ fdmap (w_fde w) !! t = None.

(** ... or the end of one that is registered. *)
Definition withdraws (w : world) (t : Z) : Prop :=
  (exists q, w_reg w = mkTmsg t 0 :: q) /\ is_Some (w_trans w !! t) /\ removable w t.

(** Data on the descriptor of an open local socket whose peer stands for a stream
    of a device, is the smart socket that gathers the client's request, or is a
    device tracker that has sent its list. *)
Definition data_legal (adbhost : option (list Z)) (w : world) (fd ev a : Z) : Prop :=
  exists x, w_socks w !! a = Some x /\ fd = s_fd x /\
    ((exists q y, device_stream w a x q y) \/
     (exists s y, asks w s y a x /\ taken_ok s (event_request adbhost fd ev a s w)) \/
     (exists s y, tracked w a x s y)).

(** What can happen in a state. *)
Definition legal (adbhost : option (list Z)) (w : world) (e : server_event) : Prop :=
  (match e with EvKernel _ _ _ _ => True | _ => fresh_ok w end) /\
  match e with
  | EvAnswers t _ => is_Some (w_trans w !! t)
  | EvForward _ _ l => exists y t, w_lis w !! l = Some y /\ l_transport y = Some t
  | EvData fd ev a => data_legal adbhost w fd ev a
  | EvPacket p t => is_Some (w_trans w !! t) /\ received_ok p
  | EvRegister _ => exists t, announces w t \/ withdraws w t
  | EvThreadExit t => transport_is w t kTransportUsb \/ transport_is w t kTransportLocal
  | _ => True
  end.

Fixpoint legal_trace (adbhost : option (list Z)) (w : world) (es : list server_event) : Prop :=
  match es with
  | [] => True
  | e :: es =>
      legal adbhost w e /\
      match run_event adbhost e w with Ok (_, w') => legal_trace adbhost w' es | Err _ => True end
  end.

(** A packet with a banner that has no end. *)
Definition bad_packet (e : server_event) : Prop :=
  match e with EvPacket p _ => unterminated_banner p | _ => False end.

(** ** Connections *)

Lemma create_smart_ok X w :
  wf X w -> safe create_smart_socket w (fun a w' => wf ({[a]} ∪ X) w' /\ a = w_next w /\
    (exists y, w_socks w' = <[a := y]> (w_socks w) /\ s_enqueue y = smart_socket_enqueue_p /\
       s_close y = smart_socket_close_p /\ s_closing y = false) /\
    w_slock w' = w_slock w /\ w_trans w' = w_trans w).
Proof.
  intros Hw. apply safe_bind, safe_bind, safe_get, safe_bind, safe_modify, safe_ret.
  apply safe_bind, safe_modify, safe_ret. split_and!; try done; [|eexists; by split_and!].
  constructor; [|apply Hw..]. by apply (shape_new_smart X (tables_of w)); try done; apply Hw.
Qed.

(** Two exempt sockets become peers. *)
Lemma pair_ok w s x r y :
  wf {[s; r]} w -> s <> r -> w_socks w !! s = Some x -> is_local x ->
  s_close x = local_socket_close_p -> s_closing x = false ->
  w_socks w !! r = Some y -> s_close y <> local_socket_close_notify_p -> s_closing y = false ->
  safe (set_peer s (Some r) ;; set_peer r (Some s)) w (fun _ w' => wf ∅ w' /\
    w_socks w' !! s = Some (upd_s_peer (fun _ => Some r) x) /\ w_slock w' = w_slock w /\
    w_trans w' = w_trans w).
Proof.
  intros Hw Hne Hs Hl Hcl Hc Hr Hyc Hy.
  apply safe_bind. eapply safe_set_sock; [done|].
  eapply safe_set_sock; [cbn; by rewrite lookup_insert_ne|].
  split_and!; [|cbn; by rewrite lookup_insert_ne, lookup_insert_eq|done|done].
  eapply (wf_same_set ({[s; r]} ∖ {[s; r]})); [|set_solver].
  assert (wf {[s; r]} (upd_w_socks <[r := upd_s_peer (fun _ => Some s) y]>
            (upd_w_socks <[s := upd_s_peer (fun _ => Some r) x]> w))) as Hw2.
  { apply set_peer_ok; [|set_solver|cbn; by rewrite lookup_insert_ne].
    apply set_peer_ok; [done|set_solver|done]. }
  constructor; [|apply Hw2..].
  eapply (shape_join _ _ s (upd_s_peer (fun _ => Some r) x) r (upd_s_peer (fun _ => Some s) y));
    try done; try set_solver; first [apply Hw2|cbn; congruence|by left|idtac]; cbn.
  - by rewrite lookup_insert_ne, lookup_insert_eq.
  - apply lookup_insert_eq.
Qed.

Lemma smartsocket_ok adbhost w s x :
  quiet w -> w_socks w !! s = Some x -> is_local x -> s_close x = local_socket_close_p ->
  s_closing x = false -> s_peer x = None ->
  safe (connect_to_smartsocket adbhost s) w (fun _ w' => quiet w').
Proof.
  intros [Hw Hsl] Hs Hl Hcl Hc Hp.
  assert (wf {[s]} w) as Hw1.
  { eapply (wf_same_set ({[s]} ∪ ∅)); [|set_solver]. constructor; try apply Hw.
    eapply shape_open; [apply Hw|done..]. }
  apply safe_bind. eapply safe_mono; [by apply create_smart_ok|].
  intros r w1 (Hw2 & Hr & (y & Hy & Y1 & Y2 & Y3) & Hsl1 & _).
  assert (s <> r) as Hne.
  { intros ->. destruct (sh_fresh _ _ (wf_shape _ _ Hw) r) as [? _]; [cbn; lia|]. cbn in *. congruence. }
  assert (w_socks w1 !! s = Some x) as Hs1 by (by rewrite Hy, lookup_insert_ne).
  apply safe_assoc, safe_bind. eapply safe_mono.
  - eapply (pair_ok w1 s x r y); try done; [|by rewrite Hy, lookup_insert_eq|congruence].
    eapply wf_same_set; [exact Hw2|set_solver].
  - intros _ w2 (Hw3 & Hs2 & Hsl2 & _).
    eapply safe_mono; [by eapply sock_ready_local_ok|].
    intros _ w3 (Hw4 & _ & Hsl3 & _). split; [done|congruence].
Qed.

Lemma accept_ok adbhost w fd ev :
  quiet w -> fresh_ok w -> safe (ss_listener_event_func adbhost fd ev) w (fun _ w' => quiet w').
Proof.
  intros Hq Hf. apply safe_when; [|done]. intros _. apply safe_bind.
  eapply safe_mono; [by apply open_fd_ok|]. intros s w1 ([Hw1 Hl1] & _ & _ & _ & _ & _ & Hu).
  apply safe_when; [|done]. intros Hs%negb_true_iff%Z.ltb_ge. apply safe_bind.
  eapply safe_mono; [by apply create_local_ok; auto|].
  intros a w2 (Hw2 & _ & (x & [X1 X2 X3 X4 X5 X6] & Hx) & _ & Hsl2 & _).
  eapply smartsocket_ok; try done. by rewrite Hx, lookup_insert_eq.
Qed.

(** A forwarded port: the new socket asks the device for the service. *)
Lemma forward_ok w fd ev l :
  quiet w -> fresh_ok w -> is_Some (w_lis w !! l) ->
  safe (listener_event_func fd ev l) w (fun _ w' => quiet w').
Proof.
  intros Hq Hf [y Hy]. apply safe_when; [|done]. intros _. apply safe_bind.
  eapply safe_lis_at; [done|]. apply safe_bind.
  eapply safe_mono; [by apply open_fd_ok|]. intros s w1 ([Hw1 Hl1] & _ & Ht1 & _ & _ & _ & Hu).
  apply safe_when; [|done]. intros Hs%negb_true_iff%Z.ltb_ge. apply safe_bind.
  eapply safe_mono; [by apply create_local_ok; auto|].
  intros a w2 (Hw2 & _ & (x & [X1 X2 X3 X4 X5 X6] & Hx) & Ht2 & Hsl2 & _).
  assert (w_socks w2 !! a = Some x) as Ha by (by rewrite Hx, lookup_insert_eq).
  apply safe_bind. eapply safe_set_sock; [done|].
  assert (wf ∅ (upd_w_socks <[a := upd_s_transport (fun _ => l_transport y) x]> w2)) as Hw3.
  { constructor; try apply Hw2. eapply (shape_update ∅ (tables_of w2)); try done.
    - apply Hw2.
    - congruence.
    - apply (sh_tags _ _ (wf_shape _ _ Hw2) a x Ha).
    - exact (wf_pkts ∅ w2 a x Hw2 Ha).
    - right. split; [done|]. cbn. congruence. }
  eapply safe_mono; [eapply (connect_remote_ok ∅); [exact Hw3|cbn; apply lookup_insert_eq|]|].
  - cbn. rewrite Ht2, Ht1. intros t Hyt.
    destruct (sh_lis _ _ (wf_shape _ _ (proj1 Hq)) l y Hy) as (_ & _ & Hlt).
    destruct (Hlt t Hyt) as (tr & Htr & _). cbn in Htr. eauto.
  - intros _ w4 (Hw4 & Hsl4 & _). split; [done|]. by rewrite Hsl4.
Qed.

(** ** Registration *)

(** The part of [transport_registration_func] for accessible devices. *)
Lemma start_pumps_ok w t x :
  quiet w -> fresh_ok w -> w_trans w !! t = Some x -> fdmap (w_fde w) !! t = None ->
  safe (set_trans t (upd_t_ref_count (fun _ => 2)) ;;
        s0 <- open_fd OpenSocketpair ;;
        s1 <- open_fd OpenSocketpair ;;
        (if (s0 <? 0) || (s1 <? 0) then fail EFatal else ret tt) ;;
        set_trans t (fun x => upd_t_transport_socket (fun _ => s0) (upd_t_fd (fun _ => s1) x)) ;;
        fde_call (fdevent_install t s0 transport_socket_events_p t) ;;
        fde_call (fdevent_set t FDE_READ)) w
    (fun _ w' => quiet w' /\ w_tlinks w' = w_tlinks w /\
       exists x', w_trans w' = <[t := x']> (w_trans w) /\ t_disconnects x' = t_disconnects x).
Proof.
  intros [Hw Hl] Hf Hx Hfd. apply safe_bind. eapply safe_set_trans; [done|].
  set (x1 := upd_t_ref_count (fun _ => 2) x). set (w1 := upd_w_trans <[t := x1]> w).
  assert (quiet w1) as Hq1 by (split; [by eapply wf_trans|done]).
  apply safe_bind. eapply safe_mono; [by apply open_fd_ok|].
  intros s0 w2 (Hq2 & _ & Ht2 & _ & Hk2 & He2 & Hu2). specialize (Hu2 Hf).
  apply safe_bind. eapply safe_mono; [by apply open_fd_ok|].
  intros s1 w3 ([Hw3 Hl3] & _ & Ht3 & _ & Hk3 & He3 & _).
  destruct (Z.ltb_spec s0 0) as [|H0]; [done|]. destruct (s1 <? 0); [done|].
  apply safe_bind, safe_ret, safe_bind.
  assert (w_trans w3 !! t = Some x1) as Hx3 by (rewrite Ht3, Ht2; apply lookup_insert_eq).
  eapply safe_set_trans; [exact Hx3|].
  set (x2 := upd_t_transport_socket (fun _ => s0) (upd_t_fd (fun _ => s1) x1)).
  assert (wf ∅ (upd_w_trans <[t := x2]> w3)) as Hw4 by (by eapply wf_trans).
  destruct (Hu2 H0) as [Hr2 Hn2]. rewrite He2 in Hn2.
  assert (w_fde w3 = w_fde w) as He by (by rewrite He3, He2).
  destruct (event_install (w_fde w3) t s0 transport_socket_events_p t (wf_fd _ _ Hw4))
    as (f1 & E1 & I1 & M1); [by rewrite He|done|by rewrite He|].
  destruct (event_set f1 t s0 FDE_READ I1) as (f2 & E2 & I2 & M2); [rewrite M1; apply lookup_insert_eq|].
  apply safe_bind. eapply safe_fde_call; [exact E1|]. eapply safe_fde_call; [exact E2|].
  split_and!; [split; [|exact Hl3]|cbn; by rewrite Hk3, Hk2|].
  - constructor; [|exact I2|apply Hw4|apply Hw4]. unfold tables_of. cbn. rewrite M2, M1.
    refine (shape_trans_fd ∅ (tables_of (upd_w_trans <[t := x2]> w3)) t x2 s0 (wf_shape _ _ Hw4) _).
    apply lookup_insert_eq.
  - exists x2. cbn. rewrite Ht3, Ht2. cbn. rewrite insert_insert_eq. done.
Qed.

Lemma arrived_ok adbhost w t x l :
  quiet w -> fresh_ok w -> w_trans w !! t = Some x -> t_disconnects x = [] ->
  tlist w l -> t ∉ transport_list :: l -> is_Some (w_tlinks w !! t) -> fdmap (w_fde w) !! t = None ->
  safe (transport_arrived adbhost t) w (fun _ w' => quiet w').
Proof.
  intros Hq Hf Hx Hd [Hdll Hlive] Ht Hk Hfd. apply safe_bind. eapply safe_trans_at; [done|]. apply safe_bind.
  eapply (safe_mono _ _ (fun _ w' => quiet w' /\ w_tlinks w' = w_tlinks w /\
    exists x', w_trans w' = <[t := x']> (w_trans w) /\ t_disconnects x' = t_disconnects x)).
  - apply safe_when; intros _; [by apply start_pumps_ok|]. split_and!; [done..|].
    exists x. by rewrite insert_id.
  - intros _ w1 ([Hw1 Hl1] & Hk1 & x1 & Ht1 & Hd1).
    destruct (tl_append_ok (upd_w_tlock (fun _ => true) w1) l t) as (k & Ek & Hdll');
      [cbn; by rewrite Hk1|done|cbn; by rewrite Hk1|].
    apply safe_bind, safe_lock_transports; [apply Hw1|]. apply safe_bind. eapply safe_ok; [exact Ek|].
    apply safe_bind, safe_modify, safe_bind.
    eapply safe_set_trans; [cbn; rewrite Ht1; apply lookup_insert_eq|].
    eapply safe_mono; [apply update_transports_ok; [|exact Hl1]|].
    + constructor; [|apply Hw1| |done].
      * apply (shape_trans ∅ (tables_of w1) t x1); [apply Hw1|cbn; rewrite Ht1; apply lookup_insert_eq|].
        cbn. congruence.
      * exists (l ++ [t]). split; [exact Hdll'|]. cbn. rewrite Ht1, insert_insert_eq. intros u Hu.
        destruct (decide (u = t)) as [->|Hne]; [rewrite lookup_insert_eq; eauto|].
        rewrite lookup_insert_ne by done. apply Hlive. set_solver.
    + intros _ w' [H1 H2]. split; [done|]. by rewrite (kept_slock _ _ H2).
Qed.

Lemma registration_ok adbhost w ev t :
  quiet w -> fresh_ok w -> announces w t \/ withdraws w t ->
  safe (transport_registration_func adbhost ev) w (fun _ w' => quiet w').
Proof.
  intros [Hw Hl] Hf Ht. apply safe_when; [|done]. intros _. apply safe_bind, safe_get.
  assert (forall q, quiet (upd_w_reg (fun _ => q) w)) as Hq by (intros q; split; [constructor; apply Hw|done]).
  destruct Ht as [((q & Hr) & (x & Hx & Hd) & (l & Htl & Ht) & Hk & Hfd)|((q & Hr) & Hx & Hrem)]; rewrite Hr;
    apply safe_bind, safe_modify; cbn [tm_action tm_transport].
  - by eapply (arrived_ok adbhost (upd_w_reg (fun _ => q) w) t x l).
  - by apply gone_ok.
Qed.

Lemma data_ok adbhost w fd ev a :
  quiet w -> data_legal adbhost w fd ev a ->
  safe (local_socket_event_func adbhost fd ev a) w (fun _ w' => quiet w').
Proof.
  intros Hq (x & Hx & -> & [(q & y & Hs)|[(s & y & Hs & Ht)|(s & y & Hs)]]).
  - by eapply data_event_ok.
  - by eapply client_event_ok.
  - by eapply tracker_event_ok.
Qed.

Lemma run_event_ok adbhost w e :
  quiet w -> legal adbhost w e -> ~ bad_packet e -> safe (run_event adbhost e) w (fun _ w' => quiet w').
Proof.
  intros Hq [Hf He] Hb. destruct e; cbn [run_event legal] in *.
  - apply safe_modify. destruct Hq as [Hw Hsl]. split; [constructor; apply Hw|done].
  - eapply safe_mono; [by apply set_trans_ok|]. by intros _ w' [? _].
  - by apply accept_ok.
  - destruct He as (y & t & Hl & _). by apply forward_ok.
  - by apply data_ok.
  - destruct He as (Ht & Hp). by apply handle_packet_ok.
  - by apply register_usb_ok.
  - by apply register_tcp_ok.
  - destruct He as [t Ht]. by eapply registration_ok.
  - by apply close_all_sockets_ok.
  - destruct He as [Ht|Ht]; eapply output_exit_ok; eauto.
Qed.

Lemma bad_packet_dec e : bad_packet e \/ ~ bad_packet e.
Proof.
  destruct e; cbn; try tauto. unfold unterminated_banner.
  destruct (decide (command (msg p) = A_CNXN /\ 0 ∉ pk_data p)); tauto.
Qed.

Lemma run_events_ok adbhost es w :
  quiet w -> legal_trace adbhost w es ->
  match run_events adbhost es w with
  | Ok (_, w') => quiet w' /\ Forall (fun e => ~ bad_packet e) es
  | Err e => e = EFatal \/ e = EUndef /\ Exists bad_packet es
  end.
Proof.
  revert w. induction es as [|e es IH]; intros w Hq Hl; [by split; [|constructor]|]. destruct Hl as [He Hl].
  cbn [run_events]. unfold bind. destruct (bad_packet_dec e) as [Hb|Hb].
  - destruct e as [| | | | |p t| | | | |]; try done. destruct He as (_ & Ht & _).
    destruct (handle_unterminated adbhost w p t Hq Ht Hb) as (err & Herr & Hcase). cbn [run_event].
    rewrite Herr. destruct Hcase; [by left|]. right. split; [done|]. by apply Exists_cons_hd.
  - pose proof (run_event_ok adbhost w e Hq He Hb) as Hrun. unfold safe in Hrun.
    destruct (run_event adbhost e w) as [[[] w']|err]; [|by left]. specialize (IH w' Hrun Hl).
    destruct (run_events adbhost es w') as [[[] w2]|err].
    + destruct IH. split; [done|]. by constructor.
    + destruct IH as [?|[? ?]]; [by left|]. right. split; [done|]. by apply Exists_cons_tl.
Qed.

(** ** Startup *)

Lemma boot_shape fds junk : shape ∅ (tables_of (boot fds junk)).
Proof.
  constructor; cbn; try (intros ? ? H; by rewrite lookup_empty in H);
    try (intros ? H; by apply elem_of_nil in H); try done.
  split_and!; constructor.
Qed.

Lemma boot_quiet fds junk : quiet (boot fds junk).
Proof.
  split; [|done]. constructor; [apply boot_shape|apply fd_start_inv| |done]. exists [].
  split; [split; [repeat constructor; set_solver|by vm_compute]|]. intros t Ht. by apply elem_of_nil in Ht.
Qed.

(** Installing the event of the registration socket. *)
Lemma shape_own_event X b fd :
  shape X b ->
  shape X (Tables (tb_socks b) (tb_local b) (tb_closing b) (tb_trans b) (tb_trackers b) (tb_lis b)
    (tb_llist b) (<[tb_next b := fd]> (tb_fds b)) (tb_next b + 1)).
Proof.
  intros Hs. destruct (fresh_unlisted X b Hs) as (U1 & U2 & U3 & U4 & U5).
  destruct (sh_fresh _ _ Hs (tb_next b) ltac:(lia)) as (G1 & G2 & G3 & G4).
  apply (shape_replace X _ b _ (tb_next b)); [done|same_tables|done|by right; left|].
  constructor; cbn; rewrite ?G1, ?G2, ?G3; try done; try apply Hs; [lia|].
  intros t tr d Ht Hd Hof. by edestruct U5.
Qed.

Lemma registration_socket_ok w fd f :
  quiet w -> usable_fd w fd ->
  safe (fde <- alloc ;; fde_call (fdevent_install fde fd f 0) ;; fde_call (fdevent_set fde FDE_READ)) w
    (fun _ w' => quiet w' /\ w_fresh_fds w' = w_fresh_fds w /\ w_lis w' = w_lis w /\
       w_llist w' = w_llist w /\ fdmap (w_fde w') = <[w_next w := fd]> (fdmap (w_fde w))).
Proof.
  intros [Hw Hl] [Hr Hn]. pose proof (wf_shape _ _ Hw) as Hs.
  destruct (sh_fresh _ _ Hs (w_next w) ltac:(cbn; lia)) as (_ & _ & _ & Hno). cbn in Hno.
  destruct (event_install (w_fde w) (w_next w) fd f 0 (wf_fd _ _ Hw) Hno Hr Hn) as (f1 & E1 & I1 & M1).
  destruct (event_set f1 (w_next w) fd FDE_READ I1) as (f2 & E2 & I2 & M2); [rewrite M1; apply lookup_insert_eq|].
  apply safe_bind, safe_bind, safe_get, safe_bind, safe_modify, safe_ret, safe_bind.
  eapply safe_fde_call; [exact E1|]. eapply safe_fde_call; [exact E2|].
  split_and!; [split; [|exact Hl]|done..|cbn; by rewrite M2, M1].
  constructor; [|exact I2|apply Hw..]. unfold tables_of. cbn. rewrite M2, M1.
  exact (shape_own_event ∅ (tables_of w) fd Hs).
Qed.

(** The listener for clients, when there is none yet. *)
Lemma first_listener_ok w :
  quiet w -> w_llist w = [] -> fresh_ok w ->
  safe (r <- install_listener (bs "tcp:5037") (bs "*smartsocket*") None ;;
        if r =? 0 then ret tt else fail EFatal) w (fun _ w' => quiet w').
Proof.
  intros [Hw Hsl] Hll Hf. pose proof (wf_shape _ _ Hw) as Hs.
  destruct (sh_fresh _ _ Hs (w_next w) ltac:(cbn; lia)) as (_ & _ & _ & Hno). cbn in Hno.
  apply safe_bind, safe_bind, safe_get. rewrite Hll. apply safe_bind, safe_ret.
  apply safe_bind, safe_bind, safe_get, safe_bind, safe_modify, safe_ret, safe_bind.
  change (local_name_to_fd (bs "tcp:5037")) with (open_fd (OpenLoopbackServer 5037)).
  apply safe_bind, safe_get, safe_bind, safe_modify. cbn [w_fresh_fds upd_w_next].
  destruct (w_fresh_fds w) as [|fd l] eqn:Hfr; [done|].
  apply safe_bind, safe_modify, safe_ret. destruct (Z.ltb_spec fd 0) as [|H0]; [done|].
  destruct (Hf fd l Hfr H0) as [Hr Hn]. change (streq (bs "*smartsocket*") (bs "*smartsocket*")) with true.
  destruct (event_install (w_fde w) (w_next w) fd ss_listener_event_func_p (w_next w) (wf_fd _ _ Hw) Hno Hr Hn)
    as (f1 & E1 & I1 & M1).
  destruct (event_set f1 (w_next w) fd FDE_READ I1) as (f2 & E2 & I2 & M2); [rewrite M1; apply lookup_insert_eq|].
  apply safe_bind. eapply safe_fde_call; [exact E1|]. apply safe_bind. eapply safe_fde_call; [exact E2|].
  apply safe_bind, safe_modify, safe_bind, safe_modify, safe_bind, safe_ret, safe_ret, safe_ret.
  split; [|exact Hsl]. constructor; [|exact I2|apply Hw..]. unfold tables_of. cbn. rewrite M2, M1.
  exact (shape_new_listener ∅ (tables_of w) (mkLis fd (bs "tcp:5037") (bs "*smartsocket*") None) Hs eq_refl).
Qed.

(** Descriptors the kernel can hand out one after the other: no two that are open
    are the same. *)
Definition kernel_fds (fds : list Z) : Prop :=
  NoDup (filter (fun fd => 0 <= fd) fds) /\ Forall (fun fd => fd < FD_SETSIZE) fds.

Lemma kernel_fds_tail fd fds : kernel_fds (fd :: fds) -> kernel_fds fds.
Proof.
  intros [Hnd Hmax]. apply list.Forall_cons_1 in Hmax as [_ Hmax]. split; [|done]. rewrite filter_cons in Hnd.
  case_decide; [|done]. by apply list.NoDup_cons in Hnd as [_ Hnd].
Qed.

(** A descriptor that is not open yet, and below the limit, can be used. *)
Lemma kernel_fds_fresh w used fds :
  kernel_fds (used ++ fds) -> w_fresh_fds w = fds ->
  (forall b fd, fdmap (w_fde w) !! b = Some fd -> 0 <= fd /\ fd ∈ used) -> fresh_ok w.
Proof.
  intros [Hnd Hmax] Hfr Hused fd l Hl H0. rewrite Hl in Hfr. subst fds.
  apply Forall_app in Hmax as [_ Hmax]. apply list.Forall_cons_1 in Hmax as [Hm _]. split; [lia|]. intros b [_ Hin]%Hused.
  rewrite list.filter_app in Hnd. apply list.NoDup_app in Hnd as (_ & Hd & _).
  apply (Hd fd); rewrite list_elem_of_filter; [done|]. split; [done|]. by left.
Qed.

Lemma adb_main_ok usb_thread local_thread fds junk :
  kernel_fds fds -> safe (adb_main usb_thread local_thread) (boot fds junk) (fun _ w => quiet w).
Proof.
  intros Hk. unfold adb_main, init_transport_registration.
  destruct fds as [|s0 [|s1 fds]]; [done| |].
  { apply safe_bind. do 2 (apply safe_bind; eapply safe_ok; [reflexivity|]). by destruct (s0 <? 0). }
  pose proof (boot_quiet fds junk) as [Hw Hl].
  set (w2 := upd_w_opens (fun q => q ++ [OpenSocketpair; OpenSocketpair]) (boot fds junk)).
  assert (quiet w2) as Hq2 by (split; [constructor; apply Hw|done]).
  apply kernel_fds_tail in Hk as Hk1.
  assert (0 <= s1 -> usable_fd w2 s1) as Hu.
  { intros H0. destruct Hk1 as [_ Hmax]. apply list.Forall_cons_1 in Hmax as [Hm _]. split; [lia|]. done. }
  apply safe_bind. do 2 (apply safe_bind; eapply safe_ok; [reflexivity|]).
  change (upd_w_fresh_fds _ _) with w2.
  destruct (s0 <? 0); [done|]. destruct (Z.ltb_spec s1 0) as [|H1]; [done|]. apply safe_bind, safe_ret.
  eapply safe_mono; [by apply registration_socket_ok; auto|].
  intros _ w3 (Hq3 & Hf3 & _ & Hll3 & Hm3).
  destruct usb_thread; [|done]. destruct local_thread; [|done].
  apply safe_bind, safe_ret, safe_bind, safe_ret. apply first_listener_ok; [done|done|].
  apply (kernel_fds_fresh w3 [s1] fds); [done|done|]. intros b fd. rewrite Hm3, lookup_insert_Some.
  intros [[_ <-]|[_ H]]; [split; [done|by left]|done].
Qed.

(** C1: the server is safe from its start on.  After [adb_main], whatever sequence
    of legal events follows, the server keeps the invariant of its objects: no
    freed object is used, no lock is taken twice, every loop ends; or it ends the
    process on a failure it reports.  The only exception is a CNXN packet whose
    payload has no zero byte: reading its banner is undefined behaviour.

    The events: the kernel changes its mind about what descriptors hold, take and
    are handed out next, and about the packets it takes; a client connects; a
    forwarded port is used; data can be read from or written to the descriptor of a local socket; a packet arrives; a USB or TCP
    transport appears; a message arrives on the registration socket; the sockets of
    a transport are closed and one of its threads ends.  They are legal in a state
    when
    - the next descriptor the kernel hands out is not in use and below FD_SETSIZE;
    - packets passed the checks of [remote_read] and come from a transport that is
      still there, and a thread that ends has such a transport, a USB or TCP one;
    - the message at the head of the registration socket announces a transport that
      is not on the list yet, with no event and no functions to call at its end, or
      withdraws one that is on the list and has its event;
    - a forwarded port is one of a listener that still exists and has a transport;
    - data is for an open socket whose peer is a stream of a device, a smart socket
      or a tracker that has sent its list.  A request it completes is not
      "disconnect:" or "emulator:", not "connect:" without a port, not "forward:"
      for a local name that is forwarded already, not "wait-for-" when the thread of
      the service cannot be started; it does not ask for a device over a
      transport that has been removed since it was chosen, nor for the list of
      devices when the client has closed its end.
    Sockets that are closing and pairs of local sockets are left out. *)
Theorem server_trace_safe adbhost usb_thread local_thread fds junk es :
  kernel_fds fds ->
  match adb_main usb_thread local_thread (boot fds junk) with
  | Ok (_, w) =>
      legal_trace adbhost w es ->
      match run_events adbhost es w with
      | Ok (_, w') => quiet w' /\ Forall (fun e => ~ bad_packet e) es
      | Err e => e = EFatal \/ e = EUndef /\ Exists bad_packet es
      end
  | Err e => e = EFatal
  end.
Proof.
  intros Hk. pose proof (adb_main_ok usb_thread local_thread fds junk Hk) as Hm. unfold safe in Hm.
  destruct (adb_main usb_thread local_thread (boot fds junk)) as [[[] w]|]; [|done].
  intros Hl. by apply run_events_ok.
Qed.
