(* ===== verification/Closing.v ===== *)
(** * How sockets open and close

    The answer to a connection request, and what becomes of a socket that is
    closed while it still has packets to write. *)

From S2P Require Import Prelude Io Wire FdEvent EventMap World Transports Listeners HostRequest.
From S2P Require Import Sockets Server ServerInv SocketsSafe ServerSafe Streams.

(** ** Ready again *)

Lemma add_read_waits X w a x :
  wf X w -> w_socks w !! a = Some x -> is_local x ->
  exists s, local_socket_ready a w = Ok (tt, upd_w_fde (fun _ => s) w) /\
    waits_for (upd_w_fde (fun _ => s) w) a FDE_READ.
Proof.
  intros Hw Ha Hl.
  pose proof (wf_local_fd _ _ _ _ Hw Ha Hl) as (e & He & Ae & _)%fdmap_some.
  unfold local_socket_ready. rewrite (bind_ok _ _ _ _ _ (sock_at_run _ _ _ Ha)).
  unfold fde_call, fdevent_add. rewrite (bind_ok _ _ _ _ _ (fde_at_ok _ _ _ He)).
  edestruct (fdevent_set_ok (w_fde w) a e) as (s & -> & _ & Hf & _); [apply Hw|done..|].
  exists s. split; [done|]. eexists. cbn. rewrite Hf, lookup_insert_eq. split; [done|].
  split; [unfold active; by rewrite set_result_active|].
  change FDE_READ with (2 ^ 0). rewrite hasbit_testbit, <- eventmask_low by lia.
  match goal with |- context [set_result ?ev e] => pose proof (set_result_wanted ev e) as Hwt end.
  unfold wanted in Hwt. rewrite Hwt, eventmask_low, Z.lor_spec by lia. apply orb_true_r.
Qed.

(** C17: the READY packet completes a connection.  A client's socket, rigged by
    the smart socket and waiting without a peer, is bound by an OKAY packet to a
    remote socket with the sender's id on that transport; it becomes an ordinary
    socket, the client reads OKAY, and its data is read from then on. *)
Theorem okay_completes_connection adbhost w p t s x :
  quiet w -> is_Some (w_trans w !! t) -> find_local_socket (arg1 (msg p)) w = Ok (Some s, w) ->
  w_socks w !! s = Some x -> s_close x = local_socket_close_notify_p ->
  wr_script (out_of w (s_fd x)) = [] ->
  match handle_okay adbhost p t w with
  | Ok (_, w') =>
      quiet w' /\ waits_for w' s FDE_READ /\
      wr_out (out_of w' (s_fd x)) = wr_out (out_of w (s_fd x)) ++ bs "OKAY" /\
      exists r x' y, w_socks w' !! s = Some x' /\ s_close x' = local_socket_close_p /\
        s_ready x' = local_socket_ready_p /\ s_peer x' = Some r /\
        w_socks w' !! r = Some y /\ s_enqueue y = remote_socket_enqueue_p /\
        s_id y = arg0 (msg p) /\ s_transport y = Some t /\ s_peer y = Some s
  | Err e => e = EFatal
  end.
Proof.
  intros [Hw Hsl] [tr Ht] Hf Hx Hcl Hscr.
  destruct (find_local_ok ∅ w (arg1 (msg p)) Hw Hsl) as (o & Hf' & Ho).
  assert (o = Some s) as -> by congruence. destruct (Ho s eq_refl) as (x0 & Hx0 & Hl & Hc & _). simplify_eq.
  pose proof (sh_tags _ _ (wf_shape _ _ Hw) _ _ Hx) as Htag. unfold tags_ok in Htag. rewrite Hl in Htag.
  destruct Htag as [[? _]|[_ Hrd]]; [congruence|].
  assert (s_peer x = None) as Hp.
  { pose proof (sh_peer _ _ (wf_shape _ _ Hw) _ _ Hx ltac:(set_solver) Hc) as Hok. unfold peer_ok in Hok.
    destruct (s_peer x); [|done]. tauto. }
  apply safe_run.
  apply safe_bind. eapply safe_ok; [exact Hf'|]. apply safe_bind. eapply safe_sock_at; [done|].
  rewrite bool_decide_true by done. apply safe_bind, safe_bind.
  eapply safe_mono; [by eapply bind_remote_ok|].
  intros r w1 (Hw1 & Hne & Hs1 & (y & Hy & Y1 & Y2 & Y3 & Y4 & Y5 & Y6) & Hsl1 & Hout & _). apply safe_ret.
  apply safe_bind. eapply safe_sock_at; [done|]. cbn [s_ready upd_s_peer]. rewrite Hrd.
  set (x1 := upd_s_peer (fun _ => Some r) x) in *.
  apply safe_bind. eapply safe_set_sock; [done|]. fold (plain x1).
  apply safe_bind. eapply safe_sock_at; [cbn; apply lookup_insert_eq|].
  set (w2 := upd_w_socks <[s := plain x1]> w1). change (s_fd (plain x1)) with (s_fd x).
  apply safe_bind. eapply safe_ok.
  { unfold fd_write. fold (out_of w2 (s_fd x)). unfold adb_write.
    replace (out_of w2 (s_fd x)) with (out_of w (s_fd x)) by (unfold out_of; cbn; by rewrite Hout).
    by rewrite Hscr. }
  set (w3 := upd_w_out _ w2).
  assert (wf {[s; r]} w3) as Hw3 by (apply wf_out, plain_ok; done).
  destruct (add_read_waits {[s; r]} w3 s (plain x1) Hw3) as (s1 & Hr & Hwait); [cbn; apply lookup_insert_eq|done|].
  eapply safe_ok; [exact Hr|].
  assert (wf ∅ (upd_w_fde (fun _ => s1) w3)) as Hw4.
  { pose proof (local_ready_ok _ w3 s (plain x1) Hw3 ltac:(cbn; apply lookup_insert_eq) Hl) as Hrdy.
    unfold safe in Hrdy. rewrite Hr in Hrdy. destruct Hrdy as [Hwr _].
    apply (wf_join _ s (plain x1) r y); try done; cbn; [apply lookup_insert_eq|by rewrite lookup_insert_ne]. }
  split_and!; [by split; [|cbn; congruence]|done| |].
  - unfold out_of. cbn. by rewrite lookup_insert_eq.
  - exists r, (plain x1), y. cbn. rewrite lookup_insert_eq, lookup_insert_ne by done. done.
Qed.

(** ** The last packet of a closing socket *)

Lemma write_all eintr fd p w :
  queued_ok p -> wr_script (out_of w fd) = [] ->
  exists p' w', write_packet_to eintr fd p w = Ok ((p', WDone), w') /\ pk_len p' = 0 /\
    wr_script (out_of w' fd) = [] /\ w' = upd_w_out (fun _ => w_out w') w.
Proof.
  intros Hp Hs. unfold write_packet_to, bind, get. fold (out_of w fd). rewrite Hs. cbn [length write_loop].
  destruct (Z.ltb_spec 0 (pk_len p)) as [Hpos|Hz].
  2: { exists p, w. split_and!; [done|destruct Hp; lia|done|by destruct w]. }
  rewrite (pkt_bytes_text p Hp). unfold bind, deref, ret at 1, fd_write. fold (out_of w fd).
  unfold adb_write. rewrite Hs. pose proof (pkt_text_length p Hp) as Hlen.
  destruct (pkt_text p) as [|b l] eqn:Ht; [cbn in Hlen; lia|].
  assert (pk_len (advance (length (b :: l)) p) = 0) as H0 by (cbn [pk_len advance]; rewrite Hlen; lia).
  cbn [length] in H0 |- *. rewrite H0. eexists _, _. split_and!; [done|done| |done].
  unfold out_of. cbn. by rewrite lookup_insert_eq.
Qed.

(** A closing socket writes its queue to a descriptor that takes everything. *)
Lemma drain_closing n a x w :
  w_socks w !! a = Some x -> Forall queued_ok (s_pkts x) -> wr_script (out_of w (s_fd x)) = [] ->
  (length (s_pkts x) <= n)%nat ->
  exists w', drain n a (s_fd x) w = Ok (true, w') /\ w_slock w' = w_slock w /\
    w_socks w' = <[a := upd_s_pkts (fun _ => []) x]> (w_socks w).
Proof.
  revert x w. induction n as [|n IH]; intros x w Ha Hall Hs Hn; cbn [drain];
    rewrite (bind_ok _ _ _ _ _ (sock_at_run _ _ _ Ha));
    destruct (s_pkts x) as [|p q] eqn:Hq; cbn in Hn; try lia.
  1, 2: exists w; split_and!; try done; rewrite insert_id; [done|]; rewrite Ha; destruct x; cbn in *; by subst.
  apply Forall_cons_iff in Hall as [Hp Hall].
  destruct (write_all true (s_fd x) p w Hp Hs) as (p' & w1 & Hr & H0 & Hs1 & Hw1).
  rewrite (bind_ok _ _ _ _ _ Hr).
  assert (w_socks w1 !! a = Some x) as Ha1 by (by rewrite Hw1).
  unfold set_sock at 1. unfold bind at 1. rewrite (bind_ok _ _ _ _ _ (sock_at_run _ _ _ Ha1)).
  unfold modify at 1. rewrite H0. cbn [when Z.eqb].
  set (w2 := upd_w_socks <[a := upd_s_pkts (fun _ => p' :: q) x]> w1).
  assert (w_socks w2 !! a = Some (upd_s_pkts (fun _ => p' :: q) x)) as Ha2 by (cbn; apply lookup_insert_eq).
  unfold set_sock at 1. unfold bind at 1. rewrite (bind_ok _ _ _ _ _ (sock_at_run _ _ _ Ha2)).
  unfold modify at 1. set (x2 := upd_s_pkts (fun _ => q) (upd_s_pkts (fun _ => p' :: q) x)).
  edestruct (IH x2 (upd_w_socks <[a := x2]> w2)) as (w' & Hd & Hsl & Hsk).
  - cbn. apply lookup_insert_eq.
  - done.
  - done.
  - cbn. lia.
  - exists w'. split_and!; [exact Hd|rewrite Hsl; cbn; by rewrite Hw1|]. rewrite Hsk. cbn.
    rewrite !insert_insert_eq, Hw1. done.
Qed.

(** Closing a socket whose peer field is stale. *)
Lemma close_stale w a x q :
  w_socks w !! a = Some x -> s_close x = local_socket_close_p -> s_peer x = Some q -> w_slock w = false ->
  w_socks w !! q = None -> sock_close a w = Err EUndef.
Proof.
  intros Ha Hc Hp Hsl Hq. unfold sock_close. rewrite call_close_n. unfold call_close.
  rewrite (bind_ok _ _ _ _ _ (sock_at_run _ _ _ Ha)), Hc. unfold local_socket_close, lock_sockets.
  unfold bind, get. rewrite Hsl. unfold modify at 1.
  change (sock_close_n 7 true a) with (local_socket_close_locked (sock_close_n 6 false) (sock_close_n 6 true) a).
  unfold local_socket_close_locked.
  rewrite (bind_ok _ _ _ _ _ (sock_at_run (upd_w_slock (fun _ => true) w) _ _ Ha)), Hp.
  unfold clear_peer, set_sock, sock_at, bind, get, deref. cbn [w_socks upd_w_slock]. by rewrite Hq.
Qed.

(** C40: a socket closed with unsent packets is closed twice.  Closing a local
    socket frees its peer; when packets are still queued the socket itself is
    kept to write them, but still points at the freed peer.  The event that
    writes the last packet closes it again, through that pointer: undefined
    behaviour.  (The comment on the closing list says these sockets have no peer
    anymore.) *)
Theorem closing_socket_uses_freed_peer adbhost w a x q y o :
  quiet w -> w_socks w !! a = Some x -> is_local x -> s_closing x = false ->
  s_close x = local_socket_close_p -> s_pkts x <> [] ->
  s_peer x = Some q -> w_socks w !! q = Some y -> ~ is_local y ->
  match sock_close a w with
  | Ok (_, w1) =>
      w_socks w1 !! q = None /\
      local_socket_event_func adbhost (s_fd x) FDE_WRITE a
        (upd_w_out <[s_fd x := mkWr o []]> w1) = Err EUndef
  | Err e => e = EFatal
  end.
Proof.
  intros [Hw Hsl] Ha Hl Hc Hcl Hpk Hp Hq Hy.
  pose proof (sock_close_ok w a x Hw Hsl Ha Hl Hc) as Hclose. unfold safe in Hclose.
  destruct (sock_close a w) as [[[] w1]|e]; [|done]. destruct Hclose as [Hw1 Hcp].
  destruct (cp_left _ _ _ _ Hcp Hcl x Ha Hpk) as (x1 & Ha1 & Hc1 & Hp1 & Hpk1 & Hfd1 & He1 & Hcl1).
  pose proof (cp_peer _ _ _ _ Hcp q y Hp Hq Hy) as Hq1. split; [done|].
  set (w2 := upd_w_out <[s_fd x := mkWr o []]> w1).
  assert (is_local x1) as Hl1 by (unfold is_local in *; congruence).
  destruct (drain_closing (length (s_pkts x1)) a x1 w2) as (w3 & Hd & Hsl3 & Hsk3); [done|by eapply queued_all| |lia|].
  { unfold out_of. cbn. by rewrite Hfd1, lookup_insert_eq. }
  assert (w_slock w3 = false) as Hsl3' by (rewrite Hsl3; cbn; by rewrite (kept_slock _ _ (cp_kept _ _ _ _ Hcp))).
  assert (w_socks w3 !! a = Some (upd_s_pkts (fun _ => []) x1)) as Ha3 by (by rewrite Hsk3, lookup_insert_eq).
  unfold local_socket_event_func, local_socket_write_event. change (hasbit FDE_WRITE FDE_WRITE) with true.
  cbv iota. unfold bind at 1. rewrite (bind_ok _ _ _ _ _ (sock_at_run w2 a x1 Ha1)).
  rewrite Hfd1 in Hd. rewrite (bind_ok _ _ _ _ _ Hd).
  rewrite (bind_ok _ _ _ _ _ (sock_at_run _ _ _ Ha3)). cbn [s_closing upd_s_pkts]. rewrite Hc1.
  unfold bind at 1. rewrite (close_stale w3 a _ q Ha3); try done; cbn; [congruence..|].
  rewrite Hsk3, lookup_insert_ne; [done|]. intros ->. congruence.
Qed.
