(* ===== verification/AdbClient.v ===== *)
(** * The client side of the server's protocol (adb_client.c)

    The command line tool talks to the server over loopback connections: it
    selects a transport, asks for a service, and reads the status. *)

From S2P Require Import Prelude Io World HostRequest SyncServer.

(** [k_in] and [k_out] are the connection in use, [k_next] what the next calls of
    [socket_loopback_client] give ([None]: refused), [k_done] what was written to
    the connections closed so far, [k_launch] the outcomes of [launch_server]. *)
Record client := mkClient {
  k_transport : transport_type;
  k_serial : option (list Z);
  k_error : list Z;
  k_in : rdfd;
  k_out : wrfd;
  k_next : list (option (rdfd * wrfd));
  k_done : list (list Z);
  k_launch : list bool
}.

Definition set_error (e : list Z) (k : client) : client :=
  mkClient (k_transport k) (k_serial k) e (k_in k) (k_out k) (k_next k) (k_done k) (k_launch k).
Definition set_conn (i : rdfd) (o : wrfd) (k : client) : client :=
  mkClient (k_transport k) (k_serial k) (k_error k) i o (k_next k) (k_done k) (k_launch k).
Definition set_next (n : list (option (rdfd * wrfd))) (k : client) : client :=
  mkClient (k_transport k) (k_serial k) (k_error k) (k_in k) (k_out k) n (k_done k) (k_launch k).
Definition set_launch (l : list bool) (k : client) : client :=
  mkClient (k_transport k) (k_serial k) (k_error k) (k_in k) (k_out k) (k_next k) (k_done k) l.

Definition adb_set_transport (type : transport_type) (serial : option (list Z)) : M client unit :=
  modify (fun k => mkClient type serial (k_error k) (k_in k) (k_out k) (k_next k) (k_done k) (k_launch k)).

Definition adb_error : M client (list Z) := k <- get ;; ret (k_error k).

(** ** The connection *)

Definition k_readx (len : nat) : M client (option (list Z)) :=
  fun k => match readx len (k_in k) with
           | Ok (r, i) => Ok (r, set_conn i (k_out k) k)
           | Err e => Err e
           end.

Definition k_writex (buf : list Z) : M client bool :=
  fun k => match writex buf (k_out k) with
           | Ok (r, o) => Ok (r, set_conn (k_in k) o k)
           | Err e => Err e
           end.

(** [readx] into an array of [cap] bytes. *)
Definition k_readx_into (cap len : nat) : M client (option (list Z)) :=
  if (len <=? cap)%nat then k_readx len
  else r <- k_readx (S cap) ;;
       match r with Some _ => fail EUndef | None => ret None end.

Definition k_close : M client unit :=
  modify (fun k => mkClient (k_transport k) (k_serial k) (k_error k) (mkRd [] []) (mkWr [] [])
                     (k_next k) (k_done k ++ [wr_out (k_out k)]) (k_launch k)).

(** [socket_loopback_client(ADB_PORT, SOCK_STREAM)]: [false] when it fails. *)
Definition k_connect : M client bool :=
  k <- get ;;
  match k_next k with
  | Some (i, o) :: l => modify (fun k => set_next l (set_conn i o k)) ;; ret true
  | None :: l => modify (set_next l) ;; ret false
  | [] => ret false
  end.

Definition fail_with (e : list Z) : M client bool := modify (set_error e) ;; ret false.

(** [strtoul(s, 0, 16)]. *)
Definition strtoul16 (s : list Z) : Z :=
  let s := skip_space s in
  let '(neg, s) := match s with
                   | c :: s' => if c =? 45 then (true, s') else if c =? 43 then (false, s') else (false, s)
                   | [] => (false, [])
                   end in
  let s := match s with
           | 48 :: x :: s' => if (x =? 120) || (x =? 88) then s' else s
           | _ => s
           end in
  let '(acc, any, _) := strtoul_digits 16 s 0 0 false in
  if neg && (0 <? any) then u32 (- acc) else acc.

(** ** Status *)

(** [true] is the return value 0. *)
Definition adb_status : M client bool :=
  r <- k_readx 4 ;;
  match r with
  | None => fail_with (bs "protocol fault (no status)")
  | Some buf =>
      if streq buf (bs "OKAY") then ret true
      else if negb (streq buf (bs "FAIL")) then
        fail_with (bs "protocol fault (status " ++ concat (map (fun b => hex_pad 2 b ++ [32]) (take 3 buf))
                     ++ concat (map (hex_pad 2) (drop 3 buf)) ++ bs "?!)")
      else
        r <- k_readx 4 ;;
        match r with
        | None => fail_with (bs "protocol fault (status len)")
        | Some buf =>
            let len := Z.min (strtoul16 (cstr buf)) 255 in
            r <- k_readx (Z.to_nat len) ;;
            match r with
            | None => fail_with (bs "protocol fault (status read)")
            | Some text => fail_with (cstr text)
            end
        end
  end.

(** Writing a request: the length in four digits, and the name. *)
Definition send_request (service : list Z) : M client bool :=
  r <- k_writex (take 4 (snprintf 5 (hex4 (Z.of_nat (length service))))) ;;
  if (r : bool) then k_writex service else ret false.

(** The service that selects the transport; [None] for the host itself. *)
Definition switch_service (serial : option (list Z)) (type : transport_type) : option (list Z) :=
  match serial with
  | Some s => Some (snprintf 64 (bs "host:transport:" ++ s))
  | None =>
      match type with
      | kTransportUsb => Some (snprintf 64 (bs "host:transport-usb"))
      | kTransportLocal => Some (snprintf 64 (bs "host:transport-local"))
      | kTransportAny => Some (snprintf 64 (bs "host:transport-any"))
      | kTransportHost => None
      end
  end.

Definition switch_socket_transport : M client bool :=
  k <- get ;;
  match switch_service (k_serial k) (k_transport k) with
  | None => ret true
  | Some service =>
      r <- send_request service ;;
      if (r : bool) then
        ok <- adb_status ;;
        if (ok : bool) then ret true else k_close ;; ret false
      else
        modify (set_error (bs "write failure during connection")) ;; k_close ;; ret false
  end.

(** ** Connecting *)

(** The return values of [_adb_connect]: a descriptor, -1, and -2. *)
Inductive connected := Connected | ConnectFailed | NoServer.

Definition _adb_connect (service : list Z) : M client connected :=
  let len := Z.of_nat (length service) in
  if (len <? 1) || (1024 <? len) then
    modify (set_error (bs "service name too long")) ;; ret ConnectFailed
  else
    fd <- k_connect ;;
    if negb fd then modify (set_error (bs "cannot connect to daemon")) ;; ret NoServer
    else
      ok <- (if prefixb (bs "host") service then ret true else switch_socket_transport) ;;
      if negb ok then ret ConnectFailed
      else
        r <- send_request service ;;
        if negb r then
          modify (set_error (bs "write failure during connection")) ;; k_close ;; ret ConnectFailed
        else
          ok <- adb_status ;;
          if negb ok then k_close ;; ret ConnectFailed else ret Connected.

(** [sscanf(buf, "%04x", &version)] on the first bytes of [buf]: [None] when
    there is no number, [Some None] when it looks beyond them. *)
Fixpoint scan_hex (width : nat) (s : list Z) (acc : Z) (any : bool) (terminated : bool) : option (option Z) :=
  match width with
  | O => Some (Some acc)
  | S wd =>
      match s with
      | [] => if terminated then (if any then Some (Some acc) else None) else Some None
      | c :: s =>
          let d := if isdigit c then Some (c - 48)
                   else if (97 <=? c) && (c <=? 102) then Some (c - 87)
                   else if (65 <=? c) && (c <=? 70) then Some (c - 55)
                   else None in
          match d with
          | Some d => scan_hex wd s (16 * acc + d) true terminated
          | None => if any then Some (Some acc) else None
          end
      end
  end.

(** The version the server answers: [None] is the label [error]. *)
Definition read_version : M client (option Z) :=
  r <- k_readx 4 ;;
  match r with
  | None => k_close ;; ret None
  | Some head =>
      let n := s32 (strtoul16 (cstr head)) in
      if 100 <? n then k_close ;; ret None
      else
        r <- k_readx_into 100 (Z.to_nat (u32 n)) ;;
        match r with
        | None => k_close ;; ret None
        | Some text =>
            k_close ;;
            let buf := text ++ drop (length text) head in
            match scan_hex 4 (skip_space (cstr buf)) 0 false
                    (bool_decide (length text <= 4)%nat || bool_decide (0 ∈ buf)) with
            | None => k_close ;; ret None
            | Some None => fail EUndef
            | Some (Some v) => ret (Some v)
            end
        end
  end.

(** [launch_server]: [true] when the daemon was started. *)
Definition start_server : M client bool :=
  k <- get ;;
  match k_launch k with
  | b :: l => modify (set_launch l) ;; ret b
  | [] => ret false
  end.

(** The part of [adb_connect] after the server is known to run. *)
Definition connect_service (service : list Z) : M client connected :=
  if streq service (bs "host:start-server") then ret Connected else _adb_connect service.

(** From [start_server:] on. *)
Definition connect_started (service : list Z) : M client connected :=
  ok <- start_server ;;
  if (ok : bool) then connect_service service else ret ConnectFailed.

(** After the version check. *)
Definition connect_checked (version : Z) (service : list Z) : M client connected :=
  if negb (version =? ADB_SERVER_VERSION) then
    _ <- _adb_connect (bs "host:kill") ;; k_close ;; connect_started service
  else connect_service service.

Definition adb_connect (service : list Z) : M client connected :=
  fd <- _adb_connect (bs "host:version") ;;
  match fd with
  | NoServer => connect_started service
  | Connected =>
      v <- read_version ;;
      match v with None => ret ConnectFailed | Some version => connect_checked version service end
  | ConnectFailed =>
      err <- adb_error ;;
      if streq err (bs "unknown host service")
      then connect_checked (ADB_SERVER_VERSION - 1) service
      else ret ConnectFailed
  end.

(** [true] is the return value 0. *)
Definition adb_command (service : list Z) : M client bool :=
  fd <- adb_connect service ;;
  match fd with
  | Connected =>
      ok <- adb_status ;;
      if (ok : bool) then ret true else k_close ;; ret false
  | _ => ret false
  end.

Definition adb_query (service : list Z) : M client (option (list Z)) :=
  fd <- adb_connect service ;;
  match fd with
  | Connected =>
      r <- k_readx 4 ;;
      match r with
      | None => k_close ;; ret None
      | Some buf =>
          let n := strtoul16 (cstr buf) in
          if 1024 <? n then k_close ;; ret None
          else
            r <- k_readx (Z.to_nat n) ;;
            k_close ;;
            ret (cstr <$> r)
      end
  | _ => ret None
  end.

(** ** The console port of an emulator *)

(** The lines of the device list: up to each newline, and the rest. *)
Fixpoint lines (s cur : list Z) : list (list Z) :=
  match s with
  | [] => match cur with [] => [] | _ => [cur] end
  | c :: s => if c =? 10 then cur :: lines s [] else lines s (cur ++ [c])
  end.

Definition is_emulator (line : list Z) : bool := prefixb (bs "emulator-") line.

(** The return value: a port, -1 or -2.  When the serial comes from the list it
    points into the text that has just been freed. *)
Definition adb_get_emulator_console_port : M client Z :=
  k <- get ;;
  match k_serial k with
  | Some serial => if is_emulator serial then ret (atoi (drop 9 serial)) else ret (-1)
  | None =>
      tmp <- adb_query (bs "host:devices") ;;
      match tmp with
      | None => ret (-1)
      | Some text =>
          match filter (fun l => is_emulator l = true) (lines text []) with
          | [] => ret (-1)
          | [serial] => fail EUndef
          | _ => ret (-2)
          end
      end
  end.
