(* ===== verification/CommandLine.v ===== *)
(** * The command line of the client (commandline.c, console.c)

    [adb_commandline] parses the flags, selects the transport and runs one
    command: most ask the server for something (AdbClient.v), some copy files
    (SyncClient.v), and [adb link] waits for a device, synchronises and starts the
    watcher.  What the commands start besides connections to the server is an
    interface; the environment of the process is a parameter.  Messages for the
    user are left out, answers of the server are not. *)

From S2P Require Import Prelude Io World HostRequest AdbClient Shell.

(** ** What the commands start *)

Class Host (X : Type) := {
  (** [adb_main(is_daemon)] *)
  h_main : bool -> M X Z;
  h_sync_ls : list Z -> M X Z;
  h_sync_push : list Z -> list Z -> bool -> M X Z;
  h_sync_pull : list Z -> list Z -> M X Z;
  h_sync_sync : list Z -> list Z -> M X Z;
  h_link : list Z -> list Z -> M X Z;
  (** [stat]: the mode of a file *)
  h_stat : list Z -> M X (option Z);
  (** threads: the terminal's, and the watcher of a directory *)
  h_stdin_thread : M X unit;
  h_watcher : list Z -> M X unit;
  h_cancel : M X unit;
  (** [fork], and in the child [execvp("pppd")] with these arguments *)
  h_fork_pppd : list (list Z) -> M X bool;
}.

(** The environment: variables, the working directory, the files there are, and
    where the link to the program points. *)
Record environment := mkEnv {
  getenv : list Z -> option (list Z);
  getcwd : option (list Z);
  access : list Z -> bool;
  exe_link : option (list Z);
}.

(** The state: the client's connection to the server, what was printed, the
    rest. *)
Record cmd (X : Type) := mkCmd {
  c_client : client;
  c_out : list Z;
  c_ext : X;
}.
Arguments mkCmd {X} _ _ _.
Arguments c_client {X} _.
Arguments c_out {X} _.
Arguments c_ext {X} _.

(** ** Paths *)

Definition PATH_MAX : nat := 4096.
Definition SEP : list Z := bs "/".

Definition adb_dirstart (path : list Z) : option (list Z * list Z) := strchr 47 path.
Definition adb_dirstop (path : list Z) : option (list Z * list Z) := strrchr 47 path.
Definition adb_is_absolute_host_path (path : list Z) : bool := prefixb SEP path.

(** [strcpy] into an array of [cap] bytes. *)
Definition strcpy {W} (cap : nat) (s : list Z) : M W (list Z) :=
  if (length s <? cap)%nat then ret s else fail EUndef.

(** [strcat(buf, s)] and [strncat(buf, s, n)] of an array of [cap] bytes. *)
Definition strcat {W} (cap : nat) (buf s : list Z) : M W (list Z) := strcpy cap (buf ++ s).
Definition strncat {W} (cap : nat) (buf s : list Z) (n : nat) : M W (list Z) := strcat cap buf (take n s).

Definition get_my_path (env : environment) (maxLen : nat) : list Z :=
  match exe_link env with
  | Some l => take (maxLen - 1) l
  | None => []
  end.

Definition SENTINEL_FILE : list Z := bs "config" ++ SEP ++ bs "envsetup.make".

Definition top_works (env : environment) (top : list Z) : bool :=
  adb_is_absolute_host_path top && access env (snprintf PATH_MAX (top ++ SEP ++ SENTINEL_FILE)).

(** Each round cuts off a part of the path: its length is enough. *)
Fixpoint find_top_loop (fuel : nat) (env : environment) (path_buf : list Z) : option (list Z) :=
  match fuel with
  | O => None
  | S f =>
      if top_works env path_buf then Some path_buf
      else match adb_dirstop path_buf with
           | Some (s, _) => find_top_loop f env s
           | None => None
           end
  end.

Definition find_top_from {W} (env : environment) (indir : list Z) : M W (option (list Z)) :=
  path_buf <- strcpy PATH_MAX indir ;;
  ret (find_top_loop (S (length path_buf)) env path_buf).

(** A variable that is set and not empty. *)
Definition env_set (env : environment) (name : list Z) : option (list Z) :=
  match getenv env name with
  | Some (c :: s) => Some (c :: s)
  | _ => None
  end.

Definition find_top {W} (env : environment) : M W (option (list Z)) :=
  match (match env_set env (bs "ANDROID_BUILD_TOP") with
         | Some top => Some top
         | None => env_set env (bs "TOP")
         end) with
  | Some top => if top_works env top then t <- strcpy PATH_MAX top ;; ret (Some t) else ret None
  | None =>
      dir <- deref (getcwd env) ;;
      top <- find_top_from env dir ;;
      match top with
      | Some t => ret (Some t)
      | None => find_top_from env (get_my_path env PATH_MAX)
      end
  end.

(** [hint] is null or a string. *)
Definition find_product_out_path {W} (env : environment) (hint : option (list Z)) : M W (option (list Z)) :=
  match hint with
  | None | Some [] => ret None
  | Some hint =>
      if adb_is_absolute_host_path hint then p <- strcpy PATH_MAX hint ;; ret (Some p)
      else if bool_decide (is_Some (adb_dirstart hint)) then
        match getcwd env with
        | None => ret None
        | Some cwd =>
            if (PATH_MAX <=? length cwd + 1 + length hint)%nat then ret None
            else p <- strcat PATH_MAX cwd SEP ;; p <- strcat PATH_MAX p hint ;; ret (Some p)
        end
      else
        top <- find_top env ;;
        match top with
        | None => ret None
        | Some top =>
            let p := snprintf PATH_MAX (top ++ SEP ++ bs "out" ++ SEP ++ bs "target" ++ SEP ++ bs "product" ++ SEP ++ hint) in
            ret (if access env p then Some p else None)
        end
  end.

(** [product_file]: ends the program when there is no product directory. *)
Definition product_file {W} (out : option (list Z)) (extra : list Z) : M W (list Z) :=
  match out with
  | None => fail EFatal
  | Some p => ret (p ++ SEP ++ extra)
  end.

(** [find_sync_dirs]: [None] is the return value 1. *)
Definition find_sync_dirs {W} (out : option (list Z)) (srcarg : option (list Z)) : M W (option (option (list Z) * option (list Z))) :=
  match srcarg with
  | None =>
      a <- product_file out (bs "system") ;; d <- product_file out (bs "data") ;; ret (Some (Some a, Some d))
  | Some s =>
      if streq s (bs "system") then a <- product_file out (bs "system") ;; ret (Some (Some a, None))
      else if streq s (bs "data") then d <- product_file out (bs "data") ;; ret (Some (None, Some d))
      else ret None
  end.

(** ** Strings for the device *)

Definition needs_quote (c : Z) : bool := (c =? 32) || (c =? 34) || (c =? 92) || (c =? 40) || (c =? 41).

Fixpoint dupAndQuote (s : list Z) : list Z :=
  match s with
  | [] => []
  | c :: s => (if needs_quote c then [92; c] else [c]) ++ dupAndQuote s
  end.

Definition format_host_command (buflen : nat) (command : list Z) (ttype : transport_type) (serial : option (list Z)) : list Z :=
  match serial with
  | Some s => snprintf buflen (bs "host-serial:" ++ s ++ bs ":" ++ command)
  | None =>
      let prefix := match ttype with
                    | kTransportUsb => bs "host-usb"
                    | kTransportLocal => bs "host-local"
                    | _ => bs "host"
                    end in
      snprintf buflen (prefix ++ bs ":" ++ command)
  end.

(** The size of the buffers for requests. *)
Definition BUFSZ : nat := 4096.

(** The arguments quoted and appended, as [logcat] and [pm_command] do. *)
Fixpoint append_quoted {W} (buf : list Z) (args : list (list Z)) : M W (list Z) :=
  match args with
  | [] => ret buf
  | a :: args =>
      buf <- strncat BUFSZ buf (bs " ") (BUFSZ - 1) ;;
      buf <- strncat BUFSZ buf (dupAndQuote a) (BUFSZ - 1) ;;
      append_quoted buf args
  end.

(** The arguments of [adb shell]: those that are empty or have a space between
    quotes. *)
Fixpoint append_args {W} (buf : list Z) (args : list (list Z)) : M W (list Z) :=
  match args with
  | [] => ret buf
  | a :: args =>
      let quote := bool_decide (a = []) || bool_decide (is_Some (strchr 32 a)) in
      buf <- strcat BUFSZ buf (bs " ") ;;
      buf <- (if quote then strcat BUFSZ buf [34] else ret buf) ;;
      buf <- strcat BUFSZ buf a ;;
      buf <- (if quote then strcat BUFSZ buf [34] else ret buf) ;;
      append_args buf args
  end.

(** The arguments [do_cmd] passes on. *)
Definition do_cmd_argv (ttype : transport_type) (serial : option (list Z)) (args : list (list Z)) : list (list Z) :=
  match serial with
  | Some s => [bs "-s"; s]
  | None => match ttype with
            | kTransportUsb => [bs "-d"]
            | kTransportLocal => [bs "-e"]
            | _ => []
            end
  end ++ args.

(** ** Flags *)

Record flags := mkFlags {
  f_no_daemon : bool;
  f_is_daemon : bool;
  f_persist : bool;
  f_ttype : transport_type;
  f_serial : option (list Z);
  f_product : option (list Z);
}.

Definition set_product (p : option (list Z)) (f : flags) : flags :=
  mkFlags (f_no_daemon f) (f_is_daemon f) (f_persist f) (f_ttype f) (f_serial f) p.
Definition set_serial (s : option (list Z)) (f : flags) : flags :=
  mkFlags (f_no_daemon f) (f_is_daemon f) (f_persist f) (f_ttype f) s (f_product f).
Definition set_ttype (t : transport_type) (f : flags) : flags :=
  mkFlags (f_no_daemon f) (f_is_daemon f) (f_persist f) t (f_serial f) (f_product f).

Definition flags0 (env : environment) : flags :=
  mkFlags false false false kTransportAny (getenv env (bs "ANDROID_SERIAL")) (env_set env (bs "ANDROID_PRODUCT_OUT")).

(** [argv[1] + 2] when there is no space after [-p]: the string that follows the
    flag, without its first two characters. *)
Definition product_arg {W} (rest : list (list Z)) : M W (list Z) :=
  match rest with
  | [] => fail EUndef
  | a :: _ => if (length a <? 2)%nat then fail EUndef else ret (drop 2 a)
  end.

(** The loop over modifiers and flags; [None] is [return usage()]. *)
Fixpoint parse_flags {W} (env : environment) (argv : list (list Z)) (f : flags) : M W (option (flags * list (list Z))) :=
  match argv with
  | [] => ret (Some (f, []))
  | a :: rest =>
      if streq a (bs "nodaemon") then
        parse_flags env rest (mkFlags true (f_is_daemon f) (f_persist f) (f_ttype f) (f_serial f) (f_product f))
      else if streq a (bs "fork-server") then
        parse_flags env rest (mkFlags (f_no_daemon f) true (f_persist f) (f_ttype f) (f_serial f) (f_product f))
      else if streq a (bs "persist") then
        parse_flags env rest (mkFlags (f_no_daemon f) (f_is_daemon f) true (f_ttype f) (f_serial f) (f_product f))
      else if prefixb (bs "-p") a then
        match drop 2 a, rest with
        | [], [] => ret None
        | [], product :: rest =>
            p <- find_product_out_path env (Some product) ;;
            match p with None => ret None | Some _ => parse_flags env rest (set_product p f) end
        | _, _ =>
            product <- product_arg rest ;;
            p <- find_product_out_path env (Some product) ;;
            match p with None => ret None | Some _ => parse_flags env rest (set_product p f) end
        end
      else if prefixb (bs "-s") a then
        if (match drop 2 a with c :: _ => isdigit c | [] => false end) then parse_flags env rest (set_serial (Some (drop 2 a)) f)
        else match rest with
             | [] => ret None
             | s :: rest => parse_flags env rest (set_serial (Some s) f)
             end
      else if streq a (bs "-d") then parse_flags env rest (set_ttype kTransportUsb f)
      else if streq a (bs "-e") then parse_flags env rest (set_ttype kTransportLocal f)
      else ret (Some (f, argv))
  end.

(** ** Commands *)

(** The return value of [help] through [usage]. *)
Definition usage {W} : M W Z := ret 1.

Section Commands.
Context {X : Type} `{!Host X}.
Notation C := (M (cmd X)).

Definition on_client {A} (m : M client A) : C A :=
  fun c => match m (c_client c) with Ok (a, k) => Ok (a, mkCmd k (c_out c) (c_ext c)) | Err e => Err e end.
Definition on_ext {A} (m : M X A) : C A :=
  fun c => match m (c_ext c) with Ok (a, x) => Ok (a, mkCmd (c_client c) (c_out c) x) | Err e => Err e end.
Definition printf (s : list Z) : C unit := modify (fun c => mkCmd (c_client c) (c_out c ++ s) (c_ext c)).

(** [read_and_dump(fd)] on the connection. *)
Definition dump : C unit :=
  text <- on_client (fun k => match read_and_dump (k_in k) with
                              | Ok (text, i) => Ok (text, set_conn i (k_out k) k)
                              | Err e => Err e
                              end) ;;
  printf text.

(** [fd = adb_connect(service)]: is it a descriptor? *)
Definition connect (service : list Z) : C bool :=
  r <- on_client (adb_connect service) ;;
  ret match r with Connected => true | _ => false end.

(** A query whose answer is printed after a heading. *)
Definition print_query (heading service : list Z) : C Z :=
  tmp <- on_client (adb_query service) ;;
  match tmp with
  | Some t => printf (heading ++ t ++ [10]) ;; ret 0
  | None => ret 1
  end.

(** *** The console of an emulator *)

(** [connect_to_console]: the same loopback connections as to the server. *)
Definition connect_to_console : C bool :=
  port <- on_client adb_get_emulator_console_port ;;
  if port <? 0 then ret false else on_client k_connect.

(** [adb_write] whose result is not looked at. *)
Definition console_write (s : list Z) : C unit :=
  on_client (modify (fun k => set_conn (k_in k) (snd (adb_write s (k_out k))) k)).

Fixpoint console_args (args : list (list Z)) : C unit :=
  match args with
  | [] => ret tt
  | a :: rest => console_write a ;; console_write (match rest with [] => [10] | _ => [32] end) ;; console_args rest
  end.

Definition adb_send_emulator_command (args : list (list Z)) : C Z :=
  fd <- connect_to_console ;;
  if negb fd then ret 1
  else console_args args ;; console_write (bs "quit" ++ [10]) ;; on_client k_close ;; ret 0.

(** *** Commands of the device's shell *)

(** [do_cmd] calls the command line again. *)
Context (do_cmd : transport_type -> option (list Z) -> list (list Z) -> C Z).

(** Rounds of waiting for a device. *)
Context (rounds : nat).

Fixpoint connect_waiting (n : nat) (ttype : transport_type) (serial : option (list Z)) (buf : list Z) : C unit :=
  match n with
  | O => fail EFuel
  | S n =>
      fd <- connect buf ;;
      if fd : bool then ret tt
      else do_cmd ttype serial [bs "wait-for-device"] ;; connect_waiting n ttype serial buf
  end.

Definition send_shellcommand (ttype : transport_type) (serial : option (list Z)) (buf : list Z) : C Z :=
  connect_waiting rounds ttype serial buf ;; dump ;; on_client k_close ;; ret 0.

Definition logcat (env : environment) (ttype : transport_type) (serial : option (list Z)) (args : list (list Z)) : C Z :=
  let tags := dupAndQuote (default [] (getenv env (bs "ANDROID_LOG_TAGS"))) in
  let buf := snprintf BUFSZ (bs "shell:export ANDROID_LOG_TAGS=" ++ [34] ++ tags ++ [34] ++ bs " ; exec logcat") in
  buf <- append_quoted buf args ;;
  send_shellcommand ttype serial buf ;;
  ret 0.

Definition pm_command (ttype : transport_type) (serial : option (list Z)) (argv : list (list Z)) : C Z :=
  buf <- append_quoted (snprintf BUFSZ (bs "shell:pm")) argv ;;
  send_shellcommand ttype serial buf ;;
  ret 0.

Definition uninstall_app (ttype : transport_type) (serial : option (list Z)) (argv : list (list Z)) : C Z :=
  match argv with
  | [_; k; _] => if streq k (bs "-k") then ret (-1) else pm_command ttype serial argv
  | _ => pm_command ttype serial argv
  end.

Definition delete_file (ttype : transport_type) (serial : option (list Z)) (filename : list Z) : C Z :=
  buf <- strncat BUFSZ (snprintf BUFSZ (bs "shell:rm ")) (dupAndQuote filename) (BUFSZ - 1) ;;
  send_shellcommand ttype serial buf ;;
  ret 0.

(** The destination of a package. *)
Definition install_dest (argv : list (list Z)) (name : list Z) : list Z :=
  let where_ := if bool_decide (bs "-s" ∈ argv) then bs "/sdcard/tmp/" else bs "/data/local/tmp/" in
  snprintf PATH_MAX (where_ ++ name).

Definition S_ISREG (mode : Z) : bool := Z.land mode 0xF000 =? 0x8000.

(** After the name was built, the program looks at the first character behind the
    last slash, whether there is a slash or not. *)
Definition install_app (ttype : transport_type) (serial : option (list Z)) (argv : list (list Z)) : C Z :=
  filename <- deref (list.last argv) ;;
  p <- deref (adb_dirstop filename) ;;
  let to := install_dest argv (snd p) in
  st <- on_ext (h_stat filename) ;;
  match st with
  | None => ret 1
  | Some mode =>
      if negb (S_ISREG mode) then ret 1
      else
        err <- on_ext (h_sync_push filename to true) ;;
        if err =? 0 then
          pm_command ttype serial (take (length argv - 1) argv ++ [to]) ;; delete_file ttype serial to ;; ret err
        else ret err
  end.

Definition interactive_shell : C Z :=
  fd <- connect (bs "shell:") ;;
  if negb fd then ret 1 else on_ext h_stdin_thread ;; dump ;; ret 0.

(** The connection, its output, and again while [persist] is set. *)
Fixpoint shell_loop (n : nat) (f : flags) (buf : list Z) : C Z :=
  match n with
  | O => fail EFuel
  | S n =>
      fd <- connect buf ;;
      r <- (if fd : bool then dump ;; on_client k_close ;; ret 0 else ret (-1)) ;;
      if f_persist f then do_cmd (f_ttype f) (f_serial f) [bs "wait-for-device"] ;; shell_loop n f buf
      else ret r
  end.

Definition shell_command (f : flags) (args : list (list Z)) : C Z :=
  match args with
  | [] => interactive_shell
  | a :: args => buf <- append_args (snprintf BUFSZ (bs "shell:" ++ a)) args ;; shell_loop rounds f buf
  end.

(** Commands whose service is their name and an argument. *)
Definition service_command (name : list Z) (args : list (list Z)) : C Z :=
  let command :=
    if streq name (bs "reboot-bootloader") then snprintf 100 (bs "reboot:bootloader")
    else match args with
         | a :: _ => snprintf 100 (name ++ bs ":" ++ a)
         | [] => snprintf 100 (name ++ bs ":")
         end in
  fd <- connect command ;;
  if fd : bool then dump ;; on_client k_close ;; ret 0 else ret 1.

Definition forward_command (f : flags) (args : list (list Z)) : C Z :=
  match args with
  | [a; b] =>
      let spec := bs "forward:" ++ a ++ bs ";" ++ b in
      let buf := match f_serial f with
                 | Some s => snprintf BUFSZ (bs "host-serial:" ++ s ++ bs ":" ++ spec)
                 | None => match f_ttype f with
                           | kTransportUsb => snprintf BUFSZ (bs "host-usb:" ++ spec)
                           | kTransportLocal => snprintf BUFSZ (bs "host-local:" ++ spec)
                           | _ => snprintf BUFSZ (bs "host:" ++ spec)
                           end
                 end in
      ok <- on_client (adb_command buf) ;;
      ret (if ok : bool then 0 else 1)
  | _ => usage
  end.

(** *** [adb sync] *)

Definition sync_dirs_command (out : option (list Z)) (args : list (list Z)) : C Z :=
  match args with
  | _ :: _ :: _ => usage
  | _ =>
      dirs <- find_sync_dirs out (head args) ;;
      match dirs with
      | None => usage
      | Some (android, data) =>
          r <- match android with Some p => on_ext (h_sync_sync p (bs "/system")) | None => ret 0 end ;;
          match data with
          | Some p => if r =? 0 then on_ext (h_sync_sync p (bs "/data")) else ret r
          | None => ret r
          end
      end
  end.

(** *** [adb status-window], which does not return *)

Fixpoint status_window (n : nat) (command : list Z) (laststate : option (list Z)) : C Z :=
  match n with
  | O => fail EFuel
  | S n =>
      state <- on_client (adb_query command) ;;
      if bool_decide (is_Some state) && bool_decide (state = laststate) then status_window n command laststate
      else
        printf ([27] ++ bs "[2J" ++ [27] ++ bs "[2H" ++ bs "Android Debug Bridge" ++ [10] ++
                bs "State: " ++ default (bs "offline") state ++ [10]) ;;
        status_window n command (match state with Some _ => state | None => laststate end)
  end.

Definition ppp (args : list (list Z)) : C Z :=
  match args with
  | [] => ret 1
  | service :: opts =>
      fd <- connect service ;;
      if negb fd then ret 1
      else
        ok <- on_ext (h_fork_pppd opts) ;;
        if ok : bool then on_client k_close ;; ret 0 else ret 1
  end.

(** *** [adb link] *)

(** The local directory is kept the same as this one. *)
Definition LINK_RPATH : list Z := bs "/mnt/sdcard/Sync/".

(** One answer of the server is in the first bytes of [buf]; [thread] tells
    whether a watcher was started.  The result is the new [thread]. *)
Definition link_answer (dir buf : list Z) (thread : bool) : C bool :=
  thread <- (if prefixb (bs "0014") buf then
               r <- on_ext (h_link dir LINK_RPATH) ;;
               if r =? 0 then on_ext (h_watcher dir) ;; ret true else ret thread
             else ret thread) ;;
  when (prefixb (bs "0000") buf && thread) (on_ext h_cancel) ;;
  ret thread.

(** The loop over the answers: what a read returns replaces the start of [buf]. *)
Fixpoint link_loop (n : nat) (dir buf : list Z) (thread : bool) : C unit :=
  match n with
  | O => fail EFuel
  | S n =>
      r <- on_client (fun k => let '(r, i) := adb_read BUFSZ (k_in k) in Ok (r, set_conn i (k_out k) k)) ;;
      match r with
      | Got [] => ret tt
      | Failed e => if decide (e = EINTR) then link_loop n dir buf thread else ret tt
      | Got l =>
          let buf := l ++ drop (length l) buf in
          thread <- link_answer dir buf thread ;;
          link_loop n dir buf thread
      end
  end.

(** [buf] holds anything at first. *)
Definition link_command (buf : list Z) (args : list (list Z)) : C Z :=
  match args with
  | [dir] =>
      fd <- connect (bs "host:track-devices") ;;
      if negb fd then ret (-1)
      else
        c <- get ;;
        link_loop (stdin_fuel (k_in (c_client c))) dir buf false ;;
        on_client k_close ;;
        ret 0
  | _ => usage
  end.

(** *** All commands *)

Definition is_one_of (a : list Z) (names : list (list Z)) : bool := existsb (streq a) names.

(** The service a [wait-for-] command asks for. *)
Definition wait_service (name : list Z) (ttype : transport_type) : list Z :=
  if prefixb (bs "wait-for-device") name then
    match ttype with
    | kTransportUsb => bs "wait-for-usb"
    | kTransportLocal => bs "wait-for-local"
    | _ => bs "wait-for-any"
    end
  else name.

(** The value of [adb_connect] as the exit status. *)
Definition connect_status (r : connected) : Z :=
  match r with Connected => 0 | ConnectFailed => -1 | NoServer => -2 end.

(** From the label [top] on. *)
Fixpoint run_command (env : environment) (buf0 : list Z) (f : flags) (argv : list (list Z)) : C Z :=
  match argv with
  | [] => usage
  | name :: args =>
      if streq name (bs "devices") then
        print_query (bs "List of devices attached " ++ [10]) (snprintf BUFSZ (bs "host:" ++ name))
      else if is_one_of name [bs "connect"; bs "disconnect"] then
        match args with
        | [a] => print_query [] (snprintf BUFSZ (bs "host:" ++ name ++ bs ":" ++ a))
        | _ => ret 1
        end
      else if streq name (bs "emu") then adb_send_emulator_command args
      else if streq name (bs "shell") then shell_command f args
      else if streq name (bs "kill-server") then
        r <- on_client (_adb_connect (bs "host:kill")) ;;
        ret match r with ConnectFailed => 1 | _ => 0 end
      else if is_one_of name [bs "remount"; bs "reboot"; bs "reboot-bootloader"; bs "tcpip"; bs "usb"; bs "root"] then
        service_command name args
      else if streq name (bs "bugreport") then
        match args with
        | [] => do_cmd (f_ttype f) (f_serial f) [bs "shell"; bs "bugreport"] ;; ret 0
        | _ => usage
        end
      else if prefixb (bs "wait-for-") name then
        ok <- on_client (adb_command (format_host_command BUFSZ (wait_service name (f_ttype f)) (f_ttype f) (f_serial f))) ;;
        if negb ok then ret 1
        else match args with
             | [] => ret 0
             | _ => run_command env buf0 f args
             end
      else if streq name (bs "forward") then forward_command f args
      else if streq name (bs "ls") then
        match args with [a] => on_ext (h_sync_ls a) | _ => usage end
      else if streq name (bs "push") then
        match args with [a; b] => on_ext (h_sync_push a b false) | _ => usage end
      else if streq name (bs "pull") then
        match args with
        | [a] => on_ext (h_sync_pull a (bs "."))
        | [a; b] => on_ext (h_sync_pull a b)
        | _ => usage
        end
      else if streq name (bs "install") then
        match args with [] => usage | _ => install_app (f_ttype f) (f_serial f) argv end
      else if streq name (bs "uninstall") then
        match args with [] => usage | _ => uninstall_app (f_ttype f) (f_serial f) argv end
      else if streq name (bs "sync") then sync_dirs_command (f_product f) args
      else if is_one_of name [bs "get-state"; bs "get-serialno"] then
        print_query [] (format_host_command BUFSZ name (f_ttype f) (f_serial f))
      else if streq name (bs "status-window") then
        status_window rounds (format_host_command BUFSZ (bs "get-state") (f_ttype f) (f_serial f)) None
      else if is_one_of name [bs "logcat"; bs "lolcat"] then logcat env (f_ttype f) (f_serial f) args
      else if streq name (bs "ppp") then ppp args
      else if streq name (bs "start-server") then
        r <- on_client (adb_connect (bs "host:start-server")) ;; ret (connect_status r)
      else if streq name (bs "jdwp") then
        fd <- connect (bs "jdwp") ;;
        if fd : bool then dump ;; on_client k_close ;; ret 0 else ret (-1)
      else if streq name (bs "link") then link_command buf0 args
      else if is_one_of name [bs "help"; bs "/?"; bs "version"] then ret 0
      else usage
  end.

(** [adb server]: the daemon itself, or a process that runs it. *)
Definition server_command (f : flags) : C Z :=
  if f_no_daemon f || f_is_daemon f then on_ext (h_main (f_is_daemon f))
  else ok <- on_client start_server ;; ret (if ok : bool then 0 else -1).

End Commands.

(** The command line; [depth] bounds how often [do_cmd] calls it again, [rounds]
    the loops that wait for devices, [buf0] is what the array [buf] holds. *)
Fixpoint adb_commandline {X} `{!Host X} (depth rounds : nat) (env : environment) (buf0 : list Z) (argv : list (list Z)) :
    M (cmd X) Z :=
  match depth with
  | O => fail EFuel
  | S depth =>
      r <- parse_flags env argv (flags0 env) ;;
      match r with
      | None => usage
      | Some (f, rest) =>
          on_client (adb_set_transport (f_ttype f) (f_serial f)) ;;
          if (match rest with a :: _ => streq a (bs "server") | [] => false end) then server_command f
          else
            run_command (fun ttype serial args => adb_commandline depth rounds env buf0 (do_cmd_argv ttype serial args))
              rounds env buf0 f rest
      end
  end.
