(* ===== verification/ClientServer.v ===== *)
(** * The client and the server understand each other

    What adb_client.c writes is what the smart socket parses and the request
    handler expects, and what they answer is what the client reads. *)

From S2P Require Import Prelude Io Wire FdEvent EventMap World Transports Listeners HostRequest.
From S2P Require Import Sockets Server SyncServer ServerInv SocketsSafe ServerSafe Streams Requests AdbClient.

(** ** Numbers *)

Definition hex_status_ok (n : nat) : bool :=
  bool_decide (length (hex4 (Z.of_nat n)) = 4%nat) &&
  bool_decide (strtoul16 (cstr (hex4 (Z.of_nat n))) = Z.of_nat n).

Lemma hex_status_small : forallb hex_status_ok (seq 0 1025) = true.
Proof. vm_compute. reflexivity. Qed.

Lemma hex_status n :
  (n <= 1024)%nat ->
  length (hex4 (Z.of_nat n)) = 4%nat /\ strtoul16 (cstr (hex4 (Z.of_nat n))) = Z.of_nat n.
Proof.
  intros Hn. pose proof hex_status_small as H. rewrite forallb_forall in H.
  specialize (H n). rewrite in_seq in H. specialize (H ltac:(lia)).
  unfold hex_status_ok in H. apply andb_true_iff in H as [H1 H2]. by rewrite !bool_decide_eq_true in *.
Qed.

(** ** A connection without interruptions *)

Definition plain_conn (k : client) (data sent : list Z) : Prop :=
  k_in k = mkRd data [] /\ k_out k = mkWr sent [].

Lemma k_readx_plain k data rest sent len :
  plain_conn k (data ++ rest) sent -> length data = len ->
  exists k', k_readx len k = Ok (Some data, k') /\ k' = set_conn (mkRd rest []) (mkWr sent []) k.
Proof.
  intros [Hi Ho] <-. eexists. split; [|done]. unfold k_readx.
  by rewrite Hi, readx_plain, read_exact_app, Ho.
Qed.

Lemma k_writex_plain k data sent buf :
  plain_conn k data sent ->
  k_writex buf k = Ok (true, set_conn (mkRd data []) (mkWr (sent ++ buf) []) k).
Proof. intros [Hi Ho]. unfold k_writex. by rewrite Ho, writex_plain, Hi. Qed.

Lemma send_request_plain k data sent service :
  plain_conn k data sent -> (length service <= 1024)%nat ->
  send_request service k =
    Ok (true, set_conn (mkRd data []) (mkWr (sent ++ request_frame service) []) k).
Proof.
  intros Hk Hlen. destruct (hex4_spec (length service) Hlen) as [Hx _]. unfold send_request.
  replace (take 4 (snprintf 5 (hex4 (Z.of_nat (length service)))))
    with (hex4 (Z.of_nat (length service))) by (unfold snprintf; by rewrite !take_ge by (rewrite ?length_take; lia)).
  rewrite (bind_ok _ _ _ _ _ (k_writex_plain _ _ _ _ Hk)).
  rewrite (k_writex_plain _ data (sent ++ hex4 (Z.of_nat (length service)))) by done.
  unfold request_frame. rewrite app_assoc. done.
Qed.

Lemma status_okay k rest sent :
  plain_conn k (bs "OKAY" ++ rest) sent ->
  adb_status k = Ok (true, set_conn (mkRd rest []) (mkWr sent []) k).
Proof.
  intros Hk. destruct (k_readx_plain _ _ _ _ 4 Hk eq_refl) as (k' & Hr & ->).
  unfold adb_status. by rewrite (bind_ok _ _ _ _ _ Hr).
Qed.

(** ** Selecting a transport and asking for a service *)

(** The request that selects the transport is the server's own service
    "transport...", for the type and serial number the client was given. *)
Lemma switch_decoded serial type sw :
  switch_service serial type = Some sw -> (forall s, serial = Some s -> (length s <= 48)%nat) ->
  exists service, host_prefix sw = Some (service, kTransportAny, None) /\
    prefixb (bs "transport") service = true /\
    transport_request service None = (match serial with Some _ => kTransportAny | None => type end, serial).
Proof.
  unfold switch_service. intros Hsw Hlen. destruct serial as [s|].
  - injection Hsw as <-. specialize (Hlen s eq_refl). unfold snprintf.
    rewrite (take_ge (bs "host:transport:" ++ s)) by (rewrite length_app; cbn; lia).
    exists (bs "transport:" ++ s). done.
  - destruct type; simplify_eq; by eexists.
Qed.

Lemma switch_length serial type sw : switch_service serial type = Some sw -> (1 <= length sw <= 63)%nat.
Proof.
  unfold switch_service, snprintf. destruct serial as [s|].
  - intros H. assert (sw = take (64 - 1) (bs "host:transport:" ++ s)) as -> by congruence.
    rewrite length_take, length_app. change (length (bs "host:transport:")) with 15%nat. lia.
  - destruct type; intros; simplify_eq; cbn; lia.
Qed.

Lemma connect_device k service sw rest l :
  (1 <= length service <= 1024)%nat -> prefixb (bs "host") service = false ->
  switch_service (k_serial k) (k_transport k) = Some sw ->
  k_next k = Some (mkRd (bs "OKAY" ++ bs "OKAY" ++ rest) [], mkWr [] []) :: l ->
  _adb_connect service k =
    Ok (Connected, set_next l (set_conn (mkRd rest []) (mkWr (request_frame sw ++ request_frame service) []) k)).
Proof.
  intros Hlen Hhost Hsw Hnext. pose proof (switch_length _ _ _ Hsw) as Hswl.
  set (k0 := set_next l (set_conn (mkRd (bs "OKAY" ++ bs "OKAY" ++ rest) []) (mkWr [] []) k)).
  assert (k_connect k = Ok (true, k0)) as Hc.
  { unfold k_connect, bind, get, modify. by rewrite Hnext. }
  set (k1 := set_conn (mkRd (bs "OKAY" ++ rest) []) (mkWr (request_frame sw) []) k0).
  assert (switch_socket_transport k0 = Ok (true, k1)) as Hs.
  { unfold switch_socket_transport. unfold bind at 1, get. cbn [k_serial k_transport k0 set_next set_conn].
    rewrite Hsw. erewrite bind_ok by (apply (send_request_plain k0 (bs "OKAY" ++ bs "OKAY" ++ rest) []);
      [split; reflexivity|lia]).
    cbv iota beta. erewrite bind_ok by (apply (status_okay _ (bs "OKAY" ++ rest) (request_frame sw)); split; reflexivity).
    done. }
  unfold _adb_connect. rewrite (proj2 (Z.ltb_ge _ 1)), (proj2 (Z.ltb_ge 1024 _)) by lia. cbn [orb].
  rewrite (bind_ok _ _ _ _ _ Hc), Hhost. cbn [negb]. rewrite (bind_ok _ _ _ _ _ Hs). cbn [negb].
  erewrite bind_ok by (apply (send_request_plain k1 (bs "OKAY" ++ rest) (request_frame sw));
    [split; reflexivity|lia]). cbn [negb].
  erewrite bind_ok by (apply (status_okay _ rest (request_frame sw ++ request_frame service));
    split; reflexivity).
  done.
Qed.

(** ** The server's side of the selection *)

(** Two runs in states that differ elsewhere give the same result. *)
Definition same_read {A} (w w' : world) (r r' : result (A * world)) : Prop :=
  match r, r' with
  | Ok (a, v), Ok (a', v') => a = a' /\ v = w /\ v' = w'
  | Err e, Err e' => e = e'
  | _, _ => False
  end.

Lemma same_read_bind {A B} w w' (m : M world A) (k : A -> M world B) :
  same_read w w' (m w) (m w') -> (forall a, same_read w w' (k a w) (k a w')) ->
  same_read w w' (bind m k w) (bind m k w').
Proof.
  unfold same_read, bind. intros Hm Hk. destruct (m w) as [[a v]|], (m w') as [[a' v']|]; try done.
  destruct Hm as (-> & -> & ->). apply Hk.
Qed.

(** The list of transports depends on nothing but the links and the transports. *)
Lemma transports_frame w w' :
  w_tlinks w' = w_tlinks w -> w_trans w' = w_trans w -> same_read w w' (transports w) (transports w').
Proof.
  intros Hl Ht.
  assert (forall a, same_read w w' (tl_next a w) (tl_next a w')) as Hn.
  { intros a. unfold tl_next, bind, get, deref. rewrite Hl. by destruct (w_tlinks w !! a). }
  assert (forall a, same_read w w' (trans_at a w) (trans_at a w')) as Hx.
  { intros a. unfold trans_at, bind, get, deref. rewrite Ht. by destruct (w_trans w !! a). }
  unfold transports. apply same_read_bind; [apply Hn|]. intros a. unfold bind, get. rewrite Hl.
  generalize (size (w_tlinks w)). intros fuel. revert a. induction fuel as [|f IH]; intros a; cbn [tl_walk].
  all: destruct (a =? transport_list); [done|]; try done.
  repeat (apply same_read_bind; [first [apply Hx|apply Hn|apply IH]|intros ?]). done.
Qed.

Lemma acquire_run w w' ttype serial ts t :
  w_tlock w = false -> transports w = Ok (ts, w) -> acquire_pass CS_ANY ttype serial ts = Acquired t ->
  w_tlock w' = false -> w_tlinks w' = w_tlinks w -> w_trans w' = w_trans w ->
  acquire_one_transport CS_ANY ttype serial w' = Ok (inl t, w').
Proof.
  intros Hlk Hts Ha Hlk' Hl Ht. unfold acquire_one_transport, lock_transports. unfold bind at 1, bind at 1, get.
  rewrite Hlk'. unfold modify at 1.
  pose proof (transports_frame w (upd_w_tlock (fun _ => true) w') Hl Ht) as Hf. rewrite Hts in Hf.
  unfold bind at 1. destruct (transports (upd_w_tlock (fun _ => true) w')) as [[ts' v]|]; [|done]. destruct Hf as (<- & _ & ->).
  rewrite Ha. unfold unlock_transports, modify, bind, ret. by rewrite upd_tlock_id.
Qed.

(** A smart socket whose peer is the local socket of a client. *)
Definition client_pair (w : world) (s : Z) (x : asocket) (a : Z) (y : asocket) : Prop :=
  w_socks w !! s = Some x /\ s_enqueue x = smart_socket_enqueue_p /\ s_peer x = Some a /\
  w_socks w !! a = Some y /\ is_local y.

(** The transports of the server are [ts], of which the request picks [t]. *)
Definition picks (w : world) (ttype : transport_type) (serial : option (list Z)) (t : Z) : Prop :=
  w_tlock w = false /\
  exists ts, transports w = Ok (ts, w) /\ acquire_pass CS_ANY ttype serial ts = Acquired t.

(** The packet with nothing gathered. *)
Definition emptied (p : apacket) : apacket := mkPkt 0 (pk_off p) (msg p) (pk_data p).

Lemma select_run enqueue adbhost w s x a y tr type serial t q :
  client_pair w s x a y -> picks w type serial t ->
  prefixb (bs "transport") tr = true -> transport_request tr None = (type, serial) ->
  wr_script (out_of w (s_fd y)) = [] ->
  exists w1, smart_host_service enqueue adbhost s tr kTransportAny None (holding w s x [q]) = Ok (0, w1) /\
    w_socks w1 = <[s := upd_s_transport (fun _ => Some t) (upd_s_pkts (fun _ => [emptied q]) x)]> (w_socks w) /\
    wr_out (out_of w1 (s_fd y)) = wr_out (out_of w (s_fd y)) ++ bs "OKAY" /\ w_trans w1 = w_trans w.
Proof.
  intros (Hs & He & Hp & Ha & Hl) (Hlk & ts & Hts & Hpick) Htr Hreq Hscr.
  assert (a <> s) as Hne by (intros ->; unfold is_local in Hl; congruence).
  unfold smart_host_service, holding. set (x1 := upd_s_pkts (fun _ => [q]) x).
  set (w0 := upd_w_socks <[s := x1]> w).
  assert (w_socks w0 !! s = Some x1) as Hs0 by (cbn; apply lookup_insert_eq).
  assert (w_socks w0 !! a = Some y) as Ha0 by (cbn; by rewrite lookup_insert_ne).
  rewrite (bind_ok _ _ _ _ _ (sock_at_run _ _ _ Hs0)). cbn [s_peer x1 upd_s_pkts]. rewrite Hp.
  unfold bind at 1, deref, ret at 1. rewrite (bind_ok _ _ _ _ _ (sock_at_run _ _ _ Ha0)).
  set (w1 := upd_w_socks <[s := upd_s_transport (fun _ => Some t) x1]> w0).
  set (w2 := upd_w_out <[s_fd y := mkWr (wr_out (out_of w (s_fd y)) ++ bs "OKAY") []]> w1).
  assert (handle_host_request adbhost tr kTransportAny None (s_fd y) s w0 = Ok (1, w2)) as Hh.
  { unfold handle_host_request. replace (streq tr (bs "kill")) with false.
    2: { symmetry. unfold streq. apply bool_decide_eq_false. intros ->. done. }
    rewrite Htr, Hreq.
    rewrite (bind_ok _ _ _ _ _ (acquire_run w w0 type serial ts t Hlk Hts Hpick Hlk eq_refl eq_refl)).
    unfold set_sock. unfold bind at 1. rewrite (bind_ok _ _ _ _ _ (sock_at_run _ _ _ Hs0)).
    unfold modify at 1. fold w1. unfold fd_write, bind, ret. fold (out_of w1 (s_fd y)).
    change (out_of w1 (s_fd y)) with (out_of w (s_fd y)). unfold adb_write. by rewrite Hscr. }
  rewrite (bind_ok _ _ _ _ _ Hh). change (1 =? 0) with false. cbv iota. rewrite Htr.
  unfold set_sock. unfold bind at 1.
  assert (w_socks w2 !! s = Some (upd_s_transport (fun _ => Some t) x1)) as Hs2 by (cbn; apply lookup_insert_eq).
  rewrite (bind_ok _ _ _ _ _ (sock_at_run _ _ _ Hs2)). unfold modify, ret. eexists. split; [done|].
  split_and!; [|unfold out_of; cbn; by rewrite lookup_insert_eq|done].
  cbn. by rewrite !insert_insert_eq.
Qed.

(** Packets that carry a request, [last] being the one that completes it. *)
Definition carries (front : list apacket) (last : apacket) (frame : list Z) : Prop :=
  Forall gather_ok (front ++ [last]) /\ arrived (front ++ [last]) = frame /\
  (length (arrived front) < length frame)%nat.

Lemma carried_run enqueue adbhost w s x front last service :
  w_socks w !! s = Some x -> has_gathered (s_pkts x) [] -> carries front last (request_frame service) ->
  (1 <= length service <= 1024)%nat -> Forall (fun b => b <> 0) service ->
  exists pkts q,
    enqueue_packets enqueue adbhost s front w = Ok (replicate (length front) 0, holding w s x pkts) /\
    smart_socket_enqueue enqueue adbhost s last (holding w s x pkts) =
      smart_service enqueue adbhost s service (holding w s x [q]) /\ gather_ok q.
Proof.
  intros Hs Hg (Hps & Harr & Hshort) Hlen Hnul.
  destruct (hex4_spec (length service) ltac:(lia)) as [Hx _].
  destruct (request_run enqueue adbhost w s x front last service []) as (pkts & q & H1 & H2 & H3 & _);
    rewrite ?app_nil_r; try done; [|by eauto].
  unfold request_frame, MAX_PAYLOAD. rewrite length_app. lia.
Qed.

Lemma enqueue_packets_last enqueue adbhost s front last rs r w w1 w2 :
  enqueue_packets enqueue adbhost s front w = Ok (rs, w1) ->
  smart_socket_enqueue enqueue adbhost s last w1 = Ok (r, w2) ->
  enqueue_packets enqueue adbhost s (front ++ [last]) w = Ok (rs ++ [r], w2).
Proof.
  revert rs w. induction front as [|p front IH]; intros rs w; cbn [app enqueue_packets].
  - unfold ret. intros [= <- <-] E. by rewrite (bind_ok _ _ _ _ _ E).
  - unfold bind. destruct (smart_socket_enqueue enqueue adbhost s p w) as [[r0 w0]|]; [|done].
    destruct (enqueue_packets enqueue adbhost s front w0) as [[rs0 v]|] eqn:E0; [|done].
    unfold ret. intros [= <- <-] E. by rewrite (IH _ _ E0 E).
Qed.

Lemma switch_nonzero serial type sw :
  switch_service serial type = Some sw -> (forall s, serial = Some s -> Forall (fun b => b <> 0) s) ->
  Forall (fun b => b <> 0) sw.
Proof.
  unfold switch_service, snprintf. intros Hsw Hnul. destruct serial as [s|].
  - assert (sw = take (64 - 1) (bs "host:transport:" ++ s)) as -> by congruence.
    apply Forall_take, Forall_app. split; [by repeat constructor|by apply Hnul].
  - destruct type; simplify_eq; by repeat constructor.
Qed.

(** What the server makes of the two requests of a client, each in any number of
    packets: it answers OKAY to the first, the transport [t] being chosen, and
    handles the second as a request for [service] on that transport. *)
Definition serves_on (s a fd t : Z) (service : list Z) (w : world)
    (front1 : list apacket) (last1 : apacket) (front2 : list apacket) (last2 : apacket)
    (enqueue : Z -> apacket -> M world Z) (adbhost : option (list Z)) : Prop :=
  exists w1 w2 w3 x3,
    enqueue_packets enqueue adbhost s (front1 ++ [last1]) w = Ok (replicate (S (length front1)) 0, w1) /\
    wr_out (out_of w1 fd) = wr_out (out_of w fd) ++ bs "OKAY" /\
    enqueue_packets enqueue adbhost s front2 w1 = Ok (replicate (length front2) 0, w2) /\
    smart_socket_enqueue enqueue adbhost s last2 w2 = smart_open s service w3 /\
    w_socks w3 !! s = Some x3 /\ s_transport x3 = Some t /\ s_peer x3 = Some a /\
    w_trans w3 = w_trans w.

Lemma server_serves enqueue adbhost w s x a y tr sw type serial t service front1 last1 front2 last2 :
  client_pair w s x a y -> has_gathered (s_pkts x) [] -> wr_script (out_of w (s_fd y)) = [] ->
  picks w type serial t -> (1 <= length sw <= 1024)%nat -> Forall (fun b => b <> 0) sw ->
  host_prefix sw = Some (tr, kTransportAny, None) -> prefixb (bs "transport") tr = true ->
  transport_request tr None = (type, serial) ->
  (1 <= length service <= 1024)%nat -> Forall (fun b => b <> 0) service -> host_prefix service = None ->
  carries front1 last1 (request_frame sw) -> carries front2 last2 (request_frame service) ->
  serves_on s a (s_fd y) t service w front1 last1 front2 last2 enqueue adbhost.
Proof.
  intros Hpair Hg Hscr Hpick Hswl Hswn Hpre Htr Hreq Hlen Hnul Hnone Hc1 Hc2.
  pose proof Hpair as (Hs & He & Hp & Ha & Hl).
  destruct (carried_run enqueue adbhost w s x front1 last1 sw) as (pkts & q & E1 & E2 & Hq); try done.
  destruct (select_run enqueue adbhost w s x a y tr type serial t q) as (w1 & E3 & Hk1 & Ho1 & Ht1); try done.
  unfold smart_service in E2. rewrite Hpre, E3 in E2.
  set (x1 := upd_s_transport (fun _ => Some t) (upd_s_pkts (fun _ => [emptied q]) x)) in *.
  assert (w_socks w1 !! s = Some x1) as Hs1 by (by rewrite Hk1, lookup_insert_eq).
  destruct (carried_run enqueue adbhost w1 s x1 front2 last2 service) as (pkts2 & q2 & F1 & F2 & _); try done.
  { right. exists (emptied q). split_and!; [done| |done]. destruct Hq as [_ Hq]. by split; cbn. }
  unfold smart_service in F2. rewrite Hnone in F2.
  exists w1, (holding w1 s x1 pkts2), (holding w1 s x1 [q2]), (upd_s_pkts (fun _ => [q2]) x1).
  split_and!; try done; [|cbn; apply lookup_insert_eq].
  rewrite (enqueue_packets_last _ _ _ _ _ _ _ _ _ _ E1 E2). by rewrite replicate_S_end.
Qed.

Lemma not_host service : prefixb (bs "host") service = false -> host_prefix service = None.
Proof.
  intros H. assert (forall l, prefixb (bs "host" ++ l) service = false) as Hl.
  { intros l. apply not_true_iff_false. intros (t & ->)%prefixb_spec.
    rewrite <- app_assoc, prefixb_app in H. done. }
  unfold host_prefix.
  replace (prefixb (bs "host-serial:") service) with false by (symmetry; exact (Hl (bs "-serial:"))).
  replace (prefixb (bs "host-usb:") service) with false by (symmetry; exact (Hl (bs "-usb:"))).
  replace (prefixb (bs "host-local:") service) with false by (symmetry; exact (Hl (bs "-local:"))).
  by replace (prefixb (bs "host:") service) with false by (symmetry; exact (Hl (bs ":"))).
Qed.

(** C19: a client's request reaches the service it asked for, on the transport it
    chose.  For a service of a device with a name of 1 to 1024 bytes, and with a
    serial number, if one is given, of at most 48 bytes, [_adb_connect] writes two
    requests; with OKAY for both it is connected and leaves the rest of the stream
    unread.  The server, when a smart socket receives these requests in any
    number of packets each, and the given type and serial number pick the
    transport [t] of its list, answers OKAY to the first and handles the second
    as a request for exactly this service on [t]. *)
Theorem client_selects_transport k service sw rest l :
  (1 <= length service <= 1024)%nat -> Forall (fun b => b <> 0) service ->
  prefixb (bs "host") service = false ->
  switch_service (k_serial k) (k_transport k) = Some sw ->
  (forall s, k_serial k = Some s -> (length s <= 48)%nat /\ Forall (fun b => b <> 0) s) ->
  k_next k = Some (mkRd (bs "OKAY" ++ bs "OKAY" ++ rest) [], mkWr [] []) :: l ->
  (exists k', _adb_connect service k = Ok (Connected, k') /\
     wr_out (k_out k') = request_frame sw ++ request_frame service /\
     rd_data (k_in k') = rest /\ k_next k' = l) /\
  forall enqueue adbhost w s x a y t front1 last1 front2 last2,
    client_pair w s x a y -> has_gathered (s_pkts x) [] -> wr_script (out_of w (s_fd y)) = [] ->
    picks w (match k_serial k with Some _ => kTransportAny | None => k_transport k end) (k_serial k) t ->
    carries front1 last1 (request_frame sw) -> carries front2 last2 (request_frame service) ->
    serves_on s a (s_fd y) t service w front1 last1 front2 last2 enqueue adbhost.
Proof.
  intros Hlen Hnul Hhost Hsw Hser Hnext. split.
  - eexists. split; [by apply connect_device|]. by split_and!.
  - intros enqueue adbhost w s x a y t front1 last1 front2 last2 Hpair Hg Hscr Hpick Hc1 Hc2.
    destruct (switch_decoded _ _ _ Hsw) as (tr & H1 & H2 & H3); [by intros ? [? _]%Hser|].
    eapply (server_serves enqueue adbhost w s x a y tr sw); try done; [| |by apply not_host].
    + pose proof (switch_length _ _ _ Hsw). lia.
    + apply (switch_nonzero _ _ _ Hsw). by intros ? [_ ?]%Hser.
Qed.

(** ** Failure messages *)

(** The reason of a failure arrives.  What the server writes with
    [sendfailmsg] is read by [adb_status] as a failure with that reason, up to
    the 255 bytes the client keeps. *)
Theorem failure_reason_arrives k reason rest sent o :
  (length reason <= 255)%nat -> Forall (fun b => b <> 0) reason ->
  sendfailmsg reason (mkWr [] []) = Ok (true, o) -> plain_conn k (wr_out o ++ rest) sent ->
  exists k', adb_status k = Ok (false, k') /\ k_error k' = reason /\ rd_data (k_in k') = rest.
Proof.
  intros Hlen Hnul Ho Hk. destruct (hex_status (length reason) ltac:(lia)) as [Hx1 Hx2].
  assert (wr_out o = bs "FAIL" ++ hex4 (Z.of_nat (length reason)) ++ reason) as Hout.
  { unfold sendfailmsg in Ho. rewrite Nat.min_l in Ho by lia.
    unfold bind in Ho. rewrite writex_plain, writex_plain in Ho.
    apply (f_equal (fun r => match r with Ok (_, o) => wr_out o | Err _ => [] end)) in Ho.
    rewrite <- Ho. cbv beta iota delta [wr_out]. rewrite app_nil_l.
    rewrite (take_ge reason) by lia. unfold snprintf. rewrite take_take.
    rewrite (take_ge (bs "FAIL" ++ _)) by (rewrite length_app, Hx1; cbn; lia). by rewrite <- app_assoc. }
  rewrite Hout, <- !app_assoc in Hk.
  destruct (k_readx_plain _ _ _ _ 4 Hk eq_refl) as (k1 & Hr1 & ->).
  edestruct (k_readx_plain (set_conn (mkRd (hex4 (Z.of_nat (length reason)) ++ reason ++ rest) []) (mkWr sent []) k)
    (hex4 (Z.of_nat (length reason))) (reason ++ rest) sent 4) as (k2 & Hr2 & ->); [done|done|].
  edestruct (k_readx_plain (set_conn (mkRd (reason ++ rest) []) (mkWr sent []) k)
    reason rest sent (length reason)) as (k3 & Hr3 & ->); [done|done|].
  eexists. unfold adb_status. rewrite (bind_ok _ _ _ _ _ Hr1). cbn [streq].
  replace (streq (bs "FAIL") (bs "OKAY")) with false by done.
  replace (streq (bs "FAIL") (bs "FAIL")) with true by done. cbn [negb].
  rewrite (bind_ok _ _ _ _ _ Hr2), Hx2, Z.min_l, Nat2Z.id by lia.
  cbn [set_conn k_in k_out k_transport k_serial k_error k_next k_done k_launch] in Hr3 |- *.
  rewrite (bind_ok _ _ _ _ _ Hr3). unfold fail_with, bind, modify, ret. rewrite cstr_id by done.
  split; [done|]. done.
Qed.

(** ** The version check *)

Lemma connect_host k service rest l :
  (1 <= length service <= 1024)%nat -> prefixb (bs "host") service = true ->
  k_next k = Some (mkRd (bs "OKAY" ++ rest) [], mkWr [] []) :: l ->
  _adb_connect service k =
    Ok (Connected, set_next l (set_conn (mkRd rest []) (mkWr (request_frame service) []) k)).
Proof.
  intros Hlen Hhost Hnext.
  set (k0 := set_next l (set_conn (mkRd (bs "OKAY" ++ rest) []) (mkWr [] []) k)).
  assert (k_connect k = Ok (true, k0)) as Hc by (unfold k_connect, bind, get, modify; by rewrite Hnext).
  unfold _adb_connect. rewrite (proj2 (Z.ltb_ge _ 1)), (proj2 (Z.ltb_ge 1024 _)) by lia. cbn [orb].
  rewrite (bind_ok _ _ _ _ _ Hc), Hhost. cbn [negb]. unfold bind at 1, ret at 1. cbn [negb].
  erewrite bind_ok by (apply (send_request_plain k0 (bs "OKAY" ++ rest) []); [split; reflexivity|lia]).
  cbn [negb].
  erewrite bind_ok by (apply (status_okay _ rest (request_frame service)); split; reflexivity).
  done.
Qed.

(** The client after a connection on which [sent] was written was closed. *)
Definition closed (sent : list Z) (k : client) : client :=
  mkClient (k_transport k) (k_serial k) (k_error k) (mkRd [] []) (mkWr [] []) (k_next k) (k_done k ++ [sent]) (k_launch k).

Lemma read_version_ok k sent :
  plain_conn k (bs "0004" ++ hex4 ADB_SERVER_VERSION) sent ->
  read_version k = Ok (Some ADB_SERVER_VERSION, closed sent k).
Proof.
  intros Hk. destruct (k_readx_plain _ (bs "0004") (hex4 ADB_SERVER_VERSION) _ 4 Hk eq_refl) as (k1 & Hr1 & ->).
  destruct (k_readx_plain (set_conn (mkRd (hex4 ADB_SERVER_VERSION) []) (mkWr sent []) k)
    (hex4 ADB_SERVER_VERSION) [] sent 4) as (k2 & Hr2 & ->); [by rewrite app_nil_r|done|].
  unfold read_version. rewrite (bind_ok _ _ _ _ _ Hr1).
  replace (s32 (strtoul16 (cstr (bs "0004")))) with 4 by done. cbv zeta.
  replace (100 <? 4) with false by done. cbv iota.
  replace (k_readx_into 100 (Z.to_nat (u32 4))) with (k_readx 4) by done.
  rewrite (bind_ok _ _ _ _ _ Hr2).
  unfold bind, k_close at 1, modify. by vm_compute.
Qed.

(** A connection to a server of the client's version. *)
Definition version_conn : option (rdfd * wrfd) := Some (mkRd (okay_message (hex4 ADB_SERVER_VERSION)) [], mkWr [] []).

Lemma adb_connect_checked k service l :
  service <> bs "host:start-server" -> k_next k = version_conn :: l ->
  adb_connect service k = _adb_connect service (closed (request_frame (bs "host:version")) (set_next l k)).
Proof.
  intros Hne Hnext. unfold version_conn in Hnext.
  replace (okay_message (hex4 ADB_SERVER_VERSION)) with (bs "OKAY" ++ bs "0004" ++ hex4 ADB_SERVER_VERSION)
    in Hnext by done.
  unfold adb_connect. erewrite bind_ok by (eapply connect_host; [cbn; lia|done|exact Hnext]).
  cbv iota beta. erewrite bind_ok by (apply read_version_ok; by split). unfold connect_checked. rewrite Z.eqb_refl. cbn [negb].
  unfold connect_service, streq. by rewrite bool_decide_false.
Qed.

(** Client and server of one version work together.  The server's answer to
    "host:version" is read by [adb_connect] as the client's own version, so it
    neither kills nor starts a server, and goes on to ask for the service. *)
Theorem version_is_accepted k service rest l :
  (1 <= length service <= 1024)%nat -> prefixb (bs "host") service = true ->
  service <> bs "host:start-server" ->
  k_next k = Some (mkRd (okay_message (hex4 ADB_SERVER_VERSION)) [], mkWr [] [])
             :: Some (mkRd (bs "OKAY" ++ rest) [], mkWr [] []) :: l ->
  exists k', adb_connect service k = Ok (Connected, k') /\
    k_done k' = k_done k ++ [request_frame (bs "host:version")] /\
    wr_out (k_out k') = request_frame service /\ rd_data (k_in k') = rest.
Proof.
  intros Hlen Hhost Hne Hnext.
  rewrite (adb_connect_checked _ _ _ Hne Hnext). eexists. split; [by apply connect_host|]. by split_and!.
Qed.
