(* ===== verification/CommandFacts.v ===== *)
(** * What the command line does

    Flags survive being passed on; arguments reach the programs of the device
    unchanged through the quoting; [adb install] and [adb link] run against the
    client's side of the server protocol. *)

From S2P Require Import Prelude Io World HostRequest Transports Requests AdbClient ClientServer Shell ShellFacts CommandLine.

(** ** Quoting *)

(** The characters the device's shell takes for something else when they are
    neither quoted nor escaped; a space ends a word. *)
Definition special (c : Z) : bool :=
  bool_decide (c ∈ [9; 10; 34; 40; 41] ++ bs "'$`;&|<>*?[]#~=%!{}").

(** The words of a command line by the rules of the shell, a backslash taking the
    next character as it is; [None] when the shell would do more than that.
    [cur] is the word begun. *)
Fixpoint sh_split (s : list Z) (cur : option (list Z)) : option (list (list Z)) :=
  match s with
  | [] => Some (option_list cur)
  | c :: s =>
      if c =? 92 then
        match s with
        | d :: s => sh_split s (Some (default [] cur ++ [d]))
        | [] => None
        end
      else if c =? 32 then app (option_list cur) <$> sh_split s None
      else if special c then None
      else sh_split s (Some (default [] cur ++ [c]))
  end.

Definition sh_words (s : list Z) : option (list (list Z)) := sh_split s None.

(** Arguments whose special characters are all quoted by [dupAndQuote]. *)
Definition quotable (a : list Z) : Prop :=
  a <> [] /\ forallb (fun c => needs_quote c || negb (special c)) a = true.

Lemma split_quoted a : forall rest cur,
  forallb (fun c => needs_quote c || negb (special c)) a = true ->
  sh_split (dupAndQuote a ++ rest) cur = sh_split rest (match a with [] => cur | _ => Some (default [] cur ++ a) end).
Proof.
  induction a as [|c a IH]; intros rest cur HF; [done|]. cbn [forallb] in HF. apply andb_true_iff in HF as [Hc HF]. cbn [dupAndQuote].
  assert (sh_split ((if needs_quote c then [92; c] else [c]) ++ dupAndQuote a ++ rest) cur =
    sh_split (dupAndQuote a ++ rest) (Some (default [] cur ++ [c]))) as E.
  { destruct (needs_quote c) eqn:Eq; cbn [app sh_split]; [done|]. cbn [orb] in Hc. apply negb_true_iff in Hc. unfold needs_quote in Eq. bools.
    rewrite (proj2 (Z.eqb_neq c 92)), (proj2 (Z.eqb_neq c 32)) by done. by rewrite Hc. }
  rewrite <- app_assoc, E, (IH _ _ HF). destruct a; cbn; [done|]. by rewrite <- app_assoc.
Qed.

(** The text that [append_quoted] adds. *)
Definition quoted_args (args : list (list Z)) : list Z := concat (map (fun a => 32 :: dupAndQuote a) args).

Lemma split_args args : forall w,
  Forall quotable args -> sh_split (quoted_args args) (Some w) = Some (w :: args).
Proof.
  unfold quoted_args. induction args as [|a args IH]; intros w HF; [done|]. apply list.Forall_cons in HF as [[Ha Hq] HF].
  cbn [map concat app sh_split]. change (32 =? 92) with false. cbn iota. change (32 =? 32) with true. cbn iota.
  rewrite (split_quoted _ _ _ Hq). destruct a as [|c a]; [done|]. cbn [default app]. rewrite (IH _ HF). done.
Qed.

Lemma append_quoted_ok {W} args : forall buf (w : W),
  (length (buf ++ quoted_args args) < BUFSZ)%nat -> append_quoted buf args w = Ok (buf ++ quoted_args args, w).
Proof.
  unfold quoted_args. induction args as [|a args IH]; intros buf w Hlen; [cbn; by rewrite app_nil_r|].
  cbn [map concat append_quoted] in *. rewrite !length_app in Hlen. cbn [length] in Hlen. rewrite ?length_app in Hlen.
  unfold strncat, strcat, strcpy. rewrite (take_ge (bs " ")) by (unfold BUFSZ; cbn; lia).
  unfold bind at 1. rewrite (proj2 (Nat.ltb_lt _ _)) by (rewrite length_app; cbn; lia). cbn [ret].
  rewrite (take_ge (dupAndQuote a)) by lia. unfold bind at 1.
  rewrite (proj2 (Nat.ltb_lt _ _)) by (rewrite !length_app; cbn; lia). cbn [ret].
  change (concat (map (fun a0 => 32 :: dupAndQuote a0) args)) with (quoted_args args) in *.
  rewrite IH; [|unfold quoted_args in *; rewrite !length_app; cbn; lia]. do 2 f_equal. by rewrite <- !app_assoc.
Qed.

Lemma pm_words args : Forall quotable args -> sh_words (drop 6 (bs "shell:pm" ++ quoted_args args)) = Some (bs "pm" :: args).
Proof. exact (split_args args (bs "pm")). Qed.

Lemma rm_words a : quotable a -> sh_words (drop 6 (bs "shell:rm " ++ dupAndQuote a)) = Some [bs "rm"; a].
Proof.
  intros [Hne Hq]. change (app [bs "rm"] <$> sh_split (dupAndQuote a) None = Some [bs "rm"; a]).
  rewrite <- (app_nil_r (dupAndQuote a)), (split_quoted _ _ _ Hq). by destruct a.
Qed.

(** The arguments of [pm] (and of [logcat]) arrive: whatever spaces, quotation
    marks, backslashes and parentheses they contain, the command that is built
    fits its buffer and the shell of the device splits it into the same
    arguments. *)
Theorem pm_arguments_arrive {W} (argv : list (list Z)) (w : W) :
  Forall quotable argv -> (length (quoted_args argv) < 4088)%nat ->
  exists buf, append_quoted (bs "shell:pm") argv w = Ok (buf, w) /\ sh_words (drop 6 buf) = Some (bs "pm" :: argv).
Proof.
  intros HF Hlen. eexists. split; [apply append_quoted_ok; rewrite length_app; unfold BUFSZ; cbn; lia|].
  by apply pm_words.
Qed.

Lemma pm_arguments_arrive_witness :
  exists buf, append_quoted (bs "shell:pm") [bs "install"; bs "/sdcard/tmp/My App (1).apk"] tt = Ok (buf, tt) /\
    sh_words (drop 6 buf) = Some [bs "pm"; bs "install"; bs "/sdcard/tmp/My App (1).apk"].
Proof.
  apply (pm_arguments_arrive [bs "install"; bs "/sdcard/tmp/My App (1).apk"] tt).
  - repeat constructor; done.
  - vm_compute. lia.
Defined.

(** ** Flags *)

(** A word that is not taken for a flag or a modifier. *)
Definition no_flag (a : list Z) : bool :=
  negb (existsb (streq a) [bs "nodaemon"; bs "fork-server"; bs "persist"; bs "-d"; bs "-e"] || prefixb (bs "-p") a || prefixb (bs "-s") a).

Lemma parse_stop {W} env a rest f (w : W) : no_flag a = true -> parse_flags env (a :: rest) f w = Ok (Some (f, a :: rest), w).
Proof.
  unfold no_flag. intros H. apply negb_true_iff in H. cbn [existsb] in H. rewrite !orb_false_iff in H.
  destruct H as (((H1 & H2 & H3 & H4 & H5 & _) & H6) & H7). cbn [parse_flags]. by rewrite H1, H2, H3, H6, H7, H4, H5.
Qed.

(** The flags a command line runs with. *)
Definition chosen (env : environment) (ttype : transport_type) (serial : option (list Z)) (f : flags) : Prop :=
  f_serial f = match serial with Some s => Some s | None => getenv env (bs "ANDROID_SERIAL") end /\
  f_ttype f = match serial, ttype with
              | None, kTransportUsb => kTransportUsb
              | None, kTransportLocal => kTransportLocal
              | _, _ => kTransportAny
              end /\
  f_persist f = false /\ f_no_daemon f = false /\ f_is_daemon f = false.

(** What [do_cmd] passes on is read as the choice it was given. *)
Lemma parse_do_cmd {W} env ttype serial a rest (w : W) :
  no_flag a = true ->
  exists f, parse_flags env (do_cmd_argv ttype serial (a :: rest)) (flags0 env) w = Ok (Some (f, a :: rest), w) /\
    chosen env ttype serial f.
Proof.
  intros Ha. unfold do_cmd_argv. destruct serial as [s|].
  { cbn [app parse_flags]. eexists. split; [by apply parse_stop|]. done. }
  destruct ttype; cbn [app]; (eexists; split; [by apply parse_stop || (cbn [parse_flags]; by apply parse_stop)|]); done.
Qed.

(** The request for a transport a command line makes. *)
Definition selected (env : environment) (ttype : transport_type) (serial : option (list Z)) (sw : list Z) : Prop :=
  switch_service (match serial with Some s => Some s | None => getenv env (bs "ANDROID_SERIAL") end)
    (match serial, ttype with
     | None, kTransportUsb => kTransportUsb
     | None, kTransportLocal => kTransportLocal
     | _, _ => kTransportAny
     end) = Some sw.

(** Evaluates the tests of the dispatch on a given command. *)
Ltac words :=
  repeat match goal with
  | |- context [if ?b then _ else _] =>
      let v := eval vm_compute in b in
      lazymatch v with
      | true => change b with true
      | false => change b with false
      end; cbv iota
  end.

(** ** Commands of the shell, with the server *)

(** A connection on which the server accepts the transport and the service and
    sends [text]. *)
Definition service_conn (text : list Z) : option (rdfd * wrfd) := Some (mkRd (bs "OKAY" ++ bs "OKAY" ++ text) [], mkWr [] []).

Lemma dump_plain fuel data acc : (length data < fuel)%nat -> dump_loop fuel acc (mkRd data []) = Ok (acc ++ data, mkRd [] []).
Proof.
  revert data acc. induction fuel as [|fuel IH]; intros data acc Hf; [lia|]. cbn [dump_loop]. unfold adb_read. cbn [rd_script rd_data].
  destruct data as [|b data]; [by rewrite take_nil, drop_nil, app_nil_r|].
  assert (exists n, 4096 = S n)%nat as [n ->] by (exists 4095%nat; lia). cbn [take drop].
  rewrite IH; [|rewrite length_drop; cbn in Hf |- *; lia]. by rewrite <- app_assoc, <- app_comm_cons, take_drop.
Qed.

Section Session.
Context {X : Type} `{!Host X}.

(** The state after a command of the shell: the version check and the command
    are done, its output is printed. *)
Definition after_shell (sw service text : list Z) (l : list (option (rdfd * wrfd))) (c : cmd X) : cmd X :=
  mkCmd (closed (request_frame sw ++ request_frame service) (closed (request_frame (bs "host:version")) (set_next l (c_client c))))
    (c_out c ++ text) (c_ext c).

Lemma connect_shell (sw service text : list Z) l (c : cmd X) :
  (1 <= length service <= 1024)%nat -> prefixb (bs "host") service = false ->
  switch_service (k_serial (c_client c)) (k_transport (c_client c)) = Some sw ->
  k_next (c_client c) = version_conn :: service_conn text :: l ->
  connect service c = Ok (true, mkCmd (set_next l (set_conn (mkRd text []) (mkWr (request_frame sw ++ request_frame service) [])
      (closed (request_frame (bs "host:version")) (set_next (service_conn text :: l) (c_client c))))) (c_out c) (c_ext c)).
Proof.
  intros Hlen Hh Hsw Hn. unfold connect, on_client, bind.
  rewrite (adb_connect_checked _ _ (service_conn text :: l)); [|by intros ->|done].
  erewrite connect_device; [|done|done|done|done]. done.
Qed.

Lemma dump_ok text (c : cmd X) :
  k_in (c_client c) = mkRd text [] ->
  dump c = Ok (tt, mkCmd (set_conn (mkRd [] []) (k_out (c_client c)) (c_client c)) (c_out c ++ text) (c_ext c)).
Proof.
  intros Hi. unfold dump, on_client, bind. unfold read_and_dump. rewrite Hi.
  rewrite dump_plain by (unfold stdin_fuel; cbn; lia). done.
Qed.

Lemma send_shellcommand_ok do_cmd rounds ttype serial sw service text l (c : cmd X) :
  (0 < rounds)%nat -> (1 <= length service <= 1024)%nat -> prefixb (bs "host") service = false ->
  switch_service (k_serial (c_client c)) (k_transport (c_client c)) = Some sw ->
  k_next (c_client c) = version_conn :: service_conn text :: l ->
  send_shellcommand do_cmd rounds ttype serial service c = Ok (0, after_shell sw service text l c).
Proof.
  intros Hr Hlen Hh Hsw Hn. unfold send_shellcommand. destruct rounds as [|n]; [lia|]. cbn [connect_waiting].
  erewrite bind_ok by (erewrite bind_ok by (by apply connect_shell); done).
  erewrite bind_ok by (by apply dump_ok). done.
Qed.

Lemma pm_command_ok do_cmd rounds ttype serial sw argv text l (c : cmd X) :
  (0 < rounds)%nat -> (length (bs "shell:pm" ++ quoted_args argv) <= 1024)%nat ->
  switch_service (k_serial (c_client c)) (k_transport (c_client c)) = Some sw ->
  k_next (c_client c) = version_conn :: service_conn text :: l ->
  pm_command do_cmd rounds ttype serial argv c = Ok (0, after_shell sw (bs "shell:pm" ++ quoted_args argv) text l c).
Proof.
  intros Hr Hlen Hsw Hn. unfold pm_command. change (snprintf BUFSZ (bs "shell:pm")) with (bs "shell:pm").
  erewrite bind_ok by (apply append_quoted_ok; unfold BUFSZ; lia).
  erewrite bind_ok; [done|]. apply send_shellcommand_ok; try done. rewrite length_app in *. cbn in *. lia.
Qed.

Lemma delete_file_ok do_cmd rounds ttype serial sw name text l (c : cmd X) :
  (0 < rounds)%nat -> (length (bs "shell:rm " ++ dupAndQuote name) <= 1024)%nat ->
  switch_service (k_serial (c_client c)) (k_transport (c_client c)) = Some sw ->
  k_next (c_client c) = version_conn :: service_conn text :: l ->
  delete_file do_cmd rounds ttype serial name c = Ok (0, after_shell sw (bs "shell:rm " ++ dupAndQuote name) text l c).
Proof.
  intros Hr Hlen Hsw Hn. unfold delete_file. change (snprintf BUFSZ (bs "shell:rm ")) with (bs "shell:rm ").
  pose proof Hlen as Hlen'. rewrite length_app in Hlen'. cbn [length bs] in Hlen'.
  unfold strncat, strcat, strcpy. rewrite (take_ge (dupAndQuote name)) by (unfold BUFSZ; lia).
  unfold bind at 1. rewrite (proj2 (Nat.ltb_lt _ _)) by (unfold BUFSZ; lia). cbn [ret].
  erewrite bind_ok; [done|]. apply send_shellcommand_ok; try done. rewrite length_app in *. cbn in *. lia.
Qed.

Lemma install_app_ok do_cmd rounds ttype serial sw opts dir name mode t1 t2 l (c : cmd X) x1 x2 :
  let file := dir ++ 47 :: name in
  let argv := bs "install" :: opts ++ [file] in
  let to := install_dest argv name in
  let pm := bs "shell:pm" ++ quoted_args (bs "install" :: opts ++ [to]) in
  let rm := bs "shell:rm " ++ dupAndQuote to in
  (0 < rounds)%nat -> Forall (fun b => b <> 47) name -> (length pm <= 1024)%nat -> (length rm <= 1024)%nat ->
  switch_service (k_serial (c_client c)) (k_transport (c_client c)) = Some sw ->
  k_next (c_client c) = version_conn :: service_conn t1 :: version_conn :: service_conn t2 :: l ->
  h_stat file (c_ext c) = Ok (Some mode, x1) -> S_ISREG mode = true -> h_sync_push file to true x1 = Ok (0, x2) ->
  install_app do_cmd rounds ttype serial argv c =
    Ok (0, after_shell sw rm t2 l (after_shell sw pm t1 (version_conn :: service_conn t2 :: l) (mkCmd (c_client c) (c_out c) x2))).
Proof.
  cbv zeta. set (file := dir ++ 47 :: name). set (argv := bs "install" :: opts ++ [file]). set (to := install_dest argv name).
  intros Hr Hn Hpm Hrm Hsw Hnext Hst Hreg Hpush. unfold install_app.
  assert (list.last argv = Some file) as -> by (subst argv; rewrite app_comm_cons; apply last_snoc).
  cbn [deref bind ret]. assert (adb_dirstop file = Some (dir, name)) as -> by (by apply strrchr_app). cbn [deref bind ret snd]. fold to.
  assert (on_ext (h_stat file) c = Ok (Some mode, mkCmd (c_client c) (c_out c) x1)) as E1 by (unfold on_ext; by rewrite Hst).
  rewrite (bind_ok _ _ _ _ _ E1), Hreg. cbn [negb].
  assert (on_ext (h_sync_push file to true) (mkCmd (c_client c) (c_out c) x1) = Ok (0, mkCmd (c_client c) (c_out c) x2)) as E2
    by (unfold on_ext; cbn [c_ext]; by rewrite Hpush).
  rewrite (bind_ok _ _ _ _ _ E2), Z.eqb_refl.
  assert (take (length argv - 1) argv = bs "install" :: opts) as ->.
  { subst argv. rewrite app_comm_cons. apply take_app_length'. rewrite length_app. cbn. lia. }
  rewrite <- app_comm_cons. erewrite bind_ok by (by apply pm_command_ok).
  erewrite bind_ok by (by apply delete_file_ok). done.
Qed.

End Session.

Lemma run_install {X} `{!Host X} do_cmd rounds env buf0 f opts file :
  run_command (X := X) do_cmd rounds env buf0 f (bs "install" :: opts ++ [file]) =
  install_app do_cmd rounds (f_ttype f) (f_serial f) (bs "install" :: opts ++ [file]).
Proof. cbn [run_command]. words. by destruct opts. Qed.

Lemma strrchr_absent b l : Forall (fun c => c <> b) l -> strrchr b l = None.
Proof. intros H. induction H as [|c l Hc H IH]; cbn; [done|]. by rewrite IH, (proj2 (Z.eqb_neq _ _) Hc). Qed.


(** ** [adb link] and the list of devices *)

(** What the server's lists make [adb link] do: the text of each list, without its
    length. *)
Section Linking.
Context {X : Type} `{!Host X}.

Definition link_text (dir text : list Z) (thread : bool) : M X bool :=
  if decide (length text = 20%nat) then
    r <- h_link dir LINK_RPATH ;;
    if r =? 0 then h_watcher dir ;; ret true else ret thread
  else if decide (length text = 0%nat) then when thread h_cancel ;; ret thread
  else ret thread.

Fixpoint link_texts (dir : list Z) (texts : list (list Z)) (thread : bool) : M X unit :=
  match texts with
  | [] => ret tt
  | text :: texts => thread <- link_text dir text thread ;; link_texts dir texts thread
  end.

(** The message of [list_transports_msg]. *)
Definition list_message (text : list Z) : list Z := hex4 (Z.of_nat (length text)) ++ text.

Definition hex4_is (n : nat) : bool :=
  bool_decide (length (hex4 (Z.of_nat n)) = 4%nat) &&
  eqb (prefixb (bs "0014") (hex4 (Z.of_nat n))) (n =? 20)%nat && eqb (prefixb (bs "0000") (hex4 (Z.of_nat n))) (n =? 0)%nat.

Lemma hex4_all : forallb hex4_is (seq 0 1025) = true.
Proof. by vm_compute. Qed.

(** What the first four bytes of the buffer are after each read; an empty read is
    an interrupted one. *)
Fixpoint heads (buf : list Z) (reads : list (list Z)) : list (list Z) :=
  match reads with
  | [] => []
  | [] :: reads => heads buf reads
  | l :: reads => let buf := l ++ drop (length l) buf in take 4 buf :: heads buf reads
  end.

(** What the command does on them. *)
Definition link_head (dir head : list Z) (thread : bool) : M X bool :=
  if streq head (bs "0014") then
    r <- h_link dir LINK_RPATH ;; if r =? 0 then h_watcher dir ;; ret true else ret thread
  else if streq head (bs "0000") then when thread h_cancel ;; ret thread
  else ret thread.

Fixpoint link_heads (dir : list Z) (hs : list (list Z)) (thread : bool) : M X unit :=
  match hs with
  | [] => ret tt
  | h :: hs => thread <- link_head dir h thread ;; link_heads dir hs thread
  end.

Lemma prefixb_take p b : prefixb p b = streq (take (length p) b) p.
Proof.
  unfold streq. revert b. induction p as [|c p IH]; intros b; cbn; [by destruct b|]. destruct b as [|d b]; [done|].
  rewrite IH. destruct (Z.eqb_spec c d) as [->|Hne]; cbn; repeat case_bool_decide; congruence.
Qed.

Lemma link_answer_head dir buf thread (c : cmd X) :
  link_answer dir buf thread c = on_ext (link_head dir (take 4 buf) thread) c.
Proof.
  unfold link_answer, link_head. rewrite !prefixb_take. cbn [length bs]. change (length (bs "0014")) with 4%nat. change (length (bs "0000")) with 4%nat.
  destruct (streq (take 4 buf) (bs "0014")) eqn:E1.
  - apply bool_decide_eq_true in E1. rewrite E1. change (streq (bs "0014") (bs "0000")) with false. cbn [andb when].
    unfold on_ext, bind.
    destruct (h_link dir LINK_RPATH (c_ext c)) as [[r x]|]; [|done]. destruct (r =? 0); [|done]. cbn [c_ext c_client c_out].
    by destruct (h_watcher dir x) as [[[] x']|].
  - destruct (streq (take 4 buf) (bs "0000")), thread; unfold on_ext, bind, when; cbn [andb]; unfold ret; try by destruct c.
    by destruct (h_cancel (c_ext c)) as [[[] x]|].
Qed.

(** The loop, whatever the reads return. *)
Lemma link_loop_ok dir reads : forall n buf thread (c : cmd X),
  Forall (fun l => (length l <= BUFSZ)%nat) reads -> (length reads < n)%nat ->
  k_in (c_client c) = keyboard reads ->
  link_loop n dir buf thread c =
    match link_heads dir (heads buf reads) thread (c_ext c) with
    | Ok (_, x) => Ok (tt, mkCmd (set_conn (mkRd [] []) (k_out (c_client c)) (c_client c)) (c_out c) x)
    | Err e => Err e
    end.
Proof.
  induction reads as [|l reads IH]; intros n buf thread c HF Hn Hin; (destruct n as [|n]; [cbn in Hn; lia|]); cbn [link_loop heads].
  { unfold on_client, bind. rewrite Hin. done. }
  apply list.Forall_cons in HF as [Hl HF]. unfold on_client. unfold bind at 1. rewrite Hin, read_keyboard by done.
  destruct l as [|b m]; [rewrite decide_True by done; rewrite IH; [done|done|cbn in Hn; lia|done]|].
  set (c1 := mkCmd _ (c_out c) (c_ext c)). set (buf' := (b :: m) ++ _). cbn [link_heads].
  unfold bind at 1. rewrite link_answer_head. unfold on_ext, bind. cbn [c_ext c1 c_client c_out].
  destruct (link_head dir (take 4 buf') thread (c_ext c)) as [[th x]|]; [|done].
  rewrite IH; [|done|cbn in Hn; lia|done]. done.
Qed.

(** Reads that return whole messages. *)
Lemma message_heads texts : forall buf,
  Forall (fun t => (length t <= 1024)%nat) texts ->
  heads buf (list_message <$> texts) = (fun t => hex4 (Z.of_nat (length t))) <$> texts /\
  Forall (fun l => (length l <= BUFSZ)%nat) (list_message <$> texts).
Proof.
  induction texts as [|t texts IH]; intros buf HF; [done|]. apply list.Forall_cons in HF as [Ht HF].
  destruct (hex_status (length t) Ht) as [Hx _]. cbn [fmap list_fmap heads].
  assert (take 4 (list_message t ++ drop (length (list_message t)) buf) = hex4 (Z.of_nat (length t))) as Hh.
  { unfold list_message at 1. rewrite <- app_assoc. by rewrite take_app_length'. }
  destruct (list_message t) as [|b m] eqn:Em.
  { unfold list_message in Em. by destruct (hex4 (Z.of_nat (length t))). }
  destruct (IH ((b :: m) ++ drop (length (b :: m)) buf) HF) as [H1 H2]. split; [cbv zeta; by rewrite Hh, H1|].
  constructor; [|done]. rewrite <- Em. unfold list_message, BUFSZ. rewrite length_app, Hx. lia.
Qed.

Lemma link_head_text dir t thread (x : X) :
  (length t <= 1024)%nat -> link_head dir (hex4 (Z.of_nat (length t))) thread x = link_text dir t thread x.
Proof.
  intros Ht. pose proof hex4_all as H. rewrite forallb_forall in H. specialize (H (length t) ltac:(apply in_seq; lia)).
  unfold hex4_is in H. bools. repeat match goal with H : eqb _ _ = true |- _ => apply eqb_prop in H end.
  rewrite !prefixb_take in *. change (length (bs "0014")) with 4%nat in *. change (length (bs "0000")) with 4%nat in *.
  rewrite !take_ge in * by lia. unfold link_head, link_text.
  repeat match goal with H : streq _ _ = _ |- _ => rewrite H; clear H end.
  repeat case_decide; repeat (case_match; bools); try lia; done.
Qed.

Lemma link_heads_texts dir texts : forall thread (x : X),
  Forall (fun t => (length t <= 1024)%nat) texts ->
  link_heads dir ((fun t => hex4 (Z.of_nat (length t))) <$> texts) thread x = link_texts dir texts thread x.
Proof.
  induction texts as [|t texts IH]; intros thread x HF; [done|]. apply list.Forall_cons in HF as [Ht HF].
  cbn [fmap list_fmap link_heads link_texts]. unfold bind. rewrite link_head_text by done.
  destruct (link_text dir t thread x) as [[th x']|]; [|done]. by apply IH.
Qed.

(** A connection whose reads return whole messages, the first of them OKAY. *)
Definition message_conn (ls : list (list Z)) : option (rdfd * wrfd) := Some (keyboard (bs "OKAY" :: ls), mkWr [] []).

Lemma readx_okay ls : readx 4 (keyboard (bs "OKAY" :: ls)) = Ok (Some (bs "OKAY"), keyboard ls).
Proof.
  unfold readx. cbn [Nat.add readx_loop Nat.ltb Nat.leb].
  change (adb_read 4 (keyboard (bs "OKAY" :: ls))) with (adb_read (length (bs "OKAY")) (keyboard (bs "OKAY" :: ls))).
  by rewrite read_keyboard.
Qed.

Lemma connect_messages k service ls l :
  (1 <= length service <= 1024)%nat -> prefixb (bs "host") service = true ->
  k_next k = message_conn ls :: l ->
  _adb_connect service k = Ok (Connected, set_next l (set_conn (keyboard ls) (mkWr (request_frame service) []) k)).
Proof.
  intros Hlen Hhost Hnext. set (k0 := set_next l (set_conn (keyboard (bs "OKAY" :: ls)) (mkWr [] []) k)).
  assert (k_connect k = Ok (true, k0)) as Hc by (unfold k_connect, bind, get, modify; by rewrite Hnext).
  assert (send_request service k0 = Ok (true, set_conn (k_in k0) (mkWr (request_frame service) []) k0)) as Hs.
  { destruct (hex_status (length service) ltac:(lia)) as [Hx _]. unfold send_request, k_writex, bind. cbn [k_out k0 set_next set_conn].
    unfold snprintf. rewrite take_take, (take_ge (hex4 _)) by lia. rewrite writex_plain. cbn [k_out set_conn]. by rewrite writex_plain. }
  unfold _adb_connect. rewrite (proj2 (Z.ltb_ge _ 1)), (proj2 (Z.ltb_ge 1024 _)) by lia. cbn [orb].
  rewrite (bind_ok _ _ _ _ _ Hc), Hhost. cbn [negb]. unfold bind at 1, ret at 1. cbn [negb]. rewrite (bind_ok _ _ _ _ _ Hs). cbn [negb].
  unfold adb_status, k_readx. unfold bind at 1 2. cbn [k_in set_conn set_next k0]. rewrite readx_okay.
  change (streq (bs "OKAY") (bs "OKAY")) with true. done.
Qed.

Lemma link_command_ok buf0 dir reads l (c : cmd X) :
  Forall (fun l => (length l <= BUFSZ)%nat) reads ->
  k_next (c_client c) = version_conn :: message_conn reads :: l ->
  exists k', k_done k' = k_done (c_client c) ++ [request_frame (bs "host:version"); request_frame (bs "host:track-devices")] /\
    link_command buf0 [dir] c =
      match link_heads dir (heads buf0 reads) false (c_ext c) with
      | Ok (_, x) => Ok (0, mkCmd k' (c_out c) x)
      | Err e => Err e
      end.
Proof.
  intros HF Hnext. set (k1 := set_next l (set_conn (keyboard reads) (mkWr (request_frame (bs "host:track-devices")) [])
    (closed (request_frame (bs "host:version")) (set_next (message_conn reads :: l) (c_client c))))).
  assert (connect (bs "host:track-devices") c = Ok (true, mkCmd k1 (c_out c) (c_ext c))) as Ec.
  { unfold connect, on_client, bind. rewrite (adb_connect_checked _ _ (message_conn reads :: l)) by done.
    erewrite connect_messages; [done|cbn; lia|done|done]. }
  exists (closed (request_frame (bs "host:track-devices")) (set_conn (mkRd [] []) (k_out k1) k1)).
  split; [cbn [k_done closed k1 set_next set_conn]; by rewrite <- app_assoc|].
  unfold link_command. rewrite (bind_ok _ _ _ _ _ Ec). cbn [negb bind get]. unfold bind at 1.
  rewrite (link_loop_ok dir reads); [|done|unfold stdin_fuel; cbn [k_in k1 c_client set_next set_conn keyboard rd_data rd_script];
    rewrite ?length_fmap; lia|done].
  cbn [c_ext c_client]. destruct (link_heads dir (heads buf0 reads) false (c_ext c)) as [[[] x]|]; done.
Qed.

End Linking.

Lemma run_link {X} `{!Host X} do_cmd rounds env buf0 f dir :
  run_command (X := X) do_cmd rounds env buf0 f [bs "link"; dir] = link_command buf0 [dir].
Proof. cbn [run_command]. words. done. Qed.

Lemma commandline_link {X} `{!Host X} env buf0 depth rounds ttype serial dir reads l (c : cmd X) :
  (0 < depth)%nat -> Forall (fun l => (length l <= BUFSZ)%nat) reads ->
  k_next (c_client c) = version_conn :: message_conn reads :: l ->
  exists k', k_done k' = k_done (c_client c) ++ [request_frame (bs "host:version"); request_frame (bs "host:track-devices")] /\
    adb_commandline depth rounds env buf0 (do_cmd_argv ttype serial [bs "link"; dir]) c =
      match link_heads dir (heads buf0 reads) false (c_ext c) with
      | Ok (_, x) => Ok (0, mkCmd k' (c_out c) x)
      | Err e => Err e
      end.
Proof.
  intros Hd HF Hnext. destruct depth as [|d]; [lia|].
  destruct (parse_do_cmd env ttype serial (bs "link") [dir] c eq_refl) as (f & Ef & _).
  set (c1 := mkCmd (mkClient (f_ttype f) (f_serial f) (k_error (c_client c)) (k_in (c_client c)) (k_out (c_client c))
    (k_next (c_client c)) (k_done (c_client c)) (k_launch (c_client c))) (c_out c) (c_ext c)).
  destruct (link_command_ok buf0 dir reads l c1 HF Hnext) as (k' & Hk & El). exists k'. split; [done|].
  cbn [adb_commandline]. rewrite (bind_ok _ _ _ _ _ Ef).
  assert (on_client (adb_set_transport (f_ttype f) (f_serial f)) c = Ok (tt, c1)) as Es by done.
  rewrite (bind_ok _ _ _ _ _ Es). change (streq (bs "link") (bs "server")) with false. cbn iota. by rewrite run_link.
Qed.


Lemma transport_line_length x s :
  t_serial x = Some s -> s <> [] -> t_connection_state x = CS_DEVICE -> length (transport_line x) = (length s + 8)%nat.
Proof.
  intros Hs Hne Hst. assert (statename x = bs "device") as Hn by (unfold statename; by rewrite Hst).
  unfold transport_line. rewrite Hs, Hn. destruct s as [|b s]; [done|]. rewrite !length_app. cbn. lia.
Qed.

(** Whether a device is linked depends on the length of its serial number.  A
    server with one device, online, with a serial number of other than twelve
    characters, sends a list on which [adb link] does nothing at all. *)
Theorem link_needs_twelve_characters {X} `{!Host X} w w' a x s env buf0 depth rounds ttype serial dir l (c : cmd X) :
  list_transports 1020 w = Ok (list_lines 1020 [(a, x)], w') -> t_serial x = Some s -> t_connection_state x = CS_DEVICE ->
  (1 <= length s <= 1000)%nat -> length s <> 12%nat -> (0 < depth)%nat ->
  exists msg, list_transports_msg 1024 w = Ok (msg, w') /\
    (k_next (c_client c) = version_conn :: message_conn [msg] :: l ->
     exists c', adb_commandline depth rounds env buf0 (do_cmd_argv ttype serial [bs "link"; dir]) c = Ok (0, c') /\ c_ext c' = c_ext c).
Proof.
  intros Hl Hs Hst Hlen Hne Hd. assert (s <> []) as Hs0 by (by intros ->; cbn in Hlen; lia).
  pose proof (transport_line_length x s Hs Hs0 Hst) as Hline.
  assert (list_lines 1020 [(a, x)] = transport_line x) as Ht.
  { cbn [list_lines]. destruct (1020 <=? Z.of_nat (length (transport_line x))) eqn:E; bools; [lia|]. apply app_nil_r. }
  exists (list_message (transport_line x)). split.
  { unfold list_transports_msg, bind. change (1024 - 4) with 1020. rewrite Hl, Ht. unfold ret, list_message, snprintf.
    destruct (hex_status (length (transport_line x)) ltac:(lia)) as [Hx _]. rewrite take_take, (take_ge (hex4 _)) by lia. done. }
  assert (Forall (fun t => (length t <= 1024)%nat) [transport_line x]) as HF by (constructor; [lia|done]).
  destruct (message_heads [transport_line x] buf0 HF) as [Hh Hb].
  intros Hnext. destruct (commandline_link env buf0 depth rounds ttype serial dir (list_message <$> [transport_line x]) l c Hd Hb Hnext) as (k' & _ & E).
  exists (mkCmd k' (c_out c) (c_ext c)). split; [|done]. rewrite E, Hh, link_heads_texts by done. cbn [link_texts]. unfold link_text.
  rewrite decide_False by lia. rewrite decide_False by lia. done.
Qed.
