(* ===== verification/TransportFacts.v ===== *)
(** * Facts about transports

    Which transport a request gets, what the list of devices shows, how the two
    threads of a transport pass packets on, and how the transport list is kept. *)

From S2P Require Import Prelude Ring Io Wire FdEvent World Transports.

(** ** Choosing a transport *)

(** Does a request for this type, without a serial number, mean this transport? *)
Definition of_type (ttype : transport_type) (x : atransport) : bool :=
  match ttype with
  | kTransportUsb => bool_decide (t_type x = kTransportUsb)
  | kTransportLocal => bool_decide (t_type x = kTransportLocal)
  | kTransportAny => true
  | kTransportHost => false
  end.

Definition wanted_by (ttype : transport_type) (serial : option (list Z)) (tx : Z * atransport) : bool :=
  negb (t_connection_state tx.2 =? CS_NOPERM) &&
  match serial with Some s => serial_is s tx.2 | None => of_type ttype tx.2 end.

(** The accessible transports a request can mean, in the order of the list. *)
Definition candidates (ttype : transport_type) (serial : option (list Z)) (ts : list (Z * atransport))
    : list (Z * atransport) :=
  List.filter (wanted_by ttype serial) ts.

Lemma scan_serial ttype s ts err :
  (acquire_scan ttype (Some s) ts None err).1.1 = head (candidates ttype (Some s) ts) /\
  (acquire_scan ttype (Some s) ts None err).2 = false.
Proof.
  revert err. induction ts as [|[t x] ts IH]; intros err; [done|].
  cbn [acquire_scan candidates List.filter]. unfold wanted_by at 1. cbn [snd].
  destruct (t_connection_state x =? CS_NOPERM); cbn [negb andb]; [apply IH|].
  destruct (serial_is s x); [done|apply IH].
Qed.

(** One step of the scan without a serial number. *)
Lemma scan_any_step ttype t x ts result err :
  acquire_scan ttype None ((t, x) :: ts) result err =
  if t_connection_state x =? CS_NOPERM
  then acquire_scan ttype None ts result (bs "insufficient permissions for device")
  else if of_type ttype x then
    match result with
    | Some _ => (None, match ttype with
                       | kTransportUsb => bs "more than one device"
                       | kTransportLocal => bs "more than one emulator"
                       | _ => bs "more than one device and emulator"
                       end, true)
    | None => acquire_scan ttype None ts (Some (t, x)) err
    end
  else acquire_scan ttype None ts result err.
Proof.
  cbn [acquire_scan]. destruct (_ =? CS_NOPERM); [done|].
  destruct ttype; cbn; try done; by destruct (bool_decide _).
Qed.

(** The result, and whether the scan met a second candidate. *)
Lemma scan_any ttype ts result err :
  let r := acquire_scan ttype None ts result err in
  let all := match result with Some c => c :: candidates ttype None ts | None => candidates ttype None ts end in
  r.1.1 = match all with [c] => Some c | _ => None end /\ r.2 = bool_decide (2 <= length all)%nat.
Proof.
  revert result err. induction ts as [|[t x] ts IH]; intros result err; [by destruct result|]. cbv zeta.
  assert (candidates ttype None ((t, x) :: ts) =
    if negb (t_connection_state x =? CS_NOPERM) && of_type ttype x
    then (t, x) :: candidates ttype None ts else candidates ttype None ts) as -> by done.
  pose proof (IH (Some (t, x)) err) as Hnext.
  destruct result as [r|]; rewrite !scan_any_step;
    (destruct (t_connection_state x =? CS_NOPERM); cbn [negb andb];
       [apply (IH (Some r)) || apply (IH None)|]);
    (destruct (of_type ttype x); [|apply (IH (Some r)) || apply (IH None)]); [|done].
  destruct (candidates ttype None ts) as [|c cs]; done.
Qed.

(** The transport a request means, and whether it could mean several. *)
Definition meant (ttype : transport_type) (serial : option (list Z)) (ts : list (Z * atransport))
    : option (Z * atransport) :=
  match serial, candidates ttype serial ts with
  | Some _, cs => head cs
  | None, [c] => Some c
  | None, _ => None
  end.

Definition ambiguous (ttype : transport_type) (serial : option (list Z)) (ts : list (Z * atransport)) : Prop :=
  serial = None /\ (2 <= length (candidates ttype None ts))%nat.

(** Is it in the state that was asked for? *)
Definition qualified (state : Z) (x : atransport) : Prop :=
  t_connection_state x <> CS_OFFLINE /\ (state = CS_ANY \/ t_connection_state x = state).

Lemma scan_meant ttype serial ts err :
  (acquire_scan ttype serial ts None err).1.1 = meant ttype serial ts /\
  ((acquire_scan ttype serial ts None err).2 = true <-> ambiguous ttype serial ts).
Proof.
  unfold meant, ambiguous. destruct serial as [s|].
  - destruct (scan_serial ttype s ts err) as [-> ->]. by split; [|naive_solver].
  - pose proof (scan_any ttype ts None err) as [-> ->]. split; [done|]. rewrite bool_decide_eq_true. naive_solver.
Qed.

Lemma acquire_pass_cases state ttype serial ts :
  match acquire_pass state ttype serial ts with
  | Acquired t => exists x, meant ttype serial ts = Some (t, x) /\ qualified state x
  | NotAcquired _ =>
      (forall t x, meant ttype serial ts = Some (t, x) -> ~ qualified state x) /\
      (state = CS_ANY \/ ambiguous ttype serial ts)
  | Retry =>
      (forall t x, meant ttype serial ts = Some (t, x) -> ~ qualified state x) /\
      state <> CS_ANY /\ ~ ambiguous ttype serial ts
  end.
Proof.
  unfold acquire_pass. destruct (scan_meant ttype serial ts (bs "device not found")) as [H1 H2].
  destruct (acquire_scan ttype serial ts None (bs "device not found")) as [[result err] amb]. cbn in H1, H2.
  rewrite <- H1.
  assert (forall e, (forall t x, result = Some (t, x) -> ~ qualified state x) ->
    match (if negb (state =? CS_ANY) && (bool_decide (is_Some serial) || negb amb) then Retry
           else NotAcquired e) with
    | Acquired t => exists x, result = Some (t, x) /\ qualified state x
    | NotAcquired _ => (forall t x, result = Some (t, x) -> ~ qualified state x) /\
        (state = CS_ANY \/ ambiguous ttype serial ts)
    | Retry => (forall t x, result = Some (t, x) -> ~ qualified state x) /\
        state <> CS_ANY /\ ~ ambiguous ttype serial ts
    end) as Hno.
  { intros e Hq. destruct (Z.eqb_spec state CS_ANY) as [|Hne]; cbn; [by split; [|left]|].
    destruct serial as [s|]; cbn.
    - split_and!; [done..|]. by intros [? _].
    - destruct amb; cbn; [split; [done|right; by apply H2]|]. split_and!; [done..|]. by intros ?%H2. }
  unfold qualified in *. destruct result as [[t x]|]; [|by apply Hno].
  destruct (Z.eqb_spec (t_connection_state x) CS_OFFLINE); [apply Hno; naive_solver|].
  destruct (Z.eqb_spec state CS_ANY) as [|Hne]; cbn [negb andb]; [naive_solver|].
  destruct (Z.eqb_spec (t_connection_state x) state); cbn [negb]; [naive_solver|apply Hno; naive_solver].
Qed.

(** C30: a request gets the transport it means, or none.  With a serial number
    [acquire_one_transport] picks the first accessible transport that has it;
    without one it picks the only accessible transport of the requested type, and
    none when there are several.  It must be in the requested state, and an offline
    transport is never picked. *)
Theorem acquire_picks state ttype serial ts t :
  acquire_pass state ttype serial ts = Acquired t <->
  exists x, t_connection_state x <> CS_OFFLINE /\ (state = CS_ANY \/ t_connection_state x = state) /\
    match serial with
    | Some _ => head (candidates ttype serial ts) = Some (t, x)
    | None => candidates ttype None ts = [(t, x)]
    end.
Proof.
  assert (forall x, match serial with
    | Some _ => head (candidates ttype serial ts) = Some (t, x)
    | None => candidates ttype None ts = [(t, x)]
    end <-> meant ttype serial ts = Some (t, x)) as Hm.
  { intros x. unfold meant. destruct serial; [done|]. destruct (candidates ttype None ts) as [|c [|]]; naive_solver. }
  setoid_rewrite Hm. pose proof (acquire_pass_cases state ttype serial ts) as H. unfold qualified in H.
  destruct (acquire_pass state ttype serial ts); naive_solver.
Qed.

Lemma wait_okay state ttype serial seen t out :
  acquire_waiting state ttype serial seen = Some (inl t) ->
  wait_for_state state ttype serial seen (mkWr out []) = Ok (Some true, mkWr (out ++ bs "OKAY") []).
Proof. unfold wait_for_state. intros ->. erewrite bind_ok by apply writex_plain. done. Qed.

(** The reason given when a request could mean several transports. *)
Definition ambiguity (ttype : transport_type) : list Z :=
  match ttype with
  | kTransportUsb => bs "more than one device"
  | kTransportLocal => bs "more than one emulator"
  | _ => bs "more than one device and emulator"
  end.

Lemma scan_ambiguous ttype ts result err :
  (acquire_scan ttype None ts result err).2 = true ->
  (acquire_scan ttype None ts result err).1 = (None, ambiguity ttype).
Proof.
  revert result err. induction ts as [|[t x] ts IH]; intros result err; [done|].
  rewrite scan_any_step. destruct (_ =? CS_NOPERM); [apply IH|].
  destruct (of_type ttype x); [|apply IH]. destruct result; [done|apply IH].
Qed.

(** A list of transports in which the device meant is not there in the requested
    state, and which leaves no doubt which one is meant. *)
Definition undecided (state : Z) (ttype : transport_type) (serial : option (list Z))
    (ts : list (Z * atransport)) : Prop :=
  ~ ambiguous ttype serial ts /\
  forall t x, meant ttype serial ts = Some (t, x) -> ~ qualified state x.

Lemma undecided_retry state ttype serial ts :
  state <> CS_ANY -> undecided state ttype serial ts -> acquire_pass state ttype serial ts = Retry.
Proof.
  intros Hs [Ha Hq]. pose proof (acquire_pass_cases state ttype serial ts) as H.
  destruct (acquire_pass state ttype serial ts) as [t|err|]; [|naive_solver|done].
  destruct H as (x & Hm & Hx). by destruct (Hq t x Hm).
Qed.

Lemma ambiguous_fails state ttype serial ts :
  ambiguous ttype serial ts -> acquire_pass state ttype serial ts = NotAcquired (ambiguity ttype).
Proof.
  intros Ha. destruct (scan_meant ttype serial ts (bs "device not found")) as [_ H2].
  apply H2 in Ha as Hf. destruct Ha as [-> _]. apply scan_ambiguous in Hf as Hr. unfold acquire_pass.
  destruct (acquire_scan ttype None ts None (bs "device not found")) as [[result err] amb].
  cbn in Hf, Hr. simplify_eq. cbn. by rewrite andb_false_r.
Qed.

Lemma ambiguity_sent ttype out :
  sendfailmsg (ambiguity ttype) (mkWr out []) =
    Ok (true, mkWr (out ++ bs "FAIL" ++ hex4 (Z.of_nat (length (ambiguity ttype))) ++ ambiguity ttype) []).
Proof.
  unfold sendfailmsg. erewrite bind_ok by apply writex_plain. cbv beta iota.
  rewrite writex_plain, <- app_assoc. by destruct ttype.
Qed.


(** ** The list of devices *)

Definition device_lines (ts : list (Z * atransport)) : list Z :=
  concat (transport_line <$> ts.*2).

(** The list of devices consists of whole lines and fits its buffer.
    [list_transports] shows the longest initial part of the list of transports,
    one line each, that leaves room for the terminating zero. *)
Theorem device_list_fits bufsize ts :
  0 < bufsize ->
  exists n, list_lines bufsize ts = device_lines (take n ts) /\
    Z.of_nat (length (list_lines bufsize ts)) < bufsize /\
    forall m, Z.of_nat (length (device_lines (take m ts))) < bufsize ->
      (length (device_lines (take m ts)) <= length (list_lines bufsize ts))%nat.
Proof.
  revert bufsize. induction ts as [|[t x] ts IH]; intros room Hroom.
  { exists 0%nat. split_and!; [done|done|]. intros m _. by destruct m. }
  cbn [list_lines]. destruct (Z.leb_spec room (Z.of_nat (length (transport_line x)))) as [Hfull|Hfree].
  - exists 0%nat. split_and!; [done|cbn; lia|]. intros [|m]; [done|]. unfold device_lines. cbn.
    rewrite length_app. lia.
  - destruct (IH (room - Z.of_nat (length (transport_line x))) ltac:(lia)) as (n & H1 & H2 & H3).
    exists (S n). split_and!.
    + unfold device_lines in *. cbn. by rewrite H1.
    + rewrite length_app. lia.
    + intros [|m]; [cbn; lia|]. unfold device_lines in *. cbn. rewrite !length_app. intros Hm.
      specialize (H3 m ltac:(lia)). lia.
Qed.

(** ** The packet pumps *)

Definition is_sync (p : apacket) : bool := command (msg p) =? A_SYNC.

(** Packets the input thread passes over while it is not active. *)
Definition idle_packet (sync_token : Z) (p : apacket) : Prop :=
  is_sync p = true -> arg0 (msg p) <> 0 /\ arg1 (msg p) <> u32 sync_token.

Lemma input_active token data rest :
  Forall (fun p => is_sync p = false) data ->
  input_thread token true ((Some <$> data) ++ rest) =
    (data ++ (input_thread token true rest).1, (input_thread token true rest).2).
Proof.
  induction 1 as [|p data Hp Hd IH]; cbn; [by destruct (input_thread token true rest)|].
  unfold input_thread_step. fold (is_sync p). rewrite Hp. rewrite IH. done.
Qed.

Lemma input_idle token pre rest :
  Forall (idle_packet token) pre -> input_thread token false ((Some <$> pre) ++ rest) = input_thread token false rest.
Proof.
  induction 1 as [|p pre Hp Hd IH]; [done|]. cbn. unfold input_thread_step. fold (is_sync p).
  unfold idle_packet in Hp. destruct (is_sync p).
  - destruct (Hp eq_refl) as [H1 H2]. apply Z.eqb_neq in H1 as ->. apply Z.eqb_neq in H2 as ->.
    rewrite IH. by destruct (input_thread _ _ rest).
  - rewrite IH. by destruct (input_thread _ _ rest).
Qed.

(** A transport starts with the SYNC of its own output thread.  The input
    thread discards what is queued before SYNC(1, token), as well as SYNC packets
    with other tokens, then writes every packet to the remote in order, and stops
    at SYNC(0, _). *)
Theorem sync_brackets_stream token pre on data off rest :
  Forall (idle_packet token) pre ->
  is_sync on = true -> arg0 (msg on) <> 0 -> arg1 (msg on) = u32 token ->
  Forall (fun p => is_sync p = false) data ->
  is_sync off = true -> arg0 (msg off) = 0 ->
  input_thread token false (Some <$> pre ++ on :: data ++ off :: rest) = (data, true).
Proof.
  intros Hpre Hon H0 H1 Hdata Hoff Hz. rewrite fmap_app, input_idle by done. cbn. unfold input_thread_step at 1.
  fold (is_sync on). rewrite Hon. apply Z.eqb_neq in H0 as ->. rewrite H1, Z.eqb_refl.
  rewrite fmap_app, input_active by done. cbn. unfold input_thread_step. fold (is_sync off). rewrite Hoff, Hz. cbn.
  by rewrite app_nil_r.
Qed.

Lemma local_read_end r rs :
  Forall benign rs -> exists rsc, Local.remote_read r (mkRd [] rs) = Ok (None, mkRd [] rsc).
Proof.
  intros Hrs. destruct (readx_benign sizeof_amessage (mkRd [] rs)) as (sc & Hsc & E); [done|].
  exists sc. unfold Local.remote_read. by rewrite (bind_ok _ _ _ _ _ E).
Qed.

(** What passes of [l] when each element takes one answer of the script. *)
Fixpoint passed {A} (writes : list bool) (l : list A) : list A :=
  match l with
  | [] => []
  | x :: l => if writes_ok writes then x :: passed (tail writes) l else []
  end.

Lemma output_loop_ok junk ps off fuel rs writes :
  Forall sendable ps -> Z.of_nat (length junk) = MAX_PAYLOAD -> Forall benign rs ->
  (length ps < fuel)%nat ->
  exists rd qs l o, output_loop Local.remote_read junk fuel writes (mkRd (concat (wire <$> ps)) rs) =
      Ok ((l, o), rd) /\
    l ++ match o with Some wr => passed wr [off] | None => [] end = passed writes (qs ++ [off]) /\
    Forall2 (fun p q => msg q = msg p /\ payload q = payload p) ps qs.
Proof.
  intros Hps Hj. revert fuel rs writes. induction Hps as [|p ps Hp _ IH]; intros fuel rs writes Hrs Hf;
    (destruct fuel as [|f]; cbn [length] in Hf; [lia|]); cbn [output_loop].
  - destruct (local_read_end (get_apacket junk) rs Hrs) as (rsc & E). exists (mkRd [] rsc), [], [], (Some writes).
    cbn [fmap list_fmap concat]. rewrite (bind_ok _ _ _ _ _ E). done.
  - cbn [fmap list_fmap concat]. rewrite wire_prefix by done.
    destruct (local_read_payload p (payload p) (concat (wire <$> ps)) (get_apacket junk) rs)
      as (rsc1 & q & Hrsc1 & E & Hm & Hpl & _); [done|by rewrite payload_length|done|done|].
    assert ((byte_sum (payload p) =? data_check (msg p)) = true) as Hsum.
    { pose proof Hp as ((_ & Hd & _) & Hl & _ & Hcd). rewrite check_data_payload in Hcd by (by apply data_fits).
      by injection Hcd. }
    rewrite Hsum in E. rewrite (bind_ok _ _ _ _ _ E).
    destruct (IH f rsc1 (tail writes) Hrsc1 ltac:(lia)) as (rd & qs & l & o & E2 & H2 & H3).
    cbn [app passed]. destruct (writes_ok writes) eqn:Hw.
    + exists rd, (q :: qs), (q :: l), o. rewrite (bind_ok _ _ _ _ _ E2). cbn [app passed]. rewrite Hw, <- H2.
      split_and!; [done..|]. by constructor.
    + eexists _, (q :: qs), [], None. cbn [app passed]. rewrite Hw. split_and!; [reflexivity|done|]. by constructor.
Qed.

(** The output thread hands every packet of the remote to the server.  When
    the other end has written packets and closed, whatever the sizes of the reads,
    the thread queues SYNC(1, token + 1), then the packets with their headers and
    payloads in order, then SYNC(0, 0); a write to the socket pair that fails ends
    the sequence there. *)
Theorem output_thread_delivers junk ps token rs writes :
  Forall sendable ps -> Z.of_nat (length junk) = MAX_PAYLOAD -> Forall benign rs ->
  exists rd qs, output_thread Local.remote_read junk (S (length ps)) writes token
      (mkRd (concat (wire <$> ps)) rs) =
    Ok ((passed writes (sync_packet junk 1 (u32 (token + 1)) :: qs ++ [sync_packet junk 0 0]),
         token + 1), rd) /\
    Forall2 (fun p q => msg q = msg p /\ payload q = payload p) ps qs.
Proof.
  intros Hps Hj Hrs.
  destruct (output_loop_ok junk ps (sync_packet junk 0 0) (S (length ps)) rs (tail writes))
    as (rd & qs & l & o & E & H1 & H2); try done; [lia|].
  unfold output_thread. cbn [passed]. destruct (writes_ok writes).
  - exists rd, qs. rewrite (bind_ok _ _ _ _ _ E), <- H1. split; [|done]. by destruct o.
  - eexists _, qs. split; [reflexivity|done].
Qed.
