(* ===== verification/ServerDemo.v ===== *)
(** * The server theorems on concrete states

    A server with one online device, the state after the device has opened a
    service, and the state in which a client waits for the device. *)

From S2P Require Import Prelude Ring Io Wire FdEvent EventMap World Transports Listeners HostRequest.
From S2P Require Import Sockets Server ServerInv SocketsSafe ServerSafe Streams Closing.
From S2P Require Import Requests AdbClient ClientServer TransportFacts TransportList Startup.
From S2P Require Import ServerEvents ServerRequests ServerClients ServerTrace.

(** ** One device *)

Definition demo_transport : atransport :=
  mkTrans CS_DEVICE kTransportUsb (Some (bs "SER1")) None false 1 1 30 31 [] None 0 [] [] [].

Definition one_device : world :=
  mkWorld 2 ∅ [] [] 1 false {[1 := demo_transport]} {[0 := (1, 1); 1 := (0, 0)]} false [] ∅ []
    fd_start ∅ ∅ [] [] [] [] [] [] [7; 8] (replicate 4096 0).

Lemma one_device_dll : dll (w_tlinks one_device) [1].
Proof. split; [|by vm_compute]. repeat constructor; set_solver. Qed.

Lemma one_device_list : tlist one_device [1].
Proof. split; [apply one_device_dll|]. intros t ->%list_elem_of_singleton. by eexists. Qed.

Lemma one_device_shape : shape ∅ (tables_of one_device).
Proof.
  constructor; cbn; try (intros ? ? H; by rewrite lookup_empty in H);
    try (intros ? H; by apply elem_of_nil in H).
  - intros a Ha. split_and!; try done. by rewrite lookup_singleton_ne by lia.
  - split_and!; constructor.
  - intros t tr [_ <-]%lookup_singleton_Some. constructor.
  - intros t tr d [_ <-]%lookup_singleton_Some H. by apply elem_of_nil in H.
  - by intros t tr _.
  - lia.
Qed.

Lemma one_device_quiet : quiet one_device.
Proof.
  split; [|done]. constructor; [apply one_device_shape|apply fd_start_inv|eexists; apply one_device_list|done].
Qed.

(** ** Running a step *)

Definition after_run {A} (m : M world A) (w : world) : world :=
  match m w with Ok (_, w') => w' | Err _ => w end.

Lemma after_run_quiet {A} (m : M world A) w :
  quiet w -> safe m w (fun _ w' => quiet w') -> quiet (after_run m w).
Proof. unfold safe, after_run. by destruct (m w) as [[a w']|e]. Qed.

Lemma quiet_out f w : quiet w -> quiet (upd_w_out f w).
Proof. intros [Hw Hl]. split; [by apply wf_out|done]. Qed.

Lemma quiet_in f w : quiet w -> quiet (upd_w_in f w).
Proof. intros [Hw Hl]. split; [by apply wf_in|done]. Qed.

(** ** The device opens a service *)

Definition control (cmd a0 a1 : Z) (data : list Z) : apacket :=
  mkPkt 0 0 (mkMsg cmd a0 a1 (Z.of_nat (length data)) (byte_sum data) (Z.lxor cmd 0xffffffff))
    (data ++ replicate (4096 - length data) 0).

Definition open_packet : apacket := control A_OPEN 5 0 (bs "tcp:5037" ++ [0]).

Lemma one_device_fresh fd l : w_fresh_fds one_device = fd :: l -> 0 <= fd -> usable_fd one_device fd.
Proof. intros [= <- _] _. split; [unfold FD_SETSIZE; lia|]. done. Qed.

Definition opened : world := after_run (handle_open None open_packet 1) one_device.

Lemma opened_quiet : quiet opened.
Proof.
  apply after_run_quiet; [apply one_device_quiet|].
  apply (handle_open_ok None one_device open_packet 1 demo_transport); try done; try apply one_device_quiet.
  intros fd l. apply one_device_fresh.
Qed.

(** The service's socket and the device's, with ids 1 and 5. *)
Definition opened_local : asocket :=
  mkSock 1 false (Some 3) 7 [] local_socket_enqueue_p local_socket_ready_p local_socket_close_p None false.
Definition opened_remote : asocket :=
  mkSock 5 false (Some 2) 0 [] remote_socket_enqueue_p remote_socket_ready_p remote_socket_close_p
    (Some 1) false.

Lemma opened_sockets :
  w_socks opened !! 2 = Some opened_local /\ w_socks opened !! 3 = Some opened_remote.
Proof. split; by vm_compute. Qed.

(** ** The service does not read for a while *)

Definition data_packet : apacket := mkPkt 3 0 (msg (control A_WRTE 5 1 [1; 2; 3])) (pk_data (control A_WRTE 5 1 [1; 2; 3])).

(** Descriptor 7 takes one byte and then nothing. *)
Definition slow : world := upd_w_out <[7 := mkWr [] [UpTo 0; IoErr EAGAIN]]> opened.

Lemma slow_quiet : quiet slow.
Proof. unfold slow. apply quiet_out, opened_quiet. Qed.

Definition blocked : world := after_run (local_socket_enqueue 2 data_packet) slow.

Lemma blocked_quiet : quiet blocked.
Proof.
  destruct slow_quiet as [Hw Hl]. apply after_run_quiet; [by split|].
  eapply safe_mono.
  - apply (local_enqueue_ok slow 2 opened_local); [exact Hw|exact Hl|by vm_compute|done|done|].
    by vm_compute.
  - intros r w' (Hw' & H). split; [exact Hw'|].
    destruct H as [(_ & [K _])|(_ & [K _ _ _ _ _])]; rewrite (kept_slock _ _ K); exact Hl.
Qed.

Definition blocked_local : asocket := upd_s_pkts (fun _ => [mkPkt 2 1 (msg data_packet) (pk_data data_packet)]) opened_local.

Lemma blocked_sockets :
  w_socks blocked !! 2 = Some blocked_local /\ w_socks blocked !! 3 = Some opened_remote.
Proof. split; by vm_compute. Qed.

(** ** The service has written something *)

Definition readable : world := upd_w_in <[7 := mkRd [9; 8; 7] [UpTo 1; IoErr EINTR; UpTo 0; IoErr EAGAIN]]> opened.

Lemma readable_quiet : quiet readable.
Proof. unfold readable. apply quiet_in, opened_quiet. Qed.

(** ** A client waits for the device *)

Definition waiting_local : asocket :=
  mkSock 1 false None 7 [] local_socket_enqueue_p local_socket_ready_notify_p local_socket_close_notify_p
    None false.

Definition waiting : world :=
  upd_w_socks <[2 := waiting_local]> (after_run (create_local_socket 7) one_device).

Definition idle_local : asocket :=
  mkSock 1 false None 7 [] local_socket_enqueue_p local_socket_ready_p local_socket_close_p None false.

(** The smart socket rigs a local socket without a peer. *)
Lemma quiet_rigged w a :
  quiet w -> w_socks w !! a = Some idle_local -> quiet (upd_w_socks <[a := waiting_local]> w).
Proof.
  intros [Hw Hl] Ha. split; [|done]. constructor; [|apply Hw..].
  apply (shape_update ∅ (tables_of w) a idle_local waiting_local);
    [apply Hw|done|done|done|done|done|by right|constructor|by right].
Qed.

Lemma waiting_quiet : quiet waiting.
Proof.
  destruct one_device_quiet as [Hw Hl]. apply quiet_rigged; [|by vm_compute].
  apply after_run_quiet; [by split|].
  eapply safe_mono; [apply create_local_ok; [exact Hw|exact Hl|by apply (one_device_fresh 7 [8])]|].
  intros a w' (? & _ & _ & _ & ? & _). done.
Qed.

(** ** The theorems on these states *)

Definition ends_quiet (r : result (unit * world)) : Prop :=
  match r with Ok (_, w') => quiet w' | Err e => e = EFatal end.

(** A banner without a zero byte, in a packet that passes the checks. *)
Definition bad_banner : apacket :=
  let data := replicate 4096 65 in
  mkPkt 0 0 (mkMsg A_CNXN A_VERSION 4096 4096 (byte_sum data) (Z.lxor A_CNXN 0xffffffff)) data.


Lemma enqueue_keeps_stream_witness :
  match local_socket_enqueue 2 data_packet blocked with
  | Ok (r, w') =>
      2 ∈ w_local w' ->
      exists x', w_socks w' !! 2 = Some x' /\ only_queue blocked_local x' /\
        stream w' x' = stream blocked blocked_local ++ take (Z.to_nat 3) (pk_data data_packet) /\
        (r = 0 <-> s_pkts x' = [])
  | Err e => e = EFatal
  end.
Proof.
  apply (enqueue_keeps_stream blocked 2 blocked_local data_packet);
    [exact blocked_quiet|exact (proj1 blocked_sockets)|done|done|by vm_compute].
Defined.

Lemma drain_keeps_stream_witness :
  match drain 1 2 7 blocked with
  | Ok (all, w') =>
      quiet w' /\ (all = true -> wr_out (out_of w' 7) = stream blocked blocked_local) /\
      (2 ∈ w_local w' -> exists x', w_socks w' !! 2 = Some x' /\ only_queue blocked_local x' /\
         stream w' x' = stream blocked blocked_local)
  | Err e => e = EFatal
  end.
Proof.
  apply (drain_keeps_stream blocked 2 blocked_local);
    [exact blocked_quiet|exact (proj1 blocked_sockets)|done|done].
Defined.


Lemma okay_completes_connection_witness :
  match handle_okay None (control A_OKAY 5 1 []) 1 waiting with
  | Ok (_, w') =>
      quiet w' /\ waits_for w' 2 FDE_READ /\
      wr_out (out_of w' 7) = wr_out (out_of waiting 7) ++ bs "OKAY" /\
      exists r x' y, w_socks w' !! 2 = Some x' /\ s_close x' = local_socket_close_p /\
        s_ready x' = local_socket_ready_p /\ s_peer x' = Some r /\
        w_socks w' !! r = Some y /\ s_enqueue y = remote_socket_enqueue_p /\
        s_id y = 5 /\ s_transport y = Some 1 /\ s_peer y = Some 2
  | Err e => e = EFatal
  end.
Proof.
  apply (okay_completes_connection None waiting (control A_OKAY 5 1 []) 1 2 waiting_local);
    [exact waiting_quiet|by eexists|by vm_compute|by vm_compute|done|by vm_compute].
Defined.

Lemma closing_socket_uses_freed_peer_witness :
  match sock_close 2 blocked with
  | Ok (_, w1) =>
      w_socks w1 !! 3 = None /\
      local_socket_event_func None 7 FDE_WRITE 2 (upd_w_out <[7 := mkWr [1] []]> w1) = Err EUndef
  | Err e => e = EFatal
  end.
Proof.
  apply (closing_socket_uses_freed_peer None blocked 2 blocked_local 3 opened_remote [1]);
    [exact blocked_quiet|by vm_compute|done|done|done|done|done|by vm_compute|done].
Defined.

(** Half of the request for "host:version", and all of it. *)
Definition gathering (text : list Z) : apacket :=
  mkPkt (Z.of_nat (length text)) 0 zero_msg (text ++ replicate (4096 - length text) 0).

(** A client has connected and is about to ask for something. *)
Definition asking : world :=
  after_run (s <- create_local_socket 7 ;; connect_to_smartsocket None s) one_device.

Definition asking_local : asocket :=
  mkSock 1 false (Some 3) 7 [] local_socket_enqueue_p local_socket_ready_p local_socket_close_p None false.
Definition asking_smart : asocket :=
  mkSock 0 false (Some 2) 0 [] smart_socket_enqueue_p smart_socket_ready_p smart_socket_close_p None false.

(** "host:version", in two packets. *)
Lemma request_is_parsed_witness :
  exists w1 q,
    enqueue_packets (sock_enqueue None) None 3 [gathering (bs "000chos")] asking = Ok ([0], w1) /\
    smart_socket_enqueue (sock_enqueue None) None 3 (gathering (bs "t:version")) w1 =
      smart_service (sock_enqueue None) None 3 (bs "host:version") (holding asking 3 asking_smart [q]) /\
    gather_ok q /\ gathered q = bs "000chost:version".
Proof.
  refine (request_is_parsed (sock_enqueue None) None asking 3 asking_smart [gathering (bs "000chos")]
    (gathering (bs "t:version")) (bs "host:version") [] _ _ _ _ _ _ _ _);
    [by vm_compute|by left|by repeat constructor|vm_compute; lia|by repeat constructor|by vm_compute|
     vm_compute; lia|by vm_compute].
Defined.

(** A client that has chosen a device by its serial number. *)
Definition demo_client (conns : list (option (rdfd * wrfd))) : client :=
  mkClient kTransportAny (Some (bs "SER1")) [] (mkRd [] []) (mkWr [] []) conns [] [].

Lemma client_selects_transport_witness :
  (exists k', _adb_connect (bs "shell:ls")
      (demo_client [Some (mkRd (bs "OKAY" ++ bs "OKAY" ++ bs "file") [], mkWr [] [])]) = Ok (Connected, k') /\
    wr_out (k_out k') = request_frame (bs "host:transport:SER1") ++ request_frame (bs "shell:ls") /\
    rd_data (k_in k') = bs "file" /\ k_next k' = []) /\
  serves_on 3 2 7 1 (bs "shell:ls") asking
    [gathering (bs "0013host:tran")] (gathering (bs "sport:SER1")) [] (gathering (bs "0008shell:ls"))
    (sock_enqueue None) None.
Proof.
  destruct (client_selects_transport
    (demo_client [Some (mkRd (bs "OKAY" ++ bs "OKAY" ++ bs "file") [], mkWr [] [])])
    (bs "shell:ls") (bs "host:transport:SER1") (bs "file") []) as [H1 H2];
    [vm_compute; lia|by repeat constructor|by vm_compute|by vm_compute| |reflexivity|].
  { intros s [= <-]. split; [vm_compute; lia|by repeat constructor]. }
  split; [exact H1|].
  apply (H2 (sock_enqueue None) None asking 3 asking_smart 2 asking_local 1);
    [by split_and!; vm_compute|by left|by vm_compute| | |].
  - split; [done|]. exists [(1, demo_transport)]. split; by vm_compute.
  - split; [by repeat constructor|]. split; [by vm_compute|vm_compute; lia].
  - split; [by repeat constructor|]. split; [by vm_compute|vm_compute; lia].
Defined.

Lemma failure_reason_arrives_witness :
  exists k', adb_status (set_conn (mkRd (bs "FAIL0006closedxy") []) (mkWr [] []) (demo_client [])) = Ok (false, k') /\
    k_error k' = bs "closed" /\ rd_data (k_in k') = bs "xy".
Proof.
  apply (failure_reason_arrives _ (bs "closed") (bs "xy") [] (mkWr (bs "FAIL0006closed") []));
    [vm_compute; lia|by repeat constructor|by vm_compute|by split].
Defined.

Lemma version_is_accepted_witness :
  exists k', adb_connect (bs "host:devices")
      (demo_client [Some (mkRd (okay_message (hex4 ADB_SERVER_VERSION)) [], mkWr [] []);
                    Some (mkRd (bs "OKAY" ++ bs "0000") [], mkWr [] [])]) = Ok (Connected, k') /\
    k_done k' = [] ++ [request_frame (bs "host:version")] /\
    wr_out (k_out k') = request_frame (bs "host:devices") /\ rd_data (k_in k') = bs "0000".
Proof.
  apply (version_is_accepted (demo_client
     [Some (mkRd (okay_message (hex4 ADB_SERVER_VERSION)) [], mkWr [] []);
      Some (mkRd (bs "OKAY" ++ bs "0000") [], mkWr [] [])]) (bs "host:devices") (bs "0000") []);
    [vm_compute; lia|by vm_compute|by vm_compute|reflexivity].
Defined.

Definition demo_devices : list (Z * atransport) := [(1, demo_transport)].

Lemma device_list_fits_witness :
  exists n, list_lines 4096 demo_devices = device_lines (take n demo_devices) /\
    Z.of_nat (length (list_lines 4096 demo_devices)) < 4096 /\
    forall m, Z.of_nat (length (device_lines (take m demo_devices))) < 4096 ->
      (length (device_lines (take m demo_devices)) <=
       length (list_lines 4096 demo_devices))%nat.
Proof. apply device_list_fits. lia. Defined.

Lemma sync_brackets_stream_witness :
  input_thread 7 false
    (Some <$> [control A_CNXN 0 0 []; control A_SYNC 1 6 []] ++ control A_SYNC 1 7 [] ::
     [control A_OKAY 5 1 []] ++ control A_SYNC 0 0 [] :: []) = ([control A_OKAY 5 1 []], true).
Proof.
  apply sync_brackets_stream; try done.
  - repeat constructor; done.
  - repeat constructor; done.
Defined.

Lemma output_thread_delivers_witness :
  exists rd qs, output_thread Local.remote_read demo_junk 2 [true; true; false] 0
      (mkRd (concat (wire <$> [demo_pkt])) [UpTo 5]) =
    Ok ((passed [true; true; false] (sync_packet demo_junk 1 (u32 (0 + 1)) :: qs ++ [sync_packet demo_junk 0 0]),
         0 + 1), rd) /\
    Forall2 (fun p q => msg q = msg p /\ payload q = payload p) [demo_pkt] qs.
Proof.
  apply (output_thread_delivers demo_junk [demo_pkt] 0 [UpTo 5]); [|by vm_compute|by repeat constructor].
  apply (Forall_replicate _ 1), demo_pkt_sendable.
Defined.

Lemma transport_list_ops_witness :
  exists k, tl_unlink 1 one_device = Ok (tt, upd_w_tlinks (fun _ => k) one_device) /\ dll k [].
Proof. apply (transport_list_ops one_device [1] one_device_dll) with (l1 := []) (l2 := []). done. Defined.

(** With room for a second transport. *)
Definition with_second : world := upd_w_tlinks <[2 := (0, 0)]> one_device.

Lemma with_second_dll : dll (w_tlinks with_second) ([] ++ [1]).
Proof. split; [|by vm_compute]. repeat constructor; set_solver. Qed.

Lemma double_unlink_drops_new_transport_witness :
  exists k, (tl_unlink 1 ;; tl_append 2 ;; tl_unlink 1) with_second =
    Ok (tt, upd_w_tlinks (fun _ => k) with_second) /\ dll k [].
Proof.
  apply (double_unlink_drops_new_transport with_second [] 1 2 with_second_dll); [|by eexists].
  unfold transport_list. set_solver.
Defined.

(** ** From the start of the server *)

Definition fresh_okb (w : world) : bool :=
  match w_fresh_fds w with
  | [] => true
  | fd :: _ => bool_decide (fd < FD_SETSIZE) &&
      bool_decide (map_Forall (fun _ x => x <> fd) (fdmap (w_fde w)))
  end.

Lemma fresh_okb_ok w : fresh_okb w = true -> fresh_ok w.
Proof.
  unfold fresh_okb. intros H fd l Hl H0. rewrite Hl in H.
  apply andb_true_iff in H as [H1%bool_decide_eq_true H2%bool_decide_eq_true].
  split; [lia|]. intros b Hb. by apply (H2 b fd).
Qed.

(** A trace is legal when each event is in the state it happens in. *)
Lemma legal_each adbhost es w :
  (forall n e w1, es !! n = Some e -> run_events adbhost (take n es) w = Ok (tt, w1) -> legal adbhost w1 e) ->
  legal_trace adbhost w es.
Proof.
  revert w. induction es as [|e es IH]; intros w Hes; [done|]. split; [by apply (Hes 0%nat e w)|].
  destruct (run_event adbhost e w) as [[[] w']|] eqn:E; [|done]. apply IH. intros n e' w1 Hn Hrun.
  apply (Hes (S n) e' w1 Hn). cbn [take run_events]. unfold bind. by rewrite E.
Qed.

Definition start_fds : list Z := [3; 4; 5; 6; 7; 8].
Definition started : world := after_run (adb_main true true) (boot start_fds (replicate 4096 0)).

(** A device is plugged in and announces itself; a client connects and forwards a
    port, which is used; then the device goes. *)
Definition banner : apacket := control A_CNXN A_VERSION 4096 (bs "device::" ++ [0]).
Definition forward_request : gmap Z rdfd :=
  {[8 := mkRd (request_frame (bs "host-usb:forward:tcp:6100;tcp:7100")) []]}.
Definition demo_events : list server_event :=
  [EvUsb 77 (Some (bs "SER1")) true; EvRegister FDE_READ; EvPacket banner 3; EvAccept 5 FDE_READ;
   EvKernel forward_request ∅ [] [9; 10]; EvData 8 FDE_READ 4; EvForward 9 FDE_READ 6; EvAnswers 3 [true];
   EvCloseSockets 3; EvThreadExit 3; EvThreadExit 3; EvRegister FDE_READ].

(** The state before the event number [n]. *)
Definition demo_state (n : nat) : world := after_run (run_events None (take n demo_events)) started.

Lemma announces_demo : announces (demo_state 1) 3.
Proof.
  split_and!.
  - eexists. by vm_compute.
  - eexists. split; by vm_compute.
  - exists []. split; [split; [split; [repeat constructor; set_solver|by vm_compute]|]|set_solver].
    intros t Ht. by apply elem_of_nil in Ht.
  - eexists. by vm_compute.
  - by vm_compute.
Qed.

Lemma withdraws_demo : withdraws (demo_state 11) 3.
Proof.
  split_and!; [eexists; by vm_compute|eexists; by vm_compute|]. split; [|eexists; by vm_compute].
  exists [], []. split; [split; [repeat constructor; set_solver|by vm_compute]|].
  intros t ->%list_elem_of_singleton. eexists. by vm_compute.
Qed.

Lemma banner_demo : is_Some (w_trans (demo_state 2) !! 3) /\ received_ok banner.
Proof.
  split; [eexists; by vm_compute|]. unfold received_ok, msg_ok, is_u32. vm_compute. intuition discriminate.
Qed.

(** The request for the port is one that the server can answer. *)
Definition requested : world := after_run (event_request None 8 FDE_READ 4 5) (demo_state 5).

Lemma forward_answerable : answerable requested (bs "forward:tcp:6100;tcp:7100").
Proof.
  split_and!; try by vm_compute.
  intros name remote _ E l y Hl. vm_compute in E. injection E as <- _.
  assert (map_Forall (fun _ y => l_local_name y <> bs "tcp:6100") (w_lis requested)) as Hall.
  { apply (bool_decide_unpack _). by vm_compute. }
  exact (Hall l y Hl).
Qed.

Lemma forward_demo : data_legal None (demo_state 5) 8 FDE_READ 4.
Proof.
  eexists. split; [by vm_compute|]. split; [done|]. right; left. exists 5. eexists. split.
  - split_and!; [by vm_compute|done|done|by vm_compute].
  - assert (event_request None 8 FDE_READ 4 5 (demo_state 5) =
      Ok (Some (bs "host-usb:forward:tcp:6100;tcp:7100", true), requested)) as -> by by vm_compute.
    split_and!; [apply fresh_okb_ok; by vm_compute| |].
    + intros x _. exact forward_answerable.
    + intros _ (ttype & serial & Hp). vm_compute in Hp. done.
Qed.

Lemma demo_events_legal : legal_trace None started demo_events.
Proof.
  apply legal_each. intros n e w1 Hn Hrun.
  assert (w1 = demo_state n) as -> by (unfold demo_state, after_run; by rewrite Hrun). clear Hrun.
  assert (fresh_okb (demo_state n) = true) as Hf%fresh_okb_ok.
  { do 12 (destruct n as [|n]; [by vm_compute|]). done. }
  split; [by destruct e|].
  do 12 try (destruct n as [|n]; [injection Hn as <-; cbn [legal]; clear Hf|]); [..|done]; try exact I.
  - exists 3. left. exact announces_demo.
  - exact banner_demo.
  - exact forward_demo.
  - eexists _, 3. split; [by vm_compute|done].
  - eexists. by vm_compute.
  - left. eexists. split; by vm_compute.
  - left. eexists. split; by vm_compute.
  - exists 3. right. exact withdraws_demo.
Qed.

Lemma server_trace_safe_witness :
  adb_main true true (boot start_fds (replicate 4096 0)) = Ok (tt, started) /\
  exists w', run_events None demo_events started = Ok (tt, w') /\ quiet w'.
Proof.
  assert (kernel_fds start_fds) as Hk.
  { split; [apply (bool_decide_unpack _); by vm_compute|by repeat constructor]. }
  pose proof (server_trace_safe None true true start_fds (replicate 4096 0) demo_events Hk) as H.
  assert (adb_main true true (boot start_fds (replicate 4096 0)) = Ok (tt, started)) as E by by vm_compute.
  split; [exact E|]. rewrite E in H. specialize (H demo_events_legal).
  assert (run_events None demo_events started = Ok (tt, demo_state 12)) as E2 by by vm_compute.
  rewrite E2 in H. destruct H as [H _]. exact (ex_intro _ (demo_state 12) (conj E2 H)).
Defined.

