(* ===== verification/CommandDemo.v ===== *)
(** * The command line on concrete inputs

    A host that records what the commands start, and sessions with a server. *)

From S2P Require Import Prelude Io World HostRequest Transports Requests AdbClient ClientServer.
From S2P Require Import Shell ShellFacts CommandLine CommandFacts ServerDemo.

(** What a command can start. *)
Inductive started :=
| SPush (lpath rpath : list Z) (verify : bool)
| SLink (lpath rpath : list Z)
| SWatch (dir : list Z)
| SCancel
| SOther.

Definition note {A} (s : started) (a : A) : M (list started) A := modify (fun l => l ++ [s]) ;; ret a.

(** Everything works, and every file is a regular one. *)
#[export] Instance recorder : Host (list started) := {|
  h_main _ := note SOther 0;
  h_sync_ls _ := note SOther 0;
  h_sync_push l r v := note (SPush l r v) 0;
  h_sync_pull _ _ := note SOther 0;
  h_sync_sync _ _ := note SOther 0;
  h_link l r := note (SLink l r) 0;
  h_stat _ := ret (Some 0x81A4);
  h_stdin_thread := note SOther tt;
  h_watcher d := note (SWatch d) tt;
  h_cancel := note SCancel tt;
  h_fork_pppd _ := note SOther true;
|}.

Definition demo_env : environment := mkEnv (fun _ => None) (Some (bs "/home")) (fun _ => false) None.

Definition demo_cmd (conns : list (option (rdfd * wrfd))) : cmd (list started) := mkCmd (demo_client conns) [] [].


(** No device, then one whose line has twenty bytes, then none again; or the same
    in one read, of which only the first message counts, and a read of two bytes. *)
Definition demo_lists : list (list Z) := [[]; bs "HT9CTP811234" ++ [9] ++ bs "device" ++ [10]; []].
Definition demo_reads : list (list Z) := [mjoin (list_message <$> rev demo_lists); []; bs "00"; bs "0014HT9C"].


Lemma link_needs_twelve_characters_witness :
  exists msg, list_transports_msg 1024 one_device = Ok (msg, one_device) /\
    (k_next (c_client (demo_cmd [version_conn; message_conn [list_message (bs "SER1" ++ [9] ++ bs "device" ++ [10])]])) =
       version_conn :: message_conn [msg] :: [] ->
     exists c', adb_commandline 1 1 demo_env [] (do_cmd_argv kTransportAny None [bs "link"; bs "/home/me/Sync/"])
       (demo_cmd [version_conn; message_conn [list_message (bs "SER1" ++ [9] ++ bs "device" ++ [10])]]) = Ok (0, c') /\ c_ext c' = []).
Proof.
  apply (link_needs_twelve_characters one_device one_device 1 demo_transport (bs "SER1") demo_env [] 1 1 kTransportAny None
    (bs "/home/me/Sync/") [] (demo_cmd [version_conn; message_conn [list_message (bs "SER1" ++ [9] ++ bs "device" ++ [10])]])).
  - reflexivity.
  - reflexivity.
  - reflexivity.
  - cbn. lia.
  - done.
  - lia.
Defined.
